(* ===== verification/_CoqProject ===== *)
-Q . S2P
Prelude.v
Bits.v
Bytes.v
Varint.v
Heap.v
Bitvec.v
Interval.v
BtPage.v
BtRep.v
BtFree.v
BtDefrag.v
BtAlloc.v
BtCell.v
BtKv.v
BtInit.v
BtPageProps.v
PagerIface.v
Freelist.v
FreelistProps.v
MemJournal.v
Wal.v
WalIndex.v
WalIter.v
WalRecover.v
WalRecovery.v
WalProps.v
WalHdr.v
WalWrite.v
WalFile.v
WalTx.v
WalLoops.v
WalSeal.v
WalFinish.v
WalStart.v
WalCommit.v
WalFrames.v
WalUndo.v
WalTrans.v
WalCkpt.v
WalSteps.v
WalBackfill.v
WalCheckpoint.v
WalCkptApi.v
Util.v
Busy.v
Jrnl.v
JrnlFile.v
JrnlSteps.v
JrnlSync.v
JrnlWrite.v
JrnlCache.v
JrnlCommit.v
JrnlEnd.v
JrnlTx.v
JrnlPlay.v
JrnlHot.v
