(* ===== verification/Prelude.v ===== *)
(** * A verification of btreelite, the storage engine of SQLite cut loose

    The program ([src/src]) is a key/value store: a b-tree in pages
    ([btree.c]), a pager that makes changes to pages atomic ([pager.c], with
    its journals and the write-ahead log [wal.c]), a page cache, and an
    operating system layer.  This development models the parts in which the
    format of the file, the format of the log and the bookkeeping of both are
    decided, and proves them correct.

    ** How the code is read

    Integers are [Z]; where a C integer can wrap, the wrap is written out
    ([u8], [u16], [u32], [u64], [i32] below), and where signed overflow is
    undefined the operation is partial.  A buffer is a list of bytes.  A C
    function that changes state is a computation of the monad [M S] below: it
    returns, returns an error code in the state it reached, or is [Undef]: it
    read or wrote outside of a buffer, or a loop used up its fuel.  Every
    theorem about such a function says in particular that it is never [Undef].
    What is not code of the program is a parameter: which allocation fails
    ([mallocOk]), the result of the [n]-th request to the disk ([ioRc]), for
    shared memory ([shmRc]) or for certain locks ([lockRc]), how much of a write that
    fails reaches the disk ([partial]), random bytes ([randomness]), the byte
    order ([SQLITE_BIGENDIAN]); the theorems hold for all of them.

    ** The parts

    Shared: this file (outcomes, the monad and its [wp], integer widths,
    tactics, the hint database [lengths]); [Bits] (decides equalities of
    bit operations by reflection); [Bytes] (buffers); [Heap] (allocations);
    [Interval] (disjoint regions of a page).

    - [Varint], [util.c]: the varint codec, its three decoders and the big-endian
      accessors.  [varint_roundtrip], [varint_decoders_correct].
    - [BtPage], [btree.c] and [btreeInt.h]: the data of a page, the parsers of
      cells, [btreeInitPage] and its checks.  [BtRep] says what a page
      represents: a list of cells ([page_holds]).  [BtFree] is [freeSpace],
      [BtDefrag] is [defragmentPage], [BtAlloc] is [pageFindSlot] and
      [allocateSpace], [BtCell] is [dropCell], [insertCell] and
      [insertCellFast], [BtKv] the format of key/value cells, [BtInit] the facts about opening
      and clearing pages.  [BtPageProps] has the theorems: each operation is the
      list operation on the cells, keeps the page well formed and its
      free-space count exact; on pages read from a damaged file the
      operations stay inside the page and report corruption.
    - [Bitvec], [bitvec.c]: the three representations refine a finite set, under
      failing allocations.
    - [Freelist], [btree.c]: [freePage2] and [allocateBtreePage] with their
      helpers, over the class [Pager] of [PagerIface] and its laws;
      [FreelistProps]: no page is lost or handed out twice, along any history.
    - [MemJournal], [memjournal.c]: in-memory journals, over a class [Vfs]; a
      handle behaves like a file, in memory, while spilling and on disk.
    - [Util], [util.c]: string comparison, parsing of integers, checked 64-bit
      arithmetic.  [Busy], [btreelite_compat.c]: the busy handlers.
    - The write-ahead log, [wal.c].  [Wal]: checksums and frame headers.
      [WalIndex]: the hash tables of the wal-index ([index_ok log] relates
      them to the list of page numbers of the frames).  [WalIter]: the merge
      sort and the iterator of a checkpoint.  [WalRecover]: [walIndexRecover];
      [WalRecovery]: what it establishes, in terms of the frames a file holds
      ([log_frames], [log_commit]).  [WalHdr]: [walIndexTryHdr], and its race
      with [walIndexWriteHdr] as a step relation on the words of shared
      memory.  [WalProps]: the theorems of these files.
    - Writing the log, [wal.c].  [WalWrite]: [walFrames] with all it calls,
      the write transactions, undo, savepoints, [walRestartLog], and reading a
      page back.  [WalFile]: a log file as a list of frames; [WalTx]: the
      effect of each request on that list; [WalLoops], [WalSeal], [WalFinish],
      [WalStart]: the loop that writes the pages, the
      new checksums after frames were overwritten, padding and syncing, the
      index and the header, the start of a log; [WalCommit], [WalFrames]: the
      invariant [writer] of a connection in a write transaction and what a
      call of [walFrames] makes of it; [WalUndo]: rollback.  [WalTrans] has the
      theorems: a commit is what a recovery restores, an error loses no
      committed transaction, a rollback restores the last commit, what was
      written is read back.

    - Checkpoints, [wal.c].  [WalCkpt]: [sqlite3WalCheckpoint],
      [walCheckpoint] and [walIndexReadHdr] with what they call, over the
      database file and the log file.  [WalSteps]: the effect of each request
      and of the loop that copies pages; [WalBackfill]: the work done under the
      first read lock; [WalCheckpoint]: a checkpoint never copies a frame past
      what a reader still needs and keeps every snapshot readable, and one
      that returns without an error has copied all that was allowed;
      [WalCkptApi]: the call as a whole and its errors.

    - The rollback journal, [pager.c] and the page flags of [pcache.c].
      [Jrnl]: the functions of the pager from [sqlite3PagerBegin] to the end of
      a transaction, and the playback of a journal, over two files of which the
      disk holds what was synced, and any part of the rest after a power loss.
      [JrnlFile]: that power loss ([crash]), the format of a journal ([chain]),
      and when a journal and a database can be recovered from ([safe]).
      [JrnlSteps]: the effect of each request; [JrnlSync], [JrnlWrite]:
      headers, records and syncs of the journal, the invariant of a transaction
      ([wr_inv]); [JrnlCache]: reading pages and changing them in the cache, and
      the content of a page wherever it is ([holds]); [JrnlCommit]: spilling and
      the first phase of a commit; [JrnlEnd]: how the journal is made invalid.
      [JrnlTx] has the theorems about transactions, as sequences of gets,
      writes, changes, exchanges of two pages, spills and evictions ([tx_step])
      that keep track of what the content of each page should be: at every
      moment the old database can be recovered, up to one moment of the commit,
      and from then on the files are the new database.  The leaves of the list
      of free pages ([unused]) are let go: such a page is fetched without its
      content ([PAGER_GET_NOCONTENT]) and then not journalled, and one that
      becomes free need not be written ([sqlite3PagerDontWrite]); the old
      database means all other pages.  [JrnlPlay] and [JrnlHot]: the
      playback after a power loss does recover it, and can itself be interrupted
      ([hot_journal_restores]).

    A reader or checkpointer is another connection on the same shared memory:
    [reader_snapshot_stable] says its lookups do not change while a writer
    works, [header_read_is_atomic] that it never accepts half of a header.

    ** Bounds and fuel

    A fuelled loop is given enough fuel by the definition that calls it, and
    the theorems show that it does not run out: the hash probes of the wal-index
    stop after the [HASHTABLE_NSLOT] slots, of which half are free; freeblock
    chains ascend, so a page has fewer freeblocks than bytes; the loop that pads a
    commit writes at most [max_pad] frames, as a sector has at most 65536 bytes
    and a frame more than 512; the merge sort has 13 levels for tables of 4096 frames; the
    loop of a checkpoint visits a page at most once, so one more than the
    frames of the log is enough; the playback of a journal passes a header of
    at least 32 bytes in each round, so the length of the journal is enough; a busy handler gives up after at most
    [busyMax] calls.  A
    log has fewer than [max_frame] frames, which keeps frame numbers and
    offsets within their integers; page sizes are powers of two from 512 to
    65536, as [sqlite3BtreeSetPageSize] enforces.

    ** Not modelled

    The operating system layer ([os.c], [os_unix.c]), allocation, mutexes and
    status counters: system calls, whose outcomes are the parameters above.
    Of the pager: opening and closing, savepoints, temporary files, journals in
    memory, memory mapping, backups, page sizes below the sector size, moving
    pages and shrinking the database (auto-vacuum), and the calls of the
    write-ahead log; the memory and the lists of the page cache
    ([pcache1.c]).  The b-tree sees the pager through
    [PagerIface].  A power loss is taken to leave the parts of a file outside of
    unsynced writes alone, and never the first bytes of a journal header where
    none was written; devices for which the pager skips a sync are left out of
    the theorems ([durable]).  A rollback in the same process is modelled; the theorems on
    playback are for one after a power loss.  The cursors, balancing and overflow chains of [btree.c],
    which work on many pages of a connection.  Opening and closing the log,
    the parts of [walTryBeginRead] without [useWal] and the private index of a
    connection that cannot map shared memory.
    [walRestartLog] is modelled, but the theorems on [walFrames] are for
    connections that read from the log ([readLock] is not 0), where it does
    nothing.  [printf.c], [utf.c], [random.c]: debug output, conversions that
    nothing calls, a generator.  Pointers
    into a page are offsets, so aliasing of buffers is visible, but the
    process heap is only a counter of blocks.  Concurrency is between whole
    operations, except for the header of the wal-index, whose race is modelled
    word by word. *)
From stdpp Require Export base numbers list option tactics.
From Stdlib Require Export ZArith Lia.
#[global] Open Scope Z_scope.

(** ** Result codes ([src/src/btreeliteInt.h]) *)

Definition SQLITE_OK : Z := 0.
Definition SQLITE_ERROR : Z := 1.
Definition SQLITE_BUSY : Z := 5.
Definition SQLITE_NOMEM : Z := 7.
Definition SQLITE_IOERR : Z := 10.
Definition SQLITE_CORRUPT : Z := 11.
Definition SQLITE_NOTFOUND : Z := 12.
Definition SQLITE_EMPTY : Z := 16.
Definition SQLITE_DONE : Z := 101.
Definition SQLITE_IOERR_SHORT_READ : Z := Z.lor SQLITE_IOERR (Z.shiftl 2 8).
Definition SQLITE_IOERR_NOMEM : Z := Z.lor SQLITE_IOERR (Z.shiftl 12 8).

(** ** Outcomes and the state monad of the C functions

    A C function of the model runs in [M S]: it returns a value, returns an
    error code (keeping the state it reached), or has no defined meaning: it
    read or wrote outside a buffer, or a loop used up its fuel. *)

Inductive out (A : Type) : Type :=
  | Ret (a : A)
  | Fail (rc : Z)
  | Undef.
Arguments Ret {A} a.
Arguments Fail {A} rc.
Arguments Undef {A}.

Definition M (S A : Type) : Type := S -> out A * S.

Section Monad.
Context {S : Type}.

Definition ret {A} (a : A) : M S A := fun s => (Ret a, s).
Definition fail {A} (rc : Z) : M S A := fun s => (Fail rc, s).
Definition undef {A} : M S A := fun s => (Undef, s).
Definition bind {A B} (m : M S A) (f : A -> M S B) : M S B :=
  fun s =>
    match m s with
    | (Ret a, s') => f a s'
    | (Fail rc, s') => (Fail rc, s')
    | (Undef, s') => (Undef, s')
    end.
Definition gets {A} (f : S -> A) : M S A := fun s => (Ret (f s), s).
Definition modify (f : S -> S) : M S unit := fun s => (Ret tt, f s).
(** A value that may be missing because the code reads out of range. *)
Definition lift {A} (o : option A) : M S A :=
  match o with Some a => ret a | None => undef end.
End Monad.

Declare Scope code_scope.
Delimit Scope code_scope with code.
#[global] Open Scope code_scope.
Notation "'let*' x := m 'in' k" := (bind m (fun x => k))
  (at level 10, x pattern, m at level 100, k at level 200,
   format "'[v' 'let*'  x  :=  m  'in' '//' k ']'") : code_scope.
Notation "m ';;*' k" := (bind m (fun _ => k))
  (at level 100, right associativity,
   format "'[v' m  ';;*' '//' k ']'") : code_scope.

(** Predicate transformer of a computation: the style in which every
    theorem about stateful code is proved. *)
Definition wp {S A} (m : M S A) (Q : out A -> S -> Prop) (s : S) : Prop :=
  Q (fst (m s)) (snd (m s)).

(** What a continuation has to establish after a first computation. *)
Definition after {S A B} (f : A -> M S B) (Q : out B -> S -> Prop)
    (o : out A) (s : S) : Prop :=
  match o with
  | Ret a => wp (f a) Q s
  | Fail rc => Q (Fail rc) s
  | Undef => Q Undef s
  end.

Section Wp.
Context {S : Type}.

Lemma wp_ret {A} (a : A) Q (s : S) : Q (Ret a) s -> wp (ret a) Q s.
Proof. done. Qed.
Lemma wp_fail {A} rc (Q : out A -> S -> Prop) s :
  Q (Fail rc) s -> wp (fail rc) Q s.
Proof. done. Qed.
Lemma wp_bind {A B} (m : M S A) (f : A -> M S B) Q s :
  wp m (after f Q) s -> wp (bind m f) Q s.
Proof. unfold wp, bind, after, wp. cbn. by destruct (m s) as [[a|rc|] s']. Qed.
Lemma wp_bind_inv {A B} (m : M S A) (f : A -> M S B) Q s :
  wp (bind m f) Q s -> wp m (after f Q) s.
Proof. unfold wp, bind, after, wp. cbn. by destruct (m s) as [[a|rc|] s']. Qed.
Lemma wp_gets {A} (f : S -> A) Q s : Q (Ret (f s)) s -> wp (gets f) Q s.
Proof. done. Qed.
Lemma wp_modify (f : S -> S) Q s : Q (Ret tt) (f s) -> wp (modify f) Q s.
Proof. done. Qed.
Lemma wp_lift {A} (o : option A) a Q (s : S) :
  o = Some a -> Q (Ret a) s -> wp (lift o) Q s.
Proof. by intros ->. Qed.
Lemma wp_mono {A} (m : M S A) (P Q : out A -> S -> Prop) s :
  wp m P s -> (forall o s', P o s' -> Q o s') -> wp m Q s.
Proof. unfold wp. eauto. Qed.
Lemma wp_run {A} (m : M S A) Q s o s' :
  wp m Q s -> m s = (o, s') -> Q o s'.
Proof. unfold wp. intros H E. by rewrite E in H. Qed.
End Wp.

(** The two post-conditions in use.  [okp G P]: no undefined behaviour, [P] of
    a result and the state, [G] of the state when an error code is returned.
    [returns P]: no error either. *)
Definition okp {S A} (G : S -> Prop) (P : A -> S -> Prop) (o : out A) (s : S)
    : Prop :=
  match o with Ret a => P a s | Fail _ => G s | Undef => False end.
Definition returns {S A} (P : A -> S -> Prop) : out A -> S -> Prop :=
  okp (fun _ => False) P.

Section Okp.
Context {S : Type} (G : S -> Prop).

Lemma wp_seq {A B} (m : M S A) (f : A -> M S B) (P : A -> S -> Prop)
    (Q : B -> S -> Prop) s :
  wp m (okp G P) s -> (forall a s', P a s' -> wp (f a) (okp G Q) s') ->
  wp (bind m f) (okp G Q) s.
Proof.
  intros H1 H2. apply wp_bind. eapply wp_mono; [exact H1|].
  intros [a|rc|] s'; cbn; auto.
Qed.
Lemma okp_mono {A} (m : M S A) (P Q : A -> S -> Prop) s :
  wp m (okp G P) s -> (forall a s', P a s' -> Q a s') -> wp m (okp G Q) s.
Proof.
  intros H1 H2. eapply wp_mono; [exact H1|]. intros [a|rc|] s'; cbn; auto.
Qed.
Lemma returns_okp {A} (m : M S A) (P Q : A -> S -> Prop) s :
  wp m (returns P) s -> (forall a s', P a s' -> Q a s') -> wp m (okp G Q) s.
Proof.
  intros H1 H2. eapply wp_mono; [exact H1|]. intros [a|rc|] s'; cbn; auto.
  done.
Qed.
Lemma returns_run {A} (m : M S A) (P : A -> S -> Prop) s :
  wp m (returns P) s -> exists a s', m s = (Ret a, s') /\ P a s'.
Proof.
  unfold wp. destruct (m s) as [[a|rc|] s'] eqn:E; cbn; [eauto|done|done].
Qed.
Lemma okp_defined {A} (m : M S A) (P : A -> S -> Prop) s :
  wp m (okp G P) s -> fst (m s) <> Undef.
Proof. unfold wp. by destruct (m s) as [[a|rc|] s'] eqn:E. Qed.
End Okp.

(** Sequencing when the error cases of the first part are strengthened. *)
Lemma wp_seq_weak {S A B} (G G' : S -> Prop) (m : M S A) (f : A -> M S B) P Q s :
  wp m (okp G P) s -> (forall s', G s' -> G' s') -> (forall a s', P a s' -> wp (f a) (okp G' Q) s') ->
  wp (bind m f) (okp G' Q) s.
Proof. intros H1 H2 H3. apply wp_bind. eapply wp_mono; [exact H1|]. intros [a|rc|] s'; cbn; auto. Qed.
Lemma wp_assoc {S A B C} (m : M S A) (f : A -> M S B) (k : B -> M S C) Q s :
  wp (bind (bind m f) k) Q s -> wp (bind m (fun a => bind (f a) k)) Q s.
Proof. unfold wp, bind. by destruct (m s) as [[a|rc|] s']. Qed.

(** [wp_step] runs the first statement of a program. *)
Ltac wp_step :=
  lazymatch goal with
  | |- wp (bind _ _) _ _ => apply wp_bind
  | |- wp (ret _) _ _ => apply wp_ret
  | |- wp (fail _) _ _ => apply wp_fail
  | |- wp (gets _) _ _ => apply wp_gets
  | |- wp (modify _) _ _ => apply wp_modify
  | |- wp (lift (Some ?a)) _ _ => apply (wp_lift _ a); [reflexivity|]
  | |- after _ _ (Ret _) _ => unfold after
  | |- after _ _ (Fail _) _ => unfold after
  end.
Ltac wp_go := repeat wp_step.

(** ** Machine integers *)

Definition u8 (x : Z) : Z := x mod 2 ^ 8.
Definition u16 (x : Z) : Z := x mod 2 ^ 16.
Definition u32 (x : Z) : Z := x mod 2 ^ 32.
Definition u64 (x : Z) : Z := x mod 2 ^ 64.
(** Two's complement reading of a [w]-bit word. *)
Definition sext (w x : Z) : Z := (x + 2 ^ (w - 1)) mod 2 ^ w - 2 ^ (w - 1).
Definition i32 (x : Z) : Z := sext 32 x.
Definition i64 (x : Z) : Z := sext 64 x.

Lemma mod_small_range x m : 0 <= x < m -> x mod m = x.
Proof. apply Z.mod_small. Qed.

Lemma u8_range x : 0 <= u8 x < 256.
Proof. apply Z.mod_pos_bound. lia. Qed.
Lemma u16_range x : 0 <= u16 x < 65536.
Proof. apply Z.mod_pos_bound. lia. Qed.
Lemma u32_range x : 0 <= u32 x < 2 ^ 32.
Proof. apply Z.mod_pos_bound. lia. Qed.
Lemma u8_small x : 0 <= x < 256 -> u8 x = x.
Proof. apply Z.mod_small. Qed.
Lemma u16_small x : 0 <= x < 65536 -> u16 x = x.
Proof. apply Z.mod_small. Qed.
Lemma u32_small x : 0 <= x < 2 ^ 32 -> u32 x = x.
Proof. apply Z.mod_small. Qed.
Lemma u64_small x : 0 <= x < 2 ^ 64 -> u64 x = x.
Proof. apply Z.mod_small. Qed.
Lemma i32_small x : -(2 ^ 31) <= x < 2 ^ 31 -> i32 x = x.
Proof. intros H. unfold i32, sext. change (32 - 1) with 31. rewrite Z.mod_small by lia. lia. Qed.

(** Boolean tests of the code, turned into propositions. *)
Ltac zb :=
  repeat match goal with
  | H : (_ && _)%bool = true |- _ => apply andb_prop in H as [??]
  | H : (_ || _)%bool = false |- _ => apply orb_false_elim in H as [??]
  | H : negb _ = true |- _ => apply negb_true_iff in H
  | H : negb _ = false |- _ => apply negb_false_iff in H
  | H : (_ =? _) = true |- _ => apply Z.eqb_eq in H
  | H : (_ =? _) = false |- _ => apply Z.eqb_neq in H
  | H : (_ <=? _) = true |- _ => apply Z.leb_le in H
  | H : (_ <=? _) = false |- _ => apply Z.leb_gt in H
  | H : (_ <? _) = true |- _ => apply Z.ltb_lt in H
  | H : (_ <? _) = false |- _ => apply Z.ltb_ge in H
  end.
(** Case analysis on the first boolean test of the goal. *)
Ltac case_if :=
  match goal with
  | |- context [if ?b then _ else _] =>
      let E := fresh "Hif" in destruct b eqn:E; zb
  end.

Ltac case_if_in H :=
  match type of H with
  | context [if ?b then _ else _] =>
      let E := fresh "Hif" in destruct b eqn:E; zb
  end.

(** [lia] with the defining equations of division and modulo. *)
Ltac div_lia := Z.to_euclidean_division_equations; lia.

(** Closes the conjuncts that computation, hypotheses or [lia] settle. *)
Ltac fin := cbn; split_and?; first [done | lia | by auto | idtac].

(** ** Lengths

    [len] proves (in)equations between lengths: it unfolds the lengths as
    integers ([blen], [flen], added to the database where they are defined) and
    rewrites with the lengths of the list functions. *)
Create HintDb lengths.
Create Rewrite HintDb lengths.
#[export] Hint Rewrite @length_app @length_map @length_replicate @length_take @length_drop
  @length_insert @length_seqZ : lengths.
Ltac len := autounfold with lengths in *; autorewrite with lengths in *; cbn [length] in *; lia.
