(* ===== verification/Bits.v ===== *)
(** * Bit-level equalities by reflection

    Byte assembly and disassembly in the storage engine ([get4byte], varints,
    page headers, log frame headers) only uses or, shifts, masks by a constant
    and truncation.  [bits_solve] decides equalities of such expressions: an
    expression is reified, the [i]-th bit of the result is a list of bits of
    the inputs, and two expressions agree when these lists do for every bit
    below the width of the results. *)
From S2P Require Import Prelude.
From Stdlib Require Import Bool.

Inductive bexp : Type :=
  | BVar (v : nat)
  | BZero
  | BOr (a b : bexp)
  | BMask (a : bexp) (c : Z)
  | BShl (a : bexp) (k : Z)
  | BShr (a : bexp) (k : Z)
  | BMod (a : bexp) (k : Z).

(** An environment lists each variable's value and width. *)
Abbreviation benv := (list (Z * Z)).

Definition bvalue (env : benv) (v : nat) : Z :=
  match env !! v with Some (x, _) => x | None => 0 end.
Definition bwidth (env : benv) (v : nat) : Z :=
  match env !! v with Some (_, w) => w | None => 0 end.

Fixpoint denote (env : benv) (e : bexp) : Z :=
  match e with
  | BVar v => bvalue env v
  | BZero => 0
  | BOr a b => Z.lor (denote env a) (denote env b)
  | BMask a c => Z.land (denote env a) c
  | BShl a k => Z.shiftl (denote env a) k
  | BShr a k => Z.shiftr (denote env a) k
  | BMod a k => denote env a mod 2 ^ k
  end.

(** The input bits whose disjunction is bit [i] of the result.  The widths
    are passed apart from the values so that they compute. *)
Fixpoint bit_of (ws : list Z) (e : bexp) (i : Z) : list (nat * Z) :=
  match e with
  | BVar v =>
      if (0 <=? i) && (i <? default 0 (ws !! v)) then [(v, i)] else []
  | BZero => []
  | BOr a b => bit_of ws a i ++ bit_of ws b i
  | BMask a c => if Z.testbit c i then bit_of ws a i else []
  | BShl a k => bit_of ws a (i - k)
  | BShr a k => if 0 <=? i then bit_of ws a (i + k) else []
  | BMod a k => if i <? k then bit_of ws a i else []
  end.

Fixpoint bexp_ok (e : bexp) : bool :=
  match e with
  | BVar _ | BZero => true
  | BOr a b => bexp_ok a && bexp_ok b
  | BMask a c => bexp_ok a && (0 <=? c)
  | BShl a k | BShr a k | BMod a k => bexp_ok a && (0 <=? k)
  end.

(** Bits at and above [bound] are zero. *)
Fixpoint bound (ws : list Z) (e : bexp) : Z :=
  match e with
  | BVar v => default 0 (ws !! v)
  | BZero => 0
  | BOr a b => Z.max (bound ws a) (bound ws b)
  | BMask a _ | BShr a _ | BMod a _ => bound ws a
  | BShl a k => bound ws a + k
  end.

Definition lit_eqb (p q : nat * Z) : bool :=
  (fst p =? fst q)%nat && (snd p =? snd q).
Definition lits_sub (l1 l2 : list (nat * Z)) : bool :=
  forallb (fun p => existsb (lit_eqb p) l2) l1.

Fixpoint upto (n : nat) : list Z :=
  match n with O => [] | S n => upto n ++ [Z.of_nat n] end.

Definition bits_check (ws : list Z) (e1 e2 : bexp) : bool :=
  bexp_ok e1 && bexp_ok e2 &&
  forallb (fun i => lits_sub (bit_of ws e1 i) (bit_of ws e2 i)
                    && lits_sub (bit_of ws e2 i) (bit_of ws e1 i))
    (upto (Z.to_nat (Z.max (bound ws e1) (bound ws e2)))).

Definition benv_ok (env : benv) : Prop :=
  Forall (fun p => 0 <= fst p < 2 ^ snd p /\ 0 <= snd p) env.

Definition lit_value (env : benv) (p : nat * Z) : bool :=
  Z.testbit (bvalue env (fst p)) (snd p).

Lemma testbit_high x w i : 0 <= x < 2 ^ w -> w <= i -> Z.testbit x i = false.
Proof.
  intros Hx Hi. destruct (Z_lt_dec w 0).
  { rewrite Z.pow_neg_r in Hx; lia. }
  rewrite <- (Z.mod_small x (2 ^ w)) by done. apply Z.mod_pow2_bits_high. lia.
Qed.

Lemma bvalue_high env v i :
  benv_ok env -> bwidth env v <= i -> Z.testbit (bvalue env v) i = false.
Proof.
  unfold bvalue, bwidth. intros Henv Hi.
  destruct (env !! v) as [[x w]|] eqn:E; [|apply Z.testbit_0_l].
  eapply Forall_lookup_1 in Henv as [Hx Hw]; [|done]. cbn in *.
  by apply (testbit_high x w).
Qed.

Lemma width_lookup env v : default 0 ((snd <$> env) !! v) = bwidth env v.
Proof.
  rewrite list_lookup_fmap. unfold bwidth. by destruct (env !! v) as [[x w]|].
Qed.

Lemma bit_of_sound env e i :
  benv_ok env -> bexp_ok e = true ->
  Z.testbit (denote env e) i
  = existsb (lit_value env) (bit_of (snd <$> env) e i).
Proof.
  intros Henv. revert i.
  induction e as [v| |a IHa b IHb|a IH c|a IH k|a IH k|a IH k];
    intros i Hok; cbn [denote bit_of bexp_ok] in *; zb.
  - rewrite width_lookup. destruct (Z.leb_spec 0 i); cbn.
    + destruct (Z.ltb_spec i (bwidth env v)); cbn; [by rewrite orb_false_r|].
      by apply bvalue_high.
    + apply Z.testbit_neg_r. lia.
  - apply Z.testbit_0_l.
  - by rewrite Z.lor_spec, existsb_app, IHa, IHb.
  - rewrite Z.land_spec, IH by done.
    destruct (Z.testbit c i); [by rewrite andb_true_r|by rewrite andb_false_r].
  - destruct (Z.leb_spec 0 i).
    + by rewrite Z.shiftl_spec, IH by done.
    + rewrite Z.testbit_neg_r by lia. rewrite <- IH by done.
      symmetry. apply Z.testbit_neg_r. lia.
  - destruct (Z.leb_spec 0 i).
    + by rewrite Z.shiftr_spec, IH by done.
    + by rewrite Z.testbit_neg_r by lia.
  - destruct (Z.ltb_spec i k).
    + destruct (Z.leb_spec 0 i);
        [|by rewrite <- IH, !Z.testbit_neg_r by (done || lia)].
      by rewrite Z.mod_pow2_bits_low, IH by (done || lia).
    + by rewrite Z.mod_pow2_bits_high by lia.
Qed.

Lemma bit_of_high ws e i :
  bexp_ok e = true -> bound ws e <= i -> bit_of ws e i = [].
Proof.
  revert i.
  induction e as [v| |a IHa b IHb|a IH c|a IH k|a IH k|a IH k];
    intros i Hok Hi; cbn [bound bit_of bexp_ok] in *; zb.
  - destruct (Z.ltb_spec i (default 0 (ws !! v))); [lia|].
    by rewrite andb_false_r.
  - done.
  - rewrite IHa, IHb by (done || lia). done.
  - rewrite IH by done. by destruct (Z.testbit c i).
  - apply IH; [done|lia].
  - rewrite IH by (done || lia). by destruct (0 <=? i).
  - rewrite IH by done. by destruct (i <? k).
Qed.

Lemma upto_In n i : In i (upto n) <-> 0 <= i < Z.of_nat n.
Proof.
  induction n as [|n IH]; cbn [upto]; [cbn; lia|].
  rewrite in_app_iff, IH. cbn. lia.
Qed.

Lemma lits_sub_sound env l1 l2 :
  lits_sub l1 l2 = true ->
  existsb (lit_value env) l1 = true -> existsb (lit_value env) l2 = true.
Proof.
  unfold lits_sub. rewrite forallb_forall. intros Hsub.
  rewrite !existsb_exists. intros ([v i] & Hin & Hv).
  apply Hsub, existsb_exists in Hin as ([v' i'] & Hin' & Heq).
  unfold lit_eqb in Heq. cbn in Heq. apply andb_prop in Heq as [H1 H2].
  apply Nat.eqb_eq in H1. apply Z.eqb_eq in H2. subst. eauto.
Qed.

Theorem bits_check_sound env ws e1 e2 :
  benv_ok env -> ws = snd <$> env -> bits_check ws e1 e2 = true ->
  denote env e1 = denote env e2.
Proof.
  unfold bits_check. intros Henv -> Hc.
  apply andb_prop in Hc as [[H1 H2]%andb_prop Hall].
  rewrite forallb_forall in Hall.
  set (n := Z.to_nat _) in Hall. apply Z.bits_inj'. intros i Hi.
  rewrite !bit_of_sound by done.
  destruct (Z_lt_dec i (Z.of_nat n)) as [Hlt|Hge].
  - specialize (Hall i (proj2 (upto_In n i) (conj Hi Hlt))).
    apply andb_prop in Hall as [Ha Hb].
    apply eq_true_iff_eq. split; by apply lits_sub_sound.
  - subst n. by rewrite !bit_of_high by (done || lia).
Qed.

(** Reification.  [bits_solve] looks for a hypothesis [0 <= x < 2 ^ w] for
    each variable [x]; [0 <= x < 256] counts as width 8, and a byte known to
    be below 128 as width 7. *)
Ltac var_width x :=
  match goal with
  | _ : x < 128 |- _ => constr:(7)
  | _ : 0 <= x < 256 |- _ => constr:(8)
  | _ : 0 <= x < 65536 |- _ => constr:(16)
  | _ : 0 <= x < 2 ^ ?w |- _ => constr:(w)
  end.
Ltac env_find x env :=
  lazymatch env with
  | (x, _) :: _ => constr:(O)
  | _ :: ?env' => let n := env_find x env' in constr:(S n)
  end.
Ltac env_add x env :=
  match env with
  | _ => let _ := env_find x env in env
  | _ => let w := var_width x in constr:((x, w) :: env)
  end.
Ltac bits_env t env :=
  lazymatch t with
  | 0 => env
  | Z.lor ?a ?b => let env := bits_env a env in bits_env b env
  | Z.land ?a _ => bits_env a env
  | Z.shiftl ?a _ => bits_env a env
  | Z.shiftr ?a _ => bits_env a env
  | ?a mod 2 ^ _ => bits_env a env
  | _ => env_add t env
  end.
Ltac bits_reify t env :=
  lazymatch t with
  | 0 => constr:(BZero)
  | Z.lor ?a ?b =>
      let a := bits_reify a env in let b := bits_reify b env in
      constr:(BOr a b)
  | Z.land ?a ?c => let a := bits_reify a env in constr:(BMask a c)
  | Z.shiftl ?a ?k => let a := bits_reify a env in constr:(BShl a k)
  | Z.shiftr ?a ?k => let a := bits_reify a env in constr:(BShr a k)
  | ?a mod 2 ^ ?k => let a := bits_reify a env in constr:(BMod a k)
  | _ => let n := env_find t env in constr:(BVar n)
  end.
Ltac bits_env_ok :=
  unfold benv_ok; repeat (apply Forall_cons; [cbn; lia|]); apply Forall_nil_2.
Ltac bits_solve :=
  unfold u8, u16, u32, u64;
  lazymatch goal with
  | |- ?l = ?r =>
      let env := bits_env l constr:(@nil (Z * Z)) in
      let env := bits_env r env in
      let l' := bits_reify l env in
      let r' := bits_reify r env in
      let ws := eval cbn in (snd <$> env) in
      change (denote env l' = denote env r');
      apply (bits_check_sound env ws l' r'); [bits_env_ok | reflexivity | ];
      vm_compute; reflexivity
  end.

(** Or of disjoint fields is addition. *)
Lemma lor_shiftl_add a b k :
  0 <= k -> 0 <= b < 2 ^ k -> Z.lor (Z.shiftl a k) b = a * 2 ^ k + b.
Proof.
  intros Hk Hb. rewrite <- Z.shiftl_mul_pow2 by lia.
  rewrite <- Z.lxor_lor.
  - symmetry. apply Z.add_nocarry_lxor. apply Z.bits_inj'. intros i Hi.
    rewrite Z.land_spec, Z.testbit_0_l.
    destruct (Z_lt_dec i k).
    + by rewrite Z.shiftl_spec_low.
    + rewrite (testbit_high b k) by lia. apply andb_false_r.
  - apply Z.bits_inj'. intros i Hi. rewrite Z.land_spec, Z.testbit_0_l.
    destruct (Z_lt_dec i k).
    + by rewrite Z.shiftl_spec_low.
    + rewrite (testbit_high b k) by lia. apply andb_false_r.
Qed.

Lemma land_7f b : Z.land b 127 = b mod 2 ^ 7.
Proof. by rewrite <- Z.land_ones. Qed.
Lemma land_ff b : Z.land b 255 = b mod 2 ^ 8.
Proof. by rewrite <- Z.land_ones. Qed.

(** The continuation bit of a varint byte. *)
Lemma land_80 b : 0 <= b < 256 -> (Z.land b 128 =? 0) = (b <? 128).
Proof.
  intros Hb.
  replace (Z.land b 128) with (Z.shiftl (Z.shiftr b 7) 7) by bits_solve.
  rewrite Z.shiftl_mul_pow2, Z.shiftr_div_pow2 by lia.
  destruct (Z.ltb_spec b 128); zb.
  - apply Z.eqb_eq. rewrite Z.div_small; lia.
  - apply Z.eqb_neq. assert (b / 2 ^ 7 = 1); [|lia].
    symmetry. apply (Z.div_unique _ _ _ (b - 128)); lia.
Qed.
