(* ===== verification/Bytes.v ===== *)
(** * Byte buffers

    A C buffer is a list of bytes (each a [Z] in [0, 256)).  Reads and writes
    are partial: out of range they have no meaning ([None]), so a theorem that
    an operation of the code returns also says that it stays inside the
    buffer.  [bat] is the total reading used in specifications. *)
From S2P Require Import Prelude Bits.

Abbreviation bytes := (list Z).

Definition blen (d : bytes) : Z := Z.of_nat (length d).
Definition bytes_ok (d : bytes) : Prop := Forall (fun b => 0 <= b < 256) d.

(** [d[i]], the value read when [i] is in range and 0 otherwise. *)
Definition bat (d : bytes) (i : Z) : Z :=
  if 0 <=? i then default 0 (d !! Z.to_nat i) else 0.

Definition bget (d : bytes) (i : Z) : option Z :=
  if (0 <=? i) && (i <? blen d) then Some (bat d i) else None.

(** [d[i] = v]; the store truncates to a byte. *)
Definition bset (d : bytes) (i v : Z) : option bytes :=
  if (0 <=? i) && (i <? blen d) then Some (<[Z.to_nat i := u8 v]> d) else None.

(** The [n] bytes from [off]. *)
Definition bsub (d : bytes) (off n : Z) : option bytes :=
  if (0 <=? off) && (0 <=? n) && (off + n <=? blen d)
  then Some (take (Z.to_nat n) (drop (Z.to_nat off) d)) else None.

(** [memcpy(&d[off], src, n)] where [src] has [n] bytes; [memmove] too, as
    the source is read before the destination is written. *)
Definition blit (d : bytes) (off : Z) (src : bytes) : option bytes :=
  if (0 <=? off) && (off + blen src <=? blen d)
  then Some (take (Z.to_nat off) d ++ src
             ++ drop (Z.to_nat (off + blen src)) d)
  else None.

Definition zeros (n : Z) : bytes := replicate (Z.to_nat n) 0.

(** [memset(&d[off], 0, n)]; a negative [n] would be a huge [size_t]. *)
Definition bzero (d : bytes) (off n : Z) : option bytes :=
  if 0 <=? n then blit d off (zeros n) else None.

(** [get2byte(&d[i])] and [put2byte(&d[i], v)] ([src/src/btreeInt.h]). *)
Definition get2byte (d : bytes) (i : Z) : option Z :=
  x0 ← bget d i; x1 ← bget d (i + 1); Some (Z.lor (Z.shiftl x0 8) x1).
Definition put2byte (d : bytes) (i v : Z) : option bytes :=
  d ← bset d i (Z.shiftr v 8); bset d (i + 1) v.

(** Value of a big-endian two-byte field, total. *)
Definition at2 (d : bytes) (i : Z) : Z := bat d i * 256 + bat d (i + 1).

(** ** Reading laws *)

#[export] Hint Unfold blen : lengths.
Lemma blen_nonneg d : 0 <= blen d.
Proof. len. Qed.
Lemma blen_app a b : blen (a ++ b) = blen a + blen b.
Proof. len. Qed.

Lemma bat_range d i : bytes_ok d -> 0 <= bat d i < 256.
Proof.
  intros Hd. unfold bat. destruct (0 <=? i); [|lia].
  destruct (d !! Z.to_nat i) eqn:E; cbn; [|lia].
  by eapply Forall_lookup_1 in Hd; [|done].
Qed.

Lemma bat_outside d i : i < 0 \/ blen d <= i -> bat d i = 0.
Proof.
  unfold bat, blen. intros Hi. destruct (Z.leb_spec 0 i); [|done].
  rewrite lookup_ge_None_2; [done|lia].
Qed.

Lemma bget_in d i : 0 <= i < blen d -> bget d i = Some (bat d i).
Proof.
  intros Hi. unfold bget.
  by destruct (Z.leb_spec 0 i), (Z.ltb_spec i (blen d)); try lia.
Qed.

Lemma bget_Some d i v :
  bget d i = Some v <-> 0 <= i < blen d /\ v = bat d i.
Proof.
  unfold bget.
  destruct (Z.leb_spec 0 i), (Z.ltb_spec i (blen d)); cbn;
    split; intros H1; destruct_and?; simplify_eq; done || lia.
Qed.

Lemma blen_snoc (l : bytes) x : blen (l ++ [x]) = blen l + 1.
Proof. unfold blen. rewrite length_app. cbn. lia. Qed.
Lemma bytes_ext d1 d2 :
  blen d1 = blen d2 -> (forall i, 0 <= i < blen d1 -> bat d1 i = bat d2 i) ->
  d1 = d2.
Proof.
  unfold blen, bat. intros Hlen Hat. apply list_eq. intros i.
  destruct (decide (i < length d1)%nat) as [Hi|Hi].
  - specialize (Hat (Z.of_nat i)). rewrite Nat2Z.id in Hat.
    destruct (Z.leb_spec 0 (Z.of_nat i)); [|lia].
    destruct (lookup_lt_is_Some_2 d1 i) as [x Hx]; [done|].
    destruct (lookup_lt_is_Some_2 d2 i) as [y Hy]; [lia|].
    rewrite Hx, Hy in *. cbn in Hat. f_equal. apply Hat. lia.
  - rewrite !lookup_ge_None_2; [done|lia|lia].
Qed.

(** ** Writing laws *)

Lemma bset_in d i v :
  0 <= i < blen d -> exists d', bset d i v = Some d'.
Proof.
  intros Hi. unfold bset.
  destruct (Z.leb_spec 0 i), (Z.ltb_spec i (blen d)); try lia. cbn. eauto.
Qed.

Lemma bset_len d i v d' : bset d i v = Some d' -> blen d' = blen d.
Proof.
  unfold bset, blen. case_match; [|done]. intros [= <-].
  by rewrite length_insert.
Qed.

Lemma bset_at d i v d' j :
  bset d i v = Some d' -> bat d' j = if j =? i then u8 v else bat d j.
Proof.
  unfold bset. case_match eqn:E; [|done]. intros [= <-]. zb.
  unfold bat, blen in *. destruct (Z.leb_spec 0 j).
  - destruct (Z.eqb_spec j i) as [->|Hne].
    + rewrite list_lookup_insert_eq by lia. done.
    + by rewrite list_lookup_insert_ne by lia.
  - destruct (Z.eqb_spec j i); [lia|done].
Qed.

Lemma bset_ok d i v d' : bytes_ok d -> bset d i v = Some d' -> bytes_ok d'.
Proof.
  unfold bset. case_match; [|done]. intros Hd [= <-].
  apply Forall_insert; [done|]. apply u8_range.
Qed.

(** A store into an array of wider words; the value is already truncated. *)
Definition aset (d : list Z) (i v : Z) : option (list Z) :=
  if (0 <=? i) && (i <? blen d) then Some (<[Z.to_nat i := v]> d) else None.

Lemma aset_in d i v : 0 <= i < blen d -> exists d', aset d i v = Some d'.
Proof.
  intros Hi. unfold aset.
  destruct (Z.leb_spec 0 i), (Z.ltb_spec i (blen d)); try lia. cbn. eauto.
Qed.
Lemma aset_len d i v d' : aset d i v = Some d' -> blen d' = blen d.
Proof.
  unfold aset, blen. case_match; [|done]. intros [= <-].
  by rewrite length_insert.
Qed.
Lemma aset_at d i v d' j :
  aset d i v = Some d' -> bat d' j = if j =? i then v else bat d j.
Proof.
  unfold aset. case_match eqn:E; [|done]. intros [= <-]. zb.
  unfold bat, blen in *. destruct (Z.leb_spec 0 j).
  - destruct (Z.eqb_spec j i) as [->|Hne].
    + rewrite list_lookup_insert_eq by lia. done.
    + by rewrite list_lookup_insert_ne by lia.
  - destruct (Z.eqb_spec j i); [lia|done].
Qed.

Lemma blit_in d off src :
  0 <= off -> off + blen src <= blen d -> exists d', blit d off src = Some d'.
Proof.
  intros H1 H2. unfold blit.
  destruct (Z.leb_spec 0 off), (Z.leb_spec (off + blen src) (blen d));
    try lia. cbn. eauto.
Qed.

Lemma blit_bounds d off src d' :
  blit d off src = Some d' -> 0 <= off /\ off + blen src <= blen d.
Proof. unfold blit. case_match; [|done]. zb. lia. Qed.

Lemma blit_len d off src d' : blit d off src = Some d' -> blen d' = blen d.
Proof.
  intros Hb. pose proof (blit_bounds _ _ _ _ Hb). revert Hb.
  unfold blit, blen in *. case_match; [|done]. intros [= <-].
  rewrite !length_app, length_take, length_drop. lia.
Qed.

Lemma blit_at d off src d' j :
  blit d off src = Some d' ->
  bat d' j = if (off <=? j) && (j <? off + blen src)
             then bat src (j - off) else bat d j.
Proof.
  intros Hb. pose proof (blit_bounds _ _ _ _ Hb) as [H1 H2]. revert Hb.
  unfold blit. case_match; [|done]. intros [= <-].
  unfold bat, blen in *.
  destruct (Z.leb_spec 0 j) as [Hj|Hj].
  2:{ destruct (Z.leb_spec off j); [lia|done]. }
  destruct (Z.leb_spec off j) as [Ho|Ho]; cbn.
  - destruct (Z.leb_spec 0 (j - off)); [|lia].
    rewrite lookup_app_r; rewrite length_take; [|lia].
    destruct (Z.ltb_spec j (off + Z.of_nat (length src))).
    + rewrite lookup_app_l by lia. do 2 f_equal. lia.
    + rewrite lookup_app_r by lia. rewrite lookup_drop. do 2 f_equal. lia.
  - rewrite lookup_app_l by (rewrite length_take; lia).
    by rewrite lookup_take_lt by lia.
Qed.

Lemma blit_ok d off src d' :
  bytes_ok d -> bytes_ok src -> blit d off src = Some d' -> bytes_ok d'.
Proof.
  unfold blit. case_match; [|done]. intros Hd Hs [= <-].
  repeat apply Forall_app_2; [by apply Forall_take|done|by apply Forall_drop].
Qed.

Lemma bsub_in d off n :
  0 <= off -> 0 <= n -> off + n <= blen d -> exists s, bsub d off n = Some s.
Proof.
  intros H1 H2 H3. unfold bsub.
  destruct (Z.leb_spec 0 off), (Z.leb_spec 0 n),
    (Z.leb_spec (off + n) (blen d)); try lia. cbn. eauto.
Qed.

Lemma bsub_bounds d off n s :
  bsub d off n = Some s -> 0 <= off /\ 0 <= n /\ off + n <= blen d.
Proof. unfold bsub. case_match; [|done]. zb. lia. Qed.

Lemma bsub_len d off n s : bsub d off n = Some s -> blen s = n.
Proof.
  intros Hb. pose proof (bsub_bounds _ _ _ _ Hb). revert Hb.
  unfold bsub, blen in *. case_match; [|done]. intros [= <-].
  rewrite length_take, length_drop. lia.
Qed.

Lemma bsub_at d off n s j :
  bsub d off n = Some s -> 0 <= j < n -> bat s j = bat d (off + j).
Proof.
  intros Hb Hj. pose proof (bsub_bounds _ _ _ _ Hb). revert Hb.
  unfold bsub, bat. case_match; [|done]. intros [= <-].
  destruct (Z.leb_spec 0 j), (Z.leb_spec 0 (off + j)); try lia.
  rewrite lookup_take_lt by lia. rewrite lookup_drop. do 2 f_equal. lia.
Qed.

Lemma bsub_ok d off n s : bytes_ok d -> bsub d off n = Some s -> bytes_ok s.
Proof.
  unfold bsub. case_match; [|done]. intros Hd [= <-].
  by apply Forall_take, Forall_drop.
Qed.

Lemma zeros_len n : 0 <= n -> blen (zeros n) = n.
Proof. intros Hn. unfold blen, zeros. rewrite length_replicate. lia. Qed.
Lemma zeros_at n i : bat (zeros n) i = 0.
Proof.
  unfold bat, zeros. destruct (0 <=? i); [|done].
  destruct (replicate _ _ !! _) eqn:E; [|done].
  by apply lookup_replicate in E as [-> _].
Qed.
Lemma zeros_ok n : bytes_ok (zeros n).
Proof. apply Forall_replicate. lia. Qed.

(** ** Two-byte fields *)

Lemma get2byte_in d i :
  bytes_ok d -> 0 <= i -> i + 1 < blen d -> get2byte d i = Some (at2 d i).
Proof.
  intros Hd Hi Hlen. unfold get2byte, at2.
  rewrite !bget_in by lia. cbn. f_equal.
  apply lor_shiftl_add; [lia|]. by apply bat_range.
Qed.

Lemma get2byte_Some d i v :
  bytes_ok d -> get2byte d i = Some v ->
  0 <= i /\ i + 1 < blen d /\ v = at2 d i.
Proof.
  intros Hd. unfold get2byte. destruct (bget d i) eqn:E1; [|done].
  cbn. destruct (bget d (i + 1)) eqn:E2; [|done]. cbn. intros [= <-].
  apply bget_Some in E1 as [? ->], E2 as [? ->].
  split; [lia|]. split; [lia|]. apply lor_shiftl_add; [lia|].
  by apply bat_range.
Qed.

Lemma at2_range d i : bytes_ok d -> 0 <= at2 d i < 65536.
Proof.
  intros Hd. unfold at2.
  pose proof (bat_range d i Hd). pose proof (bat_range d (i + 1) Hd). lia.
Qed.

Lemma put2byte_in d i v :
  0 <= i -> i + 1 < blen d -> exists d', put2byte d i v = Some d'.
Proof.
  intros Hi Hlen. unfold put2byte.
  destruct (bset_in d i (Z.shiftr v 8)) as [d1 E1]; [lia|]. rewrite E1. cbn.
  apply bset_in. rewrite (bset_len _ _ _ _ E1). lia.
Qed.

Lemma put2byte_inv d i v d' :
  put2byte d i v = Some d' ->
  exists d1, bset d i (Z.shiftr v 8) = Some d1 /\ bset d1 (i + 1) v = Some d'.
Proof.
  unfold put2byte. destruct (bset d i _) as [d1|]; [|done]. cbn. eauto.
Qed.

Lemma put2byte_len d i v d' : put2byte d i v = Some d' -> blen d' = blen d.
Proof.
  intros (d1 & H1 & H2)%put2byte_inv.
  by rewrite (bset_len _ _ _ _ H2), (bset_len _ _ _ _ H1).
Qed.

Lemma put2byte_ok d i v d' :
  bytes_ok d -> put2byte d i v = Some d' -> bytes_ok d'.
Proof.
  intros Hd (d1 & H1 & H2)%put2byte_inv. eauto using bset_ok.
Qed.

Lemma put2byte_at d i v d' j :
  put2byte d i v = Some d' -> j <> i -> j <> i + 1 -> bat d' j = bat d j.
Proof.
  intros (d1 & H1 & H2)%put2byte_inv Hi Hj.
  rewrite (bset_at _ _ _ _ _ H2), (bset_at _ _ _ _ _ H1).
  destruct (Z.eqb_spec j (i + 1)), (Z.eqb_spec j i); try lia.
Qed.

Lemma put2byte_at2 d i v d' :
  put2byte d i v = Some d' -> 0 <= v < 65536 -> at2 d' i = v.
Proof.
  intros (d1 & H1 & H2)%put2byte_inv Hv. unfold at2.
  rewrite !(bset_at _ _ _ _ _ H2), !(bset_at _ _ _ _ _ H1).
  destruct (Z.eqb_spec i (i + 1)); [lia|].
  destruct (Z.eqb_spec (i + 1) (i + 1)); [|lia].
  destruct (Z.eqb_spec i i); [|lia].
  unfold u8. rewrite Z.shiftr_div_pow2 by lia.
  rewrite (Z.mod_small (v / 2 ^ 8)); [|split; [apply Z.div_pos|apply Z.div_lt_upper_bound]; lia].
  change 256 with (2 ^ 8) at 1. rewrite Z.mul_comm. symmetry.
  apply Z.div_mod. lia.
Qed.

Lemma at2_eq d d' i :
  bat d' i = bat d i -> bat d' (i + 1) = bat d (i + 1) -> at2 d' i = at2 d i.
Proof. unfold at2. by intros -> ->. Qed.
