(* ===== verification/Varint.v ===== *)
(** * Variable-length integers and big-endian words ([src/src/util.c])

    [sqlite3PutVarint], [sqlite3GetVarint], [sqlite3GetVarint32],
    [sqlite3VarintLen], their macros of [src/src/sqliteInt.h], and the
    four-byte accessors.  A pointer argument is the list of the bytes it
    points to; a decoder that would read past their end returns [None]. *)
From S2P Require Import Prelude Bits Bytes.

(** ** Definitions *)

(** [(signed char)x]. *)
Definition s8 (x : Z) : Z := sext 8 x.

Definition SLOT_2_0 : Z := 0x001fc07f.
Definition SLOT_4_2_0 : Z := 0xf01fc07f.

(** The in-place reversal at the end of [putVarint64]: [cnt] swaps left. *)
Fixpoint swap_loop (cnt i : nat) (buf : bytes) : option bytes :=
  match cnt with
  | O => Some buf
  | S cnt =>
      let n := length buf in
      j ← buf !! i; x ← buf !! (n - 1 - i)%nat;
      swap_loop cnt (S i) (<[(n - 1 - i)%nat := j]> (<[i := x]> buf))
  end.

(** [do{ buf[n++] = (v&0x7f)|0x80; v>>=7; }while( v )]. *)
Fixpoint putVarint64_loop (fuel : nat) (v : Z) (buf : bytes) : option bytes :=
  match fuel with
  | O => None
  | S fuel =>
      let buf := buf ++ [Z.lor (Z.land v 127) 128] in
      let v := Z.shiftr v 7 in
      if v =? 0 then Some buf else putVarint64_loop fuel v buf
  end.

(** [for(i=7; i>=0; i--){ p[i] = (v&0x7f)|0x80; v>>=7; }], [k] bytes left. *)
Fixpoint putVarint64_nine (k : nat) (v : Z) (p : bytes) : bytes :=
  match k with
  | O => p
  | S k => putVarint64_nine k (Z.shiftr v 7) (Z.lor (Z.land v 127) 128 :: p)
  end.

(** The bytes stored at [p]; the code returns their number. *)
Definition putVarint64 (v : Z) : option bytes :=
  if negb (Z.land v (Z.shiftl 0xff000000 32) =? 0) then
    Some (putVarint64_nine 8 (Z.shiftr v 8) [u8 v])
  else
    buf ← putVarint64_loop 10 v [];
    b0 ← buf !! 0%nat;
    let buf := <[0%nat := Z.land b0 127]> buf in
    swap_loop (length buf / 2) 0 buf.

Definition sqlite3PutVarint (v : Z) : option bytes :=
  if v <=? 0x7f then Some [Z.land v 127]
  else if v <=? 0x3fff then
    Some [Z.lor (Z.land (Z.shiftr v 7) 127) 128; Z.land v 127]
  else putVarint64 v.

(** [putVarint32(A,B)]. *)
Definition putVarint32 (v : Z) : option bytes :=
  if u32 v <? 128 then Some [u8 v] else sqlite3PutVarint v.

(** Number of bytes read and value.  [a], [b] and [s] are 32-bit. *)
Definition sqlite3GetVarint (p : bytes) : option (Z * Z) :=
  p0 ← p !! 0%nat;
  if 0 <=? s8 p0 then Some (1, p0) else
  p1 ← p !! 1%nat;
  if 0 <=? s8 p1 then
    Some (2, Z.lor (u32 (Z.shiftl (Z.land p0 127) 7)) p1) else
  let a := u32 (Z.shiftl p0 14) in
  let b := p1 in
  p2 ← p !! 2%nat;
  let a := Z.lor a p2 in
  if Z.land a 0x80 =? 0 then
    let a := Z.land a SLOT_2_0 in
    let b := Z.land b 0x7f in
    let b := u32 (Z.shiftl b 7) in
    Some (3, Z.lor a b) else
  let a := Z.land a SLOT_2_0 in
  p3 ← p !! 3%nat;
  let b := u32 (Z.shiftl b 14) in
  let b := Z.lor b p3 in
  if Z.land b 0x80 =? 0 then
    let b := Z.land b SLOT_2_0 in
    let a := u32 (Z.shiftl a 7) in
    Some (4, Z.lor a b) else
  let b := Z.land b SLOT_2_0 in
  let s := a in
  p4 ← p !! 4%nat;
  let a := u32 (Z.shiftl a 14) in
  let a := Z.lor a p4 in
  if Z.land a 0x80 =? 0 then
    let b := u32 (Z.shiftl b 7) in
    let a := Z.lor a b in
    let s := Z.shiftr s 18 in
    Some (5, Z.lor (u64 (Z.shiftl s 32)) a) else
  let s := u32 (Z.shiftl s 7) in
  let s := Z.lor s b in
  p5 ← p !! 5%nat;
  let b := u32 (Z.shiftl b 14) in
  let b := Z.lor b p5 in
  if Z.land b 0x80 =? 0 then
    let a := Z.land a SLOT_2_0 in
    let a := u32 (Z.shiftl a 7) in
    let a := Z.lor a b in
    let s := Z.shiftr s 18 in
    Some (6, Z.lor (u64 (Z.shiftl s 32)) a) else
  p6 ← p !! 6%nat;
  let a := u32 (Z.shiftl a 14) in
  let a := Z.lor a p6 in
  if Z.land a 0x80 =? 0 then
    let a := Z.land a SLOT_4_2_0 in
    let b := Z.land b SLOT_2_0 in
    let b := u32 (Z.shiftl b 7) in
    let a := Z.lor a b in
    let s := Z.shiftr s 11 in
    Some (7, Z.lor (u64 (Z.shiftl s 32)) a) else
  let a := Z.land a SLOT_2_0 in
  p7 ← p !! 7%nat;
  let b := u32 (Z.shiftl b 14) in
  let b := Z.lor b p7 in
  if Z.land b 0x80 =? 0 then
    let b := Z.land b SLOT_4_2_0 in
    let a := u32 (Z.shiftl a 7) in
    let a := Z.lor a b in
    let s := Z.shiftr s 4 in
    Some (8, Z.lor (u64 (Z.shiftl s 32)) a) else
  p8 ← p !! 8%nat;
  let a := u32 (Z.shiftl a 15) in
  let a := Z.lor a p8 in
  let b := Z.land b SLOT_2_0 in
  let b := u32 (Z.shiftl b 8) in
  let a := Z.lor a b in
  let s := u32 (Z.shiftl s 4) in
  let b := Z.land p4 0x7f in
  let b := Z.shiftr b 3 in
  let s := Z.lor s b in
  Some (9, Z.lor (u64 (Z.shiftl s 32)) a).

Definition SQLITE_MAX_U32 : Z := 2 ^ 32 - 1.

(** Called with [p[0] & 0x80] set. *)
Definition sqlite3GetVarint32 (p : bytes) : option (Z * Z) :=
  p0 ← p !! 0%nat; p1 ← p !! 1%nat;
  if Z.land p1 0x80 =? 0 then
    Some (2, Z.lor (Z.shiftl (Z.land p0 0x7f) 7) p1) else
  p2 ← p !! 2%nat;
  if Z.land p2 0x80 =? 0 then
    Some (3, Z.lor (Z.lor (Z.shiftl (Z.land p0 0x7f) 14)
                          (Z.shiftl (Z.land p1 0x7f) 7)) p2) else
  '(n, v64) ← sqlite3GetVarint p;
  if negb (Z.land v64 SQLITE_MAX_U32 =? v64) then Some (n, 0xffffffff)
  else Some (n, u32 v64).

(** [getVarint32(A,B)]. *)
Definition getVarint32 (p : bytes) : option (Z * Z) :=
  p0 ← p !! 0%nat;
  if p0 <? 0x80 then Some (1, p0) else sqlite3GetVarint32 p.

(** [for(i=1; (v >>= 7)!=0; i++)]. *)
Fixpoint varintLen_loop (fuel : nat) (v i : Z) : option Z :=
  match fuel with
  | O => None
  | S fuel =>
      let v := Z.shiftr v 7 in
      if v =? 0 then Some i else varintLen_loop fuel v (i + 1)
  end.
Definition sqlite3VarintLen (v : Z) : option Z := varintLen_loop 10 v 1.

(** The portable branch of the four-byte accessors. *)
Definition sqlite3Get4byte (d : bytes) (i : Z) : option Z :=
  p0 ← bget d i; p1 ← bget d (i + 1); p2 ← bget d (i + 2);
  p3 ← bget d (i + 3);
  Some (Z.lor (Z.lor (Z.lor (u32 (Z.shiftl p0 24)) (Z.shiftl p1 16))
                     (Z.shiftl p2 8)) p3).
Definition sqlite3Put4byte (d : bytes) (i v : Z) : option bytes :=
  d ← bset d i (Z.shiftr v 24);
  d ← bset d (i + 1) (Z.shiftr v 16);
  d ← bset d (i + 2) (Z.shiftr v 8);
  bset d (i + 3) v.

(** ** Reference decoder *)

(** Base-128 big-endian digits with a continuation bit, the ninth byte
    holding eight bits; [more] further seven-bit digits may follow. *)
Fixpoint varint_ref (more : nat) (n acc : Z) (p : bytes) : option (Z * Z) :=
  match p with
  | [] => None
  | b :: p =>
      match more with
      | O => Some (n + 1, acc * 256 + b)
      | S more =>
          if b <? 128 then Some (n + 1, acc * 128 + b)
          else varint_ref more (n + 1) (acc * 128 + (b - 128)) p
      end
  end.
Definition varint_spec (p : bytes) : option (Z * Z) := varint_ref 8 0 0 p.

(** ** Lemmas *)

Lemma s8_nonneg b : 0 <= b < 256 -> (0 <=? s8 b) = (b <? 128).
Proof.
  intros Hb. unfold s8, sext. change (2 ^ (8 - 1)) with 128.
  change (2 ^ 8) with 256.
  destruct (Z.ltb_spec b 128).
  - rewrite Z.mod_small by lia. apply Z.leb_le. lia.
  - replace (b + 128) with (b - 128 + 1 * 256) by lia.
    rewrite Z.mod_add, Z.mod_small by lia. apply Z.leb_gt. lia.
Qed.

Lemma digit_low acc b :
  0 <= b < 128 -> acc * 128 + b = Z.lor (Z.shiftl acc 7) (Z.land b 127).
Proof.
  intros Hb. rewrite land_7f, Z.mod_small by lia.
  symmetry. by apply lor_shiftl_add.
Qed.
Lemma digit_high acc b :
  128 <= b < 256 ->
  acc * 128 + (b - 128) = Z.lor (Z.shiftl acc 7) (Z.land b 127).
Proof.
  intros Hb. rewrite land_7f.
  assert (b mod 2 ^ 7 = b - 128) as ->.
  { symmetry. apply (Z.mod_unique _ _ 1); lia. }
  symmetry. apply lor_shiftl_add; lia.
Qed.
Lemma digit_last acc b :
  0 <= b < 256 -> acc * 256 + b = Z.lor (Z.shiftl acc 8) b.
Proof. intros Hb. symmetry. by apply lor_shiftl_add. Qed.

(** Splits one continuation test of the decoder and of the reference. *)
Ltac varint_test x :=
  match goal with
  | |- context [Z.land ?e 128 =? 0] =>
      replace (Z.land e 128) with (Z.land x 128) by bits_solve;
      rewrite (land_80 x) by lia
  | |- context [0 <=? s8 x] => rewrite (s8_nonneg x) by lia
  end;
  destruct (Z.ltb_spec x 128); [|].
Ltac varint_value :=
  rewrite ?digit_high by lia; rewrite ?digit_last by lia;
  rewrite ?digit_low by lia; do 2 f_equal; unfold SLOT_2_0, SLOT_4_2_0;
  bits_solve.

Lemma bytes_ok_cons b p : bytes_ok (b :: p) -> 0 <= b < 256 /\ bytes_ok p.
Proof. intros H. by inversion H. Qed.

(** Reads the next byte of the input on both sides. *)
Tactic Notation "varint_byte" ident(p) ident(x) ident(Hp) :=
  let Hx := fresh "Hx" in
  destruct p as [|x p]; [done|]; apply bytes_ok_cons in Hp as [Hx Hp];
  cbn [lookup list_lookup mbind option_bind varint_ref].

Lemma GetVarint_spec p :
  bytes_ok p -> sqlite3GetVarint p = varint_spec p.
Proof.
  intros Hp. unfold sqlite3GetVarint, varint_spec.
  varint_byte p p0 Hp. varint_test p0. { done. }
  varint_byte p p1 Hp. varint_test p1. { varint_value. }
  varint_byte p p2 Hp. varint_test p2. { varint_value. }
  varint_byte p p3 Hp. varint_test p3. { varint_value. }
  varint_byte p p4 Hp. varint_test p4. { varint_value. }
  varint_byte p p5 Hp. varint_test p5. { varint_value. }
  varint_byte p p6 Hp. varint_test p6. { varint_value. }
  varint_byte p p7 Hp. varint_test p7. { varint_value. }
  varint_byte p p8 Hp. varint_value.
Qed.

(** *** Encoding *)

(** A non-final digit as the encoder writes it. *)
Definition enc_digit (x : Z) : Z := Z.lor (Z.land x 127) 128.

Lemma enc_digit_range x : 128 <= enc_digit x < 256.
Proof.
  unfold enc_digit. rewrite Z.lor_comm, land_7f.
  change (Z.lor 128) with (Z.lor (Z.shiftl 1 7)).
  pose proof (Z.mod_pos_bound x (2 ^ 7)).
  rewrite lor_shiftl_add by lia. lia.
Qed.
Lemma enc_digit_low x : Z.land (enc_digit x) 127 = Z.land x 127.
Proof.
  unfold enc_digit. rewrite Z.land_lor_distr_l, <- Z.land_assoc.
  change (Z.land 127 127) with 127. change (Z.land 128 127) with 0.
  apply Z.lor_0_r.
Qed.

Lemma shiftr_is_0 v k :
  0 <= v -> 0 <= k -> (Z.shiftr v k =? 0) = (v <? 2 ^ k).
Proof.
  intros Hv Hk. rewrite Z.shiftr_div_pow2 by done.
  pose proof (Z.pow_pos_nonneg 2 k).
  destruct (Z.ltb_spec v (2 ^ k)).
  - by rewrite Z.div_small by lia.
  - apply Z.eqb_neq. pose proof (Z.div_le_lower_bound v (2 ^ k) 1). lia.
Qed.

Lemma top_byte_test v :
  0 <= v < 2 ^ 64 ->
  (Z.land v (Z.shiftl 0xff000000 32) =? 0) = (v <? 2 ^ 56).
Proof.
  intros Hv. change (Z.shiftl 0xff000000 32) with 0xff00000000000000.
  replace (Z.land v 0xff00000000000000) with (Z.shiftl (Z.shiftr v 56) 56)
    by bits_solve.
  rewrite <- shiftr_is_0 by lia.
  rewrite Z.shiftl_mul_pow2 by lia.
  destruct (Z.eqb_spec (Z.shiftr v 56) 0) as [->|Hne]; [done|].
  apply Z.eqb_neq. lia.
Qed.

(** The encoder's output, one case per length. *)
Fixpoint enc_digits (k : nat) (v : Z) : bytes :=
  match k with
  | O => []
  | S k => enc_digit (Z.shiftr v (7 * Z.of_nat (S k))) :: enc_digits k v
  end.
Definition enc (k : nat) (v : Z) : bytes := enc_digits k v ++ [Z.land v 127].
Definition enc9 (v : Z) : bytes := enc_digits 8 (Z.shiftr v 1) ++ [u8 v].

(** Evaluates the powers of two with a closed exponent in the goal. *)
Ltac pow_norm :=
  repeat match goal with
  | |- context [Z.pow 2 ?k] =>
      let c := eval vm_compute in (Z.pow 2 k) in
      lazymatch isZcst c with true => change (Z.pow 2 k) with c end
  end.

Lemma putVarint64_9 v :
  2 ^ 56 <= v < 2 ^ 64 -> putVarint64 v = Some (enc9 v).
Proof.
  intros Hv. unfold putVarint64.
  rewrite top_byte_test by lia. destruct (Z.ltb_spec v (2 ^ 56)); [lia|].
  cbn [negb putVarint64_nine]. unfold enc9, enc_digits, enc_digit.
  rewrite !Z.shiftr_shiftr by lia. reflexivity.
Qed.

Lemma putVarint64_lt9 v k :
  (1 <= k < 8)%nat -> 2 ^ (7 * Z.of_nat k) <= v < 2 ^ (7 * Z.of_nat (S k)) ->
  putVarint64 v = Some (enc k v).
Proof.
  intros Hk Hv. unfold putVarint64.
  assert (v < 2 ^ 56).
  { pose proof (Z.pow_le_mono_r 2 (7 * Z.of_nat (S k)) 56). lia. }
  assert (0 <= v). { pose proof (Z.pow_pos_nonneg 2 (7 * Z.of_nat k)). lia. }
  rewrite top_byte_test by lia. destruct (Z.ltb_spec v (2 ^ 56)); [|lia].
  cbn [negb].
  assert (k = 1 \/ k = 2 \/ k = 3 \/ k = 4 \/ k = 5 \/ k = 6 \/ k = 7)%nat
    as Hcase by lia.
  destruct_or! Hcase; subst k; pow_norm; cbn [putVarint64_loop app];
    rewrite ?Z.shiftr_shiftr by lia; rewrite ?shiftr_is_0 by lia; pow_norm.
  all: repeat match goal with
    | |- context [?x <? ?b] => destruct (Z.ltb_spec x b); try (exfalso; lia)
    end.
  all: cbn -[Z.pow Z.shiftr Z.land Z.lor Z.eqb].
  all: unfold enc_digit; rewrite Z.land_lor_distr_l, <- Z.land_assoc.
  all: change (Z.land 127 127) with 127; change (Z.land 128 127) with 0.
  all: by rewrite Z.lor_0_r.
Qed.

Lemma enc_digit_value x : enc_digit x - 128 = x mod 128.
Proof.
  unfold enc_digit. rewrite Z.lor_comm, land_7f.
  change (Z.lor 128) with (Z.lor (Z.shiftl 1 7)).
  pose proof (Z.mod_pos_bound x (2 ^ 7)).
  rewrite lor_shiftl_add by lia. change (2 ^ 7) with 128. lia.
Qed.

(** The decoder reads back [k] non-final digits. *)
Lemma varint_ref_digits k more n acc v rest :
  (k <= more)%nat -> 0 <= v ->
  varint_ref more n acc (enc_digits k v ++ rest) =
  varint_ref (more - k) (n + Z.of_nat k)
    (acc * 2 ^ (7 * Z.of_nat k) + (Z.shiftr v 7) mod 2 ^ (7 * Z.of_nat k)) rest.
Proof.
  intros Hk Hv. revert more n acc Hk.
  induction k as [|k IH]; intros more n acc Hk.
  - cbn [enc_digits app]. rewrite Nat.sub_0_r, Z.mod_1_r.
    f_equal; cbn; lia.
  - destruct more as [|more]; [lia|]. cbn [enc_digits app varint_ref].
    pose proof (enc_digit_range (Z.shiftr v (7 * Z.of_nat (S k)))).
    destruct (Z.ltb_spec (enc_digit (Z.shiftr v (7 * Z.of_nat (S k)))) 128);
      [lia|].
    rewrite IH by lia. rewrite enc_digit_value. cbn [Nat.sub].
    f_equal; [lia|].
    rewrite !Z.shiftr_div_pow2 by lia.
    replace (7 * Z.of_nat (S k)) with (7 * Z.of_nat k + 7) by lia.
    rewrite !Z.pow_add_r by lia.
    set (B := 2 ^ (7 * Z.of_nat k)). assert (0 < B) by (unfold B; lia).
    change (2 ^ 7) with 128.
    rewrite (Z.mul_comm B 128), <- (Z.div_div v 128 B) by lia.
    rewrite (Z.mul_comm 128 B), (Z.rem_mul_r (v / 128) B 128) by lia.
    rewrite (Z.div_div v 128 B), (Z.mul_comm 128 B) by lia. ring.
Qed.

Lemma enc_digits_len k v : length (enc_digits k v) = k.
Proof. induction k; cbn; lia. Qed.
Lemma enc_len k v : blen (enc k v) = Z.of_nat k + 1.
Proof. unfold blen, enc. rewrite length_app, enc_digits_len. cbn. lia. Qed.
Lemma enc9_len v : blen (enc9 v) = 9.
Proof. unfold blen, enc9. rewrite length_app, enc_digits_len. cbn. lia. Qed.

Lemma enc_digits_ok k v : bytes_ok (enc_digits k v).
Proof.
  induction k; constructor; [|done].
  match goal with |- context [enc_digit ?x] => pose proof (enc_digit_range x) end.
  lia.
Qed.
Lemma enc_ok k v : bytes_ok (enc k v).
Proof.
  apply Forall_app_2; [apply enc_digits_ok|]. constructor; [|done].
  rewrite land_7f. pose proof (Z.mod_pos_bound v (2 ^ 7)). lia.
Qed.
Lemma enc9_ok v : bytes_ok (enc9 v).
Proof.
  apply Forall_app_2; [apply enc_digits_ok|]. constructor; [|done].
  apply u8_range.
Qed.

Lemma varint_enc k v rest :
  (k < 8)%nat -> 0 <= v < 2 ^ (7 * Z.of_nat (S k)) ->
  varint_spec (enc k v ++ rest) = Some (Z.of_nat k + 1, v).
Proof.
  intros Hk Hv. unfold varint_spec, enc. rewrite <- app_assoc.
  rewrite varint_ref_digits by lia.
  destruct (8 - k)%nat as [|m] eqn:E; [lia|]. cbn [app varint_ref].
  rewrite land_7f. pose proof (Z.mod_pos_bound v (2 ^ 7)).
  destruct (Z.ltb_spec (v mod 2 ^ 7) 128); [|lia].
  do 2 f_equal. rewrite Z.shiftr_div_pow2 by lia. change (2 ^ 7) with 128.
  rewrite (Z.mod_small (v / 128)).
  - div_lia.
  - replace (7 * Z.of_nat (S k)) with (7 * Z.of_nat k + 7) in Hv by lia.
    rewrite Z.pow_add_r in Hv by lia.
    div_lia.
Qed.

Lemma varint_enc9 v rest :
  0 <= v < 2 ^ 64 -> varint_spec (enc9 v ++ rest) = Some (9, v).
Proof.
  intros Hv. unfold varint_spec, enc9. rewrite <- app_assoc.
  rewrite varint_ref_digits by (try apply Z.shiftr_nonneg; lia).
  cbn [Nat.sub app varint_ref]. do 2 f_equal.
  rewrite Z.shiftr_shiftr by lia. rewrite Z.shiftr_div_pow2 by lia.
  change (2 ^ (1 + 7)) with 256. unfold u8. change (2 ^ 8) with 256.
  change (7 * Z.of_nat 8) with 56.
  rewrite (Z.mod_small (v / 256)); [div_lia|].
  div_lia.
Qed.

(** The number of bytes of an encoding. *)
Definition varint_size (v : Z) : Z :=
  if v <? 2 ^ 7 then 1 else if v <? 2 ^ 14 then 2 else
  if v <? 2 ^ 21 then 3 else if v <? 2 ^ 28 then 4 else
  if v <? 2 ^ 35 then 5 else if v <? 2 ^ 42 then 6 else
  if v <? 2 ^ 49 then 7 else if v <? 2 ^ 56 then 8 else 9.

Lemma varint_size_cases v :
  0 <= v < 2 ^ 64 ->
  (exists k, (k < 8)%nat /\ varint_size v = Z.of_nat k + 1 /\
     (k = O \/ 2 ^ (7 * Z.of_nat k) <= v) /\ v < 2 ^ (7 * Z.of_nat (S k)))
  \/ (varint_size v = 9 /\ 2 ^ 56 <= v).
Proof.
  intros Hv. unfold varint_size.
  repeat match goal with
  | |- context [v <? ?b] => destruct (Z.ltb_spec v b)
  end; try (right; lia); left.
  all: [> exists 0%nat | exists 1%nat | exists 2%nat | exists 3%nat
        | exists 4%nat | exists 5%nat | exists 6%nat | exists 7%nat].
  all: pow_norm; repeat split; lia || (by left) || (right; lia) || reflexivity.
Qed.

Lemma enc_0 v : enc 0 v = [Z.land v 127].
Proof. done. Qed.
Lemma enc_1 v :
  enc 1 v = [Z.lor (Z.land (Z.shiftr v 7) 127) 128; Z.land v 127].
Proof. done. Qed.

(** What [sqlite3PutVarint] writes. *)
Lemma PutVarint_enc v :
  0 <= v < 2 ^ 64 ->
  exists p, sqlite3PutVarint v = Some p /\ bytes_ok p /\
    blen p = varint_size v /\
    forall rest, varint_spec (p ++ rest) = Some (blen p, v).
Proof.
  intros Hv. destruct (varint_size_cases v Hv) as [(k & Hk & -> & Hlo & Hhi)|[-> Hlo]].
  - exists (enc k v). rewrite enc_len.
    split; [|auto using enc_ok, varint_enc with lia].
    unfold sqlite3PutVarint.
    destruct (Z.leb_spec v 0x7f) as [H1|H1].
    { destruct Hlo as [->|Hlo]; [done|].
      destruct k; [done|]. exfalso.
      pose proof (Z.pow_le_mono_r 2 7 (7 * Z.of_nat (S k))). lia. }
    destruct k as [|k]; [cbn in Hhi; lia|]. destruct Hlo as [?|Hlo]; [lia|].
    destruct (Z.leb_spec v 0x3fff) as [H2|H2].
    { destruct k; [done|]. exfalso.
      pose proof (Z.pow_le_mono_r 2 14 (7 * Z.of_nat (S (S k)))). lia. }
    apply putVarint64_lt9; lia.
  - exists (enc9 v). rewrite enc9_len.
    split; [|auto using enc9_ok, varint_enc9].
    unfold sqlite3PutVarint.
    destruct (Z.leb_spec v 0x7f); [lia|]. destruct (Z.leb_spec v 0x3fff); [lia|].
    apply putVarint64_9. lia.
Qed.

(** [sqlite3VarintLen] counts seven bits per byte to the end, so it reports
    ten bytes from [2^63] on. *)
Lemma VarintLen_size v :
  0 <= v < 2 ^ 64 ->
  sqlite3VarintLen v = Some (if v <? 2 ^ 63 then varint_size v else 10).
Proof.
  intros Hv. unfold sqlite3VarintLen, varint_size. cbn [varintLen_loop].
  rewrite ?Z.shiftr_shiftr by lia. rewrite ?shiftr_is_0 by lia. pow_norm.
  repeat match goal with
  | |- context [?x <? ?b] => destruct (Z.ltb_spec x b); try reflexivity
  end; exfalso; lia.
Qed.

(** *** The 32-bit decoder *)

Definition sat32 (r : option (Z * Z)) : option (Z * Z) :=
  '(n, v) ← r; Some (n, if v <? 2 ^ 32 then v else 0xffffffff).

Lemma varint_ref_range more n acc p m v :
  bytes_ok p -> 0 <= acc -> varint_ref more n acc p = Some (m, v) ->
  n < m <= n + Z.of_nat more + 1 /\ m - n <= blen p /\
  0 <= v < (acc + 1) * 2 ^ (7 * Z.of_nat more + 8).
Proof.
  revert n acc p. induction more as [|more IH]; intros n acc p Hp Hacc;
    (destruct p as [|b p]; [done|]); apply bytes_ok_cons in Hp as [Hb Hp];
    unfold blen; cbn [varint_ref length].
  { intros [= <- <-]. change (2 ^ (7 * Z.of_nat 0 + 8)) with 256. lia. }
  replace (7 * Z.of_nat (S more) + 8) with (7 + (7 * Z.of_nat more + 8)) by lia.
  rewrite Z.pow_add_r by lia. change (2 ^ 7) with 128.
  pose proof (Z.pow_pos_nonneg 2 (7 * Z.of_nat more + 8)).
  destruct (Z.ltb_spec b 128).
  { intros [= <- <-]. split; [lia|]. split; [lia|].
    split; [lia|]. nia. }
  intros (H1 & H2 & H3)%IH; [|done|lia]. unfold blen in H2.
  split; [lia|]. split; [lia|]. split; [lia|]. nia.
Qed.

Lemma varint_spec_range p n v :
  bytes_ok p -> varint_spec p = Some (n, v) ->
  1 <= n <= 9 /\ n <= blen p /\ 0 <= v < 2 ^ 64.
Proof.
  intros Hp H. apply varint_ref_range in H as (H1 & H2 & H3); [|done|lia].
  change ((0 + 1) * 2 ^ (7 * Z.of_nat 8 + 8)) with (2 ^ 64) in H3. lia.
Qed.

Lemma getVarint32_spec p :
  bytes_ok p -> getVarint32 p = sat32 (varint_spec p).
Proof.
  intros Hp. unfold getVarint32, sqlite3GetVarint32.
  destruct p as [|p0 p]; [done|].
  pose proof Hp as [H0 Hp1]%bytes_ok_cons. cbn [lookup list_lookup mbind option_bind].
  change 0x80 with 128.
  destruct (Z.ltb_spec p0 128).
  { unfold sat32, varint_spec. cbn [varint_ref].
    destruct (Z.ltb_spec p0 128); [|lia]. cbn [mbind option_bind].
    destruct (Z.ltb_spec (0 * 128 + p0) (2 ^ 32)); [done|lia]. }
  assert (Hbig :
    ('(n, v64) ← sqlite3GetVarint (p0 :: p);
     if negb (Z.land v64 SQLITE_MAX_U32 =? v64) then Some (n, 0xffffffff)
     else Some (n, u32 v64)) = sat32 (varint_spec (p0 :: p))).
  { rewrite GetVarint_spec by done. unfold sat32.
    destruct (varint_spec (p0 :: p)) as [[n v]|] eqn:E; [|done]. cbn [mbind option_bind].
    apply varint_spec_range in E as (_ & _ & Hv); [|done].
    change SQLITE_MAX_U32 with (Z.ones 32). rewrite Z.land_ones by lia.
    unfold u32. change (2 ^ 32) with 4294967296. change (2 ^ 64) with 18446744073709551616 in Hv.
    destruct (Z.ltb_spec v 4294967296).
    - rewrite Z.mod_small by lia. by rewrite Z.eqb_refl.
    - destruct (Z.eqb_spec (v mod 4294967296) v); [|done].
      pose proof (Z.mod_pos_bound v 4294967296). lia. }
  destruct p as [|p1 p].
  { unfold sat32, varint_spec. cbn [varint_ref].
    by destruct (Z.ltb_spec p0 128); [lia|]. }
  apply bytes_ok_cons in Hp1 as [H1 Hp2].
  cbn [lookup list_lookup mbind option_bind]. rewrite (land_80 p1) by lia.
  destruct (Z.ltb_spec p1 128).
  { clear Hbig. unfold sat32, varint_spec. cbn [varint_ref].
    destruct (Z.ltb_spec p0 128), (Z.ltb_spec p1 128); try lia.
    cbn [mbind option_bind].
    destruct (Z.ltb_spec ((0 * 128 + (p0 - 128)) * 128 + p1) (2 ^ 32)); [|lia].
    rewrite digit_high, digit_low by lia. do 2 f_equal. bits_solve. }
  destruct p as [|p2 p].
  { unfold sat32, varint_spec. cbn [varint_ref].
    by destruct (Z.ltb_spec p0 128), (Z.ltb_spec p1 128); try lia. }
  apply bytes_ok_cons in Hp2 as [Hb2 Hp3].
  cbn [lookup list_lookup mbind option_bind]. rewrite (land_80 p2) by lia.
  destruct (Z.ltb_spec p2 128); [|exact Hbig].
  clear Hbig. unfold sat32, varint_spec. cbn [varint_ref].
  destruct (Z.ltb_spec p0 128), (Z.ltb_spec p1 128), (Z.ltb_spec p2 128);
    try lia.
  cbn [mbind option_bind].
  destruct (Z.ltb_spec (((0 * 128 + (p0 - 128)) * 128 + (p1 - 128)) * 128 + p2)
    (2 ^ 32)); [|lia].
  rewrite !digit_high, digit_low by lia. do 2 f_equal. bits_solve.
Qed.

(** *** Four-byte words *)

Definition at4 (d : bytes) (i : Z) : Z :=
  ((bat d i * 256 + bat d (i + 1)) * 256 + bat d (i + 2)) * 256 + bat d (i + 3).

Lemma at4_range d i : bytes_ok d -> 0 <= at4 d i < 2 ^ 32.
Proof.
  intros Hd. unfold at4. pose proof (bat_range d i Hd).
  pose proof (bat_range d (i + 1) Hd). pose proof (bat_range d (i + 2) Hd).
  pose proof (bat_range d (i + 3) Hd). lia.
Qed.

Lemma Get4byte_in d i :
  bytes_ok d -> 0 <= i -> i + 3 < blen d -> sqlite3Get4byte d i = Some (at4 d i).
Proof.
  intros Hd Hi Hlen. unfold sqlite3Get4byte, at4.
  rewrite !bget_in by lia. cbn [mbind option_bind]. f_equal.
  pose proof (bat_range d i Hd). pose proof (bat_range d (i + 1) Hd).
  pose proof (bat_range d (i + 2) Hd). pose proof (bat_range d (i + 3) Hd).
  generalize dependent (bat d i). generalize dependent (bat d (i + 1)).
  generalize dependent (bat d (i + 2)). generalize dependent (bat d (i + 3)).
  intros d3 H3 d2 H2 d1 H1 d0 H0.
  rewrite !digit_last by lia. bits_solve.
Qed.

Lemma Put4byte_inv d i v d' :
  sqlite3Put4byte d i v = Some d' ->
  exists d1 d2 d3, bset d i (Z.shiftr v 24) = Some d1 /\
    bset d1 (i + 1) (Z.shiftr v 16) = Some d2 /\
    bset d2 (i + 2) (Z.shiftr v 8) = Some d3 /\ bset d3 (i + 3) v = Some d'.
Proof.
  unfold sqlite3Put4byte. intros H.
  destruct (bset d i _) as [d1|] eqn:E1; [|done]. cbn in H.
  destruct (bset d1 _ _) as [d2|] eqn:E2; [|done]. cbn in H.
  destruct (bset d2 _ _) as [d3|] eqn:E3; [|done]. cbn in H. eauto 10.
Qed.

Lemma Put4byte_in d i v :
  0 <= i -> i + 3 < blen d -> exists d', sqlite3Put4byte d i v = Some d'.
Proof.
  intros Hi Hlen. unfold sqlite3Put4byte.
  destruct (bset_in d i (Z.shiftr v 24)) as [d1 E1]; [lia|]. rewrite E1.
  apply bset_len in E1. cbn [mbind option_bind].
  destruct (bset_in d1 (i + 1) (Z.shiftr v 16)) as [d2 E2]; [lia|]. rewrite E2.
  apply bset_len in E2. cbn [mbind option_bind].
  destruct (bset_in d2 (i + 2) (Z.shiftr v 8)) as [d3 E3]; [lia|]. rewrite E3.
  apply bset_len in E3. cbn [mbind option_bind]. apply bset_in. lia.
Qed.

Lemma Put4byte_len d i v d' : sqlite3Put4byte d i v = Some d' -> blen d' = blen d.
Proof.
  intros (d1 & d2 & d3 & H1%bset_len & H2%bset_len & H3%bset_len & H4%bset_len)%Put4byte_inv.
  lia.
Qed.
Lemma Put4byte_ok d i v d' :
  bytes_ok d -> sqlite3Put4byte d i v = Some d' -> bytes_ok d'.
Proof. intros Hd (d1 & d2 & d3 & H1 & H2 & H3 & H4)%Put4byte_inv. eauto 6 using bset_ok. Qed.

Lemma Put4byte_at d i v d' j :
  sqlite3Put4byte d i v = Some d' -> j < i \/ i + 4 <= j -> bat d' j = bat d j.
Proof.
  intros (d1 & d2 & d3 & H1 & H2 & H3 & H4)%Put4byte_inv Hj.
  rewrite (bset_at _ _ _ _ _ H4), (bset_at _ _ _ _ _ H3),
    (bset_at _ _ _ _ _ H2), (bset_at _ _ _ _ _ H1).
  repeat match goal with |- context [j =? ?k] => destruct (Z.eqb_spec j k); [lia|] end.
  done.
Qed.

Lemma Put4byte_at4 d i v d' :
  sqlite3Put4byte d i v = Some d' -> 0 <= v < 2 ^ 32 -> at4 d' i = v.
Proof.
  intros (d1 & d2 & d3 & H1 & H2 & H3 & H4)%Put4byte_inv Hv. unfold at4.
  rewrite !(bset_at _ _ _ _ _ H4), !(bset_at _ _ _ _ _ H3),
    !(bset_at _ _ _ _ _ H2), !(bset_at _ _ _ _ _ H1).
  repeat match goal with
  | |- context [?j =? ?k] => destruct (Z.eqb_spec j k); try (exfalso; lia)
  end.
  unfold u8. rewrite !Z.shiftr_div_pow2 by lia. div_lia.
Qed.

Lemma at4_eq d d' i :
  (forall j, i <= j < i + 4 -> bat d' j = bat d j) -> at4 d' i = at4 d i.
Proof. intros H. unfold at4. by rewrite !H by lia. Qed.

Lemma Put4byte_at4_other d i v d' k :
  sqlite3Put4byte d i v = Some d' -> k + 4 <= i \/ i + 4 <= k -> at4 d' k = at4 d k.
Proof. intros E Hk. apply at4_eq. intros j Hj. eapply Put4byte_at; [done|lia]. Qed.

(** ** Properties *)

(** C30: the hand-unrolled varint decoder computes the base-128 reference
    decoding of every byte string (non-minimal and truncated ones included),
    and the 32-bit decoder is that decoding saturated at [0xffffffff]. *)
Theorem varint_decoders_correct p :
  bytes_ok p ->
  sqlite3GetVarint p = varint_spec p /\ getVarint32 p = sat32 (varint_spec p).
Proof. auto using GetVarint_spec, getVarint32_spec. Qed.

Lemma varint_decoders_correct_witness :
  sqlite3GetVarint [0xc0; 0x83; 0xff; 0x81; 0x90; 7; 5]
    = varint_spec [0xc0; 0x83; 0xff; 0x81; 0x90; 7; 5] /\
  getVarint32 [0xc0; 0x83; 0xff; 0x81; 0x90; 7; 5] = Some (6, 0xffffffff).
Proof.
  destruct (varint_decoders_correct [0xc0; 0x83; 0xff; 0x81; 0x90; 7; 5])
    as [H1 H2]; [repeat constructor; lia|].
  split; [exact H1|]. rewrite H2. vm_compute. reflexivity.
Defined.

(** C29: every 64-bit value survives encoding and decoding whatever follows it,
    the encoder writes at most nine bytes, both decoders report that length,
    and [sqlite3VarintLen] does below [2^63] (above it reports ten). *)
Theorem varint_roundtrip v rest :
  0 <= v < 2 ^ 64 -> bytes_ok rest ->
  exists p, sqlite3PutVarint v = Some p /\ bytes_ok p /\ 1 <= blen p <= 9 /\
    sqlite3VarintLen v = Some (if v <? 2 ^ 63 then blen p else 10) /\
    sqlite3GetVarint (p ++ rest) = Some (blen p, v) /\
    getVarint32 (p ++ rest)
      = Some (blen p, if v <? 2 ^ 32 then v else 0xffffffff).
Proof.
  intros Hv Hr. destruct (PutVarint_enc v Hv) as (p & H1 & H2 & H3 & H4).
  assert (bytes_ok (p ++ rest)) by by apply Forall_app_2.
  exists p. rewrite GetVarint_spec, getVarint32_spec by done.
  rewrite VarintLen_size, H4, <- H3 by done. do 2 (split; [done|]).
  split; [|done]. eapply varint_spec_range; [|exact (H4 [])].
  by rewrite app_nil_r.
Qed.

Lemma varint_roundtrip_witness :
  exists p, sqlite3PutVarint (2 ^ 63 + 5) = Some p /\ bytes_ok p /\
    1 <= blen p <= 9 /\ sqlite3VarintLen (2 ^ 63 + 5) = Some 10 /\
    sqlite3GetVarint (p ++ [1; 2]) = Some (blen p, 2 ^ 63 + 5) /\
    getVarint32 (p ++ [1; 2]) = Some (blen p, 0xffffffff).
Proof.
  apply (varint_roundtrip (2 ^ 63 + 5) [1; 2]); [lia|].
  repeat constructor; lia.
Defined.
