(* ===== verification/Heap.v ===== *)
(** * The heap seen by a component

    Requests to the allocator may fail: [mallocOk n] says whether the [n]-th
    request succeeds.  The heap counts requests and live blocks. *)
From S2P Require Import Prelude.

Record heap : Type := mkHeap { requests : nat; live : Z }.

Section Heap.
Variable mallocOk : nat -> bool.

(** One request to the allocator. *)
Definition malloc : M heap bool := fun h =>
  let ok := mallocOk (requests h) in
  (Ret ok, mkHeap (S (requests h)) (if ok then live h + 1 else live h)).
Definition free : M heap unit :=
  modify (fun h => mkHeap (requests h) (live h - 1)).

Lemma wp_malloc Q h :
  (forall b h', (b = true -> live h' = live h + 1) -> (b = false -> live h' = live h) ->
     Q (Ret b) h') ->
  wp malloc Q h.
Proof.
  intros H. unfold wp, malloc. cbn. apply H; cbn; by intros ->.
Qed.
End Heap.
