(* ===== verification/Bitvec.v ===== *)
(** * Bitmaps: [src/src/bitvec.c]

    A [Bitvec] is a plain bitmap, a hash table with linear probing, or an
    array of sub-bitmaps, chosen by its size and by how many bits are set.
    Memory comes from the allocator of [Heap], which may fail. *)
From stdpp Require Import gmap.
From S2P Require Import Prelude Bits Bytes Heap.

(** ** Definitions *)

Definition BITVEC_SZ : Z := 512.
(** The words of a pointer that fit after the three [u32] fields, with
    eight-byte pointers. *)
Definition BITVEC_USIZE : Z := (BITVEC_SZ - 3 * 4) / 8 * 8.
Definition BITVEC_SZELEM : Z := 8.
Definition BITVEC_NELEM : Z := BITVEC_USIZE.
Definition BITVEC_NBIT : Z := BITVEC_NELEM * BITVEC_SZELEM.
Definition BITVEC_NINT : Z := BITVEC_USIZE / 4.
Definition BITVEC_MXHASH : Z := BITVEC_NINT / 2.
Definition BITVEC_HASH (x : Z) : Z := x * 1 mod BITVEC_NINT.
Definition BITVEC_NPTR : Z := BITVEC_USIZE / 8.

Inductive Bitvec : Type :=
  | mkBitvec (iSize nSet iDivisor : Z) (u : bitvec_u)
with bitvec_u : Type :=
  | aBitmap (l : list Z)
  | aHash (l : list Z)
  | apSub (l : list (option Bitvec)).

Definition iSize (p : Bitvec) : Z := let 'mkBitvec x _ _ _ := p in x.
Definition nSet (p : Bitvec) : Z := let 'mkBitvec _ x _ _ := p in x.
Definition iDivisor (p : Bitvec) : Z := let 'mkBitvec _ _ x _ := p in x.
Definition u (p : Bitvec) : bitvec_u := let 'mkBitvec _ _ _ x := p in x.
Definition set_nSet (n : Z) (p : Bitvec) : Bitvec :=
  let 'mkBitvec s _ d x := p in mkBitvec s n d x.
Definition set_iDivisor (d : Z) (p : Bitvec) : Bitvec :=
  let 'mkBitvec s n _ x := p in mkBitvec s n d x.
Definition set_u (x : bitvec_u) (p : Bitvec) : Bitvec :=
  let 'mkBitvec s n d _ := p in mkBitvec s n d x.

Definition get_map (x : bitvec_u) : option (list Z) :=
  match x with aBitmap l => Some l | _ => None end.
Definition get_hash (x : bitvec_u) : option (list Z) :=
  match x with aHash l => Some l | _ => None end.
Definition get_sub (x : bitvec_u) : option (list (option Bitvec)) :=
  match x with apSub l => Some l | _ => None end.

(** [apSub[bin]] and the store to it. *)
Definition sub_get (l : list (option Bitvec)) (bin : Z)
    : option (option Bitvec) :=
  if (0 <=? bin) && (bin <? BITVEC_NPTR) then l !! Z.to_nat bin else None.
Definition sub_set (l : list (option Bitvec)) (bin : Z) (q : Bitvec)
    : list (option Bitvec) := <[Z.to_nat bin := Some q]> l.

(** The zeroed union, read as the member the code uses for that size. *)
Definition zero_u (size : Z) : bitvec_u :=
  if size <=? BITVEC_NBIT then aBitmap (zeros BITVEC_NELEM)
  else aHash (zeros BITVEC_NINT).

Section Code.
Variable mallocOk : nat -> bool.

Definition sqlite3BitvecCreate (size : Z) : M heap (option Bitvec) :=
  let* ok := malloc mallocOk in
  ret (if ok : bool then Some (mkBitvec size 0 0 (zero_u size)) else None).

(** [while( p->u.aHash[h] ){ if( p->u.aHash[h]==i ) return 1; ... }]. *)
Fixpoint test_loop (fuel : nat) (l : list Z) (i h : Z) : option bool :=
  match fuel with
  | O => None
  | S fuel =>
      x ← bget l h;
      if x =? 0 then Some false
      else if x =? i then Some true
      else test_loop fuel l i ((h + 1) mod BITVEC_NINT)
  end.

(** [i] counts from 0; [fuel] bounds the depth of the tree. *)
Fixpoint test_from (fuel : nat) (p : Bitvec) (i : Z) : option bool :=
  if negb (iDivisor p =? 0) then
    match fuel with
    | O => None
    | S fuel =>
        l ← get_sub (u p);
        q ← sub_get l (i / iDivisor p);
        match q with
        | None => Some false
        | Some q => test_from fuel q (i mod iDivisor p)
        end
    end
  else if iSize p <=? BITVEC_NBIT then
    l ← get_map (u p);
    b ← bget l (i / BITVEC_SZELEM);
    Some (negb (Z.land b (Z.shiftl 1 (Z.land i (BITVEC_SZELEM - 1))) =? 0))
  else
    l ← get_hash (u p);
    test_loop (Z.to_nat BITVEC_NINT) l (i + 1) (BITVEC_HASH i).

(** Deep enough for any [u32] size: every level divides it by 62. *)
Definition depth : nat := 5.

Definition sqlite3BitvecTestNotNull (p : Bitvec) (i : Z) : option bool :=
  let i := u32 (i - 1) in
  if iSize p <=? i then Some false else test_from depth p i.

Definition sqlite3BitvecTest (p : option Bitvec) (i : Z) : option bool :=
  match p with None => Some false | Some p => sqlite3BitvecTestNotNull p i end.

(** [do{ if( p->u.aHash[h]==i ) return SQLITE_OK; ... }while( p->u.aHash[h] )]:
    [None] when [i] was found, otherwise the free slot. *)
Fixpoint find_loop (fuel : nat) (l : list Z) (i h : Z) : option (option Z) :=
  match fuel with
  | O => None
  | S fuel =>
      x ← bget l h;
      if x =? i then Some None
      else
        let h := h + 1 in
        let h := if BITVEC_NINT <=? h then 0 else h in
        y ← bget l h;
        if y =? 0 then Some (Some h) else find_loop fuel l i h
  end.

Section Rehash.
(** [set_rec p i] is the recursive call [sqlite3BitvecSet(p, i)]. *)
Variable set_rec : Bitvec -> Z -> M heap (Z * Bitvec).

(** [for(j=0; j<BITVEC_NINT; j++){ if( aiValues[j] ) rc |= ... }]. *)
Fixpoint reinsert (rc : Z) (p : Bitvec) (aiValues : list Z)
    : M heap (Z * Bitvec) :=
  match aiValues with
  | [] => ret (rc, p)
  | v :: vs =>
      if negb (v =? 0) then
        let* r := set_rec p v in
        reinsert (Z.lor rc r.1) r.2 vs
      else reinsert rc p vs
  end.

(** The block that turns a hash table into an array of sub-bitmaps. *)
Definition rehash (p : Bitvec) (aiValues : list Z) (i : Z)
    : M heap (Z * Bitvec) :=
  let* ok := malloc mallocOk in
  if negb ok then ret (SQLITE_NOMEM, p)
  else
    let p := set_u (apSub (replicate (Z.to_nat BITVEC_NPTR) None)) p in
    let d := iSize p / BITVEC_NPTR in
    let d := if negb (iSize p mod BITVEC_NPTR =? 0) then d + 1 else d in
    let d := if d <? BITVEC_NBIT then BITVEC_NBIT else d in
    let p := set_iDivisor d p in
    let* r := set_rec p i in
    let* r := reinsert r.1 r.2 aiValues in
    free ;;*
    ret r.

(** The hash table case, from [h = BITVEC_HASH(i++)] on; [i] counts from 1. *)
Definition set_hash (p : Bitvec) (l : list Z) (i : Z) : M heap (Z * Bitvec) :=
  let h := BITVEC_HASH (i - 1) in
  let finish h :=
    let* l := lift (aset l h i) in
    ret (SQLITE_OK, set_u (aHash l) (set_nSet (nSet p + 1) p)) in
  let try_rehash h :=
    if BITVEC_MXHASH <=? nSet p then rehash p l i else finish h in
  let* x := lift (bget l h) in
  if x =? 0 then
    if nSet p <? BITVEC_NINT - 1 then finish h else try_rehash h
  else
    let* r := lift (find_loop (Z.to_nat BITVEC_NINT) l i h) in
    match r with
    | None => ret (SQLITE_OK, p)
    | Some h => try_rehash h
    end.
End Rehash.

(** [i] counts from 0.  The code walks down with [p = p->u.apSub[bin]] and
    changes the node it reaches in place; here the changed node is put back
    in its parent. *)
Fixpoint set_from (fuel : nat) (p : Bitvec) (i : Z) : M heap (Z * Bitvec) :=
  match fuel with
  | O => undef
  | S fuel =>
      if (BITVEC_NBIT <? iSize p) && negb (iDivisor p =? 0) then
        let bin := i / iDivisor p in
        let i := i mod iDivisor p in
        let* l := lift (get_sub (u p)) in
        let* q := lift (sub_get l bin) in
        let* q := (match q with
                   | None => sqlite3BitvecCreate (iDivisor p)
                   | Some q => ret (Some q)
                   end) in
        match q with
        | None => ret (SQLITE_NOMEM, p)
        | Some q =>
            let* r := set_from fuel q i in
            ret (r.1, set_u (apSub (sub_set l bin r.2)) p)
        end
      else if iSize p <=? BITVEC_NBIT then
        let* l := lift (get_map (u p)) in
        let* b := lift (bget l (i / BITVEC_SZELEM)) in
        let m := Z.shiftl 1 (Z.land i (BITVEC_SZELEM - 1)) in
        let* l := lift (bset l (i / BITVEC_SZELEM) (Z.lor b m)) in
        ret (SQLITE_OK, set_u (aBitmap l) p)
      else
        let* l := lift (get_hash (u p)) in
        set_hash (fun p i => set_from fuel p (u32 (i - 1))) p l (i + 1)
  end.

(** Two units of fuel per level: the node and, after a rehash, itself again. *)
Definition set_fuel : nat := 2 * depth + 2.

Definition sqlite3BitvecSet (p : option Bitvec) (i : Z)
    : M heap (Z * option Bitvec) :=
  match p with
  | None => ret (SQLITE_OK, None)
  | Some p => let* r := set_from set_fuel p (u32 (i - 1)) in ret (r.1, Some r.2)
  end.
End Code.

(** [while( p->u.aHash[h] ){ h++; if( h>=BITVEC_NINT ) h = 0; }]. *)
Fixpoint free_slot (fuel : nat) (l : list Z) (h : Z) : option Z :=
  match fuel with
  | O => None
  | S fuel =>
      x ← bget l h;
      if x =? 0 then Some h
      else free_slot fuel l (if BITVEC_NINT <=? h + 1 then 0 else h + 1)
  end.

(** The loop that fills the cleared table again, without the value [i]. *)
Fixpoint clear_loop (i : Z) (n : Z) (l : list Z) (aiValues : list Z)
    : option (Z * list Z) :=
  match aiValues with
  | [] => Some (n, l)
  | v :: vs =>
      if negb (v =? 0) && negb (v =? i) then
        h ← free_slot (Z.to_nat BITVEC_NINT) l (BITVEC_HASH (v - 1));
        l ← aset l h v;
        clear_loop i (n + 1) l vs
      else clear_loop i n l vs
  end.

Fixpoint clear_from (fuel : nat) (p : Bitvec) (i : Z) : option Bitvec :=
  if negb (iDivisor p =? 0) then
    match fuel with
    | O => None
    | S fuel =>
        let bin := i / iDivisor p in
        l ← get_sub (u p);
        q ← sub_get l bin;
        match q with
        | None => Some p
        | Some q =>
            q ← clear_from fuel q (i mod iDivisor p);
            Some (set_u (apSub (sub_set l bin q)) p)
        end
    end
  else if iSize p <=? BITVEC_NBIT then
    l ← get_map (u p);
    b ← bget l (i / BITVEC_SZELEM);
    l ← bset l (i / BITVEC_SZELEM)
          (Z.land b (Z.lnot (u8 (Z.shiftl 1 (Z.land i (BITVEC_SZELEM - 1))))));
    Some (set_u (aBitmap l) p)
  else
    l ← get_hash (u p);
    r ← clear_loop (i + 1) 0 (zeros BITVEC_NINT) l;
    Some (set_u (aHash r.2) (set_nSet r.1 p)).

Definition sqlite3BitvecClear (p : option Bitvec) (i : Z)
    : option (option Bitvec) :=
  match p with
  | None => Some None
  | Some p => p ← clear_from depth p (u32 (i - 1)); Some (Some p)
  end.

(** The number of [sqlite3_free] calls of [sqlite3BitvecDestroy]. *)
Fixpoint destroy_count (p : Bitvec) : Z :=
  match p with
  | mkBitvec _ _ d (apSub l) =>
      (if negb (d =? 0) then
         (fix go (l : list (option Bitvec)) : Z :=
            match l with
            | [] => 0
            | o :: l => match o with None => 0 | Some q => destroy_count q end + go l
            end) l
       else 0) + 1
  | mkBitvec _ _ _ _ => 1
  end.

Definition sqlite3BitvecDestroy (p : option Bitvec) : M heap unit :=
  match p with
  | None => ret tt
  | Some p => modify (fun h => mkHeap (requests h) (live h - destroy_count p))
  end.

Definition sqlite3BitvecSize (p : Bitvec) : Z := iSize p.


(** ** The hash table *)

Abbreviation NINT := BITVEC_NINT (only parsing).

(** The [k]-th slot probed from [h]. *)
Definition slot (h k : Z) : Z := (h + k) mod NINT.
Definition probed (l : list Z) (h k : Z) : Prop :=
  forall j, 0 <= j < k -> bat l (slot h j) <> 0.
Definition first_free (l : list Z) (h k : Z) : Prop :=
  0 <= k < NINT /\ bat l (slot h k) = 0 /\ probed l h k.
Definition entry (l : list Z) (v : Z) : Prop :=
  exists s, 0 <= s < NINT /\ bat l s = v.
(** Every value is reached by probing from its hash. *)
Definition hash_inv (l : list Z) : Prop :=
  blen l = NINT /\
  forall s, 0 <= s < NINT -> bat l s <> 0 ->
    exists k, 0 <= k < NINT /\ s = slot (BITVEC_HASH (bat l s - 1)) k /\
      probed l (BITVEC_HASH (bat l s - 1)) k.
Definition used (l : list Z) : Z :=
  foldr (fun x n => (if x =? 0 then 0 else 1) + n) 0 l.

Lemma NINT_eq : NINT = 124.
Proof. done. Qed.

Lemma slot_range h k : 0 <= slot h k < NINT.
Proof. by apply Z.mod_pos_bound. Qed.
Lemma hash_range x : 0 <= BITVEC_HASH x < NINT.
Proof. by apply Z.mod_pos_bound. Qed.
Lemma slot_0 h : 0 <= h < NINT -> slot h 0 = h.
Proof. intros. unfold slot. rewrite Z.add_0_r. by apply Z.mod_small. Qed.
Lemma slot_S h k : slot h (k + 1) = (slot h k + 1) mod NINT.
Proof. unfold slot. rewrite Z.add_mod_idemp_l by done. f_equal. lia. Qed.
Lemma slot_wrap h k :
  slot h (k + 1) = if NINT <=? slot h k + 1 then 0 else slot h k + 1.
Proof.
  rewrite slot_S. pose proof (slot_range h k) as Hs. rewrite NINT_eq in *.
  destruct (Z.leb_spec 124 (slot h k + 1)).
  - by replace (slot h k) with 123 by lia.
  - apply Z.mod_small. lia.
Qed.
(** Every slot is probed. *)
Lemma slot_onto h s : 0 <= s < NINT -> exists k, 0 <= k < NINT /\ slot h k = s.
Proof.
  rewrite NINT_eq. intros Hs. exists ((s - h) mod NINT).
  split; [by apply Z.mod_pos_bound|].
  unfold slot. rewrite Z.add_mod_idemp_r by done.
  replace (h + (s - h)) with s by lia. by apply Z.mod_small.
Qed.

Lemma used_cons x l : used (x :: l) = (if x =? 0 then 0 else 1) + used l.
Proof. done. Qed.
Lemma used_bounds l : 0 <= used l <= blen l.
Proof.
  unfold blen. induction l as [|x l IH]; [done|].
  rewrite used_cons, length_cons. destruct (x =? 0); lia.
Qed.
Lemma used_zeros n : used (zeros n) = 0.
Proof. unfold zeros. induction (Z.to_nat n); cbn; auto. Qed.
Lemma used_free l : used l < blen l -> exists s, 0 <= s < blen l /\ bat l s = 0.
Proof.
  unfold blen. induction l as [|x l IH]; [done|].
  rewrite used_cons, length_cons. destruct (Z.eqb_spec x 0) as [->|Hx].
  - intros _. exists 0. split; [lia|done].
  - intros Hu. destruct IH as (s & Hs & E); [lia|]. exists (s + 1).
    split; [lia|]. revert E. unfold bat.
    destruct (Z.leb_spec 0 s), (Z.leb_spec 0 (s + 1)); try lia.
    by replace (Z.to_nat (s + 1)) with (S (Z.to_nat s)) by lia.
Qed.
Lemma used_insert l i v :
  l !! i = Some 0 -> v <> 0 -> used (<[i := v]> l) = used l + 1.
Proof.
  revert i. induction l as [|x l IH]; intros [|i] E Hv; try done.
  - injection E as ->. change (<[0%nat:=v]> (0 :: l)) with (v :: l).
    rewrite !used_cons. destruct (Z.eqb_spec v 0); [done|cbn; lia].
  - change (<[S i:=v]> (x :: l)) with (x :: <[i:=v]> l). rewrite !used_cons, (IH i E Hv). lia.
Qed.
Lemma used_aset l s v l' :
  aset l s v = Some l' -> bat l s = 0 -> v <> 0 -> used l' = used l + 1.
Proof.
  unfold aset. case_match eqn:E; [|done]. intros [= <-] Hb Hv. zb.
  apply used_insert; [|done]. unfold bat, blen in *.
  destruct (Z.leb_spec 0 s); [|lia].
  destruct (lookup_lt_is_Some_2 l (Z.to_nat s)) as [x Hx]; [lia|].
  rewrite Hx in *. cbn in Hb. by subst.
Qed.

(** A table that is not full has a free slot on every probe sequence. *)
Lemma probe_search l h (n : nat) :
  probed l h (Z.of_nat n) \/
  exists k, 0 <= k < Z.of_nat n /\ bat l (slot h k) = 0 /\ probed l h k.
Proof.
  induction n as [|n [IH|(k & Hk & E)]].
  - left. intros j Hj. lia.
  - destruct (Z.eq_dec (bat l (slot h (Z.of_nat n))) 0) as [E|E].
    + right. exists (Z.of_nat n). split; [lia|done].
    + left. intros j Hj. destruct (Z.eq_dec j (Z.of_nat n)) as [->|]; [done|].
      apply IH. lia.
  - right. exists k. split; [lia|done].
Qed.
Lemma first_free_exists l h :
  blen l = NINT -> used l < NINT -> exists k, first_free l h k.
Proof.
  intros Hl Hu. destruct (used_free l) as (s & Hs & E); [lia|].
  destruct (slot_onto h s) as (k & Hk & Es); [lia|].
  destruct (probe_search l h (Z.to_nat NINT)) as [Hp|(j & Hj & Hf)].
  - rewrite <- Es in E. destruct (Hp k); [|done]. rewrite NINT_eq in *. lia.
  - exists j. rewrite NINT_eq in *. split; [|done]. rewrite NINT_eq. lia.
Qed.

(** A value of the table is met before the first free slot. *)
Lemma entry_probed l v k :
  hash_inv l -> v <> 0 -> first_free l (BITVEC_HASH (v - 1)) k ->
  entry l v <->
  exists j, 0 <= j < k /\ bat l (slot (BITVEC_HASH (v - 1)) j) = v.
Proof.
  intros [Hl Hi] Hv (Hk & E & Hp). split.
  - intros (s & Hs & Es). destruct (Hi s Hs) as (j & Hj & Ej & Hpj); [lia|].
    rewrite Es in Ej, Hpj. exists j. rewrite <- Ej. split; [|done].
    split; [lia|]. destruct (Z.lt_trichotomy j k) as [?|[->|Hlt]]; [done| |].
    + rewrite <- Ej in E. lia.
    + destruct (Hpj k); [lia|done].
  - intros (j & Hj & Ej). eexists. split; [apply slot_range|exact Ej].
Qed.

Section Loops.
Variables (l : list Z) (h k : Z).
Hypotheses (Hl : blen l = NINT) (Hff : first_free l h k).

Lemma slot_get j : bget l (slot h j) = Some (bat l (slot h j)).
Proof. apply bget_in. rewrite Hl. apply slot_range. Qed.

(** The three probing loops, [j] slots after [h]. *)
Lemma free_slot_from fuel j :
  0 <= j <= k -> k - j < Z.of_nat fuel -> free_slot fuel l (slot h j) = Some (slot h k).
Proof.
  destruct Hff as (Hk & E & Hp). revert j.
  induction fuel as [|fuel IH]; intros j Hj Hf; [lia|].
  cbn [free_slot]. rewrite slot_get. cbn. rewrite <- slot_wrap.
  case_if.
  - destruct (Z.eq_dec j k) as [->|]; [done|]. by destruct (Hp j); [lia|].
  - apply IH; [|lia]. destruct (Z.eq_dec j k) as [->|]; [done|lia].
Qed.
Lemma test_loop_from fuel i j :
  0 <= j <= k -> k - j < Z.of_nat fuel ->
  exists b, test_loop fuel l i (slot h j) = Some b /\
    (b = true <-> exists j', j <= j' < k /\ bat l (slot h j') = i).
Proof.
  destruct Hff as (Hk & E & Hp). revert j.
  induction fuel as [|fuel IH]; intros j Hj Hf; [lia|].
  cbn [test_loop]. rewrite slot_get. cbn. rewrite <- slot_S.
  destruct (Z.eq_dec j k) as [->|Hne].
  { rewrite E. cbn. exists false. split; [done|]. split; [done|].
    intros (j' & ? & _). lia. }
  case_if; [destruct (Hp j); [lia|done]|]. case_if.
  - exists true. split; [done|]. split; [|done]. intros _. exists j. split; [lia|done].
  - destruct (IH (j + 1)) as (b & Hb & Hiff); [lia|lia|]. exists b.
    split; [done|]. rewrite Hiff. split; intros (j' & Hj' & Ej').
    + exists j'. split; [lia|done].
    + exists j'. split; [|done]. destruct (Z.eq_dec j' j) as [->|]; [done|lia].
Qed.
Lemma find_loop_from fuel i j :
  0 <= j < k -> k - j <= Z.of_nat fuel ->
  exists r, find_loop fuel l i (slot h j) = Some r /\
    ((r = None /\ exists j', j <= j' < k /\ bat l (slot h j') = i) \/
     (r = Some (slot h k) /\ forall j', j <= j' < k -> bat l (slot h j') <> i)).
Proof.
  destruct Hff as (Hk & E & Hp). revert j.
  induction fuel as [|fuel IH]; intros j Hj Hf; [lia|].
  cbn [find_loop]. rewrite slot_get. cbn. rewrite <- slot_wrap.
  case_if.
  { eexists. split; [done|]. left. split; [done|]. exists j. split; [lia|done]. }
  rewrite slot_get. cbn. case_if.
  - destruct (Z.eq_dec (j + 1) k) as [<-|]; [|by destruct (Hp (j + 1)); [lia|]].
    eexists. split; [done|]. right. split; [done|]. intros j' Hj'.
    by replace j' with j by lia.
  - destruct (IH (j + 1)) as (r & Hr & Hc); [|lia|].
    { destruct (Z.eq_dec (j + 1) k) as [Ek|]; [by rewrite Ek in *|lia]. }
    exists r. split; [done|]. destruct Hc as [(-> & j' & Hj' & Ej')|(-> & Hn)].
    + left. split; [done|]. exists j'. split; [lia|done].
    + right. split; [done|]. intros j' Hj'.
      destruct (Z.eq_dec j' j) as [->|]; [done|]. apply Hn. lia.
Qed.
End Loops.

(** Filling the first free slot of the probe sequence of [v]. *)
Lemma hash_insert l v k :
  hash_inv l -> v <> 0 -> first_free l (BITVEC_HASH (v - 1)) k ->
  exists l', aset l (slot (BITVEC_HASH (v - 1)) k) v = Some l' /\
    hash_inv l' /\ used l' = used l + 1 /\
    forall w, w <> 0 -> (entry l' w <-> entry l w \/ w = v).
Proof.
  intros [Hl Hi] Hv (Hk & E & Hp). set (s0 := slot _ k) in *.
  assert (Hs0 : 0 <= s0 < NINT) by apply slot_range.
  destruct (aset_in l s0 v) as [l' El]; [lia|]. exists l'.
  pose proof (fun j => aset_at _ _ _ _ j El) as Hat. pose proof (aset_len _ _ _ _ El) as Hl'.
  assert (Hmono : forall h n, probed l h n -> probed l' h n).
  { intros h n Hpn j Hj. rewrite Hat. case_if; [done|]. by apply Hpn. }
  split; [done|]. split; [split; [lia|]|split; [by eapply used_aset|]].
  - intros s Hs. rewrite Hat. case_if; subst.
    + intros _. exists k. eauto.
    + intros Hb. destruct (Hi s Hs Hb) as (j & Hj & Ej & Hpj). exists j. eauto.
  - intros w Hw. split.
    + intros (s & Hs & Es). rewrite Hat in Es.
      case_if_in Es; [by right|]. left. by exists s.
    + intros [(s & Hs & Es)| ->].
      * exists s. split; [done|]. rewrite Hat. case_if; [|done]. by subst.
      * exists s0. split; [done|]. rewrite Hat. by rewrite Z.eqb_refl.
Qed.

Lemma zeros_hash_inv : hash_inv (zeros NINT).
Proof.
  split; [done|]. intros s Hs. by rewrite zeros_at.
Qed.
Lemma zeros_entry v : entry (zeros NINT) v -> v = 0.
Proof. intros (s & _ & <-). apply zeros_at. Qed.

(** The three loops from the hash of a value. *)
Lemma hash_test l v :
  hash_inv l -> used l < NINT -> v <> 0 ->
  exists b, test_loop (Z.to_nat NINT) l v (BITVEC_HASH (v - 1)) = Some b /\
    (b = true <-> entry l v).
Proof.
  intros Hi Hu Hv. destruct (first_free_exists l (BITVEC_HASH (v - 1))) as [k Hk];
    [apply Hi|done|].
  destruct (test_loop_from l (BITVEC_HASH (v - 1)) k (proj1 Hi) Hk (Z.to_nat NINT) v 0)
    as (b & Hb & Hiff); [destruct Hk; lia..|].
  rewrite slot_0 in Hb by apply hash_range. exists b. split; [done|].
  by rewrite Hiff, (entry_probed l v k).
Qed.
Lemma hash_free_slot l v :
  hash_inv l -> used l < NINT -> v <> 0 ->
  exists k, first_free l (BITVEC_HASH (v - 1)) k /\
    free_slot (Z.to_nat NINT) l (BITVEC_HASH (v - 1)) = Some (slot (BITVEC_HASH (v - 1)) k).
Proof.
  intros Hi Hu Hv. destruct (first_free_exists l (BITVEC_HASH (v - 1))) as [k Hk];
    [apply Hi|done|].
  exists k. split; [done|].
  pose proof (free_slot_from l _ k (proj1 Hi) Hk (Z.to_nat NINT) 0) as E.
  rewrite slot_0 in E by apply hash_range. apply E; destruct Hk; lia.
Qed.
Lemma hash_find l v :
  hash_inv l -> used l < NINT -> v <> 0 -> bat l (BITVEC_HASH (v - 1)) <> 0 ->
  exists k r, first_free l (BITVEC_HASH (v - 1)) k /\
    find_loop (Z.to_nat NINT) l v (BITVEC_HASH (v - 1)) = Some r /\
    ((r = None /\ entry l v) \/
     (r = Some (slot (BITVEC_HASH (v - 1)) k) /\ ~ entry l v)).
Proof.
  intros Hi Hu Hv Hb. destruct (first_free_exists l (BITVEC_HASH (v - 1))) as [k Hk];
    [apply Hi|done|].
  pose proof (entry_probed l v k Hi Hv Hk) as Hiff.
  assert (k <> 0).
  { intros ->. destruct Hk as (_ & E & _). by rewrite slot_0 in E by apply hash_range. }
  destruct (find_loop_from l (BITVEC_HASH (v - 1)) k (proj1 Hi) Hk (Z.to_nat NINT) v 0)
    as (r & Hr & Hc); [destruct Hk; lia..|].
  rewrite slot_0 in Hr by apply hash_range. exists k, r. split_and?; [done..|].
  destruct Hc as [[-> Hc]|[-> Hc]]; [left|right]; split; try done.
  - by apply Hiff.
  - intros (j & Hj & Ej)%Hiff. by apply (Hc j).
Qed.

(** ** The set a bitmap represents

    [rep n p X]: the tree [p], at most [n] levels of sub-bitmaps high, is well
    formed and holds the bits of [X], counted from 0. *)

Definition map_rep (l : list Z) (X : Z -> Prop) : Prop :=
  blen l = BITVEC_NELEM /\ bytes_ok l /\
  forall i, 0 <= i < BITVEC_NBIT ->
    (X i <-> Z.testbit (bat l (i / 8)) (i mod 8) = true).

Definition hash_rep (size n : Z) (l : list Z) (X : Z -> Prop) : Prop :=
  hash_inv l /\ n = used l /\ used l < NINT /\
  (forall s, 0 <= bat l s <= size) /\
  forall i, 0 <= i -> (X i <-> entry l (i + 1)).

(** The part of [X] that a sub-bitmap holds. *)
Definition part (X : Z -> Prop) (d bin : Z) (i : Z) : Prop :=
  0 <= i < d /\ X (bin * d + i).

Definition sized (n : nat) (size : Z) (X : Z -> Prop) : Prop :=
  0 <= size < 2 ^ 32 /\ size <= BITVEC_NBIT * 62 ^ Z.of_nat n /\
  forall i, X i -> 0 <= i < size.

Inductive rep : nat -> Bitvec -> (Z -> Prop) -> Prop :=
  | rep_map n size nset l X :
      sized n size X -> size <= BITVEC_NBIT -> map_rep l X ->
      rep n (mkBitvec size nset 0 (aBitmap l)) X
  | rep_hash n size nset l X :
      sized n size X -> BITVEC_NBIT < size -> hash_rep size nset l X ->
      rep n (mkBitvec size nset 0 (aHash l)) X
  | rep_sub n size nset d l X :
      sized (S n) size X -> BITVEC_NBIT < size -> BITVEC_NBIT <= d ->
      size <= 62 * d -> d < 2 ^ 32 -> d <= BITVEC_NBIT * 62 ^ Z.of_nat n ->
      length l = 62%nat ->
      (forall bin, l !! bin = Some None ->
         forall i, ~ part X d (Z.of_nat bin) i) ->
      (forall bin q, l !! bin = Some (Some q) -> iSize q = d) ->
      (forall bin q, l !! bin = Some (Some q) ->
         rep n q (part X d (Z.of_nat bin))) ->
      rep (S n) (mkBitvec size nset d (apSub l)) X.

Lemma rep_sized n p X : rep n p X -> sized n (iSize p) X.
Proof. by intros []. Qed.

Lemma part_ext X Y d bin :
  (forall i, X i <-> Y i) -> forall i, part X d bin i <-> part Y d bin i.
Proof. intros E i. unfold part. by rewrite E. Qed.
Lemma sized_ext n size X Y : (forall i, X i <-> Y i) -> sized n size X -> sized n size Y.
Proof. intros E (H1 & H2 & H3). split; [done|]. split; [done|]. intros i Hi. apply H3. by apply E. Qed.

Lemma sized_other n size X Y :
  sized n size X -> (forall i, Y i -> 0 <= i < size) -> sized n size Y.
Proof. intros (H1 & H2 & _) H3. done. Qed.

Lemma rep_ext n p X Y : (forall i, X i <-> Y i) -> rep n p X -> rep n p Y.
Proof.
  intros E H. revert Y E.
  induction H as [n size nset l X Hs H1 (M1 & M2 & M3)
    |n size nset l X Hs H1 (M1 & M2 & M3 & M4 & M5)
    |n size nset d l X Hs H1 H2 H3 D1 D2 H4 H5 H6 H7 IH]; intros Y E.
  - constructor; [by eapply sized_ext|done|]. split_and!; try done.
    intros i Hi. rewrite <- E. auto.
  - constructor; [by eapply sized_ext|done|]. split_and!; try done.
    intros i Hi. rewrite <- E. auto.
  - constructor; try done; [by eapply sized_ext| |].
    + intros bin Hb i Hp. by eapply H5, (part_ext X Y).
    + intros bin q Hq. eapply IH; [done|]. by apply part_ext.
Qed.
#[global] Instance rep_proper n p :
  Proper (pointwise_relation Z iff ==> iff) (rep n p).
Proof. intros X Y E. split; apply rep_ext; intros i; [|symmetry]; apply E. Qed.

Lemma bin_range d size i :
  0 <= i < size -> 0 < d -> size <= 62 * d ->
  0 <= i / d < 62 /\ 0 <= i mod d < d /\ i = i / d * d + i mod d.
Proof.
  intros Hi Hd Hs. split; [|split].
  - split; [apply Z.div_pos; lia|apply Z.div_lt_upper_bound; lia].
  - apply Z.mod_pos_bound. lia.
  - rewrite Z.mul_comm. apply Z.div_mod. lia.
Qed.
(** The bit [i] as seen from its sub-bitmap. *)
Lemma part_here X d i : 0 < d -> part X d (i / d) (i mod d) <-> X i.
Proof.
  intros Hd. unfold part. rewrite Z.mul_comm, <- Z.div_mod by lia.
  pose proof (Z.mod_pos_bound i d). split; [by intros []|]. intros. split; [lia|done].
Qed.
Lemma bin_of d bin j :
  0 <= j < d -> (bin * d + j) / d = bin /\ (bin * d + j) mod d = j.
Proof.
  intros Hj. rewrite Z.div_add_l, Z.div_small, Z.add_0_r by lia. split; [done|].
  by rewrite Z.add_comm, Z.mod_add, Z.mod_small by lia.
Qed.

Lemma sub_get_in l bin :
  length l = 62%nat -> 0 <= bin < 62 ->
  exists q, sub_get l bin = Some q /\ l !! Z.to_nat bin = Some q.
Proof.
  intros Hl Hb. destruct (lookup_lt_is_Some_2 l (Z.to_nat bin)) as [q Hq]; [lia|].
  exists q. split; [|done]. unfold sub_get. change BITVEC_NPTR with 62.
  by destruct (Z.leb_spec 0 bin), (Z.ltb_spec bin 62); try lia.
Qed.

(** ** Bits of a byte of the bitmap *)

Lemma map_bit b i :
  0 <= i -> negb (Z.land b (Z.shiftl 1 (Z.land i 7)) =? 0) = Z.testbit b (i mod 8).
Proof.
  intros Hi. change 7 with (Z.ones 3). rewrite Z.land_ones by lia.
  change (2 ^ 3) with 8. assert (0 <= i mod 8 < 8) by (apply Z.mod_pos_bound; lia).
  rewrite Z.shiftl_1_l. destruct (Z.testbit b (i mod 8)) eqn:E.
  - apply negb_true_iff, Z.eqb_neq. intros H0.
    apply (f_equal (fun x => Z.testbit x (i mod 8))) in H0.
    by rewrite Z.land_spec, E, Z.pow2_bits_true, Z.bits_0 in H0 by lia.
  - apply negb_false_iff, Z.eqb_eq, Z.bits_inj'. intros j Hj.
    rewrite Z.land_spec, Z.bits_0.
    destruct (Z.eq_dec (i mod 8) j) as [<-|]; [by rewrite E|].
    rewrite Z.pow2_bits_false by lia. apply andb_false_r.
Qed.

Lemma u8_testbit x j : 0 <= j < 8 -> Z.testbit (u8 x) j = Z.testbit x j.
Proof. intros Hj. unfold u8. apply Z.mod_pow2_bits_low. lia. Qed.

(** Writing bit [i] of a bitmap: [f] is what happens to the byte. *)
Lemma map_update l X Y i b l' :
  map_rep l X -> 0 <= i < BITVEC_NBIT ->
  bset l (i / 8) b = Some l' ->
  (forall j, 0 <= j < 8 -> j <> i mod 8 ->
     Z.testbit b j = Z.testbit (bat l (i / 8)) j) ->
  (Z.testbit b (i mod 8) = true <-> Y i) ->
  (forall j, j <> i -> (Y j <-> X j)) ->
  map_rep l' Y.
Proof.
  intros (H1 & H2 & H3) Hi El Hb Hbi HY. split; [|split].
  - by rewrite (bset_len _ _ _ _ El).
  - by eapply bset_ok.
  - intros j Hj. rewrite (bset_at _ _ _ _ (j / 8) El).
    destruct (Z.eq_dec j i) as [->|Hne].
    + rewrite Z.eqb_refl, u8_testbit by (apply Z.mod_pos_bound; lia).
      by rewrite Hbi.
    + rewrite HY, H3 by done. case_if; [|done].
      assert (j mod 8 <> i mod 8) by div_lia.
      assert (0 <= j mod 8 < 8) by (apply Z.mod_pos_bound; lia).
      rewrite u8_testbit, Hb by lia. by rewrite Hif.
Qed.

(** ** Testing *)

Lemma test_from_ok n p X i fuel :
  rep n p X -> (n <= fuel)%nat -> 0 <= i < iSize p ->
  exists b, test_from fuel p i = Some b /\ (b = true <-> X i).
Proof.
  intros H. revert i fuel.
  induction H as [n size nset l X Hs H1 (M1 & M2 & M3)
    |n size nset l X Hs H1 (M1 & M2 & M3 & M4 & M5)
    |n size nset d l X Hs H1 H2 H3 D1 D2 H4 H5 H6 H7 IH]; intros i fuel Hf Hi; cbn in Hi.
  - assert (E : test_from fuel (mkBitvec size nset 0 (aBitmap l)) i
      = Some (Z.testbit (bat l (i / 8)) (i mod 8))).
    { destruct fuel; cbn [test_from iDivisor iSize u]; cbn [Z.eqb negb];
        (destruct (Z.leb_spec size BITVEC_NBIT); [|lia]); cbn [get_map mbind option_bind];
        unfold BITVEC_SZELEM; rewrite bget_in by (rewrite M1; unfold BITVEC_NBIT, BITVEC_SZELEM in *; change BITVEC_NELEM with 496 in *; div_lia);
        cbn [mbind option_bind]; f_equal; apply map_bit; lia. }
    eexists. split; [exact E|]. symmetry. apply M3. lia.
  - destruct (hash_test l (i + 1) M1 M3) as (b & Hb & Hiff); [lia|].
    exists b. split; [|rewrite Hiff; symmetry; apply M5; lia].
    rewrite <- Hb. destruct fuel; cbn [test_from iDivisor iSize u]; cbn [Z.eqb negb];
      (destruct (Z.leb_spec size BITVEC_NBIT); [lia|]); cbn [get_hash mbind option_bind];
      do 2 f_equal; lia.
  - destruct fuel as [|fuel]; [lia|]. change BITVEC_NBIT with 3968 in *.
    destruct (bin_range d size i) as (B1 & B2 & B3); [lia..|].
    destruct (sub_get_in l (i / d)) as (q & Eq & Lq); [done|done|].
    cbn [test_from iDivisor u]. destruct (Z.eqb_spec d 0); [lia|]. cbn [negb get_sub].
    cbn [mbind option_bind]. rewrite Eq. cbn [mbind option_bind].
    destruct q as [q|].
    + destruct (IH _ _ Lq (i mod d) fuel) as (b & Hb & Hiff); [lia|by rewrite (H6 _ _ Lq)|].
      exists b. split; [done|]. rewrite Hiff, Z2Nat.id by lia. apply part_here. lia.
    + exists false. split; [done|]. split; [done|]. intros Hx.
      destruct (H5 _ Lq (i mod d)). rewrite Z2Nat.id by lia. apply part_here; [lia|done].
Qed.

(** ** Setting *)

Definition add_bit (X : Z -> Prop) (i : Z) : Z -> Prop := fun j => X j \/ j = i.

(** What [sqlite3BitvecSet] guarantees: the set grows by at most the bit,
    and by exactly the bit unless memory ran out; no block is lost. *)
Definition set_post (n : nat) (p : Bitvec) (X : Z -> Prop) (i : Z) (h : heap)
    (r : Z * Bitvec) (h' : heap) : Prop :=
  iSize r.2 = iSize p /\ (r.1 = SQLITE_OK \/ r.1 = SQLITE_NOMEM) /\
  (iDivisor p <> 0 -> iDivisor r.2 <> 0) /\
  live h' - live h = destroy_count r.2 - destroy_count p /\
  exists Y, rep n r.2 Y /\ (forall j, Y j -> add_bit X i j) /\
    (r.1 = SQLITE_OK -> forall j, add_bit X i j -> Y j).

Definition opt_count (o : option Bitvec) : Z :=
  match o with None => 0 | Some q => destroy_count q end.
Definition sub_count (l : list (option Bitvec)) : Z :=
  foldr (fun o n => opt_count o + n) 0 l.

Lemma destroy_sub size n d l :
  d <> 0 -> destroy_count (mkBitvec size n d (apSub l)) = sub_count l + 1.
Proof.
  intros Hd. cbn. destruct (Z.eqb_spec d 0); [done|]. reflexivity.
Qed.
Lemma sub_count_cons o l : sub_count (o :: l) = opt_count o + sub_count l.
Proof. done. Qed.
Lemma sub_count_insert l i o o' :
  l !! i = Some o -> sub_count (<[i := o']> l) = sub_count l - opt_count o + opt_count o'.
Proof.
  revert i. induction l as [|x l IH]; intros [|i] E; try done.
  - injection E as ->. change (<[0%nat:=o']> (o :: l)) with (o' :: l).
    rewrite !sub_count_cons. lia.
  - change (<[S i:=o']> (x :: l)) with (x :: <[i:=o']> l).
    rewrite !sub_count_cons, (IH i E). lia.
Qed.
Lemma sub_count_none n : sub_count (replicate n None) = 0.
Proof. by induction n. Qed.

Section Set_spec.
Variable mallocOk : nat -> bool.

Lemma zero_rep n size X :
  sized n size X -> (forall i, ~ X i) -> rep n (mkBitvec size 0 0 (zero_u size)) X.
Proof.
  intros Hs Hx. unfold zero_u. case_if.
  - constructor; [done|done|]. split_and!; [done|apply zeros_ok|].
    intros i Hi. rewrite zeros_at, Z.bits_0. split; [|done]. intros H. by destruct (Hx i).
  - constructor; [done|lia|]. split_and!; [apply zeros_hash_inv|by rewrite used_zeros| | |].
    + by rewrite used_zeros.
    + intros s. rewrite zeros_at. destruct Hs. lia.
    + intros i Hi. split; [intros H; by destruct (Hx i)|]. intros H%zeros_entry. lia.
Qed.
Lemma zero_count size n : destroy_count (mkBitvec size n 0 (zero_u size)) = 1.
Proof. unfold zero_u. by case_if. Qed.

(** Putting a changed sub-bitmap back. *)
Lemma rep_put n size nset d l X Y Z0 bin q :
  rep (S n) (mkBitvec size nset d (apSub l)) X ->
  0 <= bin < 62 -> iSize q = d -> rep n q Z0 ->
  (forall j, Y j -> 0 <= j < size) ->
  (forall j, Z0 j <-> part Y d bin j) ->
  (forall bin' j, bin' <> bin -> 0 <= bin' -> (part X d bin' j <-> part Y d bin' j)) ->
  rep (S n) (mkBitvec size nset d (apSub (sub_set l bin q))) Y.
Proof.
  intros H Hb Hq Hrep HY HZ HX. inversion H as [| |? ? ? ? ? ? Hs H1 H2 H3 D1 D2 H4 H5 H6 H7]; subst.
  unfold sub_set. constructor; try done.
  - by eapply sized_other.
  - by rewrite length_insert.
  - intros b Hl i. apply list_lookup_insert_Some in Hl as [(_ & ? & _)|(Hne & Hl)]; [done|].
    rewrite <- HX by lia. by apply H5.
  - intros b q' Hl. apply list_lookup_insert_Some in Hl as [(<- & [= ->] & _)|(Hne & Hl)]; [done|eauto].
  - intros b q' Hl. apply list_lookup_insert_Some in Hl as [(<- & [= ->] & _)|(Hne & Hl)].
    + rewrite Z2Nat.id by lia. eapply rep_ext; [|exact Hrep]. done.
    + eapply rep_ext; [|by apply H7]. intros j. apply HX; lia.
Qed.

Lemma set_map fuel n size nset l X i h :
  rep n (mkBitvec size nset 0 (aBitmap l)) X -> 0 <= i < size ->
  wp (set_from mallocOk (S fuel) (mkBitvec size nset 0 (aBitmap l)) i)
    (returns (set_post n (mkBitvec size nset 0 (aBitmap l)) X i h)) h.
Proof.
  intros H Hi. inversion H as [? ? ? ? ? Hs H1 HM| |]; subst.
  pose proof HM as (M1 & M2 & M3).
  assert (Hr : 0 <= i / 8 < 496 /\ i < 3968 /\ 0 <= i mod 8 < 8) by (change BITVEC_NBIT with 3968 in *; div_lia).
  cbn [set_from iDivisor iSize u]. cbn [Z.eqb negb]. rewrite andb_false_r.
  destruct (Z.leb_spec size BITVEC_NBIT); [|lia]. cbn [get_map]. unfold BITVEC_SZELEM.
  wp_go. rewrite bget_in by (rewrite M1; apply Hr). wp_go.
  set (b := Z.lor _ _). destruct (bset_in l (i / 8) b) as [l' El]; [rewrite M1; apply Hr|].
  wp_go. rewrite El. wp_go.
  assert (Hb : forall j, 0 <= j < 8 -> Z.testbit b j = Z.testbit (bat l (i / 8)) j || (j =? i mod 8)).
  { intros j Hj. unfold b. change (Z.land i (8 - 1)) with (Z.land i (Z.ones 3)).
    rewrite Z.land_ones by lia. change (2 ^ 3) with 8.
    rewrite Z.shiftl_1_l, Z.lor_spec, Z.pow2_bits_eqb by lia. by rewrite (Z.eqb_sym (i mod 8)). }
  split_and!; [done|by left|done|cbn; lia|]. exists (add_bit X i). split_and!; [|done|done].
  constructor; [|done|].
  - eapply sized_other; [done|]. destruct Hs as (_ & _ & Hx). intros j [Hj| ->]; auto.
  - eapply (map_update l X); [done|split; [apply Hi|apply Hr]|exact El| | |].
    + intros j Hj Hne. rewrite Hb by done. destruct (Z.eqb_spec j (i mod 8)); [done|].
      apply orb_false_r.
    + rewrite Hb by lia. rewrite Z.eqb_refl, orb_true_r. split; [by right|done].
    + intros j Hj. unfold add_bit. split; [by intros [|]|by left].
Qed.

(** Setting a bit of a node divided into sub-bitmaps, given that setting one
    of a sub-bitmap is right. *)
Lemma set_sub fuel n size nset d l X i h :
  (forall q Y j h, rep n q Y -> 0 <= j < iSize q ->
     wp (set_from mallocOk fuel q j) (returns (set_post n q Y j h)) h) ->
  rep (S n) (mkBitvec size nset d (apSub l)) X -> 0 <= i < size ->
  wp (set_from mallocOk (S fuel) (mkBitvec size nset d (apSub l)) i)
    (returns (set_post (S n) (mkBitvec size nset d (apSub l)) X i h)) h.
Proof.
  intros IH H Hi. pose proof H as H0.
  inversion H0 as [| |? ? ? ? ? ? Hs H1 H2 H3 D1 D2 H4 H5 H6 H7]; subst. clear H0.
  assert (Hd : 0 < d) by (change BITVEC_NBIT with 3968 in *; lia).
  destruct (bin_range d size i) as (B1 & B2 & B3); [lia..|].
  destruct (sub_get_in l (i / d)) as (o & Eo & Lo); [done|done|].
  cbn [set_from iDivisor iSize u].
  destruct (Z.ltb_spec BITVEC_NBIT size); [|lia].
  destruct (Z.eqb_spec d 0); [lia|]. cbn [negb andb get_sub]. wp_go.
  rewrite Eo. do 2 wp_step.
  eapply (wp_seq _ _ _ (fun q h1 => match q with
     | None => live h1 = live h
     | Some q => iSize q = d /\ rep n q (part X d (i / d)) /\
         live h1 - live h = destroy_count q - opt_count o
     end)).
  { destruct o as [q|].
    - wp_go. cbn. rewrite (H6 _ _ Lo). split_and!; [done| |lia].
      specialize (H7 _ _ Lo). by rewrite Z2Nat.id in H7 by lia.
    - unfold sqlite3BitvecCreate. wp_go. apply wp_malloc. intros b h1 Ht Hf. wp_go.
      destruct b; [|by apply Hf]. cbn [okp returns iSize]. split_and!; [done| |].
      + apply zero_rep.
        * split_and!; [lia|lia|done|by intros j []].
        * intros j Hj. destruct (H5 _ Lo j). by rewrite Z2Nat.id by lia.
      + rewrite zero_count, Ht by done. cbn. lia. }
  intros [q|] h1 Hq.
  2:{ wp_go. cbn. split_and!; [done|by right|done|cbn; lia|].
      exists X. split_and!; [done|by left|done]. }
  destruct Hq as (Q1 & Q2 & Q3).
  eapply wp_seq; [apply (IH q _ _ h1 Q2); lia|].
  intros [rc q'] h2 (P1 & P2 & P3 & P4 & Y & P5 & P6 & P7). cbn [fst snd] in *. wp_go.
  cbn [okp returns]. split_and!; cbn [fst snd iSize iDivisor set_u]; try done.
  { rewrite !destroy_sub by lia. unfold sub_set.
    rewrite (sub_count_insert _ _ _ _ Lo). cbn [opt_count]. lia. }
  assert (HY : forall j, Y j -> part (add_bit X i) d (i / d) j).
  { intros j [[Hj HX]| ->]%P6; (split; [done|]); [by left|right; lia]. }
  exists (fun j => (j / d = i / d /\ Y (j mod d)) \/ (j / d <> i / d /\ X j)).
  assert (Hback : forall j, j / d = i / d -> part (add_bit X i) d (i / d) (j mod d) <-> add_bit X i j).
  { intros j <-. by apply part_here. }
  split_and!.
  - eapply rep_put; [done|done|lia|done| | |].
    + destruct Hs as (_ & _ & Hx). intros j [[E Hj]|[_ Hj]]; [|auto].
      apply HY, Hback in Hj as [Hj| ->]; auto.
    + intros j. unfold part. split.
      * intros Hj. pose proof (rep_sized _ _ _ P5) as (_ & _ & Hx).
        specialize (Hx _ Hj). rewrite P1, Q1 in Hx. split; [lia|]. left.
        by destruct (bin_of d (i / d) j) as [-> ->].
      * intros [Hj HYj]. destruct (bin_of d (i / d) j) as [E1 E2]; [done|].
        rewrite E1, E2 in HYj. by destruct HYj as [[]|[]].
    + intros bin' j Hne Hb. unfold part.
      split; intros [Hj Hx]; (split; [done|]);
        destruct (bin_of d bin' j) as [E1 E2]; try done.
      * right. by rewrite E1.
      * rewrite E1 in Hx. by destruct Hx as [[]|[]].
  - intros j [[E Hj]|[_ Hj]]; [|by left]. by apply HY, Hback in Hj.
  - intros -> j Hj. destruct (Z.eq_dec (j / d) (i / d)) as [E|E].
    + left. split; [done|]. apply P7; [done|]. unfold add_bit in *.
      destruct Hj as [Hj| ->]; [left|by right]. rewrite <- E. by apply part_here.
    + right. split; [done|]. by destruct Hj as [| ->].
Qed.

Section Rehash_spec.
Variables (fuel n : nat).
Hypothesis Hset : forall p Y j h,
  rep (S n) p Y -> iDivisor p <> 0 -> 0 <= j < iSize p ->
  wp (set_from mallocOk fuel p j) (returns (set_post (S n) p Y j h)) h.

Abbreviation set_rec := (fun p i => set_from mallocOk fuel p (u32 (i - 1))).

(** The bits of the values in [vs]. *)
Definition bits_of (vs : list Z) (j : Z) : Prop := j + 1 <> 0 /\ j + 1 ∈ vs.

Definition rehash_post (p : Bitvec) (X : Z -> Prop) (h : heap)
    (r : Z * Bitvec) (h' : heap) : Prop :=
  iSize r.2 = iSize p /\ (r.1 = SQLITE_OK \/ r.1 = SQLITE_NOMEM) /\
  iDivisor r.2 <> 0 /\
  live h' - live h = destroy_count r.2 - destroy_count p /\
  exists Y, rep (S n) r.2 Y /\ (forall j, Y j -> X j) /\
    (r.1 = SQLITE_OK -> forall j, X j -> Y j).

Lemma reinsert_ok vs rc p X Y h :
  rep (S n) p Y -> iDivisor p <> 0 -> Forall (fun v => 0 <= v <= iSize p) vs ->
  (rc = SQLITE_OK \/ rc = SQLITE_NOMEM) ->
  (forall j, Y j -> X j) -> (rc = SQLITE_OK -> forall j, X j -> Y j) ->
  wp (reinsert set_rec rc p vs)
    (returns (rehash_post p (fun j => X j \/ bits_of vs j) h)) h.
Proof.
  revert rc p X Y h. induction vs as [|v vs IH]; intros rc p X Y h H Hd Hv Hrc HYX HXY;
    cbn [reinsert].
  - wp_go. split_and!; [done|done|done|cbn; lia|]. exists Y. split_and!; [done|by left; auto|].
    intros E j [Hj|[_ []%elem_of_nil]]. auto.
  - apply list.Forall_cons in Hv as [Hv Hvs]. pose proof (rep_sized _ _ _ H) as (Hs & _).
    case_if.
    + rewrite u32_small by lia. eapply wp_seq; [apply (Hset p Y (v - 1) h); [done..|lia]|].
      intros [rc1 p1] h1 (P1 & P2 & P3 & P4 & Y1 & P5 & P6 & P7). cbn [fst snd] in *.
      eapply okp_mono; [apply (IH _ p1 (add_bit X (v - 1)) Y1 h1 P5)|].
      * auto.
      * by rewrite P1.
      * destruct Hrc as [-> | ->], P2 as [-> | ->]; cbn; auto.
      * intros j [Hj| ->]%P6; [left; auto|by right].
      * intros Erc j Hj. assert (rc = SQLITE_OK /\ rc1 = SQLITE_OK) as [E1 E2].
        { destruct Hrc as [-> | ->], P2 as [-> | ->]; done. }
        apply P7; [done|]. destruct Hj as [Hj| ->]; [left; auto|by right].
      * intros [rc2 p2] h2 (R1 & R2 & R3 & R4 & Y2 & R5 & R6 & R7). cbn [fst snd] in *.
        split_and!; cbn [fst snd]; [congruence|done|done|lia|].
        exists Y2. split_and!; [done| |].
        -- intros j [[Hj| ->]|[Hj1 Hj2]]%R6; [by left|right|right].
           ++ split; [lia|]. replace (v - 1 + 1) with v by lia. apply list_elem_of_here.
           ++ split; [done|]. by apply list_elem_of_further.
        -- intros E j Hj. apply R7; [done|]. destruct Hj as [Hj|[Hj1 Hj2]]; [by left; left|].
           apply elem_of_cons in Hj2 as [Hj2|Hj2]; [left; right; lia|by right; split].
    + eapply okp_mono; [by apply (IH rc p X Y h)|].
      intros [rc2 p2] h2 (R1 & R2 & R3 & R4 & Y2 & R5 & R6 & R7). cbn [fst snd] in *.
      split_and!; [done..|]. exists Y2. split_and!; [done| |].
      * intros j [Hj|[Hj1 Hj2]]%R6; [by left|right]. split; [done|]. by apply list_elem_of_further.
      * intros E j Hj. apply R7; [done|]. destruct Hj as [Hj|[Hj1 Hj2]]; [by left|right].
        apply elem_of_cons in Hj2 as [Hj2|Hj2]; [lia|by split].
Qed.

Lemma elem_entry l v : blen l = NINT -> v ∈ l <-> entry l v.
Proof.
  intros Hl. unfold blen in Hl. rewrite NINT_eq in Hl. unfold entry, bat.
  rewrite list_elem_of_lookup. split.
  - intros (k & Hk). pose proof (lookup_lt_Some _ _ _ Hk). exists (Z.of_nat k).
    rewrite NINT_eq. split; [lia|]. destruct (Z.leb_spec 0 (Z.of_nat k)); [|lia].
    by rewrite Nat2Z.id, Hk.
  - intros (s & Hs & E). rewrite NINT_eq in Hs. exists (Z.to_nat s).
    destruct (Z.leb_spec 0 s); [|lia].
    destruct (lookup_lt_is_Some_2 l (Z.to_nat s)) as [x Hx]; [lia|].
    rewrite Hx in *. by subst.
Qed.

Lemma rehash_ok size l nset X i h :
  rep (S n) (mkBitvec size nset 0 (aHash l)) X -> 1 <= i <= size ->
  wp (rehash mallocOk set_rec (mkBitvec size nset 0 (aHash l)) l i)
    (returns (set_post (S n) (mkBitvec size nset 0 (aHash l)) X (i - 1) h)) h.
Proof.
  intros H Hi. inversion H as [|? ? ? ? ? Hs H1 (M1 & M2 & M3 & M4 & M5)|]; subst.
  set (p := mkBitvec size (used l) 0 (aHash l)) in *.
  unfold rehash. apply wp_bind, wp_malloc. intros b h1 Ht Hf. unfold after.
  destruct b; cbn [negb].
  2:{ wp_go. split_and!; cbn [fst snd]; [done|by right|done|rewrite Hf by done; lia|].
      exists X. split_and!; [done|by left|done]. }
  specialize (Ht eq_refl).
  change BITVEC_NPTR with 62 in *. change BITVEC_NBIT with 3968 in *.
  cbn [set_u set_iDivisor iSize p].
  set (d0 := if negb (size mod 62 =? 0) then size / 62 + 1 else size / 62).
  assert (Hd0 : size <= 62 * d0 /\ 62 * (d0 - 1) < size).
  { unfold d0. case_if; div_lia. }
  set (d := if d0 <? 3968 then 3968 else d0).
  assert (Hd : size <= 62 * d /\ 3968 <= d <= size /\
    (d = 3968 \/ 62 * (d - 1) < size)).
  { unfold d. case_if; lia. }
  clearbody d. destruct Hd as (D1 & D2 & D3).
  set (p0 := mkBitvec size (used l) d (apSub (replicate (Z.to_nat 62) None))).
  assert (Hs' := Hs). destruct Hs' as (S1 & S2 & S3). change BITVEC_NBIT with 3968 in *.
  assert (H0 : rep (S n) p0 (fun _ => False)).
  { apply rep_sub; try done; try lia.
    - change BITVEC_NBIT with 3968. lia.
    - change BITVEC_NBIT with 3968.
      rewrite Nat2Z.inj_succ, Z.pow_succ_r in S2 by lia.
      assert (0 < 62 ^ Z.of_nat n) by (apply Z.pow_pos_nonneg; lia). lia.
    - by intros bin Hb j [].
    - intros bin q Hq. by apply lookup_replicate in Hq as [? _].
    - intros bin q Hq. by apply lookup_replicate in Hq as [? _]. }
  assert (E0 : destroy_count p0 = 1).
  { unfold p0. rewrite destroy_sub by lia. by rewrite sub_count_none. }
  eapply wp_seq; [rewrite u32_small by lia; apply (Hset p0 _ (i - 1) h1 H0); cbn; lia|].
  intros [rc1 p1] h2 (P1 & P2 & P3 & P4 & Y1 & P5 & P6 & P7). cbn [fst snd] in *.
  eapply wp_seq.
  { apply (reinsert_ok l rc1 p1 (fun j => j = i - 1) Y1 h2); try done.
    - apply P3. cbn. lia.
    - rewrite P1. cbn. apply list.Forall_forall. intros v Hv.
      apply elem_entry in Hv as (s & _ & <-); [apply M4|apply M1].
    - by intros j [[]| ->]%P6.
    - intros E j ->. apply P7; [done|]. by right. }
  intros [rc2 p2] h3 (R1 & R2 & R3 & R4 & Y2 & R5 & R6 & R7). cbn [fst snd] in *.
  unfold free. wp_go. split_and!; cbn [fst snd live]; [by rewrite R1, P1|done|done|cbn; lia|].
  assert (Hbits : forall j, bits_of l j <-> X j).
  { intros j. unfold bits_of. rewrite elem_entry by apply M1. split.
    - intros [Hj He]. assert (0 <= j).
      { destruct He as (s & _ & E). specialize (M4 s). lia. }
      by apply M5.
    - intros Hj. pose proof (S3 _ Hj). split; [lia|]. apply M5; [lia|done]. }
  exists Y2. split_and!; [done| |].
  - intros j [->|Hj%Hbits]%R6; [by right|by left].
  - intros E j Hj. apply R7; [done|]. destruct Hj as [Hj| ->]; [right|by left].
    by apply Hbits.
Qed.
End Rehash_spec.

Lemma hash_node_size n size nset l X :
  rep n (mkBitvec size nset 0 (aHash l)) X -> exists m, n = S m.
Proof.
  intros H. inversion H as [|? ? ? ? ? (_ & Hs & _) H1 _|]; subst.
  destruct n as [|m]; [|eauto]. change BITVEC_NBIT with 3968 in *. cbn in Hs. lia.
Qed.

(** Adding a value to a table that has room for it. *)
Lemma rep_insert n size nset l X i k :
  rep n (mkBitvec size nset 0 (aHash l)) X -> 0 <= i < size -> nset < NINT - 1 ->
  first_free l (BITVEC_HASH i) k ->
  exists l', aset l (slot (BITVEC_HASH i) k) (i + 1) = Some l' /\
    rep n (mkBitvec size (nset + 1) 0 (aHash l')) (add_bit X i).
Proof.
  intros H Hi Hn Hk. inversion H as [|? ? ? ? ? Hs H1 (M1 & M2 & M3 & M4 & M5)|]; subst.
  replace i with (i + 1 - 1) in Hk by lia.
  destruct (hash_insert l (i + 1) k M1) as (l' & El & L1 & L2 & L3); [lia|done|].
  replace (i + 1 - 1) with i in El by lia. exists l'. split; [done|].
  constructor; [|done|split_and!; try done; try lia].
  - eapply sized_other; [done|]. destruct Hs as (_ & _ & Hx). intros j [Hj| ->]; auto.
  - intros s. rewrite (aset_at _ _ _ _ s El). case_if; [lia|apply M4].
  - intros j Hj. unfold add_bit. rewrite M5, L3 by lia.
    split; (intros [|]; [by left|right; lia]).
Qed.

Lemma set_hash_ok fuel n size nset l X i h :
  (forall p Y j h, rep (S n) p Y -> iDivisor p <> 0 -> 0 <= j < iSize p ->
     wp (set_from mallocOk fuel p j) (returns (set_post (S n) p Y j h)) h) ->
  rep (S n) (mkBitvec size nset 0 (aHash l)) X -> 0 <= i < size ->
  wp (set_from mallocOk (S fuel) (mkBitvec size nset 0 (aHash l)) i)
    (returns (set_post (S n) (mkBitvec size nset 0 (aHash l)) X i h)) h.
Proof.
  intros Hset H Hi. pose proof H as H0.
  inversion H0 as [|? ? ? ? ? Hs H1 (M1 & M2 & M3 & M4 & M5)|]; subst nset. clear H0. subst.
  cbn [set_from iDivisor iSize u]. cbn [Z.eqb negb]. rewrite andb_false_r.
  destruct (Z.leb_spec size BITVEC_NBIT); [lia|]. cbn [get_hash].
  do 2 wp_step. unfold after. unfold set_hash. replace (i + 1 - 1) with i by lia.
  rewrite bget_in by (rewrite (proj1 M1); apply hash_range). do 2 wp_step. unfold after.
  set (p := mkBitvec size (used l) 0 (aHash l)) in *.
  (* the two ways to go on *)
  assert (Hfinish : forall k, first_free l (BITVEC_HASH i) k -> used l < NINT - 1 ->
    wp (let* l := lift (aset l (slot (BITVEC_HASH i) k) (i + 1)) in
        ret (SQLITE_OK, set_u (aHash l) (set_nSet (nSet p + 1) p)))
      (returns (set_post (S n) p X i h)) h).
  { intros k Hk Hu. destruct (rep_insert _ _ _ _ _ i k H Hi Hu Hk) as (l' & El & Hr).
    rewrite El. wp_go. split_and!; cbn; [done|by left|done|lia|].
    exists (add_bit X i). done. }
  assert (Hrehash : wp (rehash mallocOk
      (fun p i => set_from mallocOk fuel p (u32 (i - 1))) p l (i + 1))
      (returns (set_post (S n) p X i h)) h).
  { replace (set_post (S n) p X i) with (set_post (S n) p X (i + 1 - 1)) by (f_equal; lia).
    apply rehash_ok; [done|done|lia]. }
  cbn [nSet p]. fold p. case_if.
  - destruct (first_free_exists l (BITVEC_HASH i)) as (k & Hk); [apply M1|done|].
    assert (E : slot (BITVEC_HASH i) 0 = BITVEC_HASH i) by (apply slot_0, hash_range).
    assert (H00 : first_free l (BITVEC_HASH i) 0).
    { split; [done|]. rewrite E. split; [done|]. intros j Hj. lia. }
    specialize (Hfinish 0 H00). rewrite E in Hfinish. case_if; [auto|].
    case_if; [done|]. change BITVEC_MXHASH with 62 in *. rewrite NINT_eq in *. lia.
  - destruct (hash_find l (i + 1) M1) as (k & r & Hk & Er & Hr);
      [done|lia|by replace (i + 1 - 1) with i by lia|].
    replace (i + 1 - 1) with i in * by lia. rewrite Er. do 2 wp_step. unfold after.
    destruct Hr as [[-> He]|[-> He]].
    + wp_go. split_and!; cbn [fst snd]; [done|by left|done|lia|].
      exists X. split_and!; [done|by left|]. intros _ j [Hj| ->]; [done|].
      apply M5; [lia|done].
    + case_if; [done|]. apply Hfinish; [done|].
      change BITVEC_MXHASH with 62 in *. rewrite NINT_eq. lia.
Qed.

(** Enough fuel: two units per level, one less when the node is divided. *)
Definition set_need (n : nat) (p : Bitvec) : nat :=
  (if (iDivisor p =? 0)%Z then 2 * n + 1 else 2 * n)%nat.

Lemma set_from_ok n p X i h fuel :
  rep n p X -> 0 <= i < iSize p -> (set_need n p <= fuel)%nat ->
  wp (set_from mallocOk fuel p i) (returns (set_post n p X i h)) h.
Proof.
  unfold set_need. revert p X i h fuel.
  induction n as [|n IH]; intros p X i h fuel H Hi Hf.
  - destruct fuel as [|fuel].
    { inversion H; subst; cbn in Hf; lia. }
    inversion H; subst; [by apply set_map|].
    by destruct (hash_node_size _ _ _ _ _ H).
  - destruct fuel as [|fuel]; [case_if_in Hf; lia|].
    assert (Hsub : forall fuel p Y j h, (2 * n + 1 <= fuel)%nat ->
      rep (S n) p Y -> iDivisor p <> 0 -> 0 <= j < iSize p ->
      wp (set_from mallocOk (S fuel) p j) (returns (set_post (S n) p Y j h)) h).
    { intros f q Y j h' Hf' Hq Hd Hj. inversion Hq; subst; try done.
      apply set_sub; [|done|done]. intros q' Y' j' h2 Hq' Hj'.
      apply IH; [done|done|]. case_if; lia. }
    inversion H as [| |? ? ? ? ? ? ? ? H2]; subst; cbn [iDivisor] in Hf;
      [by apply set_map| |].
    + cbn in Hf. apply set_hash_ok; [|done|done].
      destruct fuel as [|fuel]; [lia|]. intros. apply Hsub; [lia|done..].
    + change BITVEC_NBIT with 3968 in *. destruct (Z.eqb_spec d 0); [lia|].
      apply Hsub; [lia|done| |done]. cbn. lia.
Qed.
End Set_spec.

(** ** Clearing *)

Lemma clear_loop_ok i vs l :
  hash_inv l -> used l + used vs < NINT ->
  exists l', clear_loop i (used l) l vs = Some (used l', l') /\
    hash_inv l' /\ used l' <= used l + used vs /\
    forall w, w <> 0 -> (entry l' w <-> entry l w \/ (w ∈ vs /\ w <> i)).
Proof.
  revert l. induction vs as [|v vs IH]; intros l Hi Hu.
  - exists l. cbn in *. split_and!; [done|done|lia|]. intros w Hw. split; [by left|].
    by intros [|[[]%elem_of_nil _]].
  - rewrite used_cons in Hu. cbn [clear_loop]. pose proof (used_bounds vs).
    destruct (Z.eqb_spec v 0) as [->|Hv]; [|destruct (Z.eqb_spec v i) as [->|Hvi]]; cbn [negb andb].
    + destruct (IH l Hi Hu) as (l' & E & L1 & L2 & L3). exists l'. rewrite used_cons.
      split_and!; [done|done|cbn; lia|]. intros w Hw. rewrite L3, elem_of_cons by done.
      tauto.
    + destruct (IH l Hi) as (l' & E & L1 & L2 & L3); [lia|]. exists l'. rewrite used_cons.
      split_and!; [done|done|case_if; lia|]. intros w Hw. rewrite L3, elem_of_cons by done.
      tauto.
    + destruct (hash_free_slot l v Hi) as (k & Hk & E); [lia|done|]. rewrite E.
      cbn [mbind option_bind]. destruct (hash_insert l v k Hi Hv Hk) as (l1 & E1 & H1 & H2 & H3).
      rewrite E1. cbn [mbind option_bind]. rewrite <- H2.
      destruct (IH l1 H1) as (l' & E' & L1 & L2 & L3).
      { rewrite H2. destruct (Z.eqb_spec v 0); [done|]. lia. }
      exists l'. rewrite used_cons. destruct (Z.eqb_spec v 0); [done|].
      split_and!; [done|done|lia|]. intros w Hw.
      rewrite L3, H3, elem_of_cons by done.
      assert (w = v -> w <> i) by (intros ->; done). tauto.
Qed.

Definition del_bit (X : Z -> Prop) (i : Z) : Z -> Prop := fun j => X j /\ j <> i.

Lemma clear_byte b i :
  0 <= b < 256 -> 0 <= i ->
  let b' := Z.land b (Z.lnot (u8 (Z.shiftl 1 (Z.land i (8 - 1))))) in
  forall j, 0 <= j < 8 -> Z.testbit b' j = Z.testbit b j && negb (j =? i mod 8).
Proof.
  intros Hb Hi. cbn zeta. intros j Hj. change (Z.land i (8 - 1)) with (Z.land i (Z.ones 3)).
  rewrite Z.land_ones by lia. change (2 ^ 3) with 8.
  assert (0 <= i mod 8 < 8) by (apply Z.mod_pos_bound; lia).
  rewrite Z.land_spec, Z.lnot_spec, u8_testbit, Z.shiftl_1_l, Z.pow2_bits_eqb by lia.
  by rewrite (Z.eqb_sym (i mod 8)).
Qed.

Lemma clear_map fuel n size nset l X i :
  rep n (mkBitvec size nset 0 (aBitmap l)) X -> 0 <= i < size ->
  exists l', clear_from fuel (mkBitvec size nset 0 (aBitmap l)) i
      = Some (mkBitvec size nset 0 (aBitmap l')) /\
    rep n (mkBitvec size nset 0 (aBitmap l')) (del_bit X i).
Proof.
  intros H Hi. inversion H as [? ? ? ? ? Hs H1 HM| |]; subst.
  pose proof HM as (M1 & M2 & M3).
  assert (Hr : 0 <= i / 8 < 496 /\ i < 3968 /\ 0 <= i mod 8 < 8) by (change BITVEC_NBIT with 3968 in *; div_lia).
  pose proof (clear_byte (bat l (i / 8)) i (bat_range _ _ M2) (proj1 Hi)) as Hb.
  cbn zeta in Hb. set (b := Z.land _ _) in Hb.
  destruct (bset_in l (i / 8) b) as [l' El]; [rewrite M1; apply Hr|]. exists l'. split.
  - assert (E : exists f, clear_from fuel (mkBitvec size nset 0 (aBitmap l)) i
        = (b0 ← bget l (i / 8); l0 ← bset l (i / 8) (f b0);
           Some (mkBitvec size nset 0 (aBitmap l0))) /\ f (bat l (i / 8)) = b).
    { eexists (fun b0 => Z.land b0 _).
      destruct fuel; cbn [clear_from iDivisor iSize u]; cbn [Z.eqb negb];
        (destruct (Z.leb_spec size BITVEC_NBIT); [|lia]); cbn [get_map mbind option_bind set_u];
        unfold BITVEC_SZELEM; split; reflexivity. }
    destruct E as (f & -> & Ef). rewrite bget_in by (rewrite M1; apply Hr).
    cbn [mbind option_bind]. by rewrite Ef, El.
  - constructor; [|done|].
    + eapply sized_other; [done|]. destruct Hs as (_ & _ & Hx). intros j [Hj _]; auto.
    + eapply (map_update l X); [done|split; [apply Hi|apply Hr]|exact El| | |].
      * intros j Hj Hne. rewrite Hb by done. destruct (Z.eqb_spec j (i mod 8)); [done|].
        apply andb_true_r.
      * rewrite Hb, Z.eqb_refl, andb_false_r by lia. split; [done|]. by intros [].
      * intros j Hj. unfold del_bit. split; [by intros []|done].
Qed.

Lemma clear_hash fuel n size nset l X i :
  rep n (mkBitvec size nset 0 (aHash l)) X -> 0 <= i < size ->
  exists nset' l', clear_from fuel (mkBitvec size nset 0 (aHash l)) i
      = Some (mkBitvec size nset' 0 (aHash l')) /\
    rep n (mkBitvec size nset' 0 (aHash l')) (del_bit X i).
Proof.
  intros H Hi. inversion H as [|? ? ? ? ? Hs H1 (M1 & M2 & M3 & M4 & M5)|]; subst.
  destruct (clear_loop_ok (i + 1) l (zeros NINT)) as (l' & E & L1 & L2 & L3);
    [apply zeros_hash_inv|by rewrite used_zeros|].
  rewrite used_zeros in *. exists (used l'), l'. split.
  - destruct fuel; cbn [clear_from iDivisor iSize u]; cbn [Z.eqb negb];
      (destruct (Z.leb_spec size BITVEC_NBIT); [lia|]); cbn [get_hash mbind option_bind];
      rewrite E; done.
  - assert (He : forall w, w <> 0 -> entry l' w <-> entry l w /\ w <> i + 1).
    { intros w Hw. rewrite L3, elem_entry by (done || apply M1). split.
      - intros [Hz%zeros_entry|Hz]; [done|done].
      - by right. }
    constructor; [|done|split_and!; try done; try lia].
    + eapply sized_other; [done|]. destruct Hs as (_ & _ & Hx). intros j [Hj _]; auto.
    + intros s. destruct (Z.eq_dec (bat l' s) 0) as [->|Hne]; [destruct Hs; lia|].
      assert (Hr : 0 <= s < NINT).
      { destruct (decide (0 <= s < NINT)) as [|Hn]; [done|]. destruct Hne.
        apply bat_outside. rewrite (proj1 L1). lia. }
      destruct (proj1 (He _ Hne)) as [(s' & _ & <-) _]; [by exists s|apply M4].
    + intros j Hj. unfold del_bit. rewrite He, <- M5 by lia.
      split; (intros [? ?]; split; [done|lia]).
Qed.

Lemma clear_from_ok n p X i fuel :
  rep n p X -> (n <= fuel)%nat -> 0 <= i < iSize p ->
  exists p', clear_from fuel p i = Some p' /\ iSize p' = iSize p /\
    destroy_count p' = destroy_count p /\ rep n p' (del_bit X i).
Proof.
  intros H. revert i fuel. pose proof H as H0. revert H0.
  induction H as [n size nset l X Hs H1 HM|n size nset l X Hs H1 HM
    |n size nset d l X Hs H1 H2 H3 D1 D2 H4 H5 H6 H7 IH]; intros H i fuel Hf Hi; cbn in Hi.
  - destruct (clear_map fuel n size nset l X i H Hi) as (l' & E & Hr). eauto.
  - destruct (clear_hash fuel n size nset l X i H Hi) as (m & l' & E & Hr). eauto.
  - destruct fuel as [|fuel]; [lia|].
    assert (Hd : 0 < d) by (change BITVEC_NBIT with 3968 in *; lia).
    destruct (bin_range d size i) as (B1 & B2 & B3); [lia..|].
    destruct (sub_get_in l (i / d)) as (q & Eq & Lq); [done|done|].
    cbn [clear_from iDivisor u]. destruct (Z.eqb_spec d 0); [lia|]. cbn [negb get_sub].
    cbn [mbind option_bind]. rewrite Eq. cbn [mbind option_bind].
    assert (Hother : forall bin' j, bin' <> i / d ->
      part X d bin' j <-> part (del_bit X i) d bin' j).
    { intros bin' j Hne. unfold part, del_bit. split; [|by intros (? & ? & _)].
      intros [Hj Hx]. split_and!; [lia|lia|done|]. intros <-.
      destruct (bin_of d bin' j Hj) as [E _]. done. }
    destruct q as [q|].
    + destruct (IH _ _ Lq (H7 _ _ Lq) (i mod d) fuel) as (q' & E & Q1 & Q2 & Q3);
        [lia|by rewrite (H6 _ _ Lq)|].
      rewrite E. cbn [mbind option_bind set_u]. eexists. split; [done|]. split; [done|].
      split.
      * rewrite !destroy_sub by lia. unfold sub_set. rewrite (sub_count_insert _ _ _ _ Lq).
        cbn [opt_count]. lia.
      * eapply rep_put; [done|done|rewrite Q1; eauto|done| | |].
        -- intros j [Hj _]. by apply Hs.
        -- intros j. rewrite Z2Nat.id by lia. unfold del_bit, part.
           split; [intros ((? & ?) & ?)|intros (? & ? & ?)]; split_and!; try done; lia.
        -- intros bin' j Hne _. by apply Hother.
    + eexists. split; [done|]. split; [done|]. split; [done|].
      eapply rep_ext; [|exact H]. intros j. unfold del_bit. split; [|by intros []].
      intros Hj. split; [done|]. intros ->. destruct (H5 _ Lq (i mod d)).
      rewrite Z2Nat.id by lia. by apply part_here.
Qed.

(** ** The module as its callers see it: a set of numbers from 1 to the size *)

Definition bitvec (size : Z) (p : Bitvec) (X : Z -> Prop) : Prop :=
  iSize p = size /\ exists n, (n <= 4)%nat /\ rep n p (fun i => X (i + 1)).

Lemma bitvec_size size p X : bitvec size p X -> iSize p = size /\ 0 <= size < 2 ^ 32.
Proof. intros [<- (n & _ & H)]. split; [done|]. apply (rep_sized _ _ _ H). Qed.

Lemma bitvec_create size :
  0 <= size < 2 ^ 32 ->
  bitvec size (mkBitvec size 0 0 (zero_u size)) (fun _ => False).
Proof.
  intros Hs. split; [done|]. exists 4%nat. split; [done|]. apply zero_rep; [|auto].
  split; [done|]. split; [|done]. change BITVEC_NBIT with 3968. lia.
Qed.

Lemma bitvec_test size p X i :
  bitvec size p X -> 0 <= i < 2 ^ 32 ->
  exists b, sqlite3BitvecTest (Some p) i = Some b /\ (b = true <-> X i).
Proof.
  intros [<- (n & Hn & H)] Hi. pose proof (rep_sized _ _ _ H) as (Hs & _ & Hx).
  cbn [sqlite3BitvecTest]. unfold sqlite3BitvecTestNotNull.
  destruct (Z.eq_dec i 0) as [->|Hi0].
  { change (u32 (0 - 1)) with (2 ^ 32 - 1). destruct (Z.leb_spec (iSize p) (2 ^ 32 - 1)); [|lia].
    exists false. split; [done|]. split; [done|]. intros Hm. destruct (Hx (-1)); [done|lia]. }
  rewrite u32_small by lia. destruct (Z.leb_spec (iSize p) (i - 1)).
  - exists false. split; [done|]. split; [done|]. intros Hm.
    destruct (Hx (i - 1)); [by replace (i - 1 + 1) with i by lia|lia].
  - destruct (test_from_ok n p _ (i - 1) depth H) as (b & Hb & Hiff); [unfold depth; lia|lia|].
    exists b. split; [done|]. rewrite Hiff. by replace (i - 1 + 1) with i by lia.
Qed.

Definition bitvec_set_post (size : Z) (p : Bitvec) (X : Z -> Prop) (i : Z) (h : heap)
    (r : Z * option Bitvec) (h' : heap) : Prop :=
  exists rc q Y, r = (rc, Some q) /\ bitvec size q Y /\
    (rc = SQLITE_OK \/ rc = SQLITE_NOMEM) /\
    live h' - live h = destroy_count q - destroy_count p /\
    (forall j, Y j -> X j \/ j = i) /\
    (rc = SQLITE_OK -> forall j, X j \/ j = i -> Y j).

Lemma bitvec_set mallocOk size p X i h :
  bitvec size p X -> 1 <= i <= size ->
  wp (sqlite3BitvecSet mallocOk (Some p) i)
    (returns (bitvec_set_post size p X i h)) h.
Proof.
  intros [<- (n & Hn & H)] Hi. pose proof (rep_sized _ _ _ H) as (Hs & _).
  cbn [sqlite3BitvecSet]. rewrite u32_small by lia.
  eapply wp_seq.
  { apply (set_from_ok mallocOk n p _ (i - 1) h _ H); [lia|].
    unfold set_need, set_fuel, depth. case_if; lia. }
  intros [rc q] h' (P1 & P2 & P3 & P4 & Y & P5 & P6 & P7). cbn [fst snd] in *. wp_go.
  exists rc, q, (fun j => Y (j - 1)). split_and!; [done|split; [done|]|done|done| |].
  - exists n. split; [done|]. eapply rep_ext; [|exact P5]. intros j.
    cbn. by replace (j + 1 - 1) with j by lia.
  - intros j [Hj|Hj]%P6; [left; by replace (j - 1 + 1) with j in Hj by lia|right; lia].
  - intros E j Hj. apply P7; [done|]. unfold add_bit.
    destruct Hj as [Hj| ->]; [left; by replace (j - 1 + 1) with j by lia|by right].
Qed.

Lemma bitvec_clear size p X i :
  bitvec size p X -> 1 <= i <= size ->
  exists q, sqlite3BitvecClear (Some p) i = Some (Some q) /\
    destroy_count q = destroy_count p /\
    bitvec size q (fun j => X j /\ j <> i).
Proof.
  intros [<- (n & Hn & H)] Hi. pose proof (rep_sized _ _ _ H) as (Hs & _).
  cbn [sqlite3BitvecClear]. rewrite u32_small by lia.
  destruct (clear_from_ok n p _ (i - 1) depth H) as (q & E & Q1 & Q2 & Q3);
    [unfold depth; lia|lia|].
  exists q. rewrite E. split_and!; [done|done|split; [done|]]. exists n. split; [done|].
  eapply rep_ext; [|exact Q3]. intros j. unfold del_bit.
  split; (intros [Hj ?]; split; [done|lia]).
Qed.

(** A history of operations on one bitmap. *)
Inductive bitvec_op : Type :=
  | BvSet (i : Z)
  | BvClear (i : Z).

Definition op_ok (size : Z) (o : bitvec_op) : Prop :=
  match o with BvSet i | BvClear i => 1 <= i <= size end.

(** Running a history; the first component is the or of the result codes. *)
Fixpoint run_ops (mallocOk : nat -> bool) (ops : list bitvec_op) (rc : Z)
    (p : option Bitvec) : M heap (Z * option Bitvec) :=
  match ops with
  | [] => ret (rc, p)
  | BvSet i :: ops =>
      let* r := sqlite3BitvecSet mallocOk p i in
      run_ops mallocOk ops (Z.lor rc r.1) r.2
  | BvClear i :: ops =>
      let* p := lift (sqlite3BitvecClear p i) in run_ops mallocOk ops rc p
  end.

Fixpoint model_ops (ops : list bitvec_op) (X : gset Z) : gset Z :=
  match ops with
  | [] => X
  | BvSet i :: ops => model_ops ops ({[i]} ∪ X)
  | BvClear i :: ops => model_ops ops (X ∖ {[i]})
  end.

Definition run_post (size rc0 : Z) (p : Bitvec) (ops : list bitvec_op) (X : gset Z)
    (h : heap) (r : Z * option Bitvec) (h' : heap) : Prop :=
  exists rc q Y, r = (rc, Some q) /\ bitvec size q Y /\
    live h' - live h = destroy_count q - destroy_count p /\
    (rc = SQLITE_OK -> rc0 = SQLITE_OK) /\
    (forall j, Y j -> j ∈ model_ops ops X) /\
    (rc = SQLITE_OK -> forall j, j ∈ model_ops ops X -> Y j).

Lemma run_ops_ok mallocOk size ops rc p X Y h :
  bitvec size p Y -> Forall (op_ok size) ops ->
  (rc = SQLITE_OK \/ rc = SQLITE_NOMEM) ->
  (forall j, Y j -> j ∈ X) -> (rc = SQLITE_OK -> forall j, j ∈ X -> Y j) ->
  wp (run_ops mallocOk ops rc (Some p)) (returns (run_post size rc p ops X h)) h.
Proof.
  revert rc p X Y h. induction ops as [|o ops IH]; intros rc p X Y h H Ho Hrc H1 H2.
  - cbn. wp_go. exists rc, p, Y. split_and!; try done. lia.
  - apply list.Forall_cons in Ho as [Ho Hops]. destruct o as [i|i]; cbn [run_ops op_ok] in *.
    + eapply wp_seq; [by apply (bitvec_set mallocOk size p Y i)|].
      intros r h1 (rc1 & q & Y1 & -> & Q1 & Q2 & Q3 & Q4 & Q5). cbn [fst snd].
      assert (Hor : Z.lor rc rc1 = SQLITE_OK -> rc = SQLITE_OK /\ rc1 = SQLITE_OK).
      { destruct Hrc as [-> | ->], Q2 as [-> | ->]; done. }
      eapply okp_mono; [apply (IH _ q ({[i]} ∪ X) Y1 h1 Q1 Hops)|].
      * destruct Hrc as [-> | ->], Q2 as [-> | ->]; cbn; auto.
      * intros j [Hj| ->]%Q4; apply elem_of_union;
          [right; auto|left; by apply elem_of_singleton].
      * intros [E1 E2]%Hor j Hj. apply Q5; [done|].
        apply elem_of_union in Hj as [Hj|Hj]; [right; by apply elem_of_singleton in Hj|auto].
      * intros r h2 (rc2 & q2 & Y2 & -> & R1 & R2 & R3 & R4 & R5).
        exists rc2, q2, Y2. split_and!; try done; [lia|]. intros E. by apply Hor, R3.
    + destruct (bitvec_clear size p Y i H Ho) as (q & E & Q1 & Q2). rewrite E.
      do 2 wp_step. unfold after. eapply okp_mono.
      * apply (IH rc q (X ∖ {[i]}) _ h Q2 Hops Hrc).
        -- intros j [Hj Hne]. apply elem_of_difference. split; [auto|].
           by rewrite elem_of_singleton.
        -- intros Er j [Hj Hne]%elem_of_difference. rewrite elem_of_singleton in Hne. auto.
      * intros r h2 (rc2 & q2 & Y2 & -> & R1 & R2 & R3).
        exists rc2, q2, Y2. split_and!; try done; [lia|apply R3..].
Qed.

(** Without memory for the bitmap itself every operation is a no-op. *)
Lemma run_ops_none mallocOk ops rc h : run_ops mallocOk ops rc None h = (Ret (rc, None), h).
Proof.
  revert rc h. induction ops as [|[i|i] ops IH]; intros rc h; [done| |].
  - cbn [run_ops sqlite3BitvecSet]. unfold bind at 1, ret at 1. cbn [fst snd].
    by rewrite Z.lor_0_r.
  - cbn. apply IH.
Qed.

Definition bitvec_run (mallocOk : nat -> bool) (size : Z) (ops : list bitvec_op)
    : M heap (Z * option Bitvec) :=
  let* p := sqlite3BitvecCreate mallocOk size in run_ops mallocOk ops SQLITE_OK p.

(** ** Properties *)

(** C17: after any history of [sqlite3BitvecSet] and [sqlite3BitvecClear] calls
    with arguments in range, on a bitmap of any 32-bit size and under any
    pattern of allocation failures, every call has returned (no probe or
    rehash runs on, none leaves its array), [sqlite3BitvecTest] answers for
    every 32-bit argument, true only for members of the set the history
    describes, and for all of them when no call reported an error; and
    [sqlite3BitvecDestroy] returns every block that was allocated. *)
Theorem bitvec_refines_set mallocOk size ops h i :
  0 <= size < 2 ^ 32 -> Forall (op_ok size) ops -> 0 <= i < 2 ^ 32 ->
  exists rc q h', bitvec_run mallocOk size ops h = (Ret (rc, q), h') /\
    (exists b, sqlite3BitvecTest q i = Some b /\
       (b = true -> i ∈ model_ops ops ∅) /\
       (rc = SQLITE_OK -> q <> None -> i ∈ model_ops ops ∅ -> b = true)) /\
    live (snd (sqlite3BitvecDestroy q h')) = live h.
Proof.
  intros Hs Ho Hi. unfold bitvec_run, sqlite3BitvecCreate, malloc.
  unfold bind, ret. destruct (mallocOk (requests h)).
  - set (h1 := mkHeap _ _). set (p := mkBitvec _ _ _ _).
    assert (Hrun : wp (run_ops mallocOk ops SQLITE_OK (Some p))
      (returns (run_post size SQLITE_OK p ops ∅ h1)) h1).
    { apply (run_ops_ok _ _ _ _ _ _ (fun _ => False)); try done;
        [by apply bitvec_create|by left]. }
    apply returns_run in Hrun as (r & h' & E & rc & q & Y & -> & R1 & R2 & R3 & R4 & R5).
    exists rc, (Some q), h'. split; [done|]. split.
    + destruct (bitvec_test size q Y i R1 Hi) as (b & Hb & Hiff). exists b.
      split_and!; [done|by intros ?%Hiff; auto|]. intros Erc _ Hm. apply Hiff. auto.
    + cbn. unfold p, h1 in R2. rewrite zero_count in R2. cbn in R2. lia.
  - exists SQLITE_OK, None, (mkHeap (S (requests h)) (live h)).
    rewrite run_ops_none. split_and!; [done| |done].
    exists false. split_and!; done.
Qed.

(** One [sqlite3BitvecSet] on a well-formed bitmap returns [SQLITE_OK] and
    adds exactly the bit, or returns [SQLITE_NOMEM] and leaves a well-formed
    bitmap of the old bits and the new one, of which some may be lost. *)
Theorem bitvec_set_correct mallocOk size p X i h :
  bitvec size p X -> 1 <= i <= size ->
  exists rc q Y h', sqlite3BitvecSet mallocOk (Some p) i h = (Ret (rc, Some q), h') /\
    bitvec size q Y /\
    ((rc = SQLITE_OK /\ forall j, Y j <-> X j \/ j = i) \/
     (rc = SQLITE_NOMEM /\ forall j, Y j -> X j \/ j = i)).
Proof.
  intros H Hi. destruct (returns_run _ _ _ (bitvec_set mallocOk size p X i h H Hi))
    as (r & h' & E & rc & q & Y & -> & Q1 & Q2 & Q3 & Q4 & Q5).
  exists rc, q, Y, h'. split; [done|]. split; [done|].
  destruct Q2 as [-> | ->]; [left|right]; split; try done.
  intros j. split; [apply Q4|by apply Q5].
Qed.

(** [sqlite3BitvecClear] on a well-formed bitmap removes exactly the bit,
    rebuilding the hash table without it, and frees or allocates nothing. *)
Theorem bitvec_clear_correct size p X i :
  bitvec size p X -> 1 <= i <= size ->
  exists q, sqlite3BitvecClear (Some p) i = Some (Some q) /\
    bitvec size q (fun j => X j /\ j <> i) /\ destroy_count q = destroy_count p.
Proof. intros H Hi. destruct (bitvec_clear size p X i H Hi) as (q & ? & ? & ?). eauto. Qed.

(** ** Witnesses *)

(** Seventy bits in one sub-bitmap, so that the hash table is split. *)
Definition demo_ops : list bitvec_op :=
  ((fun k => BvSet (Z.of_nat k * 3 + 1)) <$> seq 0 70) ++ [BvClear 4; BvSet 5].

Definition op_okb (size : Z) (o : bitvec_op) : bool :=
  match o with BvSet i | BvClear i => (1 <=? i) && (i <=? size) end.
Lemma op_okb_ok size ops : forallb (op_okb size) ops = true -> Forall (op_ok size) ops.
Proof.
  induction ops as [|[i|i] ops IH]; cbn; intros H; constructor; zb; cbn; auto; lia.
Qed.

Lemma bitvec_refines_set_witness :
  exists rc q h', bitvec_run (fun _ => true) 5000 demo_ops (mkHeap 0 0) = (Ret (rc, q), h') /\
    rc = SQLITE_OK /\ sqlite3BitvecTest q 4 = Some false /\
    (exists b, sqlite3BitvecTest q 5 = Some b /\
       (b = true -> 5 ∈ model_ops demo_ops ∅)) /\
    live (snd (sqlite3BitvecDestroy q h')) = 0.
Proof.
  destruct (bitvec_refines_set (fun _ => true) 5000 demo_ops (mkHeap 0 0) 5)
    as (rc & q & h' & E & (b & Hb & H1 & H2) & H3).
  - lia.
  - apply op_okb_ok. vm_compute. reflexivity.
  - lia.
  - exists rc, q, h'. split; [exact E|].
    assert (rc = SQLITE_OK /\ sqlite3BitvecTest q 4 = Some false) as [E1 E2].
    { vm_compute in E. injection E as <- <- <-. split; reflexivity. }
    split; [exact E1|]. split; [exact E2|]. split; [exists b; auto|exact H3].
Defined.

Lemma bitvec_set_correct_witness :
  exists rc q Y h', sqlite3BitvecSet (fun _ => false) (Some (mkBitvec 5000 0 0 (zero_u 5000))) 7
      (mkHeap 0 0) = (Ret (rc, Some q), h') /\ bitvec 5000 q Y /\
    rc = SQLITE_OK /\ Y 7.
Proof.
  destruct (bitvec_set_correct (fun _ => false) 5000 (mkBitvec 5000 0 0 (zero_u 5000))
    (fun _ => False) 7 (mkHeap 0 0)) as (rc & q & Y & h' & E & H1 & H2).
  - apply bitvec_create. lia.
  - lia.
  - exists rc, q, Y, h'. split; [exact E|]. split; [exact H1|].
    destruct H2 as [[E1 H2]|[E1 H2]].
    + split; [exact E1|]. apply H2. right. reflexivity.
    + exfalso. apply (f_equal (fun r => match fst r with Ret (c, _) => c | _ => 99 end)) in E.
      subst rc. vm_compute in E. discriminate E.
Defined.

Lemma bitvec_clear_correct_witness :
  exists q, sqlite3BitvecClear (Some (mkBitvec 5000 0 0 (zero_u 5000))) 7 = Some (Some q) /\
    bitvec 5000 q (fun j => False /\ j <> 7).
Proof.
  destruct (bitvec_clear_correct 5000 (mkBitvec 5000 0 0 (zero_u 5000)) (fun _ => False) 7)
    as (q & E & H & _).
  - apply bitvec_create. lia.
  - lia.
  - exists q. split; [exact E|exact H].
Defined.
