(* ===== verification/Interval.v ===== *)
(** * Disjoint intervals of page offsets

    The regions of a page (cells and freeblocks) are pairs of an offset and a
    length.  The facts here are what space accounting needs: disjoint regions
    inside a range cannot be longer than the range. *)
From S2P Require Import Prelude.

Abbreviation iv := (Z * Z)%type.

Definition iend (x : iv) : Z := x.1 + x.2.
Definition disj (x y : iv) : Prop := iend x <= y.1 \/ iend y <= x.1.
Definition inside (lo hi : Z) (x : iv) : Prop := lo <= x.1 /\ iend x <= hi.
Definition total (l : list iv) : Z := foldr (fun x s => x.2 + s) 0 l.

Fixpoint pdisj (l : list iv) : Prop :=
  match l with
  | [] => True
  | x :: l => Forall (disj x) l /\ pdisj l
  end.

#[export] Instance disj_sym : Symmetric disj.
Proof. unfold disj. intros x y. tauto. Qed.

Lemma total_app l1 l2 : total (l1 ++ l2) = total l1 + total l2.
Proof.
  induction l1 as [|x l1 IH]; [done|].
  change (x.2 + total (l1 ++ l2) = x.2 + total l1 + total l2). lia.
Qed.
Lemma total_cons x l : total (x :: l) = x.2 + total l.
Proof. done. Qed.

Lemma pdisj_app l1 l2 :
  pdisj (l1 ++ l2) <->
  pdisj l1 /\ pdisj l2 /\ Forall (fun x => Forall (disj x) l2) l1.
Proof.
  induction l1 as [|x l1 IH]; cbn.
  { split; [intros; repeat split; auto|tauto]. }
  rewrite IH, Forall_app, list.Forall_cons. tauto.
Qed.

Lemma disj_swap l x : Forall (disj x) l <-> Forall (fun y => disj y x) l.
Proof. split; apply Forall_impl; intros y H; by symmetry. Qed.

#[export] Instance total_perm : Proper (Permutation ==> eq) total.
Proof.
  intros l1 l2 Hp. induction Hp; rewrite ?total_cons; cbn; lia.
Qed.
#[export] Instance pdisj_perm : Proper (Permutation ==> iff) pdisj.
Proof.
  assert (Himp : forall l1 l2, Permutation l1 l2 -> pdisj l1 -> pdisj l2).
  { intros l1 l2 Hp. induction Hp as [|x l1 l2 Hp IH|x y l|]; cbn.
    - done.
    - intros [H1 H2]. split; [by rewrite <- Hp|auto].
    - intros [[H1 H2]%list.Forall_cons [H3 H4]].
      repeat split; [constructor; [by symmetry|done]|done|done].
    - auto. }
  intros l1 l2 Hp. split; eauto using Permutation_sym.
Qed.

Lemma pdisj_filter (P : iv -> Prop) `{!forall x, Decision (P x)} l :
  pdisj l -> pdisj (filter P l).
Proof.
  induction l as [|x l IH]; [done|]. intros [H1 H2]. rewrite filter_cons.
  destruct (decide (P x)); cbn; [|auto].
  split; [|auto]. apply list.Forall_forall. intros y [_ Hy]%list_elem_of_filter.
  by eapply list.Forall_forall in H1.
Qed.

(** Filtering by a test splits the total. *)
Lemma total_split (P : iv -> Prop) `{!forall x, Decision (P x)} l :
  total l = total (filter P l) + total (filter (fun x => ~ P x) l).
Proof.
  induction l as [|x l IH]; [done|]. rewrite !filter_cons, total_cons.
  destruct (decide (P x)), (decide (~ P x)); try tauto;
    rewrite total_cons; lia.
Qed.

Lemma total_bound lo hi l :
  lo <= hi -> pdisj l -> Forall (inside lo hi) l -> total l <= hi - lo.
Proof.
  remember (length l) as n eqn:Hn. assert (Hle : (length l <= n)%nat) by lia.
  clear Hn. revert lo hi l Hle.
  induction n as [|n IH]; intros lo hi l Hle Hb Hd Hi.
  { destruct l; cbn in *; lia. }
  destruct l as [|x l]; [cbn; lia|]. cbn [length] in Hle.
  destruct Hd as [Hx Hd]. apply list.Forall_cons in Hi as [[Hx1 Hx2] Hi].
  destruct (decide (x.2 < 0)).
  { rewrite total_cons. specialize (IH lo hi l). 
    pose proof (IH ltac:(lia) Hb Hd Hi). lia. }
  rewrite total_cons, (total_split (fun y => iend y <= x.1) l).
  pose proof (length_filter (fun y => iend y <= x.1) l).
  pose proof (length_filter (fun y => ~ iend y <= x.1) l).
  assert (total (filter (fun y => iend y <= x.1) l) <= x.1 - lo).
  { apply IH; [lia|lia|by apply pdisj_filter|].
    apply list.Forall_forall. intros y [Hy1 Hy2]%list_elem_of_filter.
    rewrite list.Forall_forall in Hi. pose proof (Hi y Hy2) as [? ?].
    split; [done|]. done. }
  assert (total (filter (fun y => ~ iend y <= x.1) l) <= hi - iend x).
  { apply IH; [lia|lia|by apply pdisj_filter|].
    apply list.Forall_forall. intros y [Hy1 Hy2]%list_elem_of_filter.
    rewrite list.Forall_forall in Hi, Hx. pose proof (Hi y Hy2) as [? ?].
    split; [|done]. destruct (Hx y Hy2); [done|tauto]. }
  unfold iend in *. lia.
Qed.

(** A region disjoint from all the others still fits in the range. *)
Lemma total_gap lo hi l x :
  lo <= hi -> pdisj l -> Forall (inside lo hi) l ->
  inside lo hi x -> Forall (disj x) l -> total l + x.2 <= hi - lo.
Proof.
  intros Hb Hd Hi Hx Hdx.
  pose proof (total_bound lo hi (x :: l) Hb) as H. rewrite total_cons in H.
  assert (x.2 + total l <= hi - lo); [|lia].
  apply H; [by split|by constructor].
Qed.

Lemma perm_middle (R F1 : list iv) x F2 :
  Permutation (R ++ F1 ++ x :: F2) (x :: R ++ F1 ++ F2).
Proof. rewrite !app_assoc. symmetry. apply Permutation_middle. Qed.
