(* ===== verification/BtPage.v ===== *)
(** * B-tree pages: data, cell parsing, page initialisation
    ([src/src/btreeInt.h], [src/src/btree.c])

    [BtShared] and [MemPage] carry the fields of the structures of the same
    name that the page layer reads.  [aData] is the page image; the pointers
    [aCellIdx], [aDataOfst] and [aDataEnd] are the offsets [cellOffset],
    [childPtrSize] and [pageSize] in it.  The method pointers [xCellSize] and
    [xParseCell] are the tag [kind], and [aiOvfl]/[apOvfl] one list of pairs
    whose length is [nOverflow].  A pointer to a cell is the list of the bytes
    from that address to the end of its buffer. *)
From S2P Require Import Prelude Bits Bytes Varint.

(** ** Data *)

Record BtShared : Type := mkBt {
  pageSize : Z;
  usableSize : Z;
  btsFlags : Z;
  maxLeaf : Z;
  minLeaf : Z;
  bt_max1bytePayload : Z;
  cellSizeCk : bool;      (* db->flags & SQLITE_CellSizeCk *)
}.

Inductive kind : Type := KVLeaf | KVInterior.
#[export] Instance kind_eq_dec : EqDecision kind.
Proof. solve_decision. Defined.

Record MemPage : Type := mkPage {
  isInit : Z;
  intKey : Z;
  intKeyLeaf : Z;
  pgno : Z;
  leaf : Z;
  hdrOffset : Z;
  childPtrSize : Z;
  max1bytePayload : Z;
  maxLocal : Z;
  minLocal : Z;
  cellOffset : Z;
  nFree : Z;
  nCell : Z;
  maskPage : Z;
  ovfl : list (Z * bytes);
  pBt : BtShared;
  aData : bytes;
  pkind : kind;
}.

Definition set_aData (d : bytes) (p : MemPage) : MemPage :=
  mkPage (isInit p) (intKey p) (intKeyLeaf p) (pgno p) (leaf p) (hdrOffset p)
    (childPtrSize p) (max1bytePayload p) (maxLocal p) (minLocal p)
    (cellOffset p) (nFree p) (nCell p) (maskPage p) (ovfl p) (pBt p) d
    (pkind p).
Definition set_nFree (n : Z) (p : MemPage) : MemPage :=
  mkPage (isInit p) (intKey p) (intKeyLeaf p) (pgno p) (leaf p) (hdrOffset p)
    (childPtrSize p) (max1bytePayload p) (maxLocal p) (minLocal p)
    (cellOffset p) n (nCell p) (maskPage p) (ovfl p) (pBt p) (aData p)
    (pkind p).
Definition set_nCell (n : Z) (p : MemPage) : MemPage :=
  mkPage (isInit p) (intKey p) (intKeyLeaf p) (pgno p) (leaf p) (hdrOffset p)
    (childPtrSize p) (max1bytePayload p) (maxLocal p) (minLocal p)
    (cellOffset p) (nFree p) n (maskPage p) (ovfl p) (pBt p) (aData p)
    (pkind p).
Definition set_ovfl (o : list (Z * bytes)) (p : MemPage) : MemPage :=
  mkPage (isInit p) (intKey p) (intKeyLeaf p) (pgno p) (leaf p) (hdrOffset p)
    (childPtrSize p) (max1bytePayload p) (maxLocal p) (minLocal p)
    (cellOffset p) (nFree p) (nCell p) (maskPage p) o (pBt p) (aData p)
    (pkind p).
Definition set_isInit (n : Z) (p : MemPage) : MemPage :=
  mkPage n (intKey p) (intKeyLeaf p) (pgno p) (leaf p) (hdrOffset p)
    (childPtrSize p) (max1bytePayload p) (maxLocal p) (minLocal p)
    (cellOffset p) (nFree p) (nCell p) (maskPage p) (ovfl p) (pBt p) (aData p)
    (pkind p).
Definition set_layout (off mask : Z) (p : MemPage) : MemPage :=
  mkPage (isInit p) (intKey p) (intKeyLeaf p) (pgno p) (leaf p) (hdrOffset p)
    (childPtrSize p) (max1bytePayload p) (maxLocal p) (minLocal p)
    off (nFree p) (nCell p) mask (ovfl p) (pBt p) (aData p) (pkind p).
(** The fields [decodeFlags] sets. *)
Definition set_flags (ik ikl lf cps m1 maxl minl : Z) (k : kind) (p : MemPage)
    : MemPage :=
  mkPage (isInit p) ik ikl (pgno p) lf (hdrOffset p) cps m1 maxl minl
    (cellOffset p) (nFree p) (nCell p) (maskPage p) (ovfl p) (pBt p) (aData p)
    k.

Definition nOverflow (p : MemPage) : Z := Z.of_nat (length (ovfl p)).

Record CellInfo : Type := mkInfo {
  nKey : Z;
  pPayload : Z;       (* offset from the start of the cell, 0 when null *)
  nPayload : Z;
  nLocal : Z;
  nSize : Z;
  pKey : Z;           (* offset from the start of the cell *)
  nKeyLen : Z;
}.

(** ** Constants *)

Definition PTF_INTKEY : Z := 0x01.
Definition PTF_LEAFDATA : Z := 0x04.
Definition PTF_LEAF : Z := 0x08.
Definition BTS_FAST_SECURE : Z := 0x000c.
Definition KV_CELL_MAX_HDR : Z := 5 + 2 + 255.
Definition KV_CELL_HDR_OVERAGE : Z := KV_CELL_MAX_HDR - 14.
Definition MX_CELL (b : BtShared) : Z := (pageSize b - 8) / 6.

(** ** Access to the page image *)

Definition rd1 (i : Z) : M MemPage Z :=
  let* d := gets aData in lift (bget d i).
Definition rd2 (i : Z) : M MemPage Z :=
  let* d := gets aData in lift (get2byte d i).
Definition rd4 (i : Z) : M MemPage Z :=
  let* d := gets aData in lift (sqlite3Get4byte d i).
Definition wr (f : bytes -> option bytes) : M MemPage unit :=
  let* d := gets aData in let* d' := lift (f d) in modify (set_aData d').
Definition wr1 (i v : Z) : M MemPage unit := wr (fun d => bset d i v).
Definition wr2 (i v : Z) : M MemPage unit := wr (fun d => put2byte d i v).
Definition wr4 (i v : Z) : M MemPage unit := wr (fun d => sqlite3Put4byte d i v).
Definition wrn (i : Z) (s : bytes) : M MemPage unit := wr (fun d => blit d i s).
(** [memset(&data[i], 0, n)]. *)
Definition wrz (i n : Z) : M MemPage unit := wr (fun d => bzero d i n).
(** [memmove(&data[dst], &data[src], n)]. *)
Definition mv (dst src n : Z) : M MemPage unit :=
  wr (fun d => s ← bsub d src n; blit d dst s).

Definition get2byteNotZero (x : Z) : Z := Z.land (x - 1) 0xffff + 1.

(** The bytes a pointer into a buffer addresses. *)
Definition bfrom (d : bytes) (i : Z) : option bytes :=
  if (0 <=? i) && (i <=? blen d) then Some (drop (Z.to_nat i) d) else None.

(** [findCell(P,I)], as an offset in [aData]. *)
Definition findCell (i : Z) : M MemPage Z :=
  let* p := gets id in
  let* pc := rd2 (cellOffset p + 2 * i) in ret (Z.land (maskPage p) pc).
(** [findCellPastPtr(P,I)]. *)
Definition findCellPastPtr (i : Z) : M MemPage Z :=
  let* p := gets id in
  let* pc := findCell i in ret (childPtrSize p + pc).

(** ** Parsing of cells *)

(** Local payload of an overflowing cell. *)
Definition btreeParseCellAdjustSizeForOverflow (p : MemPage) (info : CellInfo)
    : CellInfo :=
  let minl := minLocal p in
  let maxl := maxLocal p in
  let surplus :=
    minl + u32 (nPayload info - minl) mod (usableSize (pBt p) - 4) in
  let nl := if surplus <=? maxl then u16 surplus else u16 minl in
  mkInfo (nKey info) (pPayload info) (nPayload info) nl
    (u16 (u16 (pPayload info + nl) + 4)) (pKey info) (nKeyLen info).

Definition kvParseCellLeaf (p : MemPage) (pCell : bytes) : option CellInfo :=
  '(n1, nValue) ← getVarint32 pCell;
  it ← bfrom pCell n1;
  '(n2, nKeyLen) ← getVarint32 it;
  let pIter := n1 + n2 in
  let pk := pIter in
  let pIter := pIter + nKeyLen in
  let info := mkInfo nKeyLen pIter nValue 0 0 pk nKeyLen in
  if nValue <=? maxLocal p then
    let sz := u16 (u32 (nValue + u32 pIter)) in
    let sz := if sz <? 4 then 4 else sz in
    Some (mkInfo nKeyLen pIter nValue (u16 nValue) sz pk nKeyLen)
  else Some (btreeParseCellAdjustSizeForOverflow p info).

Definition kvParseCellInterior (p : MemPage) (pCell : bytes) : option CellInfo :=
  it ← bfrom pCell 4;
  '(n, nKeyLen) ← getVarint32 it;
  Some (mkInfo nKeyLen 0 0 0 (u16 (u32 (4 + n + nKeyLen))) (4 + n) nKeyLen).

Definition xParseCell (p : MemPage) (pCell : bytes) : option CellInfo :=
  match pkind p with
  | KVLeaf => kvParseCellLeaf p pCell
  | KVInterior => kvParseCellInterior p pCell
  end.

(** Parsing at an offset of the page image. *)
Definition btreeParseCellPtr (pc : Z) : M MemPage CellInfo :=
  let* p := gets id in
  lift (c ← bfrom (aData p) pc; xParseCell p c).
Definition btreeParseCell (iCell : Z) : M MemPage CellInfo :=
  let* pc := findCell iCell in btreeParseCellPtr pc.

Definition kvCellSizeLeaf (p : MemPage) (pCell : bytes) : option Z :=
  '(n1, nSize) ← getVarint32 pCell;
  it ← bfrom pCell n1;
  '(n2, nKeyLen) ← getVarint32 it;
  let pIter := n1 + n2 + nKeyLen in
  if nSize <=? maxLocal p then
    let nSize := u32 (nSize + u32 pIter) in
    let nSize := if nSize <? 4 then 4 else nSize in
    Some (u16 nSize)
  else
    let minl := minLocal p in
    let nSize := u32 (minl + u32 (nSize - minl) mod (usableSize (pBt p) - 4)) in
    let nSize := if maxLocal p <? nSize then minl else nSize in
    let nSize := u32 (nSize + (4 + u16 pIter)) in
    Some (u16 nSize).

Definition kvCellSizeInterior (p : MemPage) (pCell : bytes) : option Z :=
  it ← bfrom pCell 4;
  '(n, nKeyLen) ← getVarint32 it;
  Some (u16 (4 + u16 n + u16 nKeyLen)).

Definition xCellSize (p : MemPage) (pCell : bytes) : option Z :=
  match pkind p with
  | KVLeaf => kvCellSizeLeaf p pCell
  | KVInterior => kvCellSizeInterior p pCell
  end.

(** The size of the cell at an offset of the page image. *)
Definition xCellSizeAt (pc : Z) : M MemPage Z :=
  let* p := gets id in lift (c ← bfrom (aData p) pc; xCellSize p c).

(** ** Page initialisation *)

Definition decodeFlags (flagByte : Z) : M MemPage unit :=
  let* p := gets id in
  let b := pBt p in
  let m1 := bt_max1bytePayload b in
  if flagByte =? Z.lor (Z.lor PTF_LEAFDATA PTF_INTKEY) PTF_LEAF then
    modify (set_flags 1 1 1 0 m1 (u16 (maxLeaf b - KV_CELL_HDR_OVERAGE))
              (minLeaf b) KVLeaf)
  else if flagByte =? Z.lor PTF_LEAFDATA PTF_INTKEY then
    modify (set_flags 1 0 0 4 m1 (maxLeaf b) (minLeaf b) KVInterior)
  else
    modify (set_flags (intKey p) (intKeyLeaf p) (leaf p) (childPtrSize p) m1
              (maxLocal p) (minLocal p) (pkind p)) ;;*
    fail SQLITE_CORRUPT.

(** The walk along the freeblock list, from the block at [pc]: the last
    [pc], [next] and [size], and the free bytes counted. *)
Fixpoint freeblock_loop (fuel : nat) (iCellLast pc nFree : Z)
    : M MemPage (Z * Z * Z * Z) :=
  match fuel with
  | O => undef
  | S fuel =>
      if iCellLast <? pc then fail SQLITE_CORRUPT else
      let* next := rd2 pc in
      let* size := rd2 (pc + 2) in
      if size <? 4 then fail SQLITE_CORRUPT else
      let nFree := nFree + size in
      if next <? pc + size + 4 then ret (pc, next, size, nFree)
      else freeblock_loop fuel iCellLast next nFree
  end.

Definition btreeComputeFreeSpace : M MemPage unit :=
  let* p := gets id in
  let usz := usableSize (pBt p) in
  let hdr := hdrOffset p in
  let* t := rd2 (hdr + 5) in
  let top := get2byteNotZero t in
  let iCellFirst := hdr + 8 + childPtrSize p + 2 * nCell p in
  let iCellLast := usz - 4 in
  let* pc := rd2 (hdr + 1) in
  let* frag := rd1 (hdr + 7) in
  let nFree := frag + top in
  let* nFree :=
    (if 0 <? pc then
       if pc <? top then fail SQLITE_CORRUPT else
       let* r := freeblock_loop (Z.to_nat usz) iCellLast pc nFree in
       let '(pc, next, size, nFree) := r in
       if 0 <? next then fail SQLITE_CORRUPT
       else if usz <? pc + size then fail SQLITE_CORRUPT
       else ret nFree
     else ret nFree) in
  if (usz <? nFree) || (nFree <? iCellFirst) then fail SQLITE_CORRUPT
  else modify (set_nFree (u16 (nFree - iCellFirst))).

(** The cells from the [i]-th on, [n] left. *)
Fixpoint cellcheck_loop (n : nat) (i iCellFirst iCellLast : Z)
    : M MemPage unit :=
  match n with
  | O => ret tt
  | S n =>
      let* p := gets id in
      let* pc := rd2 (cellOffset p + i * 2) in
      if (pc <? iCellFirst) || (iCellLast <? pc) then fail SQLITE_CORRUPT else
      let* sz := xCellSizeAt pc in
      if usableSize (pBt p) <? pc + sz then fail SQLITE_CORRUPT
      else cellcheck_loop n (i + 1) iCellFirst iCellLast
  end.

Definition btreeCellSizeCheck : M MemPage unit :=
  let* p := gets id in
  let iCellFirst := cellOffset p + 2 * nCell p in
  let iCellLast := usableSize (pBt p) - 4 in
  let iCellLast := if leaf p =? 0 then iCellLast - 1 else iCellLast in
  cellcheck_loop (Z.to_nat (nCell p)) 0 iCellFirst iCellLast.

Definition btreeInitPage : M MemPage unit :=
  let* p := gets id in
  let b := pBt p in
  let* flags := rd1 (hdrOffset p) in
  decodeFlags flags ;;*
  let* p := gets id in
  modify (set_layout (u16 (hdrOffset p + 8 + childPtrSize p))
            (u16 (pageSize b - 1))) ;;*
  modify (set_ovfl []) ;;*
  let* n := rd2 (hdrOffset p + 3) in
  modify (set_nCell n) ;;*
  if MX_CELL b <? n then fail SQLITE_CORRUPT else
  modify (set_nFree (-1)) ;;*
  modify (set_isInit 1) ;;*
  if cellSizeCk b then btreeCellSizeCheck else ret tt.

(** [decodeFlags] where the caller ignores the result. *)
Definition ignore {S A} (m : M S A) : M S unit :=
  fun s => match m s with
           | (Undef, s') => (Undef, s')
           | (_, s') => (Ret tt, s')
           end.

Definition zeroPage (flags : Z) : M MemPage unit :=
  let* p := gets id in
  let b := pBt p in
  let hdr := hdrOffset p in
  (if negb (Z.land (btsFlags b) BTS_FAST_SECURE =? 0)
   then wrz hdr (usableSize b - hdr) else ret tt) ;;*
  wr1 hdr flags ;;*
  let first := hdr + (if Z.land flags PTF_LEAF =? 0 then 12 else 8) in
  wrz (hdr + 1) 4 ;;*
  wr1 (hdr + 7) 0 ;;*
  wr2 (hdr + 5) (usableSize b) ;;*
  modify (set_nFree (u16 (usableSize b - first))) ;;*
  ignore (decodeFlags flags) ;;*
  modify (set_layout (u16 first) (u16 (pageSize b - 1))) ;;*
  modify (set_ovfl []) ;;*
  modify (set_nCell 0) ;;*
  modify (set_isInit 1).
