(* ===== verification/BtRep.v ===== *)
(** * What a b-tree page represents

    A well-formed page holds a list of cells, at the offsets its cell pointer
    array lists, a chain of freeblocks and a number of fragment bytes; the
    three together fill the cell content area.  [page_rep] says so of a page
    image; the operations of the page layer are then specified on the list. *)
From S2P Require Import Prelude Bits Bytes Varint BtPage Interval.

(** ** Contents of a buffer *)

(** The bytes of [c] stand at offset [a] of [d]. *)
Definition holds (d : bytes) (a : Z) (c : bytes) : Prop :=
  forall j, 0 <= j < blen c -> bat d (a + j) = bat c j.

(** [d'] agrees with [d] on the [n] bytes from [a]. *)
Definition same_on (d d' : bytes) (a n : Z) : Prop :=
  forall j, a <= j < a + n -> bat d' j = bat d j.

(** ** The freeblock chain *)

(** Pointer at [ptr] to the first of the blocks [F], each with its size. *)
Fixpoint chain (d : bytes) (ptr : Z) (F : list iv) : Prop :=
  match F with
  | [] => at2 d ptr = 0
  | x :: F => at2 d ptr = x.1 /\ at2 d (x.1 + 2) = x.2 /\ chain d x.1 F
  end.

(** The same without the pointer out of the last block. *)
Fixpoint seg (d : bytes) (ptr : Z) (F : list iv) : Prop :=
  match F with
  | [] => True
  | x :: F => at2 d ptr = x.1 /\ at2 d (x.1 + 2) = x.2 /\ seg d x.1 F
  end.

(** Where the pointer after the blocks [F] is. *)
Fixpoint lastptr (ptr : Z) (F : list iv) : Z :=
  match F with
  | [] => ptr
  | x :: F => lastptr x.1 F
  end.

(** Blocks of at least four bytes in ascending order from [lo], more than
    three bytes apart. *)
Fixpoint ascending (lo : Z) (F : list iv) : Prop :=
  match F with
  | [] => True
  | x :: F => lo <= x.1 /\ 4 <= x.2 /\ ascending (iend x + 4) F
  end.

(** ** Pages *)

Definition bt_ok (b : BtShared) : Prop :=
  (exists k, 9 <= k <= 16 /\ pageSize b = 2 ^ k) /\
  480 <= usableSize b <= pageSize b.

Definition page_geom (p : MemPage) : Prop :=
  bt_ok (pBt p) /\ bytes_ok (aData p) /\
  blen (aData p) = pageSize (pBt p) /\
  (hdrOffset p = 0 \/ hdrOffset p = 100) /\
  childPtrSize p = (match pkind p with KVLeaf => 0 | KVInterior => 4 end) /\
  leaf p = (match pkind p with KVLeaf => 1 | KVInterior => 0 end) /\
  cellOffset p = hdrOffset p + 8 + childPtrSize p /\
  maskPage p = pageSize (pBt p) - 1.

(** A cell: its own bytes determine its size, which they have. *)
Definition cell_ok (p : MemPage) (c : bytes) : Prop :=
  bytes_ok c /\ 4 <= blen c /\ xCellSize p c = Some (blen c) /\
  forall rest, bytes_ok rest -> xCellSize p (c ++ rest) = Some (blen c).

Definition ptop (p : MemPage) : Z :=
  get2byteNotZero (at2 (aData p) (hdrOffset p + 5)).
Definition pfrag (p : MemPage) : Z := bat (aData p) (hdrOffset p + 7).
Definition pfirst (p : MemPage) : Z := cellOffset p + 2 * nCell p.

(** A cell with the offset it is stored at, and its region. *)
Abbreviation placed := (Z * bytes)%type.
Definition region (x : placed) : iv := (x.1, blen x.2).

Record page_rep (p : MemPage) (cl : list placed) (F : list iv) : Prop := {
  rep_geom : page_geom p;
  rep_ncell : nCell p = Z.of_nat (length cl);
  rep_hdr : at2 (aData p) (hdrOffset p + 3) = nCell p;
  rep_ptr : forall i x, cl !! i = Some x ->
    at2 (aData p) (cellOffset p + 2 * Z.of_nat i) = x.1;
  rep_cell : Forall (fun x => cell_ok p x.2 /\ holds (aData p) x.1 x.2) cl;
  rep_first : pfirst p <= ptop p <= usableSize (pBt p);
  rep_inside : Forall (inside (ptop p) (usableSize (pBt p)))
    ((region <$> cl) ++ F);
  rep_disj : pdisj ((region <$> cl) ++ F);
  rep_chain : chain (aData p) (hdrOffset p + 1) F;
  rep_asc : ascending (ptop p + 1) F;
  rep_total : total ((region <$> cl) ++ F) + pfrag p
    = usableSize (pBt p) - ptop p;
}.

(** The free bytes of a page, as [btreeComputeFreeSpace] counts them. *)
Definition free_bytes (p : MemPage) (cl : list placed) : Z :=
  usableSize (pBt p) - pfirst p - total (region <$> cl).

(** The page holds the cells [cs], in order, and knows its free space. *)
Definition page_holds (p : MemPage) (cs : list bytes) : Prop :=
  exists cl F, page_rep p cl F /\ cs = cl.*2 /\ nFree p = free_bytes p cl.

(** The fields that describe the kind of page, which no operation on its
    contents changes. *)
Definition static (p : MemPage) :=
  (pBt p, hdrOffset p, childPtrSize p, cellOffset p, leaf p, pkind p,
   (maxLocal p, minLocal p, maskPage p, pgno p, isInit p)).

Lemma set_aData_id p : set_aData (aData p) p = p.
Proof. by destruct p. Qed.

(** ** Buffer lemmas *)

Lemma same_on_at2 d d' a n i :
  same_on d d' a n -> a <= i -> i + 2 <= a + n -> at2 d' i = at2 d i.
Proof. intros H H1 H2. apply at2_eq; apply H; lia. Qed.

Lemma same_on_mono d d' a n b m :
  same_on d d' a n -> a <= b -> b + m <= a + n -> same_on d d' b m.
Proof. intros H H1 H2 j Hj. apply H. lia. Qed.

Lemma holds_same d d' a c :
  holds d a c -> same_on d d' a (blen c) -> holds d' a c.
Proof. intros H Hs j Hj. rewrite Hs by lia. by apply H. Qed.

(** ** Chain lemmas *)

Lemma chain_app d ptr F1 F2 :
  chain d ptr (F1 ++ F2) <-> seg d ptr F1 /\ chain d (lastptr ptr F1) F2.
Proof.
  revert ptr. induction F1 as [|x F1 IH]; intros ptr; cbn; [tauto|].
  rewrite IH. tauto.
Qed.

Lemma seg_snoc d ptr F x :
  seg d ptr (F ++ [x]) <->
  seg d ptr F /\ at2 d (lastptr ptr F) = x.1 /\ at2 d (x.1 + 2) = x.2.
Proof.
  revert ptr. induction F as [|y F IH]; intros ptr; cbn; [tauto|].
  rewrite IH. tauto.
Qed.

Lemma lastptr_snoc ptr F x : lastptr ptr (F ++ [x]) = x.1.
Proof. revert ptr. induction F; intros; cbn; auto. Qed.

Lemma seg_same d d' ptr F :
  seg d ptr F -> at2 d' ptr = at2 d ptr ->
  Forall (fun x => same_on d d' x.1 4) F -> seg d' ptr F.
Proof.
  revert ptr. induction F as [|x F IH]; intros ptr; cbn; [done|].
  intros (H1 & H2 & H3) Hp [Hx Hf]%list.Forall_cons. split; [by rewrite Hp|].
  split; [rewrite (same_on_at2 _ _ _ _ _ Hx); [done|lia|lia]|].
  apply IH; [done| |done]. apply (same_on_at2 _ _ _ _ _ Hx); lia.
Qed.

Lemma chain_same d d' ptr F :
  chain d ptr F -> at2 d' ptr = at2 d ptr ->
  Forall (fun x => same_on d d' x.1 4) F -> chain d' ptr F.
Proof.
  revert ptr. induction F as [|x F IH]; intros ptr; cbn.
  { by intros -> ->. }
  intros (H1 & H2 & H3) Hp [Hx Hf]%list.Forall_cons. split; [by rewrite Hp|].
  split; [rewrite (same_on_at2 _ _ _ _ _ Hx); [done|lia|lia]|].
  apply IH; [done| |done]. apply (same_on_at2 _ _ _ _ _ Hx); lia.
Qed.

(** ** Ascending lists *)

Lemma ascending_le lo lo' F : lo' <= lo -> ascending lo F -> ascending lo' F.
Proof. destruct F as [|x F]; cbn; [done|]. intros ? (? & ? & ?). split; [lia|done]. Qed.

Lemma ascending_app lo F1 F2 :
  ascending lo (F1 ++ F2) -> ascending lo F1 /\ ascending lo F2.
Proof.
  revert lo. induction F1 as [|x F1 IH]; intros lo; cbn; [done|].
  intros (H1 & H2 & H3). apply IH in H3 as [H3 H4].
  split; [done|]. eapply ascending_le; [|done]. unfold iend. lia.
Qed.

Lemma ascending_inside lo F x : ascending lo F -> x ∈ F -> lo <= x.1 /\ 4 <= x.2.
Proof.
  revert lo. induction F as [|y F IH]; intros lo; [by intros _ ?%elem_of_nil|].
  intros (H1 & H2 & H3) [->|Hx]%elem_of_cons; [done|].
  destruct (IH _ H3 Hx). unfold iend in *. lia.
Qed.

(** ** Access to a page: reads and writes in range are defined *)

(** [d'] is [d] except on the [n] bytes from [a]. *)
Definition changed (d d' : bytes) (a n : Z) : Prop :=
  blen d' = blen d /\ (bytes_ok d -> bytes_ok d') /\
  forall j, j < a \/ a + n <= j -> bat d' j = bat d j.

Section Access.
Context (p : MemPage) (Q : out unit -> MemPage -> Prop).
Local Abbreviation d := (aData p).

Lemma wp_rd1 (P : out Z -> MemPage -> Prop) i :
  0 <= i < blen d -> P (Ret (bat d i)) p -> wp (rd1 i) P p.
Proof.
  intros Hi HP. apply wp_bind, wp_gets. unfold after.
  eapply wp_lift; [by apply bget_in|done].
Qed.
Lemma wp_rd2 (P : out Z -> MemPage -> Prop) i :
  bytes_ok d -> 0 <= i -> i + 1 < blen d ->
  P (Ret (at2 d i)) p -> wp (rd2 i) P p.
Proof.
  intros Hd H1 H2 HP. apply wp_bind, wp_gets. unfold after.
  eapply wp_lift; [by apply get2byte_in|done].
Qed.
Lemma wp_wr f d' :
  f d = Some d' -> Q (Ret tt) (set_aData d' p) -> wp (wr f) Q p.
Proof.
  intros Hf HQ. apply wp_bind, wp_gets. apply wp_bind.
  eapply wp_lift; [exact Hf|]. by apply wp_modify.
Qed.
Lemma wp_wr1 i v :
  0 <= i < blen d ->
  (forall d', changed d d' i 1 -> bat d' i = u8 v ->
     Q (Ret tt) (set_aData d' p)) ->
  wp (wr1 i v) Q p.
Proof.
  intros Hi HQ. destruct (bset_in d i v Hi) as [d' E].
  eapply wp_wr; [exact E|]. apply HQ.
  - split; [by eapply bset_len|]. split; [intros; by eapply bset_ok|].
    intros j Hj. rewrite (bset_at _ _ _ _ _ E).
    by destruct (Z.eqb_spec j i); [lia|].
  - rewrite (bset_at _ _ _ _ _ E). by rewrite Z.eqb_refl.
Qed.
Lemma wp_wr2 i v :
  0 <= i -> i + 1 < blen d ->
  (forall d', changed d d' i 2 -> at2 d' i = u16 v ->
     Q (Ret tt) (set_aData d' p)) ->
  wp (wr2 i v) Q p.
Proof.
  intros H1 H2 HQ. destruct (put2byte_in d i v H1 H2) as [d' E].
  eapply wp_wr; [exact E|]. apply HQ.
  - split; [by eapply put2byte_len|].
    split; [intros; by eapply put2byte_ok|].
    intros j Hj. eapply put2byte_at; [exact E|lia|lia].
  - destruct (put2byte_inv _ _ _ _ E) as (d1 & E1 & E2).
    unfold at2. rewrite !(bset_at _ _ _ _ _ E2), !(bset_at _ _ _ _ _ E1).
    rewrite !Z.eqb_refl. destruct (Z.eqb_spec i (i + 1)); [lia|].
    unfold u8, u16. rewrite Z.shiftr_div_pow2 by lia. div_lia.
Qed.
Lemma wp_wrz i n :
  0 <= i -> 0 <= n -> i + n <= blen d ->
  (forall d', changed d d' i n -> (forall j, i <= j < i + n -> bat d' j = 0) ->
     Q (Ret tt) (set_aData d' p)) ->
  wp (wrz i n) Q p.
Proof.
  intros H1 H2 H3 HQ.
  destruct (blit_in d i (zeros n)) as [d' E]; rewrite ?zeros_len; try lia.
  eapply wp_wr.
  { unfold bzero. destruct (Z.leb_spec 0 n); [exact E|lia]. }
  apply HQ.
  - split; [by eapply blit_len|].
    split; [intros; eapply blit_ok; [done|apply zeros_ok|exact E]|].
    intros j Hj. rewrite (blit_at _ _ _ _ _ E), zeros_len by lia.
    destruct (Z.leb_spec i j), (Z.ltb_spec j (i + n)); done || lia.
  - intros j Hj. rewrite (blit_at _ _ _ _ _ E), zeros_len, zeros_at by lia.
    destruct (Z.leb_spec i j), (Z.ltb_spec j (i + n)); done || lia.
Qed.
Lemma wp_wrn i s :
  bytes_ok s -> 0 <= i -> i + blen s <= blen d ->
  (forall d', changed d d' i (blen s) -> holds d' i s ->
     Q (Ret tt) (set_aData d' p)) ->
  wp (wrn i s) Q p.
Proof.
  intros Hs H1 H2 HQ. destruct (blit_in d i s H1 H2) as [d' E].
  eapply wp_wr; [exact E|]. apply HQ.
  - split; [by eapply blit_len|].
    split; [intros; by eapply blit_ok; [|exact Hs|exact E]|].
    intros j Hj. rewrite (blit_at _ _ _ _ _ E).
    destruct (Z.leb_spec i j), (Z.ltb_spec j (i + blen s)); done || lia.
  - intros j Hj. rewrite (blit_at _ _ _ _ _ E).
    destruct (Z.leb_spec i (i + j)), (Z.ltb_spec (i + j) (i + blen s));
      try lia. cbn. f_equal. lia.
Qed.
Lemma wp_mv dst src n :
  bytes_ok d -> 0 <= n -> 0 <= dst -> dst + n <= blen d ->
  0 <= src -> src + n <= blen d ->
  (forall d', changed d d' dst n ->
     (forall j, 0 <= j < n -> bat d' (dst + j) = bat d (src + j)) ->
     Q (Ret tt) (set_aData d' p)) ->
  wp (mv dst src n) Q p.
Proof.
  intros Hd H0 H1 H2 H3 H4 HQ.
  destruct (bsub_in d src n H3 H0 H4) as [s Es].
  pose proof (bsub_len _ _ _ _ Es) as Hl.
  destruct (blit_in d dst s) as [d' E]; [lia|lia|].
  eapply wp_wr. { rewrite Es. exact E. } apply HQ.
  - split; [by eapply blit_len|].
    split; [intros; eapply blit_ok; [done|by eapply bsub_ok|exact E]|].
    intros j Hj. rewrite (blit_at _ _ _ _ _ E).
    destruct (Z.leb_spec dst j), (Z.ltb_spec j (dst + blen s)); done || lia.
  - intros j Hj. rewrite (blit_at _ _ _ _ _ E).
    destruct (Z.leb_spec dst (dst + j)), (Z.ltb_spec (dst + j) (dst + blen s));
      try lia. cbn. rewrite (bsub_at _ _ _ _ _ Es) by lia. f_equal. lia.
Qed.
End Access.

(** ** Space: regions in use, freeblocks and fragments *)

Record space (p : MemPage) (R F : list iv) : Prop := {
  sp_geom : page_geom p;
  sp_first : hdrOffset p + 8 <= pfirst p <= ptop p;
  sp_top : ptop p <= usableSize (pBt p);
  sp_inside : Forall (inside (ptop p) (usableSize (pBt p))) (R ++ F);
  sp_disj : pdisj (R ++ F);
  sp_size : Forall (fun r => 4 <= r.2) R;
  sp_chain : chain (aData p) (hdrOffset p + 1) F;
  sp_asc : ascending (ptop p + 1) F;
  sp_total : total (R ++ F) + pfrag p = usableSize (pBt p) - ptop p;
}.

(** What an operation on the free space leaves alone: the page header's other
    fields, the cell pointers, the regions in use, the reserved bytes. *)
Definition kept (p : MemPage) (R : list iv) (j : Z) : Prop :=
  j <= hdrOffset p \/ hdrOffset p + 3 <= j < hdrOffset p + 5 \/
  hdrOffset p + 8 <= j < pfirst p \/ usableSize (pBt p) <= j \/
  exists r, r ∈ R /\ r.1 <= j < iend r.
Definition frame (p : MemPage) (R : list iv) (d' : bytes) : Prop :=
  forall j, kept p R j -> bat d' j = bat (aData p) j.

(** ** Pages and spaces *)

Lemma page_geom_bounds p :
  page_geom p ->
  480 <= usableSize (pBt p) <= blen (aData p) /\ blen (aData p) <= 65536 /\
  bytes_ok (aData p) /\ 0 <= hdrOffset p <= 100.
Proof.
  intros ([(k & Hk & Hps) Hu] & Hok & Hlen & Hh & _).
  pose proof (Z.pow_le_mono_r 2 k 16). rewrite Hlen.
  change (2 ^ 16) with 65536 in *.
  split; [lia|]. split; [lia|]. split; [done|lia].
Qed.

Lemma at2_changed d d' a n i :
  changed d d' a n -> i + 2 <= a \/ a + n <= i -> at2 d' i = at2 d i.
Proof. intros (_ & _ & H) Hi. apply at2_eq; apply H; lia. Qed.

Lemma page_geom_data p d' :
  page_geom p -> bytes_ok d' -> blen d' = blen (aData p) ->
  page_geom (set_aData d' p).
Proof.
  intros (H1 & H2 & H3 & H) E1 E2. unfold page_geom. cbn.
  split; [done|]. split; [done|]. split; [by rewrite E2|done].
Qed.

Lemma page_geom_changed p d' a n :
  page_geom p -> changed (aData p) d' a n -> page_geom (set_aData d' p).
Proof.
  intros Hg (E1 & E2 & _). apply page_geom_data; [done| |done].
  apply E2, Hg.
Qed.

Lemma rep_space p cl F : page_rep p cl F -> space p (region <$> cl) F.
Proof.
  intros [Hg Hn _ _ Hc Hf Hi Hd Hch Ha Ht]. split; try done; try lia.
  - destruct Hg as (_ & _ & _ & _ & Hcp & _ & Hoff & _).
    unfold pfirst in *. destruct (pkind p); lia.
  - apply list.Forall_forall. intros r Hr.
    apply list_elem_of_fmap in Hr as (x & -> & Hx).
    rewrite list.Forall_forall in Hc. by destruct (Hc x Hx) as [(_ & ? & _) _].
Qed.

(** A page whose cell pointers and cells are known, and its space. *)
Lemma space_rep p cl F :
  space p (region <$> cl) F -> nCell p = Z.of_nat (length cl) ->
  at2 (aData p) (hdrOffset p + 3) = nCell p ->
  (forall i x, cl !! i = Some x ->
    at2 (aData p) (cellOffset p + 2 * Z.of_nat i) = x.1) ->
  Forall (fun x => cell_ok p x.2 /\ holds (aData p) x.1 x.2) cl ->
  page_rep p cl F.
Proof. intros [] ? ? ? ?. split; done || lia. Qed.

Lemma total_nonneg l : Forall (fun r => 0 <= r.2) l -> 0 <= total l.
Proof. induction 1; rewrite ?total_cons; cbn in *; lia. Qed.

Lemma regions_nonneg (cl : list placed) :
  Forall (fun r => 0 <= r.2) (region <$> cl).
Proof.
  apply list.Forall_forall. intros r Hr.
  apply list_elem_of_fmap in Hr as (x & -> & _). unfold region, blen. cbn. lia.
Qed.

Lemma rep_inside_cell p cl F x :
  page_rep p cl F -> x ∈ cl ->
  ptop p <= x.1 /\ x.1 + blen x.2 <= usableSize (pBt p) /\ 4 <= blen x.2 /\
  cell_ok p x.2 /\ holds (aData p) x.1 x.2.
Proof.
  intros H Hx. pose proof (rep_inside _ _ _ H) as Hi.
  rewrite list.Forall_forall in Hi.
  destruct (Hi (region x)) as [H1 H2].
  { rewrite elem_of_app. left. by apply list_elem_of_fmap_2. }
  pose proof (rep_cell _ _ _ H) as Hc. rewrite list.Forall_forall in Hc.
  destruct (Hc x Hx) as [(Hok & Hsz & Hcs) Hh]. unfold iend in *. cbn in *.
  do 3 (split; [done|]). by split.
Qed.

(** The bytes from an offset where a cell stands start with the cell. *)
Lemma holds_drop d a c :
  bytes_ok d -> holds d a c -> 0 <= a -> a + blen c <= blen d ->
  exists rest, bfrom d a = Some (c ++ rest) /\ bytes_ok rest.
Proof.
  intros Hok Hh Ha Hl. unfold bfrom.
  destruct (Z.leb_spec 0 a), (Z.leb_spec a (blen d)); try (pose proof (blen_nonneg c); lia).
  exists (drop (Z.to_nat (a + blen c)) d). cbn [andb].
  split; [|by apply Forall_drop]. f_equal.
  unfold blen in *. apply bytes_ext.
  { unfold blen. rewrite length_app, !length_drop. lia. }
  unfold blen. rewrite length_drop. intros i Hi. unfold bat.
  destruct (Z.leb_spec 0 i); [|lia].
  rewrite lookup_drop.
  destruct (decide (i < Z.of_nat (length c))) as [Hc|Hc].
  - rewrite lookup_app_l by lia. specialize (Hh i).
    unfold bat, blen in Hh. destruct (Z.leb_spec 0 (a + i)); [|lia].
    destruct (Z.leb_spec 0 i); [|lia]. rewrite <- Hh by lia.
    do 2 f_equal. lia.
  - rewrite lookup_app_r by lia. rewrite lookup_drop. do 2 f_equal. lia.
Qed.

Lemma cell_size_at p d a c :
  bytes_ok d -> cell_ok p c -> holds d a c -> 0 <= a -> a + blen c <= blen d ->
  (s ← bfrom d a; xCellSize p s) = Some (blen c).
Proof.
  intros Hok (_ & _ & _ & Hc) Hh Ha Hl.
  destruct (holds_drop d a c Hok Hh Ha Hl) as (rest & -> & Hr). cbn. auto.
Qed.

Lemma ptop_field p :
  bytes_ok (aData p) -> ptop p < 65536 ->
  at2 (aData p) (hdrOffset p + 5) = ptop p.
Proof.
  intros Hok. unfold ptop, get2byteNotZero.
  pose proof (at2_range (aData p) (hdrOffset p + 5) Hok) as Hr.
  change 0xffff with (Z.ones 16). rewrite Z.land_ones by lia.
  change (2 ^ 16) with 65536. intros Hlt. div_lia.
Qed.

Lemma get2byteNotZero_small v : 0 < v <= 65536 -> get2byteNotZero (u16 v) = v.
Proof.
  intros Hv. unfold get2byteNotZero, u16. change 0xffff with (Z.ones 16).
  rewrite Z.land_ones by lia. change (2 ^ 16) with 65536. div_lia.
Qed.

Lemma ascending_sizes lo F : ascending lo F -> Forall (fun r => 4 <= r.2) F.
Proof.
  intros H. apply list.Forall_forall. intros x Hx.
  by destruct (ascending_inside _ _ _ H Hx).
Qed.


(** ** Pointers of the free list *)

Definition headptr (F : list iv) : Z := match F with [] => 0 | x :: _ => x.1 end.
(** The blocks of [F] with the pointers between them. *)
Definition links (d : bytes) (F : list iv) : Prop :=
  match F with [] => True | x :: F => at2 d (x.1 + 2) = x.2 /\ chain d x.1 F end.

Lemma chain_links d ptr F :
  chain d ptr F <-> at2 d ptr = headptr F /\ links d F.
Proof. destruct F; cbn; tauto. Qed.

Lemma links_same d d' F :
  links d F -> Forall (fun x => same_on d d' x.1 4) F -> links d' F.
Proof.
  destruct F as [|x F]; [done|]. intros [H1 H2] [Hx Hf]%list.Forall_cons.
  split; [rewrite (same_on_at2 _ _ _ _ _ Hx); [done|lia|lia]|].
  eapply chain_same; [exact H2| |done].
  rewrite (same_on_at2 _ _ _ _ _ Hx); [done|lia|lia].
Qed.

Lemma lastptr_ge x F :
  4 <= x.2 -> ascending (iend x + 4) F -> x.1 <= lastptr x.1 F.
Proof.
  revert x. induction F as [|y F IH]; intros x Hx; cbn [lastptr ascending]; [lia|].
  intros (B1 & B2 & B3). specialize (IH y B2 B3). unfold iend in *. lia.
Qed.

(** [seg] does not depend on the pointer out of its last block. *)
Lemma seg_last d d' ptr lo F :
  seg d ptr F -> ascending lo F -> ptr + 2 <= lo ->
  (forall j, ptr <= j < ptr + 2 \/ (exists y, y ∈ F /\ y.1 <= j < y.1 + 4) ->
     j < lastptr ptr F \/ lastptr ptr F + 2 <= j -> bat d' j = bat d j) ->
  seg d' ptr F.
Proof.
  revert ptr lo. induction F as [|x F IH]; intros ptr lo; [done|].
  intros (H1 & H2 & H3) (A1 & A2 & A3) Hlo Hs. cbn [seg lastptr] in *.
  pose proof (lastptr_ge x F A2 A3) as Hlp.
  assert (Hx : x ∈ x :: F) by by left.
  split; [rewrite <- H1; apply at2_eq; apply Hs; lia|].
  split.
  { assert (lastptr x.1 F = x.1 \/ x.1 + 4 <= lastptr x.1 F).
    { destruct F as [|y F]; [by left|right]. destruct A3 as (B1 & B2 & B3).
      cbn [lastptr]. pose proof (lastptr_ge y F B2 B3). unfold iend in *. lia. }
    rewrite <- H2. apply at2_eq; (apply Hs; [right; exists x; split; [done|lia]|lia]). }
  eapply IH; [done|exact A3|unfold iend; lia|].
  intros j [Hj|(y & Hy & Hj)] Hl; apply Hs; try done.
  - right. exists x. split; [done|lia].
  - right. exists y. split; [by right|done].
Qed.

Lemma lastptr_elem ptr F : lastptr ptr F = ptr \/ exists y, y ∈ F /\ lastptr ptr F = y.1.
Proof.
  revert ptr. induction F as [|x F IH]; intros ptr; [by left|]. right. cbn.
  destruct (IH x.1) as [->|(y & Hy & ->)].
  - exists x. split; [by left|done].
  - exists y. split; [by right|done].
Qed.

Lemma ascending_snoc lo F w :
  ascending lo (F ++ [w]) ->
  4 <= w.2 /\ lo <= w.1 /\ forall y, y ∈ F -> iend y + 4 <= w.1.
Proof.
  revert lo. induction F as [|x F IH]; intros lo; cbn [ascending app].
  - intros (H1 & H2 & _). split; [done|]. split; [done|].
    by intros y ?%elem_of_nil.
  - intros (H1 & H2 & H3). destruct (IH _ H3) as (H4 & H5 & H6).
    split; [done|]. split; [unfold iend in *; lia|].
    intros y [->|Hy]%elem_of_cons; [done|auto].
Qed.

Lemma ascending_length lo hi F :
  ascending lo F -> (forall x, x ∈ F -> iend x <= hi) ->
  4 * Z.of_nat (length F) <= Z.max 0 (hi - lo).
Proof.
  revert lo. induction F as [|x F IH]; intros lo; cbn [length ascending]; [lia|].
  intros (A1 & A2 & A3) Hu. assert (iend x <= hi) by (apply Hu; by left).
  specialize (IH _ A3). unfold iend in *.
  assert (4 * Z.of_nat (length F) <= Z.max 0 (hi - (x.1 + x.2 + 4))); [|lia].
  apply IH. intros y Hy. apply Hu. by right.
Qed.

Lemma ascending_from lo lo' F :
  ascending lo F -> F = [] \/ lo' <= headptr F -> ascending lo' F.
Proof.
  destruct F as [|x F]; [done|]. intros (H1 & H2 & H3) [?|H]; [done|].
  by repeat split.
Qed.

Lemma ascending_insert lo F1 x F2 :
  ascending lo F1 -> (forall y, y ∈ F1 -> iend y + 4 <= x.1) -> lo <= x.1 ->
  4 <= x.2 -> ascending (iend x + 4) F2 -> ascending lo (F1 ++ x :: F2).
Proof.
  revert lo. induction F1 as [|y F1 IH]; intros lo; cbn; [done|].
  intros (H1 & H2 & H3) H4 H5 H6 H7. split; [done|]. split; [done|].
  apply IH; try done.
  - intros z Hz. apply H4. by right.
  - apply H4. by left.
Qed.

Lemma space_bounds p R F :
  space p R F -> 0 < ptop p <= usableSize (pBt p) /\
    usableSize (pBt p) <= blen (aData p) /\ hdrOffset p + 8 <= pfirst p <= ptop p.
Proof.
  intros [Hg H1 H2 _ _ _ _ _ _].
  pose proof (page_geom_bounds p Hg). lia.
Qed.
