(* ===== verification/BtFree.v ===== *)
(** * Returning space to a b-tree page: [freeSpace] ([src/src/btree.c]) *)
From S2P Require Import Prelude Bits Bytes Varint BtPage Interval BtRep.

(** ** Definitions *)

(** [while( (iFreeBlk = get2byte(&data[iPtr]))<iStart )]: the final [iPtr]
    and [iFreeBlk]. *)
Fixpoint freeSpace_loop (fuel : nat) (iStart iPtr : Z) : M MemPage (Z * Z) :=
  match fuel with
  | O => undef
  | S fuel =>
      let* iFreeBlk := rd2 iPtr in
      if iFreeBlk <? iStart then
        if iFreeBlk <=? iPtr then
          if iFreeBlk =? 0 then ret (iPtr, iFreeBlk) else fail SQLITE_CORRUPT
        else freeSpace_loop fuel iStart iFreeBlk
      else ret (iPtr, iFreeBlk)
  end.

(** Coalescing with the block after: [nFrag], [iEnd], [iSize], [iFreeBlk]. *)
Definition coalesce_next (usz iStart iEnd iSize iFreeBlk : Z)
    : M MemPage (Z * Z * Z * Z) :=
  if negb (iFreeBlk =? 0) && (iFreeBlk <=? iEnd + 3) then
    let nFrag := iFreeBlk - iEnd in
    if iFreeBlk <? iEnd then fail SQLITE_CORRUPT else
    let* s := rd2 (iFreeBlk + 2) in
    let iEnd := iFreeBlk + s in
    if usz <? iEnd then fail SQLITE_CORRUPT else
    let* nx := rd2 iFreeBlk in
    ret (nFrag, iEnd, iEnd - iStart, nx)
  else ret (0, iEnd, iSize, iFreeBlk).

(** Coalescing with the block before: [nFrag], [iStart], [iSize]. *)
Definition coalesce_prev (hdr nFrag iStart iEnd iSize iPtr : Z)
    : M MemPage (Z * Z * Z) :=
  if hdr + 1 <? iPtr then
    let* s := rd2 (iPtr + 2) in
    let iPtrEnd := iPtr + s in
    if iStart <=? iPtrEnd + 3 then
      if iStart <? iPtrEnd then fail SQLITE_CORRUPT
      else ret (nFrag + (iStart - iPtrEnd), iPtr, iEnd - iPtr)
    else ret (nFrag, iStart, iSize)
  else ret (nFrag, iStart, iSize).

(** The search of the list and the coalescing, on a list that is not empty:
    [iPtr], [iFreeBlk], [iStart], [iEnd] and [iSize] as they are after it. *)
Definition freeSpace_find (iStart iSize : Z) : M MemPage (Z * Z * Z * Z * Z) :=
  let* p := gets id in
  let hdr := hdrOffset p in
  let usz := usableSize (pBt p) in
  let iEnd := iStart + iSize in
  let* r := freeSpace_loop (S (Z.to_nat usz)) iStart (hdr + 1) in
  let '(iPtr, iFreeBlk) := r in
  if usz - 4 <? iFreeBlk then fail SQLITE_CORRUPT else
  let* r := coalesce_next usz iStart iEnd iSize iFreeBlk in
  let '(nFrag, iEnd, iSize, iFreeBlk) := r in
  let* r := coalesce_prev hdr nFrag iStart iEnd iSize iPtr in
  let '(nFrag, iStart, iSize) := r in
  let* frag := rd1 (hdr + 7) in
  if frag <? nFrag then fail SQLITE_CORRUPT else
  wr1 (hdr + 7) (frag - u8 nFrag) ;;*
  ret (iPtr, iFreeBlk, iStart, iEnd, iSize).

(** The insertion of the block, from [x = get2byte(pTmp)] on. *)
Definition freeSpace_link (iPtr iFreeBlk iStart iEnd iSize : Z) : M MemPage unit :=
  let* p := gets id in
  let hdr := hdrOffset p in
  let* x := rd2 (hdr + 5) in
  (if negb (Z.land (btsFlags (pBt p)) BTS_FAST_SECURE =? 0)
   then wrz iStart iSize else ret tt) ;;*
  if iStart <=? x then
    if iStart <? x then fail SQLITE_CORRUPT else
    if negb (iPtr =? hdr + 1) then fail SQLITE_CORRUPT else
    wr2 (hdr + 1) iFreeBlk ;;*
    wr2 (hdr + 5) iEnd
  else
    wr2 iPtr iStart ;;*
    wr2 iStart iFreeBlk ;;*
    wr2 (iStart + 2) (u16 iSize).

Definition freeSpace (iStart iSize : Z) : M MemPage unit :=
  let* p := gets id in
  let hdr := hdrOffset p in
  let iOrigSize := iSize in
  let iPtr := hdr + 1 in
  let* b1 := rd1 (iPtr + 1) in
  let* b0 := rd1 iPtr in
  let* r :=
    (if (b1 =? 0) && (b0 =? 0)
     then ret (iPtr, 0, iStart, iStart + iSize, iSize)
     else freeSpace_find iStart iSize) in
  let '(iPtr, iFreeBlk, iStart, iEnd, iSize) := r in
  freeSpace_link iPtr iFreeBlk iStart iEnd iSize ;;*
  modify (fun p => set_nFree (nFree p + iOrigSize) p).

(** ** Safety on any page *)

(** The list walk stops at a pointer below [iStart]. *)
Lemma freeSpace_loop_safe p fuel iStart iPtr :
  page_geom p -> 0 <= iPtr -> iPtr + 1 < blen (aData p) ->
  iStart <= usableSize (pBt p) - 4 ->
  (Z.to_nat (iStart - iPtr) < fuel)%nat ->
  wp (freeSpace_loop fuel iStart iPtr)
    (okp page_geom (fun r s => s = p /\ 0 <= r.2 < 65536 /\
       (r.1 = iPtr \/ iPtr < r.1 < iStart) /\ (r.2 = 0 \/ iStart <= r.2))) p.
Proof.
  intros Hg H0 H1 H2 Hf.
  pose proof (page_geom_bounds p Hg) as (Hu & Hl & Hok & _).
  revert iPtr H0 H1 Hf.
  induction fuel as [|fuel IH]; intros iPtr H0 H1 Hf; [lia|].
  cbn [freeSpace_loop]. apply wp_bind, wp_rd2; [done|lia|lia|]. unfold after.
  pose proof (at2_range (aData p) iPtr Hok).
  case_if; [|apply wp_ret; fin].
  case_if.
  - case_if; [apply wp_ret; fin|by apply wp_fail].
  - eapply okp_mono; [apply IH; lia|]. cbn. intros [a b] s (-> & Ha & Hb & Hc).
    cbn in *. fin.
Qed.

Definition same_hdr (p p' : MemPage) : Prop :=
  pBt p' = pBt p /\ hdrOffset p' = hdrOffset p.

Lemma coalesce_next_safe p usz iStart iEnd iSize iFreeBlk :
  page_geom p -> 0 <= iStart -> usz <= usableSize (pBt p) ->
  iEnd <= usz -> 0 <= iFreeBlk <= usz - 4 ->
  iSize = iEnd - iStart -> 0 <= iSize ->
  wp (coalesce_next usz iStart iEnd iSize iFreeBlk)
    (okp page_geom (fun '(_, e, sz, _) s => s = p /\
       iEnd <= e <= usz /\ sz = e - iStart)) p.
Proof.
  intros Hg H0 H1 H2 H3 H4 H5.
  pose proof (page_geom_bounds p Hg) as (Hu & Hl & Hok & _).
  unfold coalesce_next. case_if; [|apply wp_ret; fin].
  case_if; [by apply wp_fail|].
  apply wp_bind, wp_rd2; [done|lia|lia|]. unfold after.
  pose proof (at2_range (aData p) (iFreeBlk + 2) Hok).
  case_if; [by apply wp_fail|].
  apply wp_bind, wp_rd2; [done|lia|lia|]. apply wp_ret. fin.
Qed.

Lemma coalesce_prev_safe p nFrag iStart iEnd iSize iPtr :
  page_geom p -> 0 <= iPtr -> iPtr = hdrOffset p + 1 \/ iPtr < iStart ->
  0 <= iStart <= usableSize (pBt p) - 4 -> iSize = iEnd - iStart ->
  iStart <= iEnd ->
  wp (coalesce_prev (hdrOffset p) nFrag iStart iEnd iSize iPtr)
    (okp page_geom (fun '(_, st, sz) s => s = p /\
       0 <= st <= iStart /\ sz = iEnd - st)) p.
Proof.
  intros Hg H0 H1 H2 H3 H4.
  pose proof (page_geom_bounds p Hg) as (Hu & Hl & Hok & _).
  unfold coalesce_prev. case_if; [|apply wp_ret; fin].
  apply wp_bind, wp_rd2; [done|lia|lia|]. unfold after.
  case_if; [|apply wp_ret; fin].
  case_if; [by apply wp_fail|]. apply wp_ret. fin.
Qed.

Lemma freeSpace_find_safe p iStart iSize :
  page_geom p -> 0 <= iStart -> 4 <= iSize ->
  iStart + iSize <= usableSize (pBt p) ->
  wp (freeSpace_find iStart iSize)
    (okp page_geom (fun '(ptr, _, st, e, sz) s => page_geom s /\ same_hdr p s /\
       0 <= ptr < usableSize (pBt p) - 1 /\
       0 <= st <= iStart /\ sz = e - st /\ st <= e <= usableSize (pBt p))) p.
Proof.
  intros Hg H1 H2 H3. pose proof (page_geom_bounds p Hg) as (Hu & Hl & Hok & Hh).
  unfold freeSpace_find. apply wp_bind, wp_gets. unfold after, id.
  eapply wp_seq; [apply freeSpace_loop_safe; done || lia|].
  intros [iPtr iFB] s (-> & Hfb & Hp & Hfb'). cbn in *.
  case_if; [by apply wp_fail|].
  eapply wp_seq; [apply coalesce_next_safe; done || lia|].
  intros [[[nFrag e] sz] fb] s (-> & He & ->).
  eapply wp_seq; [apply coalesce_prev_safe; done || lia|].
  intros [[nFrag' st] sz'] s (-> & Hst & ->).
  apply wp_bind, wp_rd1; [lia|]. unfold after.
  case_if; [by apply wp_fail|].
  apply wp_bind, wp_wr1; [lia|]. intros d C _. apply wp_ret. cbn.
  split; [by eapply page_geom_changed|]. split; [done|]. lia.
Qed.

Lemma freeSpace_link_safe p iPtr iFreeBlk iStart iEnd iSize :
  page_geom p -> 0 <= iStart -> 0 <= iSize ->
  iStart + 3 < usableSize (pBt p) -> iStart + iSize <= usableSize (pBt p) ->
  0 <= iPtr < usableSize (pBt p) - 1 ->
  wp (freeSpace_link iPtr iFreeBlk iStart iEnd iSize)
    (okp page_geom (fun _ => page_geom)) p.
Proof.
  intros Hg H1 H2 H3 H4 H5.
  pose proof (page_geom_bounds p Hg) as (Hu & Hl & Hok & Hh).
  unfold freeSpace_link. apply wp_bind, wp_gets. unfold after, id.
  apply wp_bind, wp_rd2; [done|lia|lia|]. unfold after.
  eapply (wp_seq _ _ _ (fun _ s => page_geom s /\ same_hdr p s)).
  { case_if; [|by apply wp_ret].
    apply wp_wrz; [lia|lia|lia|]. intros d C _. split; [|done].
    by eapply page_geom_changed. }
  intros _ s (Gs & Es & Eh).
  pose proof (page_geom_bounds s Gs) as (Hus & Hls & _ & _).
  rewrite Es in Hus. case_if.
  - case_if; [by apply wp_fail|]. case_if; [by apply wp_fail|].
    apply wp_bind, wp_wr2; [lia|lia|]. intros d1 C1 _.
    pose proof (page_geom_changed _ _ _ _ Gs C1) as G1. unfold after.
    destruct C1 as (L1 & _).
    apply wp_wr2; cbn; [lia|lia|]. intros d2 C2 _.
    exact (page_geom_changed _ _ _ _ G1 C2).
  - apply wp_bind, wp_wr2; [lia|lia|]. intros d1 C1 _.
    pose proof (page_geom_changed _ _ _ _ Gs C1) as G1. unfold after.
    destruct C1 as (L1 & _).
    apply wp_bind, wp_wr2; cbn; [lia|lia|]. intros d2 C2 _.
    pose proof (page_geom_changed _ _ _ _ G1 C2) as G2. unfold after.
    destruct C2 as (L2 & _). cbn in L2.
    apply wp_wr2; cbn; [lia|lia|]. intros d3 C3 _.
    exact (page_geom_changed _ _ _ _ G2 C3).
Qed.

Lemma freeSpace_safe p iStart iSize :
  page_geom p -> 0 <= iStart -> 4 <= iSize ->
  iStart + iSize <= usableSize (pBt p) ->
  wp (freeSpace iStart iSize) (okp page_geom (fun _ => page_geom)) p.
Proof.
  intros Hg H1 H2 H3. pose proof (page_geom_bounds p Hg) as (Hu & Hl & Hok & Hh).
  unfold freeSpace. apply wp_bind, wp_gets. unfold after, id.
  apply wp_bind, wp_rd1; [lia|]. unfold after.
  apply wp_bind, wp_rd1; [lia|]. unfold after.
  eapply (wp_seq _ _ _ (fun '(ptr, _, st, e, sz) s => page_geom s /\ same_hdr p s /\
       0 <= ptr < usableSize (pBt p) - 1 /\
       0 <= st <= iStart /\ sz = e - st /\ st <= e <= usableSize (pBt p))).
  { case_if; [apply wp_ret; fin|].
    by apply freeSpace_find_safe. }
  intros [[[[ptr fb] st] e] sz] s (Gs & (Es & Eh) & Hp & Hst & -> & He).
  eapply wp_seq; [apply freeSpace_link_safe; rewrite ?Es; done || lia|].
  intros [] s2 Gs2. apply wp_modify. exact Gs2.
Qed.

(** ** The free list as a list of blocks *)

(** A region [x] in use between the blocks [G1] before it and [G2] after it. *)
Record slot (top hi : Z) (R : list iv) (x : iv) (G1 G2 : list iv) (frag : Z)
    : Prop := {
  sl_disj : pdisj (x :: R ++ G1 ++ G2);
  sl_in : Forall (inside top hi) (x :: R ++ G1 ++ G2);
  sl_asc1 : ascending (top + 1) G1;
  sl_before : forall y, y ∈ G1 -> iend y <= x.1;
  sl_asc2 : ascending (iend x) G2;
  sl_total : total (x :: R ++ G1 ++ G2) + frag = hi - top;
}.

Lemma slot_frag top hi R x G1 G2 frag :
  top <= hi -> slot top hi R x G1 G2 frag -> 0 <= frag.
Proof.
  intros Hb H. pose proof (total_bound _ _ _ Hb (sl_disj _ _ _ _ _ _ _ H)
    (sl_in _ _ _ _ _ _ _ H)). pose proof (sl_total _ _ _ _ _ _ _ H). lia.
Qed.

Lemma disj_join x y r :
  iend x <= y.1 <= iend x + 3 -> disj x r -> disj y r -> 4 <= r.2 ->
  disj (x.1, iend y - x.1) r.
Proof. unfold disj, iend. cbn. lia. Qed.

Lemma disj_join_all x y l :
  iend x <= y.1 <= iend x + 3 -> Forall (disj x) l -> Forall (disj y) l ->
  Forall (fun r => 4 <= r.2) l -> Forall (disj (x.1, iend y - x.1)) l.
Proof.
  rewrite !list.Forall_forall. intros H H1 H2 H3 r Hr.
  by apply disj_join; auto.
Qed.

Lemma slot_next top hi R x y G1 G2 frag :
  slot top hi R x G1 (y :: G2) frag -> Forall (fun r => 4 <= r.2) R ->
  y.1 <= iend x + 3 ->
  iend x <= y.1 /\
  slot top hi R (x.1, iend y - x.1) G1 G2 (frag - (y.1 - iend x)) /\
  ascending (iend y + 4) G2.
Proof.
  intros [Hd Hi Ha1 Hb (H1 & H2 & H3) Ht] Hs Hy.
  split; [done|]. split; [|done].
  assert (Hp : Permutation (x :: R ++ G1 ++ y :: G2) (x :: y :: R ++ G1 ++ G2)).
  { constructor. rewrite !app_assoc. symmetry. apply Permutation_middle. }
  rewrite Hp in Hd, Hi, Ht.
  destruct Hd as [Hx [Hyd Hd]]. apply list.Forall_cons in Hx as [_ Hx].
  apply list.Forall_cons in Hi as [Hxi Hi].
  apply list.Forall_cons in Hi as [Hyi Hi].
  rewrite !total_cons in Ht.
  split; try done.
  - split; [|done]. apply disj_join_all; [lia|done|done|].
    rewrite !Forall_app. eauto using ascending_sizes.
  - constructor; [|done]. unfold inside, iend in *. cbn. lia.
  - eapply ascending_le; [|exact H3]. unfold iend. cbn. lia.
  - rewrite total_cons. unfold iend in *. cbn. lia.
Qed.

Lemma slot_prev top hi R x w G1 G2 frag :
  slot top hi R x (G1 ++ [w]) G2 frag -> Forall (fun r => 4 <= r.2) R ->
  x.1 <= iend w + 3 -> 4 <= x.2 ->
  iend w <= x.1 /\
  slot top hi R (w.1, iend x - w.1) G1 G2 (frag - (x.1 - iend w)) /\
  forall y, y ∈ G1 -> iend y + 4 <= w.1.
Proof.
  intros [Hd Hi Ha1 Hb Ha2 Ht] Hs Hx Hxs.
  destruct (ascending_snoc _ _ _ Ha1) as (Hw & Hlo & Hlast).
  assert (iend w <= x.1) by (apply Hb; rewrite elem_of_app; right; by left).
  split; [done|]. split; [|done].
  assert (Hp : Permutation (x :: R ++ (G1 ++ [w]) ++ G2)
                           (x :: w :: R ++ G1 ++ G2)).
  { constructor. rewrite <- app_assoc. cbn. rewrite !app_assoc. symmetry.
    apply Permutation_middle. }
  rewrite Hp in Hd, Hi, Ht.
  destruct Hd as [Hxd [Hwd Hd]]. apply list.Forall_cons in Hxd as [_ Hxd].
  apply list.Forall_cons in Hi as [Hxi Hi].
  apply list.Forall_cons in Hi as [Hwi Hi].
  rewrite !total_cons in Ht. apply ascending_app in Ha1 as [Ha1 _].
  split; try done.
  - split; [|done]. apply disj_join_all; [lia|done|done|].
    rewrite !Forall_app. eauto using ascending_sizes.
  - constructor; [|done]. unfold inside, iend in *. cbn. lia.
  - intros y Hy. cbn. specialize (Hlast y Hy). lia.
  - eapply ascending_le; [|exact Ha2]. unfold iend in *. cbn. lia.
  - rewrite total_cons. unfold iend in *. cbn. lia.
Qed.

(** ** What the search finds *)

Lemma freeSpace_loop_spec p fuel iStart ptr lo F :
  page_geom p -> chain (aData p) ptr F -> ascending lo F ->
  0 <= ptr < lo -> ptr + 1 < blen (aData p) ->
  (forall x, x ∈ F -> iend x <= usableSize (pBt p)) ->
  0 < iStart -> (length F < fuel)%nat ->
  wp (freeSpace_loop fuel iStart ptr)
    (returns (fun r s => s = p /\ exists F1 F2, F = F1 ++ F2 /\
       r = (lastptr ptr F1, headptr F2) /\
       (forall x, x ∈ F1 -> x.1 < iStart) /\
       (F2 = [] \/ iStart <= headptr F2))) p.
Proof.
  intros Hg Hc Ha Hp Hl Hu H0 Hf.
  pose proof (page_geom_bounds p Hg) as (Hus & _ & Hok & _).
  revert ptr lo fuel Hc Ha Hp Hl Hu Hf.
  induction F as [|x F IH]; intros ptr lo fuel Hc Ha Hp Hl Hu Hf;
    (destruct fuel as [|fuel]; [cbn in Hf; lia|]); cbn [freeSpace_loop];
    apply wp_bind, wp_rd2; try (done || lia); unfold after.
  - cbn in Hc. rewrite Hc. case_if; [|lia]. case_if; [|lia].
    apply wp_ret. split; [done|]. exists [], []. cbn.
    split; [done|]. split; [done|]. split; [by intros x ?%elem_of_nil|by left].
  - destruct Hc as (C1 & C2 & C3), Ha as (A1 & A2 & A3). rewrite C1.
    assert (iend x <= usableSize (pBt p)) by (apply Hu; by left).
    case_if.
    + case_if; [lia|].
      eapply okp_mono.
      { eapply IH; [exact C3|exact A3|unfold iend; lia|unfold iend in *; lia| |cbn in Hf; lia].
        intros y Hy. apply Hu. by right. }
      intros r s (-> & F1 & F2 & -> & -> & HF1 & HF2). split; [done|].
      exists (x :: F1), F2. split; [done|]. split; [done|].
      split; [|done]. intros y [->|Hy]%elem_of_cons; auto.
    + apply wp_ret. split; [done|]. exists [], (x :: F). cbn.
      split; [done|]. split; [done|]. split; [by intros y ?%elem_of_nil|by right].
Qed.

(** The result of the search and coalescing: the block [st .. e) goes between
    [G1] and [G2], the pointer to it is at [iPtr] or already points to it. *)
Record found (p s : MemPage) (R : list iv) (iPtr fb st e sz : Z)
    (G1 G2 : list iv) : Prop := {
  fo_state : s = set_aData (aData s) p;
  fo_changed : changed (aData p) (aData s) (hdrOffset p + 7) 1;
  fo_slot : slot (ptop p) (usableSize (pBt p)) R (st, sz) G1 G2 (pfrag s);
  fo_end : e = st + sz;
  fo_size : 4 <= sz;
  fo_before : forall y, y ∈ G1 -> iend y + 4 <= st;
  fo_after : ascending (e + 4) G2;
  fo_fb : fb = headptr G2;
  fo_links : links (aData p) G2;
  fo_seg : seg (aData p) (hdrOffset p + 1) G1;
  fo_ptr : iPtr = lastptr (hdrOffset p + 1) G1 \/
    (iPtr = st /\ ptop p < st /\ at2 (aData p) (lastptr (hdrOffset p + 1) G1) = st);
}.

Lemma space_slot p x R F1 F2 :
  space p (x :: R) (F1 ++ F2) ->
  (forall y, y ∈ F1 -> y.1 < x.1) -> F2 = [] \/ x.1 <= headptr F2 ->
  slot (ptop p) (usableSize (pBt p)) R x F1 F2 (pfrag p).
Proof.
  intros [Hg _ Htop Hi Hd Hs Hc Ha Ht] HF1 HF2.
  apply list.Forall_cons in Hs as [Hx Hs]. cbn [app] in *.
  apply ascending_app in Ha as [Ha1 Ha2].
  pose proof Hd as [Hdx _]. rewrite !Forall_app in Hdx.
  destruct Hdx as (_ & Hd1 & Hd2). rewrite list.Forall_forall in Hd1.
  split; try done.
  - intros y Hy. specialize (HF1 y Hy). specialize (Hd1 y Hy).
    pose proof (ascending_inside _ _ _ Ha1 Hy). unfold disj, iend in *. lia.
  - eapply ascending_from; [exact Ha2|]. destruct F2 as [|y F2]; [by left|].
    right. destruct HF2 as [?|HF2]; [done|].
    apply list.Forall_cons in Hd2 as [Hd2 _]. destruct Ha2 as (_ & A2 & _).
    unfold disj, iend in *. cbn in *. lia.
Qed.

Lemma slot_ends top hi R x G1 G2 frag y :
  slot top hi R x G1 G2 frag -> y = x \/ y ∈ G1 \/ y ∈ G2 ->
  top <= y.1 /\ iend y <= hi.
Proof.
  intros H Hy. pose proof (sl_in _ _ _ _ _ _ _ H) as Hi.
  rewrite list.Forall_forall in Hi. destruct (Hi y); [|done].
  rewrite elem_of_cons, !elem_of_app. tauto.
Qed.

(** Coalescing with the following block, on the list. *)
Lemma coalesce_next_spec p R x G1 F2 :
  page_geom p -> Forall (fun r => 4 <= r.2) R -> 4 <= x.2 -> 0 < ptop p ->
  slot (ptop p) (usableSize (pBt p)) R x G1 F2 (pfrag p) ->
  links (aData p) F2 ->
  wp (coalesce_next (usableSize (pBt p)) x.1 (iend x) x.2 (headptr F2))
    (returns (fun '(nFrag, e, sz, fb) s => s = p /\ exists G2,
       slot (ptop p) (usableSize (pBt p)) R (x.1, sz) G1 G2 (pfrag p - nFrag) /\
       0 <= nFrag /\ e = x.1 + sz /\ 4 <= sz /\ ascending (e + 4) G2 /\
       fb = headptr G2 /\ links (aData p) G2)) p.
Proof.
  intros Hg Hs Hx Htop Hsl Hl.
  pose proof (page_geom_bounds p Hg) as (Hu & _ & Hok & _).
  unfold coalesce_next. destruct F2 as [|y F2].
  { apply wp_ret. split; [done|]. exists []. rewrite Z.sub_0_r.
    destruct x. cbn in *. split_and?; done || lia. }
  cbn [headptr]. destruct (slot_ends _ _ _ _ _ _ _ y Hsl) as [Hy1 Hy2].
  { right; right; by left. }
  pose proof (sl_asc2 _ _ _ _ _ _ _ Hsl) as (A1 & A2 & A3).
  destruct Hl as [Hl1 Hl2]. apply chain_links in Hl2 as [Hl2 Hl3].
  destruct (Z.eqb_spec y.1 0); [lia|]. cbn [negb andb].
  case_if.
  - case_if; [unfold iend in *; lia|].
    destruct (slot_next _ _ _ _ _ _ _ _ Hsl Hs Hif) as (S1 & S2 & S3).
    apply wp_bind, wp_rd2; [done|lia|unfold iend in *; lia|]. unfold after.
    rewrite Hl1. case_if; [unfold iend in *; lia|].
    apply wp_bind, wp_rd2; [done|lia|unfold iend in *; lia|].
    apply wp_ret. split; [done|]. exists F2. rewrite Hl2.
    unfold iend in *. split; [exact S2|]. split_and?; try done; try lia.
  - apply wp_ret. split; [done|]. exists (y :: F2). rewrite Z.sub_0_r.
    split; [by destruct x|]. cbn. split_and?; try (done || unfold iend in *; lia).
    by apply chain_links.
Qed.

(** Coalescing with the block before, on the list. *)
Lemma coalesce_prev_spec p R x F1 G2 nFrag0 :
  page_geom p -> Forall (fun r => 4 <= r.2) R -> 4 <= x.2 ->
  hdrOffset p + 8 <= ptop p ->
  slot (ptop p) (usableSize (pBt p)) R x F1 G2 (pfrag p - nFrag0) ->
  seg (aData p) (hdrOffset p + 1) F1 ->
  wp (coalesce_prev (hdrOffset p) nFrag0 x.1 (iend x) x.2
        (lastptr (hdrOffset p + 1) F1))
    (returns (fun '(nFrag, st, sz) s => s = p /\ exists G1,
       slot (ptop p) (usableSize (pBt p)) R (st, sz) G1 G2 (pfrag p - nFrag) /\
       nFrag0 <= nFrag /\ st + sz = iend x /\ 4 <= sz /\
       (forall y, y ∈ G1 -> iend y + 4 <= st) /\
       seg (aData p) (hdrOffset p + 1) G1 /\
       (lastptr (hdrOffset p + 1) F1 = lastptr (hdrOffset p + 1) G1 \/
        lastptr (hdrOffset p + 1) F1 = st /\ ptop p < st /\
        at2 (aData p) (lastptr (hdrOffset p + 1) G1) = st))) p.
Proof.
  intros Hg Hs Hx Htop Hsl Hseg.
  pose proof (page_geom_bounds p Hg) as (Hu & _ & Hok & Hh).
  unfold coalesce_prev.
  assert (Hkeep : (forall y, y ∈ F1 -> iend y + 4 <= x.1) ->
    wp (ret (nFrag0, x.1, x.2)) (returns (fun '(nFrag, st, sz) s => s = p /\
       exists G1,
       slot (ptop p) (usableSize (pBt p)) R (st, sz) G1 G2 (pfrag p - nFrag) /\
       nFrag0 <= nFrag /\ st + sz = iend x /\ 4 <= sz /\
       (forall y, y ∈ G1 -> iend y + 4 <= st) /\
       seg (aData p) (hdrOffset p + 1) G1 /\
       (lastptr (hdrOffset p + 1) F1 = lastptr (hdrOffset p + 1) G1 \/
        lastptr (hdrOffset p + 1) F1 = st /\ ptop p < st /\
        at2 (aData p) (lastptr (hdrOffset p + 1) G1) = st))) p).
  { intros Hb. apply wp_ret. split; [done|]. exists F1.
    split; [by destruct x|]. split_and?; try done; try lia. }
  destruct F1 as [|w G1 _] using rev_ind.
  { cbn [lastptr]. rewrite Z.ltb_irrefl. apply Hkeep. by intros y ?%elem_of_nil. }
  rewrite lastptr_snoc in *. apply seg_snoc in Hseg as (Hseg & Hw1 & Hw2).
  destruct (slot_ends _ _ _ _ _ _ _ w Hsl) as [Hwa Hwb].
  { right; left. rewrite elem_of_app. right. by left. }
  pose proof (ascending_snoc _ _ _ (sl_asc1 _ _ _ _ _ _ _ Hsl)) as (Hw4 & Hwt & Hw).
  case_if; [|lia].
  apply wp_bind, wp_rd2; [done|lia|unfold iend in *; lia|]. unfold after.
  rewrite Hw2. case_if.
  - destruct (slot_prev _ _ _ _ _ _ _ _ Hsl Hs) as (S1 & S2 & S3);
      [unfold iend; lia|done|].
    case_if; [unfold iend in *; lia|].
    apply wp_ret. split; [done|]. exists G1. unfold iend in *.
    split; [by rewrite Z.sub_add_distr|]. split_and?; try done; try lia.
  - apply Hkeep. intros y [Hy|Hy]%elem_of_app.
    + specialize (Hw y Hy). unfold iend in *. lia.
    + apply list_elem_of_singleton in Hy as ->. unfold iend. lia.
Qed.

Lemma freeSpace_find_spec p x R F :
  space p (x :: R) F ->
  wp (freeSpace_find x.1 x.2)
    (returns (fun '(iPtr, fb, st, e, sz) s => exists G1 G2,
       found p s R iPtr fb st e sz G1 G2)) p.
Proof.
  intros Hsp. pose proof (space_bounds _ _ _ Hsp) as (Ht & Hu & Hf).
  pose proof (sp_geom _ _ _ Hsp) as Hg.
  pose proof (page_geom_bounds p Hg) as (Hus & _ & Hok & Hh).
  pose proof (sp_size _ _ _ Hsp) as Hs. apply list.Forall_cons in Hs as [Hx Hs].
  pose proof (sp_inside _ _ _ Hsp) as Hin.
  assert (HinF : forall y, y ∈ F -> iend y <= usableSize (pBt p)).
  { intros y Hy. rewrite list.Forall_forall in Hin. apply Hin.
    rewrite elem_of_app. by right. }
  assert (Hinx : ptop p <= x.1 /\ iend x <= usableSize (pBt p)).
  { apply list.Forall_cons in Hin as [Hin _]. done. }
  unfold freeSpace_find. apply wp_bind, wp_gets. unfold after, id.
  eapply wp_seq.
  { eapply (freeSpace_loop_spec p _ x.1 _ _ F Hg (sp_chain _ _ _ Hsp)
      (sp_asc _ _ _ Hsp)); try lia; [done|].
    pose proof (ascending_length _ _ _ (sp_asc _ _ _ Hsp) HinF). lia. }
  intros r s (-> & F1 & F2 & -> & -> & HF1 & HF2).
  pose proof (space_slot _ _ _ _ _ Hsp HF1 HF2) as Hsl.
  pose proof (sp_chain _ _ _ Hsp) as Hc.
  apply chain_app in Hc as [Hseg [Hc1 Hl]%chain_links].
  assert (headptr F2 <= usableSize (pBt p) - 4).
  { destruct F2 as [|y F2]; cbn; [lia|]. destruct (sl_asc2 _ _ _ _ _ _ _ Hsl) as (_ & ? & _).
    assert (iend y <= usableSize (pBt p)); [|unfold iend in *; lia].
    apply HinF. rewrite elem_of_app. right. by left. }
  case_if; [lia|].
  eapply wp_seq; [apply coalesce_next_spec; done || lia|].
  intros [[[n1 e] sz] fb] s (-> & G2 & S1 & N1 & -> & Z1 & A1 & -> & L1).
  eapply wp_seq.
  { apply (coalesce_prev_spec p R (x.1, sz)); try done; cbn; lia. }
  intros [[n2 st] sz2] s (-> & G1 & S2 & N2 & E2 & Z2 & B2 & Sg2 & P2).
  unfold iend in E2; cbn in E2.
  apply wp_bind, wp_rd1; [lia|]. unfold after.
  pose proof (slot_frag _ _ _ _ _ _ _ (proj2 Ht) S2).
  unfold pfrag in *. case_if; [lia|].
  pose proof (bat_range (aData p) (hdrOffset p + 7) Hok).
  apply wp_bind, wp_wr1; [lia|]. intros d C Cv. apply wp_ret.
  exists G1, G2. split; cbn; try done.
  unfold pfrag. cbn. rewrite Cv. rewrite (u8_small n2), u8_small by lia. done.
Qed.

(** ** Linking the block in *)

Lemma kept_outside p R st sz G1 G2 frag j :
  hdrOffset p + 8 <= pfirst p <= ptop p -> ptop p <= usableSize (pBt p) ->
  slot (ptop p) (usableSize (pBt p)) R (st, sz) G1 G2 frag -> kept p R j ->
  (j < st \/ st + sz <= j) /\ (forall y, y ∈ G1 -> j < y.1 \/ iend y <= j) /\
  j <> hdrOffset p + 7 /\ (j < hdrOffset p + 1 \/ hdrOffset p + 3 <= j) /\
  (j < hdrOffset p + 5 \/ hdrOffset p + 7 <= j).
Proof.
  intros Hf Ht Hs Hk.
  destruct (slot_ends _ _ _ _ _ _ _ (st, sz) Hs) as [E1 E2]; [by left|].
  unfold iend in E1, E2. cbn in E1, E2.
  destruct (sl_disj _ _ _ _ _ _ _ Hs) as [D1 D2].
  apply pdisj_app in D2 as (_ & _ & D2).
  rewrite list.Forall_forall in D1, D2.
  assert (HR : forall r, r ∈ R -> ptop p <= r.1).
  { intros r Hr. pose proof (sl_in _ _ _ _ _ _ _ Hs) as Hi.
    rewrite list.Forall_forall in Hi. apply Hi.
    rewrite elem_of_cons, elem_of_app. tauto. }
  split.
  { destruct Hk as [|[|[|[|(r & Hr & Hj)]]]]; try lia.
    pose proof (D1 r ltac:(rewrite elem_of_app; tauto)) as D.
    unfold disj, iend in *. cbn in D. lia. }
  split.
  { intros y Hy. destruct (slot_ends _ _ _ _ _ _ _ y Hs) as [Y1 Y2]; [tauto|].
    destruct Hk as [|[|[|[|(r & Hr & Hj)]]]]; try lia.
    pose proof (D2 r Hr) as D. rewrite list.Forall_forall in D.
    specialize (D y ltac:(rewrite elem_of_app; tauto)).
    unfold disj, iend in *. lia. }
  destruct Hk as [|[|[|[|(r & Hr & Hj)]]]]; try lia.
  specialize (HR r Hr). lia.
Qed.

(** The page once the block is in the list. *)
Lemma link_space p d' R st sz G1 G2 lp frag :
  page_geom (set_aData d' p) -> Forall (fun r => 4 <= r.2) R ->
  hdrOffset p + 8 <= pfirst p <= ptop p -> ptop p <= usableSize (pBt p) ->
  slot (ptop p) (usableSize (pBt p)) R (st, sz) G1 G2 frag ->
  4 <= sz -> ptop p < st -> (forall y, y ∈ G1 -> iend y + 4 <= st) ->
  ascending (st + sz + 4) G2 ->
  seg (aData p) (hdrOffset p + 1) G1 -> links (aData p) G2 ->
  lp = lastptr (hdrOffset p + 1) G1 ->
  (forall j, j <> hdrOffset p + 7 -> j < lp \/ lp + 2 <= j ->
     j < st \/ st + sz <= j -> bat d' j = bat (aData p) j) ->
  bat d' (hdrOffset p + 7) = frag ->
  at2 d' lp = st -> at2 d' st = headptr G2 -> at2 d' (st + 2) = sz ->
  space (set_aData d' p) R (G1 ++ (st, sz) :: G2).
Proof.
  intros Hg Hs Hf Ht Hsl Hsz Hst Hb Ha Hseg Hl Hlp Hsame Hfr E1 E2 E3.
  assert (HG : forall y, y ∈ G1 \/ y ∈ G2 -> ptop p < y.1 /\ 4 <= y.2 /\
    (iend y + 4 <= st \/ st + sz + 4 <= y.1)).
  { intros y [Hy|Hy].
    - pose proof (ascending_inside _ _ _ (sl_asc1 _ _ _ _ _ _ _ Hsl) Hy).
      specialize (Hb y Hy). lia.
    - pose proof (ascending_inside _ _ _ Ha Hy). lia. }
  assert (Hlpb : lp = hdrOffset p + 1 \/ exists y, y ∈ G1 /\ lp = y.1).
  { subst lp. apply lastptr_elem. }
  assert (Hlp_out : forall j, lp <= j < lp + 2 -> j = hdrOffset p + 1 \/
    j = hdrOffset p + 2 \/ ptop p < j).
  { intros j Hj. destruct Hlpb as [->|(y & Hy & ->)]; [lia|].
    specialize (HG y (or_introl Hy)). lia. }
  assert (Htop : ptop (set_aData d' p) = ptop p).
  { unfold ptop. cbn. f_equal. apply at2_eq; apply Hsame; try lia;
      (destruct Hlpb as [->|(y & Hy & ->)]; [lia|];
       specialize (HG y (or_introl Hy)); lia). }
  assert (HGsame : forall G, (forall y, y ∈ G -> y ∈ G2) ->
    Forall (fun x => same_on (aData p) d' x.1 4) G).
  { intros G HGG. apply list.Forall_forall. intros y Hy j Hj.
    specialize (HGG y Hy). pose proof (HG y (or_intror HGG)).
    pose proof (ascending_inside _ _ _ Ha HGG).
    apply Hsame; [lia| |lia].
    destruct Hlpb as [->|(z & Hz & ->)]; [lia|]. specialize (Hb z Hz).
    pose proof (HG z (or_introl Hz)). unfold iend in *. lia. }
  assert (Hperm : Permutation (R ++ G1 ++ (st, sz) :: G2)
                              ((st, sz) :: R ++ G1 ++ G2)).
  { rewrite !app_assoc. symmetry. apply Permutation_middle. }
  split; try (rewrite Htop || rewrite Hperm); try done.
  - rewrite Hperm. apply (sl_in _ _ _ _ _ _ _ Hsl).
  - apply (sl_disj _ _ _ _ _ _ _ Hsl).
  - cbn [aData set_aData]. change (hdrOffset (set_aData d' p)) with (hdrOffset p).
    apply chain_app. rewrite <- Hlp. split.
    + eapply seg_last; [exact Hseg|apply (sl_asc1 _ _ _ _ _ _ _ Hsl)|lia|].
      rewrite <- Hlp. intros j Hj Hjl.
      apply Hsame; [|done|].
      * destruct Hj as [|(y & Hy & ?)]; [lia|].
        specialize (HG y (or_introl Hy)). lia.
      * destruct Hj as [|(y & Hy & ?)]; [lia|]. specialize (Hb y Hy).
        specialize (HG y (or_introl Hy)). unfold iend in *. lia.
    + cbn [chain fst snd]. split; [done|]. split; [done|].
      apply chain_links. split; [done|].
      eapply links_same; [exact Hl|]. by apply HGsame.
  - apply ascending_insert; try done.
    + apply (sl_asc1 _ _ _ _ _ _ _ Hsl).
    + cbn. lia.
  - unfold pfrag. cbn [aData set_aData hdrOffset]. rewrite Hperm, Hfr.
    apply (sl_total _ _ _ _ _ _ _ Hsl).
Qed.

(** The page once the block has been given to the gap. *)
Lemma link_space_top p d' R sz G2 frag :
  page_geom (set_aData d' p) -> Forall (fun r => 4 <= r.2) R ->
  hdrOffset p + 8 <= pfirst p <= ptop p -> ptop p <= usableSize (pBt p) ->
  slot (ptop p) (usableSize (pBt p)) R (ptop p, sz) [] G2 frag ->
  4 <= sz -> ascending (ptop p + sz + 4) G2 -> links (aData p) G2 ->
  (forall j, hdrOffset p + 8 <= j -> j < ptop p \/ ptop p + sz <= j ->
     bat d' j = bat (aData p) j) ->
  bat d' (hdrOffset p + 7) = frag ->
  at2 d' (hdrOffset p + 1) = headptr G2 ->
  at2 d' (hdrOffset p + 5) = u16 (ptop p + sz) ->
  space (set_aData d' p) R G2.
Proof.
  intros Hg Hs Hf Ht Hsl Hsz Ha Hl Hsame Hfr E1 E2.
  pose proof (page_geom_bounds _ Hg) as (Hu & Hb & _ & Hh). cbn in Hu, Hb, Hh.
  destruct (slot_ends _ _ _ _ _ _ _ (ptop p, sz) Hsl) as [X1 X2]; [by left|].
  unfold iend in X2. cbn in X1, X2.
  assert (Htop : ptop (set_aData d' p) = ptop p + sz).
  { unfold ptop at 1. cbn. rewrite E2. apply get2byteNotZero_small. lia. }
  destruct (sl_disj _ _ _ _ _ _ _ Hsl) as [D1 D2].
  pose proof (sl_in _ _ _ _ _ _ _ Hsl) as Hi.
  apply list.Forall_cons in Hi as [_ Hi]. cbn [app] in *.
  split; rewrite ?Htop; try done.
  - change (pfirst (set_aData d' p)) with (pfirst p). cbn. lia.
  - apply list.Forall_forall. intros r Hr. rewrite list.Forall_forall in D1, Hi.
    specialize (D1 r Hr). specialize (Hi r Hr).
    assert (4 <= r.2).
    { apply elem_of_app in Hr as [Hr|Hr].
      - rewrite list.Forall_forall in Hs. by apply Hs.
      - by destruct (ascending_inside _ _ _ Ha Hr). }
    unfold inside, disj, iend in *. cbn in *. lia.
  - apply chain_links. split; [done|]. eapply links_same; [exact Hl|].
    apply list.Forall_forall. intros y Hy j Hj.
    pose proof (ascending_inside _ _ _ Ha Hy). apply Hsame; lia.
  - eapply ascending_le; [|exact Ha]. lia.
  - unfold pfrag. cbn [aData set_aData hdrOffset pBt]. rewrite Hfr.
    pose proof (sl_total _ _ _ _ _ _ _ Hsl) as Htot. rewrite total_cons in Htot.
    cbn [app snd] in Htot. lia.
Qed.

Lemma changed_trans d d1 d2 a n b m :
  changed d d1 a n -> changed d1 d2 b m ->
  blen d2 = blen d /\ (bytes_ok d -> bytes_ok d2) /\
  forall j, j < a \/ a + n <= j -> j < b \/ b + m <= j -> bat d2 j = bat d j.
Proof.
  intros (L1 & O1 & A1) (L2 & O2 & A2). split; [by rewrite L2|].
  split; [auto|]. intros j H1 H2. by rewrite A2, A1.
Qed.

Lemma freeSpace_link_spec p s R x F iPtr fb st e sz G1 G2 :
  space p (x :: R) F -> found p s R iPtr fb st e sz G1 G2 ->
  wp (freeSpace_link iPtr fb st e sz)
    (returns (fun _ s' => exists d' F', s' = set_aData d' p /\
       frame p R d' /\ space s' R F')) s.
Proof.
  intros Hsp Hfo.
  pose proof (space_bounds _ _ _ Hsp) as (Ht & Hu & Hf).
  pose proof (sp_geom _ _ _ Hsp) as Hg.
  pose proof (page_geom_bounds p Hg) as (Hus & Hbl & Hok & Hh).
  pose proof (sp_size _ _ _ Hsp) as Hs. apply list.Forall_cons in Hs as [_ Hs].
  destruct Hfo as [Est C1 Hsl -> Hsz Hb Ha -> Hl Hseg Hptr].
  rewrite Est in Hsl |- *. clear Est. set (d1 := aData s) in *. clearbody d1. clear s.
  destruct (slot_ends _ _ _ _ _ _ _ (st, sz) Hsl) as [X1 X2]; [by left|].
  unfold iend in X2. cbn in X1, X2.
  destruct C1 as (L1 & O1 & A1). specialize (O1 Hok).
  assert (Hpt : hdrOffset p + 1 <= iPtr /\ iPtr + 3 < blen (aData p)).
  { destruct Hptr as [->|(-> & ? & ?)]; [|lia].
    destruct (lastptr_elem (hdrOffset p + 1) G1) as [->|(y & Hy & ->)]; [lia|].
    pose proof (ascending_inside _ _ _ (sl_asc1 _ _ _ _ _ _ _ Hsl) Hy).
    specialize (Hb y Hy). unfold iend in *. lia. }
  unfold freeSpace_link. apply wp_bind, wp_gets. unfold after, id.
  apply wp_bind, wp_rd2; [done|cbn; lia|cbn; lia|]. unfold after.
  cbn [aData set_aData hdrOffset].
  replace (at2 d1 (hdrOffset p + 5)) with (ptop p).
  2:{ rewrite <- (ptop_field p Hok) by lia. symmetry. apply at2_eq; apply A1; lia. }
  eapply (wp_seq _ _ _ (fun _ s => exists d2, s = set_aData d2 p /\ changed d1 d2 st sz)).
  { case_if.
    - apply wp_wrz; cbn; [lia|lia|lia|]. intros d2 C2 _. by exists d2.
    - apply wp_ret. exists d1. split; [done|]. by split. }
  intros _ s (d2 & -> & (L2 & O2 & A2)). specialize (O2 O1).
  case_if.
  - (* the block extends the gap *)
    case_if; [lia|].
    assert (st = ptop p) as -> by lia.
    assert (G1 = []) as ->.
    { destruct G1 as [|y G1]; [done|]. specialize (Hb y ltac:(by left)).
      destruct (sl_asc1 _ _ _ _ _ _ _ Hsl) as (? & ? & _). unfold iend in *. lia. }
    destruct Hptr as [->|(_ & ? & _)]; [|lia]. cbn [lastptr].
    case_if; [done|].
    apply wp_bind, wp_wr2; cbn [aData set_aData hdrOffset]; [lia|lia|].
    intros d3 (L3 & O3 & A3) V3. unfold after. specialize (O3 O2).
    apply wp_wr2; cbn [aData set_aData hdrOffset]; [lia|lia|].
    intros d4 (L4 & O4 & A4) V4. specialize (O4 O3).
    exists d4, G2. split; [done|]. 
    assert (Hall : forall j, j <> hdrOffset p + 7 ->
      (j < ptop p \/ ptop p + sz <= j) -> (j < hdrOffset p + 1 \/ hdrOffset p + 3 <= j) ->
      (j < hdrOffset p + 5 \/ hdrOffset p + 7 <= j) -> bat d4 j = bat (aData p) j).
    { intros j H1 H2 H3 H4. rewrite A4, A3, A2, A1 by lia. done. }
    split.
    { intros j Hj. destruct (kept_outside _ _ _ _ _ _ _ _ Hf (proj2 Ht) Hsl Hj) as (K1 & _ & K2 & K3 & K4).
      by apply Hall. }
    apply (link_space_top p d4 R sz G2 (pfrag (set_aData d1 p))); try done; try lia.
    + destruct Hg as (B1 & B2 & B3 & B4). split; [done|]. cbn.
      split; [done|]. split; [congruence|done].
    + intros j H1 H2. apply Hall; lia.
    + unfold pfrag. cbn. rewrite A4, A3, A2 by lia. done.
    + rewrite (at2_eq d3 d4) by (apply A4; lia). rewrite V3.
      apply u16_small. destruct G2 as [|y G2]; cbn; [lia|].
      destruct (slot_ends _ _ _ _ _ _ _ y Hsl) as [Y1 Y2]; [right; right; by left|].
      destruct Ha as (_ & ? & _). unfold iend in *. lia.
  - (* the block becomes a freeblock *)
    apply wp_bind, wp_wr2; cbn [aData set_aData hdrOffset]; [lia|lia|].
    intros d3 (L3 & O3 & A3) V3. unfold after. specialize (O3 O2).
    apply wp_bind, wp_wr2; cbn [aData set_aData hdrOffset]; [lia|lia|].
    intros d4 (L4 & O4 & A4) V4. unfold after. specialize (O4 O3).
    apply wp_wr2; cbn [aData set_aData hdrOffset]; [lia|lia|].
    intros d5 (L5 & O5 & A5) V5. specialize (O5 O4).
    exists d5, (G1 ++ (st, sz) :: G2). split; [done|].
    set (lp := lastptr (hdrOffset p + 1) G1) in *.
    assert (Hlp : lp = hdrOffset p + 1 \/ exists y, y ∈ G1 /\ lp = y.1)
      by apply lastptr_elem.
    assert (Hlpst : lp + 2 <= st).
    { destruct Hlp as [->|(y & Hy & ->)]; [lia|].
      pose proof (ascending_inside _ _ _ (sl_asc1 _ _ _ _ _ _ _ Hsl) Hy).
      specialize (Hb y Hy). unfold iend in *. lia. }
    assert (Hlp7 : lp + 2 <= hdrOffset p + 7 \/ hdrOffset p + 8 <= lp).
    { destruct Hlp as [->|(y & Hy & ->)]; [lia|].
      pose proof (ascending_inside _ _ _ (sl_asc1 _ _ _ _ _ _ _ Hsl) Hy). lia. }
    assert (Hall : forall j, j <> hdrOffset p + 7 -> j < lp \/ lp + 2 <= j ->
      (j < st \/ st + sz <= j) -> bat d5 j = bat (aData p) j).
    { intros j H1 H2 H3. rewrite A5, A4, A3, A2, A1; try lia. }
    split.
    { intros j Hj. destruct (kept_outside _ _ _ _ _ _ _ _ Hf (proj2 Ht) Hsl Hj) as (K1 & K5 & K2 & K3 & K4).
      apply Hall; try done. destruct Hlp as [->|(y & Hy & ->)]; [lia|].
      pose proof (ascending_inside _ _ _ (sl_asc1 _ _ _ _ _ _ _ Hsl) Hy).
      specialize (K5 y Hy). unfold iend in *. lia. }
    apply (link_space p d5 R st sz G1 G2 lp (pfrag (set_aData d1 p))); try done; try lia.
    + destruct Hg as (B1 & B2 & B3 & B4). split; [done|]. cbn.
      split; [done|]. split; [congruence|done].
    + unfold pfrag. cbn. rewrite A5, A4, A3, A2; try lia; done.
    + rewrite (at2_eq d4 d5), (at2_eq d3 d4) by (apply A5 || apply A4; lia).
      destruct Hptr as [->|(-> & Hp1 & Hp2)].
      * rewrite V3. apply u16_small. lia.
      * rewrite (at2_eq d2 d3), (at2_eq d1 d2), (at2_eq (aData p) d1), Hp2;
          first [done | apply A1; lia | apply A2; lia | apply A3; lia].
    + rewrite (at2_eq d4 d5) by (apply A5; lia). rewrite V4. apply u16_small.
      destruct G2 as [|y G2]; cbn; [lia|].
      destruct (slot_ends _ _ _ _ _ _ _ y Hsl) as [Y1 Y2]; [right; right; by left|].
      destruct Ha as (_ & ? & _). unfold iend in *. lia.
    + rewrite V5, !u16_small; [done|lia|]. rewrite u16_small; lia.
Qed.

Lemma bytes_zero_at2 d i :
  bytes_ok d -> ((bat d (i + 1) =? 0) && (bat d i =? 0) = true <-> at2 d i = 0).
Proof.
  intros Hd. unfold at2. pose proof (bat_range d i Hd).
  pose proof (bat_range d (i + 1) Hd).
  rewrite andb_true_iff, !Z.eqb_eq. lia.
Qed.

Lemma space_set_nFree p n R F : space p R F -> space (set_nFree n p) R F.
Proof. intros []. by split. Qed.

(** A region in use goes back to the free space: the others and everything
    outside the content area keep their bytes. *)
Lemma freeSpace_spec p x R F :
  space p (x :: R) F ->
  wp (freeSpace x.1 x.2)
    (returns (fun _ s => exists d' F',
       s = set_nFree (nFree p + x.2) (set_aData d' p) /\
       frame p R d' /\ space s R F')) p.
Proof.
  intros Hsp. pose proof (space_bounds _ _ _ Hsp) as (Ht & Hu & Hf).
  pose proof (sp_geom _ _ _ Hsp) as Hg.
  pose proof (page_geom_bounds p Hg) as (Hus & _ & Hok & Hh).
  unfold freeSpace. apply wp_bind, wp_gets. unfold after, id.
  apply wp_bind, wp_rd1; [lia|]. unfold after.
  apply wp_bind, wp_rd1; [lia|]. unfold after.
  eapply (wp_seq _ _ _ (fun '(iPtr, fb, st, e, sz) s => exists G1 G2,
       found p s R iPtr fb st e sz G1 G2)).
  { case_match eqn:E; [|by apply freeSpace_find_spec with (F := F)].
    apply bytes_zero_at2 in E; [|done]. apply wp_ret.
    pose proof (sp_size _ _ _ Hsp) as Hs. apply list.Forall_cons in Hs as [Hx Hs].
    assert (F = []) as ->.
    { destruct F as [|y F]; [done|]. destruct (sp_chain _ _ _ Hsp) as [C _].
      destruct (sp_asc _ _ _ Hsp) as [A _]. lia. }
    exists [], []. split; try done.
    - by destruct p.
    - pose proof (space_slot p x R [] [] Hsp) as S. destruct x. apply S; [|by left].
      by intros y ?%elem_of_nil.
    - by intros y ?%elem_of_nil.
    - by left. }
  intros [[[[iPtr fb] st] e] sz] s (G1 & G2 & Hfo).
  eapply wp_seq; [by eapply freeSpace_link_spec|].
  intros [] s' (d' & F' & -> & Hfr & Hsp'). apply wp_modify.
  exists d', F'. split; [done|]. split; [done|]. by apply space_set_nFree.
Qed.
