(* ===== verification/BtDefrag.v ===== *)
(** * Defragmenting a b-tree page: [defragmentPage] ([src/src/btree.c]) *)
From S2P Require Import Prelude Bits Bytes Varint BtPage Interval BtRep.

(** ** Definitions *)

(** [for(pAddr=&data[cellOffset]; pAddr<pEnd; pAddr+=2)], [n] pointers left. *)
Fixpoint shift_loop (n : nat) (pAddr iFree sz iFree2 sz2 : Z) : M MemPage unit :=
  match n with
  | O => ret tt
  | S n =>
      let* pc := rd2 pAddr in
      (if pc <? iFree then wr2 pAddr (pc + sz)
       else if pc <? iFree2 then wr2 pAddr (pc + sz2)
       else ret tt) ;;*
      shift_loop n (pAddr + 2) iFree sz iFree2 sz2
  end.

(** The block that moves at most two runs of cells; [None] when the code goes
    on to rebuild the page, otherwise the new start of the content area. *)
Definition defragment_fast (nMaxFrag : Z) : M MemPage (option Z) :=
  let* p := gets id in
  let hdr := hdrOffset p in
  let usz := usableSize (pBt p) in
  let* frag := rd1 (hdr + 7) in
  if frag <=? nMaxFrag then
    let* iFree := rd2 (hdr + 1) in
    if usz - 4 <? iFree then fail SQLITE_CORRUPT else
    if iFree =? 0 then ret None else
    let* iFree2 := rd2 iFree in
    if usz - 4 <? iFree2 then fail SQLITE_CORRUPT else
    let* last :=
      (if 0 =? iFree2 then ret true
       else let* b0 := rd1 iFree2 in
            if b0 =? 0 then let* b1 := rd1 (iFree2 + 1) in ret (b1 =? 0)
            else ret false) in
    if (last : bool) then
      let* sz := rd2 (iFree + 2) in
      let* top := rd2 (hdr + 5) in
      if iFree <=? top then fail SQLITE_CORRUPT else
      let* r :=
        (if negb (iFree2 =? 0) then
           if iFree2 <? iFree + sz then fail SQLITE_CORRUPT else
           let* sz2 := rd2 (iFree2 + 2) in
           if usz <? iFree2 + sz2 then fail SQLITE_CORRUPT else
           mv (iFree + sz + sz2) (iFree + sz) (iFree2 - (iFree + sz)) ;;*
           ret (sz + sz2, sz2)
         else if usz <? iFree + sz then fail SQLITE_CORRUPT
         else ret (sz, 0)) in
      let '(sz, sz2) := r in
      let cbrk := top + sz in
      mv cbrk top (iFree - top) ;;*
      shift_loop (Z.to_nat (nCell p)) (cellOffset p) iFree sz iFree2 sz2 ;;*
      ret (Some cbrk)
    else ret None
  else ret None.

(** The rebuild: cell [i] is copied from [src], the image saved at the start. *)
Fixpoint rebuild_loop (n : nat) (i iCellLast iCellStart cbrk : Z) (src : bytes)
    : M MemPage Z :=
  match n with
  | O => ret cbrk
  | S n =>
      let* p := gets id in
      let pAddr := cellOffset p + i * 2 in
      let* pc := rd2 pAddr in
      if iCellLast <? pc then fail SQLITE_CORRUPT else
      let* size := lift (c ← bfrom src pc; xCellSize p c) in
      let cbrk := cbrk - size in
      if (cbrk <? iCellStart) || (usableSize (pBt p) <? pc + size)
      then fail SQLITE_CORRUPT else
      wr2 pAddr cbrk ;;*
      let* s := lift (bsub src pc size) in
      wrn cbrk s ;;*
      rebuild_loop n (i + 1) iCellLast iCellStart cbrk src
  end.

Definition defragment_slow : M MemPage Z :=
  let* p := gets id in
  let usz := usableSize (pBt p) in
  let hdr := hdrOffset p in
  let* iCellStart := rd2 (hdr + 5) in
  let* cbrk :=
    (if 0 <? nCell p then
       let* src := lift (bsub (aData p) 0 usz) in
       rebuild_loop (Z.to_nat (nCell p)) 0 (usz - 4) iCellStart usz src
     else ret usz) in
  wr1 (hdr + 7) 0 ;;*
  ret cbrk.

(** [defragment_out:]. *)
Definition defragment_out (cbrk : Z) : M MemPage unit :=
  let* p := gets id in
  let hdr := hdrOffset p in
  let iCellFirst := cellOffset p + 2 * nCell p in
  let* frag := rd1 (hdr + 7) in
  if negb (frag + cbrk - iCellFirst =? nFree p) then fail SQLITE_CORRUPT else
  wr2 (hdr + 5) cbrk ;;*
  wr1 (hdr + 1) 0 ;;*
  wr1 (hdr + 2) 0 ;;*
  wrz iCellFirst (cbrk - iCellFirst).

Definition defragmentPage (nMaxFrag : Z) : M MemPage unit :=
  let* f := defragment_fast nMaxFrag in
  let* cbrk := match f with Some cbrk => ret cbrk | None => defragment_slow end in
  defragment_out cbrk.

(** ** Cells stacked downwards *)

(** The cells [cs] packed below [hi]. *)
Fixpoint stack (hi : Z) (cs : list bytes) : list placed :=
  match cs with
  | [] => []
  | c :: cs => (hi - blen c, c) :: stack (hi - blen c) cs
  end.
Definition sizes (cs : list bytes) : Z := foldr (fun c s => blen c + s) 0 cs.

Lemma sizes_cons c cs : sizes (c :: cs) = blen c + sizes cs.
Proof. done. Qed.
Lemma sizes_nonneg cs : 0 <= sizes cs.
Proof.
  induction cs as [|c cs IH]; [done|]. rewrite sizes_cons.
  pose proof (blen_nonneg c). lia.
Qed.
Lemma stack_snd hi cs : (stack hi cs).*2 = cs.
Proof. revert hi. induction cs; intros; cbn; f_equal; auto. Qed.
Lemma stack_length hi cs : length (stack hi cs) = length cs.
Proof. revert hi. induction cs; intros; cbn; auto. Qed.

Lemma total_regions (cl : list placed) : total (region <$> cl) = sizes cl.*2.
Proof.
  induction cl as [|x cl IH]; [done|]. rewrite !fmap_cons, total_cons, sizes_cons, IH.
  done.
Qed.

Lemma stack_inside hi cs x :
  x ∈ stack hi cs -> hi - sizes cs <= x.1 /\ x.1 + blen x.2 <= hi /\ x.2 ∈ cs.
Proof.
  revert hi. induction cs as [|c cs IH]; intros hi; cbn [stack].
  { by intros ?%elem_of_nil. }
  rewrite sizes_cons. pose proof (sizes_nonneg cs). pose proof (blen_nonneg c).
  intros [->|Hx]%elem_of_cons; cbn [fst snd].
  - split; [lia|]. split; [lia|]. by left.
  - destruct (IH _ Hx) as (? & ? & ?). split; [lia|]. split; [lia|]. by right.
Qed.

Lemma stack_disj hi cs : pdisj (region <$> stack hi cs).
Proof.
  revert hi. induction cs as [|c cs IH]; intros hi; [done|].
  cbn [stack]. rewrite fmap_cons. split; [|apply IH].
  apply list.Forall_forall. intros r Hr.
  apply list_elem_of_fmap in Hr as (x & -> & Hx).
  apply stack_inside in Hx as (? & ? & _). unfold disj, iend, region. cbn. lia.
Qed.

(** ** Rebuilding the page *)

Definition outside (lo1 hi1 lo2 hi2 j : Z) : Prop :=
  (j < lo1 \/ hi1 <= j) /\ (j < lo2 \/ hi2 <= j).

Lemma rebuild_spec p src rest i iCellStart cbrk d :
  page_geom p -> bytes_ok d -> blen d = blen (aData p) ->
  bytes_ok src -> blen src = usableSize (pBt p) ->
  0 <= cellOffset p -> 0 <= i ->
  cellOffset p + 2 * (i + Z.of_nat (length rest)) <= iCellStart ->
  iCellStart <= cbrk - sizes rest.*2 -> cbrk <= usableSize (pBt p) ->
  (forall j x, rest !! j = Some x ->
     at2 d (cellOffset p + 2 * (i + Z.of_nat j)) = x.1) ->
  (forall x, x ∈ rest -> 0 <= x.1 /\ x.1 + blen x.2 <= usableSize (pBt p) /\
     4 <= blen x.2 /\ cell_ok p x.2 /\ holds src x.1 x.2) ->
  wp (rebuild_loop (length rest) i (usableSize (pBt p) - 4) iCellStart cbrk src)
    (returns (fun r s => r = cbrk - sizes rest.*2 /\ exists d', s = set_aData d' p /\
       bytes_ok d' /\ blen d' = blen d /\
       (forall j x, stack cbrk rest.*2 !! j = Some x ->
          at2 d' (cellOffset p + 2 * (i + Z.of_nat j)) = x.1 /\ holds d' x.1 x.2) /\
       (forall j, outside (cellOffset p + 2 * i)
          (cellOffset p + 2 * (i + Z.of_nat (length rest)))
          (cbrk - sizes rest.*2) cbrk j -> bat d' j = bat d j)))
    (set_aData d p).
Proof.
  intros Hg Hd Hl Hsrc Hls Hco. 
  pose proof (page_geom_bounds p Hg) as (Hu & Hbl & _ & _).
  revert i cbrk d Hd Hl. induction rest as [|x rest IH];
    intros i cbrk d Hd Hl Hi Hst Hcb Hcu Hptr Hin.
  { cbn [length rebuild_loop fmap list_fmap stack sizes foldr].
    apply wp_ret. split; [lia|]. exists d. repeat (split; [done|]). done. }
  cbn [length rebuild_loop] in *. rewrite fmap_cons in *. rewrite sizes_cons in *.
  pose proof (sizes_nonneg rest.*2).
  destruct (Hin x) as (X1 & X2 & X3 & X4 & X5); [by left|].
  apply wp_bind, wp_gets. unfold after, id. cbn [cellOffset set_aData pBt].
  assert (Hp0 : at2 d (cellOffset p + i * 2) = x.1).
  { rewrite <- (Hptr O x eq_refl). f_equal. lia. }
  apply wp_bind, wp_rd2; cbn [aData set_aData]; [done|lia|lia|]. unfold after.
  rewrite Hp0. case_if; [lia|]. apply wp_bind.
  eapply wp_lift; [apply (cell_size_at p src x.1 x.2); done || lia|]. unfold after.
  case_if; [apply orb_prop in Hif0; destruct Hif0; zb; lia|].
  apply wp_bind, wp_wr2; cbn [aData set_aData]; [lia|lia|].
  intros d1 C1 V1. unfold after. destruct C1 as (L1 & O1 & A1).
  destruct (bsub_in src x.1 (blen x.2)) as [c Ec]; [done|lia|lia|].
  apply wp_bind. eapply wp_lift; [exact Ec|]. unfold after.
  assert (c = x.2) as ->.
  { apply bytes_ext; rewrite (bsub_len _ _ _ _ Ec); [done|].
    intros j Hj. rewrite (bsub_at _ _ _ _ _ Ec) by done. by apply X5. }
  apply wp_bind, wp_wrn; cbn [aData set_aData]; [apply X4|lia|lia|].
  intros d2 C2 V2. unfold after. destruct C2 as (L2 & O2 & A2).
  change (set_aData d2 _) with (set_aData d2 p).
  eapply okp_mono.
  { apply (IH (i + 1) (cbrk - blen x.2) d2); try lia; [auto| |].
    - intros j y Hj. rewrite <- (Hptr (S j) y Hj).
      replace (i + 1 + Z.of_nat j) with (i + Z.of_nat (S j)) by lia.
      pose proof (lookup_lt_Some _ _ _ Hj).
      rewrite (at2_eq d1 d2), (at2_eq d d1); first [done|apply A1; lia|apply A2; lia].
    - intros y Hy. apply Hin. by right. }
  intros r s (-> & d' & -> & Hd' & Hl' & Hst' & Hout). split; [lia|].
  exists d'. split; [done|]. split; [done|]. split; [lia|]. split.
  - intros [|j] y; cbn [stack lookup list_lookup]; [intros [= <-]|intros Hj].
    + cbn [fst snd]. split.
      * rewrite (at2_eq d2 d'), (at2_eq d1 d2);
          first [done|apply A2; lia|apply Hout; split; lia|idtac].
        replace (cellOffset p + 2 * (i + Z.of_nat 0)) with (cellOffset p + i * 2) by lia.
        rewrite V1. apply u16_small. lia.
      * eapply holds_same; [exact V2|]. intros j Hj. apply Hout. split; lia.
    + replace (i + Z.of_nat (S j)) with (i + 1 + Z.of_nat j) by lia. by apply Hst'.
  - intros j [Ho1 Ho2]. rewrite Hout, A2, A1 by (unfold outside in *; lia). done.
Qed.

(** The bytes no space operation changes: up to the page type, and beyond the
    usable part of the page. *)
Definition edges (p : MemPage) (d' : bytes) : Prop :=
  bytes_ok d' /\ blen d' = blen (aData p) /\
  forall j, j <= hdrOffset p \/ usableSize (pBt p) <= j ->
    bat d' j = bat (aData p) j.

(** A page whose cells lie above [cbrk], with [frag] bytes between them. *)
Record packed (p : MemPage) (d : bytes) (cl : list placed) (cbrk frag : Z)
    : Prop := {
  pk_edges : edges p d;
  pk_ncell : nCell p = Z.of_nat (length cl);
  pk_hdr : at2 d (hdrOffset p + 3) = nCell p;
  pk_ptr : forall i x, cl !! i = Some x ->
    at2 d (cellOffset p + 2 * Z.of_nat i) = x.1;
  pk_cell : Forall (fun x => cell_ok p x.2 /\ holds d x.1 x.2) cl;
  pk_first : pfirst p <= cbrk <= usableSize (pBt p);
  pk_inside : Forall (inside cbrk (usableSize (pBt p))) (region <$> cl);
  pk_disj : pdisj (region <$> cl);
  pk_frag : bat d (hdrOffset p + 7) = frag;
  pk_total : total (region <$> cl) + frag = usableSize (pBt p) - cbrk;
}.

Lemma geom_first p : page_geom p -> 0 <= nCell p ->
  hdrOffset p + 8 <= cellOffset p /\ cellOffset p <= pfirst p.
Proof.
  intros (_ & _ & _ & _ & Hcp & _ & Hoff & _) Hn. unfold pfirst.
  destruct (pkind p); lia.
Qed.

Lemma defragment_out_spec p d cl cbrk frag :
  page_geom p -> packed p d cl cbrk frag ->
  nFree p = frag + cbrk - pfirst p ->
  wp (defragment_out cbrk)
    (returns (fun _ s => exists d', s = set_aData d' p /\ edges p d' /\
       page_rep s cl [] /\ ptop s = cbrk /\ pfrag s = frag)) (set_aData d p).
Proof.
  intros Hg [(Hok & Hl & He) Hn Hh Hp Hc Hf Hi Hd Hfr Ht] Hnf.
  pose proof (page_geom_bounds p Hg) as (Hu & Hbl & _ & Hho).
  destruct (geom_first p Hg) as [Hg1 Hg2]; [lia|].
  unfold defragment_out. apply wp_bind, wp_gets. unfold after, id.
  apply wp_bind, wp_rd1; cbn [aData set_aData hdrOffset]; [lia|]. unfold after.
  rewrite Hfr. change (nFree (set_aData d p)) with (nFree p).
  change (cellOffset (set_aData d p) + 2 * nCell (set_aData d p)) with (pfirst p).
  case_if; [lia|]. clear Hif.
  apply wp_bind, wp_wr2; cbn [aData set_aData hdrOffset]; [lia|lia|].
  intros d1 (L1 & O1 & A1) V1. specialize (O1 Hok). unfold after.
  apply wp_bind, wp_wr1; cbn [aData set_aData hdrOffset]; [lia|].
  intros d2 (L2 & O2 & A2) V2. specialize (O2 O1). unfold after.
  apply wp_bind, wp_wr1; cbn [aData set_aData hdrOffset]; [lia|].
  intros d3 (L3 & O3 & A3) V3. specialize (O3 O2). unfold after.
  apply wp_wrz; cbn [aData set_aData hdrOffset]; [lia|lia|lia|].
  intros d4 (L4 & O4 & A4) V4. specialize (O4 O3).
  assert (Hall : forall j, j <= hdrOffset p \/ hdrOffset p + 3 <= j < hdrOffset p + 5 \/
     hdrOffset p + 7 <= j < pfirst p \/ cbrk <= j -> bat d4 j = bat d j).
  { intros j Hj. rewrite A4, A3, A2, A1 by lia. done. }
  assert (Htop : ptop (set_aData d4 p) = cbrk).
  { unfold ptop. cbn. rewrite (at2_eq d1 d4), V1.
    - apply get2byteNotZero_small. lia.
    - rewrite A4, A3, A2 by lia. done.
    - rewrite A4, A3, A2 by lia. done. }
  change (set_aData d4 _) with (set_aData d4 p).
  exists d4. split; [done|]. split.
  { split; [done|]. split; [lia|]. intros j Hj. rewrite Hall by lia. by apply He. }
  split; [|split; [done|]].
  2:{ unfold pfrag. cbn. rewrite Hall by lia. done. }
  split; rewrite ?Htop, ?app_nil_r; try done.
  - apply page_geom_data; [done|done|lia].
  - cbn. rewrite (at2_eq d d4); [done|apply Hall; lia|apply Hall; lia].
  - intros i x Hx. cbn. specialize (Hp i x Hx). apply lookup_lt_Some in Hx.
    unfold pfirst in *. rewrite (at2_eq d d4); [done|apply Hall; lia|apply Hall; lia].
  - apply list.Forall_forall. rewrite list.Forall_forall in Hc. rewrite list.Forall_forall in Hi. intros x Hx.
    destruct (Hc x Hx) as [Hx1 Hx2]. split; [done|]. cbn.
    eapply holds_same; [exact Hx2|]. intros j Hj. apply Hall.
    destruct (Hi (region x)) as [Hx3 _]; [by apply list_elem_of_fmap_2|].
    cbn in Hx3. lia.
  - cbn. unfold at2. replace (hdrOffset p + 1 + 1) with (hdrOffset p + 2) by lia.
    rewrite (A4 (hdrOffset p + 1)), A3, V2, A4, V3 by lia. done.
  - unfold pfrag. cbn [aData set_aData hdrOffset]. rewrite Hall, Hfr by lia. done.
Qed.

Lemma rep_bounds p cl F :
  page_rep p cl F ->
  pfirst p <= ptop p <= usableSize (pBt p) /\ usableSize (pBt p) <= blen (aData p) /\
  bytes_ok (aData p) /\ 0 <= hdrOffset p <= 100 /\
  hdrOffset p + 8 <= cellOffset p <= pfirst p /\
  pfirst p = cellOffset p + 2 * Z.of_nat (length cl) /\
  480 <= usableSize (pBt p) <= 65536 /\ blen (aData p) <= 65536.
Proof.
  intros H. pose proof (rep_geom _ _ _ H) as Hg.
  pose proof (page_geom_bounds p Hg). pose proof (rep_first _ _ _ H).
  pose proof (rep_ncell _ _ _ H). pose proof (geom_first p Hg).
  unfold pfirst in *. split_and?; try lia; tauto.
Qed.

Lemma rep_total p cl F :
  page_rep p cl F ->
  sizes cl.*2 + total F + pfrag p = usableSize (pBt p) - ptop p /\
  0 <= total F /\ 0 <= pfrag p < 256.
Proof.
  intros H. pose proof (rep_total _ _ _ H) as Ht.
  rewrite total_app, total_regions in Ht. split; [lia|]. split.
  - apply total_nonneg. pose proof (ascending_sizes _ _ (rep_asc _ _ _ H)) as Hs.
    eapply Forall_impl; [|exact Hs]. cbn. lia.
  - apply bat_range, (rep_bounds _ _ _ H).
Qed.

Lemma holds_sub d src n a c :
  bsub d 0 n = Some src -> holds d a c -> 0 <= a -> a + blen c <= n ->
  holds src a c.
Proof.
  intros Hs Hh H1 H2 j Hj. rewrite (bsub_at _ _ _ _ _ Hs) by lia.
  rewrite Z.add_0_l. by apply Hh.
Qed.

Lemma defragment_slow_spec p cl F :
  page_rep p cl F ->
  wp defragment_slow (returns (fun r s => exists d', s = set_aData d' p /\
    packed p d' (stack (usableSize (pBt p)) cl.*2) r 0)) p.
Proof.
  intros H. pose proof (rep_bounds _ _ _ H) as (B1 & B2 & B3 & B4 & B5 & B6 & B7 & B8).
  pose proof (rep_total _ _ _ H) as (T1 & T2 & T3).
  pose proof (rep_geom _ _ _ H) as Hg. pose proof (rep_ncell _ _ _ H) as Hn.
  unfold defragment_slow. apply wp_bind, wp_gets. unfold after, id.
  apply wp_bind, wp_rd2; [done|lia|lia|]. unfold after.
  eapply (wp_seq _ _ _ (fun r s => r = usableSize (pBt p) - sizes cl.*2 /\
    exists d', s = set_aData d' p /\ bytes_ok d' /\ blen d' = blen (aData p) /\
    (forall j x, stack (usableSize (pBt p)) cl.*2 !! j = Some x ->
      at2 d' (cellOffset p + 2 * Z.of_nat j) = x.1 /\ holds d' x.1 x.2) /\
    (forall j, outside (cellOffset p) (pfirst p)
      (ptop p) (usableSize (pBt p)) j -> bat d' j = bat (aData p) j))).
  { case_if.
    - destruct (bsub_in (aData p) 0 (usableSize (pBt p))) as [src Es]; [lia|lia|lia|].
      apply wp_bind. eapply wp_lift; [exact Es|]. unfold after.
      assert (ptop p < 65536).
      { destruct cl as [|x cl]; [cbn in Hn; lia|].
        destruct (rep_inside_cell _ _ _ x H) as (? & ? & ? & _); [by left|lia]. }
      rewrite (ptop_field p B3) by done. rewrite Hn, Nat2Z.id.
      pose proof (rebuild_spec p src cl 0 (ptop p) (usableSize (pBt p)) (aData p) Hg)
        as Hr. rewrite set_aData_id in Hr.
      eapply okp_mono.
      + apply Hr; try done; try lia.
        * by eapply bsub_ok.
        * by eapply bsub_len.
        * intros j x Hj. rewrite Z.add_0_l. by apply (rep_ptr _ _ _ H).
        * intros x Hx. destruct (rep_inside_cell _ _ _ x H Hx) as (X1 & X2 & X3 & X4 & X5).
          split; [lia|]. split; [done|]. split; [done|]. split; [done|].
          eapply holds_sub; [exact Es|done|lia|done].
      + intros r s (-> & d' & -> & H1 & H2 & H3 & H4). split; [done|].
        exists d'. split; [done|]. split; [done|]. split; [done|].
        split; [exact H3|]. intros j Hj. apply H4. unfold outside in *. lia.
    - assert (cl = []) as -> by (destruct cl; [done|cbn in Hn; lia]).
      apply wp_ret. cbn. split; [lia|]. exists (aData p).
      split; [by destruct p|]. repeat (split; [done|]). done. }
  intros r s (-> & d & -> & Hd & Hl & Hst & Hout).
  apply wp_bind, wp_wr1; cbn [aData set_aData]; [lia|].
  intros d1 (L1 & O1 & A1) V1. specialize (O1 Hd). apply wp_ret.
  exists d1. split; [done|].
  assert (Hall : forall j, j <> hdrOffset p + 7 -> outside (cellOffset p) (pfirst p)
      (ptop p) (usableSize (pBt p)) j -> bat d1 j = bat (aData p) j).
  { intros j H1 H2. rewrite A1, Hout by (done || lia). done. }
  assert (Hst1 : forall x, x ∈ stack (usableSize (pBt p)) cl.*2 ->
     usableSize (pBt p) - sizes cl.*2 <= x.1 /\ 
     x.1 + blen x.2 <= usableSize (pBt p) /\ cell_ok p x.2).
  { intros x Hx. apply stack_inside in Hx as (H1 & H2 & H3). split; [done|].
    split; [done|]. apply list_elem_of_fmap in H3 as (y & -> & Hy).
    apply (rep_inside_cell _ _ _ y H Hy). }
  split.
  - split; [done|]. split; [lia|]. intros j Hj. apply Hall; [lia|split; lia].
  - by rewrite stack_length, length_fmap.
  - rewrite <- (rep_hdr _ _ _ H). apply at2_eq; (apply Hall; [lia|split; lia]).
  - intros i x Hx. pose proof (lookup_lt_Some _ _ _ Hx) as Hlt.
    rewrite stack_length, length_fmap in Hlt.
    rewrite (at2_eq d d1); [by apply Hst|apply A1; lia|apply A1; lia].
  - apply list.Forall_forall. intros x Hx. destruct (Hst1 x Hx) as (H1 & H2 & H3).
    split; [done|]. apply list_elem_of_lookup_1 in Hx as [i Hi].
    eapply holds_same; [by apply (Hst i x Hi)|]. intros j Hj. apply A1. lia.
  - pose proof (sizes_nonneg cl.*2). lia.
  - apply list.Forall_forall. intros r Hr.
    apply list_elem_of_fmap in Hr as (x & -> & Hx). 
    destruct (Hst1 x Hx) as (H1 & H2 & H3). split; [done|]. done.
  - apply stack_disj.
  - by rewrite V1.
  - rewrite total_regions, stack_snd. lia.
Qed.

(** ** Moving at most two runs of cells *)

Definition shf (iFree sz iFree2 sz2 pc : Z) : Z :=
  if pc <? iFree then pc + sz else if pc <? iFree2 then pc + sz2 else pc.

Lemma shift_loop_spec p d n pAddr iFree sz iFree2 sz2 (l : list Z) :
  length l = n -> bytes_ok d -> 0 <= pAddr ->
  pAddr + 2 * Z.of_nat n <= blen d ->
  (forall j pc, l !! j = Some pc -> at2 d (pAddr + 2 * Z.of_nat j) = pc /\
     0 <= shf iFree sz iFree2 sz2 pc < 65536) ->
  wp (shift_loop n pAddr iFree sz iFree2 sz2)
    (returns (fun _ s => exists d', s = set_aData d' p /\
       bytes_ok d' /\ blen d' = blen d /\
       (forall j pc, l !! j = Some pc ->
          at2 d' (pAddr + 2 * Z.of_nat j) = shf iFree sz iFree2 sz2 pc) /\
       (forall j, j < pAddr \/ pAddr + 2 * Z.of_nat n <= j -> bat d' j = bat d j)))
    (set_aData d p).
Proof.
  revert l pAddr d. induction n as [|n IH]; intros l pAddr d Hn Hd Hp Hl Hptr;
    cbn [shift_loop].
  { destruct l; [|done]. apply wp_ret. exists d. repeat (split; [done|]). done. }
  destruct l as [|pc l]; [done|]. injection Hn as Hn.
  destruct (Hptr O pc eq_refl) as [P1 P2]. rewrite Z.add_0_r in P1.
  apply wp_bind, wp_rd2; cbn [aData set_aData]; [done|lia|lia|]. unfold after.
  rewrite P1.
  eapply (wp_seq _ _ _ (fun _ s => exists d1, s = set_aData d1 p /\
    changed d d1 pAddr 2 /\ at2 d1 pAddr = shf iFree sz iFree2 sz2 pc)).
  { unfold shf in *. case_if; [|case_if].
    - apply wp_wr2; cbn [aData set_aData]; [lia|lia|]. intros d1 C1 V1.
      exists d1. split; [done|]. split; [done|]. by rewrite V1, u16_small.
    - apply wp_wr2; cbn [aData set_aData]; [lia|lia|]. intros d1 C1 V1.
      exists d1. split; [done|]. split; [done|]. by rewrite V1, u16_small.
    - apply wp_ret. exists d. repeat split; done. }
  intros _ s (d1 & -> & (L1 & O1 & A1) & V1). specialize (O1 Hd).
  eapply okp_mono.
  { apply (IH l (pAddr + 2) d1 Hn O1); [lia|lia|].
    intros j q Hj. destruct (Hptr (S j) q Hj) as [Q1 Q2]. split; [|done].
    rewrite <- Q1. replace (pAddr + 2 + 2 * Z.of_nat j) with
      (pAddr + 2 * Z.of_nat (S j)) by lia. apply at2_eq; apply A1; lia. }
  intros _ s (d' & -> & Hd' & Hl' & Hq & Hout). exists d'.
  split; [done|]. split; [done|]. split; [lia|]. split.
  - intros [|j] q Hj.
    + injection Hj as <-. rewrite Z.add_0_r, <- V1.
      apply at2_eq; apply Hout; lia.
    + replace (pAddr + 2 * Z.of_nat (S j)) with (pAddr + 2 + 2 * Z.of_nat j) by lia.
      by apply Hq.
  - intros j Hj. rewrite Hout, A1 by lia. done.
Qed.

(** The image [d2] holds the cells moved by [f]: those before the block at
    [a] by [sz1 + sz2], those before the block at [b] by [sz2]. *)
Lemma shift_packed p cl F d d2 a sz1 b sz2 f :
  page_rep p cl F -> d = aData p ->
  total F = sz1 + sz2 -> 0 <= sz1 -> 0 <= sz2 ->
  ptop p < a -> a + sz1 <= b -> b + sz2 <= usableSize (pBt p) ->
  (forall x, x ∈ cl -> disj (region x) (a, sz1) /\ disj (region x) (b, sz2)) ->
  (forall x, x ∈ cl -> f x.1 = if x.1 <? a then x.1 + (sz1 + sz2) else
     if x.1 <? b then x.1 + sz2 else x.1) ->
  edges p d2 ->
  (forall j, j < pfirst p -> j < cellOffset p -> bat d2 j = bat d j) ->
  (forall i x, cl !! i = Some x ->
     at2 d2 (cellOffset p + 2 * Z.of_nat i) = f x.1) ->
  (forall j, ptop p <= j < a -> bat d2 (j + (sz1 + sz2)) = bat d j) ->
  (forall j, a + sz1 <= j < b -> bat d2 (j + sz2) = bat d j) ->
  (forall j, b + sz2 <= j < usableSize (pBt p) -> bat d2 j = bat d j) ->
  packed p d2 ((fun x => (f x.1, x.2)) <$> cl) (ptop p + (sz1 + sz2)) (pfrag p).
Proof.
  intros H -> HF Hs1 Hs2 Ha Hab Hb Hdj Hf He Hhd Hptr M1 M2 M3.
  pose proof (rep_bounds _ _ _ H) as (B1 & B2 & B3 & B4 & B5 & B6 & B7 & B8).
  pose proof (rep_total _ _ _ H) as (T1 & T2 & T3).
  assert (Hz : forall x, x ∈ cl -> 4 <= blen x.2 /\
    ((x.1 + blen x.2 <= a /\ ptop p <= x.1 /\ f x.1 = x.1 + (sz1 + sz2)) \/
     (a + sz1 <= x.1 /\ x.1 + blen x.2 <= b /\ f x.1 = x.1 + sz2) \/
     (b + sz2 <= x.1 /\ x.1 + blen x.2 <= usableSize (pBt p) /\ f x.1 = x.1))).
  { intros x Hx. destruct (rep_inside_cell _ _ _ x H Hx) as (X1 & X2 & X3 & _).
    split; [done|]. destruct (Hdj x Hx) as [D1 D2]. rewrite (Hf x Hx).
    unfold disj, iend, region in D1, D2. cbn in D1, D2.
    destruct (Z.ltb_spec x.1 a); [left; lia|].
    destruct (Z.ltb_spec x.1 b); right; [left|right]; lia. }
  pose proof (sizes_nonneg cl.*2).
  split; try done; try lia.
  - rewrite length_fmap. apply (rep_ncell _ _ _ H).
  - rewrite <- (rep_hdr _ _ _ H). apply at2_eq; apply Hhd; lia.
  - intros i x Hx. rewrite list_lookup_fmap in Hx.
    destruct (cl !! i) as [y|] eqn:Ey; [|done]. injection Hx as <-.
    by apply Hptr.
  - apply list.Forall_forall. intros x Hx.
    apply list_elem_of_fmap in Hx as (y & -> & Hy). cbn [fst snd].
    destruct (rep_inside_cell _ _ _ y H Hy) as (Y1 & Y2 & Y3 & Y4 & Y5).
    split; [done|]. intros j Hj. rewrite <- (Y5 j Hj).
    destruct (Hz y Hy) as (_ & [(Z1 & Z2 & ->)|[(Z1 & Z2 & ->)|(Z1 & Z2 & ->)]]).
    + rewrite <- M1 by lia. f_equal. lia.
    + rewrite <- M2 by lia. f_equal. lia.
    + apply M3. lia.
  - apply list.Forall_forall. intros r Hr.
    rewrite <- list_fmap_compose in Hr.
    apply list_elem_of_fmap in Hr as (y & -> & Hy).
    destruct (Hz y Hy) as (_ & Hzy). unfold inside, iend, region. cbn. lia.
  - rewrite <- list_fmap_compose.
    pose proof (rep_disj _ _ _ H) as Hd. apply pdisj_app in Hd as (Hd & _ & _).
    clear -Hd Hz Hs1 Hs2 Hab. induction cl as [|x cl IH]; [done|].
    destruct Hd as [Hd1 Hd2]. split.
    + apply list.Forall_forall. intros r Hr.
      apply list_elem_of_fmap in Hr as (y & -> & Hy).
      rewrite list.Forall_forall in Hd1.
      specialize (Hd1 (region y) ltac:(by apply list_elem_of_fmap_2)).
      destruct (Hz x) as (X0 & HX); [by left|].
      destruct (Hz y) as (Y0 & HY); [by right|].
      unfold disj, iend, region in *. cbn in *. lia.
    + apply IH; [|done]. intros y Hy. apply Hz. by right.
  - destruct He as (_ & _ & He). unfold pfrag. apply Hhd; lia.
  - rewrite total_regions, <- list_fmap_compose.
    replace (snd ∘ (fun x : placed => (f x.1, x.2)) <$> cl) with (cl.*2) by done. lia.
Qed.

Definition fast_post (p : MemPage) (cl : list placed) (nMaxFrag : Z)
    (r : option Z) (s : MemPage) : Prop :=
  match r with
  | None => s = p
  | Some cbrk => pfrag p <= nMaxFrag /\ exists d' cl', s = set_aData d' p /\
      packed p d' cl' cbrk (pfrag p) /\ cl'.*2 = cl.*2
  end.

(** The second half of [defragment_fast], once the blocks are known. *)
Lemma fast_move p cl F d nMaxFrag a sz1 b iFree2 sz2 :
  page_rep p cl F -> pfrag p <= nMaxFrag ->
  total F = sz1 + sz2 -> 4 <= sz1 -> 0 <= sz2 ->
  ptop p < a -> a + sz1 <= b -> b + sz2 <= usableSize (pBt p) ->
  (forall x, x ∈ cl -> disj (region x) (a, sz1) /\ disj (region x) (b, sz2)) ->
  iFree2 = b \/ (iFree2 = 0 /\ b = a + sz1 /\ sz2 = 0) ->
  changed (aData p) d (a + sz1 + sz2) (b - (a + sz1)) ->
  (forall j, a + sz1 <= j < b -> bat d (j + sz2) = bat (aData p) j) ->
  wp (mv (ptop p + (sz1 + sz2)) (ptop p) (a - ptop p) ;;*
      shift_loop (Z.to_nat (nCell p)) (cellOffset p) a (sz1 + sz2) iFree2 sz2 ;;*
      ret (Some (ptop p + (sz1 + sz2))))
    (returns (fast_post p cl nMaxFrag)) (set_aData d p).
Proof.
  intros H Hfr HF Hs1 Hs2 Ha Hab Hb Hdj Hi2 (L1 & O1 & A1) M2.
  pose proof (rep_bounds _ _ _ H) as (B1 & B2 & B3 & B4 & B5 & B6 & B7 & B8).
  pose proof (rep_total _ _ _ H) as (T1 & T2 & T3). specialize (O1 B3).
  assert (Hshf : forall x, x ∈ cl -> ptop p <= x.1 /\ x.1 + blen x.2 <= usableSize (pBt p) /\
    4 <= blen x.2 /\
    shf a (sz1 + sz2) iFree2 sz2 x.1 = if x.1 <? a then x.1 + (sz1 + sz2) else
     if x.1 <? b then x.1 + sz2 else x.1).
  { intros x Hx. destruct (rep_inside_cell _ _ _ x H Hx) as (X1 & X2 & X3 & _).
    split; [done|]. split; [done|]. split; [done|].
    destruct (Hdj x Hx) as [D1 D2]. unfold shf, disj, iend, region in *. cbn in *.
    destruct (Z.ltb_spec x.1 a); [done|].
    destruct Hi2 as [->|(-> & -> & ->)]; [done|].
    destruct (Z.ltb_spec x.1 0), (Z.ltb_spec x.1 (a + sz1)); lia. }
  apply wp_bind, wp_mv; cbn [aData set_aData]; try (done || lia).
  intros d2 (L2 & O2 & A2) M1. specialize (O2 O1). unfold after.
  change (set_aData d2 _) with (set_aData d2 p).
  eapply wp_seq.
  { apply (shift_loop_spec p d2 _ _ _ _ _ _ cl.*1); try done.
    - rewrite length_fmap. pose proof (rep_ncell _ _ _ H). lia.
    - lia.
    - pose proof (rep_ncell _ _ _ H). lia.
    - intros j pc Hj. rewrite list_lookup_fmap in Hj.
      destruct (cl !! j) as [x|] eqn:Ex; [|done]. injection Hj as <-.
      rewrite <- (rep_ptr _ _ _ H j x Ex).
      pose proof (lookup_lt_Some _ _ _ Ex) as Hlt. split.
      + apply at2_eq; rewrite A2, A1 by lia; done.
      + rewrite (rep_ptr _ _ _ H j x Ex).
        apply list_elem_of_lookup_2 in Ex. destruct (Hshf x Ex) as (S1 & S2 & S3 & ->).
        destruct (Hdj x Ex) as [D1 D2].
        unfold disj, iend, region in *. cbn in *.
        destruct (Z.ltb_spec x.1 a), (Z.ltb_spec x.1 b); lia. }
  intros _ s (d3 & -> & O3 & L3 & V3 & A3). apply wp_ret. split; [done|].
  rewrite (rep_ncell _ _ _ H), Nat2Z.id in A3.
  exists d3, ((fun x => (shf a (sz1 + sz2) iFree2 sz2 x.1, x.2)) <$> cl).
  split; [done|]. split; [|by rewrite <- list_fmap_compose].
  eapply (shift_packed p cl F (aData p) d3 a sz1 b sz2); try done; try lia.
  - intros x Hx. by apply Hshf.
  - split; [done|]. split; [lia|]. intros j Hj. rewrite A3, A2, A1 by lia. done.
  - intros j H1 H2. rewrite A3, A2, A1 by lia. done.
  - intros i x Hx. apply V3. by rewrite list_lookup_fmap, Hx.
  - intros j Hj. rewrite A3 by lia.
    replace (j + (sz1 + sz2)) with (ptop p + (sz1 + sz2) + (j - ptop p)) by lia.
    rewrite M1 by lia. rewrite A1 by lia. f_equal. lia.
  - intros j Hj. rewrite A3, A2 by lia. by apply M2.
  - intros j Hj. rewrite A3, A2, A1 by lia. done.
Qed.

Lemma defragment_fast_spec p cl F nMaxFrag :
  page_rep p cl F ->
  wp (defragment_fast nMaxFrag) (returns (fast_post p cl nMaxFrag)) p.
Proof.
  intros H.
  pose proof (rep_bounds _ _ _ H) as (B1 & B2 & B3 & B4 & B5 & B6 & B7 & B8).
  pose proof (rep_total _ _ _ H) as (T1 & T2 & T3).
  pose proof (rep_asc _ _ _ H) as Ha. pose proof (rep_chain _ _ _ H) as Hc.
  pose proof (rep_inside _ _ _ H) as Hin. apply Forall_app in Hin as [_ Hin].
  pose proof (rep_disj _ _ _ H) as Hd. apply pdisj_app in Hd as (_ & HdF & HdC).
  assert (HdC' : forall x, x ∈ cl -> Forall (disj (region x)) F).
  { intros x Hx. rewrite list.Forall_forall in HdC. apply HdC.
    by apply list_elem_of_fmap_2. }
  unfold defragment_fast. apply wp_bind, wp_gets. unfold after, id.
  apply wp_bind, wp_rd1; [lia|]. unfold after. fold (pfrag p).
  case_if; [|by apply wp_ret].
  apply wp_bind, wp_rd2; [done|lia|lia|]. unfold after.
  destruct F as [|x F].
  { cbn in Hc. rewrite Hc. case_if; [lia|]. by apply wp_ret. }
  destruct Hc as (C1 & C2 & C3), Ha as (A1 & A2 & A3). rewrite C1.
  apply list.Forall_cons in Hin as [[Hx1 Hx2] Hin]. unfold iend in Hx2.
  case_if; [lia|]. destruct (Z.eqb_spec x.1 0); [lia|].
  apply wp_bind, wp_rd2; [done|lia|lia|]. unfold after.
  destruct F as [|y F].
  - (* a single freeblock *)
    cbn in C3. rewrite C3. case_if; [lia|]. cbn [Z.eqb].
    apply wp_bind, wp_ret. unfold after.
    apply wp_bind, wp_rd2; [done|lia|lia|]. unfold after. rewrite C2.
    apply wp_bind, wp_rd2; [done|lia|lia|]. unfold after.
    rewrite (ptop_field p B3) by lia. case_if; [lia|].
    cbn [negb]. apply wp_bind. case_if; [lia|]. apply wp_ret. unfold after.
    pose proof (fast_move p cl [x] (aData p) nMaxFrag x.1 x.2 (x.1 + x.2) 0 0 H) as Hm.
    rewrite set_aData_id, (Z.add_0_r x.2) in Hm.
    apply Hm; try done; try lia.
    + cbn. lia.
    + intros c Hcl. specialize (HdC' c Hcl). apply list.Forall_cons in HdC' as [D _].
      split; [by destruct x|]. pose proof (blen_nonneg c.2).
      unfold disj, iend, region in *. cbn in *. lia.
  - destruct C3 as (E1 & E2 & E3), A3 as (G1 & G2 & G3). rewrite E1.
    apply list.Forall_cons in Hin as [[Hy1 Hy2] Hin]. unfold iend in *.
    case_if; [lia|]. destruct (Z.eqb_spec 0 y.1); [lia|].
    pose proof (bat_range (aData p) y.1 B3).
    pose proof (bat_range (aData p) (y.1 + 1) B3).
    destruct F as [|z F].
    + (* two freeblocks *)
      cbn in E3. unfold at2 in E3.
      apply wp_bind, wp_bind, wp_rd1; [lia|]. unfold after at 1.
      replace (bat (aData p) y.1) with 0 by lia. cbn [Z.eqb].
      apply wp_bind, wp_rd1; [lia|]. unfold after at 1.
      replace (bat (aData p) (y.1 + 1)) with 0 by lia. cbn [Z.eqb].
      apply wp_ret. unfold after.
      apply wp_bind, wp_rd2; [done|lia|lia|]. unfold after. rewrite C2.
      apply wp_bind, wp_rd2; [done|lia|lia|]. unfold after.
      rewrite (ptop_field p B3) by lia. case_if; [lia|].
      destruct (Z.eqb_spec y.1 0); [lia|]. cbn [negb].
      apply wp_bind. case_if; [lia|].
      apply wp_bind, wp_rd2; [done|lia|lia|]. unfold after at 1. rewrite E2.
      case_if; [lia|].
      apply wp_bind, wp_mv; [done|lia|lia|lia|lia|lia|].
      intros d C M. unfold after at 1. apply wp_ret. unfold after.
      apply (fast_move p cl [x; y] d nMaxFrag x.1 x.2 y.1 y.1 y.2 H); try done; try lia.
      * cbn. lia.
      * intros c Hcl. specialize (HdC' c Hcl).
        apply list.Forall_cons in HdC' as [D HdC'].
        apply list.Forall_cons in HdC' as [D' _]. by destruct x, y.
      * intros j Hj. specialize (M (j - (x.1 + x.2))).
        replace (j + y.2) with (x.1 + x.2 + y.2 + (j - (x.1 + x.2))) by lia.
        rewrite M by lia. f_equal. lia.
    + (* more than two *)
      destruct E3 as (E3 & _). destruct G3 as (K1 & _).
      assert (0 < z.1) by (unfold iend in *; lia).
      apply wp_bind, wp_bind, wp_rd1; [lia|]. unfold after at 1.
      unfold at2 in E3.
      case_if.
      * apply wp_bind, wp_rd1; [lia|]. unfold after at 1.
        apply wp_ret. unfold after. case_if; [lia|]. by apply wp_ret.
      * apply wp_ret. unfold after. by apply wp_ret.
Qed.

(** Defragmentation: the same cells in the same order, no freeblock left. *)
Lemma defragmentPage_spec p cl F nMaxFrag :
  page_rep p cl F -> nFree p = free_bytes p cl ->
  wp (defragmentPage nMaxFrag)
    (returns (fun _ s => exists d' cl', s = set_aData d' p /\ edges p d' /\
       cl'.*2 = cl.*2 /\ page_rep s cl' [] /\
       pfrag s <= Z.max 0 nMaxFrag)) p.
Proof.
  intros H Hn. pose proof (rep_geom _ _ _ H) as Hg.
  assert (Hout : forall d cl' cbrk frag, packed p d cl' cbrk frag -> cl'.*2 = cl.*2 ->
    frag <= Z.max 0 nMaxFrag ->
    wp (defragment_out cbrk)
      (returns (fun _ s => exists d' cl', s = set_aData d' p /\ edges p d' /\
       cl'.*2 = cl.*2 /\ page_rep s cl' [] /\
       pfrag s <= Z.max 0 nMaxFrag)) (set_aData d p)).
  { intros d cl' cbrk frag Hp Hcl Hfr. eapply okp_mono.
    { eapply defragment_out_spec; [done|exact Hp|].
      rewrite Hn. unfold free_bytes. pose proof (pk_total _ _ _ _ _ Hp) as Ht.
      rewrite total_regions in *. rewrite <- Hcl. lia. }
    intros _ s (d' & -> & He & Hr & _ & Hf). exists d', cl'.
    split; [done|]. split; [done|]. split; [done|]. split; [done|lia]. }
  unfold defragmentPage. eapply wp_seq; [by apply (defragment_fast_spec p cl F)|].
  intros [cbrk|] s Hpost.
  - destruct Hpost as (Hfr & d & cl' & -> & Hp & Hcl).
    apply wp_bind, wp_ret. unfold after. eapply Hout; [done|done|lia].
  - cbn in Hpost. subst s.
    eapply wp_seq; [by apply (defragment_slow_spec p cl F)|].
    intros cbrk s (d & -> & Hp). eapply Hout; [done|apply stack_snd|lia].
Qed.
