(* ===== verification/BtAlloc.v ===== *)
(** * Allocating space in a b-tree page: [pageFindSlot] and [allocateSpace]
    ([src/src/btree.c]) *)
From S2P Require Import Prelude Bits Bytes Varint BtPage Interval BtRep BtDefrag.

(** ** Definitions *)

(** [None] is the null pointer with [*pRc] untouched; [*pRc] set to an error
    is [Fail]. *)
Fixpoint findslot_loop (fuel : nat) (nByte maxPC iAddr pc : Z)
    : M MemPage (option Z) :=
  match fuel with
  | O => undef
  | S fuel =>
      let* p := gets id in
      let hdr := hdrOffset p in
      if pc <=? maxPC then
        let* size := rd2 (pc + 2) in
        let x := size - nByte in
        if 0 <=? x then
          if x <? 4 then
            let* frag := rd1 (hdr + 7) in
            if 57 <? frag then ret None else
            mv iAddr pc 2 ;;*
            wr1 (hdr + 7) (frag + u8 x) ;;*
            ret (Some pc)
          else if maxPC <? x + pc then fail SQLITE_CORRUPT
          else wr2 (pc + 2) x ;;* ret (Some (pc + x))
        else
          let* next := rd2 pc in
          if next <=? pc then
            if negb (next =? 0) then fail SQLITE_CORRUPT else ret None
          else findslot_loop fuel nByte maxPC pc next
      else if maxPC + nByte - 4 <? pc then fail SQLITE_CORRUPT
      else ret None
  end.

Definition pageFindSlot (nByte : Z) : M MemPage (option Z) :=
  let* p := gets id in
  let iAddr := hdrOffset p + 1 in
  let* pc := rd2 iAddr in
  let usz := usableSize (pBt p) in
  findslot_loop (S (Z.to_nat usz)) nByte (usz - nByte) iAddr pc.

Definition allocateSpace (nByte : Z) : M MemPage Z :=
  let* p := gets id in
  let hdr := hdrOffset p in
  let usz := usableSize (pBt p) in
  let gap := cellOffset p + 2 * nCell p in
  let* top := rd2 (hdr + 5) in
  let* top :=
    (if top <? gap then
       if (top =? 0) && (usz =? 65536) then ret 65536 else fail SQLITE_CORRUPT
     else if usz <? top then fail SQLITE_CORRUPT else ret top) in
  let* b2 := rd1 (hdr + 2) in
  let* b1 := rd1 (hdr + 1) in
  let* slot :=
    (if (negb (b2 =? 0) || negb (b1 =? 0)) && (gap + 2 <=? top)
     then pageFindSlot nByte else ret None) in
  match slot with
  | Some g2 => if g2 <=? gap then fail SQLITE_CORRUPT else ret g2
  | None =>
      let* top :=
        (if top <? gap + 2 + nByte then
           defragmentPage (Z.min 4 (nFree p - (2 + nByte))) ;;*
           let* t := rd2 (hdr + 5) in ret (get2byteNotZero t)
         else ret top) in
      let top := top - nByte in
      wr2 (hdr + 5) top ;;*
      ret top
  end.


(** ** Taking space from a freeblock *)

Lemma ascending_remove lo F1 x F2 :
  ascending lo (F1 ++ x :: F2) -> ascending lo (F1 ++ F2).
Proof.
  revert lo. induction F1 as [|y F1 IH]; intros lo; cbn.
  - intros (H1 & H2 & H3). eapply ascending_le; [|exact H3]. unfold iend. lia.
  - intros (H1 & H2 & H3). auto.
Qed.

Lemma ascending_split lo F1 x F2 :
  ascending lo (F1 ++ x :: F2) ->
  ascending lo F1 /\ lo <= x.1 /\ 4 <= x.2 /\ ascending (iend x + 4) F2 /\
  (forall y, y ∈ F1 -> iend y + 4 <= x.1).
Proof.
  intros H. pose proof H as H'. change (x :: F2) with ([x] ++ F2) in H.
  rewrite app_assoc in H. apply ascending_app in H as [H _].
  destruct (ascending_snoc _ _ _ H) as (S1 & S2 & S3).
  apply ascending_app in H' as [H1 (_ & _ & H2)]. done.
Qed.

(** The pointer before [x], as a location. *)
Lemma lastptr_before p lo F1 :
  ascending lo F1 -> pfirst p <= lo -> hdrOffset p + 8 <= pfirst p ->
  lastptr (hdrOffset p + 1) F1 = hdrOffset p + 1 \/
  exists y, y ∈ F1 /\ lastptr (hdrOffset p + 1) F1 = y.1 /\ pfirst p <= y.1 /\ 4 <= y.2.
Proof.
  intros Ha H1 H2. destruct (lastptr_elem (hdrOffset p + 1) F1) as [|(y & Hy & E)];
    [by left|]. right. exists y. split; [done|]. split; [done|].
  destruct (ascending_inside _ _ _ Ha Hy). lia.
Qed.

Lemma kept_out p R F j y :
  space p R F -> kept p R j -> y ∈ F ->
  (j < y.1 \/ iend y <= j) /\ j <> hdrOffset p + 7 /\
  (j < hdrOffset p + 1 \/ hdrOffset p + 3 <= j).
Proof.
  intros Hsp Hk Hy. pose proof (space_bounds _ _ _ Hsp) as (Ht & Hu & Hf).
  pose proof (sp_inside _ _ _ Hsp) as Hi. rewrite list.Forall_forall in Hi.
  destruct (Hi y) as [Y1 Y2]; [rewrite elem_of_app; by right|].
  pose proof (sp_disj _ _ _ Hsp) as Hd. apply pdisj_app in Hd as (_ & _ & Hd).
  rewrite list.Forall_forall in Hd.
  destruct Hk as [|[|[|[|(r & Hr & Hj)]]]]; try lia.
  pose proof (Hd r Hr) as D. rewrite list.Forall_forall in D. specialize (D y Hy).
  destruct (Hi r) as [R1 R2]; [rewrite elem_of_app; by left|].
  unfold disj, iend in *. lia.
Qed.

Definition slot_post (p : MemPage) (R : list iv) (nByte : Z) (r : option Z)
    (s : MemPage) : Prop :=
  match r with
  | None => s = p
  | Some idx => ptop p < idx /\ exists d' F', s = set_aData d' p /\
      ptop s = ptop p /\ frame p R d' /\ space s ((idx, nByte) :: R) F'
  end.

(** The whole freeblock [x] is used, its excess becoming fragment bytes. *)
Lemma unlink_space p R F1 x F2 nByte d' :
  space p R (F1 ++ x :: F2) -> 4 <= nByte -> 0 <= x.2 - nByte < 4 ->
  pfrag p <= 57 -> bytes_ok d' -> blen d' = blen (aData p) ->
  bat d' (hdrOffset p + 7) = u8 (pfrag p + u8 (x.2 - nByte)) ->
  at2 d' (lastptr (hdrOffset p + 1) F1) = headptr F2 ->
  (forall j, j <> hdrOffset p + 7 -> j < lastptr (hdrOffset p + 1) F1 \/
     lastptr (hdrOffset p + 1) F1 + 2 <= j -> bat d' j = bat (aData p) j) ->
  ptop (set_aData d' p) = ptop p /\
  space (set_aData d' p) ((x.1, nByte) :: R) (F1 ++ F2) /\ frame p R d'.
Proof.
  intros Hsp Hn Hx Hfr Hok Hl V7 Vp Hall.
  pose proof (space_bounds _ _ _ Hsp) as (Ht & Hu & Hf).
  destruct (ascending_split _ _ _ _ (sp_asc _ _ _ Hsp)) as (A1 & A2 & A3 & A4 & A5).
  pose proof (lastptr_before p _ F1 A1 ltac:(lia) ltac:(lia)) as Hlp.
  set (lp := lastptr (hdrOffset p + 1) F1) in *.
  pose proof (sp_chain _ _ _ Hsp) as Hc.
  apply chain_app in Hc as [Hc1 (_ & _ & Hc2)].
  apply chain_links in Hc2 as [_ Hc2].
  assert (Htop : ptop (set_aData d' p) = ptop p).
  { unfold ptop. cbn. f_equal. apply at2_eq; apply Hall; try lia;
      destruct Hlp as [->|(y & _ & -> & ? & _)]; lia. }
  pose proof (perm_middle R F1 x F2) as Hperm0.
  assert (Hfrag : 0 <= pfrag p).
  { unfold pfrag. apply bat_range. apply (sp_geom _ _ _ Hsp). }
  split; [done|]. split.
  - split; rewrite ?Htop; try done.
    + apply page_geom_data; [apply (sp_geom _ _ _ Hsp)|done|done].
    + apply (sp_top _ _ _ Hsp).
    + pose proof (sp_inside _ _ _ Hsp) as Hi. rewrite Hperm0 in Hi.
      apply list.Forall_cons in Hi as [I1 I2]. constructor; [|done].
      unfold inside, iend in *. cbn. lia.
    + pose proof (sp_disj _ _ _ Hsp) as Hd. rewrite Hperm0 in Hd.
      destruct Hd as [D1 D2]. split; [|done].
      eapply Forall_impl; [|exact D1]. intros r. unfold disj, iend. cbn. lia.
    + constructor; [cbn; lia|apply (sp_size _ _ _ Hsp)].
    + cbn [aData set_aData]. change (hdrOffset (set_aData d' p)) with (hdrOffset p).
      apply chain_app. fold lp. split.
      * eapply seg_last; [exact Hc1|exact A1|lia|]. fold lp.
        intros j Hj Hjl. apply Hall; [|done].
        destruct Hj as [|(y & Hy & ?)]; [lia|].
        pose proof (ascending_inside _ _ _ A1 Hy). lia.
      * apply chain_links. split; [done|]. eapply links_same; [exact Hc2|].
        apply list.Forall_forall. intros y Hy j Hj.
        pose proof (ascending_inside _ _ _ A4 Hy). apply Hall; [unfold iend in *; lia|].
        destruct Hlp as [->|(z & Hz & -> & ? & ?)]; [unfold iend in *; lia|].
        specialize (A5 z Hz). unfold iend in *. lia.
    + eapply ascending_remove, (sp_asc _ _ _ Hsp).
    + unfold pfrag. cbn [aData set_aData hdrOffset pBt]. rewrite V7.
      rewrite (u8_small (x.2 - nByte)), u8_small by lia.
      pose proof (sp_total _ _ _ Hsp) as Htot. rewrite Hperm0, total_cons in Htot.
      cbn [app]. rewrite total_cons. cbn [snd]. lia.
  - intros j Hj.
    destruct (kept_out _ _ _ _ x Hsp Hj) as (K1 & K2 & K3);
      [rewrite elem_of_app; right; by left|].
    apply Hall; [done|]. destruct Hlp as [->|(y & Hy & -> & ? & ?)]; [lia|].
    destruct (kept_out _ _ _ _ y Hsp Hj) as (K4 & _);
      [rewrite elem_of_app; by left|]. unfold iend in *. lia.
Qed.

(** The freeblock [x] gives its last [nByte] bytes. *)
Lemma shrink_space p R F1 x F2 nByte d' :
  space p R (F1 ++ x :: F2) -> 4 <= nByte -> 4 <= x.2 - nByte ->
  changed (aData p) d' (x.1 + 2) 2 -> at2 d' (x.1 + 2) = u16 (x.2 - nByte) ->
  ptop (set_aData d' p) = ptop p /\
  space (set_aData d' p) ((x.1 + (x.2 - nByte), nByte) :: R)
    (F1 ++ (x.1, x.2 - nByte) :: F2) /\ frame p R d'.
Proof.
  intros Hsp Hn Hx (Hl & Hok & Hall) V.
  pose proof (sp_geom _ _ _ Hsp) as Hg.
  pose proof (page_geom_bounds p Hg) as (Hus & Hbl & Hok0 & Hh). specialize (Hok Hok0).
  pose proof (space_bounds _ _ _ Hsp) as (Ht & Hu & Hf).
  destruct (ascending_split _ _ _ _ (sp_asc _ _ _ Hsp)) as (A1 & A2 & A3 & A4 & A5).
  pose proof (sp_chain _ _ _ Hsp) as Hc.
  apply chain_app in Hc as [Hc1 (Hcp & _ & Hc2)].
  pose proof (lastptr_before p _ F1 A1 ltac:(lia) ltac:(lia)) as Hlp.
  set (lp := lastptr (hdrOffset p + 1) F1) in *.
  assert (Hxi : iend x <= usableSize (pBt p)).
  { pose proof (sp_inside _ _ _ Hsp) as Hi. rewrite list.Forall_forall in Hi.
    apply Hi. rewrite !elem_of_app. right; right. by left. }
  assert (Htop : ptop (set_aData d' p) = ptop p).
  { unfold ptop. cbn. f_equal. apply at2_eq; apply Hall; lia. }
  set (y := (x.1, x.2 - nByte)). set (z := (x.1 + (x.2 - nByte), nByte)).
  assert (Hperm : Permutation ((z :: R) ++ F1 ++ y :: F2) (z :: y :: R ++ F1 ++ F2)).
  { cbn. constructor. apply perm_middle. }
  pose proof (perm_middle R F1 x F2) as Hperm0.
  split; [done|]. split.
  - split; rewrite ?Htop, ?Hperm; try done.
    + by apply page_geom_data.
    + apply (sp_top _ _ _ Hsp).
    + pose proof (sp_inside _ _ _ Hsp) as Hi. rewrite Hperm0 in Hi.
      apply list.Forall_cons in Hi as [I1 I2].
      constructor; [|constructor; [|done]];
        unfold y, z, inside, iend in *; cbn in *; lia.
    + pose proof (sp_disj _ _ _ Hsp) as Hd. rewrite Hperm0 in Hd.
      destruct Hd as [D1 D2]. split; [constructor|split; [|done]].
      * unfold y, z, disj, iend. cbn. lia.
      * eapply Forall_impl; [|exact D1]. intros r. unfold z, disj, iend. cbn. lia.
      * eapply Forall_impl; [|exact D1]. intros r. unfold y, disj, iend. cbn. lia.
    + constructor; [cbn; lia|apply (sp_size _ _ _ Hsp)].
    + cbn [aData set_aData]. change (hdrOffset (set_aData d' p)) with (hdrOffset p).
      apply chain_app. fold lp. split; [|cbn [chain]; split; [|split]].
      * eapply seg_same; [exact Hc1|apply at2_eq; apply Hall; lia|].
        apply list.Forall_forall. intros w Hw j Hj. apply Hall.
        pose proof (ascending_inside _ _ _ A1 Hw). specialize (A5 w Hw).
        unfold iend in *. lia.
      * change y.1 with x.1. rewrite <- Hcp. apply at2_eq; apply Hall;
          (destruct Hlp as [->|(w & Hw & -> & ? & ?)]; [lia|]);
          specialize (A5 w Hw); unfold iend in *; lia.
      * cbn. rewrite V. apply u16_small. unfold iend in *. lia.
      * cbn. eapply chain_same; [exact Hc2|apply at2_eq; apply Hall; lia|].
        apply list.Forall_forall. intros w Hw j Hj. apply Hall.
        pose proof (ascending_inside _ _ _ A4 Hw). unfold iend in *. lia.
    + apply ascending_insert; try done; cbn; try lia.
      eapply ascending_le; [|exact A4]. unfold y, iend. cbn. lia.
    + unfold pfrag. cbn [aData set_aData hdrOffset pBt]. rewrite Hall by lia.
      pose proof (sp_total _ _ _ Hsp) as Htot. rewrite Hperm0 in Htot.
      rewrite total_cons in Htot. rewrite !total_cons. unfold y, z. cbn [snd].
      unfold pfrag in Htot. lia.
  - intros j Hj. apply Hall.
    destruct (kept_out _ _ _ _ x Hsp Hj) as (K1 & K2 & K3);
      [rewrite elem_of_app; right; by left|]. unfold iend in *. lia.
Qed.

Lemma findslot_loop_spec p R F1 F2 fuel nByte :
  space p R (F1 ++ F2) -> 4 <= nByte <= usableSize (pBt p) -> F2 <> [] ->
  (length F2 < fuel)%nat ->
  wp (findslot_loop fuel nByte (usableSize (pBt p) - nByte)
        (lastptr (hdrOffset p + 1) F1) (headptr F2))
    (returns (slot_post p R nByte)) p.
Proof.
  intros Hsp Hn. pose proof (sp_geom _ _ _ Hsp) as Hg.
  pose proof (page_geom_bounds p Hg) as (Hus & Hbl & Hok & Hh).
  pose proof (space_bounds _ _ _ Hsp) as (Ht & Hu & Hf).
  revert F1 fuel Hsp. induction F2 as [|x F2 IH]; intros F1 fuel Hsp Hne Hfu; [done|].
  destruct fuel as [|fuel]; [cbn in Hfu; lia|]. cbn [findslot_loop headptr].
  pose proof (sp_chain _ _ _ Hsp) as Hc.
  apply chain_app in Hc as [Hc1 (Hcp & Hcs & Hc2)].
  apply chain_links in Hc2 as [Hc2 Hc3].
  destruct (ascending_split _ _ _ _ (sp_asc _ _ _ Hsp)) as (A1 & A2 & A3 & A4 & A5).
  assert (Hxi : iend x <= usableSize (pBt p)).
  { pose proof (sp_inside _ _ _ Hsp) as Hi. rewrite list.Forall_forall in Hi.
    apply Hi. rewrite !elem_of_app. right; right. by left. }
  unfold iend in Hxi.
  pose proof (lastptr_before p _ F1 A1 ltac:(lia) ltac:(lia)) as Hlp.
  assert (Hlb : hdrOffset p + 1 <= lastptr (hdrOffset p + 1) F1 <= x.1).
  { destruct Hlp as [->|(y & Hy & -> & ? & ?)]; [lia|].
    specialize (A5 y Hy). unfold iend in *. lia. }
  apply wp_bind, wp_gets. unfold after, id. case_if.
  2:{ case_if; [lia|]. by apply wp_ret. }
  apply wp_bind, wp_rd2; [done|lia|lia|]. unfold after. rewrite Hcs.
  case_if; [case_if|].
  - apply wp_bind, wp_rd1; [lia|]. unfold after. fold (pfrag p).
    case_if; [by apply wp_ret|].
    apply wp_bind, wp_mv; [done|lia|lia|lia|lia|lia|].
    intros d1 (L1 & O1 & B1) M1. unfold after. specialize (O1 Hok).
    apply wp_bind, wp_wr1; cbn [aData set_aData]; [lia|].
    intros d2 (L2 & O2 & B2) V2. specialize (O2 O1). apply wp_ret.
    assert (Hlp7 : lastptr (hdrOffset p + 1) F1 + 2 <= hdrOffset p + 7 \/
      hdrOffset p + 8 <= lastptr (hdrOffset p + 1) F1).
    { destruct Hlp as [->|(y & Hy & -> & ? & ?)]; lia. }
    destruct (unlink_space p R F1 x F2 nByte d2 Hsp) as (U0 & U1 & U2); try done; try lia.
    + rewrite <- Hc2. unfold at2. rewrite !B2 by lia.
      rewrite <- (Z.add_0_r (lastptr _ _)) at 1. rewrite !M1 by lia.
      by rewrite Z.add_0_r.
    + intros j H1 H2. rewrite B2, B1 by lia. done.
    + split; [lia|]. by exists d2, (F1 ++ F2).
  - case_if; [lia|].
    apply wp_bind, wp_wr2; [lia|lia|]. intros d1 C1 V1. apply wp_ret.
    destruct (shrink_space p R F1 x F2 nByte d1 Hsp) as (U0 & U1 & U2); try done; try lia.
    split; [lia|]. exists d1, (F1 ++ (x.1, x.2 - nByte) :: F2).
    split; [done|]. split; [done|].
    by replace (x.1 + (x.2 - nByte)) with (x.1 + (x.2 - nByte)) by lia.
  - apply wp_bind, wp_rd2; [done|lia|lia|]. unfold after. rewrite Hc2.
    destruct F2 as [|y F2].
    + cbn [headptr]. case_if; [|lia]. by apply wp_ret.
    + cbn [headptr]. destruct A4 as (A6 & A7 & A8). unfold iend in A6.
      case_if; [lia|].
      replace x.1 with (lastptr (hdrOffset p + 1) (F1 ++ [x])) by apply lastptr_snoc.
      apply (IH (F1 ++ [x])); [|done|cbn in *; lia].
      by rewrite <- app_assoc.
Qed.

Lemma pageFindSlot_spec p R F nByte :
  space p R F -> F <> [] -> 4 <= nByte <= usableSize (pBt p) ->
  wp (pageFindSlot nByte) (returns (slot_post p R nByte)) p.
Proof.
  intros Hsp Hne Hn. pose proof (sp_geom _ _ _ Hsp) as Hg.
  pose proof (page_geom_bounds p Hg) as (Hus & Hbl & Hok & Hh).
  unfold pageFindSlot. apply wp_bind, wp_gets. unfold after, id.
  apply wp_bind, wp_rd2; [done|lia|lia|]. unfold after.
  pose proof (sp_chain _ _ _ Hsp) as Hc. apply chain_links in Hc as [-> _].
  apply (findslot_loop_spec p R [] F); try done.
  pose proof (ascending_length _ (usableSize (pBt p)) _ (sp_asc _ _ _ Hsp)) as Hl.
  pose proof (space_bounds _ _ _ Hsp) as (Ht & Hu & Hf).
  assert (4 * Z.of_nat (length F) <= Z.max 0 (usableSize (pBt p) - (ptop p + 1))); [|lia].
  apply Hl. intros x Hx. pose proof (sp_inside _ _ _ Hsp) as Hi.
  rewrite list.Forall_forall in Hi. apply Hi. rewrite elem_of_app. by right.
Qed.

(** ** allocateSpace *)

(** The pointers and the contents of the cells of a page image. *)
Definition cells_at (p : MemPage) (d : bytes) (cl : list placed) : Prop :=
  at2 d (hdrOffset p + 3) = nCell p /\
  (forall i x, cl !! i = Some x ->
    at2 d (cellOffset p + 2 * Z.of_nat i) = x.1) /\
  Forall (fun x => cell_ok p x.2 /\ holds d x.1 x.2) cl.

Lemma rep_cells p cl F : page_rep p cl F -> cells_at p (aData p) cl.
Proof. intros []. by repeat split. Qed.

Lemma cells_at_frame p cl F d' R :
  page_rep p cl F -> frame p R d' -> (forall r, r ∈ region <$> cl -> r ∈ R) ->
  cells_at p d' cl.
Proof.
  intros H Hfr HR. pose proof (rep_bounds _ _ _ H) as (B1 & B2 & B3 & B4 & B5 & B6 & B7 & B8).
  split; [|split].
  - rewrite <- (rep_hdr _ _ _ H). apply at2_eq; apply Hfr; unfold kept; lia.
  - intros i x Hx. rewrite <- (rep_ptr _ _ _ H i x Hx). apply lookup_lt_Some in Hx.
    apply at2_eq; apply Hfr; unfold kept; lia.
  - apply list.Forall_forall. intros x Hx.
    destruct (rep_inside_cell _ _ _ x H Hx) as (X1 & X2 & X3 & X4 & X5).
    split; [done|]. eapply holds_same; [exact X5|]. intros j Hj. apply Hfr.
    do 4 right. exists (region x).
    split; [by apply HR, list_elem_of_fmap_2|]. unfold iend, region. cbn. lia.
Qed.

Lemma frame_edges p R d' :
  frame p R d' -> bytes_ok d' -> blen d' = blen (aData p) -> edges p d'.
Proof. intros Hf H1 H2. split; [done|]. split; [done|]. intros j Hj. apply Hf. unfold kept. lia. Qed.

(** A page with [nByte] bytes at [idx] set aside for a new cell, and room for
    its pointer. *)
Record alloced (p s : MemPage) (cl : list placed) (idx nByte : Z) (F : list iv)
    : Prop := {
  al_state : s = set_aData (aData s) p;
  al_edges : edges p (aData s);
  al_cells : cells_at p (aData s) cl;
  al_space : space s ((idx, nByte) :: (region <$> cl)) F;
  al_room : pfirst p + 2 <= ptop s;
}.

(** Taking [nByte] bytes from the gap. *)
Lemma gap_alloc p cl F nByte :
  page_rep p cl F -> 4 <= nByte -> pfirst p + 2 + nByte <= ptop p ->
  wp (wr2 (hdrOffset p + 5) (ptop p - nByte) ;;* ret (ptop p - nByte))
    (returns (fun idx s => alloced p s cl idx nByte F)) p.
Proof.
  intros H Hn Hgap. pose proof (rep_bounds _ _ _ H) as (B1 & B2 & B3 & B4 & B5 & B6 & B7 & B8).
  pose proof (rep_space _ _ _ H) as Hsp.
  apply wp_bind, wp_wr2; [lia|lia|]. intros d (L & O & A) V. apply wp_ret.
  specialize (O B3).
  assert (Htop : ptop (set_aData d p) = ptop p - nByte).
  { unfold ptop at 1. cbn. rewrite V. apply get2byteNotZero_small. lia. }
  assert (Hfr : frame p (region <$> cl) d).
  { intros j Hj. apply A. pose proof (sp_inside _ _ _ Hsp) as Hi.
    apply Forall_app in Hi as [Hi _]. rewrite list.Forall_forall in Hi.
    destruct Hj as [|[|[|[|(r & Hr & Hj)]]]]; try lia.
    destruct (Hi r Hr). lia. }
  split; cbn [aData set_aData]; try done.
  - by eapply frame_edges.
  - by eapply cells_at_frame.
  - pose proof (sp_inside _ _ _ Hsp) as Hi. rewrite list.Forall_forall in Hi.
    split; rewrite ?Htop; try done.
    + by apply page_geom_data; [apply H| |].
    + change (pfirst (set_aData d p)) with (pfirst p). cbn. lia.
    + cbn. lia.
    + cbn [app]. constructor; [unfold inside, iend; cbn; lia|].
      apply list.Forall_forall. intros r Hr. destruct (Hi r Hr). cbn. split; [lia|done].
    + cbn [app]. split; [|apply (sp_disj _ _ _ Hsp)].
      apply list.Forall_forall. intros r Hr. destruct (Hi r Hr). unfold disj, iend. cbn. lia.
    + constructor; [done|apply (sp_size _ _ _ Hsp)].
    + cbn. eapply chain_same; [apply (sp_chain _ _ _ Hsp)|apply at2_eq; apply A; lia|].
      apply list.Forall_forall. intros y Hy j Hj.
      pose proof (ascending_inside _ _ _ (sp_asc _ _ _ Hsp) Hy). apply A. lia.
    + eapply ascending_le; [|apply (sp_asc _ _ _ Hsp)]. lia.
    + cbn [app]. rewrite total_cons. unfold pfrag. cbn [aData set_aData hdrOffset snd pBt].
      rewrite A by lia. pose proof (sp_total _ _ _ Hsp) as Htot. unfold pfrag in Htot. lia.
  - rewrite Htop. lia.
Qed.

Lemma ptop_zero p :
  bytes_ok (aData p) -> ptop p = 65536 -> at2 (aData p) (hdrOffset p + 5) = 0.
Proof.
  intros Hok. unfold ptop, get2byteNotZero.
  pose proof (at2_range (aData p) (hdrOffset p + 5) Hok) as Hr.
  change 0xffff with (Z.ones 16). rewrite Z.land_ones by lia.
  change (2 ^ 16) with 65536. intros Hlt. div_lia.
Qed.

(** Allocation in a page that has the space: the cells are where they were or
    have been moved together, and the new region is disjoint from them. *)
Lemma allocateSpace_spec p cl F nByte :
  page_rep p cl F -> nFree p = free_bytes p cl -> 4 <= nByte ->
  nByte + 2 <= nFree p ->
  wp (allocateSpace nByte)
    (returns (fun idx s => exists cl' F', cl'.*2 = cl.*2 /\
       alloced p s cl' idx nByte F')) p.
Proof.
  intros H Hnf Hn Hfit.
  pose proof (rep_bounds _ _ _ H) as (B1 & B2 & B3 & B4 & B5 & B6 & B7 & B8).
  pose proof (rep_total _ _ _ H) as (T1 & T2 & T3).
  assert (Hfree : nFree p = ptop p - pfirst p + total F + pfrag p).
  { rewrite Hnf. unfold free_bytes. rewrite total_regions. lia. }
  unfold allocateSpace. apply wp_bind, wp_gets. unfold after, id.
  apply wp_bind, wp_rd2; [done|lia|lia|]. unfold after.
  change (cellOffset p + 2 * nCell p) with (pfirst p).
  eapply (wp_seq _ _ _ (fun top s => top = ptop p /\ s = p)).
  { destruct (decide (ptop p = 65536)) as [E|E].
    - rewrite (ptop_zero p B3 E). case_if; [|lia].
      destruct (Z.eqb_spec (usableSize (pBt p)) 65536); [|lia]. by apply wp_ret.
    - rewrite (ptop_field p B3) by lia. case_if; [lia|].
      case_if; [lia|]. by apply wp_ret. }
  intros top s [-> ->].
  apply wp_bind, wp_rd1; [lia|]. unfold after.
  apply wp_bind, wp_rd1; [lia|]. unfold after.
  eapply (wp_seq _ _ _ (fun r s => slot_post p (region <$> cl) nByte r s /\
    (r <> None -> pfirst p + 2 <= ptop p))).
  { case_if; [|by apply wp_ret]. eapply okp_mono.
    2:{ intros r s Hr. split; [exact Hr|done]. }
    apply (pageFindSlot_spec p _ F).
    - by apply rep_space.
    - intros ->. pose proof (rep_chain _ _ _ H) as Hc. cbn in Hc.
      unfold at2 in Hc. pose proof (bat_range (aData p) (hdrOffset p + 1) B3).
      pose proof (bat_range (aData p) (hdrOffset p + 1 + 1) B3).
      replace (hdrOffset p + 2) with (hdrOffset p + 1 + 1) in * by lia.
      apply orb_prop in H0. destruct H0; zb; lia.
    - unfold free_bytes in Hnf.
      rewrite total_regions in Hnf. pose proof (sizes_nonneg cl.*2). lia. }
  intros [idx|] s [Hs Hroom].
  - destruct Hs as (Hidx & d & F' & -> & Htop & Hfr & Hsp).
    case_if; [lia|]. apply wp_ret. exists cl, F'. split; [done|].
    pose proof (sp_geom _ _ _ Hsp) as (_ & G1 & G2 & _).
    pose proof (rep_geom _ _ _ H) as (_ & _ & G3 & _). cbn in G1, G2.
    split; cbn [aData set_aData]; try done.
    + apply (frame_edges p _ d Hfr G1). by rewrite G2, G3.
    + eapply cells_at_frame; [exact H|exact Hfr|done].
    + rewrite Htop. by apply Hroom.
  - cbn in Hs. subst s.
    eapply (wp_seq _ _ _ (fun top s => exists cl' F' d', cl'.*2 = cl.*2 /\
      s = set_aData d' p /\ edges p d' /\ page_rep s cl' F' /\ top = ptop s /\
      pfirst p + 2 + nByte <= top)).
    { case_if.
      - eapply wp_seq; [by eapply (defragmentPage_spec p cl F)|].
        intros [] s (d & cl' & -> & He & Hcl & Hr & Hfg).
        pose proof (rep_bounds _ _ _ Hr) as (C1 & C2 & C3 & C4 & _).
        apply wp_bind, wp_rd2; cbn [aData set_aData pBt hdrOffset] in *; [done|lia|lia|].
        apply wp_ret. exists cl', [], d.
        do 4 (split; [done|]). split; [done|].
        pose proof (rep_total _ _ _ Hr) as (U1 & U2 & U3).
        cbn [pBt set_aData] in *. rewrite Hcl in U1. change (total []) with 0 in U1. 
        change (get2byteNotZero (at2 d (hdrOffset p + 5))) with (ptop (set_aData d p)). lia.
      - apply wp_ret. exists cl, F, (aData p). split; [done|].
        split; [by rewrite set_aData_id|]. split; [done|]. split; [done|].
        split; [done|lia]. }
    intros top s (cl' & F' & d & Hcl & -> & He & Hr & -> & Hgap).
    eapply okp_mono.
    { eapply (gap_alloc (set_aData d p) cl' F' nByte); [done|done|].
      exact Hgap. }
    intros idx s Hal. exists cl', F'. split; [done|].
    destruct Hal as [Hs He' Hc Hsp Hrm]. split; try done.
    destruct He as (E1 & E2 & E3), He' as (E4 & E5 & E6). cbn in E5, E6.
    split; [done|]. split; [lia|]. intros j Hj. rewrite E6, E3 by done. done.
Qed.
