(* ===== verification/BtCell.v ===== *)
(** * Cells of a b-tree page ([src/src/btree.c])

    [dropCell], [insertCell] and [insertCellFast].  A cell is passed as its
    bytes.  [sqlite3PagerWrite], which journals the page before it changes, is
    a result code here: the functions return it when it is not [SQLITE_OK]. *)
From S2P Require Import Prelude Bits Bytes Varint BtPage Interval.
From S2P Require Import BtRep BtFree BtDefrag BtAlloc.

(** ** Definitions *)

Definition dropCell (idx sz : Z) : M MemPage unit :=
  let* p := gets id in
  let hdr := hdrOffset p in
  let ptr := cellOffset p + 2 * idx in
  let* pc := rd2 ptr in
  if usableSize (pBt p) <? pc + sz then fail SQLITE_CORRUPT else
  freeSpace pc sz ;;*
  modify (fun p => set_nCell (nCell p - 1) p) ;;*
  let* p := gets id in
  if nCell p =? 0 then
    wrz (hdr + 1) 4 ;;*
    wr1 (hdr + 7) 0 ;;*
    wr2 (hdr + 5) (usableSize (pBt p)) ;;*
    modify (set_nFree (usableSize (pBt p) - hdrOffset p - childPtrSize p - 8))
  else
    mv ptr (ptr + 2) (2 * (nCell p - idx)) ;;*
    wr2 (hdr + 3) (nCell p) ;;*
    modify (fun p => set_nFree (nFree p + 2) p).

(** [pPage->apOvfl[j] = pCell; pPage->aiOvfl[j] = (u16)i] with
    [j = pPage->nOverflow++]; the arrays have four entries. *)
Definition addOverflow (i : Z) (pCell : bytes) : M MemPage unit :=
  let* p := gets id in
  if nOverflow p <? 4 then modify (set_ovfl (ovfl p ++ [(u16 i, pCell)]))
  else undef.

(** The new entry of the cell pointer array and the cell count. *)
Definition linkCell (i idx : Z) : M MemPage unit :=
  let* p := gets id in
  let hdr := hdrOffset p in
  let pIns := cellOffset p + i * 2 in
  mv (pIns + 2) pIns (2 * (nCell p - i)) ;;*
  wr2 pIns idx ;;*
  modify (fun p => set_nCell (nCell p + 1) p) ;;*
  let* lo := rd1 (hdr + 4) in
  wr1 (hdr + 4) (lo + 1) ;;*
  let* lo := rd1 (hdr + 4) in
  if lo =? 0 then let* hi := rd1 (hdr + 3) in wr1 (hdr + 3) (hi + 1) else ret tt.

(** [memcpy(&data[dst], src+off, n)] from another buffer. *)
Definition cpy (dst : Z) (src : bytes) (off n : Z) : M MemPage unit :=
  let* c := lift (bsub src off n) in wrn dst c.

(** The cell at [idx] with its first four bytes replaced by the child. *)
Definition putCell (idx : Z) (pCell : bytes) (sz iChild : Z) : M MemPage unit :=
  cpy (idx + 4) pCell 4 (sz - 4) ;;*
  wr4 idx iChild.

Definition insertCell (pagerWrite : Z) (i : Z) (pCell : bytes) (sz iChild : Z)
    : M MemPage unit :=
  let* p := gets id in
  if negb (nOverflow p =? 0) || (nFree p <? sz + 2) then
    let* c := lift (sqlite3Put4byte pCell 0 iChild) in
    addOverflow i c
  else if negb (pagerWrite =? SQLITE_OK) then fail pagerWrite
  else
    let* idx := allocateSpace sz in
    modify (fun p => set_nFree (nFree p - u16 (2 + sz)) p) ;;*
    putCell idx pCell sz iChild ;;*
    linkCell i idx.

Definition insertCellFast (pagerWrite : Z) (i : Z) (pCell : bytes) (sz : Z)
    : M MemPage unit :=
  let* p := gets id in
  if nFree p <? sz + 2 then addOverflow i pCell
  else if negb (pagerWrite =? SQLITE_OK) then fail pagerWrite
  else
    let* idx := allocateSpace sz in
    modify (fun p => set_nFree (nFree p - u16 (2 + sz)) p) ;;*
    cpy idx pCell 0 sz ;;*
    linkCell i idx.

(** ** Lemmas *)

Lemma space_perm p R R' F : Permutation R R' -> space p R F -> space p R' F.
Proof.
  intros Hp [H1 H2 H3 H4 H5 H6 H7 H8 H9]. split; try done.
  - by rewrite <- Hp.
  - by rewrite <- Hp.
  - by rewrite <- Hp.
  - by rewrite <- Hp.
Qed.

(** Changes of the cell count and the pointer array leave the space alone. *)
Lemma space_recount p R F d' n :
  space p R F -> bytes_ok d' -> blen d' = blen (aData p) ->
  0 <= n -> cellOffset p + 2 * n <= ptop p ->
  (forall j, hdrOffset p + 1 <= j < hdrOffset p + 3 \/
     hdrOffset p + 5 <= j < hdrOffset p + 8 \/ ptop p <= j ->
     bat d' j = bat (aData p) j) ->
  space (set_nCell n (set_aData d' p)) R F.
Proof.
  intros Hsp Hok Hl Hn Hfit Hall.
  pose proof (space_bounds _ _ _ Hsp) as (Ht & Hu & Hf).
  pose proof (sp_geom _ _ _ Hsp) as Hg.
  assert (Htop : ptop (set_nCell n (set_aData d' p)) = ptop p).
  { unfold ptop. cbn. f_equal. apply at2_eq; apply Hall; lia. }
  destruct Hsp as [_ _ S1 S2 S3 S4 S5 S6 S7].
  split; rewrite ?Htop; try done.
  - pose proof (page_geom_data p d' Hg Hok Hl) as Hg'. exact Hg'.
  - destruct Hg as (_ & _ & _ & _ & Hcp & _ & Hoff & _).
    unfold pfirst. cbn. destruct (pkind p); lia.
  - cbn. eapply chain_same; [exact S5|apply at2_eq; apply Hall; lia|].
    apply list.Forall_forall. intros y Hy j Hj.
    pose proof (ascending_inside _ _ _ S6 Hy). apply Hall. lia.
  - unfold pfrag in *. cbn. rewrite Hall by lia. done.
Qed.

Lemma region_delete (cl : list placed) k x :
  cl !! k = Some x ->
  Permutation (region <$> cl) (region x :: (region <$> delete k cl)).
Proof.
  intros Hk. rewrite (delete_Permutation cl k x Hk) at 1. done.
Qed.

Lemma total_delete (cl : list placed) k x :
  cl !! k = Some x -> total (region <$> cl) = blen x.2 + total (region <$> delete k cl).
Proof. intros Hk. by rewrite (region_delete cl k x Hk), total_cons. Qed.

(** The page after [freeSpace] on its [k]-th cell. *)
Lemma dropCell_free p cl F k x :
  page_rep p cl F -> cl !! k = Some x ->
  wp (freeSpace x.1 (blen x.2))
    (returns (fun _ s => exists d' F',
       s = set_nFree (nFree p + blen x.2) (set_aData d' p) /\ edges p d' /\
       space s (region <$> delete k cl) F' /\
       (forall j, hdrOffset p + 8 <= j < pfirst p \/
          hdrOffset p + 3 <= j < hdrOffset p + 5 -> bat d' j = bat (aData p) j) /\
       Forall (fun y => cell_ok p y.2 /\ holds d' y.1 y.2) (delete k cl))) p.
Proof.
  intros H Hk. pose proof (rep_space _ _ _ H) as Hsp.
  apply (space_perm _ _ _ _ (region_delete cl k x Hk)) in Hsp.
  eapply okp_mono; [exact (freeSpace_spec p (region x) _ F Hsp)|].
  intros _ s (d' & F' & -> & Hfr & Hsp'). exists d', F'.
  pose proof (sp_geom _ _ _ Hsp') as (_ & G1 & G2 & _). cbn in G1, G2.
  pose proof (rep_geom _ _ _ H) as (_ & _ & G3 & _).
  split; [done|]. split; [apply (frame_edges p _ d' Hfr G1); by rewrite G2, G3|].
  split; [done|]. split.
  - intros j Hj. apply Hfr. unfold kept. lia.
  - apply list.Forall_forall. intros y Hy.
    assert (Hy' : y ∈ cl).
    { apply list_elem_of_lookup in Hy as [i Hi]. rewrite list_lookup_delete in Hi.
      by eapply list_elem_of_lookup_2. }
    destruct (rep_inside_cell _ _ _ y H Hy') as (Y1 & Y2 & Y3 & Y4 & Y5).
    split; [done|]. eapply holds_same; [exact Y5|]. intros j Hj. apply Hfr.
    do 4 right. exists (region y). split; [by apply list_elem_of_fmap_2|].
    unfold iend, region. cbn. lia.
Qed.

Lemma edges_trans p d d' : edges p d -> edges (set_aData d p) d' -> edges p d'.
Proof.
  intros (A1 & A2 & A3) (B1 & B2 & B3). cbn in B2, B3.
  split; [done|]. split; [lia|]. intros j Hj. by rewrite B3, A3.
Qed.

(** An empty page. *)
Lemma empty_rep p d :
  page_geom p -> bytes_ok d -> blen d = blen (aData p) ->
  at2 d (hdrOffset p + 1) = 0 -> at2 d (hdrOffset p + 3) = 0 ->
  at2 d (hdrOffset p + 5) = u16 (usableSize (pBt p)) -> bat d (hdrOffset p + 7) = 0 ->
  forall n, page_rep (set_nFree n (set_nCell 0 (set_aData d p))) [] [].
Proof.
  intros Hg Hok Hl E1 E3 E5 E7 n.
  pose proof (page_geom_bounds p Hg) as (Hu & Hb & _ & Hh).
  pose proof Hg as ((_ & Hu2) & _ & _ & _ & Hcp & _ & Hoff & _).
  assert (Htop : ptop (set_nFree n (set_nCell 0 (set_aData d p))) = usableSize (pBt p)).
  { unfold ptop. cbn. rewrite E5. apply get2byteNotZero_small. lia. }
  split; rewrite ?Htop; try done.
  - exact (page_geom_data p d Hg Hok Hl).
  - unfold pfirst. cbn. destruct (pkind p); lia.
  - unfold pfrag. cbn. rewrite E7. lia.
Qed.

Lemma dropCell_spec p cs k c :
  page_holds p cs -> cs !! k = Some c ->
  wp (dropCell (Z.of_nat k) (blen c))
    (returns (fun _ s => static s = static p /\ edges p (aData s) /\
       page_holds s (delete k cs))) p.
Proof.
  intros (cl & F & H & -> & Hnf) Hk. rewrite list_lookup_fmap in Hk.
  destruct (cl !! k) as [x|] eqn:Ek; [|done]. injection Hk as <-.
  pose proof (rep_bounds _ _ _ H) as (B1 & B2 & B3 & B4 & B5 & B6 & B7 & B8).
  pose proof (rep_ncell _ _ _ H) as Hn.
  pose proof (lookup_lt_Some _ _ _ Ek) as Hlt.
  destruct (rep_inside_cell _ _ _ x H) as (X1 & X2 & X3 & X4 & X5);
    [by eapply list_elem_of_lookup_2|].
  unfold dropCell. apply wp_bind, wp_gets. unfold after, id.
  apply wp_bind, wp_rd2; [done|lia|lia|]. unfold after.
  rewrite (rep_ptr _ _ _ H k x Ek). case_if; [lia|].
  eapply wp_seq; [by eapply (dropCell_free p cl F k x)|].
  intros [] s (d & F' & -> & He & Hsp & Hhd & Hcells).
  apply wp_bind, wp_modify. unfold after. apply wp_bind, wp_gets. unfold after, id.
  cbn [nCell set_nCell set_nFree set_aData].
  pose proof He as (E1 & E2 & E3).
  case_if.
  - assert (delete k cl = []) as Hnil.
    { apply length_zero_iff_nil. rewrite length_delete by done. lia. }
    apply wp_bind, wp_wrz; cbn [aData set_nCell set_nFree set_aData]; [lia|lia|lia|].
    intros d1 (L1 & O1 & A1) V1. specialize (O1 E1). unfold after.
    apply wp_bind, wp_wr1; cbn [aData set_nCell set_nFree set_aData]; [lia|].
    intros d2 (L2 & O2 & A2) V2. specialize (O2 O1). unfold after.
    apply wp_bind, wp_wr2; cbn [aData set_nCell set_nFree set_aData]; [lia|lia|].
    intros d3 (L3 & O3 & A3) V3. specialize (O3 O2). unfold after.
    apply wp_modify. cbn.
    assert (Hrep : page_rep (set_nFree (usableSize (pBt p) - hdrOffset p - childPtrSize p - 8)
       (set_nCell 0 (set_aData d3 p))) [] []).
    { apply empty_rep; try done; try (apply H); try lia.
      - unfold at2. rewrite !A3, !A2, !V1 by lia. done.
      - unfold at2. rewrite !A3, !A2, !V1 by lia. done.
      - rewrite A3, V2 by lia. done. }
    split; [done|]. split.
    { split; [done|]. split; [lia|]. intros j Hj.
      rewrite A3, A2, A1, E3 by lia. done. }
    exists [], []. rewrite Hif0 in *.
    split; [exact Hrep|].
    split; [by rewrite <- list_fmap_delete, Hnil|].
    unfold free_bytes, pfirst. cbn.
    pose proof (rep_geom _ _ _ H) as (_ & _ & _ & _ & Hcp & _ & Hoff & _). lia.
  - apply wp_bind, wp_mv; cbn [aData set_nCell set_nFree set_aData nCell];
      [done|lia|lia|lia|lia|lia|].
    intros d1 (L1 & O1 & A1) M1. specialize (O1 E1). unfold after.
    apply wp_bind, wp_wr2; cbn [aData set_nCell set_nFree set_aData nCell]; [lia|lia|].
    intros d2 (L2 & O2 & A2) V2. specialize (O2 O1). unfold after.
    apply wp_modify.
    change (set_aData d2 _) with
      (set_nCell (nCell p - 1) (set_nFree (nFree p + blen x.2) (set_aData d2 p))).
    cbn [nFree set_nFree set_nCell aData set_aData].
    assert (Hrep : page_rep (set_nCell (nCell p - 1)
       (set_nFree (nFree p + blen x.2) (set_aData d2 p))) (delete k cl) F').
    { pose proof (space_bounds _ _ _ Hsp) as (S1 & S2 & S3).
      change (pfirst (set_nFree _ (set_aData d p))) with (pfirst p) in S3.
      apply space_rep; cbn [nCell set_nCell aData set_aData set_nFree hdrOffset cellOffset].
      - apply (space_recount _ _ _ d2 (nCell p - 1)) in Hsp; try done; cbn; try lia.
        + intros j Hj. rewrite A2, A1 by lia. done.
      - rewrite length_delete by done. lia.
      - rewrite V2. apply u16_small. lia.
      - intros i y Hi. pose proof (lookup_lt_Some _ _ _ Hi) as Hil.
        rewrite length_delete in Hil by done. rewrite list_lookup_delete in Hi.
        destruct (decide (i < k)%nat).
        + rewrite <- (rep_ptr _ _ _ H i y Hi).
          apply at2_eq; rewrite A2, A1, Hhd by lia; done.
        + rewrite <- (rep_ptr _ _ _ H (S i) y Hi).
          unfold at2. rewrite !A2 by lia.
          specialize (M1 (2 * (Z.of_nat i - Z.of_nat k))) as M1a.
          specialize (M1 (2 * (Z.of_nat i - Z.of_nat k) + 1)) as M1b.
          replace (cellOffset p + 2 * Z.of_nat i) with
            (cellOffset p + 2 * Z.of_nat k + 2 * (Z.of_nat i - Z.of_nat k)) by lia.
          rewrite <- (Z.add_assoc _ _ 1), M1a, M1b by lia.
          f_equal; [f_equal|]; rewrite <- Hhd by lia; f_equal; lia.
      - apply list.Forall_forall. intros y Hy. rewrite list.Forall_forall in Hcells.
        destruct (Hcells y Hy) as [Y1 Y2]. split; [done|].
        pose proof (sp_inside _ _ _ Hsp) as Hi. rewrite list.Forall_forall in Hi.
        destruct (Hi (region y)) as [Z1 _];
          [rewrite elem_of_app; left; by apply list_elem_of_fmap_2|].
        eapply holds_same; [exact Y2|]. intros j Hj.
        cbn in Z1. rewrite A2, A1 by lia. done. }
    split; [done|].
    split; [split; [done|]; split; [cbn; lia|]; intros j Hj; cbn;
            rewrite A2, A1, E3 by lia; done|].
    exists (delete k cl), F'.
    split; [by destruct Hrep|]. split; [by rewrite list_fmap_delete|].
    revert Hnf. unfold free_bytes, pfirst. cbn. rewrite (total_delete cl k x Ek). lia.
Qed.

(** ** Insertion *)

Definition insert_at {A} (i : nat) (x : A) (l : list A) : list A :=
  take i l ++ x :: drop i l.

Lemma insert_at_perm {A} i (x : A) l : Permutation (insert_at i x l) (x :: l).
Proof.
  unfold insert_at. rewrite <- (take_drop i l) at 3.
  symmetry. apply Permutation_middle.
Qed.

Lemma insert_at_length {A} i (x : A) l : length (insert_at i x l) = S (length l).
Proof. by rewrite insert_at_perm. Qed.

Lemma insert_at_lookup {A} i (x : A) l j :
  (i <= length l)%nat ->
  insert_at i x l !! j =
    if decide (j < i)%nat then l !! j
    else if decide (j = i) then Some x else l !! pred j.
Proof.
  intros Hi. unfold insert_at.
  destruct (decide (j < i)%nat).
  - rewrite lookup_app_l by (rewrite length_take; lia). by rewrite lookup_take_lt.
  - rewrite lookup_app_r by (rewrite length_take; lia). rewrite length_take.
    destruct (decide (j = i)) as [->|].
    + by replace (i - i `min` length l)%nat with O by lia.
    + destruct (j - i `min` length l)%nat as [|m] eqn:E; [lia|].
      change ((x :: drop i l) !! S m) with (drop i l !! m).
      rewrite lookup_drop. f_equal. lia.
Qed.

Lemma insert_at_fmap {A B} (f : A -> B) i x l :
  f <$> insert_at i x l = insert_at i (f x) (f <$> l).
Proof. unfold insert_at. by rewrite fmap_app, fmap_cons, fmap_take, fmap_drop. Qed.

(** The two-byte cell count is incremented with its carry. *)
Lemma count_incr lo hi n :
  0 <= lo < 256 -> 0 <= hi < 256 -> hi * 256 + lo = n -> n + 1 < 65536 ->
  (if u8 (lo + 1) =? 0 then u8 (hi + 1) else hi) * 256 + u8 (lo + 1) = n + 1.
Proof.
  intros H1 H2 <- H3. unfold u8. change (2 ^ 8) with 256.
  destruct (Z.eqb_spec ((lo + 1) mod 256) 0); div_lia.
Qed.

Lemma linkCell_spec p cl idx c F i :
  space p ((idx, blen c) :: (region <$> cl)) F ->
  cells_at p (aData p) cl -> nCell p = Z.of_nat (length cl) ->
  holds (aData p) idx c -> cell_ok p c ->
  pfirst p + 2 <= ptop p -> (i <= length cl)%nat ->
  wp (linkCell (Z.of_nat i) idx)
    (returns (fun _ s => exists d', s = set_nCell (nCell p + 1) (set_aData d' p) /\
       edges p d' /\ page_rep s (insert_at i (idx, c) cl) F)) p.
Proof.
  intros Hsp (Hhd & Hptr & Hcell) Hn Hh Hc Hroom Hi.
  pose proof (sp_geom _ _ _ Hsp) as Hg.
  pose proof (page_geom_bounds p Hg) as (Hus & Hbl & Hok & Hho).
  pose proof (space_bounds _ _ _ Hsp) as (Ht & Hu & Hf).
  destruct (geom_first p Hg) as [Hg1 Hg2]; [lia|].
  assert (Hpf : pfirst p = cellOffset p + 2 * Z.of_nat (length cl)).
  { unfold pfirst. lia. }
  pose proof (sp_inside _ _ _ Hsp) as Hin. rewrite list.Forall_forall in Hin.
  unfold linkCell. apply wp_bind, wp_gets. unfold after, id.
  apply wp_bind, wp_mv; [done|lia|lia|lia|lia|lia|].
  intros d1 (L1 & O1 & A1) M1. specialize (O1 Hok). unfold after.
  apply wp_bind, wp_wr2; cbn [aData set_aData]; [lia|lia|].
  intros d2 (L2 & O2 & A2) V2. specialize (O2 O1). unfold after.
  apply wp_bind, wp_modify. unfold after.
  apply wp_bind, wp_rd1; cbn [aData set_nCell set_aData]; [lia|]. unfold after.
  apply wp_bind, wp_wr1; cbn [aData set_nCell set_aData]; [lia|].
  intros d3 (L3 & O3 & A3) V3. specialize (O3 O2). unfold after.
  apply wp_bind, wp_rd1; cbn [aData set_nCell set_aData]; [lia|]. unfold after.
  change (set_aData d3 _) with (set_nCell (nCell p + 1) (set_aData d3 p)).
  eapply (okp_mono _ _ (fun _ s => exists d4, s = set_nCell (nCell p + 1) (set_aData d4 p) /\
    bytes_ok d4 /\ blen d4 = blen (aData p) /\
    (forall j, j < hdrOffset p + 3 \/ hdrOffset p + 5 <= j -> bat d4 j = bat d2 j) /\
    at2 d4 (hdrOffset p + 3) = nCell p + 1)).
  { pose proof (bat_range (aData p) (hdrOffset p + 3) Hok) as R3.
    pose proof (bat_range (aData p) (hdrOffset p + 4) Hok) as R4.
    unfold at2 in Hhd. replace (hdrOffset p + 3 + 1) with (hdrOffset p + 4) in Hhd by lia.
    pose proof (count_incr _ _ _ R4 R3 Hhd ltac:(lia)) as Hci.
    rewrite V3. rewrite A2, A1 in V3 |- * by lia. case_if.
    - apply wp_bind, wp_rd1; cbn [aData set_nCell set_aData]; [lia|]. unfold after.
      apply wp_wr1; cbn [aData set_nCell set_aData]; [lia|].
      intros d4 (L4 & O4 & A4) V4. specialize (O4 O3). exists d4.
      split; [done|]. split; [done|]. split; [lia|]. split.
      + intros j Hj. rewrite A4, A3 by lia. done.
      + unfold at2. replace (hdrOffset p + 3 + 1) with (hdrOffset p + 4) by lia.
        rewrite V4, (A4 (hdrOffset p + 4)), V3, A3, A2, A1 by lia. 
        rewrite Hif in Hci |- *. exact Hci.
    - apply wp_ret. exists d3. split; [done|]. split; [done|]. split; [lia|]. split.
      + intros j Hj. rewrite A3 by lia. done.
      + unfold at2. replace (hdrOffset p + 3 + 1) with (hdrOffset p + 4) by lia.
        rewrite V3, A3, A2, A1 by lia.
        destruct (Z.eqb_spec (u8 (bat (aData p) (hdrOffset p + 4) + 1)) 0); [lia|].
        exact Hci. }
  intros [] s (d4 & -> & O4 & L4 & A4 & V4). exists d4. split; [done|].
  split.
  { split; [done|]. split; [done|]. intros j Hj. rewrite A4, A2, A1 by lia. done. }
  apply space_rep; cbn [nCell set_nCell aData set_aData hdrOffset cellOffset].
  - rewrite insert_at_fmap. change (region (idx, c)) with (idx, blen c).
    eapply space_perm; [symmetry; apply insert_at_perm|].
    apply space_recount; try done; try lia.
    intros j Hj. rewrite A4, A2, A1 by lia. done.
  - rewrite insert_at_length. lia.
  - done.
  - intros j y Hj. pose proof (lookup_lt_Some _ _ _ Hj) as Hjl.
    rewrite insert_at_length in Hjl. rewrite insert_at_lookup in Hj by done.
    rewrite (at2_eq d2 d4) by (apply A4; lia).
    destruct (decide (j < i)%nat); [|destruct (decide (j = i)) as [->|]].
    + rewrite <- (Hptr j y Hj). apply at2_eq; rewrite A2, A1 by lia; done.
    + injection Hj as <-. replace (cellOffset p + 2 * Z.of_nat i) with
        (cellOffset p + Z.of_nat i * 2) by lia.
      rewrite V2. apply u16_small. cbn.
      destruct (Hin (idx, blen c)) as [I1 I2]; [by left|]. unfold iend in I2. cbn in *.
      destruct Hc as (_ & ? & _). lia.
    + rewrite <- (Hptr (pred j) y Hj).
      unfold at2. rewrite !A2 by lia.
      specialize (M1 (2 * (Z.of_nat j - 1 - Z.of_nat i))) as M1a.
      specialize (M1 (2 * (Z.of_nat j - 1 - Z.of_nat i) + 1)) as M1b.
      replace (cellOffset p + 2 * Z.of_nat j) with
        (cellOffset p + Z.of_nat i * 2 + 2 + 2 * (Z.of_nat j - 1 - Z.of_nat i)) by lia.
      rewrite <- (Z.add_assoc _ _ 1), M1a, M1b by lia.
      f_equal; [f_equal|]; f_equal; lia.
  - apply list.Forall_forall. intros y Hy. rewrite insert_at_perm in Hy.
    assert (Hy0 : cell_ok p y.2 /\ holds (aData p) y.1 y.2).
    { apply elem_of_cons in Hy as [->|Hy]; [done|].
      rewrite list.Forall_forall in Hcell. by apply Hcell. }
    destruct Hy0 as [Y1 Y2]. split; [done|]. eapply holds_same; [exact Y2|].
    intros j Hj. destruct (Hin (region y)) as [I1 I2].
    { apply elem_of_cons in Hy as [->|Hy]; [by left|]. right.
      rewrite elem_of_app. left. by apply list_elem_of_fmap_2. }
    cbn in I1. rewrite A4, A2, A1 by lia. done.
Qed.

(** Writing inside a region in use. *)
Lemma space_write p x R F d' :
  space p (x :: R) F -> changed (aData p) d' x.1 x.2 ->
  space (set_aData d' p) (x :: R) F /\ ptop (set_aData d' p) = ptop p.
Proof.
  intros Hsp (L & O & A). pose proof (space_bounds _ _ _ Hsp) as (Ht & Hu & Hf).
  pose proof (sp_geom _ _ _ Hsp) as Hg. specialize (O (proj1 (proj2 Hg))).
  pose proof (sp_inside _ _ _ Hsp) as Hin. cbn [app] in Hin.
  apply list.Forall_cons in Hin as [[I1 I2] _].
  pose proof (sp_disj _ _ _ Hsp) as [Hd _]. rewrite Forall_app in Hd.
  destruct Hd as [_ Hd]. rewrite list.Forall_forall in Hd.
  assert (Htop : ptop (set_aData d' p) = ptop p).
  { unfold ptop. cbn. f_equal. apply at2_eq; apply A; lia. }
  split; [|done]. destruct Hsp as [_ H1 H2 H3 H4 H5 H6 H7 H8].
  split; rewrite ?Htop; try done.
  - by apply page_geom_data.
  - cbn. eapply chain_same; [exact H6|apply at2_eq; apply A; lia|].
    apply list.Forall_forall. intros y Hy j Hj. apply A.
    pose proof (ascending_inside _ _ _ H7 Hy). specialize (Hd y Hy).
    unfold disj, iend in *. lia.
  - unfold pfrag in *. cbn. rewrite A by lia. done.
Qed.

(** From a page with the region set aside and filled to the new page. *)
Lemma alloced_link p s cl idx F d c i :
  page_geom p -> nCell p = Z.of_nat (length cl) ->
  alloced p s cl idx (blen c) F -> cell_ok p c ->
  changed (aData s) d idx (blen c) -> holds d idx c -> (i <= length cl)%nat ->
  nFree p = free_bytes p cl ->
  wp (linkCell (Z.of_nat i) idx)
    (returns (fun _ s' => static s' = static p /\ edges p (aData s') /\ ovfl s' = ovfl p /\
       page_holds s' (insert_at i c cl.*2)))
    (set_nFree (nFree p - (2 + blen c)) (set_aData d p)).
Proof.
  intros Hg Hn [Hst He Hcells Hsp Hroom] Hc Hch Hh Hi Hnf.
  pose proof He as (E1 & E2 & E3).
  pose proof (page_geom_bounds p Hg) as (Hus & Hbl & Hok & Hho).
  destruct (geom_first p Hg) as [Hg1 Hg2]; [lia|].
  pose proof (space_write _ (idx, blen c) _ _ d Hsp Hch) as [Hsp' Htop].
  pose proof (sp_inside _ _ _ Hsp) as Hin. cbn [app] in Hin.
  apply list.Forall_cons in Hin as [[I1 I2] Hin]. cbn in I1, I2. unfold iend in I2. cbn in I2.
  pose proof (sp_disj _ _ _ Hsp) as [Hd _]. rewrite Forall_app in Hd.
  destruct Hd as [Hd _]. rewrite list.Forall_forall in Hd.
  pose proof (space_bounds _ _ _ Hsp) as (S1 & S2 & S3).
  rewrite Hst in I2, S3, Hsp', Htop. cbn in I2.
  change (pfirst (set_aData (aData s) p)) with (pfirst p) in S3.
  change (hdrOffset (set_aData (aData s) p)) with (hdrOffset p) in S3.
  change (set_aData d (set_aData (aData s) p)) with (set_aData d p) in Hsp', Htop.
  rewrite <- Hst in S3, Htop. destruct Hch as (L & O & A). specialize (O E1).
  destruct Hcells as (C1 & C2 & C3).
  assert (Hpf : pfirst p = cellOffset p + 2 * Z.of_nat (length cl)).
  { unfold pfirst. lia. }
  eapply okp_mono.
  { apply (linkCell_spec _ cl idx c F i); try done.
    - by apply space_set_nFree.
    - split; [|split]; cbn.
      + rewrite <- C1. apply at2_eq; apply A; lia.
      + intros j y Hj. rewrite <- (C2 j y Hj). apply lookup_lt_Some in Hj.
        apply at2_eq; apply A; lia.
      + apply list.Forall_forall. intros y Hy. rewrite list.Forall_forall in C3.
        destruct (C3 y Hy) as [Y1 Y2]. split; [done|].
        eapply holds_same; [exact Y2|]. intros j Hj. apply A.
        specialize (Hd (region y) ltac:(by apply list_elem_of_fmap_2)).
        unfold disj, iend, region in Hd. cbn in Hd. lia.
    - change (pfirst p + 2 <= ptop (set_aData d p)). lia. }
  intros _ s' (d' & -> & He' & Hr). cbn. split; [done|]. split; [|split; [done|]].
  - destruct He' as (F1 & F2 & F3). cbn in F2, F3.
    split; [done|]. split; [lia|]. intros j Hj.
    rewrite F3, A, E3 by lia. done.
  - exists (insert_at i (idx, c) cl), F. split; [done|].
    split; [by rewrite insert_at_fmap|].
    unfold free_bytes in *. cbn. rewrite insert_at_fmap.
    rewrite (insert_at_perm i (region (idx, c))), total_cons. cbn.
    unfold pfirst in *. cbn. lia.
Qed.

Lemma holds_length_small p cs :
  page_holds p cs -> 2 * Z.of_nat (length cs) <= 65536 /\ 0 <= nFree p < 65536.
Proof.
  intros (cl & F & H & -> & Hnf). rewrite length_fmap.
  pose proof (rep_bounds _ _ _ H) as (B1 & B2 & B3 & B4 & B5 & B6 & B7 & B8).
  pose proof (rep_total _ _ _ H) as (T1 & T2 & T3).
  pose proof (sizes_nonneg cl.*2).
  unfold free_bytes in Hnf. rewrite total_regions in Hnf. lia.
Qed.

Lemma addOverflow_first p i c :
  ovfl p = [] -> 0 <= i < 65536 ->
  wp (addOverflow i c) (returns (fun _ s => s = set_ovfl [(i, c)] p)) p.
Proof.
  intros Ho Hi. unfold addOverflow. apply wp_bind, wp_gets. unfold after, id, nOverflow.
  rewrite Ho. apply wp_modify. cbn. by rewrite u16_small by done.
Qed.

(** Set aside, fill, link. *)
Lemma insert_fits p cs i c (fill : Z -> M MemPage unit) :
  page_holds p cs -> cell_ok p c -> (i <= length cs)%nat -> blen c + 2 <= nFree p ->
  (forall cl' idx s F, alloced p s cl' idx (blen c) F ->
     wp (fill idx) (returns (fun _ s' => exists d, 
       s' = set_nFree (nFree p - (2 + blen c)) (set_aData d p) /\
       changed (aData s) d idx (blen c) /\ holds d idx c))
       (set_nFree (nFree p - (2 + blen c)) (set_aData (aData s) p))) ->
  wp (let* idx := allocateSpace (blen c) in
      modify (fun p => set_nFree (nFree p - u16 (2 + blen c)) p) ;;*
      fill idx ;;* linkCell (Z.of_nat i) idx)
    (returns (fun _ s => static s = static p /\ edges p (aData s) /\ ovfl s = ovfl p /\
       page_holds s (insert_at i c cs))) p.
Proof.
  intros Hp Hc Hi Hfit Hfill. pose proof (holds_length_small _ _ Hp) as [_ Hnfb].
  destruct Hp as (cl & F & H & -> & Hnf). rewrite length_fmap in Hi.
  pose proof Hc as (_ & Hc4 & _).
  eapply wp_seq; [apply (allocateSpace_spec p cl F); first [done|lia]|].
  intros idx s (cl' & F' & Hcl & Hal).
  assert (Hlen : length cl' = length cl).
  { rewrite <- (length_fmap snd cl'), Hcl. by rewrite length_fmap. }
  apply wp_bind, wp_modify. unfold after.
  pose proof (al_state _ _ _ _ _ _ Hal) as Hst.
  replace (set_nFree (nFree s - u16 (2 + blen c)) s) with
    (set_nFree (nFree p - (2 + blen c)) (set_aData (aData s) p)).
  2:{ rewrite u16_small by lia. rewrite Hst. done. }
  eapply wp_seq; [by eapply Hfill|]. intros [] s' (d & -> & Hch & Hh).
  rewrite <- Hcl. eapply alloced_link; try done.
  - apply H.
  - rewrite Hlen. apply H.
  - lia.
  - rewrite Hnf. unfold free_bytes. by rewrite !total_regions, Hcl.
Qed.

Lemma bsub_all c : bsub c 0 (blen c) = Some c.
Proof.
  unfold bsub. rewrite Z.add_0_l, !Z.leb_refl.
  destruct (Z.leb_spec 0 (blen c)); [|pose proof (blen_nonneg c); lia].
  cbn [andb]. f_equal. unfold blen. rewrite Nat2Z.id. by apply take_ge.
Qed.

Lemma alloced_bounds p s cl idx c F :
  alloced p s cl idx (blen c) F -> 
  0 <= idx /\ idx + blen c <= blen (aData s) /\ bytes_ok (aData s).
Proof.
  intros [Hst He _ Hsp _]. pose proof He as (E1 & _).
  pose proof (space_bounds _ _ _ Hsp) as (S1 & S2 & S3).
  pose proof (sp_inside _ _ _ Hsp) as Hin. cbn [app] in Hin.
  apply list.Forall_cons in Hin as [[I1 I2] _]. unfold iend in I2. cbn in *.
  split; [lia|]. split; [lia|done].
Qed.

Lemma insertCellFast_spec p cs i c :
  page_holds p cs -> ovfl p = [] -> cell_ok p c -> (i <= length cs)%nat ->
  wp (insertCellFast SQLITE_OK (Z.of_nat i) c (blen c))
    (returns (fun _ s =>
       if blen c + 2 <=? nFree p
       then static s = static p /\ edges p (aData s) /\ ovfl s = [] /\ page_holds s (insert_at i c cs)
       else s = set_ovfl [(Z.of_nat i, c)] p)) p.
Proof.
  intros Hp Ho Hc Hi. pose proof (holds_length_small _ _ Hp).
  unfold insertCellFast. apply wp_bind, wp_gets. unfold after, id.
  destruct (Z.leb_spec (blen c + 2) (nFree p)); case_if; try lia.
  - rewrite Z.eqb_refl. cbn [negb]. rewrite <- Ho.
    refine (insert_fits p cs i c (fun idx => cpy idx c 0 (blen c))
      Hp Hc Hi _ _); [lia|].
    intros cl' idx s F Hal. destruct (alloced_bounds _ _ _ _ _ _ Hal) as (A1 & A2 & A3).
    apply wp_bind. eapply wp_lift; [apply bsub_all|]. unfold after.
    apply wp_wrn; [apply Hc|done|done|]. intros d C Hh. by exists d.
  - apply addOverflow_first; [done|lia].
Qed.

Lemma wp_wr4 p (Q : out unit -> MemPage -> Prop) i v :
  0 <= i -> i + 3 < blen (aData p) ->
  (forall d', sqlite3Put4byte (aData p) i v = Some d' ->
     changed (aData p) d' i 4 -> Q (Ret tt) (set_aData d' p)) ->
  wp (wr4 i v) Q p.
Proof.
  intros H1 H2 HQ. destruct (Put4byte_in (aData p) i v H1 H2) as [d' E].
  eapply wp_wr; [exact E|]. apply HQ; [done|].
  split; [by eapply Put4byte_len|]. split; [intros; by eapply Put4byte_ok|].
  intros j Hj. by eapply Put4byte_at.
Qed.

(** The bytes of [sqlite3Put4byte], one by one. *)
Lemma Put4byte_bytes d i v d' k :
  sqlite3Put4byte d i v = Some d' -> 0 <= k < 4 ->
  bat d' (i + k) = u8 (Z.shiftr v (8 * (3 - k))).
Proof.
  intros (d1 & d2 & d3 & H1 & H2 & H3 & H4)%Put4byte_inv Hk.
  rewrite (bset_at _ _ _ _ _ H4), (bset_at _ _ _ _ _ H3),
    (bset_at _ _ _ _ _ H2), (bset_at _ _ _ _ _ H1).
  assert (k = 0 \/ k = 1 \/ k = 2 \/ k = 3) as Hc by lia.
  destruct_or! Hc; subst k;
  repeat match goal with
  | |- context [?j =? ?k] => destruct (Z.eqb_spec j k); try (exfalso; lia)
  end; reflexivity.
Qed.

Lemma insertCell_spec p cs i c c' iChild :
  page_holds p cs -> ovfl p = [] -> bytes_ok c -> 4 <= blen c ->
  sqlite3Put4byte c 0 iChild = Some c' -> cell_ok p c' -> (i <= length cs)%nat ->
  wp (insertCell SQLITE_OK (Z.of_nat i) c (blen c) iChild)
    (returns (fun _ s =>
       if blen c + 2 <=? nFree p
       then static s = static p /\ edges p (aData s) /\ ovfl s = [] /\ page_holds s (insert_at i c' cs)
       else s = set_ovfl [(Z.of_nat i, c')] p)) p.
Proof.
  intros Hp Ho Hb H4 Hc' Hc Hi. pose proof (holds_length_small _ _ Hp).
  pose proof (Put4byte_len _ _ _ _ Hc') as Hl.
  unfold insertCell. apply wp_bind, wp_gets. unfold after, id, nOverflow.
  rewrite Ho. change (negb (Z.of_nat (length []) =? 0)) with false. cbn [orb].
  destruct (Z.leb_spec (blen c + 2) (nFree p)); case_if; try lia.
  - rewrite Z.eqb_refl. cbn [negb]. rewrite <- Ho, <- Hl.
    refine (insert_fits p cs i c' (fun idx => putCell idx c (blen c') iChild)
      Hp Hc Hi _ _); [lia|].
    intros cl' idx s F Hal. destruct (alloced_bounds _ _ _ _ _ _ Hal) as (A1 & A2 & A3).
    destruct (bsub_in c 4 (blen c' - 4)) as [tl Et]; [lia|lia|lia|].
    pose proof (bsub_len _ _ _ _ Et) as Htl.
    unfold putCell, cpy. apply wp_bind, wp_bind.
    eapply wp_lift; [exact Et|]. unfold after.
    apply wp_wrn; cbn [aData set_nFree set_aData]; [exact (bsub_ok _ _ _ _ Hb Et)|lia|lia|].
    intros d1 (L1 & O1 & C1) Hh1. specialize (O1 A3).
    apply wp_wr4; cbn [aData set_nFree set_aData]; [lia|lia|].
    intros d2 E2 (L2 & O2 & C2). specialize (O2 O1). exists d2. split; [done|].
    split.
    + split; [lia|]. split; [done|]. intros j Hj. rewrite C2, C1 by lia. done.
    + intros j Hj. destruct (decide (j < 4)) as [Hj4|Hj4].
      * rewrite (Put4byte_bytes _ _ _ _ j E2) by lia.
        rewrite <- (Z.add_0_l j) at 2. by rewrite (Put4byte_bytes _ _ _ _ j Hc') by lia.
      * rewrite C2 by lia. specialize (Hh1 (j - 4)).
        replace (idx + j) with (idx + 4 + (j - 4)) by lia. rewrite Hh1 by lia.
        rewrite (bsub_at _ _ _ _ _ Et) by lia.
        rewrite (Put4byte_at _ _ _ _ _ Hc') by lia. f_equal. lia.
  - apply wp_bind. eapply wp_lift; [exact Hc'|]. unfold after.
    apply addOverflow_first; [done|lia].
Qed.
