(* ===== verification/BtKv.v ===== *)
(** * Key/value cells ([src/src/btreeInt.h], [src/src/btree.c])

    The byte format of the two kinds of cells and what the parsers of
    [BtPage] make of it.  A leaf cell is
    [varint nValue, varint nKeyLen, key, local value, overflow page?], an
    interior cell [child page, varint nKeyLen, key]. *)
From S2P Require Import Prelude Bits Bytes Varint BtPage Interval BtRep.

(** ** The format *)

(** Bytes of the value stored in the cell, the rest going to overflow pages. *)
Definition local_size (p : MemPage) (nValue : Z) : Z :=
  if nValue <=? maxLocal p then nValue
  else
    let surplus := minLocal p + (nValue - minLocal p) mod (usableSize (pBt p) - 4) in
    if surplus <=? maxLocal p then surplus else minLocal p.

(** The header of a leaf cell. *)
Definition kv_header (nValue nKeyLen : Z) : option bytes :=
  a ← putVarint32 nValue; b ← putVarint32 nKeyLen; Some (a ++ b).

(** The divider cell for a key. *)
Definition kv_divider (child : bytes) (key : bytes) : option bytes :=
  b ← putVarint32 (blen key); Some (child ++ b ++ key).

(** ** Varints in a cell *)

Lemma putVarint32_spec v :
  0 <= v < 2 ^ 32 ->
  exists p, putVarint32 v = Some p /\ bytes_ok p /\ 1 <= blen p <= 5 /\
    blen p = varint_size v /\
    forall rest, bytes_ok rest -> getVarint32 (p ++ rest) = Some (blen p, v).
Proof.
  intros Hv. unfold putVarint32. rewrite u32_small by done.
  assert (H32 : forall p rest, bytes_ok p -> bytes_ok rest ->
    varint_spec (p ++ rest) = Some (blen p, v) ->
    getVarint32 (p ++ rest) = Some (blen p, v)).
  { intros p rest Hp Hr E. rewrite getVarint32_spec by by apply Forall_app_2.
    unfold sat32. rewrite E. cbn [mbind option_bind].
    destruct (Z.ltb_spec v (2 ^ 32)); [done|lia]. }
  destruct (Z.ltb_spec v 128).
  - exists [u8 v]. rewrite u8_small by lia.
    assert (bytes_ok [v]) by (repeat constructor; lia).
    split; [done|]. split; [done|]. split; [done|]. split.
    + unfold varint_size. destruct (Z.ltb_spec v (2 ^ 7)); [done|lia].
    + intros rest Hr. apply H32; [done|done|]. cbn.
      destruct (Z.ltb_spec v 128); [done|lia].
  - destruct (PutVarint_enc v) as (p & E & Hok & Hsz & Hrt); [lia|].
    exists p. split; [done|]. split; [done|]. split; [|split; [done|]].
    + rewrite Hsz. unfold varint_size.
      repeat match goal with |- context [v <? ?b] => destruct (Z.ltb_spec v b) end; lia.
    + intros rest Hr. by apply H32.
Qed.

Lemma bfrom_app a b : bfrom (a ++ b) (blen a) = Some b.
Proof.
  unfold bfrom, blen. rewrite length_app, Nat2Z.inj_add, Nat2Z.id.
  destruct (Z.leb_spec 0 (Z.of_nat (length a))),
    (Z.leb_spec (Z.of_nat (length a)) (Z.of_nat (length a) + Z.of_nat (length b)));
    try lia. cbn. by rewrite drop_app_length.
Qed.

(** The local payload limits [decodeFlags] gives a leaf. *)
Definition limits_ok (p : MemPage) : Prop :=
  480 <= usableSize (pBt p) <= 65536 /\ 0 <= minLocal p <= maxLocal p /\
  maxLocal p <= usableSize (pBt p) - 35 - KV_CELL_HDR_OVERAGE.

Lemma local_size_range p n :
  limits_ok p -> 0 <= n -> 0 <= local_size p n <= maxLocal p /\ local_size p n <= n.
Proof.
  unfold limits_ok, KV_CELL_HDR_OVERAGE, KV_CELL_MAX_HDR.
  intros (H1 & H2 & H3) Hn. unfold local_size.
  destruct (Z.leb_spec n (maxLocal p)); [lia|].
  pose proof (Z.mod_pos_bound (n - minLocal p) (usableSize (pBt p) - 4)).
  pose proof (Z.mod_le (n - minLocal p) (usableSize (pBt p) - 4)).
  case_if; lia.
Qed.

(** The size of a leaf cell, from the sizes of its parts. *)
Definition leaf_size (p : MemPage) (hdr nValue : Z) : Z :=
  if nValue <=? maxLocal p then Z.max 4 (hdr + nValue)
  else hdr + local_size p nValue + 4.

(** Header and parse of a leaf cell: [rest] are the bytes after the key. *)
Lemma leaf_header_parse p nValue key rest h :
  limits_ok p -> pkind p = KVLeaf -> 0 <= nValue < 2 ^ 31 -> blen key <= 255 ->
  bytes_ok key -> bytes_ok rest -> kv_header nValue (blen key) = Some h ->
  let hdr := blen h + blen key in
  xCellSize p (h ++ key ++ rest) = Some (leaf_size p hdr nValue) /\
  xParseCell p (h ++ key ++ rest) =
    Some (mkInfo (blen key) hdr nValue (local_size p nValue)
            (leaf_size p hdr nValue) (blen h) (blen key)) /\
  bytes_ok h /\ 2 <= blen h <= 7.
Proof.
  intros Hlim Hk Hv Hkey Hok Hr Hh hdr.
  pose proof (blen_nonneg key). destruct Hlim as (L1 & L2 & L3).
  unfold KV_CELL_HDR_OVERAGE, KV_CELL_MAX_HDR in L3.
  destruct (putVarint32_spec nValue) as (a & Ea & Oka & La & _ & Ga); [lia|].
  destruct (putVarint32_spec (blen key)) as (b & Eb & Okb & Lb & Sb & Gb); [lia|].
  unfold kv_header in Hh. rewrite Ea, Eb in Hh. cbn in Hh. injection Hh as <-.
  assert (Hb2 : blen b <= 2).
  { rewrite Sb. unfold varint_size.
    repeat match goal with |- context [blen key <? ?n] => destruct (Z.ltb_spec (blen key) n) end; lia. }
  assert (Hkr : bytes_ok (key ++ rest)) by by apply Forall_app_2.
  assert (Hbkr : bytes_ok (b ++ key ++ rest)) by by apply Forall_app_2.
  subst hdr. rewrite blen_app. rewrite <- (app_assoc a b).
  assert (Hmod : nValue < maxLocal p \/
    u32 (nValue - minLocal p) = nValue - minLocal p).
  { destruct (Z.lt_ge_cases nValue (maxLocal p)); [by left|right]. apply u32_small. lia. }
  pose proof (Z.mod_pos_bound (nValue - minLocal p) (usableSize (pBt p) - 4)).
  split; [|split; [|split; [by apply Forall_app_2|lia]]].
  - unfold xCellSize. rewrite Hk. unfold kvCellSizeLeaf.
    rewrite Ga by done. cbn [mbind option_bind]. rewrite bfrom_app.
    cbn [mbind option_bind]. rewrite Gb by done. cbn [mbind option_bind].
    unfold leaf_size, local_size. destruct (Z.leb_spec nValue (maxLocal p)).
    + rewrite (u32_small (blen a + _ + _)), u32_small by lia. f_equal.
      destruct (Z.ltb_spec (nValue + (blen a + blen b + blen key)) 4);
        rewrite u16_small; lia.
    + destruct Hmod as [|Hmod]; [lia|]. rewrite Hmod.
      rewrite (u32_small (minLocal p + _)) by lia.
      rewrite (u16_small (blen a + _ + _)) by lia.
      destruct (Z.ltb_spec (maxLocal p) (minLocal p +
        (nValue - minLocal p) mod (usableSize (pBt p) - 4)));
      case_if; try lia; rewrite u32_small, u16_small by lia; f_equal; lia.
  - unfold xParseCell. rewrite Hk. unfold kvParseCellLeaf.
    rewrite Ga by done. cbn [mbind option_bind]. rewrite bfrom_app.
    cbn [mbind option_bind]. rewrite Gb by done. cbn [mbind option_bind].
    unfold leaf_size, local_size. destruct (Z.leb_spec nValue (maxLocal p)).
    + rewrite (u32_small (blen a + _ + _)), (u32_small (nValue + _)) by lia.
      rewrite (u16_small (nValue + _)) by lia.
      rewrite (u16_small nValue) by lia. f_equal. f_equal.
      destruct (Z.ltb_spec (nValue + (blen a + blen b + blen key)) 4); lia.
    + destruct Hmod as [|Hmod]; [lia|].
      unfold btreeParseCellAdjustSizeForOverflow. cbn [nPayload pPayload nKey nKeyLen pKey].
      rewrite Hmod. f_equal.
      case_if; rewrite !u16_small; try lia; f_equal; try lia;
        rewrite ?u16_small; lia.
Qed.

Lemma leaf_size_bound p hdr nValue :
  limits_ok p -> 0 <= nValue -> 2 <= hdr <= KV_CELL_MAX_HDR ->
  4 <= leaf_size p hdr nValue <= usableSize (pBt p) - 17 /\
  hdr + local_size p nValue <= leaf_size p hdr nValue.
Proof.
  intros Hl Hn Hh. pose proof (local_size_range p nValue Hl Hn).
  unfold limits_ok, KV_CELL_HDR_OVERAGE, KV_CELL_MAX_HDR in *.
  unfold leaf_size. destruct (Z.leb_spec nValue (maxLocal p)); [|lia].
  unfold local_size in *. destruct (Z.leb_spec nValue (maxLocal p)); lia.
Qed.

(** A leaf cell whose bytes after the key fill the size its header announces. *)
Lemma leaf_cell_ok p nValue key tl h :
  limits_ok p -> pkind p = KVLeaf -> 0 <= nValue < 2 ^ 31 -> blen key <= 255 ->
  bytes_ok key -> bytes_ok tl -> kv_header nValue (blen key) = Some h ->
  blen (h ++ key ++ tl) = leaf_size p (blen h + blen key) nValue ->
  cell_ok p (h ++ key ++ tl).
Proof.
  intros Hl Hk Hv Hkey Hok Htl Hh Hsz. pose proof (blen_nonneg key).
  destruct (leaf_header_parse p nValue key tl h Hl Hk Hv Hkey Hok Htl Hh)
    as (S1 & _ & Okh & Lh).
  pose proof (leaf_size_bound p (blen h + blen key) nValue Hl) as Hb.
  unfold KV_CELL_MAX_HDR in Hb. split; [|split; [|split]].
  - repeat apply Forall_app_2; done.
  - rewrite Hsz. lia.
  - by rewrite Hsz.
  - intros rest Hr. rewrite <- !app_assoc.
    destruct (leaf_header_parse p nValue key (tl ++ rest) h Hl Hk Hv Hkey Hok)
      as (S2 & _); [by apply Forall_app_2|done|]. by rewrite S2, Hsz.
Qed.

(** A divider: its size and what the parser returns. *)
Lemma divider_parse p child key c rest :
  pkind p = KVInterior -> blen child = 4 -> bytes_ok child ->
  blen key <= 255 -> bytes_ok key -> bytes_ok rest ->
  kv_divider child key = Some c ->
  xCellSize p (c ++ rest) = Some (blen c) /\
  xParseCell p (c ++ rest) =
    Some (mkInfo (blen key) 0 0 0 (blen c) (blen c - blen key) (blen key)) /\
  bytes_ok c /\ 5 <= blen c <= 4 + 2 + 255 /\
  bfrom c (blen c - blen key) = Some key /\ take 4 c = child.
Proof.
  intros Hk Hc Hcok Hkey Hok Hr Hd. pose proof (blen_nonneg key).
  destruct (putVarint32_spec (blen key)) as (b & Eb & Okb & Lb & Sb & Gb); [lia|].
  unfold kv_divider in Hd. rewrite Eb in Hd. cbn in Hd. injection Hd as <-.
  assert (Hb2 : blen b <= 2).
  { rewrite Sb. unfold varint_size.
    repeat match goal with |- context [blen key <? ?n] => destruct (Z.ltb_spec (blen key) n) end; lia. }
  assert (Hkr : bytes_ok (key ++ rest)) by by apply Forall_app_2.
  rewrite <- !(app_assoc child), <- (app_assoc b), !blen_app.
  assert (Hf : bfrom (child ++ b ++ key ++ rest) 4 = Some (b ++ key ++ rest)).
  { rewrite <- Hc. apply bfrom_app. }
  split_and?.
  - unfold xCellSize. rewrite Hk. unfold kvCellSizeInterior. rewrite Hf.
    cbn [mbind option_bind]. rewrite Gb by done. cbn [mbind option_bind].
    rewrite !u16_small by (rewrite ?u16_small; lia). f_equal. lia.
  - unfold xParseCell. rewrite Hk. unfold kvParseCellInterior. rewrite Hf.
    cbn [mbind option_bind]. rewrite Gb by done. cbn [mbind option_bind].
    rewrite u32_small, u16_small by lia. f_equal. f_equal; lia.
  - repeat apply Forall_app_2; done.
  - lia.
  - lia.
  - rewrite app_assoc. replace (_ - _) with (blen (child ++ b));
      [apply bfrom_app|rewrite blen_app; lia].
  - apply take_app_length'. unfold blen in Hc. lia.
Qed.

Lemma divider_cell_ok p child key c :
  pkind p = KVInterior -> blen child = 4 -> bytes_ok child ->
  blen key <= 255 -> bytes_ok key -> kv_divider child key = Some c ->
  cell_ok p c.
Proof.
  intros Hk Hc Hcok Hkey Hok Hd.
  assert (H : forall rest, bytes_ok rest -> xCellSize p (c ++ rest) = Some (blen c)).
  { intros rest Hr. by apply (divider_parse p child key c rest). }
  destruct (divider_parse p child key c []) as (_ & _ & C1 & C2 & _);
    try (done || by constructor).
  split; [done|]. split; [lia|]. split; [|done].
  specialize (H []). rewrite app_nil_r in H. by apply H, Forall_nil.
Qed.
