(* ===== verification/BtInit.v ===== *)
(** * Opening and clearing b-tree pages: facts about [btreeInitPage],
    [btreeComputeFreeSpace], [btreeCellSizeCheck], [decodeFlags] and
    [zeroPage] ([src/src/btree.c]) *)
From S2P Require Import Prelude Bits Bytes Varint BtPage Interval.
From S2P Require Import BtRep BtDefrag BtCell.

(** ** Counting the free bytes *)

(** On any page the walk along the freeblocks ends and stays on the page. *)
Lemma freeblock_loop_safe p fuel iCellLast pc n :
  page_geom p -> 0 <= pc -> iCellLast = usableSize (pBt p) - 4 ->
  (Z.to_nat (iCellLast + 1 - pc) < fuel)%nat ->
  wp (freeblock_loop fuel iCellLast pc n)
    (okp (fun s => s = p) (fun _ s => s = p)) p.
Proof.
  intros Hg Hpc -> Hf. pose proof (page_geom_bounds p Hg) as (Hu & Hl & Hok & _).
  revert pc n Hpc Hf. induction fuel as [|fuel IH]; intros pc n Hpc Hf; [lia|].
  cbn [freeblock_loop]. case_if; [by apply wp_fail|].
  apply wp_bind, wp_rd2; [done|lia|lia|]. unfold after.
  apply wp_bind, wp_rd2; [done|lia|lia|]. unfold after.
  case_if; [by apply wp_fail|]. case_if; [by apply wp_ret|].
  pose proof (at2_range (aData p) (pc + 2) Hok). apply IH; lia.
Qed.

Definition same_image (p s : MemPage) : Prop := aData s = aData p /\ pBt s = pBt p.

Lemma btreeComputeFreeSpace_safe p :
  page_geom p ->
  wp btreeComputeFreeSpace (okp (fun s => s = p) (fun _ => same_image p)) p.
Proof.
  intros Hg. pose proof (page_geom_bounds p Hg) as (Hu & Hl & Hok & Hh).
  unfold btreeComputeFreeSpace. apply wp_bind, wp_gets. unfold after, id.
  apply wp_bind, wp_rd2; [done|lia|lia|]. unfold after.
  apply wp_bind, wp_rd2; [done|lia|lia|]. unfold after.
  apply wp_bind, wp_rd1; [lia|]. unfold after.
  eapply (wp_seq _ _ _ (fun _ s => s = p)).
  { case_if; [|by apply wp_ret]. case_if; [by apply wp_fail|].
    eapply wp_seq; [apply freeblock_loop_safe; [done|lia|done|lia]|].
    intros [[[pc next] size] n] s ->. case_if; [by apply wp_fail|].
    case_if; [by apply wp_fail|]. by apply wp_ret. }
  intros n s ->. case_if; [by apply wp_fail|]. by apply wp_modify.
Qed.

(** The loop adds up the blocks of a well-formed chain. *)
Lemma freeblock_loop_spec p fuel x F n :
  page_geom p -> links (aData p) (x :: F) -> 4 <= x.2 ->
  ascending (iend x + 4) F -> 0 <= x.1 ->
  (forall y, y ∈ x :: F -> iend y <= usableSize (pBt p)) ->
  (length F < fuel)%nat ->
  wp (freeblock_loop fuel (usableSize (pBt p) - 4) x.1 n)
    (returns (fun r s => s = p /\ exists y, y ∈ x :: F /\
       r = (y.1, 0, y.2, n + total (x :: F)))) p.
Proof.
  intros Hg. pose proof (page_geom_bounds p Hg) as (Hu & Hl & Hok & _).
  revert x n fuel. induction F as [|y F IH]; intros x n fuel [L1 L2] Hx Ha H0 Hi Hf;
    (destruct fuel as [|fuel]; [cbn in Hf; lia|]); cbn [freeblock_loop];
    pose proof (Hi x ltac:(by left)) as Hxi; unfold iend in Hxi.
  - case_if; [lia|]. cbn in L2.
    apply wp_bind, wp_rd2; [done|lia|lia|]. unfold after. rewrite L2.
    apply wp_bind, wp_rd2; [done|lia|lia|]. unfold after. rewrite L1.
    case_if; [lia|]. case_if; [|lia]. apply wp_ret. split; [done|].
    exists x. split; [by left|]. rewrite total_cons. change (total []) with 0.
    by rewrite Z.add_0_r.
  - destruct L2 as (L2 & L3 & L4). destruct Ha as (A1 & A2 & A3). unfold iend in A1.
    case_if; [lia|].
    apply wp_bind, wp_rd2; [done|lia|lia|]. unfold after. rewrite L2.
    apply wp_bind, wp_rd2; [done|lia|lia|]. unfold after. rewrite L1.
    case_if; [lia|]. case_if; [lia|].
    eapply okp_mono.
    { apply (IH y (n + x.2) fuel); try done; try lia.
      - intros z Hz. apply Hi. by right.
      - cbn in Hf. lia. }
    intros r s (-> & z & Hz & ->). split; [done|]. exists z. split; [by right|].
    rewrite (total_cons x), Z.add_assoc. done.
Qed.

Lemma btreeComputeFreeSpace_spec p cl F :
  page_rep p cl F ->
  wp btreeComputeFreeSpace (returns (fun _ s => s = set_nFree (free_bytes p cl) p)) p.
Proof.
  intros H. pose proof (rep_geom _ _ _ H) as Hg.
  pose proof (rep_bounds _ _ _ H) as (B1 & B2 & B3 & B4 & B5 & B6 & B7 & B8).
  pose proof (rep_total _ _ _ H) as (T1 & T2 & T3).
  pose proof (sizes_nonneg cl.*2).
  assert (Hfree : free_bytes p cl = pfrag p + ptop p + total F - pfirst p).
  { unfold free_bytes. rewrite total_regions. lia. }
  assert (Hff : hdrOffset p + 8 + childPtrSize p + 2 * nCell p = pfirst p).
  { unfold pfirst. destruct Hg as (_ & _ & _ & _ & _ & _ & -> & _). lia. }
  unfold btreeComputeFreeSpace. apply wp_bind, wp_gets. unfold after, id.
  apply wp_bind, wp_rd2; [done|lia|lia|]. unfold after. fold (ptop p).
  apply wp_bind, wp_rd2; [done|lia|lia|]. unfold after.
  apply wp_bind, wp_rd1; [lia|]. unfold after. fold (pfrag p). rewrite Hff.
  pose proof (rep_chain _ _ _ H) as Hc. apply chain_links in Hc as [-> Hlk].
  pose proof (rep_asc _ _ _ H) as Ha.
  assert (HinF : forall y, y ∈ F -> iend y <= usableSize (pBt p)).
  { intros y Hy. pose proof (rep_inside _ _ _ H) as Hi.
    rewrite list.Forall_forall in Hi. apply Hi. rewrite elem_of_app. by right. }
  eapply (wp_seq _ _ _ (fun n s => s = p /\ n = pfrag p + ptop p + total F)).
  { destruct F as [|x F].
    - cbn [headptr]. case_if; [lia|]. apply wp_ret. split; [done|].
      change (total []) with 0. lia.
    - cbn [headptr]. destruct Ha as (A1 & A2 & A3). case_if; [|lia].
      case_if; [lia|].
      pose proof (ascending_length _ (usableSize (pBt p)) _ (rep_asc _ _ _ H) HinF) as Hlen.
      cbn [length] in Hlen.
      eapply wp_seq.
      { apply (freeblock_loop_spec p _ x F); try done; lia. }
      intros r s (-> & y & Hy & ->). case_if; [lia|].
      specialize (HinF y Hy). unfold iend in HinF. case_if; [lia|].
      by apply wp_ret. }
  intros n s [-> ->]. case_if; [apply orb_prop in Hif; destruct Hif; zb; lia|].
  apply wp_modify. rewrite Hfree. f_equal. rewrite u16_small; lia.
Qed.

(** ** zeroPage *)

Definition flag_byte (k : kind) : Z :=
  match k with
  | KVLeaf => Z.lor (Z.lor PTF_LEAFDATA PTF_INTKEY) PTF_LEAF
  | KVInterior => Z.lor PTF_LEAFDATA PTF_INTKEY
  end.

(** The fields [decodeFlags] derives from the page type. *)
Definition decoded (p : MemPage) : Prop :=
  maxLocal p = (match pkind p with
                | KVLeaf => u16 (maxLeaf (pBt p) - KV_CELL_HDR_OVERAGE)
                | KVInterior => maxLeaf (pBt p) end) /\
  minLocal p = minLeaf (pBt p).

(** A page before its derived fields are set. *)
Definition raw_page (p : MemPage) : Prop :=
  bt_ok (pBt p) /\ bytes_ok (aData p) /\ blen (aData p) = pageSize (pBt p) /\
  (hdrOffset p = 0 \/ hdrOffset p = 100).

Lemma decodeFlags_spec p k :
  wp (decodeFlags (flag_byte k))
    (returns (fun _ s => decoded s /\ pkind s = k /\ aData s = aData p /\
       pBt s = pBt p /\ hdrOffset s = hdrOffset p /\ nFree s = nFree p /\
       childPtrSize s = (match k with KVLeaf => 0 | KVInterior => 4 end) /\
       leaf s = (match k with KVLeaf => 1 | KVInterior => 0 end))) p.
Proof.
  unfold decodeFlags. apply wp_bind, wp_gets. unfold after, id.
  destruct k; apply wp_modify; by repeat split.
Qed.

(** Any other type is refused. *)
Lemma decodeFlags_corrupt p f :
  f <> flag_byte KVLeaf -> f <> flag_byte KVInterior ->
  fst (decodeFlags f p) = Fail SQLITE_CORRUPT.
Proof.
  intros H1 H2. unfold decodeFlags, bind, gets, id.
  destruct (Z.eqb_spec f (Z.lor (Z.lor PTF_LEAFDATA PTF_INTKEY) PTF_LEAF)); [done|].
  by destruct (Z.eqb_spec f (Z.lor PTF_LEAFDATA PTF_INTKEY)).
Qed.

Lemma wp_ignore {S A} (m : M S A) (Q : S -> Prop) s :
  wp m (returns (fun _ => Q)) s -> wp (ignore m) (returns (fun _ => Q)) s.
Proof. unfold wp, ignore. by destruct (m s) as [[a|rc|] s']. Qed.

Lemma pow2_mask b : bt_ok b -> u16 (pageSize b - 1) = pageSize b - 1.
Proof.
  intros [(k & Hk & ->) _]. pose proof (Z.pow_le_mono_r 2 k 16).
  pose proof (Z.pow_pos_nonneg 2 k). change (2 ^ 16) with 65536 in *.
  apply u16_small. lia.
Qed.

Lemma zeroPage_spec p k :
  raw_page p ->
  wp (zeroPage (flag_byte k))
    (returns (fun _ s => page_holds s [] /\ decoded s /\ pkind s = k /\ ovfl s = [] /\
       isInit s = 1 /\ pBt s = pBt p /\ hdrOffset s = hdrOffset p /\
       bat (aData s) (hdrOffset p) = flag_byte k /\
       (forall j, j < hdrOffset p \/ usableSize (pBt p) <= j ->
          bat (aData s) j = bat (aData p) j))) p.
Proof.
  intros (Hbt & Hok & Hl & Hh). pose proof Hbt as [(e & He & Hps) Hu].
  pose proof (Z.pow_le_mono_r 2 e 16). change (2 ^ 16) with 65536 in *.
  unfold zeroPage. apply wp_bind, wp_gets. unfold after, id.
  eapply (wp_seq _ _ _ (fun _ s => exists d, s = set_aData d p /\ bytes_ok d /\
    blen d = blen (aData p) /\
    forall j, j < hdrOffset p \/ usableSize (pBt p) <= j -> bat d j = bat (aData p) j)).
  { case_if.
    - apply wp_wrz; [lia|lia|lia|]. intros d (L & O & A) _. exists d.
      split; [done|]. split; [auto|]. split; [done|]. intros j Hj. apply A. lia.
    - apply wp_ret. exists (aData p). split; [by rewrite set_aData_id|]. done. }
  intros _ s (d & -> & Od & Ld & Hd).
  apply wp_bind, wp_wr1; cbn [aData set_aData]; [lia|].
  intros d1 (L1 & O1 & A1) V1. specialize (O1 Od). unfold after.
  apply wp_bind, wp_wrz; cbn [aData set_aData]; [lia|lia|lia|].
  intros d2 (L2 & O2 & A2) V2. specialize (O2 O1). unfold after.
  apply wp_bind, wp_wr1; cbn [aData set_aData]; [lia|].
  intros d3 (L3 & O3 & A3) V3. specialize (O3 O2). unfold after.
  apply wp_bind, wp_wr2; cbn [aData set_aData]; [lia|lia|].
  intros d4 (L4 & O4 & A4) V4. specialize (O4 O3). unfold after.
  apply wp_bind, wp_modify. unfold after.
  eapply wp_seq; [apply wp_ignore, decodeFlags_spec|].
  intros [] s (Hdec & Hk & Ed & Eb & Eh & Ef & Ec & El). cbn in Ed, Eb, Eh, Ef.
  apply wp_bind, wp_modify. unfold after.
  apply wp_bind, wp_modify. unfold after.
  apply wp_bind, wp_modify. unfold after.
  apply wp_modify. cbn. rewrite Eb, Eh.
  set (first := hdrOffset p + (if Z.land (flag_byte k) PTF_LEAF =? 0 then 12 else 8)) in *.
  assert (Hfirst : first = hdrOffset p + 8 + childPtrSize s).
  { rewrite Ec. subst first. destruct k.
    - change (Z.land (flag_byte KVLeaf) PTF_LEAF =? 0) with false. cbv iota. lia.
    - change (Z.land (flag_byte KVInterior) PTF_LEAF =? 0) with true. cbv iota. lia. }
  assert (Hcps : childPtrSize s = 0 \/ childPtrSize s = 4).
  { rewrite Ec. destruct k; [by left|by right]. }
  split_and?; try done.
  - pose proof (empty_rep (set_layout (u16 first) (u16 (pageSize (pBt p) - 1))
      (set_ovfl [] s)) (aData s)) as Hrep.
    exists [], []. split; [|split; [done|]].
    + unshelve epose proof (Hrep _ _ _ _ _ _ _ (nFree s)) as Hr; cbn; rewrite ?Eh, ?Eb, ?Ed; try done.
      * unfold page_geom. cbn. rewrite Eb, Eh, Ec, El, Ed, Hk. split; [done|].
        split; [done|]. split; [lia|]. split; [done|]. split; [done|]. split; [done|].
        split; [rewrite u16_small; lia|by apply pow2_mask].
      * unfold at2. rewrite !A4, !A3, !V2 by lia. done.
      * unfold at2. rewrite !A4, !A3, !V2 by lia. done.
      * rewrite A4, V3 by lia. done.
      * destruct Hr. split; done.
    + unfold free_bytes, pfirst. cbn. rewrite Eb, Ef. rewrite u16_small, u16_small; lia.
  - rewrite Ed, A4, A3, A2, V1 by lia. apply u8_small. destruct k; vm_compute; by split.
  - intros j Hj. rewrite Ed, A4, A3, A2, A1 by lia. by apply Hd.
Qed.

(** ** btreeInitPage *)

(** The fields a page's contents depend on. *)
Definition same_layout (p s : MemPage) : Prop :=
  aData s = aData p /\ pBt s = pBt p /\ hdrOffset s = hdrOffset p /\
  childPtrSize s = childPtrSize p /\ leaf s = leaf p /\
  cellOffset s = cellOffset p /\ nCell s = nCell p /\ maskPage s = maskPage p /\
  pkind s = pkind p /\ maxLocal s = maxLocal p /\ minLocal s = minLocal p.

Lemma rep_same_layout p s cl F :
  same_layout p s -> page_rep p cl F ->
  page_rep s cl F /\ free_bytes s cl = free_bytes p cl.
Proof.
  destruct p, s. unfold same_layout. cbn.
  intros (-> & -> & -> & -> & -> & -> & -> & -> & -> & -> & ->) H.
  split; [|done]. destruct H. split; done.
Qed.

Lemma cellcheck_loop_spec p cl F n i iCellFirst iCellLast :
  page_rep p cl F -> iCellFirst <= ptop p ->
  iCellLast = (if leaf p =? 0 then usableSize (pBt p) - 4 - 1 else usableSize (pBt p) - 4) ->
  (leaf p = 0 -> Forall (fun x => 5 <= blen x.2) cl) ->
  (i + n <= length cl)%nat ->
  wp (cellcheck_loop n (Z.of_nat i) iCellFirst iCellLast) (returns (fun _ s => s = p)) p.
Proof.
  intros H Hf -> Hlf. revert i.
  pose proof (rep_bounds _ _ _ H) as (B1 & B2 & B3 & B4 & B5 & B6 & B7 & B8).
  induction n as [|n IH]; intros i Hi; cbn [cellcheck_loop]; [by apply wp_ret|].
  destruct (lookup_lt_is_Some_2 cl i) as [x Hx]; [lia|].
  assert (Hxin : x ∈ cl) by by eapply list_elem_of_lookup_2.
  destruct (rep_inside_cell _ _ _ x H Hxin) as (X1 & X2 & X3 & X4 & X5).
  apply wp_bind, wp_gets. unfold after, id.
  apply wp_bind, wp_rd2; [done|lia|lia|]. unfold after.
  replace (cellOffset p + Z.of_nat i * 2) with (cellOffset p + 2 * Z.of_nat i) by lia.
  rewrite (rep_ptr _ _ _ H i x Hx).
  assert (Hlast : x.1 <= (if leaf p =? 0 then usableSize (pBt p) - 4 - 1
                          else usableSize (pBt p) - 4)).
  { destruct (Z.eqb_spec (leaf p) 0) as [E|]; [|lia].
    specialize (Hlf E). rewrite list.Forall_forall in Hlf. specialize (Hlf x Hxin). lia. }
  set (last := if leaf p =? 0 then _ else _) in *. case_if.
  { apply orb_prop in Hif. destruct Hif; zb; lia. }
  apply wp_bind. unfold xCellSizeAt. apply wp_bind, wp_gets. unfold after, id.
  eapply wp_lift; [apply (cell_size_at p _ x.1 x.2); done || lia|].
  case_if; [lia|]. replace (Z.of_nat i + 1) with (Z.of_nat (S i)) by lia.
  apply IH. lia.
Qed.

Lemma btreeCellSizeCheck_spec p cl F :
  page_rep p cl F -> (leaf p = 0 -> Forall (fun x => 5 <= blen x.2) cl) ->
  wp btreeCellSizeCheck (returns (fun _ s => s = p)) p.
Proof.
  intros H Hlf. unfold btreeCellSizeCheck. apply wp_bind, wp_gets. unfold after, id.
  rewrite (rep_ncell _ _ _ H), Nat2Z.id.
  apply (cellcheck_loop_spec p cl F _ 0); try done.
  pose proof (rep_bounds _ _ _ H) as (B1 & _ & _ & _ & _ & B6 & _). lia.
Qed.

Lemma btreeInitPage_spec p cl F p0 :
  page_rep p cl F -> decoded p ->
  bat (aData p) (hdrOffset p) = flag_byte (pkind p) ->
  (leaf p = 0 -> Forall (fun x => 5 <= blen x.2) cl) ->
  aData p0 = aData p -> pBt p0 = pBt p -> hdrOffset p0 = hdrOffset p ->
  wp (btreeInitPage ;;* btreeComputeFreeSpace)
    (returns (fun _ s => page_holds s cl.*2 /\ same_layout p s /\ ovfl s = [] /\
       isInit s = 1)) p0.
Proof.
  intros H [Hd1 Hd2] Hfl Hlf Ea Eb Eh.
  pose proof (rep_bounds _ _ _ H) as (B1 & B2 & B3 & B4 & B5 & B6 & B7 & B8).
  pose proof (rep_total _ _ _ H) as (T1 & T2 & T3).
  pose proof (rep_geom _ _ _ H) as (G1 & G2 & G3 & G4 & G5 & G6 & G7 & G8).
  assert (Hnc : nCell p <= MX_CELL (pBt p)).
  { unfold MX_CELL. apply Z.div_le_lower_bound; [lia|]. rewrite (rep_ncell _ _ _ H).
    assert (4 * Z.of_nat (length cl) <= sizes cl.*2).
    { clear -H. pose proof (rep_cell _ _ _ H) as Hc. clear H.
      induction cl as [|x cl IH]; [done|]. apply list.Forall_cons in Hc as [[(_ & Hx & _) _] Hc].
      rewrite fmap_cons, sizes_cons. specialize (IH Hc). cbn [length]. lia. }
    destruct G1 as [_ G1]. lia. }
  apply wp_bind. unfold btreeInitPage. apply wp_bind, wp_gets. unfold after at 1, id.
  apply wp_bind, wp_rd1; [rewrite Ea, Eh; lia|]. unfold after at 1. rewrite Ea, Eh, Hfl.
  apply wp_bind. eapply wp_mono; [apply decodeFlags_spec|].
  intros o s Hs. destruct o as [[]|rc|]; try done.
  destruct Hs as ((Hm1 & Hm2) & Hk & Ed & Eb1 & Eh1 & Ef & Ec & El).
  rewrite Ea in Ed. rewrite Eb in Eb1. rewrite Eh in Eh1. unfold after at 1.
  apply wp_bind, wp_gets. unfold after at 1, id.
  apply wp_bind, wp_modify. unfold after at 1.
  apply wp_bind, wp_modify. unfold after at 1.
  apply wp_bind, wp_rd2; cbn; rewrite ?Ed, ?Eh1; [done|lia|lia|]. unfold after at 1.
  rewrite (rep_hdr _ _ _ H).
  apply wp_bind, wp_modify. unfold after at 1. rewrite Eb. case_if; [lia|].
  apply wp_bind, wp_modify. unfold after at 1.
  apply wp_bind, wp_modify. unfold after at 1.
  match goal with |- wp _ _ ?x => set (s1 := x) end.
  assert (Hsame : same_layout p s1).
  { subst s1. unfold same_layout. cbn. rewrite Hm1, Hm2, Hk, Eb1, Eh1, Ec, El, Ed, G6, G5, G7, G8.
    rewrite <- G5, pow2_mask, Hd1, Hd2 by done.
    split_and?; try done. apply u16_small. destruct (pkind p); lia. }
  destruct (rep_same_layout p s1 cl F Hsame H) as [Hr1 Hfree].
  assert (Hgo : wp btreeComputeFreeSpace
    (returns (fun _ s => page_holds s cl.*2 /\ same_layout p s /\ ovfl s = [] /\
       isInit s = 1)) s1).
  { eapply okp_mono; [by eapply btreeComputeFreeSpace_spec|].
    intros [] s2 ->. split; [|by repeat split; apply Hsame].
    exists cl, F. split; [by destruct Hr1|]. done. }
  case_if; [|by apply wp_ret].
  eapply wp_mono; [apply (btreeCellSizeCheck_spec s1 cl F); [done|]|].
  - destruct Hsame as (_ & _ & _ & _ & -> & _). done.
  - intros [[]|rc|] s2 Hs2; try done. cbn in Hs2. subst s2. exact Hgo.
Qed.
