(* ===== verification/BtPageProps.v ===== *)
(** * The page layer: properties

    A page that satisfies [page_holds p cs] stores the list of cells [cs] and
    knows its free space.  Each operation of the page layer is the
    corresponding list operation; the operations that work on pages read from
    a damaged file are also shown to stay inside the page buffer. *)
From S2P Require Import Prelude Bits Bytes Varint BtPage Interval.
From S2P Require Import BtRep BtFree BtDefrag BtAlloc BtCell BtKv.
From S2P Require Import BtInit.

(** ** Concrete pages for the witnesses *)

Definition demo_bt : BtShared := mkBt 512 512 0 477 39 127 true.
Definition demo_raw : MemPage :=
  mkPage 0 0 0 2 0 0 0 0 0 0 0 0 0 0 [] demo_bt (zeros 512) KVInterior.
Definition demo0 : MemPage := Eval vm_compute in snd (zeroPage (flag_byte KVLeaf) demo_raw).
Definition demo0i : MemPage := Eval vm_compute in snd (zeroPage (flag_byte KVInterior) demo_raw).
(** Key "ab" with value "xyz", key "c" with an empty value. *)
Definition demo_cell1 : bytes := [3; 2; 97; 98; 120; 121; 122].
Definition demo_cell2 : bytes := [0; 1; 99; 0].
Definition demo1 : MemPage := Eval vm_compute in snd (insertCellFast SQLITE_OK (Z.of_nat 0) demo_cell1 (blen demo_cell1) demo0).
Definition demo2 : MemPage := Eval vm_compute in snd (insertCellFast SQLITE_OK (Z.of_nat 1) demo_cell2 (blen demo_cell2) demo1).

Lemma demo_raw_ok : raw_page demo_raw.
Proof.
  split; [split; [exists 9; split; [lia|done]|cbn; lia]|].
  split; [apply zeros_ok|]. split; [done|by left].
Qed.

Lemma demo0_ok : page_holds demo0 [] /\ decoded demo0 /\ pkind demo0 = KVLeaf /\
  ovfl demo0 = [] /\ pBt demo0 = demo_bt /\ hdrOffset demo0 = 0 /\
  bat (aData demo0) 0 = flag_byte KVLeaf.
Proof.
  destruct (returns_run _ _ _ (zeroPage_spec demo_raw KVLeaf demo_raw_ok))
    as (a & s & E & H1 & H2 & H3 & H4 & H5 & H6 & H7 & H8 & _).
  apply (f_equal snd) in E. vm_compute in E. subst s. done.
Qed.

Lemma demo0i_ok : page_holds demo0i [] /\ pkind demo0i = KVInterior /\
  ovfl demo0i = [].
Proof.
  destruct (returns_run _ _ _ (zeroPage_spec demo_raw KVInterior demo_raw_ok))
    as (a & s & E & H1 & H2 & H3 & H4 & _).
  apply (f_equal snd) in E. vm_compute in E. subst s. done.
Qed.

Lemma demo_limits p : maxLocal p = 229 -> minLocal p = 39 -> pBt p = demo_bt ->
  limits_ok p.
Proof.
  intros E1 E2 E3. unfold limits_ok. rewrite E1, E2, E3. cbn.
  unfold KV_CELL_HDR_OVERAGE, KV_CELL_MAX_HDR. lia.
Qed.

Lemma demo_cell1_ok p :
  limits_ok p -> pkind p = KVLeaf -> maxLocal p = 229 -> cell_ok p demo_cell1.
Proof.
  intros Hl Hk Hm.
  apply (leaf_cell_ok p 3 [97; 98] [120; 121; 122] [3; 2]); try done.
  - repeat constructor; lia.
  - repeat constructor; lia.
  - unfold leaf_size. by rewrite Hm.
Qed.
Lemma demo_cell2_ok p :
  limits_ok p -> pkind p = KVLeaf -> maxLocal p = 229 -> cell_ok p demo_cell2.
Proof.
  intros Hl Hk Hm.
  apply (leaf_cell_ok p 0 [99] [0] [0; 1]); try done.
  - repeat constructor; lia.
  - repeat constructor; lia.
  - unfold leaf_size. by rewrite Hm.
Qed.

Lemma demo1_ok : page_holds demo1 [demo_cell1] /\ ovfl demo1 = [].
Proof.
  destruct demo0_ok as (H1 & H2 & H3 & H4 & _).
  assert (Hc : cell_ok demo0 demo_cell1).
  { apply demo_cell1_ok; [by apply demo_limits|done|done]. }
  pose proof (insertCellFast_spec demo0 [] 0 demo_cell1 H1 H4 Hc (le_n 0)) as Hw.
  destruct (returns_run _ _ _ Hw) as (a & s & E & Hs).
  apply (f_equal snd) in E. vm_compute in E. subst s.
  by destruct Hs as (_ & _ & Ho & Hp).
Qed.

Lemma demo2_ok : page_holds demo2 [demo_cell1; demo_cell2] /\ ovfl demo2 = [].
Proof.
  destruct demo1_ok as [H1 H4].
  assert (Hc : cell_ok demo1 demo_cell2).
  { apply demo_cell2_ok; [by apply demo_limits|done|done]. }
  pose proof (insertCellFast_spec demo1 _ 1 demo_cell2 H1 H4 Hc (le_n 1)) as Hw.
  destruct (returns_run _ _ _ Hw) as (a & s & E & Hs).
  apply (f_equal snd) in E. vm_compute in E. subst s.
  by destruct Hs as (_ & _ & Ho & Hp).
Qed.

(** ** Insertion and removal of cells *)

Lemma page_holds_nFree p cs :
  page_holds p cs ->
  nFree p = usableSize (pBt p) - cellOffset p - 2 * Z.of_nat (length cs) - sizes cs.
Proof.
  intros (cl & F & H & -> & ->). unfold free_bytes, pfirst.
  rewrite total_regions, length_fmap. rewrite (rep_ncell _ _ _ H). lia.
Qed.

Lemma sizes_delete cs k c : cs !! k = Some c -> sizes cs = blen c + sizes (delete k cs).
Proof.
  revert k. induction cs as [|c' cs IH]; intros k Hk; [done|].
  destruct k as [|k]; [by injection Hk as ->|].
  change (delete (S k) (c' :: cs)) with (c' :: delete k cs).
  rewrite !sizes_cons, (IH k Hk). lia.
Qed.

(** C11: inserting a cell the page has room for ([sz + 2] bytes, wherever they
    are on the page) never fails and makes it the [i]-th cell of the page,
    every other cell keeping its bytes and its order; without room the page
    image is untouched and the cell becomes the page's overflow cell. *)
Theorem insertCellFast_correct p cs i c :
  page_holds p cs -> ovfl p = [] -> cell_ok p c -> (i <= length cs)%nat ->
  exists s, insertCellFast SQLITE_OK (Z.of_nat i) c (blen c) p = (Ret tt, s) /\
    if blen c + 2 <=? nFree p
    then static s = static p /\ edges p (aData s) /\ ovfl s = [] /\
         page_holds s (take i cs ++ c :: drop i cs)
    else s = set_ovfl [(Z.of_nat i, c)] p.
Proof.
  intros Hp Ho Hc Hi.
  destruct (returns_run _ _ _ (insertCellFast_spec p cs i c Hp Ho Hc Hi))
    as ([] & s & E & Hs). eauto.
Qed.

Lemma insertCellFast_correct_witness :
  exists s, insertCellFast SQLITE_OK 0 demo_cell2 4 demo1 = (Ret tt, s) /\
    page_holds s [demo_cell2; demo_cell1].
Proof.
  destruct (insertCellFast_correct demo1 [demo_cell1] 0 demo_cell2) as (s & E & Hs).
  - apply demo1_ok.
  - apply demo1_ok.
  - apply demo_cell2_ok; [by apply demo_limits|reflexivity|reflexivity].
  - cbn. lia.
  - exists s. split; [exact E|]. apply Hs.
Defined.

(** C24: inserting a divider replaces its first four bytes by the child page
    number, on the page as in the overflow slot, and is otherwise the
    insertion of the [i]-th cell. *)
Theorem insertCell_correct p cs i c c' iChild :
  page_holds p cs -> ovfl p = [] -> bytes_ok c -> 4 <= blen c ->
  sqlite3Put4byte c 0 iChild = Some c' -> cell_ok p c' -> (i <= length cs)%nat ->
  exists s, insertCell SQLITE_OK (Z.of_nat i) c (blen c) iChild p = (Ret tt, s) /\
    if blen c + 2 <=? nFree p
    then static s = static p /\ edges p (aData s) /\ ovfl s = [] /\
         page_holds s (take i cs ++ c' :: drop i cs)
    else s = set_ovfl [(Z.of_nat i, c')] p.
Proof.
  intros Hp Ho Hb H4 Hput Hc Hi.
  destruct (returns_run _ _ _ (insertCell_spec p cs i c c' iChild Hp Ho Hb H4 Hput Hc Hi))
    as ([] & s & E & Hs). eauto.
Qed.

Lemma insertCell_correct_witness :
  exists s, insertCell SQLITE_OK 0 [0; 0; 0; 0; 1; 107] 6 258 demo0i = (Ret tt, s) /\
    page_holds s [[0; 0; 1; 2; 1; 107]].
Proof.
  destruct (insertCell_correct demo0i [] 0 [0; 0; 0; 0; 1; 107]
    [0; 0; 1; 2; 1; 107] 258) as (s & E & Hs).
  - apply demo0i_ok.
  - apply demo0i_ok.
  - repeat constructor; lia.
  - apply Z.leb_le; reflexivity.
  - reflexivity.
  - apply (divider_cell_ok demo0i [0; 0; 1; 2] [107]);
      first [reflexivity | repeat constructor; lia | vm_compute; congruence].
  - cbn. lia.
  - exists s. split; [exact E|]. apply Hs.
Defined.

(** C16: dropping the [k]-th cell of a page removes it from the list, keeps the
    others, and returns all of its bytes and its pointer to the free space. *)
Theorem dropCell_correct p cs k c :
  page_holds p cs -> cs !! k = Some c ->
  exists s, dropCell (Z.of_nat k) (blen c) p = (Ret tt, s) /\
    static s = static p /\ edges p (aData s) /\ page_holds s (delete k cs) /\
    nFree s = nFree p + blen c + 2.
Proof.
  intros Hp Hk.
  destruct (returns_run _ _ _ (dropCell_spec p cs k c Hp Hk))
    as ([] & s & E & Hst & He & Hs). exists s.
  do 4 (split; [done|]). unfold static in Hst. injection Hst as Eb _ _ Eo _ _ _ _ _ _ _.
  rewrite (page_holds_nFree _ _ Hp), (page_holds_nFree _ _ Hs), Eb, Eo.
  rewrite length_delete by done. apply lookup_lt_Some in Hk as Hlt.
  pose proof (sizes_delete _ _ _ Hk). lia.
Qed.

Lemma dropCell_correct_witness :
  exists s, dropCell 0 7 demo2 = (Ret tt, s) /\ page_holds s [demo_cell2] /\
    nFree s = 512 - 8 - 4 - 2.
Proof.
  destruct (dropCell_correct demo2 [demo_cell1; demo_cell2] 0 demo_cell1)
    as (s & E & _ & _ & Hs & Hn).
  - apply demo2_ok.
  - reflexivity.
  - exists s. split; [exact E|]. split; [exact Hs|]. rewrite Hn. reflexivity.
Defined.

(** ** Space *)

(** C25: defragmentation succeeds on every well-formed page, keeps every cell
    and its order, leaves no freeblock, at most [max 0 nMaxFrag] fragment
    bytes, and the free space as it was. *)
Theorem defragmentPage_correct p cs nMaxFrag :
  page_holds p cs ->
  exists s cl, defragmentPage nMaxFrag p = (Ret tt, s) /\
    page_holds s cs /\ cs = cl.*2 /\ page_rep s cl [] /\
    pfrag s <= Z.max 0 nMaxFrag /\ edges p (aData s) /\ nFree s = nFree p.
Proof.
  intros (cl & F & H & -> & Hnf).
  destruct (returns_run _ _ _ (defragmentPage_spec p cl F nMaxFrag H Hnf))
    as ([] & s & E & d & cl' & -> & He & Hcl & Hr & Hf).
  exists (set_aData d p), cl'. split; [done|]. split.
  - exists cl', []. split; [done|]. split; [done|].
    change (nFree p = free_bytes p cl'). rewrite Hnf. unfold free_bytes.
    by rewrite !total_regions, Hcl.
  - split_and?; done.
Qed.

Lemma defragmentPage_correct_witness :
  exists s cl, defragmentPage 0 demo2 = (Ret tt, s) /\
    page_holds s [demo_cell1; demo_cell2] /\
    [demo_cell1; demo_cell2] = cl.*2 /\ page_rep s cl [] /\ pfrag s <= 0 /\
    edges demo2 (aData s) /\ nFree s = nFree demo2.
Proof.
  apply (defragmentPage_correct demo2 [demo_cell1; demo_cell2] 0).
  apply demo2_ok.
Defined.

(** C26: space is found whenever the page has [nByte + 2] free bytes in all:
    [allocateSpace] returns a region inside the content area, disjoint from
    every cell (which it may have moved), with room left for the pointer. *)
Theorem allocateSpace_correct p cs nByte :
  page_holds p cs -> 4 <= nByte -> nByte + 2 <= nFree p ->
  exists idx s cl F, allocateSpace nByte p = (Ret idx, s) /\ cs = cl.*2 /\
    alloced p s cl idx nByte F /\
    Forall (fun x => disj (idx, nByte) (region x)) cl /\
    pfirst p + 2 <= idx /\ idx + nByte <= usableSize (pBt p).
Proof.
  intros (cl & F & H & -> & Hnf) H4 Hfit.
  destruct (returns_run _ _ _ (allocateSpace_spec p cl F nByte H Hnf H4 Hfit))
    as (idx & s & E & cl' & F' & Hcl & Hal).
  exists idx, s, cl', F'. split; [done|]. split; [done|]. split; [done|].
  destruct Hal as [Hst _ _ Hsp Hroom].
  pose proof (sp_inside _ _ _ Hsp) as Hi. cbn [app] in Hi.
  apply list.Forall_cons in Hi as [[I1 I2] _]. unfold iend in I2. cbn in I1, I2.
  rewrite Hst in I2. cbn in I2.
  split; [|lia]. destruct (sp_disj _ _ _ Hsp) as [Hd _].
  apply Forall_app in Hd as [Hd _]. rewrite list.Forall_forall in Hd.
  apply list.Forall_forall. intros x Hx. by apply Hd, list_elem_of_fmap_2.
Qed.

Lemma allocateSpace_correct_witness :
  exists idx s cl F, allocateSpace 20 demo2 = (Ret idx, s) /\
    [demo_cell1; demo_cell2] = cl.*2 /\
    alloced demo2 s cl idx 20 F /\
    Forall (fun x => disj (idx, 20) (region x)) cl /\
    pfirst demo2 + 2 <= idx /\ idx + 20 <= 512.
Proof.
  apply (allocateSpace_correct demo2 [demo_cell1; demo_cell2] 20).
  - apply demo2_ok.
  - lia.
  - apply Z.leb_le. reflexivity.
Defined.

(** C27: on any page image, however damaged its freeblock list, freeing a
    region that lies on the page ends, never touches a byte outside the page,
    and either succeeds or reports an error. *)
Theorem freeSpace_memory_safe p iStart iSize :
  page_geom p -> 0 <= iStart -> 4 <= iSize ->
  iStart + iSize <= usableSize (pBt p) ->
  fst (freeSpace iStart iSize p) <> Undef /\
  page_geom (snd (freeSpace iStart iSize p)).
Proof.
  intros Hg H1 H2 H3. pose proof (freeSpace_safe p iStart iSize Hg H1 H2 H3) as H.
  unfold wp in H. by destruct (freeSpace iStart iSize p) as [[a|rc|] s].
Qed.

(** A page whose freeblock list points into itself. *)
Definition demo_loop : MemPage :=
  set_aData (<[1%nat := 1]> (<[2%nat := 44]> (<[300%nat := 1]> (<[301%nat := 44]>
    (aData demo2))))) demo2.

Lemma freeSpace_memory_safe_witness :
  fst (freeSpace 400 20 demo_loop) <> Undef /\
  page_geom (snd (freeSpace 400 20 demo_loop)).
Proof.
  apply (freeSpace_memory_safe demo_loop 400 20).
  - destruct demo2_ok as [(cl & F & H & _) _].
    destruct (rep_geom _ _ _ H) as (G1 & G2 & G3 & G4).
    split; [exact G1|]. split; [|split; [exact G3|exact G4]].
    repeat (apply Forall_insert; [|lia]). exact G2.
  - lia.
  - lia.
  - apply Z.leb_le. reflexivity.
Defined.

(** ** Opening a page *)

(** C28: a page written by the page layer is read back: initialising a fresh
    [MemPage] on its image, with or without the cell size check, and counting
    its free bytes succeeds and yields the same cells and the same fields. *)
Theorem btreeInitPage_correct p cs p0 :
  page_holds p cs -> decoded p ->
  bat (aData p) (hdrOffset p) = flag_byte (pkind p) ->
  (leaf p = 0 -> Forall (fun c => 5 <= blen c) cs) ->
  aData p0 = aData p -> pBt p0 = pBt p -> hdrOffset p0 = hdrOffset p ->
  exists s, (btreeInitPage ;;* btreeComputeFreeSpace) p0 = (Ret tt, s) /\
    page_holds s cs /\ same_layout p s /\ nFree s = nFree p /\ ovfl s = [].
Proof.
  intros Hp Hd Hf Hl E1 E2 E3. pose proof Hp as (cl & F & H & -> & Hnf).
  assert (Hl' : leaf p = 0 -> Forall (fun x => 5 <= blen x.2) cl).
  { intros Hlf. specialize (Hl Hlf). by rewrite Forall_fmap in Hl. }
  destruct (returns_run _ _ _ (btreeInitPage_spec p cl F p0 H Hd Hf Hl' E1 E2 E3))
    as ([] & s & E & Hs & Hsame & Ho & _).
  exists s. do 3 (split; [done|]). split; [|done].
  rewrite (page_holds_nFree _ _ Hs), (page_holds_nFree _ _ Hp).
  by destruct Hsame as (_ & -> & _ & _ & _ & -> & _).
Qed.

Definition demo_reopen : MemPage :=
  mkPage 0 0 0 2 0 0 0 0 0 0 0 0 0 0 [] demo_bt (aData demo2) KVInterior.

Lemma btreeInitPage_correct_witness :
  exists s, (btreeInitPage ;;* btreeComputeFreeSpace) demo_reopen = (Ret tt, s) /\
    page_holds s [demo_cell1; demo_cell2] /\ same_layout demo2 s /\
    nFree s = nFree demo2 /\ ovfl s = [].
Proof.
  apply (btreeInitPage_correct demo2 [demo_cell1; demo_cell2] demo_reopen).
  - apply demo2_ok.
  - split; reflexivity.
  - reflexivity.
  - intros Hl. discriminate Hl.
  - reflexivity.
  - reflexivity.
  - reflexivity.
Defined.

(** C31: a cleared page holds no cell, all its bytes after the header are free,
    and the bytes before the header and beyond the usable part are kept. *)
Theorem zeroPage_correct p k :
  raw_page p ->
  exists s, zeroPage (flag_byte k) p = (Ret tt, s) /\ page_holds s [] /\
    pkind s = k /\ decoded s /\
    nFree s = usableSize (pBt p) - hdrOffset p - 8
              - (match k with KVLeaf => 0 | KVInterior => 4 end) /\
    (forall j, j < hdrOffset p \/ usableSize (pBt p) <= j ->
       bat (aData s) j = bat (aData p) j).
Proof.
  intros Hr. destruct (returns_run _ _ _ (zeroPage_spec p k Hr))
    as ([] & s & E & Hs & Hd & Hk & _ & _ & Eb & Eh & _ & Hj).
  exists s. do 4 (split; [done|]). split; [|done].
  rewrite (page_holds_nFree _ _ Hs). destruct Hs as (cl & F & H & _ & _).
  destruct (rep_geom _ _ _ H) as (_ & _ & _ & _ & G5 & _ & G7 & _).
  rewrite Eb, G7, Eh, G5, Hk. cbn. lia.
Qed.

Lemma zeroPage_correct_witness :
  exists s, zeroPage (flag_byte KVInterior) demo_raw = (Ret tt, s) /\
    page_holds s [] /\ pkind s = KVInterior /\ decoded s /\ nFree s = 500 /\
    (forall j, j < 0 \/ 512 <= j -> bat (aData s) j = bat (aData demo_raw) j).
Proof. apply (zeroPage_correct demo_raw KVInterior). exact demo_raw_ok. Defined.

(** C32: on any page image the free-space count of a page read from the file
    ends and reads only the page; it changes nothing but [nFree], and on a
    well-formed page it is the page's free space. *)
Theorem btreeComputeFreeSpace_correct p :
  page_geom p ->
  (exists o s, btreeComputeFreeSpace p = (o, s) /\ o <> Undef /\
     aData s = aData p /\ pBt s = pBt p) /\
  (forall cl F, page_rep p cl F ->
     btreeComputeFreeSpace p = (Ret tt, set_nFree (free_bytes p cl) p)).
Proof.
  intros Hg. split.
  - pose proof (btreeComputeFreeSpace_safe p Hg) as H. unfold wp in H.
    destruct (btreeComputeFreeSpace p) as [[a|rc|] s]; cbn in H; [|subst s|done];
      do 2 eexists; (split; [done|]); (split; [done|]); [apply H|done].
  - intros cl F H.
    by destruct (returns_run _ _ _ (btreeComputeFreeSpace_spec p cl F H))
      as ([] & s & E & ->).
Qed.

Lemma btreeComputeFreeSpace_correct_witness :
  (exists o s, btreeComputeFreeSpace demo2 = (o, s) /\ o <> Undef /\
     aData s = aData demo2 /\ pBt s = pBt demo2) /\
  (forall cl F, page_rep demo2 cl F ->
     btreeComputeFreeSpace demo2 = (Ret tt, set_nFree (free_bytes demo2 cl) demo2)).
Proof.
  apply (btreeComputeFreeSpace_correct demo2).
  destruct demo2_ok as [(cl & F & H & _) _]. exact (rep_geom _ _ _ H).
Defined.

(** ** Cells *)

(** C33: for every leaf cell, whatever bytes follow it on the page, the size
    routine and the parser agree, the parser returns the key, the value length
    and the local part the format defines, at least [minLocal] and at most
    [maxLocal] bytes of a spilled value are local, and the cell with its
    pointer fits on an empty page. *)
Theorem kv_leaf_cell_correct p nValue key rest h :
  limits_ok p -> pkind p = KVLeaf -> 0 <= nValue < 2 ^ 31 -> blen key <= 255 ->
  bytes_ok key -> bytes_ok rest -> kv_header nValue (blen key) = Some h ->
  exists info, xParseCell p (h ++ key ++ rest) = Some info /\
    xCellSize p (h ++ key ++ rest) = Some (nSize info) /\
    nKeyLen info = blen key /\ pKey info = blen h /\ nPayload info = nValue /\
    pPayload info = blen h + blen key /\ nLocal info = local_size p nValue /\
    (if nValue <=? maxLocal p then nLocal info = nValue
     else minLocal p <= nLocal info <= maxLocal p /\
          nSize info = pPayload info + nLocal info + 4) /\
    4 <= nSize info /\ nSize info + 2 + 8 <= usableSize (pBt p).
Proof.
  intros Hl Hk Hv Hkey Hok Hr Hh. pose proof (blen_nonneg key).
  destruct (leaf_header_parse p nValue key rest h Hl Hk Hv Hkey Hok Hr Hh)
    as (S1 & S2 & S3 & S4).
  destruct (leaf_size_bound p (blen h + blen key) nValue Hl) as [S5 S6];
    [lia|unfold KV_CELL_MAX_HDR; lia|].
  eexists. split; [exact S2|]. cbn. split; [done|]. split_and?; try done; try lia.
  destruct Hl as (L1 & L2 & _). unfold leaf_size, local_size.
  destruct (Z.leb_spec nValue (maxLocal p)); [done|]. split; [|lia].
  pose proof (Z.mod_pos_bound (nValue - minLocal p) (usableSize (pBt p) - 4)).
  case_if; lia.
Qed.

Lemma kv_leaf_cell_correct_witness :
  exists info, xParseCell demo0 [131; 104; 1; 107; 5; 6; 7] = Some info /\
    nSize info = 3 + 1 + 39 + 4 /\ nPayload info = 488 /\ nLocal info = 39.
Proof.
  destruct (kv_leaf_cell_correct demo0 488 [107] [5; 6; 7] [131; 104; 1])
    as (info & E & _ & _ & _ & H1 & _ & H2 & _).
  - by apply demo_limits.
  - reflexivity.
  - lia.
  - apply Z.leb_le. reflexivity.
  - repeat constructor; lia.
  - repeat constructor; lia.
  - reflexivity.
  - exists info. split; [exact E|]. split; [|split; [exact H1|exact H2]].
    vm_compute in E. injection E as <-. reflexivity.
Defined.
