(* ===== verification/PagerIface.v ===== *)
(** * What the b-tree asks of the pager

    The b-tree layer sees the pager ([src/src/pager.c]) as a store of pages
    with reference counts whose operations may fail.  [Pager] lists the
    operations the b-tree calls, [PagerLaws] what it relies on; the components
    above are proved against the two classes.  [MemPager] is an implementation
    by finite maps with a script of failures, which discharges the laws. *)
From stdpp Require Import gmap.
From S2P Require Import Prelude Bits Bytes.

(** ** Interface *)

Class Pager (P : Type) : Type := {
  (** [sqlite3PagerGet]; the flag is [PAGER_GET_NOCONTENT]. *)
  pagerGet : Z -> bool -> P -> Z * P;
  (** [sqlite3PagerLookup]: whether the page is in the cache. *)
  pagerLookup : Z -> P -> bool * P;
  (** [sqlite3PagerRef] and [sqlite3PagerUnref]. *)
  pagerRef : Z -> P -> P;
  pagerUnref : Z -> P -> P;
  (** [sqlite3PagerPageRefcount]. *)
  pagerRefcount : P -> Z -> Z;
  (** [sqlite3PagerWrite]: journal the page and make it writable. *)
  pagerWrite : Z -> P -> Z * P;
  (** [sqlite3PagerDontWrite]: the content will not be needed. *)
  pagerDontWrite : Z -> P -> P;
  (** Reading and writing the buffer [sqlite3PagerGetData] points to. *)
  pagerData : P -> Z -> bytes;
  pagerSetData : Z -> bytes -> P -> P;
}.

(** The pages keep their contents, but for those of [D], and the reference
    counts change by [r]. *)
Definition pager_evolves `{Pager P} (s s' : P) (D : Z -> Prop) (r : Z -> Z) : Prop :=
  (forall q, ~ D q -> pagerData s' q = pagerData s q) /\
  (forall q, pagerRefcount s' q = pagerRefcount s q + r q).

Definition none : Z -> Prop := fun _ => False.
Definition only (q : Z) : Z -> Prop := fun q' => q' = q.
Definition none_r : Z -> Z := fun _ => 0.
(** One more, or [k] more, references to page [q]. *)
Definition refs_at (q k : Z) : Z -> Z := fun q' => if q' =? q then k else 0.

Class PagerLaws (P : Type) `{Pager P} (pageSize : Z) (ok : P -> Prop) : Prop := {
  pager_data_ok s q : ok s -> blen (pagerData s q) = pageSize /\ bytes_ok (pagerData s q);
  (** Page contents other than those of a page fetched without its content
      stay; a reference is taken exactly on success. *)
  pager_get s q nc rc s' : ok s -> pagerGet q nc s = (rc, s') ->
    ok s' /\
    pager_evolves s s' (if nc then only q else none)
      (if rc =? SQLITE_OK then refs_at q 1 else none_r);
  pager_lookup s q b s' : ok s -> pagerLookup q s = (b, s') ->
    ok s' /\ pager_evolves s s' none (if b then refs_at q 1 else none_r);
  pager_ref s q : ok s -> ok (pagerRef q s) /\
    pager_evolves s (pagerRef q s) none (refs_at q 1);
  pager_unref s q : ok s -> ok (pagerUnref q s) /\
    pager_evolves s (pagerUnref q s) none (refs_at q (-1));
  pager_write s q rc s' : ok s -> pagerWrite q s = (rc, s') ->
    ok s' /\ pager_evolves s s' none none_r;
  pager_dontwrite s q : ok s -> ok (pagerDontWrite q s) /\
    pager_evolves s (pagerDontWrite q s) (only q) none_r;
  pager_setdata s q d : ok s -> blen d = pageSize -> bytes_ok d ->
    ok (pagerSetData q d s) /\ pagerData (pagerSetData q d s) q = d /\
    pager_evolves s (pagerSetData q d s) (only q) none_r;
}.

(** ** An implementation *)

(** Page contents (zero by default), reference counts, and the result codes
    of the next calls that can fail ([SQLITE_OK] when the script ends). *)
Record MemPager : Type := mkMemPager {
  mp_size : Z;
  mp_pages : gmap Z bytes;
  mp_refs : gmap Z Z;
  mp_script : list Z;
}.

Definition mp_data (s : MemPager) (q : Z) : bytes :=
  default (zeros (mp_size s)) (mp_pages s !! q).
Definition mp_refcount (s : MemPager) (q : Z) : Z := default 0 (mp_refs s !! q).
Definition mp_addref (q k : Z) (s : MemPager) : MemPager :=
  mkMemPager (mp_size s) (mp_pages s) (<[q := mp_refcount s q + k]> (mp_refs s))
    (mp_script s).
Definition mp_set (q : Z) (d : bytes) (s : MemPager) : MemPager :=
  mkMemPager (mp_size s) (<[q := d]> (mp_pages s)) (mp_refs s) (mp_script s).
Definition mp_next (s : MemPager) : Z * MemPager :=
  (default SQLITE_OK (head (mp_script s)),
   mkMemPager (mp_size s) (mp_pages s) (mp_refs s) (tail (mp_script s))).
Definition mp_get (q : Z) (nc : bool) (s : MemPager) : Z * MemPager :=
  let '(rc, s) := mp_next s in
  if rc =? SQLITE_OK then
    let s := if nc then mp_set q (zeros (mp_size s)) s else s in
    (rc, mp_addref q 1 s)
  else (rc, s).

#[export] Instance MemPager_ops : Pager MemPager := {|
  pagerGet := mp_get;
  pagerLookup q s := (bool_decide (0 < mp_refcount s q),
    if bool_decide (0 < mp_refcount s q) then mp_addref q 1 s else s);
  pagerRef q s := mp_addref q 1 s;
  pagerUnref q s := mp_addref q (-1) s;
  pagerRefcount := mp_refcount;
  pagerWrite q s := mp_next s;
  pagerDontWrite q s := s;
  pagerData := mp_data;
  pagerSetData := mp_set;
|}.

Definition mp_ok (size : Z) (s : MemPager) : Prop :=
  mp_size s = size /\ map_Forall (fun _ d => blen d = size /\ bytes_ok d) (mp_pages s).

Lemma mp_addref_ok size q k s :
  mp_ok size s -> mp_ok size (mp_addref q k s) /\
  pager_evolves s (mp_addref q k s) none (refs_at q k).
Proof.
  intros Hs. split; [exact Hs|]. split; [done|]. intros q'. unfold refs_at. cbn.
  unfold mp_addref, mp_refcount; cbn. destruct (Z.eqb_spec q' q) as [->|Hne].
  - by rewrite lookup_insert_eq.
  - rewrite lookup_insert_ne by done. lia.
Qed.
Lemma mp_set_ok size q d s :
  mp_ok size s -> blen d = size -> bytes_ok d ->
  mp_ok size (mp_set q d s) /\ mp_data (mp_set q d s) q = d /\
  pager_evolves s (mp_set q d s) (only q) none_r.
Proof.
  intros [H1 H2] Hl Hd. split; [split; [done|]|split].
  - by apply map_Forall_insert_2.
  - unfold mp_data, mp_set. cbn. by rewrite lookup_insert_eq.
  - split; [|intros q'; unfold none_r; cbn; unfold mp_refcount; cbn; lia].
    intros q' Hq. cbn. unfold mp_data, mp_set. cbn.
    by rewrite lookup_insert_ne by (intros ->; by apply Hq).
Qed.
Lemma evolves_refl (s : MemPager) : pager_evolves s s none none_r.
Proof. split; [done|]. intros q. unfold none_r. lia. Qed.

Lemma mp_next_ok size s rc s' :
  mp_ok size s -> mp_next s = (rc, s') ->
  mp_ok size s' /\ pager_evolves s s' none none_r.
Proof.
  intros Hs [= _ <-]. split; [exact Hs|]. split; [done|]. intros q. cbn.
  unfold mp_refcount. cbn. unfold none_r. lia.
Qed.

#[export] Instance MemPager_laws size : 0 <= size -> PagerLaws MemPager size (mp_ok size).
Proof.
  intros Hsize. split.
  - intros s q [H1 H2]. cbn. unfold mp_data. destruct (mp_pages s !! q) as [d|] eqn:E; cbn.
    + by apply (H2 q d).
    + rewrite H1. split; [by apply zeros_len|apply zeros_ok].
  - intros s q nc rc s' Hs Eg. change (mp_get q nc s = (rc, s')) in Eg.
    unfold mp_get in Eg. destruct (mp_next s) as [rc1 s1] eqn:E.
    destruct (mp_next_ok size s rc1 s1 Hs E) as [Hs1 [D1 R1]].
    destruct (rc1 =? SQLITE_OK) eqn:Erc; injection Eg as <- <-; rewrite Erc.
    + set (s2 := if nc then _ else s1).
      assert (H2 : mp_ok size s2 /\ pager_evolves s1 s2 (if nc then only q else none) none_r).
      { destruct nc; [|split; [done|apply evolves_refl]].
        destruct (mp_set_ok size q (zeros (mp_size s1)) s1 Hs1) as (? & _ & ?); try done.
        - rewrite (proj1 Hs1). by apply zeros_len.
        - apply zeros_ok. }
      destruct H2 as [Hs2 [D2 R2]]. destruct (mp_addref_ok size q 1 s2 Hs2) as [Hs3 [D3 R3]].
      split; [done|]. split.
      * intros q' Hq. by rewrite D3, D2, D1 by (done || intros []).
      * intros q'. rewrite R3, R2, R1. unfold none_r. lia.
    + split; [done|]. split; [|done]. intros q' _. apply D1. intros [].
  - intros s q b s' Hs [= <- <-]. case_bool_decide; [by apply mp_addref_ok|].
    split; [done|apply evolves_refl].
  - intros s q Hs. by apply mp_addref_ok.
  - intros s q Hs. by apply mp_addref_ok.
  - intros s q rc s' Hs E. by eapply mp_next_ok.
  - intros s q Hs. split; [done|]. split; [done|]. apply evolves_refl.
  - intros s q d Hs Hl Hd. by apply mp_set_ok.
Qed.
