(* ===== verification/Freelist.v ===== *)
(** * The free list ([src/src/btree.c])

    [freePage2] and [allocateBtreePage] with what they call, over any pager.
    [SQLITE_OMIT_AUTOVACUUM] is defined for this program, so the pointer map
    is absent and the list is never searched ([searchList] is 0): the
    [do ... while] loop runs once. *)
From stdpp Require Import gmap.
From S2P Require Import Prelude Bits Bytes Varint BtPage Heap Bitvec PagerIface.

(** ** Definitions *)

Definition BTS_SECURE_DELETE : Z := 0x0004.
Definition PENDING_BYTE : Z := 0x40000000.
Definition PENDING_BYTE_PAGE (b : BtShared) : Z := PENDING_BYTE / pageSize b + 1.
Definition BTALLOC_ANY : Z := 0.
Definition BTALLOC_EXACT : Z := 1.
Definition BTALLOC_LE : Z := 2.

Definition sqlite3AbsInt32 (x : Z) : Z :=
  if 0 <=? x then x else if x =? - 2 ^ 31 then 0x7fffffff else - x.

(** The part of [BtShared] that changes, with the pager below it, the [isInit]
    flags of the pages in memory and the heap. *)
Record file (P : Type) : Type := mkFile {
  pgr : P;
  nPage : Z;
  pHasContent : option Bitvec;
  inited : gset Z;
  hp : heap;
}.
Arguments mkFile {P} _ _ _ _ _.
Arguments pgr {P} _.
Arguments nPage {P} _.
Arguments pHasContent {P} _.
Arguments inited {P} _.
Arguments hp {P} _.

Section Code.
Context {P : Type} `{Pager P} (mallocOk : nat -> bool) (bt : BtShared).
Abbreviation F := (file P).

Definition set_pgr (p : P) (s : F) : F :=
  mkFile p (nPage s) (pHasContent s) (inited s) (hp s).
Definition set_nPage (n : Z) (s : F) : F :=
  mkFile (pgr s) n (pHasContent s) (inited s) (hp s).
Definition clear_init (q : Z) (s : F) : F :=
  mkFile (pgr s) (nPage s) (pHasContent s) (inited s ∖ {[q]}) (hp s).

(** Calls into the pager. *)
Definition on_pager {A} (f : P -> A * P) : M F A := fun s =>
  let r := f (pgr s) in (Ret r.1, set_pgr r.2 s).
Definition do_pager (f : P -> P) : M F unit := modify (fun s => set_pgr (f (pgr s)) s).

Definition data (s : F) (q : Z) : bytes := pagerData (pgr s) q.
Definition get4 (q off : Z) : M F Z :=
  let* s := gets id in lift (sqlite3Get4byte (data s q) off).
Definition store (q : Z) (f : bytes -> option bytes) : M F unit :=
  let* s := gets id in let* d := lift (f (data s q)) in do_pager (pagerSetData q d).
Definition put4 (q off v : Z) : M F unit := store q (fun d => sqlite3Put4byte d off v).

Definition releasePage (q : Z) : M F unit := do_pager (pagerUnref q).

Definition btreeGetPage (q : Z) (noContent : bool) : M F Z :=
  on_pager (pagerGet q noContent).

Definition btreeGetUnusedPage (q : Z) (noContent : bool) : M F Z :=
  let* rc := btreeGetPage q noContent in
  if rc =? SQLITE_OK then
    let* s := gets id in
    if 1 <? pagerRefcount (pgr s) q then releasePage q ;;* ret SQLITE_CORRUPT
    else modify (clear_init q) ;;* ret SQLITE_OK
  else ret rc.

Definition btreeSetHasContent (q : Z) : M F Z := fun s =>
  let run p h :=
    if q <=? sqlite3BitvecSize p then
      match sqlite3BitvecSet mallocOk (Some p) q h with
      | (Ret (rc, p), h) => (Ret rc, mkFile (pgr s) (nPage s) p (inited s) h)
      | (Fail rc, h) => (Fail rc, s)
      | (Undef, h) => (Undef, s)
      end
    else (Ret SQLITE_OK, mkFile (pgr s) (nPage s) (Some p) (inited s) h) in
  match pHasContent s with
  | Some p => run p (hp s)
  | None =>
      match sqlite3BitvecCreate mallocOk (nPage s) (hp s) with
      | (Ret (Some p), h) => run p h
      | (_, h) => (Ret SQLITE_NOMEM, mkFile (pgr s) (nPage s) None (inited s) h)
      end
  end.

Definition btreeGetHasContent (q : Z) (s : F) : option bool :=
  match pHasContent s with
  | None => Some false
  | Some p =>
      if sqlite3BitvecSize p <? q then Some true else sqlite3BitvecTestNotNull p q
  end.

(** [for(i=0; i<k; i++)] looking for a leaf not after [nearby]; [n] leaves
    are left. *)
Fixpoint closest_le (n : nat) (aData : bytes) (nearby i : Z) : option Z :=
  match n with
  | O => Some 0
  | S n =>
      iPage ← sqlite3Get4byte aData (8 + i * 4);
      if iPage <=? nearby then Some i else closest_le n aData nearby (i + 1)
  end.

Definition distance (x nearby : Z) : Z := sqlite3AbsInt32 (i32 (u32 (x - nearby))).

(** [for(i=1; i<k; i++)] looking for the leaf closest to [nearby]. *)
Fixpoint closest_loop (n : nat) (aData : bytes) (nearby i closest dist : Z)
    : option Z :=
  match n with
  | O => Some closest
  | S n =>
      x ← sqlite3Get4byte aData (8 + i * 4);
      let d2 := distance x nearby in
      if d2 <? dist then closest_loop n aData nearby (i + 1) i d2
      else closest_loop n aData nearby (i + 1) closest dist
  end.

Definition find_closest (aData : bytes) (nearby eMode k : Z) : option Z :=
  if 0 <? nearby then
    if eMode =? BTALLOC_LE then closest_le (Z.to_nat k) aData nearby 0
    else
      x ← sqlite3Get4byte aData 8;
      closest_loop (Z.to_nat (k - 1)) aData nearby 1 0 (distance x nearby)
  else Some 0.

(** The last leaf takes the place of the chosen one. *)
Definition trunk_update (iTrunk closest k : Z) : M F unit :=
  (if closest <? k - 1 then
     store iTrunk (fun d => s ← bsub d (4 + k * 4) 4; blit d (8 + closest * 4) s)
   else ret tt) ;;*
  put4 iTrunk 4 (k - 1).

(** A fetched page made writable: the end of every allocation. *)
Definition fetch_write (pg : Z) (nc : bool) : M F (Z * Z) :=
  let* rc := btreeGetUnusedPage pg nc in
  if negb (rc =? SQLITE_OK) then ret (rc, pg) else
  let* rc := on_pager (pagerWrite pg) in
  (if negb (rc =? SQLITE_OK) then releasePage pg else ret tt) ;;*
  ret (rc, pg).

(** Taking a leaf off the trunk, which is left referenced. *)
Definition alloc_leaf (nearby eMode mxPage iTrunk k : Z) : M F (Z * Z) :=
  let* s := gets id in
  let* closest := lift (find_closest (data s iTrunk) nearby eMode k) in
  let* iPage := get4 iTrunk (8 + closest * 4) in
  if (mxPage <? iPage) || (iPage <? 2) then ret (SQLITE_CORRUPT, 0) else
  let* rc := on_pager (pagerWrite iTrunk) in
  if negb (rc =? SQLITE_OK) then ret (rc, iPage) else
  trunk_update iTrunk closest k ;;*
  let* s := gets id in
  let* hc := lift (btreeGetHasContent iPage s) in
  fetch_write iPage (negb hc).

(** [if( n>0 )]: a page of the list. *)
Definition alloc_reuse (nearby eMode mxPage n : Z) : M F (Z * Z) :=
  let* rc := on_pager (pagerWrite 1) in
  if negb (rc =? SQLITE_OK) then ret (rc, 0) else
  put4 1 36 (n - 1) ;;*
  let* iTrunk := get4 1 32 in
  if mxPage <? iTrunk then ret (SQLITE_CORRUPT, 0) else
  let* rc := btreeGetUnusedPage iTrunk false in
  if negb (rc =? SQLITE_OK) then ret (rc, 0) else
  let* k := get4 iTrunk 4 in
  if k =? 0 then
    let* rc := on_pager (pagerWrite iTrunk) in
    if negb (rc =? SQLITE_OK) then releasePage iTrunk ;;* ret (rc, 0) else
    let* s := gets id in
    store 1 (fun d => s ← bsub (data s iTrunk) 0 4; blit d 32 s) ;;*
    ret (SQLITE_OK, iTrunk)
  else if u32 (usableSize bt / 4 - 2) <? k then
    releasePage iTrunk ;;* ret (SQLITE_CORRUPT, 0)
  else
    let* r := alloc_leaf nearby eMode mxPage iTrunk k in
    releasePage iTrunk ;;*
    ret r.

(** No free page: the file grows. *)
Definition alloc_append : M F (Z * Z) :=
  let* rc := on_pager (pagerWrite 1) in
  if negb (rc =? SQLITE_OK) then ret (rc, 0) else
  let* n := gets nPage in
  let n := u32 (n + 1) in
  let n := if n =? PENDING_BYTE_PAGE bt then u32 (n + 1) else n in
  modify (set_nPage n) ;;*
  put4 1 28 n ;;*
  fetch_write n true.

(** The result code and the page number; the page is referenced on success. *)
Definition allocateBtreePage (nearby eMode : Z) : M F (Z * Z) :=
  let* mxPage := gets nPage in
  let* n := get4 1 36 in
  if mxPage <=? n then ret (SQLITE_CORRUPT, 0)
  else if 0 <? n then alloc_reuse nearby eMode mxPage n
  else alloc_append.

(** [freepage_out:]; [have] says whether [pPage] is set. *)
Definition freepage_out (iPage : Z) (have : bool) (trunk : option Z) (rc : Z) : M F Z :=
  (if have then modify (clear_init iPage) ;;* releasePage iPage else ret tt) ;;*
  match trunk with Some t => releasePage t | None => ret tt end ;;*
  ret rc.

Definition secure : bool := negb (Z.land (btsFlags bt) BTS_SECURE_DELETE =? 0).

(** Overwriting the page when secure deletion is on. *)
Definition free_erase (iPage : Z) (have : bool) : M F (Z * bool) :=
  if secure then
    let* rc := (if have then ret SQLITE_OK else btreeGetPage iPage false) in
    if negb (rc =? SQLITE_OK) then ret (rc, have) else
    let* rc := on_pager (pagerWrite iPage) in
    if negb (rc =? SQLITE_OK) then ret (rc, true) else
    store iPage (fun d => bzero d 0 (pageSize bt)) ;;*
    ret (SQLITE_OK, true)
  else ret (SQLITE_OK, have).

(** The page becomes the first trunk. *)
Definition free_trunk (iPage iTrunk : Z) (have : bool) (trunk : option Z) : M F Z :=
  let* rc := (if have then ret SQLITE_OK else btreeGetPage iPage false) in
  if negb (rc =? SQLITE_OK) then freepage_out iPage have trunk rc else
  let* rc := on_pager (pagerWrite iPage) in
  if negb (rc =? SQLITE_OK) then freepage_out iPage true trunk rc else
  put4 iPage 0 iTrunk ;;*
  put4 iPage 4 0 ;;*
  put4 1 32 iPage ;;*
  freepage_out iPage true trunk SQLITE_OK.

(** The page becomes a leaf of the trunk. *)
Definition free_leaf (iPage iTrunk nLeaf : Z) (have : bool) : M F Z :=
  let* rc := on_pager (pagerWrite iTrunk) in
  if negb (rc =? SQLITE_OK) then ret rc else
  put4 iTrunk 4 (nLeaf + 1) ;;*
  put4 iTrunk (8 + nLeaf * 4) iPage ;;*
  (if have && negb secure then do_pager (pagerDontWrite iPage) else ret tt) ;;*
  btreeSetHasContent iPage.

(** The free-list update: a leaf of the first trunk if there is room, or a new
    trunk. *)
Definition free_link (mx iPage : Z) (have : bool) (nFree : Z) : M F Z :=
  if negb (nFree =? 0) then
    let* iTrunk := get4 1 32 in
    if mx <? iTrunk then freepage_out iPage have None SQLITE_CORRUPT else
    let* rc := btreeGetPage iTrunk false in
    if negb (rc =? SQLITE_OK) then freepage_out iPage have None rc else
    let* nLeaf := get4 iTrunk 4 in
    if u32 (usableSize bt) / 4 - 2 <? nLeaf then
      freepage_out iPage have (Some iTrunk) SQLITE_CORRUPT
    else if nLeaf <? u32 (usableSize bt) / 4 - 8 then
      let* rc := free_leaf iPage iTrunk nLeaf have in
      freepage_out iPage have (Some iTrunk) rc
    else free_trunk iPage iTrunk have (Some iTrunk)
  else free_trunk iPage 0 have None.

(** [given]: whether the caller passes the page object. *)
Definition freePage2 (given : bool) (iPage : Z) : M F Z :=
  let* mx := gets nPage in
  if (iPage <? 2) || (mx <? iPage) then ret SQLITE_CORRUPT else
  let* have := (if given then do_pager (pagerRef iPage) ;;* ret true
                else on_pager (pagerLookup iPage)) in
  let* rc := on_pager (pagerWrite 1) in
  if negb (rc =? SQLITE_OK) then freepage_out iPage have None rc else
  let* nFree := get4 1 36 in
  put4 1 36 (nFree + 1) ;;*
  let* r := free_erase iPage have in
  let '(rc, have) := r in
  if negb (rc =? SQLITE_OK) then freepage_out iPage have None rc else
  free_link mx iPage have nFree.

Definition freePage (iPage rc : Z) : M F Z :=
  if rc =? SQLITE_OK then freePage2 true iPage else ret rc.
End Code.

Lemma at4_shift d d' i k :
  (forall j, 0 <= j < 4 -> bat d' (i + j) = bat d (k + j)) -> at4 d' i = at4 d k.
Proof.
  intros E. unfold at4. rewrite <- (E 1), <- (E 2), <- (E 3) by lia.
  pose proof (E 0 ltac:(lia)) as E0. rewrite !Z.add_0_r in E0. by rewrite E0.
Qed.

(** ** The list of free pages

    A free list is a chain of trunk pages, each with the leaves it lists. *)

Abbreviation trunks := (list (Z * list Z)).
Definition pages (ts : trunks) : list Z := mjoin ((fun t => t.1 :: t.2) <$> ts).

Section Chain.
Variables (usable mx : Z).

Definition trunk_at (f : Z -> bytes) (t : Z) (ls : list Z) : Prop :=
  2 <= t <= mx /\ at4 (f t) 4 = Z.of_nat (length ls) /\
  Z.of_nat (length ls) <= usable / 4 - 2 /\
  forall i x, ls !! i = Some x -> at4 (f t) (8 + Z.of_nat i * 4) = x /\ 2 <= x <= mx.

Fixpoint chain (f : Z -> bytes) (first : Z) (ts : trunks) : Prop :=
  match ts with
  | [] => first = 0
  | (t, ls) :: ts => first = t /\ trunk_at f t ls /\ chain f (at4 (f t) 0) ts
  end.

Lemma pages_cons t ls ts : pages ((t, ls) :: ts) = t :: ls ++ pages ts.
Proof. done. Qed.

Lemma chain_frame f f' first ts :
  (forall q, q ∈ pages ts -> f' q = f q) -> chain f first ts -> chain f' first ts.
Proof.
  revert first. induction ts as [|[t ls] ts IH]; intros first Hf; [done|].
  rewrite pages_cons in Hf. cbn [chain].
  assert (Et : f' t = f t) by (apply Hf, list_elem_of_here).
  unfold trunk_at. rewrite Et. intros (H1 & H2 & H3). split_and!; try apply H2; [done|].
  apply IH; [|done]. intros q Hq. apply Hf. apply list_elem_of_further, elem_of_app. by right.
Qed.

Lemma chain_range f first ts q : chain f first ts -> q ∈ pages ts -> 2 <= q <= mx.
Proof.
  revert first. induction ts as [|[t ls] ts IH]; intros first; [by intros _ ?%elem_of_nil|].
  rewrite pages_cons. intros (H1 & (T1 & T2 & T3 & T4) & H3) Hq.
  apply elem_of_cons in Hq as [->|Hq]; [done|].
  apply elem_of_app in Hq as [Hq|Hq]; [|by eapply IH].
  apply list_elem_of_lookup in Hq as [i Hi]. by apply (T4 i q).
Qed.
End Chain.

(** Distinct page numbers from 2 to [mx] are fewer than [mx]. *)
Lemma nodup_range l mx :
  NoDup l -> (forall q, q ∈ l -> 2 <= q <= mx) -> 1 <= mx -> Z.of_nat (length l) < mx.
Proof.
  intros Hl Hr Hmx.
  assert (Hs : (length l <= length (seqZ 2 (mx - 1)))%nat).
  { apply submseteq_length, NoDup_submseteq; [done|]. intros q Hq%Hr.
    apply elem_of_seqZ. lia. }
  rewrite length_seqZ in Hs. lia.
Qed.

(** The leaf list after taking leaf [i]: the last leaf takes its place. *)
Definition swap_remove (i : nat) (ls : list Z) : list Z :=
  let k := pred (length ls) in
  if decide (i < k)%nat then <[i := default 0 (ls !! k)]> (take k ls) else take k ls.

Lemma swap_remove_length i ls : length (swap_remove i ls) = pred (length ls).
Proof.
  unfold swap_remove. case_decide; rewrite ?length_insert, length_take; lia.
Qed.
Lemma swap_remove_perm i ls x :
  ls !! i = Some x -> ls ≡ₚ x :: swap_remove i ls.
Proof.
  intros Hi. pose proof (lookup_lt_Some _ _ _ Hi) as Hlt.
  destruct (exists_last (l := ls)) as (l & y & ->); [by intros ->|].
  rewrite length_app in Hlt. cbn in Hlt. unfold swap_remove.
  rewrite length_app. cbn [length]. rewrite Nat.add_comm. cbn [pred Nat.add].
  rewrite take_app_length. case_decide as Hd.
  - rewrite lookup_app_l in Hi by done. rewrite lookup_app_r, Nat.sub_diag by done. cbn.
    rewrite <- (take_drop_middle l i x Hi) at 1.
    rewrite insert_take_drop by done. rewrite <- !app_assoc. cbn.
    solve_Permutation.
  - rewrite lookup_app_r in Hi by lia. replace (i - length l)%nat with 0%nat in Hi by lia.
    injection Hi as ->. by rewrite Permutation_app_comm.
Qed.
Lemma swap_remove_lookup i ls j :
  (j < pred (length ls))%nat ->
  swap_remove i ls !! j = if decide (j = i) then ls !! pred (length ls) else ls !! j.
Proof.
  intros Hj. unfold swap_remove. case_decide as Hd.
  - case_decide as E; [subst j|].
    + rewrite list_lookup_insert_eq by (rewrite length_take; lia).
      destruct (lookup_lt_is_Some_2 ls (pred (length ls))) as [x Hx]; [lia|]. by rewrite Hx.
    + rewrite list_lookup_insert_ne by done. by rewrite lookup_take_lt by done.
  - case_decide; [lia|]. by rewrite lookup_take_lt by done.
Qed.

(** ** Reasoning about one call *)

Section Spec.
Context {P : Type} {HP : Pager P} (mallocOk : nat -> bool) (bt : BtShared)
  (ok : P -> Prop) {HL : PagerLaws P (pageSize bt) ok}.
Abbreviation F := (file P).
Hypothesis Hgeom : 480 <= usableSize bt <= pageSize bt /\ pageSize bt <= 65536.

Definition hc_ok (o : option Bitvec) : Prop :=
  match o with None => True | Some p => exists X, bitvec (iSize p) p X end.
Definition fok (s : F) : Prop :=
  ok (pgr s) /\ 1 <= nPage s < 2 ^ 32 /\ hc_ok (pHasContent s).
Definition refs (s : F) (q : Z) : Z := pagerRefcount (pgr s) q.

(** One step of the program: what stays, and what may change. *)
Record stp (s s' : F) (D : Z -> Prop) (r : Z -> Z) : Prop := {
  st_ok : fok s';
  st_n : nPage s' = nPage s;
  st_hc : pHasContent s' = pHasContent s;
  st_data q : ~ D q -> data s' q = data s q;
  st_refs q : refs s' q = refs s q + r q;
}.

Lemma data_ok s q : fok s -> blen (data s q) = pageSize bt /\ bytes_ok (data s q).
Proof. intros [H _]. by eapply pager_data_ok. Qed.

Lemma stp_pager s p D r :
  fok s -> ok p -> pager_evolves (pgr s) p D r -> stp s (set_pgr p s) D r.
Proof. intros (H1 & H2 & H3) Hp [E1 E2]. by split. Qed.

(** The codes the pager can return. *)
Definition pager_error (rc : Z) : Prop :=
  exists p q nc p', ok p /\ (pagerGet q nc p = (rc, p') \/ pagerWrite q p = (rc, p')).

Lemma wp_getpage q (nc : bool) Q s :
  fok s ->
  (forall rc s', stp s s' (if nc then only q else none)
       (if rc =? SQLITE_OK then refs_at q 1 else none_r) ->
     pager_error rc -> Q (Ret rc) s') ->
  wp (btreeGetPage q nc) Q s.
Proof.
  intros Hs HQ. unfold wp, btreeGetPage, on_pager. cbn.
  destruct (pagerGet q nc (pgr s)) as [rc p'] eqn:E. cbn.
  destruct (pager_get _ _ _ _ _ (proj1 Hs) E) as [H1 H2].
  apply HQ; [by apply stp_pager|]. exists (pgr s), q, nc, p'. split; [apply Hs|by left].
Qed.

Lemma wp_pwrite q Q s :
  fok s ->
  (forall rc s', stp s s' none none_r -> pager_error rc -> Q (Ret rc) s') ->
  wp (on_pager (pagerWrite q)) Q s.
Proof.
  intros Hs HQ. unfold wp, on_pager. cbn.
  destruct (pagerWrite q (pgr s)) as [rc p'] eqn:E. cbn.
  destruct (pager_write _ _ _ _ (proj1 Hs) E) as [H1 H2].
  apply HQ; [by apply stp_pager|]. exists (pgr s), q, false, p'. split; [apply Hs|by right].
Qed.

Lemma wp_plookup q Q s :
  fok s ->
  (forall (b : bool) s', stp s s' none (if b then refs_at q 1 else none_r) -> Q (Ret b) s') ->
  wp (on_pager (pagerLookup q)) Q s.
Proof.
  intros Hs HQ. unfold wp, on_pager. cbn.
  destruct (pagerLookup q (pgr s)) as [b p'] eqn:E. cbn.
  destruct (pager_lookup _ _ _ _ (proj1 Hs) E) as [H1 H2].
  apply HQ. by apply stp_pager.
Qed.

Lemma wp_do_pager f D r Q s :
  fok s -> ok (f (pgr s)) /\ pager_evolves (pgr s) (f (pgr s)) D r ->
  (forall s', stp s s' D r -> Q (Ret tt) s') -> wp (do_pager f) Q s.
Proof.
  intros Hs [H1 H2] HQ. apply wp_modify, HQ. by apply stp_pager.
Qed.
Lemma wp_release q Q s :
  fok s -> (forall s', stp s s' none (refs_at q (-1)) -> Q (Ret tt) s') ->
  wp (releasePage q) Q s.
Proof. intros Hs. apply wp_do_pager; [done|]. by apply pager_unref, Hs. Qed.
Lemma wp_pref q Q s :
  fok s -> (forall s', stp s s' none (refs_at q 1) -> Q (Ret tt) s') ->
  wp (do_pager (pagerRef q)) Q s.
Proof. intros Hs. apply wp_do_pager; [done|]. by apply pager_ref, Hs. Qed.
Lemma wp_dontwrite q Q s :
  fok s -> (forall s', stp s s' (only q) none_r -> Q (Ret tt) s') ->
  wp (do_pager (pagerDontWrite q)) Q s.
Proof. intros Hs. apply wp_do_pager; [done|]. by apply pager_dontwrite, Hs. Qed.

Lemma wp_clear_init q Q s :
  fok s -> (forall s', stp s s' none none_r -> Q (Ret tt) s') ->
  wp (modify (clear_init q)) Q s.
Proof.
  intros Hs HQ. apply wp_modify, HQ. split; try done. intros q'. unfold none_r. cbn. 
  unfold refs. cbn. lia.
Qed.

Lemma wp_get4 q off Q s :
  fok s -> 0 <= off -> off + 3 < pageSize bt ->
  (0 <= at4 (data s q) off < 2 ^ 32 -> Q (Ret (at4 (data s q) off)) s) ->
  wp (get4 q off) Q s.
Proof.
  intros Hs H0 H1 HQ. destruct (data_ok s q Hs) as [Hl Hb].
  unfold get4. wp_go. change (id s) with s. eapply wp_lift; [apply Get4byte_in; [done|lia|lia]|].
  apply HQ. by apply at4_range.
Qed.

Lemma wp_store q f d Q s :
  fok s -> f (data s q) = Some d -> blen d = pageSize bt -> bytes_ok d ->
  (forall s', stp s s' (only q) none_r -> data s' q = d -> Q (Ret tt) s') ->
  wp (store q f) Q s.
Proof.
  intros Hs E Hl Hb HQ. unfold store. wp_go. change (id s) with s. rewrite E.
  do 2 wp_step. unfold after.
  unfold do_pager. wp_go. destruct (pager_setdata _ q d (proj1 Hs) Hl Hb) as (H1 & H2 & H3).
  apply HQ; [by apply stp_pager|done].
Qed.
Lemma wp_put4 q off v Q s :
  fok s -> 0 <= off -> off + 3 < pageSize bt ->
  (forall s' d, stp s s' (only q) none_r -> sqlite3Put4byte (data s q) off v = Some d ->
     data s' q = d -> Q (Ret tt) s') ->
  wp (put4 q off v) Q s.
Proof.
  intros Hs H0 H1 HQ. destruct (data_ok s q Hs) as [Hl Hb].
  destruct (Put4byte_in (data s q) off v) as [d E]; [lia|lia|].
  eapply wp_store; [done|exact E| | |].
  - by rewrite (Put4byte_len _ _ _ _ E).
  - by eapply Put4byte_ok.
  - intros s' Hst Ed. by eapply HQ.
Qed.

(** Errors of a fetch for reuse: the pager's, or the page is in use. *)
Definition fetch_error (s : F) (q rc : Z) : Prop :=
  pager_error rc \/ (rc = SQLITE_CORRUPT /\ 1 <= refs s q).

Lemma wp_getunused q (nc : bool) Q s :
  fok s ->
  (forall rc s', stp s s' (if nc then only q else none)
       (if rc =? SQLITE_OK then refs_at q 1 else none_r) ->
     fetch_error s q rc -> (rc = SQLITE_OK -> refs s q <= 0) -> Q (Ret rc) s') ->
  wp (btreeGetUnusedPage q nc) Q s.
Proof.
  intros Hs HQ. unfold btreeGetUnusedPage. apply wp_bind, wp_getpage; [done|].
  intros rc s1 H1 He. unfold after. case_if.
  - wp_go. subst rc. cbn in H1. pose proof (st_refs _ _ _ _ H1 q) as Hr.
    unfold refs_at in Hr. rewrite Z.eqb_refl in Hr.
    case_if.
    + apply wp_bind, wp_release; [apply H1|]. intros s2 H2. unfold after. wp_go.
      apply HQ; [|right; split; [done|unfold refs in *; cbn in *; lia]|done].
      destruct H1, H2. split; [done|congruence|congruence| |].
      * intros q' Hq. rewrite st_data1 by (intros []). by apply st_data0.
      * intros q'. rewrite st_refs1, st_refs0. unfold refs_at, none_r. cbn. case_if; lia.
    + apply wp_bind, wp_clear_init; [apply H1|]. intros s2 H2. unfold after. wp_go.
      apply HQ; [|by left|intros _; unfold refs in *; cbn in *; lia].
      destruct H1, H2. split; [done|congruence|congruence| |].
      * intros q' Hq. rewrite st_data1 by (intros []). by apply st_data0.
      * intros q'. rewrite st_refs1, st_refs0. unfold none_r. cbn. lia.
  - wp_go. apply HQ; [|by left|done]. by destruct (Z.eqb_spec rc SQLITE_OK).
Qed.

(** ** Freeing a page *)

Record freelist (s : F) (ts : trunks) : Prop := {
  fl_count : at4 (data s 1) 36 = Z.of_nat (length (pages ts));
  fl_chain : chain (usableSize bt) (nPage s) (data s) (at4 (data s 1) 32) ts;
  fl_nodup : NoDup (pages ts);
}.

(** What an error leaves behind: no reference. *)
Definition err (s s' : F) : Prop :=
  fok s' /\ nPage s' = nPage s /\ forall q, refs s' q = refs s q.

Lemma stp_err s s' D r : stp s s' D r -> (forall q, r q = 0) -> err s s'.
Proof.
  intros H Hr. split; [apply H|]. split; [apply H|]. intros q.
  rewrite (st_refs _ _ _ _ H), Hr. lia.
Qed.
Lemma stp_refl s D : fok s -> stp s s D none_r.
Proof. split; try done. intros q. unfold none_r. lia. Qed.
Lemma stp_trans s s1 s2 D1 D2 r1 r2 :
  stp s s1 D1 r1 -> stp s1 s2 D2 r2 ->
  stp s s2 (fun q => D1 q \/ D2 q) (fun q => r1 q + r2 q).
Proof.
  intros [A1 A2 A3 A4 A5] [B1 B2 B3 B4 B5]. split; [done|congruence|congruence| |].
  - intros q Hq. rewrite B4, A4 by tauto. done.
  - intros q. rewrite B5, A5. lia.
Qed.
Lemma stp_weaken s s' D r (D' : Z -> Prop) r' :
  stp s s' D r -> (forall q, D q -> D' q) -> (forall q, r q = r' q) -> stp s s' D' r'.
Proof.
  intros [A1 A2 A3 A4 A5] HD Hr. split; try done; [auto|]. intros q. by rewrite A5, Hr.
Qed.

Definition out_r (iPage : Z) (have : bool) (trunk : option Z) (q : Z) : Z :=
  (if have then refs_at iPage (-1) q else 0) +
  match trunk with Some t => refs_at t (-1) q | None => 0 end.

Lemma wp_freepage_out iPage (have : bool) trunk rc Q s :
  fok s -> (forall s', stp s s' none (out_r iPage have trunk) -> Q (Ret rc) s') ->
  wp (freepage_out iPage have trunk rc) Q s.
Proof.
  intros Hs HQ. unfold freepage_out. apply wp_bind.
  eapply (wp_mono _ (fun o s1 => o = Ret tt /\
    stp s s1 none (fun q => if have then refs_at iPage (-1) q else 0))).
  - destruct have.
    + apply wp_bind, wp_clear_init; [done|]. intros s1 H1. unfold after.
      apply wp_release; [apply H1|]. intros s2 H2. split; [done|].
      eapply stp_weaken; [exact (stp_trans _ _ _ _ _ _ _ H1 H2)|by intros q [|]|done].
    + wp_go. split; [done|]. split; try done. intros q. lia.
  - intros o s1 [-> H1]. unfold after. apply wp_bind. destruct trunk as [t|].
    + apply wp_release; [apply H1|]. intros s2 H2. unfold after. wp_go. apply HQ.
      eapply stp_weaken; [exact (stp_trans _ _ _ _ _ _ _ H1 H2)|by intros q [|]|done].
    + wp_go. apply HQ. eapply stp_weaken; [exact H1|done|]. intros q. unfold out_r. lia.
Qed.

Lemma wp_free_erase iPage (have : bool) Q s :
  fok s ->
  (forall rc (have' : bool) s',
     stp s s' (only iPage) (if have' && negb have then refs_at iPage 1 else none_r) ->
     (have = true -> have' = true) -> (rc <> SQLITE_OK -> pager_error rc) ->
     Q (Ret (rc, have')) s') ->
  wp (free_erase bt iPage have) Q s.
Proof.
  intros Hs HQ. unfold free_erase.
  assert (Hnone : stp s s (only iPage) none_r) by by apply stp_refl.
  case_if; [|wp_go; apply HQ; [by destruct have|done|done]].
  apply wp_bind.
  eapply (wp_mono _ (fun o s1 => exists rc, o = Ret rc /\ (rc <> SQLITE_OK -> pager_error rc) /\
    stp s s1 none (if negb have && (rc =? SQLITE_OK) then refs_at iPage 1 else none_r))).
  { destruct have.
    - wp_go. exists SQLITE_OK. split_and!; [done|done|]. by apply stp_refl.
    - apply wp_getpage; [done|]. intros rc s1 H1 He. exists rc. split_and!; [done|done|].
      exact H1. }
  intros o s1 (rc & -> & He & H1). unfold after. case_if.
  { wp_go. apply HQ; [|done|done]. eapply stp_weaken; [exact H1|done|].
    intros q. destruct (Z.eqb_spec rc SQLITE_OK); [done|]. by destruct have. }
  subst rc. cbn in H1. rewrite andb_true_r in H1.
  apply wp_bind, wp_pwrite; [apply H1|]. intros rc s2 H2 He2. unfold after.
  assert (H12 : stp s s2 (only iPage) (if true && negb have then refs_at iPage 1 else none_r)).
  { eapply stp_weaken; [exact (stp_trans _ _ _ _ _ _ _ H1 H2)|by intros q [|]|].
    intros q. unfold none_r. destruct have; cbn; lia. }
  case_if; [wp_go; apply HQ; done|]. subst rc.
  destruct (data_ok s2 iPage (st_ok _ _ _ _ H2)) as [Hl Hb].
  assert (Hz : blen (zeros (pageSize bt)) = pageSize bt) by (apply zeros_len; lia).
  destruct (blit_in (data s2 iPage) 0 (zeros (pageSize bt))) as [d Ed]; [lia|lia|].
  apply wp_bind. eapply (wp_store iPage _ d).
  - apply H2.
  - unfold bzero. destruct (Z.leb_spec 0 (pageSize bt)); [done|lia].
  - by rewrite (blit_len _ _ _ _ Ed).
  - eapply blit_ok; [done|apply zeros_ok|done].
  - intros s3 H3 _. unfold after. wp_go. apply HQ; [|done|done].
    eapply stp_weaken; [exact (stp_trans _ _ _ _ _ _ _ H12 H3)|by intros q [|]|].
    intros q. unfold none_r. lia.
Qed.

(** Recording that a page has content to keep. *)
Lemma wp_sethc q Q s :
  fok s -> 1 <= q <= nPage s ->
  (forall rc s', (rc = SQLITE_OK \/ rc = SQLITE_NOMEM) -> pgr s' = pgr s ->
     nPage s' = nPage s -> hc_ok (pHasContent s') ->
     (rc = SQLITE_OK -> btreeGetHasContent q s' = Some true) -> Q (Ret rc) s') ->
  wp (btreeSetHasContent mallocOk q) Q s.
Proof.
  intros (_ & Hn & Hhc) Hq HQ. unfold wp, btreeSetHasContent.
  assert (Hrun : forall p X h, bitvec (iSize p) p X -> exists rc s',
    (if q <=? sqlite3BitvecSize p then
      match sqlite3BitvecSet mallocOk (Some p) q h with
      | (Ret (rc, p), h) => (Ret rc, mkFile (pgr s) (nPage s) p (inited s) h)
      | (Fail rc, h) => (Fail rc, s)
      | (Undef, h) => (Undef, s)
      end
    else (Ret SQLITE_OK, mkFile (pgr s) (nPage s) (Some p) (inited s) h)) = (Ret rc, s') /\
    Q (Ret rc) s').
  { intros p X h Hp. unfold sqlite3BitvecSize. case_if.
    - destruct (returns_run _ _ _ (bitvec_set mallocOk _ p X q h Hp ltac:(lia)))
        as (r & h' & E & rc & q' & Y & -> & Q1 & Q2 & Q3 & Q4 & Q5).
      rewrite E. do 2 eexists. split; [done|]. apply HQ; try done.
      + cbn. destruct Q1 as [E1 Q1]. rewrite E1. exists Y. by split.
      + intros Erc. unfold btreeGetHasContent, sqlite3BitvecSize. cbn.
        rewrite (proj1 Q1). destruct (Z.ltb_spec (iSize p) q); [lia|].
        destruct (bitvec_test _ _ _ q Q1) as (b & Hb & Hiff); [lia|].
        cbn [sqlite3BitvecTest] in Hb. rewrite Hb. f_equal. apply Hiff. auto.
    - do 2 eexists. split; [done|]. apply HQ; try done; [by left|by exists X|].
      intros _. unfold btreeGetHasContent, sqlite3BitvecSize. cbn.
      by destruct (Z.ltb_spec (iSize p) q); [|lia]. }
  destruct (pHasContent s) as [p|] eqn:Ep.
  - destruct Hhc as [X HX]. destruct (Hrun p X (hp s) HX) as (rc & s' & E & HQ').
    rewrite E. exact HQ'.
  - unfold sqlite3BitvecCreate, malloc, bind, ret. destruct (mallocOk _); cbn [fst snd].
    + destruct (Hrun (mkBitvec (nPage s) 0 0 (zero_u (nPage s))) (fun _ => False)
        (mkHeap (S (requests (hp s))) (live (hp s) + 1))) as (rc & s' & E & HQ').
      { apply bitvec_create. lia. }
      rewrite E. exact HQ'.
    + apply HQ; try done. by right.
Qed.

Definition free_error (rc : Z) : Prop := pager_error rc \/ rc = SQLITE_NOMEM.

Lemma wp_free_leaf iPage iTrunk nLeaf (have : bool) Q s :
  fok s -> 1 <= iPage <= nPage s -> 0 <= nLeaf < usableSize bt / 4 - 8 ->
  (forall rc s', err s s' -> (forall q, q <> iTrunk -> q <> iPage -> data s' q = data s q) ->
     (rc <> SQLITE_OK -> free_error rc) ->
     (rc = SQLITE_OK -> iPage <> iTrunk ->
        at4 (data s' iTrunk) 4 = nLeaf + 1 /\ at4 (data s' iTrunk) (8 + nLeaf * 4) = iPage /\
        (forall j, j < 4 \/ 8 <= j < 8 + nLeaf * 4 ->
           bat (data s' iTrunk) j = bat (data s iTrunk) j) /\
        btreeGetHasContent iPage s' = Some true) -> Q (Ret rc) s') ->
  wp (free_leaf mallocOk bt iPage iTrunk nLeaf have) Q s.
Proof.
  intros Hs Hp Hn HQ. unfold free_leaf.
  assert (Hroom : 8 + nLeaf * 4 + 4 <= pageSize bt) by div_lia.
  apply wp_bind, wp_pwrite; [done|]. intros rc s1 H1 He. unfold after. case_if.
  { wp_go. apply HQ; [by eapply stp_err|intros; apply H1; intros []| |done]. by left. }
  apply wp_bind, wp_put4; [apply H1|lia|lia|]. intros s2 d2 H2 E2 D2. unfold after.
  apply wp_bind, wp_put4; [apply H2|lia|lia|]. intros s3 d3 H3 E3 D3. unfold after.
  apply wp_bind.
  eapply (wp_mono _ (fun o s4 => o = Ret tt /\ stp s3 s4 (only iPage) none_r)).
  { case_if; [|wp_go; split; [done|apply stp_refl, H3]].
    apply wp_dontwrite; [apply H3|]. done. }
  intros o s4 [-> H4]. unfold after.
  pose proof (stp_trans _ _ _ _ _ _ _ (stp_trans _ _ _ _ _ _ _ (stp_trans _ _ _ _ _ _ _ H1 H2) H3) H4) as H14.
  apply wp_sethc; [apply H4|rewrite (st_n _ _ _ _ H14); lia|].
  intros rc' s5 Hrc Epg En Hhc Hget.
  assert (Ed : forall q, data s5 q = data s4 q) by (intros q; unfold data; by rewrite Epg).
  apply HQ.
  - split; [|split].
    + destruct H14 as [(O1 & O2 & O3) _ _ _ _]. split; [by rewrite Epg|]. by rewrite En.
    + by rewrite En, (st_n _ _ _ _ H14).
    + intros q. unfold refs. rewrite Epg. change (refs s4 q = refs s q).
      rewrite (st_refs _ _ _ _ H14). unfold none_r. lia.
  - intros q Hq1 Hq2. rewrite Ed. apply (st_data _ _ _ _ H14). unfold only, none. tauto.
  - intros Hne. right. by destruct Hrc.
  - intros -> Hne. rewrite Ed, (st_data _ _ _ _ H4) by (unfold only; congruence).
    rewrite D3. rewrite D2 in E3. rewrite (st_data _ _ _ _ H1) in E2 by (intros []).
    split_and!.
    + rewrite (Put4byte_at4_other _ _ _ _ 4 E3) by lia.
      apply (Put4byte_at4 _ _ _ _ E2). div_lia.
    + apply (Put4byte_at4 _ _ _ _ E3). destruct Hs as (_ & ? & _). lia.
    + intros j Hj. rewrite (Put4byte_at _ _ _ _ j E3), (Put4byte_at _ _ _ _ j E2) by lia. done.
    + auto.
Qed.

Lemma wp_free_trunk iPage iTrunk (have : bool) trunk Q s :
  fok s -> 2 <= iPage <= nPage s -> 0 <= iTrunk < 2 ^ 32 ->
  (forall rc s', stp s s' (fun q => q = iPage \/ q = 1)
       (fun q => (if have then refs_at iPage (-1) q else 0) +
          match trunk with Some t => refs_at t (-1) q | None => 0 end) ->
     (rc <> SQLITE_OK -> free_error rc) ->
     (rc = SQLITE_OK -> at4 (data s' iPage) 0 = iTrunk /\ at4 (data s' iPage) 4 = 0 /\
        at4 (data s' 1) 32 = iPage /\
        (forall j, j < 32 \/ 36 <= j -> bat (data s' 1) j = bat (data s 1) j)) ->
     Q (Ret rc) s') ->
  wp (free_trunk iPage iTrunk have trunk) Q s.
Proof.
  intros Hs Hp Ht HQ. unfold free_trunk. apply wp_bind.
  eapply (wp_mono _ (fun o s1 => exists rc, o = Ret rc /\ (rc <> SQLITE_OK -> pager_error rc) /\
    stp s s1 none (if negb have && (rc =? SQLITE_OK) then refs_at iPage 1 else none_r))).
  { destruct have.
    - wp_go. exists SQLITE_OK. split_and!; [done|done|]. by apply stp_refl.
    - apply wp_getpage; [done|]. intros rc s1 H1 He. by exists rc. }
  intros o s1 (rc & -> & He & H1). unfold after. case_if.
  { apply wp_freepage_out; [apply H1|]. intros s2 H2. apply HQ; [|by left; auto|done].
    eapply stp_weaken; [exact (stp_trans _ _ _ _ _ _ _ H1 H2)|by intros q [[]|[]]|].
    intros q. unfold out_r. destruct (Z.eqb_spec rc SQLITE_OK); [done|].
    rewrite andb_false_r. unfold none_r. lia. }
  subst rc. cbn in H1. rewrite andb_true_r in H1.
  apply wp_bind, wp_pwrite; [apply H1|]. intros rc s2 H2 He2. unfold after.
  pose proof (stp_trans _ _ _ _ _ _ _ H1 H2) as H12.
  case_if.
  { apply wp_freepage_out; [apply H2|]. intros s3 H3. apply HQ; [|by left; auto|done].
    eapply stp_weaken; [exact (stp_trans _ _ _ _ _ _ _ H12 H3)|by intros q [[[]|[]]|[]]|].
    intros q. unfold out_r, refs_at, none_r. destruct have; cbn; repeat case_if; lia. }
  subst rc.
  apply wp_bind, wp_put4; [apply H2|lia|lia|]. intros s3 d3 H3 E3 D3. unfold after.
  apply wp_bind, wp_put4; [apply H3|lia|lia|]. intros s4 d4 H4 E4 D4. unfold after.
  apply wp_bind, wp_put4; [apply H4|lia|lia|]. intros s5 d5 H5 E5 D5. unfold after.
  apply wp_freepage_out; [apply H5|]. intros s6 H6.
  apply HQ; [|done|].
  - eapply stp_weaken; [exact (stp_trans _ _ _ _ _ _ _ (stp_trans _ _ _ _ _ _ _
      (stp_trans _ _ _ _ _ _ _ (stp_trans _ _ _ _ _ _ _ H12 H3) H4) H5) H6)| |].
    + intros q. unfold only, none. tauto.
    + intros q. unfold out_r, refs_at, none_r. destruct have; cbn; repeat case_if; lia.
  - intros _. rewrite D3 in E4.
    rewrite (st_data _ _ _ _ H4), (st_data _ _ _ _ H3), (st_data _ _ _ _ H12) in E5
      by (unfold only, none; lia || (intros [[]|[]])).
    rewrite !(st_data _ _ _ _ H6) by (intros []). rewrite D5.
    rewrite (st_data _ _ _ _ H5), D4 by (unfold only; lia). split_and!.
    + rewrite (Put4byte_at4_other _ _ _ _ 0 E4) by lia. by apply (Put4byte_at4 _ _ _ _ E3).
    + by apply (Put4byte_at4 _ _ _ _ E4).
    + apply (Put4byte_at4 _ _ _ _ E5). destruct Hs as (_ & ? & _). lia.
    + intros j Hj. apply (Put4byte_at _ _ _ _ j E5). lia.
Qed.

Definition free_post (s : F) (iPage : Z) (ts : trunks) (rc : Z) (s' : F) : Prop :=
  err s s' /\ (rc <> SQLITE_OK -> free_error rc) /\
  (rc = SQLITE_OK -> exists ts', freelist s' ts' /\
     pages ts' ≡ₚ iPage :: pages ts /\
     (forall q, q <> 1 -> q ∉ pages ts' -> data s' q = data s q) /\
     (forall j, j < 32 \/ 40 <= j -> bat (data s' 1) j = bat (data s 1) j) /\
     (iPage ∉ ts'.*1 -> btreeGetHasContent iPage s' = Some true)).

Lemma freelist_range s ts q : freelist s ts -> q ∈ pages ts -> 2 <= q <= nPage s.
Proof. intros H. eapply chain_range, H. Qed.

(** The list after the page became a leaf of the first trunk. *)
Lemma freelist_add_leaf s s' t ls ts iPage :
  freelist s ((t, ls) :: ts) -> 2 <= iPage <= nPage s ->
  iPage ∉ pages ((t, ls) :: ts) -> nPage s' = nPage s ->
  Z.of_nat (length ls) < usableSize bt / 4 - 8 ->
  at4 (data s' 1) 36 = at4 (data s 1) 36 + 1 -> at4 (data s' 1) 32 = at4 (data s 1) 32 ->
  (forall q, q <> 1 -> q <> t -> q <> iPage -> data s' q = data s q) ->
  at4 (data s' t) 4 = Z.of_nat (length ls) + 1 ->
  at4 (data s' t) (8 + Z.of_nat (length ls) * 4) = iPage ->
  (forall j, j < 4 \/ 8 <= j < 8 + Z.of_nat (length ls) * 4 ->
     bat (data s' t) j = bat (data s t) j) ->
  freelist s' ((t, ls ++ [iPage]) :: ts).
Proof.
  intros H Hp Hnin En Hroom E36 E32 Hd Ek El Hb.
  assert (Hperm : pages ((t, ls ++ [iPage]) :: ts) ≡ₚ iPage :: pages ((t, ls) :: ts)).
  { rewrite !pages_cons. solve_Permutation. }
  pose proof (fun q => freelist_range s _ q H) as Hr.
  destruct H as [F1 (C1 & (T1 & T2 & T3 & T4) & C3) F3].
  split.
  - rewrite E36, F1, Hperm. cbn [length]. lia.
  - rewrite E32, En. cbn [chain]. split; [done|]. split.
    + split; [done|]. rewrite length_app. cbn [length]. split; [rewrite Ek; lia|].
      split; [lia|]. intros i x Hx. apply lookup_app_Some in Hx as [Hx|[Hge Hx]].
      * destruct (T4 i x Hx) as [<- Hx2]. pose proof (lookup_lt_Some _ _ _ Hx).
        split; [|done]. apply at4_eq. intros j Hj. apply Hb. lia.
      * destruct (i - length ls)%nat as [|m] eqn:Ei; [|done]. injection Hx as <-.
        assert (i = length ls) as -> by lia. done.
    + replace (at4 (data s' t) 0) with (at4 (data s t) 0)
        by (symmetry; apply at4_eq; intros j Hj; apply Hb; lia).
      eapply chain_frame; [|exact C3]. intros q Hq. rewrite pages_cons in Hnin, F3, Hr.
      apply Hd.
      * specialize (Hr q). intros ->. destruct Hr; [|lia].
        apply list_elem_of_further, elem_of_app. by right.
      * intros ->. apply list.NoDup_cons in F3 as [F3 _]. apply F3, elem_of_app. by right.
      * intros ->. apply Hnin, list_elem_of_further, elem_of_app. by right.
  - rewrite Hperm. by constructor.
Qed.

(** The list after the page became the first trunk. *)
Lemma freelist_add_trunk s s' ts iPage :
  freelist s ts -> 2 <= iPage <= nPage s -> iPage ∉ pages ts -> nPage s' = nPage s ->
  at4 (data s' 1) 36 = at4 (data s 1) 36 + 1 -> at4 (data s' 1) 32 = iPage ->
  (forall q, q <> 1 -> q <> iPage -> data s' q = data s q) ->
  at4 (data s' iPage) 0 = at4 (data s 1) 32 -> at4 (data s' iPage) 4 = 0 ->
  freelist s' ((iPage, []) :: ts).
Proof.
  intros H Hp Hnin En E36 E32 Hd E0 E4. pose proof (fun q => freelist_range s _ q H) as Hr.
  destruct H as [F1 F2 F3]. split.
  - rewrite E36, F1, pages_cons. cbn [length app]. lia.
  - rewrite E32, En, <- E0 in *. cbn [chain]. split; [done|]. split.
    + split; [done|]. split; [done|]. split; [cbn; div_lia|]. intros i x Hx. by rewrite lookup_nil in Hx.
    + eapply chain_frame; [|exact F2]. intros q Hq. apply Hd.
      * intros ->. apply Hr in Hq. lia.
      * by intros ->.
  - rewrite pages_cons. by constructor.
Qed.

Lemma stp_compose s s1 s2 D1 D2 r1 r2 (D : Z -> Prop) r :
  stp s s1 D1 r1 -> stp s1 s2 D2 r2 -> (forall q, D1 q -> D q) -> (forall q, D2 q -> D q) ->
  (forall q, r1 q + r2 q = r q) -> stp s s2 D r.
Proof.
  intros H1 H2 HD1 HD2 Hr. eapply stp_weaken; [exact (stp_trans _ _ _ _ _ _ _ H1 H2)| |done].
  intros q [|]; auto.
Qed.

(** The link step, from the state after the count was raised and the page
    erased. *)
Lemma wp_free_link iPage (have : bool) ts s s1 :
  fok s -> freelist s ts -> 2 <= iPage <= nPage s -> iPage ∉ pages ts ->
  stp s s1 (fun q => q = 1 \/ q = iPage) (if have then refs_at iPage 1 else none_r) ->
  at4 (data s1 1) 36 = at4 (data s 1) 36 + 1 ->
  (forall j, j < 36 \/ 40 <= j -> bat (data s1 1) j = bat (data s 1) j) ->
  wp (free_link mallocOk bt (nPage s) iPage have (at4 (data s 1) 36))
    (returns (free_post s iPage ts)) s1.
Proof.
  intros Hs Hfl Hp Hnin H1 E36 Hp1. unfold free_link.
  assert (E32 : at4 (data s1 1) 32 = at4 (data s 1) 32).
  { apply at4_eq. intros j Hj. apply Hp1. lia. }
  assert (Hn1 : 2 <= iPage <= nPage s1) by (rewrite (st_n _ _ _ _ H1); lia).
  pose proof (fun q => freelist_range s _ q Hfl) as Hr.
  pose proof Hs as (_ & Hmx & _).
  rewrite (fl_count _ _ Hfl). destruct ts as [|[t ls] ts].
  { cbn [length Z.of_nat Z.eqb negb pages mjoin list_join fmap list_fmap].
    apply wp_free_trunk; [apply H1|done|lia|]. intros rc s2 H2 He Hok.
    assert (H12 : stp s s2 (fun q => q = 1 \/ q = iPage) none_r).
    { eapply stp_compose; [exact H1|exact H2|tauto|tauto|].
      intros q. unfold refs_at, none_r. destruct have; repeat case_if; lia. }
    split; [by eapply stp_err|]. split; [done|]. intros Erc.
    destruct (Hok Erc) as (K1 & K2 & K3 & K4). exists [(iPage, [])].
    assert (E32z : at4 (data s 1) 32 = 0) by apply (fl_chain _ _ Hfl).
    split_and!; [|done| | |].
    - apply (freelist_add_trunk s s2 []); try done; [apply H12| | |by rewrite E32z].
      + rewrite <- E36. apply at4_eq. intros j Hj. apply K4. lia.
      + intros q Hq1 Hq2. apply H12. tauto.
    - intros q Hq Hnq. apply H12. intros [|]; [done|]. apply Hnq. subst. apply list_elem_of_here.
    - intros j Hj. rewrite K4, Hp1 by lia. done.
    - intros Hin. destruct Hin. apply list_elem_of_here. }
  pose proof (fl_chain _ _ Hfl) as (C1 & (T1 & T2 & T3 & T4) & C3).
  assert (Htin : t ∈ pages ((t, ls) :: ts)) by (rewrite pages_cons; apply list_elem_of_here).
  assert (Hti : iPage <> t) by (intros ->; done).
  rewrite pages_cons. cbn [length]. destruct (Z.eqb_spec (Z.of_nat (S (length (ls ++ pages ts)))) 0); [lia|].
  cbn [negb]. apply wp_bind, wp_get4; [apply H1|lia|lia|]. intros _. unfold after.
  rewrite E32, C1. destruct (Z.ltb_spec (nPage s) t); [lia|].
  apply wp_bind, wp_getpage; [apply H1|]. intros rc s2 H2 He. unfold after.
  case_if.
  { destruct (Z.eqb_spec rc SQLITE_OK); [done|].
    apply wp_freepage_out; [apply H2|]. intros s3 H3.
    split; [|split; [by left|done]]. eapply stp_err.
    - exact (stp_trans _ _ _ _ _ _ _ (stp_trans _ _ _ _ _ _ _ H1 H2) H3).
    - intros q. unfold out_r, refs_at, none_r. destruct have; repeat case_if; lia. }
  subst rc. cbn in H2.
  apply wp_bind, wp_get4; [apply H2|lia|lia|]. intros _. unfold after.
  assert (Dt : data s2 t = data s t).
  { rewrite (st_data _ _ _ _ H2) by (intros []). apply (st_data _ _ _ _ H1). lia. }
  rewrite Dt, T2, u32_small by lia.
  destruct (Z.ltb_spec (usableSize bt / 4 - 2) (Z.of_nat (length ls))); [lia|].
  case_if.
  - (* a leaf *)
    apply wp_bind, wp_free_leaf; [apply H2|rewrite (st_n _ _ _ _ H2); lia|lia|].
    intros rc s3 (O3 & N3 & R3) D3 He3 Hok. unfold after.
    apply wp_freepage_out; [done|]. intros s4 H4.
    assert (Hdata : forall q, q <> 1 -> q <> t -> q <> iPage -> data s4 q = data s q).
    { intros q Hq1 Hq2 Hq3. rewrite (st_data _ _ _ _ H4) by (intros []).
      rewrite D3, (st_data _ _ _ _ H2) by (done || intros []). apply (st_data _ _ _ _ H1). tauto. }
    split; [|split; [done|]].
    { split; [apply H4|]. split.
      - by rewrite (st_n _ _ _ _ H4), N3, (st_n _ _ _ _ H2), (st_n _ _ _ _ H1).
      - intros q. rewrite (st_refs _ _ _ _ H4), R3, (st_refs _ _ _ _ H2), (st_refs _ _ _ _ H1).
        unfold out_r, refs_at, none_r. destruct have; repeat case_if; lia. }
    intros ->. destruct (Hok eq_refl Hti) as (K1 & K2 & K3 & K4).
    assert (D41 : data s4 1 = data s1 1).
    { rewrite (st_data _ _ _ _ H4) by (intros []). rewrite D3 by lia.
      apply (st_data _ _ _ _ H2). intros []. }
    rewrite Dt in K3.
    exists ((t, ls ++ [iPage]) :: ts). split_and!.
    + apply (freelist_add_leaf s s4); try done.
      * rewrite (st_n _ _ _ _ H4), N3, (st_n _ _ _ _ H2). apply H1.
      * by rewrite D41.
      * by rewrite D41.
      * by rewrite (st_data _ _ _ _ H4) by (intros []).
      * by rewrite (st_data _ _ _ _ H4) by (intros []).
      * intros j Hj. rewrite (st_data _ _ _ _ H4) by (intros []). by apply K3.
    + rewrite !pages_cons. solve_Permutation.
    + intros q Hq1 Hq. rewrite !pages_cons in Hq.
      apply Hdata; [done| |]; intros ->; apply Hq; [apply list_elem_of_here|].
      apply list_elem_of_further, elem_of_app. left. apply elem_of_app. right.
      apply list_elem_of_here.
    + intros j Hj. rewrite D41. apply Hp1. lia.
    + intros _. unfold btreeGetHasContent. by rewrite (st_hc _ _ _ _ H4).
  - (* a new trunk *)
    apply wp_free_trunk; [apply H2|rewrite (st_n _ _ _ _ H2); lia|lia|].
    intros rc s3 H3 He3 Hok.
    assert (H13 : stp s s3 (fun q => q = 1 \/ q = iPage) none_r).
    { eapply stp_weaken;
        [exact (stp_trans _ _ _ _ _ _ _ (stp_trans _ _ _ _ _ _ _ H1 H2) H3)| |].
      - intros q. unfold none. tauto.
      - intros q. unfold refs_at, none_r. destruct have; repeat case_if; lia. }
    split; [by eapply stp_err|]. split; [done|]. intros Erc.
    destruct (Hok Erc) as (K1 & K2 & K3 & K4). exists ((iPage, []) :: (t, ls) :: ts).
    rewrite (st_data _ _ _ _ H2) in K4 by (intros []).
    split_and!; [|done| | |].
    + apply (freelist_add_trunk s s3); try done; [apply H13| | |by rewrite C1].
      * rewrite <- E36. apply at4_eq. intros j Hj. apply K4. lia.
      * intros q Hq1 Hq2. apply H13. tauto.
    + intros q Hq Hnq. apply H13. intros [|]; [done|]. apply Hnq. subst. apply list_elem_of_here.
    + intros j Hj. rewrite K4, Hp1 by lia. done.
    + intros Hin. destruct Hin. apply list_elem_of_here.
Qed.

Lemma freePage2_spec (given : bool) iPage ts s :
  fok s -> freelist s ts -> 2 <= iPage <= nPage s -> iPage ∉ pages ts ->
  wp (freePage2 mallocOk bt given iPage) (returns (free_post s iPage ts)) s.
Proof.
  intros Hs Hfl Hp Hnin. unfold freePage2. wp_go.
  destruct (Z.ltb_spec iPage 2), (Z.ltb_spec (nPage s) iPage); try lia. cbn [orb].
  pose proof Hs as (_ & Hmx & _).
  assert (Hlen : Z.of_nat (length (pages ts)) < nPage s).
  { apply nodup_range; [apply Hfl| |lia]. intros q. by apply freelist_range. }
  apply wp_bind.
  eapply (wp_mono _ (fun o s1 => exists have : bool, o = Ret have /\
    stp s s1 none (if have then refs_at iPage 1 else none_r))).
  { destruct given.
    - apply wp_bind, wp_pref; [done|]. intros s1 H1. unfold after. wp_go. by exists true.
    - apply wp_plookup; [done|]. intros have s1 H1. by exists have. }
  intros o s1 (have & -> & H1). unfold after.
  assert (Hleave : forall s2 D rc (have2 : bool), stp s s2 D (if have2 then refs_at iPage 1 else none_r) ->
    pager_error rc -> rc <> SQLITE_OK ->
    wp (freepage_out iPage have2 None rc) (returns (free_post s iPage ts)) s2).
  { intros s2 D rc have2 H2 He Hne. apply wp_freepage_out; [apply H2|]. intros s3 H3.
    split; [|split; [by left|done]].
    eapply stp_err; [exact (stp_trans _ _ _ _ _ _ _ H2 H3)|].
    intros q. unfold out_r, refs_at, none_r. destruct have2; repeat case_if; lia. }
  apply wp_bind, wp_pwrite; [apply H1|]. intros rc s2 H2 He. unfold after.
  assert (H12 : stp s s2 none (if have then refs_at iPage 1 else none_r)).
  { eapply stp_compose; [exact H1|exact H2|done|done|]. intros q. unfold none_r at 1.
    destruct have; unfold none_r; lia. }
  case_if; [by eapply Hleave|]. subst rc.
  assert (D21 : data s2 1 = data s 1) by (apply (st_data _ _ _ _ H12); intros []).
  apply wp_bind, wp_get4; [apply H2|lia|lia|]. intros _. unfold after. rewrite D21.
  apply wp_bind, wp_put4; [apply H2|lia|lia|]. intros s3 d3 H3 E3 D3. unfold after.
  rewrite D21 in E3.
  apply wp_bind, wp_free_erase; [apply H3|]. intros rc have' s4 H4 Hhave He4. unfold after.
  assert (H14 : stp s s4 (fun q => q = 1 \/ q = iPage) (if have' then refs_at iPage 1 else none_r)).
  { eapply stp_compose; [exact (stp_trans _ _ _ _ _ _ _ H12 H3)|exact H4| | |].
    - intros q. unfold none, only. tauto.
    - intros q. unfold only. tauto.
    - intros q. unfold none_r. destruct have, have'; cbn; try lia; by discriminate Hhave. }
  case_if; [by eapply Hleave; auto|].
  apply wp_free_link; try done.
  - rewrite (st_data _ _ _ _ H4), D3 by (unfold only; lia).
    apply (Put4byte_at4 _ _ _ _ E3). rewrite (fl_count _ _ Hfl). lia.
  - intros j Hj. rewrite (st_data _ _ _ _ H4), D3 by (unfold only; lia).
    apply (Put4byte_at _ _ _ _ _ E3). lia.
Qed.

(** ** Allocating a page *)

(** The leaf the search picks: the closest to [nearby], or the first not after
    it, or the first. *)
Definition chosen (d : bytes) (nearby eMode k c : Z) : Prop :=
  0 <= c < k /\
  (0 < nearby -> eMode <> BTALLOC_LE -> forall i, 0 <= i < k ->
     distance (at4 d (8 + c * 4)) nearby <= distance (at4 d (8 + i * 4)) nearby) /\
  (0 < nearby -> eMode = BTALLOC_LE -> forall i, 0 <= i < k ->
     at4 d (8 + i * 4) <= nearby -> at4 d (8 + c * 4) <= nearby).

Section Search.
Variables (d : bytes) (nearby k : Z).
Hypotheses (Hd : bytes_ok d) (Hk : 8 + k * 4 <= blen d).

Lemma leaf_get i : 0 <= i < k -> sqlite3Get4byte d (8 + i * 4) = Some (at4 d (8 + i * 4)).
Proof. intros Hi. apply Get4byte_in; [done|lia|lia]. Qed.

Lemma closest_le_ok n i :
  0 <= i -> i + Z.of_nat n = k -> 0 < k ->
  (forall j, 0 <= j < i -> nearby < at4 d (8 + j * 4)) ->
  exists c, closest_le n d nearby i = Some c /\ 0 <= c < k /\
    (forall j, 0 <= j < k -> at4 d (8 + j * 4) <= nearby -> at4 d (8 + c * 4) <= nearby).
Proof.
  revert i. induction n as [|n IH]; intros i Hi Hn Hk0 Hbefore.
  - exists 0. split; [done|]. split; [lia|]. intros j Hj Hle. specialize (Hbefore j). lia.
  - cbn [closest_le]. rewrite leaf_get by lia. cbn [mbind option_bind]. case_if.
    + exists i. split; [done|]. split; [lia|]. done.
    + apply IH; [lia|lia|done|]. intros j Hj.
      destruct (Z.eq_dec j i) as [->|]; [lia|]. apply Hbefore. lia.
Qed.
Lemma closest_loop_ok n i c :
  0 <= c < i -> i + Z.of_nat n = k ->
  (forall j, 0 <= j < i ->
     distance (at4 d (8 + c * 4)) nearby <= distance (at4 d (8 + j * 4)) nearby) ->
  exists c', closest_loop n d nearby i c (distance (at4 d (8 + c * 4)) nearby) = Some c' /\
    0 <= c' < k /\ forall j, 0 <= j < k ->
     distance (at4 d (8 + c' * 4)) nearby <= distance (at4 d (8 + j * 4)) nearby.
Proof.
  revert i c. induction n as [|n IH]; intros i c Hc Hn Hmin.
  - exists c. split; [done|]. split; [lia|]. intros j Hj. apply Hmin. lia.
  - cbn [closest_loop]. rewrite leaf_get by lia. cbn [mbind option_bind]. case_if.
    + apply IH; [lia|lia|]. intros j Hj.
      destruct (Z.eq_dec j i) as [->|]; [lia|]. specialize (Hmin j). lia.
    + apply IH; [lia|lia|]. intros j Hj.
      destruct (Z.eq_dec j i) as [->|]; [lia|]. apply Hmin. lia.
Qed.
Lemma find_closest_ok eMode :
  0 < k -> exists c, find_closest d nearby eMode k = Some c /\ chosen d nearby eMode k c.
Proof.
  intros Hk0. unfold find_closest, chosen. case_if; [case_if|].
  - destruct (closest_le_ok (Z.to_nat k) 0) as (c & E & H1 & H2); [lia|lia|lia|lia|].
    exists c. split; [done|]. split; [done|]. split; [done|]. intros _ _. exact H2.
  - assert (E0 : sqlite3Get4byte d 8 = Some (at4 d (8 + 0 * 4))) by (apply (leaf_get 0); lia).
    rewrite E0. cbn [mbind option_bind].
    destruct (closest_loop_ok (Z.to_nat (k - 1)) 1 0) as (c & E & H1 & H2); [lia|lia| |].
    + intros j Hj. by replace j with 0 by lia.
    + exists c. split; [done|]. split; [done|]. split; [|done]. intros _ _. exact H2.
  - exists 0. split; [done|]. split; [lia|]. split; lia.
Qed.
End Search.

(** Errors of an allocation: the pager's, or a page to be reused is in use. *)
Definition alloc_error (s : F) (avail : Z -> Prop) (rc : Z) : Prop :=
  pager_error rc \/ (rc = SQLITE_CORRUPT /\ exists q, avail q /\ 1 <= refs s q).

Definition got (rc pg : Z) : Z -> Z := if rc =? SQLITE_OK then refs_at pg 1 else none_r.

Lemma wp_fetch_write pg (nc : bool) Q s :
  fok s ->
  (forall rc s', stp s s' (only pg) (got rc pg) -> (rc <> SQLITE_OK -> fetch_error s pg rc) ->
     (rc = SQLITE_OK -> refs s pg <= 0) -> Q (Ret (rc, pg)) s') ->
  wp (fetch_write pg nc) Q s.
Proof.
  intros Hs HQ. unfold fetch_write, got in *.
  apply wp_bind, wp_getunused; [done|]. intros rc s1 H1 He Hr. unfold after.
  assert (H1' : stp s s1 (only pg) (if rc =? SQLITE_OK then refs_at pg 1 else none_r)).
  { eapply stp_weaken; [exact H1|by destruct nc|done]. }
  case_if.
  { wp_go. apply HQ; [|done|done]. by destruct (Z.eqb_spec rc SQLITE_OK). }
  subst rc. cbn in H1'.
  apply wp_bind, wp_pwrite; [apply H1|]. intros rc s2 H2 He2. unfold after.
  assert (H12 : stp s s2 (only pg) (refs_at pg 1)).
  { eapply stp_compose; [exact H1'|exact H2|done|by intros q []|]. intros q. unfold none_r. lia. }
  apply wp_bind. case_if.
  - destruct (Z.eqb_spec rc SQLITE_OK) as [|Hne]; [done|].
    apply wp_release; [apply H2|]. intros s3 H3. unfold after. wp_go.
    apply HQ; [|by left|done]. destruct (Z.eqb_spec rc SQLITE_OK); [done|].
    eapply stp_compose; [exact H12|exact H3|done|by intros q []|].
    intros q. unfold refs_at, none_r. case_if; lia.
  - wp_go. subst rc. by apply HQ.
Qed.

Lemma wp_trunk_update iTrunk c k Q s :
  fok s -> 0 <= c < k -> 8 + k * 4 <= pageSize bt ->
  (forall s', stp s s' (only iTrunk) none_r ->
     at4 (data s' iTrunk) 0 = at4 (data s iTrunk) 0 ->
     at4 (data s' iTrunk) 4 = k - 1 ->
     (forall i, 0 <= i < k - 1 -> at4 (data s' iTrunk) (8 + i * 4) =
        at4 (data s iTrunk) (8 + (if i =? c then k - 1 else i) * 4)) ->
     Q (Ret tt) s') ->
  wp (trunk_update iTrunk c k) Q s.
Proof.
  intros Hs Hc Hk HQ. unfold trunk_update. destruct (data_ok s iTrunk Hs) as [Hl Hb].
  apply wp_bind.
  eapply (wp_mono _ (fun o s1 => o = Ret tt /\ stp s s1 (only iTrunk) none_r /\
     (forall j, j < 8 -> bat (data s1 iTrunk) j = bat (data s iTrunk) j) /\
     (forall i, 0 <= i < k - 1 -> at4 (data s1 iTrunk) (8 + i * 4) =
        at4 (data s iTrunk) (8 + (if i =? c then k - 1 else i) * 4)))).
  - case_if.
    + destruct (bsub_in (data s iTrunk) (4 + k * 4) 4) as [x Ex]; [lia|lia|lia|].
      pose proof (bsub_len _ _ _ _ Ex) as Hx.
      destruct (blit_in (data s iTrunk) (8 + c * 4) x) as [d Ed]; [lia|lia|].
      eapply (wp_store iTrunk _ d); [done|by rewrite Ex| | |].
      * by rewrite (blit_len _ _ _ _ Ed).
      * eapply blit_ok; [done| |done]. by eapply bsub_ok.
      * intros s1 H1 D1. split; [done|]. split; [done|]. rewrite D1. split.
        -- intros j Hj. rewrite (blit_at _ _ _ _ j Ed).
           destruct (Z.leb_spec (8 + c * 4) j); [lia|done].
        -- intros i Hi. destruct (Z.eqb_spec i c) as [->|Hne].
           ++ apply at4_shift. intros j Hj. rewrite (blit_at _ _ _ _ _ Ed), Hx.
              destruct (Z.leb_spec (8 + c * 4) (8 + c * 4 + j)),
                (Z.ltb_spec (8 + c * 4 + j) (8 + c * 4 + 4)); try lia. cbn.
              rewrite (bsub_at _ _ _ _ _ Ex) by lia. f_equal. lia.
           ++ apply at4_eq. intros j Hj. rewrite (blit_at _ _ _ _ j Ed), Hx.
              destruct (Z.leb_spec (8 + c * 4) j), (Z.ltb_spec j (8 + c * 4 + 4)); cbn; try done. lia.
    + wp_go. split; [done|]. split; [by apply stp_refl|]. split; [done|].
      intros i Hi. destruct (Z.eqb_spec i c); [lia|done].
  - intros o s1 (-> & H1 & B1 & L1). unfold after.
    apply wp_put4; [apply H1|lia|lia|]. intros s2 d2 H2 E2 D2.
    destruct Hs as (_ & Hn & _). apply HQ; rewrite ?D2.
    + eapply stp_compose; [exact H1|exact H2|done|done|]. done.
    + rewrite (Put4byte_at4_other _ _ _ _ 0 E2) by lia. apply at4_eq. intros j Hj. apply B1. lia.
    + apply (Put4byte_at4 _ _ _ _ E2). lia.
    + intros i Hi. rewrite (Put4byte_at4_other _ _ _ _ (8 + i * 4) E2) by lia. by apply L1.
Qed.

(** The list after a leaf of the first trunk was taken. *)
Lemma freelist_take_leaf s s' t ls ts i x :
  freelist s ((t, ls) :: ts) -> ls !! i = Some x -> nPage s' = nPage s ->
  at4 (data s' 1) 36 = at4 (data s 1) 36 - 1 -> at4 (data s' 1) 32 = at4 (data s 1) 32 ->
  (forall q, q <> 1 -> q <> t -> q <> x -> data s' q = data s q) ->
  at4 (data s' t) 0 = at4 (data s t) 0 ->
  at4 (data s' t) 4 = Z.of_nat (length ls) - 1 ->
  (forall j, 0 <= j < Z.of_nat (length ls) - 1 -> at4 (data s' t) (8 + j * 4) =
     at4 (data s t) (8 + (if j =? Z.of_nat i then Z.of_nat (length ls) - 1 else j) * 4)) ->
  freelist s' ((t, swap_remove i ls) :: ts) /\
  pages ((t, ls) :: ts) ≡ₚ x :: pages ((t, swap_remove i ls) :: ts).
Proof.
  intros H Hi En E36 E32 Hd E0 Ek El.
  pose proof (lookup_lt_Some _ _ _ Hi) as Hlt.
  assert (Hperm : pages ((t, ls) :: ts) ≡ₚ x :: pages ((t, swap_remove i ls) :: ts)).
  { rewrite !pages_cons. rewrite (swap_remove_perm i ls x Hi) at 1. solve_Permutation. }
  split; [|exact Hperm]. pose proof (fun q => freelist_range s _ q H) as Hr.
  destruct H as [F1 (C1 & (T1 & T2 & T3 & T4) & C3) F3].
  pose proof F3 as F3'. rewrite Hperm in F3'. apply list.NoDup_cons in F3' as [Fx F3'].
  split; [|rewrite E32, En; cbn [chain]; split; [done|]; split|exact F3'].
  - rewrite E36, F1, Hperm. cbn [length]. lia.
  - split; [done|]. rewrite swap_remove_length. split; [rewrite Ek; lia|]. split; [lia|].
    intros j y Hy. pose proof (lookup_lt_Some _ _ _ Hy) as Hj.
    rewrite swap_remove_length in Hj. rewrite swap_remove_lookup in Hy by done.
    rewrite El by lia. case_decide as Eji.
    + subst j. rewrite Z.eqb_refl. destruct (T4 _ _ Hy) as [E Hr2].
      split; [|done]. rewrite <- E. f_equal. lia.
    + destruct (Z.eqb_spec (Z.of_nat j) (Z.of_nat i)); [lia|]. by apply T4.
  - rewrite E0. eapply chain_frame; [|exact C3]. intros q Hq. apply Hd.
    + intros ->. destruct (Hr 1); [|lia]. rewrite pages_cons.
      apply list_elem_of_further, elem_of_app. by right.
    + intros ->. rewrite pages_cons in F3. apply list.NoDup_cons in F3 as [F3 _].
      apply F3, elem_of_app. by right.
    + intros ->. apply Fx. rewrite pages_cons. apply list_elem_of_further, elem_of_app. by right.
Qed.

(** The list after its first trunk was taken. *)
Lemma freelist_take_trunk s s' t ts :
  freelist s ((t, []) :: ts) -> nPage s' = nPage s ->
  at4 (data s' 1) 36 = at4 (data s 1) 36 - 1 ->
  at4 (data s' 1) 32 = at4 (data s t) 0 ->
  (forall q, q <> 1 -> data s' q = data s q) -> freelist s' ts.
Proof.
  intros H En E36 E32 Hd. pose proof (fun q => freelist_range s _ q H) as Hr.
  destruct H as [F1 (C1 & T & C3) F3].
  rewrite pages_cons in F1, F3, Hr. cbn [app length] in *. split.
  - rewrite E36, F1. lia.
  - rewrite E32, En. eapply chain_frame; [|exact C3]. intros q Hq. apply Hd. intros ->.
    destruct (Hr 1); [by apply list_elem_of_further|lia].
  - by apply list.NoDup_cons in F3 as [_ F3].
Qed.

Lemma getHasContent_ok s q : fok s -> 0 <= q < 2 ^ 32 ->
  exists b, btreeGetHasContent q s = Some b.
Proof.
  intros (_ & _ & Hhc) Hq. unfold btreeGetHasContent.
  destruct (pHasContent s) as [p|]; [|eauto]. destruct Hhc as [X HX].
  destruct (sqlite3BitvecSize p <? q); [eauto|].
  destruct (bitvec_test _ _ _ q HX Hq) as (b & Hb & _). eauto.
Qed.

(** What an allocation leaves behind. *)
Definition alloc_err (s : F) (avail : Z -> Prop) (rc pg : Z) (s' : F) : Prop :=
  fok s' /\ (forall q, refs s' q = refs s q + got rc pg q) /\
  (rc <> SQLITE_OK -> alloc_error s avail rc) /\
  (rc = SQLITE_OK -> refs s pg <= 0).

Definition reuse_ok (s : F) (nearby eMode t : Z) (ls : list Z) (ts : trunks)
    (pg : Z) (s' : F) : Prop :=
  nPage s' = nPage s /\
  (exists ts', freelist s' ts' /\ pages ((t, ls) :: ts) ≡ₚ pg :: pages ts') /\
  (forall q, q <> 1 -> q ∉ pages ((t, ls) :: ts) -> data s' q = data s q) /\
  (forall j, j < 32 \/ 40 <= j -> bat (data s' 1) j = bat (data s 1) j) /\
  match ls with
  | [] => pg = t
  | _ => exists i : nat, ls !! i = Some pg /\
      chosen (data s t) nearby eMode (Z.of_nat (length ls)) (Z.of_nat i)
  end.

Lemma wp_alloc_leaf nearby eMode t ls ts s0 s :
  freelist s0 ((t, ls) :: ts) -> fok s -> ls <> [] -> nPage s = nPage s0 ->
  (forall q, q <> 1 -> data s q = data s0 q) ->
  at4 (data s 1) 36 = at4 (data s0 1) 36 - 1 ->
  (forall j, j < 32 \/ 40 <= j -> bat (data s 1) j = bat (data s0 1) j) ->
  at4 (data s 1) 32 = at4 (data s0 1) 32 ->
  (forall q, q <> t -> refs s q = refs s0 q) ->
  wp (alloc_leaf nearby eMode (nPage s0) t (Z.of_nat (length ls)))
    (returns (fun r s' => fok s' /\ (forall q, refs s' q = refs s q + got r.1 r.2 q) /\
       (r.1 <> SQLITE_OK -> alloc_error s0 (fun q => q ∈ pages ((t, ls) :: ts)) r.1) /\
       (r.1 = SQLITE_OK -> refs s0 r.2 <= 0 /\ reuse_ok s0 nearby eMode t ls ts r.2 s'))) s.
Proof.
  intros Hfl Hs Hls En Hd E36 Hb1 E32 Hrefs.
  pose proof (fun q => freelist_range s0 _ q Hfl) as Hr.
  pose proof (fl_chain _ _ Hfl) as (C1 & (T1 & T2 & T3 & T4) & C3).
  assert (Hlen : 0 < Z.of_nat (length ls)) by (destruct ls; [done|cbn; lia]).
  pose proof Hs as (_ & Hmx & _).
  destruct (data_ok s t Hs) as [Hl Hbo]. unfold alloc_leaf. wp_go. change (id s) with s.
  assert (Hroom : 8 + Z.of_nat (length ls) * 4 <= pageSize bt) by div_lia.
  destruct (find_closest_ok (data s t) nearby (Z.of_nat (length ls)) Hbo ltac:(lia) eMode Hlen)
    as (c & -> & Hc). do 2 wp_step. unfold after.
  pose proof Hc as (Hcr & _). assert (Dt : data s t = data s0 t) by (apply Hd; lia).
  apply wp_bind, wp_get4; [done|lia|lia|]. intros _. unfold after. rewrite Dt.
  destruct (lookup_lt_is_Some_2 ls (Z.to_nat c)) as [x Hx]; [lia|].
  destruct (T4 _ _ Hx) as [Ex Hxr]. rewrite Z2Nat.id in Ex by lia. rewrite Ex.
  assert (Hxin : x ∈ pages ((t, ls) :: ts)).
  { rewrite pages_cons. apply list_elem_of_further, elem_of_app. left.
    by eapply list_elem_of_lookup_2. }
  assert (Hxt : x <> t).
  { intros ->. pose proof (fl_nodup _ _ Hfl) as Hnd. rewrite pages_cons in Hnd.
    apply list.NoDup_cons in Hnd as [Hnd _]. apply Hnd, elem_of_app. left.
    by eapply list_elem_of_lookup_2. }
  destruct (Z.ltb_spec (nPage s0) x), (Z.ltb_spec x 2); try lia. cbn [orb].
  apply wp_bind, wp_pwrite; [done|]. intros rc s1 H1 He. unfold after. case_if.
  { wp_go. destruct (Z.eqb_spec rc SQLITE_OK) as [|Hne]; [done|].
    cbn [returns okp fst snd]. unfold got. destruct (Z.eqb_spec rc SQLITE_OK); [done|].
    split; [apply H1|]. split; [apply H1|]. split; [by left|done]. }
  apply wp_bind, wp_trunk_update; [apply H1|done|done|]. intros s2 H2 U0 U4 UL. unfold after.
  wp_go. change (id s2) with s2. destruct (getHasContent_ok s2 x) as [b Eb]; [apply H2|lia|].
  rewrite Eb. do 2 wp_step. unfold after. rewrite (st_data _ _ _ _ H1) in U0, UL by (intros []).
  rewrite Dt in U0, UL. apply wp_fetch_write; [apply H2|]. intros rc2 s3 H3 He3 Hr3. cbn [returns okp fst snd].
  assert (R2 : forall q, refs s2 q = refs s q).
  { intros q. rewrite (st_refs _ _ _ _ H2), (st_refs _ _ _ _ H1). unfold none_r. lia. }
  rewrite R2, (Hrefs x Hxt) in Hr3.
  split; [apply H3|]. split; [intros q; by rewrite (st_refs _ _ _ _ H3), R2|]. split.
  { intros Hne. destruct (He3 Hne) as [He4|[-> He4]]; [by left|right]. split; [done|].
    exists x. split; [done|]. by rewrite R2, (Hrefs x Hxt) in He4. }
  intros ->. split; [by apply Hr3|].
  assert (D3 : forall q, q <> t -> q <> x -> data s3 q = data s q).
  { intros q Hq1 Hq2. rewrite (st_data _ _ _ _ H3), (st_data _ _ _ _ H2) by done.
    apply (st_data _ _ _ _ H1). intros []. }
  assert (D31 : data s3 1 = data s 1) by (apply D3; lia).
  assert (Dt3 : data s3 t = data s2 t) by (apply (st_data _ _ _ _ H3); unfold only; congruence).
  assert (N3 : nPage s3 = nPage s0).
  { by rewrite (st_n _ _ _ _ H3), (st_n _ _ _ _ H2), (st_n _ _ _ _ H1). }
  split; [done|]. split; [|split; [|split]].
  - exists ((t, swap_remove (Z.to_nat c) ls) :: ts). apply (freelist_take_leaf s0); try done.
    + by rewrite D31.
    + by rewrite D31.
    + intros q Hq1 Hq2 Hq3. rewrite D3 by done. by apply Hd.
    + by rewrite Dt3.
    + by rewrite Dt3.
    + intros j Hj. rewrite Dt3, UL by done. by rewrite Z2Nat.id by lia.
  - intros q Hq1 Hq2. rewrite D3; [by apply Hd|by intros ->; apply Hq2; rewrite pages_cons; apply list_elem_of_here|by intros ->].
  - intros j Hj. rewrite D31. by apply Hb1.
  - destruct ls as [|y ls']; [done|]. exists (Z.to_nat c). split; [done|].
    rewrite Z2Nat.id by lia. by rewrite <- Dt.
Qed.

Lemma got_fail rc pg q : rc <> SQLITE_OK -> got rc pg q = 0.
Proof. intros Hne. unfold got. by destruct (Z.eqb_spec rc SQLITE_OK). Qed.

Definition reuse_post (s : F) (nearby eMode t : Z) (ls : list Z) (ts : trunks)
    (r : Z * Z) (s' : F) : Prop :=
  alloc_err s (fun q => q ∈ pages ((t, ls) :: ts)) r.1 r.2 s' /\
  (r.1 = SQLITE_OK -> reuse_ok s nearby eMode t ls ts r.2 s').

(** The first trunk has no leaf: it is the page. *)
Lemma wp_take_trunk nearby eMode t ts s0 s :
  freelist s0 ((t, []) :: ts) -> fok s -> nPage s = nPage s0 ->
  (forall q, q <> 1 -> data s q = data s0 q) ->
  at4 (data s 1) 36 = at4 (data s0 1) 36 - 1 ->
  (forall j, j < 36 \/ 40 <= j -> bat (data s 1) j = bat (data s0 1) j) ->
  (forall q, refs s q = refs s0 q + refs_at t 1 q) -> refs s0 t <= 0 ->
  wp (let* rc := on_pager (pagerWrite t) in
      if negb (rc =? SQLITE_OK) then releasePage t ;;* ret (rc, 0) else
      let* s := gets id in
      store 1 (fun d => s ← bsub (data s t) 0 4; blit d 32 s) ;;*
      ret (SQLITE_OK, t))
    (returns (reuse_post s0 nearby eMode t [] ts)) s.
Proof.
  intros Hfl Hs En Hd E36 Hb1 Hrefs Hr0.
  pose proof (fl_chain _ _ Hfl) as (C1 & (T1 & _) & C3).
  apply wp_bind, wp_pwrite; [done|]. intros rc s1 H1 He. unfold after. case_if.
  { destruct (Z.eqb_spec rc SQLITE_OK) as [|Hne]; [done|].
    apply wp_bind, wp_release; [apply H1|]. intros s2 H2. unfold after. wp_go.
    split; [|done]. split; [apply H2|]. split; [|split; [by left|done]].
    intros q. cbn [fst snd]. rewrite got_fail by done.
    rewrite (st_refs _ _ _ _ H2), (st_refs _ _ _ _ H1), Hrefs. unfold refs_at, none_r. case_if; lia. }
  do 2 wp_step. unfold after. change (id s1) with s1.
  destruct (data_ok s1 t (st_ok _ _ _ _ H1)) as [Hlt Hbt].
  destruct (data_ok s1 1 (st_ok _ _ _ _ H1)) as [Hl1 Hbo1].
  destruct (bsub_in (data s1 t) 0 4) as [x Ex]; [lia|lia|lia|].
  pose proof (bsub_len _ _ _ _ Ex) as Hx.
  destruct (blit_in (data s1 1) 32 x) as [d Ed]; [lia|lia|].
  apply wp_bind. eapply (wp_store 1 _ d); [apply H1|by rewrite Ex|by rewrite (blit_len _ _ _ _ Ed)|exact (blit_ok _ _ _ _ Hbo1 (bsub_ok _ _ _ _ Hbt Ex) Ed)|].
  intros s2 H2 D2. unfold after. wp_go. unfold none in *.
  assert (D1 : forall q, data s1 q = data s q) by (intros q; apply (st_data _ _ _ _ H1); intros []).
  assert (Dq : forall q, q <> 1 -> data s2 q = data s0 q).
  { intros q Hq. rewrite (st_data _ _ _ _ H2) by done. rewrite D1. by apply Hd. }
  rewrite D1 in Ed, Ex.
  assert (N2 : nPage s2 = nPage s0).
  { by rewrite (st_n _ _ _ _ H2), (st_n _ _ _ _ H1). }
  assert (Hout : forall j, j < 32 \/ 36 <= j -> bat (data s2 1) j = bat (data s 1) j).
  { intros j Hj. rewrite D2, (blit_at _ _ _ _ j Ed), Hx.
    destruct (Z.leb_spec 32 j), (Z.ltb_spec j (32 + 4)); cbn; try done. lia. }
  split.
  { split; [apply H2|]. split; [|split; [done|done]]. intros q. cbn.
    rewrite (st_refs _ _ _ _ H2), (st_refs _ _ _ _ H1), Hrefs. unfold none_r. lia. }
  intros _. split; [done|]. split; [|split; [|split]]; [|by intros; apply Dq| |done].
  - exists ts. split; [|by rewrite pages_cons].
    apply (freelist_take_trunk s0 _ t); try done.
    + rewrite <- E36. apply at4_eq. intros j Hj. apply Hout. lia.
    + rewrite <- (Hd t) by lia. apply at4_shift. intros j Hj.
      rewrite D2, (blit_at _ _ _ _ _ Ed), Hx.
      destruct (Z.leb_spec 32 (32 + j)), (Z.ltb_spec (32 + j) (32 + 4)); try lia. cbn.
      rewrite D1 in *. rewrite (bsub_at _ _ _ _ _ Ex) by lia. f_equal. lia.
  - intros j Hj. rewrite Hout by lia. apply Hb1. lia.
Qed.

Lemma wp_alloc_reuse nearby eMode t ls ts s :
  fok s -> freelist s ((t, ls) :: ts) ->
  wp (alloc_reuse bt nearby eMode (nPage s) (at4 (data s 1) 36))
    (returns (reuse_post s nearby eMode t ls ts)) s.
Proof.
  intros Hs Hfl. unfold alloc_reuse.
  pose proof (fl_chain _ _ Hfl) as (C1 & (T1 & T2 & T3 & T4) & C3).
  assert (Htin : t ∈ pages ((t, ls) :: ts)) by (rewrite pages_cons; apply list_elem_of_here).
  assert (Hbail : forall s1 rc pg, rc <> SQLITE_OK ->
    alloc_error s (fun q => q ∈ pages ((t, ls) :: ts)) rc -> fok s1 ->
    (forall q, refs s1 q = refs s q) ->
    returns (reuse_post s nearby eMode t ls ts) (Ret (rc, pg)) s1).
  { intros s1 rc pg Hne He Hs1 Hr. split; [|done]. split; [done|].
    split; [|split; [done|done]]. intros q. cbn [fst snd]. rewrite got_fail by done. rewrite Hr. lia. }
  apply wp_bind, wp_pwrite; [done|]. intros rc s1 H1 He. unfold after. case_if.
  { wp_go. destruct (Z.eqb_spec rc SQLITE_OK) as [|Hne]; [done|].
    apply Hbail; [done|by left|apply H1|]. intros q. rewrite (st_refs _ _ _ _ H1). unfold none_r. lia. }
  apply wp_bind, wp_put4; [apply H1|lia|lia|]. intros s2 d2 H2 E2 D2. unfold after.
  rewrite (st_data _ _ _ _ H1) in E2 by (intros []).
  assert (H12 : stp s s2 (only 1) none_r).
  { eapply stp_compose; [exact H1|exact H2|by intros q []|done|done]. }
  assert (Hb : forall j, j < 36 \/ 40 <= j -> bat (data s2 1) j = bat (data s 1) j).
  { intros j Hj. rewrite D2. apply (Put4byte_at _ _ _ _ j E2). lia. }
  assert (E36 : at4 (data s2 1) 36 = at4 (data s 1) 36 - 1).
  { rewrite D2. apply (Put4byte_at4 _ _ _ _ E2).
    destruct (data_ok s 1 Hs) as [_ Hbo]. pose proof (at4_range (data s 1) 36 Hbo).
    rewrite (fl_count _ _ Hfl), pages_cons in *. cbn [length] in *. lia. }
  assert (E32 : at4 (data s2 1) 32 = t).
  { rewrite <- C1. apply at4_eq. intros j Hj. apply Hb. lia. }
  assert (Dq2 : forall q, q <> 1 -> data s2 q = data s q).
  { intros q Hq. by apply (st_data _ _ _ _ H12). }
  apply wp_bind, wp_get4; [apply H2|lia|lia|]. intros _. unfold after. rewrite E32.
  destruct (Z.ltb_spec (nPage s) t); [lia|].
  apply wp_bind, wp_getunused; [apply H2|]. intros rc2 s3 H3 He3 Hr3. unfold after.
  assert (R2 : forall q, refs s2 q = refs s q).
  { intros q. rewrite (st_refs _ _ _ _ H12). unfold none_r. lia. }
  case_if.
  { wp_go. destruct (Z.eqb_spec rc2 SQLITE_OK) as [|Hne]; [done|].
    apply Hbail; [done| |apply H3|].
    - destruct He3 as [He3|[-> He3]]; [by left|right]. split; [done|]. exists t.
      split; [done|]. by rewrite <- R2.
    - intros q. rewrite (st_refs _ _ _ _ H3), R2. unfold none_r. lia. }
  subst rc2. cbn in H3.
  assert (D3 : forall q, data s3 q = data s2 q) by (intros q; apply (st_data _ _ _ _ H3); intros []).
  assert (R3 : forall q, refs s3 q = refs s q + refs_at t 1 q).
  { intros q. by rewrite (st_refs _ _ _ _ H3), R2. }
  assert (N3 : nPage s3 = nPage s).
  { by rewrite (st_n _ _ _ _ H3), (st_n _ _ _ _ H12). }
  apply wp_bind, wp_get4; [apply H3|lia|lia|]. intros _. unfold after.
  rewrite D3, Dq2, T2 by lia. rewrite R2 in Hr3.
  destruct ls as [|y ls].
  { cbn [length Z.of_nat Z.eqb].
    apply wp_take_trunk; try done; [apply H3|intros q Hq; rewrite D3; by apply Dq2|by rewrite D3| |by apply Hr3].
    intros j Hj. rewrite D3. by apply Hb. }
  set (ls' := y :: ls) in *.
  destruct (Z.eqb_spec (Z.of_nat (length ls')) 0) as [E0|_]; [cbn in E0; lia|].
  rewrite u32_small by div_lia.
  destruct (Z.ltb_spec (usableSize bt / 4 - 2) (Z.of_nat (length ls'))); [lia|].
  eapply wp_seq.
  { apply (wp_alloc_leaf nearby eMode t ls' ts s); try done; [apply H3| | | | |].
    - intros q Hq. rewrite D3. by apply Dq2.
    - by rewrite D3.
    - intros j Hj. rewrite D3. apply Hb. lia.
    - by rewrite D3, E32, C1.
    - intros q Hq. rewrite R3. unfold refs_at. destruct (Z.eqb_spec q t); [done|lia]. }
  intros [rc4 pg] s4 (O4 & R4 & He4 & Hok4). cbn [fst snd] in *.
  apply wp_bind, wp_release; [done|]. intros s5 H5. unfold after. wp_go.
  split; cbn [fst snd].
  - split; [apply H5|]. split; [|split; [done|by intros; apply Hok4]].
    intros q. rewrite (st_refs _ _ _ _ H5), R4, R3. unfold refs_at. case_if; lia.
  - intros Erc. destruct (Hok4 Erc) as (_ & N4 & (ts' & F4 & P4) & A4 & B4 & L4).
    assert (D5 : forall q, data s5 q = data s4 q) by (intros q; apply (st_data _ _ _ _ H5); intros []).
    split; [by rewrite (st_n _ _ _ _ H5)|]. split; [|split; [|split; [|done]]].
    + exists ts'. split; [|done]. destruct F4 as [G1 G2 G3].
      split; [by rewrite D5|rewrite D5, (st_n _ _ _ _ H5)|done].
      eapply chain_frame; [|exact G2]. by intros q _.
    + intros q Hq1 Hq2. rewrite D5. by apply A4.
    + intros j Hj. rewrite D5. by apply B4.
Qed.

Definition append_ok (s : F) (pg : Z) (s' : F) : Prop :=
  nPage s < pg <= nPage s + 2 /\ nPage s' = pg /\ pg <> PENDING_BYTE_PAGE bt /\
  (forall q, nPage s < q < pg -> q = PENDING_BYTE_PAGE bt) /\
  freelist s' [] /\ at4 (data s' 1) 28 = pg /\
  (forall q, q <> 1 -> q <> pg -> data s' q = data s q) /\
  (forall j, j < 28 \/ 32 <= j -> bat (data s' 1) j = bat (data s 1) j).

Lemma wp_alloc_append s :
  fok s -> freelist s [] -> nPage s + 2 < 2 ^ 32 ->
  wp (alloc_append bt)
    (returns (fun r s' => alloc_err s (fun q => nPage s < q) r.1 r.2 s' /\
       (r.1 = SQLITE_OK -> append_ok s r.2 s'))) s.
Proof.
  intros Hs Hfl Hmax. unfold alloc_append. pose proof Hs as (_ & Hmx & _).
  apply wp_bind, wp_pwrite; [done|]. intros rc s1 H1 He. unfold after. case_if.
  { wp_go. destruct (Z.eqb_spec rc SQLITE_OK) as [|Hne]; [done|]. split; [|done]. cbn [fst snd].
    split; [apply H1|]. split; [|split; [by left|done]].
    intros q. rewrite got_fail by done. apply (st_refs _ _ _ _ H1). }
  wp_go. rewrite (st_n _ _ _ _ H1). rewrite (u32_small (nPage s + 1)) by lia.
  set (n := if nPage s + 1 =? PENDING_BYTE_PAGE bt then _ else _).
  assert (Hn : nPage s < n <= nPage s + 2 /\ n <> PENDING_BYTE_PAGE bt /\
    forall q, nPage s < q < n -> q = PENDING_BYTE_PAGE bt).
  { unfold n. case_if; [rewrite u32_small by lia|]; (split; [lia|]); (split; [lia|]); intros; lia. }
  destruct Hn as (Hn1 & Hn2 & Hn3).
  set (s1' := set_nPage n s1).
  assert (Hs1 : fok s1').
  { destruct H1 as [(O1 & _ & O3) _ _ _ _]. split; [exact O1|]. split; [cbn; lia|exact O3]. }
  apply wp_put4; [done|lia|lia|]. intros s2 d2 H2 E2 D2. unfold after.
  assert (D1 : forall q, data s1' q = data s q) by (intros q; apply (st_data _ _ _ _ H1); intros []).
  rewrite D1 in E2.
  assert (R2 : forall q, refs s2 q = refs s q).
  { intros q. rewrite (st_refs _ _ _ _ H2). assert (E : refs s1' q = refs s1 q) by done.
    rewrite E, (st_refs _ _ _ _ H1). unfold none_r. lia. }
  apply wp_fetch_write; [apply H2|]. intros rc3 s3 H3 He3 Hr3. cbn [returns okp fst snd].
  split.
  { split; [apply H3|]. split; [intros q; by rewrite (st_refs _ _ _ _ H3), R2|]. split.
    - intros Hne. destruct (He3 Hne) as [He4|[-> He4]]; [by left|right]. split; [done|].
      exists n. split; [lia|]. by rewrite <- R2.
    - intros Erc. rewrite <- R2. auto. }
  intros _. assert (D31 : data s3 1 = d2).
  { rewrite (st_data _ _ _ _ H3) by (unfold only; lia). exact D2. }
  assert (N3 : nPage s3 = n) by (by rewrite (st_n _ _ _ _ H3), (st_n _ _ _ _ H2)).
  split; [lia|]. split; [done|]. split; [done|]. split; [done|]. split; [|split; [|split]].
  - destruct Hfl as [F1 F2 F3]. split; [|rewrite D31|done].
    + rewrite D31, (Put4byte_at4_other _ _ _ _ 36 E2) by lia. exact F1.
    + cbn [chain] in *. by rewrite (Put4byte_at4_other _ _ _ _ 32 E2) by lia.
  - rewrite D31. apply (Put4byte_at4 _ _ _ _ E2). lia.
  - intros q Hq1 Hq2. rewrite (st_data _ _ _ _ H3), (st_data _ _ _ _ H2) by done.
    apply D1.
  - intros j Hj. rewrite D31. apply (Put4byte_at _ _ _ _ j E2). lia.
Qed.

(** The pages an allocation may look at. *)
Definition avail (s : F) (ts : trunks) (q : Z) : Prop :=
  match ts with [] => nPage s < q | _ => q ∈ pages ts end.
Definition alloc_ok (s : F) (nearby eMode : Z) (ts : trunks) (pg : Z) (s' : F) : Prop :=
  match ts with
  | [] => append_ok s pg s'
  | (t, ls) :: ts => reuse_ok s nearby eMode t ls ts pg s'
  end.

Lemma allocateBtreePage_spec nearby eMode ts s :
  fok s -> freelist s ts -> nPage s + 2 < 2 ^ 32 ->
  wp (allocateBtreePage bt nearby eMode)
    (returns (fun r s' => alloc_err s (avail s ts) r.1 r.2 s' /\
       (r.1 = SQLITE_OK -> alloc_ok s nearby eMode ts r.2 s'))) s.
Proof.
  intros Hs Hfl Hmax. unfold allocateBtreePage. wp_go.
  apply wp_get4; [done|lia|lia|]. intros _. unfold after.
  assert (Hlen : Z.of_nat (length (pages ts)) < nPage s).
  { apply nodup_range; [apply Hfl| |apply Hs]. intros q. by apply freelist_range. }
  rewrite (fl_count _ _ Hfl).
  destruct (Z.leb_spec (nPage s) (Z.of_nat (length (pages ts)))); [lia|].
  rewrite <- (fl_count _ _ Hfl). destruct ts as [|[t ls] ts].
  - rewrite (fl_count _ _ Hfl). cbn [length pages mjoin list_join fmap list_fmap Z.of_nat Z.ltb Z.compare].
    by apply wp_alloc_append.
  - destruct (Z.ltb_spec 0 (at4 (data s 1) 36)).
    + by apply wp_alloc_reuse.
    + rewrite (fl_count _ _ Hfl), pages_cons in *. cbn [length] in *. lia.
Qed.

(** ** Histories of allocations and frees *)

(** [U] lists the pages handed out. *)
Inductive fl_step : F * list Z -> F * list Z -> Prop :=
  | step_alloc s U nearby eMode pg s' :
      nPage s + 2 < 2 ^ 32 ->
      allocateBtreePage bt nearby eMode s = (Ret (SQLITE_OK, pg), s') ->
      fl_step (s, U) (s', pg :: U)
  | step_free s U1 U2 given pg s' :
      freePage2 mallocOk bt given pg s = (Ret SQLITE_OK, s') ->
      fl_step (s, U1 ++ pg :: U2) (s', U1 ++ U2).

(** The pages of the file after page 1 and but for the pending-byte page. *)
Definition file_pages (n : Z) : list Z :=
  filter (fun q => q <> PENDING_BYTE_PAGE bt) (seqZ 2 (n - 1)).

Definition conserved (c : F * list Z) (ts : trunks) : Prop :=
  fok c.1 /\ freelist c.1 ts /\ file_pages (nPage c.1) ≡ₚ c.2 ++ pages ts.

Lemma file_pages_nodup n : NoDup (file_pages n).
Proof. apply list.NoDup_filter, NoDup_seqZ. Qed.
Lemma file_pages_range n q : q ∈ file_pages n -> 2 <= q <= n.
Proof. intros [_ H]%list_elem_of_filter. apply elem_of_seqZ in H. lia. Qed.

Lemma file_pages_grow n m :
  1 <= n -> n < m -> m <> PENDING_BYTE_PAGE bt ->
  (forall q, n < q < m -> q = PENDING_BYTE_PAGE bt) ->
  file_pages m ≡ₚ m :: file_pages n.
Proof.
  intros Hn Hm Hp Hall. unfold file_pages.
  replace (m - 1) with ((n - 1) + (m - n)) by lia. rewrite seqZ_app by lia.
  rewrite list.filter_app. replace (2 + (n - 1)) with (n + 1) by lia.
  replace (m - n) with ((m - n - 1) + 1) by lia. rewrite (seqZ_app (n + 1)) by lia.
  rewrite list.filter_app. replace (n + 1 + (m - n - 1)) with m by lia.
  assert (E : filter (fun q => q <> PENDING_BYTE_PAGE bt) (seqZ (n + 1) (m - n - 1)) = []).
  { destruct (filter _ _) as [|x l] eqn:E; [done|].
    assert (Hx : x ∈ x :: l) by apply list_elem_of_here. rewrite <- E in Hx.
    apply list_elem_of_filter in Hx as [Hx1 Hx2%elem_of_seqZ]. destruct Hx1. apply Hall. lia. }
  rewrite E, (seqZ_cons m 1) by lia. change (seqZ (Z.succ m) (Z.pred 1)) with (@nil Z).
  rewrite list.filter_cons_True by done. cbn. by rewrite <- Permutation_cons_append.
Qed.

Lemma fl_step_ok c c' ts :
  conserved c ts -> fl_step c c' -> exists ts', conserved c' ts'.
Proof.
  intros (Hs & Hfl & Hc) Hstep. destruct Hstep as [s U nearby eMode pg s' Hmax E|s U1 U2 given pg s' E];
    cbn [fst snd] in *.
  - destruct (wp_run _ _ _ _ _ (allocateBtreePage_spec nearby eMode ts s Hs Hfl Hmax) E)
      as [(O & _) Hok]. cbn [fst snd] in *. specialize (Hok eq_refl). destruct ts as [|[t ls] ts].
    + destruct Hok as (A1 & A2 & A3 & A4 & A5 & _). exists []. split; [done|]. split; [done|].
      cbn [fst snd]. rewrite A2, (file_pages_grow (nPage s)) by (done || lia || apply Hs).
      by rewrite Hc.
    + destruct Hok as (A1 & (ts' & A2 & A3) & _). exists ts'. split; [done|]. split; [done|].
      cbn [fst snd]. rewrite A1, Hc, A3. solve_Permutation.
  - assert (Hin : pg ∈ file_pages (nPage s)).
    { rewrite Hc. apply elem_of_app. left. apply elem_of_app. right. apply list_elem_of_here. }
    pose proof (file_pages_range _ _ Hin) as Hr.
    assert (Hnin : pg ∉ pages ts).
    { pose proof (file_pages_nodup (nPage s)) as Hnd. rewrite Hc in Hnd.
      apply list.NoDup_app in Hnd as (_ & Hnd & _). apply Hnd, elem_of_app. right. apply list_elem_of_here. }
    destruct (wp_run _ _ _ _ _ (freePage2_spec given pg ts s Hs Hfl Hr Hnin) E)
      as ((O & N & _) & _ & Hok). destruct (Hok eq_refl) as (ts' & A1 & A2 & _).
    exists ts'. split; [done|]. split; [done|]. cbn [fst snd].
    rewrite N, Hc, A2. solve_Permutation.
Qed.

Lemma fl_history c c' ts :
  conserved c ts -> rtc fl_step c c' -> exists ts', conserved c' ts'.
Proof.
  intros H Hr. revert ts H. induction Hr as [|c c1 c2 H1 _ IH]; intros ts H; [eauto|].
  destruct (fl_step_ok _ _ _ H H1) as [ts1 Hts1]. eauto.
Qed.
End Spec.
