(* ===== verification/FreelistProps.v ===== *)
(** * The properties of the free list

    Stated for any pager that obeys [PagerLaws]; the witnesses run the code
    over [MemPager]. *)
From stdpp Require Import gmap.
From S2P Require Import Prelude Bits Bytes Varint BtPage Heap Bitvec PagerIface Freelist.

Section Props.
Context {P : Type} {HP : Pager P} (mallocOk : nat -> bool) (bt : BtShared)
  (ok : P -> Prop) {HL : PagerLaws P (pageSize bt) ok}.
Abbreviation F := (file P).
Hypothesis Hgeom : 480 <= usableSize bt <= pageSize bt /\ pageSize bt <= 65536.

(** C23: freeing a page that is not on the free list, over any pager: the call
    returns and keeps every reference count; an error code is one of the
    pager's or out of memory; on success the free list holds exactly the old
    pages and the new one, pages off the list and the other bytes of page 1
    keep their contents, and a page that became a leaf is recorded as having
    content to keep. *)
Theorem freePage2_correct (given : bool) iPage ts (s : F) :
  fok ok s -> freelist bt s ts -> 2 <= iPage <= nPage s -> iPage ∉ pages ts ->
  exists rc s', freePage2 mallocOk bt given iPage s = (Ret rc, s') /\
    nPage s' = nPage s /\ (forall q, refs s' q = refs s q) /\
    (rc <> SQLITE_OK -> pager_error ok rc \/ rc = SQLITE_NOMEM) /\
    (rc = SQLITE_OK -> exists ts', freelist bt s' ts' /\
       pages ts' ≡ₚ iPage :: pages ts /\
       (forall q, q <> 1 -> q ∉ pages ts' -> data s' q = data s q) /\
       (forall j, j < 32 \/ 40 <= j -> bat (data s' 1) j = bat (data s 1) j) /\
       (iPage ∉ ts'.*1 -> btreeGetHasContent iPage s' = Some true)).
Proof.
  intros Hs Hfl Hp Hnin.
  destruct (returns_run _ _ _ (freePage2_spec mallocOk bt ok Hgeom given iPage ts s Hs Hfl Hp Hnin))
    as (rc & s' & E & (O & N & R) & He & Hok).
  exists rc, s'. done.
Qed.

(** C22: allocating a page, over any pager: the call returns; it takes one
    reference on success and none on error; an error code is the pager's, or
    [SQLITE_CORRUPT] because a page to be reused is still referenced; on
    success a page nobody referenced is returned: when the list is empty the
    next page of the file (the pending-byte page is skipped and the page count
    on page 1 raised), otherwise a page of the list, which then holds exactly
    the others - the leafless trunk itself, or the leaf the search prefers -
    and no page in use changes. *)
Theorem allocateBtreePage_correct nearby eMode ts (s : F) :
  fok ok s -> freelist bt s ts -> nPage s + 2 < 2 ^ 32 ->
  exists rc pg s', allocateBtreePage bt nearby eMode s = (Ret (rc, pg), s') /\
    (forall q, refs s' q = refs s q + got rc pg q) /\
    (rc <> SQLITE_OK -> pager_error ok rc \/
       rc = SQLITE_CORRUPT /\ exists q, avail s ts q /\ 1 <= refs s q) /\
    (rc = SQLITE_OK -> refs s pg <= 0 /\ alloc_ok bt s nearby eMode ts pg s').
Proof.
  intros Hs Hfl Hmax.
  destruct (returns_run _ _ _ (allocateBtreePage_spec bt ok Hgeom nearby eMode ts s Hs Hfl Hmax))
    as ([rc pg] & s' & E & (O & R & He & Hr) & Hok).
  exists rc, pg, s'. cbn [fst snd] in *. split; [done|]. split; [done|]. split; [done|].
  intros Erc. split; auto.
Qed.

(** C12: along any history of successful allocations and frees (each freed page
    having been handed out), the pages of the file other than page 1 and the
    pending-byte page are exactly those handed out and those on the free list,
    each once: no page is lost or handed out twice. *)
Theorem freelist_conserves_pages (s s' : F) U U' ts :
  conserved bt ok (s, U) ts -> rtc (fl_step mallocOk bt) (s, U) (s', U') ->
  exists ts', freelist bt s' ts' /\ file_pages bt (nPage s') ≡ₚ U' ++ pages ts' /\
    NoDup (U' ++ pages ts').
Proof.
  intros Hc Hr. destruct (fl_history mallocOk bt ok Hgeom _ _ _ Hc Hr) as (ts' & H1 & H2 & H3).
  exists ts'. split; [done|]. split; [done|]. rewrite <- H3. apply file_pages_nodup.
Qed.
End Props.

(** ** Witnesses: a file of five pages of 512 bytes *)

Definition demo_bt : BtShared := mkBt 512 512 0 0 0 0 false.
Definition demo_file : file MemPager :=
  mkFile (mkMemPager 512 ∅ ∅ []) 5 None ∅ (mkHeap 0 0).
Definition all_mem : nat -> bool := fun _ => true.

Lemma demo_geom : 480 <= usableSize demo_bt <= pageSize demo_bt /\ pageSize demo_bt <= 65536.
Proof. cbn. lia. Qed.
#[export] Instance demo_laws : PagerLaws MemPager (pageSize demo_bt) (mp_ok 512).
Proof. apply MemPager_laws. lia. Qed.
Lemma demo_fok : fok (mp_ok 512) demo_file.
Proof. split; [split; [done|apply map_Forall_empty]|]. split; [cbn; lia|done]. Qed.
Lemma demo_freelist : freelist demo_bt demo_file [].
Proof. split; [reflexivity|reflexivity|constructor]. Qed.

Lemma freePage2_correct_witness :
  exists rc s', freePage2 all_mem demo_bt false 3 demo_file = (Ret rc, s') /\
    rc = SQLITE_OK /\ exists ts', freelist demo_bt s' ts' /\ pages ts' ≡ₚ [3].
Proof.
  destruct (freePage2_correct all_mem demo_bt (mp_ok 512) demo_geom false 3 [] demo_file
    demo_fok demo_freelist) as (rc & s' & E & N & R & He & Hok).
  - cbn. lia.
  - apply not_elem_of_nil.
  - assert (Erc : rc = SQLITE_OK).
    { apply (f_equal (fun r => match fst r with Ret c => c | _ => 99 end)) in E.
      vm_compute in E. symmetry. exact E. }
    exists rc, s'. split; [exact E|]. split; [exact Erc|].
    destruct (Hok Erc) as (ts' & H1 & H2 & _). exists ts'. split; [exact H1|exact H2].
Defined.

Lemma allocateBtreePage_correct_witness :
  exists rc pg s', allocateBtreePage demo_bt 0 0 demo_file = (Ret (rc, pg), s') /\
    rc = SQLITE_OK /\ pg = 6 /\ nPage s' = 6.
Proof.
  destruct (allocateBtreePage_correct demo_bt (mp_ok 512) demo_geom 0 0 [] demo_file
    demo_fok demo_freelist) as (rc & pg & s' & E & R & He & Hok).
  - cbn. lia.
  - assert (Erc : (rc, pg) = (SQLITE_OK, 6)).
    { apply (f_equal (fun r => match fst r with Ret c => c | _ => (99, 0) end)) in E.
      vm_compute in E. symmetry. exact E. }
    injection Erc as E1 E2. exists rc, pg, s'. split; [exact E|]. split; [exact E1|].
    split; [exact E2|]. destruct (Hok E1) as (_ & _ & H2 & _). rewrite H2. exact E2.
Defined.

(** All five pages in use; page 4 is freed, then allocated again. *)
Definition demo_file1 : file MemPager :=
  Eval vm_compute in snd (freePage2 all_mem demo_bt false 4 demo_file).
Definition demo_file2 : file MemPager :=
  Eval vm_compute in snd (allocateBtreePage demo_bt 0 0 demo_file1).

Lemma demo_history :
  rtc (fl_step all_mem demo_bt) (demo_file, [2; 3; 4; 5]) (demo_file2, [4; 2; 3; 5]).
Proof.
  eapply rtc_l; [apply (step_free _ _ _ [2; 3] [5] false 4 demo_file1); vm_compute; reflexivity|].
  eapply rtc_l; [|apply rtc_refl].
  apply (step_alloc _ _ _ _ 0 0 4); [vm_compute; reflexivity|vm_compute; reflexivity].
Qed.

Lemma freelist_conserves_pages_witness :
  exists ts', freelist demo_bt demo_file2 ts' /\
    file_pages demo_bt (nPage demo_file2) ≡ₚ [4; 2; 3; 5] ++ pages ts'.
Proof.
  destruct (freelist_conserves_pages all_mem demo_bt (mp_ok 512) demo_geom
    demo_file demo_file2 [2; 3; 4; 5] [4; 2; 3; 5] []) as (ts' & H1 & H2 & _).
  - split; [exact demo_fok|]. split; [exact demo_freelist|]. vm_compute. reflexivity.
  - exact demo_history.
  - exists ts'. split; [exact H1|exact H2].
Defined.
