(* ===== verification/MemJournal.v ===== *)
(** * In-memory journals ([src/src/memjournal.c])

    A journal is kept as a chain of chunks until it grows past [nSpill], then
    moved to a real file.  The chain of [FileChunk]s is the list of their
    [zChunk] arrays and a pointer to a chunk is its position in the list
    ([None] for null).  The file system is the class [Vfs]; a freshly allocated
    chunk holds unspecified bytes, [junk n] for the [n]-th request. *)
From S2P Require Import Prelude Bits Bytes Heap.

(** ** The file system below *)

Class Vfs (W : Type) : Type := {
  osOpen : W -> Z * W;             (* [sqlite3OsOpen] on the journal name *)
  osWrite : bytes -> Z -> W -> Z * W;
  osRead : Z -> Z -> W -> Z * bytes * W;   (* result code, data *)
  osClose : W -> W;
  osContent : W -> bytes;          (* the bytes of the open file *)
}.

(** [d] written at [off] in a file of content [f]; a gap reads as zeros. *)
Definition write_at (f : bytes) (off : Z) (d : bytes) : bytes :=
  take (Z.to_nat off) (f ++ zeros (off - blen f)) ++ d
    ++ drop (Z.to_nat (off + blen d)) f.

(** What the journal relies on: opening gives an empty file, and a successful
    write puts the data at the offset. *)
Class VfsLaws (W : Type) `{Vfs W} : Prop := {
  os_open w w' : osOpen w = (SQLITE_OK, w') -> osContent w' = [];
  os_write d off w w' : 0 <= off -> osWrite d off w = (SQLITE_OK, w') ->
    osContent w' = write_at (osContent w) off d;
}.

(** ** Definitions *)

Record MemJournal : Type := mkJournal {
  nChunkSize : Z;
  nSpill : Z;
  jflags : Z;
  chunks : list bytes;             (* [pFirst] and its successors *)
  end_iOffset : Z;                 (* [endpoint] *)
  end_pChunk : option nat;
  read_iOffset : Z;                (* [readpoint] *)
  read_pChunk : option nat;
}.

Definition MEMJOURNAL_DFLT_FILECHUNKSIZE : Z := 1024.
(** [sizeof(FileChunk)] with eight-byte pointers. *)
Definition sizeof_FileChunk : Z := 16.

(** [p->pNext] of the chunk at position [c]. *)
Definition pNext (cs : list bytes) (c : nat) : option nat :=
  if bool_decide (S c < length cs)%nat then Some (S c) else None.
Definition pFirst (p : MemJournal) : option nat :=
  match chunks p with [] => None | _ => Some 0%nat end.

(** The journal handle: in memory, or a real file. *)
Inductive handle : Type :=
  | InMemory (p : MemJournal)
  | OnDisk.

Section Code.
Context {W : Type} `{Vfs W}.
Variables (mallocOk : nat -> bool) (junk : nat -> Z -> Z).

(** [for(pChunk=p->pFirst; pChunk && (iOff+nChunkSize)<=iOfst; ...)]. *)
Fixpoint seek_loop (fuel : nat) (p : MemJournal) (pChunk : option nat) (iOff iOfst : Z)
    : option (option nat) :=
  match fuel with
  | O => None
  | S fuel =>
      match pChunk with
      | None => Some None
      | Some c =>
          if iOff + nChunkSize p <=? iOfst
          then seek_loop fuel p (pNext (chunks p) c) (iOff + nChunkSize p) iOfst
          else Some (Some c)
      end
  end.

(** The [do ... while] loop; [zOut] collects what has been copied. *)
Fixpoint read_loop (fuel : nat) (p : MemJournal) (c : nat) (iChunkOffset nRead : Z)
    (zOut : bytes) : option (bytes * option nat) :=
  match fuel with
  | O => None
  | S fuel =>
      zChunk ← chunks p !! c;
      let iSpace := nChunkSize p - iChunkOffset in
      let nCopy := Z.min nRead iSpace in
      s ← bsub zChunk iChunkOffset nCopy;
      let zOut := zOut ++ s in
      let nRead := nRead - iSpace in
      if 0 <=? nRead then
        match pNext (chunks p) c with
        | None => Some (zOut, None)
        | Some c =>
            if 0 <? nRead then read_loop fuel p c 0 nRead zOut
            else Some (zOut, Some c)
        end
      else Some (zOut, Some c)
  end.

Definition set_read (off : Z) (c : option nat) (p : MemJournal) : MemJournal :=
  mkJournal (nChunkSize p) (nSpill p) (jflags p) (chunks p) (end_iOffset p)
    (end_pChunk p) off c.
Definition set_end (cs : list bytes) (off : Z) (c : option nat) (p : MemJournal) : MemJournal :=
  mkJournal (nChunkSize p) (nSpill p) (jflags p) cs off c
    (read_iOffset p) (read_pChunk p).

(** The result code, the data and the journal with its read point moved. *)
Definition memjrnlRead (p : MemJournal) (iAmt iOfst : Z)
    : option (Z * bytes * MemJournal) :=
  if end_iOffset p <? iAmt + iOfst then Some (SQLITE_IOERR_SHORT_READ, [], p)
  else
    pChunk ← (if negb (read_iOffset p =? iOfst) || (iOfst =? 0)
              then seek_loop (S (length (chunks p))) p (pFirst p) 0 iOfst
              else Some (read_pChunk p));
    c ← pChunk;
    r ← read_loop (S (length (chunks p))) p c (iOfst mod nChunkSize p) iAmt [];
    let '(zOut, pChunk) := r in
    Some (SQLITE_OK, zOut,
      set_read (match pChunk with Some _ => iOfst + iAmt | None => 0 end) pChunk p).

(** [for(pIter=p->pFirst; pIter && iOff<size; pIter=pIter->pNext)]. *)
Fixpoint trunc_loop (fuel : nat) (p : MemJournal) (pIter : option nat) (iOff size : Z)
    : option (option nat) :=
  match fuel with
  | O => None
  | S fuel =>
      match pIter with
      | None => Some None
      | Some c =>
          if iOff <? size
          then trunc_loop fuel p (pNext (chunks p) c) (iOff + nChunkSize p) size
          else Some (Some c)
      end
  end.

(** [memjrnlFreeChunks] of [n] chunks. *)
Definition memjrnlFreeChunks (n : nat) : M heap unit :=
  modify (fun h => mkHeap (requests h) (live h - Z.of_nat n)).

Definition memjrnlTruncate (p : MemJournal) (size : Z) : M heap MemJournal :=
  if size <? end_iOffset p then
    let* r :=
      (if size =? 0 then
         memjrnlFreeChunks (length (chunks p)) ;;* ret ([], None)
       else
         let* pIter := lift (trunc_loop (S (length (chunks p))) p (pFirst p)
                               (nChunkSize p) size) in
         match pIter with
         | Some c =>
             memjrnlFreeChunks (length (chunks p) - S c) ;;*
             ret (take (S c) (chunks p), Some c)
         | None => ret (chunks p, None)
         end) in
    let '(cs, pIter) := r in
    ret (set_read 0 None (set_end cs size pIter p))
  else ret p.

(** [while( nWrite>0 )]; the journal is returned with the result code. *)
Fixpoint write_loop (fuel : nat) (p : MemJournal) (zWrite : bytes)
    : M heap (Z * MemJournal) :=
  match fuel with
  | O => undef
  | S fuel =>
      let nWrite := blen zWrite in
      if 0 <? nWrite then
        let iChunkOffset := end_iOffset p mod nChunkSize p in
        let iSpace := Z.min nWrite (nChunkSize p - iChunkOffset) in
        let* q :=
          (if iChunkOffset =? 0 then
             let* h := gets id in
             let* ok := malloc mallocOk in
             if negb ok then ret None
             else
               let pNew := (fun j => u8 (junk (requests h) j)) <$> seqZ 0 (nChunkSize p) in
               let cs := match end_pChunk p with
                         | Some c => take (S c) (chunks p) ++ [pNew]
                         | None => [pNew]
                         end in
               ret (Some (set_end cs (end_iOffset p) (Some (pred (length cs))) p))
           else ret (Some p)) in
        match q with
        | None => ret (SQLITE_IOERR_NOMEM, p)
        | Some p =>
            let* c := lift (end_pChunk p) in
            let* zChunk := lift (chunks p !! c) in
            let* s := lift (bsub zWrite 0 iSpace) in
            let* zChunk := lift (blit zChunk iChunkOffset s) in
            let p := set_end (<[c := zChunk]> (chunks p)) (end_iOffset p + iSpace)
                       (end_pChunk p) p in
            write_loop fuel p (drop (Z.to_nat iSpace) zWrite)
        end
      else ret (SQLITE_OK, p)
  end.

(** The write to chunks in memory. *)
Definition write_memory (p : MemJournal) (zBuf : bytes) (iOfst : Z) : M heap (Z * MemJournal) :=
  let* p :=
    (if (0 <? iOfst) && negb (iOfst =? end_iOffset p)
     then memjrnlTruncate p iOfst else ret p) in
  if (iOfst =? 0) && bool_decide (is_Some (pFirst p)) then
    let* zChunk := lift (chunks p !! 0%nat) in
    let* zChunk := lift (blit zChunk 0 zBuf) in
    ret (SQLITE_OK, set_end (<[0%nat := zChunk]> (chunks p)) (end_iOffset p) (end_pChunk p) p)
  else write_loop (S (length zBuf)) p zBuf.

(** [for(pIter=copy.pFirst; pIter; pIter=pIter->pNext)]. *)
Fixpoint spill_loop (cs : list bytes) (size nChunk iOff : Z) (w : W) : option (Z * W) :=
  match cs with
  | [] => Some (SQLITE_OK, w)
  | zChunk :: cs =>
      let nChunk := if size <? iOff + nChunk then size - iOff else nChunk in
      s ← bsub zChunk 0 nChunk;
      let '(rc, w) := osWrite s iOff w in
      if negb (rc =? SQLITE_OK) then Some (rc, w)
      else spill_loop cs size nChunk (iOff + nChunk) w
  end.

(** The state of the process: the heap and the file system. *)
Record proc : Type := mkProc { ph : heap; pw : W }.
Definition on_heap {A} (m : M heap A) : M proc A := fun s =>
  let r := m (ph s) in (fst r, mkProc (snd r) (pw s)).
Definition on_disk {A} (f : W -> A * W) : M proc A := fun s =>
  let r := f (pw s) in (Ret r.1, mkProc (ph s) r.2).

Definition memjrnlCreateFile (p : MemJournal) : M proc (Z * handle) :=
  let* rc := on_disk osOpen in
  let* rc :=
    (if rc =? SQLITE_OK then
       let* s := gets id in
       let* r := lift (spill_loop (chunks p) (end_iOffset p) (nChunkSize p) 0 (pw s)) in
       let '(rc, w) := r in
       modify (fun s => mkProc (ph s) w) ;;*
       (if rc =? SQLITE_OK then on_heap (memjrnlFreeChunks (length (chunks p))) else ret tt) ;;*
       ret rc
     else ret rc) in
  if negb (rc =? SQLITE_OK) then
    modify (fun s => mkProc (ph s) (osClose (pw s))) ;;* ret (rc, InMemory p)
  else ret (rc, OnDisk).

Definition memjrnlWrite (p : MemJournal) (zBuf : bytes) (iOfst : Z) : M proc (Z * handle) :=
  if (0 <? nSpill p) && (nSpill p <? blen zBuf + iOfst) then
    let* r := memjrnlCreateFile p in
    let '(rc, h) := r in
    if rc =? SQLITE_OK then
      let* rc := on_disk (osWrite zBuf iOfst) in ret (rc, h)
    else ret (rc, h)
  else
    let* r := on_heap (write_memory p zBuf iOfst) in
    ret (r.1, InMemory r.2).

Definition memjrnlClose (p : MemJournal) : M heap unit :=
  memjrnlFreeChunks (length (chunks p)).
Definition memjrnlFileSize (p : MemJournal) : Z := end_iOffset p.

Definition sqlite3JournalOpen (flags spill : Z) : M proc (Z * handle) :=
  if spill =? 0 then let* rc := on_disk osOpen in ret (rc, OnDisk)
  else
    let cs := if 0 <? spill then spill
              else 8 + MEMJOURNAL_DFLT_FILECHUNKSIZE - sizeof_FileChunk in
    ret (SQLITE_OK, InMemory (mkJournal cs spill flags [] 0 None 0 None)).
Definition sqlite3MemJournalOpen : M proc (Z * handle) := sqlite3JournalOpen 0 (-1).

Definition sqlite3JournalIsInMemory (h : handle) : bool :=
  match h with InMemory _ => true | OnDisk => false end.

(** A write through the handle, as [sqlite3OsWrite] dispatches it. *)
Definition journalWrite (h : handle) (zBuf : bytes) (iOfst : Z) : M proc (Z * handle) :=
  match h with
  | InMemory p => memjrnlWrite p zBuf iOfst
  | OnDisk => let* rc := on_disk (osWrite zBuf iOfst) in ret (rc, h)
  end.
End Code.

(** ** The bytes of a journal in memory *)

(** Byte [j] of the chain. *)
Definition jat (cs : list bytes) (size j : Z) : Z :=
  bat (default [] (cs !! Z.to_nat (j / size))) (j mod size).
(** The [n] bytes from [pos]. *)
Definition jseg (cs : list bytes) (size pos n : Z) : bytes := jat cs size <$> seqZ pos n.
Definition content (p : MemJournal) : bytes := jseg (chunks p) (nChunkSize p) 0 (end_iOffset p).

Definition chunk_ok (size : Z) (c : bytes) : Prop := blen c = size /\ bytes_ok c.

Record journal_ok (p : MemJournal) : Prop := {
  jo_size : 0 < nChunkSize p;
  jo_chunks : Forall (chunk_ok (nChunkSize p)) (chunks p);
  jo_end : 0 <= end_iOffset p;
  (** As many chunks as the bytes need, the last one not empty. *)
  jo_count : end_iOffset p <= nChunkSize p * Z.of_nat (length (chunks p)) < end_iOffset p + nChunkSize p;
  jo_last : end_pChunk p = match chunks p with [] => None | _ => Some (pred (length (chunks p))) end;
  jo_read : read_iOffset p = 0 \/
    0 < read_iOffset p /\ (Z.to_nat (read_iOffset p / nChunkSize p) < length (chunks p))%nat /\
    read_pChunk p = Some (Z.to_nat (read_iOffset p / nChunkSize p));
}.

Lemma jseg_len cs size pos n : 0 <= n -> blen (jseg cs size pos n) = n.
Proof. intros Hn. unfold blen, jseg. rewrite length_fmap, length_seqZ. lia. Qed.
Lemma jseg_app cs size pos n m :
  0 <= n -> 0 <= m -> jseg cs size pos (n + m) = jseg cs size pos n ++ jseg cs size (pos + n) m.
Proof. intros Hn Hm. unfold jseg. by rewrite seqZ_app, fmap_app by lia. Qed.
Lemma jseg_at cs size pos n j : 0 <= j < n -> bat (jseg cs size pos n) j = jat cs size (pos + j).
Proof.
  intros Hj. unfold bat, jseg. destruct (Z.leb_spec 0 j); [|lia].
  rewrite list_lookup_fmap, lookup_seqZ_lt by lia. cbn. f_equal. lia.
Qed.
Lemma jseg_ext cs cs' size pos n :
  (forall j, pos <= j < pos + n -> jat cs' size j = jat cs size j) ->
  jseg cs' size pos n = jseg cs size pos n.
Proof.
  intros E. unfold jseg. apply list_fmap_ext. intros i j Hj.
  apply lookup_seqZ in Hj. apply E. lia.
Qed.

(** Position [c * size + o] is byte [o] of chunk [c]. *)
Lemma pos_div size c o : 0 < size -> 0 <= o < size -> 0 <= c ->
  (c * size + o) / size = c /\ (c * size + o) mod size = o.
Proof.
  intros Hs Ho Hc. rewrite Z.div_add_l, Z.div_small, Z.add_0_r by lia. split; [done|].
  by rewrite Z.add_comm, Z.mod_add, Z.mod_small by lia.
Qed.
Lemma jseg_chunk cs size c z o n :
  0 < size -> cs !! c = Some z -> blen z = size -> 0 <= o -> 0 <= n -> o + n <= size ->
  bsub z o n = Some (jseg cs size (Z.of_nat c * size + o) n).
Proof.
  intros Hs Hc Hz Ho Hn Hon. destruct (bsub_in z o n) as [s Es]; [lia..|]. rewrite Es. f_equal.
  pose proof (bsub_len _ _ _ _ Es) as Hl. apply bytes_ext; [by rewrite jseg_len|].
  intros j Hj. rewrite (bsub_at _ _ _ _ _ Es), jseg_at by lia. unfold jat.
  replace (Z.of_nat c * size + o + j) with (Z.of_nat c * size + (o + j)) by lia.
  destruct (pos_div size (Z.of_nat c) (o + j)) as [-> ->]; [lia..|].
  by rewrite Nat2Z.id, Hc.
Qed.

Lemma content_len p : journal_ok p -> blen (content p) = end_iOffset p.
Proof. intros H. apply jseg_len, H. Qed.

Lemma chunk_at p j :
  journal_ok p -> 0 <= j < end_iOffset p ->
  (Z.to_nat (j / nChunkSize p) < length (chunks p))%nat.
Proof.
  intros [H1 _ H3 H4 _ _] Hj.
  assert (j / nChunkSize p < Z.of_nat (length (chunks p))).
  { apply Z.div_lt_upper_bound; lia. }
  pose proof (Z.div_pos j (nChunkSize p)). lia.
Qed.

(** ** Reading *)

Section Read.
Variable p : MemJournal.
Hypothesis Hok : journal_ok p.

Lemma pNext_in c : (S c < length (chunks p))%nat -> pNext (chunks p) c = Some (S c).
Proof. intros Hc. unfold pNext. by rewrite bool_decide_eq_true_2. Qed.

Lemma seek_ok iOfst fuel c :
  0 <= iOfst < end_iOffset p -> Z.of_nat c <= iOfst / nChunkSize p ->
  iOfst / nChunkSize p - Z.of_nat c < Z.of_nat fuel ->
  seek_loop fuel p (Some c) (Z.of_nat c * nChunkSize p) iOfst
  = Some (Some (Z.to_nat (iOfst / nChunkSize p))).
Proof.
  intros Hi. pose proof (jo_size _ Hok) as Hs. pose proof (chunk_at p iOfst Hok Hi) as Hlen.
  pose proof (Z.div_pos iOfst (nChunkSize p)).
  pose proof (Z.div_mod iOfst (nChunkSize p) ltac:(lia)).
  pose proof (Z.mod_pos_bound iOfst (nChunkSize p) ltac:(lia)).
  revert c. induction fuel as [|fuel IH]; intros c Hc Hf; [lia|]. cbn [seek_loop]. case_if.
  - assert (Z.of_nat c < iOfst / nChunkSize p).
    { apply (Zmult_lt_reg_r _ _ (nChunkSize p)); nia. }
    rewrite pNext_in by lia.
    replace (Z.of_nat c * nChunkSize p + nChunkSize p) with (Z.of_nat (S c) * nChunkSize p) by lia.
    apply IH; lia.
  - do 2 f_equal. assert (iOfst / nChunkSize p < Z.of_nat c + 1).
    { apply Z.div_lt_upper_bound; lia. } lia.
Qed.

Definition read_end (pos : Z) (o : option nat) : Prop :=
  match o with
  | None => True
  | Some c => c = Z.to_nat (pos / nChunkSize p) /\ (c < length (chunks p))%nat
  end.

Lemma read_loop_ok fuel c o nRead zOut :
  0 <= o < nChunkSize p -> 0 <= nRead -> (c < length (chunks p))%nat ->
  Z.of_nat c * nChunkSize p + o + nRead <= end_iOffset p ->
  (length (chunks p) - c < fuel)%nat ->
  exists r, read_loop fuel p c o nRead zOut
      = Some (zOut ++ jseg (chunks p) (nChunkSize p) (Z.of_nat c * nChunkSize p + o) nRead, r) /\
    read_end (Z.of_nat c * nChunkSize p + o + nRead) r.
Proof.
  pose proof Hok as [Hs Hch _ Hcount _ _]. set (size := nChunkSize p) in *.
  revert c o nRead zOut. induction fuel as [|fuel IH]; intros c o nRead zOut Ho Hn Hc Hend Hf; [lia|].
  cbn [read_loop]. fold size. destruct (lookup_lt_is_Some_2 (chunks p) c Hc) as [z Hz]. rewrite Hz.
  cbn [mbind option_bind]. destruct (proj1 (Forall_lookup _ _) Hch c z Hz) as [Hl Hb].
  rewrite (jseg_chunk (chunks p) size c z) by (done || lia). cbn [mbind option_bind].
  destruct (Z.leb_spec 0 (nRead - (size - o))) as [Hge|Hlt].
  - rewrite Z.min_r by lia. unfold pNext. case_bool_decide as Hnext.
    + destruct (Z.ltb_spec 0 (nRead - (size - o))) as [Hmore|Hdone].
      * destruct (IH (S c) 0 (nRead - (size - o))
          (zOut ++ jseg (chunks p) size (Z.of_nat c * size + o) (size - o))) as (r & E & Hr); [lia..|].
        exists r. rewrite E. split; [|by replace (Z.of_nat c * size + o + nRead)
          with (Z.of_nat (S c) * size + 0 + (nRead - (size - o))) by lia].
        do 2 f_equal. rewrite <- app_assoc. f_equal.
        replace nRead with ((size - o) + (nRead - (size - o))) at 2 by lia.
        rewrite jseg_app by lia. do 2 f_equal. lia.
      * exists (Some (S c)). replace (size - o) with nRead by lia. split; [done|].
        unfold read_end. split; [|done]. fold size.
        replace (Z.of_nat c * size + o + nRead) with (Z.of_nat (S c) * size + 0) by lia.
        destruct (pos_div size (Z.of_nat (S c)) 0) as [-> _]; lia.
    + exists None. replace (size - o) with nRead by nia. done.
  - exists (Some c). rewrite Z.min_l by lia. split; [done|]. unfold read_end. split; [|done].
    rewrite <- Z.add_assoc. fold size.
    destruct (pos_div size (Z.of_nat c) (o + nRead)) as [-> _]; lia.
Qed.

Lemma memjrnlRead_ok iAmt iOfst :
  0 < iAmt -> 0 <= iOfst ->
  (end_iOffset p < iAmt + iOfst ->
     memjrnlRead p iAmt iOfst = Some (SQLITE_IOERR_SHORT_READ, [], p)) /\
  (iAmt + iOfst <= end_iOffset p -> exists off c,
     memjrnlRead p iAmt iOfst
       = Some (SQLITE_OK, jseg (chunks p) (nChunkSize p) iOfst iAmt, set_read off c p) /\
     journal_ok (set_read off c p)).
Proof.
  intros Ha Ho. unfold memjrnlRead. split; intros Hend.
  { by destruct (Z.ltb_spec (end_iOffset p) (iAmt + iOfst)); [|lia]. }
  destruct (Z.ltb_spec (end_iOffset p) (iAmt + iOfst)); [lia|].
  pose proof (chunk_at p iOfst Hok ltac:(lia)) as Hc.
  pose proof Hok as [Hs Hch He Hcount Hlast Hread].
  assert (E : (if negb (read_iOffset p =? iOfst) || (iOfst =? 0)
              then seek_loop (S (length (chunks p))) p (pFirst p) 0 iOfst
              else Some (read_pChunk p)) = Some (Some (Z.to_nat (iOfst / nChunkSize p)))).
  { case_if.
    - assert (Hf : pFirst p = Some 0%nat) by (unfold pFirst; destruct (chunks p); cbn in *; [lia|done]).
      rewrite Hf. pose proof (Z.div_pos iOfst (nChunkSize p) ltac:(lia) Hs).
      apply (seek_ok iOfst _ 0); lia.
    - destruct Hread as [Hr0|(_ & _ & Hr)]; [lia|]. rewrite Hr. do 4 f_equal. lia. }
  rewrite E. cbn [mbind option_bind].
  pose proof (Z.div_mod iOfst (nChunkSize p) ltac:(lia)) as Hdm.
  pose proof (Z.mod_pos_bound iOfst (nChunkSize p) ltac:(lia)) as Hm.
  pose proof (Z.div_pos iOfst (nChunkSize p) ltac:(lia) Hs) as Hd0.
  assert (Epos : Z.of_nat (Z.to_nat (iOfst / nChunkSize p)) * nChunkSize p + iOfst mod nChunkSize p = iOfst).
  { rewrite Z2Nat.id by lia. lia. }
  destruct (read_loop_ok (S (length (chunks p))) (Z.to_nat (iOfst / nChunkSize p))
    (iOfst mod nChunkSize p) iAmt []) as (r & Er & Hr); [lia..|].
  rewrite Er, Epos in *. cbn [mbind option_bind app]. do 2 eexists. split; [done|].
  split; try done. cbn. destruct r as [c|]; [right|by left].
  destruct Hr as [-> Hr]. split; [lia|]. split; [|done]. done.
Qed.
End Read.

(** ** Truncating and writing *)

Definition same_params (p p' : MemJournal) : Prop :=
  nChunkSize p' = nChunkSize p /\ nSpill p' = nSpill p /\ jflags p' = jflags p.
(** As many blocks allocated (or freed) as chunks gained (or lost). *)
Definition balanced (p p' : MemJournal) (h h' : heap) : Prop :=
  live h' - live h = Z.of_nat (length (chunks p')) - Z.of_nat (length (chunks p)).

Lemma jseg_take cs size n m :
  0 <= n <= m -> take (Z.to_nat n) (jseg cs size 0 m) = jseg cs size 0 n.
Proof.
  intros Hn. replace m with (n + (m - n)) by lia. rewrite jseg_app by lia.
  apply take_app_length'. unfold jseg. by rewrite length_fmap, length_seqZ.
Qed.

Lemma jat_agree cs cs' size j :
  cs' !! Z.to_nat (j / size) = cs !! Z.to_nat (j / size) -> jat cs' size j = jat cs size j.
Proof. unfold jat. by intros ->. Qed.

Lemma trunc_loop_ok p size fuel c :
  journal_ok p -> 0 < size <= end_iOffset p -> Z.of_nat c <= (size - 1) / nChunkSize p ->
  (size - 1) / nChunkSize p - Z.of_nat c < Z.of_nat fuel ->
  trunc_loop fuel p (Some c) (Z.of_nat (S c) * nChunkSize p) size
  = Some (Some (Z.to_nat ((size - 1) / nChunkSize p))).
Proof.
  intros Hok Hi. pose proof (jo_size _ Hok) as Hs.
  pose proof (chunk_at p (size - 1) Hok ltac:(lia)) as Hlen.
  pose proof (Z.div_mod (size - 1) (nChunkSize p) ltac:(lia)).
  pose proof (Z.mod_pos_bound (size - 1) (nChunkSize p) ltac:(lia)).
  revert c. induction fuel as [|fuel IH]; intros c Hc Hf; [lia|]. cbn [trunc_loop]. case_if.
  - assert (Z.of_nat (S c) <= (size - 1) / nChunkSize p).
    { apply Z.div_le_lower_bound; lia. }
    unfold pNext. rewrite bool_decide_eq_true_2 by lia.
    replace (Z.of_nat (S c) * nChunkSize p + nChunkSize p) with (Z.of_nat (S (S c)) * nChunkSize p) by lia.
    apply IH; lia.
  - do 2 f_equal. assert ((size - 1) / nChunkSize p < Z.of_nat (S c)).
    { apply Z.div_lt_upper_bound; lia. } lia.
Qed.

Lemma memjrnlTruncate_ok p size h :
  journal_ok p -> 0 <= size ->
  wp (memjrnlTruncate p size)
    (returns (fun p' h' => journal_ok p' /\ content p' = take (Z.to_nat size) (content p) /\
       same_params p p' /\ balanced p p' h h')) h.
Proof.
  intros Hok Hsz. unfold memjrnlTruncate. pose proof Hok as [Hs Hch He Hcount Hlast Hread].
  case_if.
  2:{ wp_go. split; [done|]. split; [|split; [done|unfold balanced; lia]].
      rewrite take_ge; [done|]. pose proof (content_len p Hok). unfold blen in *. lia. }
  destruct (Z.eqb_spec size 0) as [->|Hne].
  - unfold memjrnlFreeChunks. wp_go. split; [|split; [done|split; [done|unfold balanced; cbn; lia]]].
    split; cbn; try done; try lia; try (by left).
  - assert (Hf : pFirst p = Some 0%nat).
    { unfold pFirst. destruct (chunks p) eqn:E; [cbn in *; lia|done]. }
    rewrite Hf.
    pose proof (chunk_at p (size - 1) Hok ltac:(lia)) as Hlen.
    pose proof (Z.div_pos (size - 1) (nChunkSize p) ltac:(lia) Hs).
    assert (E : trunc_loop (S (length (chunks p))) p (Some 0%nat) (nChunkSize p) size
      = Some (Some (Z.to_nat ((size - 1) / nChunkSize p)))).
    { replace (nChunkSize p) with (Z.of_nat 1 * nChunkSize p) at 1 by lia.
      apply trunc_loop_ok; [done|lia|lia|lia]. }
    rewrite E. set (c := Z.to_nat ((size - 1) / nChunkSize p)) in *. unfold memjrnlFreeChunks. wp_go.
    assert (Hlt : length (take (S c) (chunks p)) = S c) by (rewrite length_take; lia).
    pose proof (Z.div_mod (size - 1) (nChunkSize p) ltac:(lia)).
    pose proof (Z.mod_pos_bound (size - 1) (nChunkSize p) ltac:(lia)).
    assert (Hcz : Z.of_nat c = (size - 1) / nChunkSize p) by lia.
    split; [|split; [|split; [done|unfold balanced; cbn -[take]; rewrite Hlt; lia]]].
    + split; cbn -[take]; try done.
      * by apply Forall_take.
      * rewrite Hlt. nia.
      * destruct (take (S c) (chunks p)) eqn:Et; [done|]. rewrite Hlt. done.
      * by left.
    + unfold content. cbn -[take]. rewrite jseg_take by lia. apply jseg_ext. intros j Hj.
      apply jat_agree. apply lookup_take_lt.
      assert (j / nChunkSize p <= (size - 1) / nChunkSize p) by (apply Z.div_le_mono; lia).
      pose proof (Z.div_pos j (nChunkSize p)). lia.
Qed.

Lemma last_match (l : list bytes) n :
  length l = S n -> match l with [] => None | _ => Some (pred (length l)) end = Some n.
Proof. destruct l as [|x l]; cbn; [done|]. by intros [= ->]. Qed.

(** Storing [s] after the end, in the last chunk [z] of [cs]. *)
Lemma put_ok p cs c z s o :
  journal_ok p -> Z.of_nat c * nChunkSize p + o = end_iOffset p -> 0 <= o ->
  length cs = S c -> cs !! c = Some z -> chunk_ok (nChunkSize p) z ->
  Forall (chunk_ok (nChunkSize p)) cs ->
  (forall i y, chunks p !! i = Some y -> cs !! i = Some y) ->
  bytes_ok s -> 0 < blen s -> o + blen s <= nChunkSize p ->
  exists z', blit z o s = Some z' /\
    let p' := set_end (<[c := z']> cs) (end_iOffset p + blen s) (Some c) p in
    journal_ok p' /\ content p' = content p ++ s.
Proof.
  intros Hok Hend Ho Hlen Hz [Hzl Hzb] Hcs Hold Hsb Hs0 Hroom.
  pose proof Hok as [Hs Hch He Hcount Hlast Hread].
  destruct (blit_in z o s) as [z' Ez]; [lia|lia|]. exists z'. split; [done|]. cbn zeta.
  pose proof (blit_len _ _ _ _ Ez) as Hzl'. set (size := nChunkSize p) in *.
  assert (Hlc : length (<[c := z']> cs) = S c) by (by rewrite length_insert).
  assert (Hoc : (length (chunks p) <= S c)%nat).
  { destruct (decide (length (chunks p) <= S c)%nat) as [|Hn]; [done|].
    destruct (lookup_lt_is_Some_2 (chunks p) (S c)) as [y Hy]; [lia|].
    apply Hold, lookup_lt_Some in Hy. lia. }
  split.
  - split; cbn -[Nat.pred insert]; fold size; try done.
    + apply Forall_insert; [done|]. split; [lia|]. exact (blit_ok _ _ _ _ Hzb Hsb Ez).
    + lia.
    + rewrite Hlc. lia.
    + symmetry. by apply last_match.
    + destruct Hread as [->|(R1 & R2 & R3)]; [by left|right]. rewrite Hlc. split_and!; [done|lia|done].
  - unfold content. cbn -[insert]. fold size. rewrite jseg_app by (lia || apply He). f_equal.
    + apply jseg_ext. intros j Hj. unfold jat.
      pose proof (chunk_at p j Hok ltac:(lia)) as Hjc. fold size in Hjc.
      destruct (lookup_lt_is_Some_2 (chunks p) (Z.to_nat (j / size))) as [y Hy]; [done|].
      rewrite Hy. destruct (decide (Z.to_nat (j / size) = c)) as [Ec|Ec].
      * rewrite Ec, list_lookup_insert_eq by lia. rewrite Ec in Hy. apply Hold in Hy.
        assert (y = z) as -> by congruence. cbn. rewrite (blit_at _ _ _ _ _ Ez).
        pose proof (Z.div_pos j size ltac:(lia) Hs).
        assert (Hjm : j mod size < o).
        { pose proof (Z.div_mod j size ltac:(lia)). nia. }
        destruct (Z.leb_spec o (j mod size)); [lia|done].
      * by rewrite list_lookup_insert_ne, (Hold _ _ Hy).
    + apply bytes_ext; [by apply jseg_len, blen_nonneg|].
      rewrite jseg_len by apply blen_nonneg. intros j Hj. rewrite jseg_at by done. unfold jat.
      rewrite Z.add_0_l, <- Hend.
      replace (Z.of_nat c * size + o + j) with (Z.of_nat c * size + (o + j)) by lia.
      destruct (pos_div size (Z.of_nat c) (o + j)) as [-> ->]; [lia..|].
      rewrite Nat2Z.id, list_lookup_insert_eq by lia. cbn. rewrite (blit_at _ _ _ _ _ Ez).
      destruct (Z.leb_spec o (o + j)), (Z.ltb_spec (o + j) (o + blen s)); try lia. cbn.
      f_equal. lia.
Qed.

Lemma chunks_last p c :
  journal_ok p -> length (chunks p) = S c -> end_pChunk p = Some c.
Proof. intros Hok Hl. rewrite (jo_last p Hok). by apply last_match. Qed.

Lemma pNew_ok (f : Z -> Z) size : 0 <= size -> chunk_ok size ((fun j => u8 (f j)) <$> seqZ 0 size).
Proof.
  intros Hs. split.
  - unfold blen. rewrite length_fmap, length_seqZ. lia.
  - apply Forall_fmap, list.Forall_forall. intros x _. apply u8_range.
Qed.

Section Write.
Variables (mallocOk : nat -> bool) (junk : nat -> Z -> Z).

Definition write_post (p : MemJournal) (zWrite : bytes) (h : heap) (r : Z * MemJournal) (h' : heap)
    : Prop :=
  journal_ok r.2 /\ same_params p r.2 /\ balanced p r.2 h h' /\
  exists k, content r.2 = content p ++ take k zWrite /\
    (r.1 = SQLITE_OK /\ (length zWrite <= k)%nat \/ r.1 = SQLITE_IOERR_NOMEM).

Lemma write_loop_ok fuel p z h :
  journal_ok p -> bytes_ok z -> (length z < fuel)%nat ->
  wp (write_loop mallocOk junk fuel p z) (returns (write_post p z h)) h.
Proof.
  revert p z h. induction fuel as [|fuel IH]; intros p z h Hok Hz Hf; [lia|]. cbn [write_loop].
  pose proof Hok as [Hs Hch He Hcount Hlast Hread]. case_if.
  2:{ wp_go. split; [done|]. split; [done|]. split; [unfold balanced; cbn; lia|].
      exists (length z). split; [|by left].
      assert (z = []) as -> by (destruct z; [done|unfold blen in *; cbn in *; lia]).
      cbn. by rewrite app_nil_r. }
  set (size := nChunkSize p) in *. set (o := end_iOffset p mod size).
  set (n := Z.min (blen z) (size - o)).
  pose proof (Z.mod_pos_bound (end_iOffset p) size Hs) as Ho. fold o in Ho.
  pose proof (Z.div_mod (end_iOffset p) size ltac:(lia)) as Hdm. fold o in Hdm.
  pose proof (Z.div_pos (end_iOffset p) size He Hs) as Hd0.
  set (c := Z.to_nat (end_iOffset p / size)).
  assert (Hn : 0 < n) by lia.
  destruct (bsub_in z 0 n) as [s Es]; [lia..|].
  pose proof (bsub_len _ _ _ _ Es) as Hsl. pose proof (bsub_ok _ _ _ _ Hz Es) as Hsb.
  assert (Ezs : z = s ++ drop (Z.to_nat n) z).
  { unfold bsub in Es. case_match; [|done]. injection Es as <-. cbn [Z.to_nat drop].
    by rewrite take_drop. }
  (* the rest, once the last chunk is there *)
  assert (Hgo : forall p1 cs h1, chunks p1 = cs -> end_iOffset p1 = end_iOffset p ->
    end_pChunk p1 = Some c -> (forall l e q, set_end l e q p1 = set_end l e q p) ->
    length cs = S c -> Forall (chunk_ok size) cs ->
    (forall i y, chunks p !! i = Some y -> cs !! i = Some y) ->
    live h1 - live h = Z.of_nat (length cs) - Z.of_nat (length (chunks p)) ->
    wp (lift (end_pChunk p1)) (after (fun c =>
        let* zChunk := lift (chunks p1 !! c) in
        let* s := lift (bsub z 0 n) in
        let* zChunk := lift (blit zChunk o s) in
        write_loop mallocOk junk fuel
          (set_end (<[c := zChunk]> (chunks p1)) (end_iOffset p1 + n) (end_pChunk p1) p1)
          (drop (Z.to_nat n) z)) (returns (write_post p z h))) h1).
  { intros p1 cs h1 E1 E2 E3 E4 Hcl Hcs Hold Hlive. rewrite E3. wp_go. rewrite E1, E2.
    destruct (lookup_lt_is_Some_2 cs c) as [y Hy]; [lia|]. rewrite Hy, Es. wp_go.
    destruct (put_ok p cs c y s o) as (y' & Ey & Hok' & Hc'); try done; try lia.
    { by apply (proj1 (Forall_lookup _ _) Hcs c y). }
    rewrite Ey. wp_go. rewrite E4. rewrite Hsl in Hok', Hc'.
    eapply okp_mono; [apply IH; [exact Hok'|by apply Forall_drop|]|].
    { rewrite length_drop. unfold blen in *. lia. }
    intros [rc p'] h2 (P1 & P2 & P3 & k & P4 & P5). cbn [fst snd] in *.
    split; [done|]. split; [exact P2|]. split.
    - unfold balanced in *. cbn [chunks set_end] in P3. rewrite length_insert in P3. cbn [fst snd]. lia.
    - exists (length s + k)%nat. cbn [fst snd]. rewrite P4, Hc', <- app_assoc. split.
      + f_equal. rewrite Ezs at 2. rewrite take_app_add. done.
      + destruct P5 as [[E Hk]|E]; [left|by right]. split; [done|].
        rewrite length_drop in Hk. unfold blen in *. lia. }
  apply wp_bind. destruct (Z.eqb_spec o 0) as [Eo|Eo].
  - assert (Hlen : length (chunks p) = c).
    { unfold c. rewrite Eo, Z.add_0_r in Hdm. nia. }
    apply wp_bind, wp_gets. unfold after. apply wp_bind, wp_malloc. intros b h1 Ht Hfl. unfold after.
    destruct b; cbn [negb]; wp_go.
    + set (pNew := _ <$> seqZ 0 size).
      set (cs := match end_pChunk p with Some c => take (S c) (chunks p) ++ [pNew] | None => [pNew] end).
      assert (Ecs : cs = chunks p ++ [pNew]).
      { unfold cs. rewrite Hlast. destruct (chunks p) as [|x l] eqn:E; [done|].
        rewrite <- E. f_equal. apply take_ge. rewrite E. cbn. lia. }
      clearbody cs. subst cs.
      assert (Hl : length (chunks p ++ [pNew]) = S c) by (rewrite length_app; cbn; lia).
      eapply (Hgo _ (chunks p ++ [pNew]) h1); try done; [cbn; by rewrite Hl| | |].
      * apply Forall_app_2; [done|]. constructor; [|constructor]. apply pNew_ok. lia.
      * intros i y Hy. by apply lookup_app_l_Some.
      * rewrite Hl, Hlen, Ht by done. lia.
    + split; [done|]. split; [done|]. split; [unfold balanced; cbn; rewrite Hfl by done; lia|].
      exists 0%nat. split; [by rewrite app_nil_r|by right].
  - wp_go. assert (Hlen : length (chunks p) = S c).
    { unfold c. nia. }
    apply (Hgo p (chunks p) h); try done; [by apply chunks_last|lia].
Qed.

(** The content after a write at [ofs] in memory: an overwritten first chunk,
    or everything from [ofs] on replaced. *)
Definition mem_written (p : MemJournal) (z : bytes) (ofs : Z) (k : nat) : bytes :=
  if (ofs =? 0) && negb (end_iOffset p =? 0) then z ++ drop (length z) (content p)
  else take (Z.to_nat ofs) (content p) ++ take k z.

(** A write at the start of a non-empty journal stays in the first chunk and
    in the journal, as the code asserts. *)
Definition write_pre (p : MemJournal) (z : bytes) (ofs : Z) : Prop :=
  0 <= ofs <= end_iOffset p /\ bytes_ok z /\
  (ofs = 0 -> end_iOffset p = 0 \/ blen z <= end_iOffset p /\ blen z < nChunkSize p).

Lemma overwrite_ok p z z0 :
  journal_ok p -> chunks p !! 0%nat = Some z0 -> bytes_ok z -> blen z <= end_iOffset p ->
  blen z < nChunkSize p ->
  exists z', blit z0 0 z = Some z' /\
    let p' := set_end (<[0%nat := z']> (chunks p)) (end_iOffset p) (end_pChunk p) p in
    journal_ok p' /\ content p' = z ++ drop (length z) (content p).
Proof.
  intros Hok Hz0 Hz Hl1 Hl2. pose proof Hok as [Hs Hch He Hcount Hlast Hread].
  destruct (proj1 (Forall_lookup _ _) Hch _ _ Hz0) as [Hl0 Hb0].
  destruct (blit_in z0 0 z) as [z' Ez]; [lia|lia|]. exists z'. split; [done|]. cbn zeta.
  pose proof (lookup_lt_Some _ _ _ Hz0) as Hlen.
  assert (Hlc : length (<[0%nat := z']> (chunks p)) = length (chunks p)) by apply length_insert.
  split.
  - split; cbn -[Nat.pred insert]; try done.
    + apply Forall_insert; [done|]. split; [by rewrite (blit_len _ _ _ _ Ez)|].
      exact (blit_ok _ _ _ _ Hb0 Hz Ez).
    + by rewrite Hlc.
    + destruct (chunks p) as [|x l]; [done|]. exact Hlast.
    + by rewrite Hlc.
  - pose proof (blen_nonneg z). unfold content. cbn -[insert].
    apply bytes_ext.
    + unfold blen. rewrite length_app, length_drop.
      pose proof (jseg_len (<[0%nat:=z']> (chunks p)) (nChunkSize p) 0 _ He).
      pose proof (jseg_len (chunks p) (nChunkSize p) 0 _ He). unfold blen in *. lia.
    + rewrite jseg_len by done. intros j Hj. rewrite jseg_at by done. rewrite Z.add_0_l.
      assert (Hright : bat (z ++ drop (length z) (jseg (chunks p) (nChunkSize p) 0 (end_iOffset p))) j
        = if j <? blen z then bat z j else jat (chunks p) (nChunkSize p) j).
      { unfold bat. destruct (Z.leb_spec 0 j); [|lia]. unfold blen in *. case_if.
        - by rewrite lookup_app_l by lia.
        - rewrite lookup_app_r by lia. rewrite lookup_drop. unfold jseg.
          rewrite list_lookup_fmap, lookup_seqZ_lt by lia. cbn. f_equal. lia. }
      rewrite Hright. unfold jat.
      destruct (decide (Z.to_nat (j / nChunkSize p) = 0%nat)) as [E0|E0].
      * rewrite E0, list_lookup_insert_eq, Hz0 by done. cbn.
        pose proof (Z.div_pos j (nChunkSize p) ltac:(lia) Hs).
        assert (Ejm : j mod nChunkSize p = j).
        { rewrite (Z.div_mod j (nChunkSize p)) at 2 by lia. nia. }
        rewrite (blit_at _ _ _ _ _ Ez), Ejm. destruct (Z.leb_spec 0 j); [|lia]. cbn.
        by rewrite Z.sub_0_r.
      * rewrite list_lookup_insert_ne by done. case_if; [|done].
        assert (j / nChunkSize p = 0) by (apply Z.div_small; lia). lia.
Qed.

Lemma write_memory_ok p z ofs h :
  journal_ok p -> write_pre p z ofs ->
  wp (write_memory mallocOk junk p z ofs)
    (returns (fun r h' => journal_ok r.2 /\ same_params p r.2 /\ balanced p r.2 h h' /\
       exists k, content r.2 = mem_written p z ofs k /\
         (r.1 = SQLITE_OK /\ (length z <= k)%nat \/
          r.1 = SQLITE_IOERR_NOMEM /\ (ofs =? 0) && negb (end_iOffset p =? 0) = false))) h.
Proof.
  intros Hok (Ho & Hz & H0). unfold write_memory, mem_written.
  destruct (Z.eqb_spec ofs 0) as [->|Hne].
  - cbn [Z.ltb Z.compare andb]. wp_go.
    assert (Hf : bool_decide (is_Some (pFirst p)) = negb (end_iOffset p =? 0)).
    { pose proof Hok as [Hs _ He Hcount _ _]. unfold pFirst.
      destruct (chunks p) as [|x l]; cbn [length Z.of_nat] in *.
      - destruct (Z.eqb_spec (end_iOffset p) 0); [done|lia].
      - destruct (Z.eqb_spec (end_iOffset p) 0); [lia|done]. }
    rewrite Hf. destruct (Z.eqb_spec (end_iOffset p) 0) as [Ee|Ee]; cbn [negb andb].
    + eapply okp_mono; [by apply write_loop_ok; [..|lia]|].
      intros [rc p'] h' (P1 & P2 & P3 & k & P4 & P5). cbn [fst snd] in *.
      split_and!; try done. exists k. split; [|destruct P5; [by left|by right]]. rewrite P4. f_equal.
      pose proof (content_len p Hok) as Hl. rewrite Ee in Hl.
      destruct (content p); [done|]. unfold blen in Hl. cbn in Hl. lia.
    + destruct (H0 eq_refl) as [|[Hl1 Hl2]]; [done|].
      destruct (chunks p) as [|z0 l] eqn:Ec.
      { exfalso. pose proof (jo_count p Hok) as Hcount. rewrite Ec in Hcount. cbn in Hcount.
        pose proof (jo_end p Hok). lia. }
      destruct (overwrite_ok p z z0 Hok) as (z' & Ez & Hok' & Hc'); try done; [by rewrite Ec|].
      cbn [lookup list_lookup]. wp_go. rewrite Ez. wp_go. rewrite <- Ec.
      split_and!; cbn [fst snd]; [done|done| |].
      * unfold balanced. cbn [chunks set_end]. rewrite length_insert. lia.
      * exists (length z). split; [done|by left].
  - destruct (Z.ltb_spec 0 ofs); [|lia]. cbn [andb].
    eapply wp_seq with (P := fun p' h' => journal_ok p' /\
       content p' = take (Z.to_nat ofs) (content p) /\ same_params p p' /\ balanced p p' h h').
    { case_if.
      - apply memjrnlTruncate_ok; [done|lia].
      - wp_go. split; [done|]. split; [|split; [done|unfold balanced; lia]].
        rewrite take_ge; [done|]. pose proof (content_len p Hok). unfold blen in *. lia. }
    intros p1 h1 (T1 & T2 & T3 & T4).
    eapply okp_mono; [by apply write_loop_ok; [..|lia]|].
    intros [rc p'] h' (P1 & (S1 & S2 & S3) & P3 & k & P4 & P5). cbn [fst snd] in *.
    destruct T3 as (R1 & R2 & R3).
    split; [done|]. split; [split; [|split]; cbn; congruence|]. split.
    + unfold balanced in *. cbn [fst snd] in *. lia.
    + exists k. split; [|destruct P5; [by left|by right]]. cbn [fst snd]. by rewrite P4, T2.
Qed.
End Write.

(** ** Moving a journal to a file *)

Section Spill.
Context {W : Type} {HV : Vfs W} {HL : VfsLaws W}.

Lemma write_at_end f d : write_at f (blen f) d = f ++ d.
Proof.
  unfold write_at. rewrite Z.sub_diag. change (zeros 0) with (@nil Z).
  rewrite app_nil_r, take_ge by (unfold blen; lia).
  rewrite drop_ge by (unfold blen; lia). by rewrite app_nil_r.
Qed.

Lemma spill_loop_ok p l i w :
  journal_ok p -> drop i (chunks p) = l ->
  Z.of_nat i * nChunkSize p <= end_iOffset p ->
  osContent w = jseg (chunks p) (nChunkSize p) 0 (Z.of_nat i * nChunkSize p) ->
  exists rc w', spill_loop l (end_iOffset p) (nChunkSize p) (Z.of_nat i * nChunkSize p) w
      = Some (rc, w') /\ (rc = SQLITE_OK -> osContent w' = content p).
Proof.
  intros Hok. pose proof Hok as [Hs Hch He Hcount _ _].
  revert i w. induction l as [|z l IH]; intros i w El Hi Hw.
  - do 2 eexists. split; [done|]. intros _. rewrite Hw. unfold content. f_equal.
    assert (length (chunks p) <= i)%nat.
    { apply (f_equal length) in El. rewrite length_drop in El. cbn in El. lia. }
    nia.
  - assert (Hz : chunks p !! i = Some z).
    { rewrite <- (Nat.add_0_r i), <- lookup_drop, El. done. }
    pose proof (lookup_lt_Some _ _ _ Hz) as Hlt.
    destruct (proj1 (Forall_lookup _ _) Hch _ _ Hz) as [Hl Hb].
    assert (El' : drop (S i) (chunks p) = l).
    { apply (f_equal (drop 1)) in El. rewrite drop_drop in El. cbn in El.
      by rewrite Nat.add_1_r in El. }
    cbn [spill_loop].
    set (n := if end_iOffset p <? Z.of_nat i * nChunkSize p + nChunkSize p
              then end_iOffset p - Z.of_nat i * nChunkSize p else nChunkSize p).
    assert (Hn : 0 <= n <= nChunkSize p) by (unfold n; case_if; lia).
    rewrite (jseg_chunk (chunks p) (nChunkSize p) i z 0 n) by (done || lia).
    cbn [mbind option_bind]. rewrite Z.add_0_r.
    destruct (osWrite _ _ w) as [rc w1] eqn:Ew. destruct (Z.eqb_spec rc SQLITE_OK) as [->|Hne]; cbn [negb].
    2:{ do 2 eexists. split; [done|]. done. }
    apply os_write in Ew; [|lia].
    assert (Hlen : blen (osContent w) = Z.of_nat i * nChunkSize p) by (rewrite Hw, jseg_len; lia).
    rewrite <- Hlen, write_at_end, Hw in Ew.
    rewrite jseg_len, <- (Z.add_0_l (Z.of_nat i * nChunkSize p)), <- jseg_app in Ew by lia.
    destruct (Z.ltb_spec (end_iOffset p) (Z.of_nat i * nChunkSize p + nChunkSize p)) as [Hcut|Hfull].
    + assert (l = []) as ->.
      { apply nil_length_inv. rewrite <- El', length_drop. nia. }
      cbn [spill_loop]. do 2 eexists. split; [done|]. intros _. rewrite Ew. unfold content, n.
      f_equal. lia.
    + unfold n in *. replace (Z.of_nat i * nChunkSize p + nChunkSize p)
        with (Z.of_nat (S i) * nChunkSize p) by lia.
      apply IH; [done|lia|]. rewrite Ew. f_equal. lia.
Qed.

Variables (mallocOk : nat -> bool) (junk : nat -> Z -> Z).

Definition handle_ok (h : handle) : Prop :=
  match h with InMemory p => journal_ok p | OnDisk => True end.
Definition hcontent (h : handle) (s : proc) : bytes :=
  match h with InMemory p => content p | OnDisk => osContent (pw s) end.
Definition hblocks (h : handle) : Z :=
  match h with InMemory p => Z.of_nat (length (chunks p)) | OnDisk => 0 end.
Definition hwrite_pre (h : handle) (s : proc) (z : bytes) (ofs : Z) : Prop :=
  match h with
  | InMemory p => write_pre p z ofs
  | OnDisk => 0 <= ofs <= blen (osContent (pw s)) /\ bytes_ok z
  end.

(** The journal after a write that succeeded: [h'] is the handle after it.  A
    write behind the start of a journal that stays in memory cuts off what
    follows; every other one is a write to a file. *)
Definition written_content (h h' : handle) (s : proc) (z : bytes) (ofs : Z) : bytes :=
  match h' with
  | InMemory _ => if 0 <? ofs then take (Z.to_nat ofs) (hcontent h s) ++ z else write_at (hcontent h s) ofs z
  | OnDisk => write_at (hcontent h s) ofs z
  end.
(** What a write guarantees: the whole content when it succeeds; when it fails
    and the journal is in memory, nothing or a beginning of [z] was written. *)
Definition hwrite_post (h : handle) (z : bytes) (ofs : Z) (s : proc)
    (r : Z * handle) (s' : proc) : Prop :=
  handle_ok r.2 /\
  (r.1 = SQLITE_OK -> hcontent r.2 s' = written_content h r.2 s z ofs) /\
  (r.1 <> SQLITE_OK -> r.2 <> OnDisk ->
     hcontent r.2 s' = hcontent h s \/ exists k, hcontent r.2 s' = take (Z.to_nat ofs) (hcontent h s) ++ take k z) /\
  live (ph s') - live (ph s) = hblocks r.2 - hblocks h.

Lemma write_at_start f z : write_at f 0 z = z ++ drop (length z) f.
Proof. unfold write_at. rewrite take_0. cbn [app]. f_equal. unfold blen. f_equal. lia. Qed.

Lemma mem_written_whole p z ofs k :
  journal_ok p -> 0 <= ofs -> (length z <= k)%nat ->
  mem_written p z ofs k = if 0 <? ofs then take (Z.to_nat ofs) (content p) ++ z else write_at (content p) ofs z.
Proof.
  intros Hok Ho Hk. unfold mem_written. destruct (Z.ltb_spec 0 ofs) as [Hlt|Hge].
  - destruct (Z.eqb_spec ofs 0); [lia|]. cbn [andb]. by rewrite (take_ge z) by done.
  - assert (ofs = 0) as -> by lia. rewrite write_at_start. cbn [Z.eqb andb].
    destruct (Z.eqb_spec (end_iOffset p) 0) as [E|E]; cbn [negb]; [|done].
    pose proof (content_len p Hok) as Hl. rewrite E in Hl. destruct (content p); [|unfold blen in Hl; cbn in Hl; lia].
    by rewrite take_0, drop_nil, app_nil_r, (take_ge z) by done.
Qed.

Lemma wp_on_disk {A} (f : W -> A * W) Q s :
  (forall a w, f (pw s) = (a, w) -> Q (Ret a) (mkProc (ph s) w)) -> wp (on_disk f) Q s.
Proof.
  intros HQ. unfold wp, on_disk. cbn. destruct (f (pw s)) as [a w] eqn:E. cbn. auto.
Qed.
Lemma wp_on_heap {A} (m : M heap A) Q (s : @proc W) :
  wp m (fun o h => Q o (mkProc h (pw s))) (ph s) -> wp (on_heap m) Q s.
Proof. done. Qed.

Lemma createFile_ok p s :
  journal_ok p ->
  wp (memjrnlCreateFile p) (returns (fun r s' =>
    (r.1 = SQLITE_OK /\ r.2 = OnDisk /\ osContent (pw s') = content p /\
       live (ph s') - live (ph s) = - Z.of_nat (length (chunks p))) \/
    (r.1 <> SQLITE_OK /\ r.2 = InMemory p /\ ph s' = ph s))) s.
Proof.
  intros Hok. unfold memjrnlCreateFile. apply wp_bind, wp_on_disk. intros rc w Eo. unfold after.
  destruct (Z.eqb_spec rc SQLITE_OK) as [->|Hne].
  - pose proof (os_open _ _ Eo) as Hempty.
    destruct (spill_loop_ok p (chunks p) 0 w Hok) as (rc & w' & E & Hc).
    { done. } { cbn. apply Hok. } { by rewrite Hempty. }
    change (Z.of_nat 0 * nChunkSize p) with 0 in E. wp_go. cbn [id pw]. rewrite E. wp_go.
    cbn [ph pw]. destruct (Z.eqb_spec rc SQLITE_OK) as [->|Hne].
    + apply wp_on_heap. unfold memjrnlFreeChunks. wp_go. cbn [Z.eqb SQLITE_OK negb]. wp_go.
      left. cbn [fst snd ph pw live]. split_and!; [done|done|auto|lia].
    + wp_go. destruct (Z.eqb_spec rc SQLITE_OK); [done|]. cbn [negb]. wp_go. by right.
  - wp_go. destruct (Z.eqb_spec rc SQLITE_OK); [done|]. cbn [negb]. wp_go. by right.
Qed.

Lemma journalWrite_ok h z ofs s :
  handle_ok h -> hwrite_pre h s z ofs ->
  wp (journalWrite mallocOk junk h z ofs) (returns (hwrite_post h z ofs s)) s.
Proof.
  intros Hok Hpre. destruct h as [p|]; cbn [journalWrite handle_ok hwrite_pre] in *.
  - pose proof Hpre as ((Ho1 & Ho2) & Hz & _). unfold memjrnlWrite. case_if.
    + eapply wp_seq; [by apply createFile_ok|]. intros [rc h] s1 Hr. cbn [fst snd] in Hr.
      destruct Hr as [(-> & -> & Hc & Hb)|(Hne & -> & Hb)].
      * cbn [Z.eqb SQLITE_OK]. apply wp_bind, wp_on_disk. intros rc w' Ew. unfold after. wp_go.
        split; [done|]. split; [|split; [done|cbn; lia]]. cbn. intros ->.
        by rewrite (os_write _ _ _ _ Ho1 Ew), Hc.
      * destruct (Z.eqb_spec rc SQLITE_OK); [done|]. wp_go.
        split; [done|]. split; [done|]. split; [by left|]. cbn. rewrite Hb. lia.
    + apply wp_bind, wp_on_heap. eapply wp_mono; [by apply write_memory_ok|].
      intros [[rc p']|rc|] h'; [|done|done]. intros (P1 & P2 & P3 & k & P4 & P5).
      unfold after. wp_go. cbn [fst snd] in *.
      split; [done|]. cbn [fst snd hcontent hblocks written_content ph pw]. rewrite P4. split; [|split; [|exact P3]].
      * intros ->. apply mem_written_whole; [done|done|]. by destruct P5 as [[]|[]].
      * intros Hrc _. right. exists k. destruct P5 as [[]|[_ E]]; [done|]. unfold mem_written. by rewrite E.
  - apply wp_bind, wp_on_disk. intros rc w' Ew. unfold after. wp_go.
    split; [done|]. split; [|split; [done|cbn; lia]]. cbn. intros ->.
    destruct Hpre as [Ho Hz]. by rewrite (os_write _ _ _ _ (proj1 Ho) Ew).
Qed.

(** ** Properties *)

(** C34: a write through a journal handle - in memory, moved to a file by this
    very write, or already on file - returns without touching memory outside a
    chunk.  On [SQLITE_OK] the whole content of the journal is determined: in
    memory a write at an offset after the start leaves what is before it and the
    data, and nothing behind; a write at the start, and any write on file, is
    what a write to a file is, where the rest stays.  If it fails while the
    journal is in memory, the journal is as it was or has the bytes before the
    offset and a beginning of the data.  Exactly one block per chunk is
    allocated. *)
Theorem journalWrite_correct h z ofs (s : proc) :
  handle_ok h -> hwrite_pre h s z ofs ->
  exists rc h' s', journalWrite mallocOk junk h z ofs s = (Ret (rc, h'), s') /\
    handle_ok h' /\
    (rc = SQLITE_OK -> hcontent h' s' =
       match h' with
       | InMemory _ => if 0 <? ofs then take (Z.to_nat ofs) (hcontent h s) ++ z else write_at (hcontent h s) ofs z
       | OnDisk => write_at (hcontent h s) ofs z
       end) /\
    (rc <> SQLITE_OK -> h' <> OnDisk ->
       hcontent h' s' = hcontent h s \/ exists k, hcontent h' s' = take (Z.to_nat ofs) (hcontent h s) ++ take k z) /\
    live (ph s') - live (ph s) = hblocks h' - hblocks h.
Proof.
  intros Hok Hpre. destruct (returns_run _ _ _ (journalWrite_ok h z ofs s Hok Hpre))
    as ([rc h'] & s' & E & H). eauto.
Qed.
End Spill.

(** C35: reading a journal in memory: past the end the code is
    [SQLITE_IOERR_SHORT_READ] and nothing changes; otherwise the bytes asked
    for are returned, across chunks and whether or not the remembered read
    point is used, and the journal stays well formed with its new read
    point. *)
Theorem memjrnlRead_correct p iAmt iOfst :
  journal_ok p -> 0 < iAmt -> 0 <= iOfst ->
  exists rc d p', memjrnlRead p iAmt iOfst = Some (rc, d, p') /\
    journal_ok p' /\ content p' = content p /\
    (blen (content p) < iAmt + iOfst -> rc = SQLITE_IOERR_SHORT_READ) /\
    (iAmt + iOfst <= blen (content p) -> rc = SQLITE_OK /\
       d = take (Z.to_nat iAmt) (drop (Z.to_nat iOfst) (content p))).
Proof.
  intros Hok Ha Ho. destruct (memjrnlRead_ok p Hok iAmt iOfst Ha Ho) as [H1 H2].
  rewrite (content_len p Hok).
  destruct (Z.ltb_spec (end_iOffset p) (iAmt + iOfst)) as [Hlt|Hge].
  - exists SQLITE_IOERR_SHORT_READ, [], p. rewrite H1 by done. split_and!; try done. lia.
  - destruct (H2 Hge) as (off & c & E & Hok'). do 3 eexists. split; [exact E|].
    split; [done|]. split; [done|]. split; [lia|]. intros _. split; [done|].
    unfold content. replace (end_iOffset p) with (iOfst + (end_iOffset p - iOfst)) by lia.
    rewrite jseg_app, drop_app_length' by (lia || (unfold jseg; rewrite length_fmap, length_seqZ; lia)).
    rewrite Z.add_0_l. replace (end_iOffset p - iOfst) with (iAmt + (end_iOffset p - iOfst - iAmt)) by lia.
    rewrite jseg_app by lia. symmetry. apply take_app_length'. unfold jseg.
    rewrite length_fmap, length_seqZ. lia.
Qed.

(** truncating a journal in memory keeps exactly the first [size] bytes
    and frees exactly the chunks that are dropped. *)
Theorem memjrnlTruncate_correct p size h :
  journal_ok p -> 0 <= size ->
  exists p' h', memjrnlTruncate p size h = (Ret p', h') /\ journal_ok p' /\
    content p' = take (Z.to_nat size) (content p) /\ balanced p p' h h'.
Proof.
  intros Hok Hs. destruct (returns_run _ _ _ (memjrnlTruncate_ok p size h Hok Hs))
    as (p' & h' & E & H1 & H2 & H3 & H4). eauto 10.
Qed.

(** ** Witnesses *)

(** A file in memory, whose writes succeed. *)
#[export] Instance ram_vfs : Vfs bytes := {|
  osOpen w := (SQLITE_OK, []);
  osWrite d off w := (SQLITE_OK, write_at w off d);
  osRead n off w := (SQLITE_OK, take (Z.to_nat n) (drop (Z.to_nat off) w), w);
  osClose w := [];
  osContent w := w;
|}.
#[export] Instance ram_laws : VfsLaws bytes.
Proof. split; [by intros w w' [= <-]|by intros d off w w' _ [= <-]]. Qed.

(** Eleven bytes in chunks of four. *)
Definition demo_journal : MemJournal :=
  mkJournal 4 (-1) 0 [[1; 2; 3; 4]; [5; 6; 7; 8]; [9; 10; 11; 0]] 11 (Some 2%nat) 0 None.
Lemma demo_journal_ok : journal_ok demo_journal.
Proof.
  split; cbn; try lia; try done. repeat constructor; lia.
Qed.
Definition demo_proc : @proc bytes := mkProc (mkHeap 0 3) [].

Lemma journalWrite_correct_witness :
  exists rc h' s', journalWrite (fun _ => true) (fun _ _ => 0) (InMemory demo_journal)
      [20; 21; 22] 0 demo_proc = (Ret (rc, h'), s') /\
    rc = SQLITE_OK /\ hcontent h' s' = [20; 21; 22; 4; 5; 6; 7; 8; 9; 10; 11].
Proof.
  destruct (journalWrite_correct (W := bytes) (fun _ => true) (fun _ _ => 0)
    (InMemory demo_journal) [20; 21; 22] 0 demo_proc demo_journal_ok)
    as (rc & h' & s' & E & H1 & H2 & _).
  - split; [cbn; lia|]. split; [repeat constructor; lia|]. intros _. right. split; [vm_compute; discriminate|done].
  - exists rc, h', s'. split; [exact E|].
    assert (Erc : rc = SQLITE_OK).
    { apply (f_equal (fun r => match fst r with Ret (c, _) => c | _ => 99 end)) in E.
      vm_compute in E. symmetry. exact E. }
    split; [exact Erc|]. rewrite (H2 Erc). clear. by destruct h'.
Defined.

Lemma memjrnlRead_correct_witness :
  exists rc d p', memjrnlRead demo_journal 6 3 = Some (rc, d, p') /\
    rc = SQLITE_OK /\ d = [4; 5; 6; 7; 8; 9].
Proof.
  destruct (memjrnlRead_correct demo_journal 6 3 demo_journal_ok) as (rc & d & p' & E & _ & _ & _ & H).
  - lia.
  - lia.
  - exists rc, d, p'. split; [exact E|]. apply H. vm_compute. discriminate.
Defined.

Lemma memjrnlTruncate_correct_witness :
  exists p' h', memjrnlTruncate demo_journal 5 (mkHeap 0 3) = (Ret p', h') /\
    content p' = [1; 2; 3; 4; 5] /\ live h' = 2.
Proof.
  destruct (memjrnlTruncate_correct demo_journal 5 (mkHeap 0 3) demo_journal_ok)
    as (p' & h' & E & H1 & H2 & H3); [lia|].
  exists p', h'. split; [exact E|]. split; [exact H2|].
  vm_compute in E. injection E as _ <-. reflexivity.
Defined.
