(* ===== verification/Wal.v ===== *)
(** * The write-ahead log: data, checksums and frame headers ([src/src/wal.c])

    The records [WalIndexHdr] and [Wal] with the fields the log and its index
    use, the checksum routine on a machine of either byte order, and the codec
    of frame headers.  Salts are kept as the eight raw bytes the code copies. *)
From S2P Require Import Prelude Bits Bytes Varint.

(** ** Data *)

Definition WAL_MAX_VERSION : Z := 3007000.
Definition WALINDEX_MAX_VERSION : Z := 3007000.
Definition WAL_FRAME_HDRSIZE : Z := 24.
Definition WAL_HDRSIZE : Z := 32.
Definition WAL_MAGIC : Z := 0x377f0682.

Record WalIndexHdr : Type := mkHdr {
  iVersion : Z;
  iChange : Z;
  isInit : Z;
  bigEndCksum : bool;
  hdr_szPage : Z;                  (* u16; 1 stands for 65536 *)
  mxFrame : Z;
  hdr_nPage : Z;
  aFrameCksum : Z * Z;
  aSalt : bytes;                   (* the eight bytes of [aSalt[2]] *)
  aCksum : Z * Z;
}.

(** [memset(&pWal->hdr, 0, sizeof(WalIndexHdr))]. *)
Definition zero_hdr : WalIndexHdr :=
  mkHdr 0 0 0 false 0 0 0 (0, 0) (zeros 8) (0, 0).

(** What a pointer of [apWiData] designates: nothing, a page of the shared
    wal-index, or the private page of a recovery. *)
Inductive wiptr : Type :=
  | Unmapped
  | Shared (i : nat)
  | Private.

Record Wal : Type := mkWal {
  apWiData : list wiptr;           (* [nWiData] is its length *)
  szPage : Z;
  readLock : Z;
  exclusiveMode : Z;
  writeLock : bool;
  ckptLock : Z;
  readOnly : Z;
  bShmUnreliable : bool;
  hdr : WalIndexHdr;
  minFrame : Z;
  iReCksum : Z;
  nCkpt : Z;
}.

Definition set_hdr (h : WalIndexHdr) (p : Wal) : Wal :=
  mkWal (apWiData p) (szPage p) (readLock p) (exclusiveMode p) (writeLock p)
    (ckptLock p) (readOnly p) (bShmUnreliable p) h (minFrame p) (iReCksum p) (nCkpt p).
Definition set_apWiData (l : list wiptr) (p : Wal) : Wal :=
  mkWal l (szPage p) (readLock p) (exclusiveMode p) (writeLock p)
    (ckptLock p) (readOnly p) (bShmUnreliable p) (hdr p) (minFrame p) (iReCksum p) (nCkpt p).
Definition set_readOnly (v : Z) (p : Wal) : Wal :=
  mkWal (apWiData p) (szPage p) (readLock p) (exclusiveMode p) (writeLock p)
    (ckptLock p) v (bShmUnreliable p) (hdr p) (minFrame p) (iReCksum p) (nCkpt p).
Definition set_sizes (sz n : Z) (p : Wal) : Wal :=
  mkWal (apWiData p) sz (readLock p) (exclusiveMode p) (writeLock p)
    (ckptLock p) (readOnly p) (bShmUnreliable p) (hdr p) (minFrame p) (iReCksum p) n.

Definition hdr_set_cksum (c : Z * Z) (h : WalIndexHdr) : WalIndexHdr :=
  mkHdr (iVersion h) (iChange h) (isInit h) (bigEndCksum h) (hdr_szPage h)
    (mxFrame h) (hdr_nPage h) c (aSalt h) (aCksum h).
Definition set_cksum (c : Z * Z) (p : Wal) : Wal := set_hdr (hdr_set_cksum c (hdr p)) p.

(** [walFrameOffset]. *)
Definition walFrameOffset (iFrame sz : Z) : Z :=
  WAL_HDRSIZE + (iFrame - 1) * (sz + WAL_FRAME_HDRSIZE).

(** ** Checksums *)

Definition BYTESWAP32 (x : Z) : Z :=
  Z.shiftl (Z.land x 0x000000FF) 24 + Z.shiftl (Z.land x 0x0000FF00) 8
  + Z.shiftr (Z.land x 0x00FF0000) 8 + Z.shiftr (Z.land x 0xFF000000) 24.

Section Cksum.
Variable SQLITE_BIGENDIAN : bool.

(** The word [*(u32* )&d[i]] on a machine of this byte order. *)
Definition load32 (d : bytes) (i : Z) : option Z :=
  x0 ← bget d i; x1 ← bget d (i + 1); x2 ← bget d (i + 2); x3 ← bget d (i + 3);
  Some (if SQLITE_BIGENDIAN
        then x0 * 2 ^ 24 + x1 * 2 ^ 16 + x2 * 2 ^ 8 + x3
        else x3 * 2 ^ 24 + x2 * 2 ^ 16 + x1 * 2 ^ 8 + x0).

(** [s1 += w0 + s2; s2 += w1 + s1]. *)
Definition ck_add (w0 w1 : Z) (s : Z * Z) : Z * Z :=
  let s1 := u32 (fst s + (w0 + snd s)) in (s1, u32 (snd s + (w1 + s1))).

(** Two words read through [aData], each passed through [f]. *)
Definition ck_pair (f : Z -> Z) (d : bytes) (i : Z) (s : Z * Z) : option (Z * Z) :=
  w0 ← load32 d i; w1 ← load32 d (i + 4); Some (ck_add (f w0) (f w1) s).

(** The [do ... while] loop of one pair per turn, from [i] to [aEnd]. *)
Fixpoint ck_loop (fuel : nat) (f : Z -> Z) (d : bytes) (i aEnd : Z) (s : Z * Z)
    : option (Z * Z) :=
  match fuel with
  | O => None
  | S fuel =>
      s ← ck_pair f d i s;
      let i := i + 8 in
      if i <? aEnd then ck_loop fuel f d i aEnd s else Some s
  end.

(** The loop unrolled eight times. *)
Fixpoint ck_unrolled (fuel : nat) (d : bytes) (i aEnd : Z) (s : Z * Z)
    : option (Z * Z) :=
  match fuel with
  | O => None
  | S fuel =>
      s ← ck_pair id d i s;
      s ← ck_pair id d (i + 8) s;
      s ← ck_pair id d (i + 16) s;
      s ← ck_pair id d (i + 24) s;
      s ← ck_pair id d (i + 32) s;
      s ← ck_pair id d (i + 40) s;
      s ← ck_pair id d (i + 48) s;
      s ← ck_pair id d (i + 56) s;
      let i := i + 64 in
      if i <? aEnd then ck_unrolled fuel d i aEnd s else Some s
  end.

Definition walChecksumBytes (nativeCksum : bool) (a : bytes) (nByte : Z)
    (aIn : option (Z * Z)) : option (Z * Z) :=
  let s := default (0, 0) aIn in
  let fuel := Z.to_nat nByte in
  if negb nativeCksum then ck_loop fuel BYTESWAP32 a 0 nByte s
  else if nByte mod 64 =? 0 then ck_unrolled fuel a 0 nByte s
  else ck_loop fuel id a 0 nByte s.

(** ** Frame headers *)

(** [walEncodeFrame]: the log with its running checksum, and [aFrame]. *)
Definition walEncodeFrame (pWal : Wal) (iPage nTruncate : Z) (aData aFrame : bytes)
    : option (Wal * bytes) :=
  aFrame ← sqlite3Put4byte aFrame 0 iPage;
  aFrame ← sqlite3Put4byte aFrame 4 nTruncate;
  if iReCksum pWal =? 0 then
    aFrame ← blit aFrame 8 (aSalt (hdr pWal));
    let nativeCksum := eqb (bigEndCksum (hdr pWal)) SQLITE_BIGENDIAN in
    c ← walChecksumBytes nativeCksum aFrame 8 (Some (aFrameCksum (hdr pWal)));
    c ← walChecksumBytes nativeCksum aData (szPage pWal) (Some c);
    aFrame ← sqlite3Put4byte aFrame 16 (fst c);
    aFrame ← sqlite3Put4byte aFrame 20 (snd c);
    Some (set_cksum c pWal, aFrame)
  else
    aFrame ← bzero aFrame 8 16;
    Some (pWal, aFrame).

(** [walDecodeFrame]: the log, and the page number and [nTruncate] field of a
    valid frame.  A frame whose checksum is wrong still moves the running
    checksum of the log. *)
Definition walDecodeFrame (pWal : Wal) (aData aFrame : bytes)
    : option (Wal * option (Z * Z)) :=
  salt ← bsub aFrame 8 8;
  if negb (bool_decide (aSalt (hdr pWal) = salt)) then Some (pWal, None)
  else
    pgno ← sqlite3Get4byte aFrame 0;
    if pgno =? 0 then Some (pWal, None)
    else if szPage pWal =? 0 then Some (pWal, None)
    else
      let nativeCksum := eqb (bigEndCksum (hdr pWal)) SQLITE_BIGENDIAN in
      c ← walChecksumBytes nativeCksum aFrame 8 (Some (aFrameCksum (hdr pWal)));
      c ← walChecksumBytes nativeCksum aData (szPage pWal) (Some c);
      let pWal := set_cksum c pWal in
      c0 ← sqlite3Get4byte aFrame 16;
      c1 ← sqlite3Get4byte aFrame 20;
      if negb (fst c =? c0) || negb (snd c =? c1) then Some (pWal, None)
      else
        nTruncate ← sqlite3Get4byte aFrame 4;
        Some (pWal, Some (pgno, nTruncate)).
End Cksum.

(** ** The checksum as a function of the bytes *)

(** Value of four bytes as a word of either order. *)
Definition word (big : bool) (x0 x1 x2 x3 : Z) : Z :=
  if big then x0 * 2 ^ 24 + x1 * 2 ^ 16 + x2 * 2 ^ 8 + x3
  else x3 * 2 ^ 24 + x2 * 2 ^ 16 + x1 * 2 ^ 8 + x0.

Fixpoint cksum (big : bool) (l : bytes) (s : Z * Z) : Z * Z :=
  match l with
  | x0 :: x1 :: x2 :: x3 :: y0 :: y1 :: y2 :: y3 :: l =>
      cksum big l (ck_add (word big x0 x1 x2 x3) (word big y0 y1 y2 y3) s)
  | _ => s
  end.

Definition seg (d : bytes) (i n : Z) : bytes :=
  take (Z.to_nat n) (drop (Z.to_nat i) d).

Lemma cksum_app big n l1 l2 s :
  length l1 = (8 * n)%nat -> cksum big (l1 ++ l2) s = cksum big l2 (cksum big l1 s).
Proof.
  revert l1 s. induction n as [|n IH]; intros l1 s Hl.
  - destruct l1; [done|cbn in Hl; lia].
  - do 8 (destruct l1 as [|? l1]; [cbn in Hl; lia|]). cbn [app cksum].
    apply IH. cbn in Hl. lia.
Qed.

Lemma seg_len d i n :
  0 <= i -> 0 <= n -> i + n <= blen d -> length (seg d i n) = Z.to_nat n.
Proof. intros ???. unfold seg, blen in *. rewrite length_take, length_drop. lia. Qed.

Lemma seg_app d i m n :
  0 <= i -> 0 <= m -> 0 <= n -> seg d i (m + n) = seg d i m ++ seg d (i + m) n.
Proof.
  intros ???. unfold seg. rewrite !Z2Nat.inj_add by lia.
  rewrite Nat.add_comm, <- drop_drop.
  rewrite <- (take_drop (Z.to_nat m) (drop (Z.to_nat i) d)) at 1.
  rewrite take_app. rewrite take_take. f_equal.
  - f_equal. lia.
  - rewrite length_take, length_drop.
    destruct (decide (Z.to_nat m <= length d - Z.to_nat i)%nat); [f_equal; lia|].
    rewrite !drop_ge by (rewrite ?length_drop; lia). by rewrite !take_nil.
Qed.

Lemma seg_all d : seg d 0 (blen d) = d.
Proof. unfold seg, blen. rewrite Nat2Z.id. cbn. by apply firstn_all. Qed.

Lemma bsub_seg d i n s : bsub d i n = Some s -> s = seg d i n.
Proof. unfold bsub. case_match; [|done]. by intros [= <-]. Qed.

Lemma seg_at d i n j : 0 <= i -> 0 <= j < n -> bat (seg d i n) j = bat d (i + j).
Proof.
  intros Hi Hj. unfold seg, bat.
  destruct (Z.leb_spec 0 j), (Z.leb_spec 0 (i + j)); try lia.
  rewrite lookup_take_lt by lia. rewrite lookup_drop. do 2 f_equal. lia.
Qed.

Lemma seg_eq d d' i n :
  0 <= i -> 0 <= n -> i + n <= blen d -> blen d' = blen d ->
  (forall j, i <= j < i + n -> bat d' j = bat d j) -> seg d' i n = seg d i n.
Proof.
  intros Hi Hn Hlen Hlen' H. apply bytes_ext.
  - unfold blen in *. rewrite !seg_len; unfold blen; lia.
  - unfold blen at 1. rewrite seg_len by lia. intros j Hj.
    rewrite !seg_at by lia. apply H. lia.
Qed.

(** Eight bytes at [i], one by one. *)
Lemma seg8 d i :
  0 <= i -> i + 8 <= blen d ->
  seg d i 8 = [bat d i; bat d (i+1); bat d (i+2); bat d (i+3);
               bat d (i+4); bat d (i+5); bat d (i+6); bat d (i+7)].
Proof.
  intros Hi Hlen. pose proof (seg_len d i 8 Hi ltac:(lia) Hlen) as Hl.
  assert (Hat := fun j => seg_at d i 8 j Hi).
  destruct (seg d i 8) as [|a0 [|a1 [|a2 [|a3 [|a4 [|a5 [|a6 [|a7 [|]]]]]]]]]; try done.
  rewrite <- (Z.add_0_r i) at 1. rewrite <- !Hat by lia. done.
Qed.

Lemma land_byte x k :
  0 <= k -> Z.land x (Z.shiftl 255 k) = (x / 2 ^ k) mod 256 * 2 ^ k.
Proof.
  intros Hk. rewrite <- Z.shiftl_mul_pow2, <- Z.shiftr_div_pow2 by lia.
  change 256 with (2 ^ 8). rewrite <- Z.land_ones by lia.
  rewrite Z.shiftl_land. apply Z.bits_inj'. intros n Hn.
  rewrite !Z.land_spec. change (Z.ones 8) with 255.
  destruct (decide (k <= n)).
  - rewrite !(Z.shiftl_spec _ _ _ Hn), Z.shiftr_spec by lia.
    do 2 f_equal. lia.
  - rewrite !(Z.shiftl_spec _ _ _ Hn).
    rewrite (Z.testbit_neg_r 255) by lia. by rewrite !andb_false_r.
Qed.

Lemma BYTESWAP32_word big x0 x1 x2 x3 :
  0 <= x0 < 256 -> 0 <= x1 < 256 -> 0 <= x2 < 256 -> 0 <= x3 < 256 ->
  BYTESWAP32 (word big x0 x1 x2 x3) = word (negb big) x0 x1 x2 x3.
Proof.
  intros H0 H1 H2 H3. unfold BYTESWAP32.
  change 0x000000FF with (Z.shiftl 255 0). change 0x0000FF00 with (Z.shiftl 255 8).
  change 0x00FF0000 with (Z.shiftl 255 16). change 0xFF000000 with (Z.shiftl 255 24).
  rewrite !land_byte by lia.
  rewrite !Z.shiftl_mul_pow2, !Z.shiftr_div_pow2 by lia.
  destruct big; cbn [negb word]; div_lia.
Qed.

Section CksumProofs.
Variable SQLITE_BIGENDIAN : bool.

(** What the words are passed through, and the order they then have. *)
Definition conv (big : bool) : Z -> Z :=
  if eqb big SQLITE_BIGENDIAN then id else BYTESWAP32.

Lemma load32_word big d i :
  bytes_ok d -> 0 <= i -> i + 4 <= blen d ->
  exists w, load32 SQLITE_BIGENDIAN d i = Some w
    /\ conv big w = word big (bat d i) (bat d (i+1)) (bat d (i+2)) (bat d (i+3)).
Proof.
  intros Hd Hi Hlen. unfold load32. rewrite !bget_in by lia. cbn.
  eexists. split; [reflexivity|].
  change (conv big (word SQLITE_BIGENDIAN (bat d i) (bat d (i+1)) (bat d (i+2)) (bat d (i+3)))
          = word big (bat d i) (bat d (i+1)) (bat d (i+2)) (bat d (i+3))).
  unfold conv. destruct big, SQLITE_BIGENDIAN; cbn [eqb]; try reflexivity;
    apply BYTESWAP32_word; by apply bat_range.
Qed.

Lemma ck_pair_ok big d i s :
  bytes_ok d -> 0 <= i -> i + 8 <= blen d ->
  ck_pair SQLITE_BIGENDIAN (conv big) d i s = Some (cksum big (seg d i 8) s).
Proof.
  intros Hd Hi Hlen. unfold ck_pair.
  destruct (load32_word big d i) as (w0 & E0 & H0); [done|lia..|].
  destruct (load32_word big d (i + 4)) as (w1 & E1 & H1); [done|lia..|].
  rewrite E0, E1. cbn [mbind option_bind]. rewrite H0, H1, seg8 by lia.
  rewrite <- !Z.add_assoc. reflexivity.
Qed.

Lemma cksum_seg big d i m n s :
  0 <= i -> 0 <= m -> 0 <= n -> m mod 8 = 0 -> i + m <= blen d ->
  cksum big (seg d i (m + n)) s = cksum big (seg d (i + m) n) (cksum big (seg d i m) s).
Proof.
  intros ?????. rewrite seg_app by lia.
  apply (cksum_app _ (Z.to_nat (m / 8))). rewrite seg_len by lia. div_lia.
Qed.

Lemma ck_loop_ok big d aEnd fuel i s :
  bytes_ok d -> 0 <= i < aEnd -> aEnd <= blen d -> (aEnd - i) mod 8 = 0 ->
  aEnd - i <= 8 * Z.of_nat fuel ->
  ck_loop SQLITE_BIGENDIAN fuel (conv big) d i aEnd s = Some (cksum big (seg d i (aEnd - i)) s).
Proof.
  intros Hd. revert i s. induction fuel as [|fuel IH]; intros i s Hi He Hm Hf; [lia|].
  assert (Hge : i + 8 <= aEnd) by div_lia.
  cbn [ck_loop]. rewrite ck_pair_ok by (done || lia). cbn [mbind option_bind].
  case_if.
  - rewrite IH by (try lia; div_lia). f_equal.
    replace (aEnd - i) with (8 + (aEnd - (i + 8))) by lia. by rewrite (cksum_seg big d i 8) by (reflexivity || lia).
  - by replace (aEnd - i) with 8 by div_lia.
Qed.

Lemma ck_unrolled_ok d aEnd fuel i s :
  bytes_ok d -> 0 <= i < aEnd -> aEnd <= blen d -> (aEnd - i) mod 64 = 0 ->
  aEnd - i <= 64 * Z.of_nat fuel ->
  ck_unrolled SQLITE_BIGENDIAN fuel d i aEnd s
  = Some (cksum SQLITE_BIGENDIAN (seg d i (aEnd - i)) s).
Proof.
  assert (Hid : conv SQLITE_BIGENDIAN = id) by (unfold conv; by destruct SQLITE_BIGENDIAN).
  intros Hd. revert i s. induction fuel as [|fuel IH]; intros i s Hi He Hm Hf; [lia|].
  assert (Hge : i + 64 <= aEnd) by div_lia.
  cbn [ck_unrolled]. rewrite <- Hid.
  rewrite !ck_pair_ok by (done || lia). cbn [mbind option_bind].
  do 7 (rewrite ck_pair_ok by (done || lia); cbn [mbind option_bind]).
  assert (E : forall n, 0 <= n -> cksum SQLITE_BIGENDIAN (seg d i (64 + n)) s
     = cksum SQLITE_BIGENDIAN (seg d (i + 64) n) (cksum SQLITE_BIGENDIAN (seg d i 64) s)).
  { intros n Hn. apply cksum_seg; reflexivity || lia. }
  assert (E8 : cksum SQLITE_BIGENDIAN (seg d i 64) s =
    cksum SQLITE_BIGENDIAN (seg d (i+56) 8) (cksum SQLITE_BIGENDIAN (seg d (i+48) 8)
    (cksum SQLITE_BIGENDIAN (seg d (i+40) 8) (cksum SQLITE_BIGENDIAN (seg d (i+32) 8)
    (cksum SQLITE_BIGENDIAN (seg d (i+24) 8) (cksum SQLITE_BIGENDIAN (seg d (i+16) 8)
    (cksum SQLITE_BIGENDIAN (seg d (i+8) 8) (cksum SQLITE_BIGENDIAN (seg d i 8) s)))))))).
  { change 64 with (8 + (8 + (8 + (8 + (8 + (8 + (8 + 8))))))).
    rewrite !cksum_seg by (reflexivity || lia). by rewrite <- !Z.add_assoc. }
  rewrite <- E8. case_if.
  - rewrite IH by (try lia; div_lia). replace (aEnd - i) with (64 + (aEnd - (i + 64))) by lia. by rewrite E by lia.
  - by replace (aEnd - i) with 64 by div_lia.
Qed.

Lemma walChecksum_ok big d nByte aIn :
  bytes_ok d -> 0 < nByte <= blen d -> nByte mod 8 = 0 ->
  walChecksumBytes SQLITE_BIGENDIAN (eqb big SQLITE_BIGENDIAN) d nByte aIn
  = Some (cksum big (seg d 0 nByte) (default (0, 0) aIn)).
Proof.
  intros Hd Hn Hm. unfold walChecksumBytes.
  assert (Hc : conv big = if eqb big SQLITE_BIGENDIAN then id else BYTESWAP32) by done.
  destruct (eqb big SQLITE_BIGENDIAN) eqn:E; cbn [negb]; rewrite <- ?Hc.
  - apply eqb_prop in E. subst big. case_if.
    + rewrite ck_unrolled_ok by (done || lia || (rewrite ?Z.sub_0_r; done)). by rewrite Z.sub_0_r.
    + rewrite ck_loop_ok by (done || lia || (rewrite ?Z.sub_0_r; done)). by rewrite Z.sub_0_r.
  - rewrite ck_loop_ok by (done || lia || (rewrite ?Z.sub_0_r; done)). by rewrite Z.sub_0_r.
Qed.
End CksumProofs.

(** ** Frames *)

(** The checksum a frame must carry, from the one of the frame before it. *)
Definition frame_cksum (big : bool) (aData aFrame : bytes) (c : Z * Z) : Z * Z :=
  cksum big aData (cksum big (seg aFrame 0 8) c).

(** A frame the log accepts. *)
Definition frame_valid (pWal : Wal) (aData aFrame : bytes) : Prop :=
  seg aFrame 8 8 = aSalt (hdr pWal) /\ at4 aFrame 0 <> 0 /\
  (at4 aFrame 16, at4 aFrame 20)
  = frame_cksum (bigEndCksum (hdr pWal)) aData aFrame (aFrameCksum (hdr pWal)).

#[global] Instance frame_valid_dec pWal aData aFrame :
  Decision (frame_valid pWal aData aFrame).
Proof. apply _. Defined.

(** Sizes of the buffers of the codec. *)
Record frame_bufs (pWal : Wal) (aData aFrame : bytes) : Prop := {
  fb_data : bytes_ok aData;
  fb_frame : bytes_ok aFrame;
  fb_len : blen aFrame = WAL_FRAME_HDRSIZE;
  fb_page : blen aData = szPage pWal;
  fb_size : 0 < szPage pWal;
  fb_align : szPage pWal mod 8 = 0;
}.

Lemma word_range big x0 x1 x2 x3 :
  0 <= x0 < 256 -> 0 <= x1 < 256 -> 0 <= x2 < 256 -> 0 <= x3 < 256 ->
  0 <= word big x0 x1 x2 x3 < 2 ^ 32.
Proof. intros. destruct big; cbn [word]; lia. Qed.

Lemma cksum_range big n l s :
  length l = (8 * n)%nat -> 0 <= fst s < 2 ^ 32 -> 0 <= snd s < 2 ^ 32 ->
  0 <= fst (cksum big l s) < 2 ^ 32 /\ 0 <= snd (cksum big l s) < 2 ^ 32.
Proof.
  revert l s. induction n as [|n IH]; intros l s Hl H1 H2.
  - by destruct l; [|cbn in Hl; lia].
  - do 8 (destruct l as [|? l]; [cbn in Hl; lia|]). cbn [cksum].
    apply IH; [cbn in Hl; lia|..]; apply u32_range.
Qed.

Lemma frame_cksum_range big aData aFrame c :
  blen aFrame = 24 -> blen aData mod 8 = 0 ->
  0 <= fst c < 2 ^ 32 -> 0 <= snd c < 2 ^ 32 ->
  0 <= fst (frame_cksum big aData aFrame c) < 2 ^ 32
  /\ 0 <= snd (frame_cksum big aData aFrame c) < 2 ^ 32.
Proof.
  intros Hf Hd H1 H2. unfold frame_cksum.
  destruct (cksum_range big 1 (seg aFrame 0 8) c) as [? ?]; [|done|done|].
  { rewrite seg_len; lia. }
  apply (cksum_range big (Z.to_nat (blen aData / 8))); [|done|done].
  pose proof (blen_nonneg aData). unfold blen in *. div_lia.
Qed.

Section Frame.
Variable SQLITE_BIGENDIAN : bool.

Lemma walDecodeFrame_ok pWal aData aFrame :
  frame_bufs pWal aData aFrame ->
  exists pWal', walDecodeFrame SQLITE_BIGENDIAN pWal aData aFrame
    = Some (pWal', if decide (frame_valid pWal aData aFrame)
                   then Some (at4 aFrame 0, at4 aFrame 4) else None)
  /\ (frame_valid pWal aData aFrame ->
      pWal' = set_cksum (at4 aFrame 16, at4 aFrame 20) pWal)
  /\ (exists c, pWal' = set_cksum c pWal).
Proof.
  intros [Hd Hf Hlen Hsz Hpos Hal]. unfold WAL_FRAME_HDRSIZE in Hlen.
  assert (Hsame : pWal = set_cksum (aFrameCksum (hdr pWal)) pWal).
  { by destruct pWal as [??????????? ?], hdr0. }
  unfold walDecodeFrame.
  destruct (bsub_in aFrame 8 8) as [salt Es]; [lia..|].
  rewrite Es. apply bsub_seg in Es as ->. cbn [mbind option_bind].
  assert (Hbad : ~ frame_valid pWal aData aFrame -> exists pWal',
    Some (pWal, None) = Some (pWal', if decide (frame_valid pWal aData aFrame)
      then Some (at4 aFrame 0, at4 aFrame 4) else None)
    /\ (frame_valid pWal aData aFrame ->
       pWal' = set_cksum (at4 aFrame 16, at4 aFrame 20) pWal)
    /\ exists c, pWal' = set_cksum c pWal).
  { intros Hn. exists pWal. rewrite decide_False by done. split; [done|].
    split; [done|eauto]. }
  case_bool_decide as Hsalt; cbn [negb].
  2:{ apply Hbad. intros (H & _). by rewrite H in Hsalt. }
  rewrite (Get4byte_in aFrame 0) by (done || lia). cbn [mbind option_bind].
  destruct (Z.eqb_spec (at4 aFrame 0) 0); [apply Hbad; by intros (_ & H & _)|].
  destruct (Z.eqb_spec (szPage pWal) 0); [lia|].
  rewrite !walChecksum_ok by (done || lia). cbn [mbind option_bind].
  rewrite walChecksum_ok by (done || lia). cbn [mbind option_bind].
  rewrite !Get4byte_in by (done || lia). cbn [mbind option_bind default from_option id].
  rewrite <- Hsz, seg_all.
  change (cksum (bigEndCksum (hdr pWal)) aData
    (cksum (bigEndCksum (hdr pWal)) (seg aFrame 0 8) (aFrameCksum (hdr pWal))))
    with (frame_cksum (bigEndCksum (hdr pWal)) aData aFrame (aFrameCksum (hdr pWal))).
  set (c := frame_cksum _ _ _ _). exists (set_cksum c pWal).
  split; [|split; [|by exists c]].
  - destruct (negb (fst c =? at4 aFrame 16) || negb (snd c =? at4 aFrame 20)) eqn:Hif.
    + rewrite decide_False; [reflexivity|]. intros (_ & _ & H). fold c in H.
      rewrite <- H in Hif. cbn in Hif. by rewrite !Z.eqb_refl in Hif.
    + zb. rewrite decide_True; [reflexivity|]. repeat split; [done|done|].
      fold c. destruct c. cbn in *. by f_equal.
  - intros (_ & _ & ->). done.
Qed.

Lemma walEncodeFrame_ok pWal iPage nTruncate aData aFrame :
  frame_bufs pWal aData aFrame -> bytes_ok (aSalt (hdr pWal)) ->
  blen (aSalt (hdr pWal)) = 8 -> iReCksum pWal = 0 ->
  0 < iPage < 2 ^ 32 -> 0 <= nTruncate < 2 ^ 32 ->
  0 <= fst (aFrameCksum (hdr pWal)) < 2 ^ 32 ->
  0 <= snd (aFrameCksum (hdr pWal)) < 2 ^ 32 ->
  exists aFrame' c,
    walEncodeFrame SQLITE_BIGENDIAN pWal iPage nTruncate aData aFrame
      = Some (set_cksum c pWal, aFrame')
    /\ bytes_ok aFrame' /\ blen aFrame' = WAL_FRAME_HDRSIZE
    /\ at4 aFrame' 0 = iPage /\ at4 aFrame' 4 = nTruncate
    /\ seg aFrame' 8 8 = aSalt (hdr pWal)
    /\ c = frame_cksum (bigEndCksum (hdr pWal)) aData aFrame' (aFrameCksum (hdr pWal))
    /\ (at4 aFrame' 16, at4 aFrame' 20) = c.
Proof.
  intros [Hd Hf Hlen Hsz Hpos Hal] Hso Hsl Hre Hp Ht Hc1 Hc2.
  unfold WAL_FRAME_HDRSIZE in *. unfold walEncodeFrame.
  destruct (Put4byte_in aFrame 0 iPage) as [f1 E1]; [lia..|].
  pose proof (Put4byte_len _ _ _ _ E1) as L1. pose proof (Put4byte_ok _ _ _ _ Hf E1) as O1.
  destruct (Put4byte_in f1 4 nTruncate) as [f2 E2]; [lia..|].
  pose proof (Put4byte_len _ _ _ _ E2) as L2. pose proof (Put4byte_ok _ _ _ _ O1 E2) as O2.
  destruct (blit_in f2 8 (aSalt (hdr pWal))) as [f3 E3]; [lia..|].
  pose proof (blit_len _ _ _ _ E3) as L3. pose proof (blit_ok _ _ _ _ O2 Hso E3) as O3.
  set (big := bigEndCksum (hdr pWal)). set (c0 := aFrameCksum (hdr pWal)) in *.
  set (c := frame_cksum big aData f3 c0).
  destruct (frame_cksum_range big aData f3 c0) as [R1 R2];
    [lia|rewrite Hsz; done|done..|]. fold c in R1, R2.
  destruct (Put4byte_in f3 16 (fst c)) as [f4 E4]; [lia..|].
  pose proof (Put4byte_len _ _ _ _ E4) as L4. pose proof (Put4byte_ok _ _ _ _ O3 E4) as O4.
  destruct (Put4byte_in f4 20 (snd c)) as [f5 E5]; [lia..|].
  pose proof (Put4byte_len _ _ _ _ E5) as L5. pose proof (Put4byte_ok _ _ _ _ O4 E5) as O5.
  assert (H35 : forall j, 0 <= j < 16 -> bat f5 j = bat f3 j).
  { intros j Hj. rewrite (Put4byte_at _ _ _ _ _ E5), (Put4byte_at _ _ _ _ _ E4) by lia. done. }
  assert (H23 : forall j, j < 8 -> bat f3 j = bat f2 j).
  { intros j Hj. rewrite (blit_at _ _ _ _ _ E3). destruct (Z.leb_spec 8 j); [lia|done]. }
  assert (Hs8 : seg f5 0 8 = seg f3 0 8) by (apply seg_eq; lia || (intros; apply H35; lia)).
  exists f5, c. split_and!; try done; try lia.
  - rewrite E1. cbn [mbind option_bind]. rewrite E2. cbn [mbind option_bind].
    destruct (Z.eqb_spec (iReCksum pWal) 0); [|lia].
    rewrite E3. cbn [mbind option_bind]. fold big.
    rewrite walChecksum_ok by (done || lia). cbn [mbind option_bind default from_option id].
    rewrite walChecksum_ok by (done || lia). cbn [mbind option_bind default from_option id].
    rewrite <- Hsz, seg_all.
    change (cksum big aData (cksum big (seg f3 0 8) c0)) with c.
    rewrite E4. cbn [mbind option_bind]. rewrite E5. done.
  - rewrite (at4_eq f3 f5), (at4_eq f2 f3) by (intros; apply H35 || apply H23; lia).
    rewrite (Put4byte_at4_other _ _ _ _ _ E2) by lia. apply (Put4byte_at4 _ _ _ _ E1). lia.
  - rewrite (at4_eq f3 f5), (at4_eq f2 f3) by (intros; apply H35 || apply H23; lia).
    apply (Put4byte_at4 _ _ _ _ E2). lia.
  - apply bytes_ext.
    + unfold blen at 1. rewrite seg_len by lia. lia.
    + unfold blen at 1. rewrite seg_len by lia. intros j Hj. rewrite seg_at by lia.
      rewrite H35, (blit_at _ _ _ _ _ E3) by lia.
      destruct (Z.leb_spec 8 (8 + j)), (Z.ltb_spec (8 + j) (8 + blen (aSalt (hdr pWal)))); try lia.
      cbn. f_equal. lia.
  - unfold c, frame_cksum. by rewrite Hs8.
  - rewrite (Put4byte_at4_other _ _ _ _ _ E5) by lia.
    rewrite (Put4byte_at4 _ _ _ _ E4), (Put4byte_at4 _ _ _ _ E5) by lia. by destruct c.
Qed.
End Frame.
