(* ===== verification/WalIndex.v ===== *)
(** * The wal-index: hash tables of frames ([src/src/wal.c])

    The wal-index is shared memory made of pages of 32768 bytes: 4096 words,
    which hold the page numbers of the frames ([aPgno], after the header on
    page 0), then 8192 hash slots.  The pages are the store [shm]; a connection
    reaches them through its array [apWiData].  Requests for memory and
    mappings may fail: [mallocOk n] and [shmRc n] say what becomes of the
    [n]-th one. *)
From S2P Require Import Prelude Bits Bytes Varint Wal.

(** ** Definitions *)

Definition WAL_HEAPMEMORY_MODE : Z := 2.
Definition WAL_SHM_RDONLY : Z := 2.
Definition SQLITE_READONLY : Z := 8.
Definition HASHTABLE_NPAGE : Z := 4096.
Definition HASHTABLE_HASH_1 : Z := 383.
Definition HASHTABLE_NSLOT : Z := HASHTABLE_NPAGE * 2.
Definition WALINDEX_HDR_SIZE : Z := 136.
Definition HASHTABLE_NPAGE_ONE : Z := HASHTABLE_NPAGE - WALINDEX_HDR_SIZE / 4.

(** One page of the wal-index. *)
Record wipage : Type := mkPage {
  words : list Z;                  (* HASHTABLE_NPAGE words *)
  slots : list Z;                  (* HASHTABLE_NSLOT of type [ht_slot] *)
}.
Definition zero_page : wipage :=
  mkPage (zeros HASHTABLE_NPAGE) (zeros HASHTABLE_NSLOT).

Record wi : Type := mkWi {
  wal : Wal;
  shm : list wipage;
  priv : wipage;                   (* [aPrivate] of a recovery *)
  wreqs : nat;                     (* requests made so far *)
}.
Definition set_wal (p : Wal) (st : wi) : wi := mkWi p (shm st) (priv st) (wreqs st).
Definition set_shm (l : list wipage) (st : wi) : wi := mkWi (wal st) l (priv st) (wreqs st).
Definition set_priv (g : wipage) (st : wi) : wi := mkWi (wal st) (shm st) g (wreqs st).
Definition count_req (st : wi) : wi := mkWi (wal st) (shm st) (priv st) (S (wreqs st)).

(** The page a pointer designates. *)
Definition deref (st : wi) (ptr : wiptr) : option wipage :=
  match ptr with
  | Unmapped => None
  | Shared i => shm st !! i
  | Private => Some (priv st)
  end.
Definition store (ptr : wiptr) (g : wipage) (st : wi) : wi :=
  match ptr with
  | Unmapped => st
  | Shared i => set_shm (<[i := g]> (shm st)) st
  | Private => set_priv g st
  end.

(** [apWiData[i] = ptr]. *)
Definition set_ptr (i : nat) (ptr : wiptr) (st : wi) : wi :=
  set_wal (set_apWiData (<[i := ptr]> (apWiData (wal st))) (wal st)) st.

(** At least [n] regions of shared memory, new ones zero-filled. *)
Definition grow_shm (n : nat) (l : list wipage) : list wipage :=
  l ++ replicate (n - length l) zero_page.

Section Code.
Variables (mallocOk : nat -> bool) (shmRc : nat -> Z).

(** A request to the allocator. *)
Definition wi_malloc : M wi bool :=
  fun st => (Ret (mallocOk (wreqs st)), count_req st).

(** [sqlite3OsShmMap]: a region is made only when [bExtend] is set; the
    pointer is null when there is none. *)
Definition sqlite3OsShmMap (iPage : nat) (bExtend : bool) : M wi (Z * wiptr) :=
  fun st =>
    let rc := shmRc (wreqs st) in
    let st := count_req st in
    if (rc =? SQLITE_OK) || (rc =? SQLITE_READONLY) then
      if bool_decide (iPage < length (shm st))%nat then (Ret (rc, Shared iPage), st)
      else if bExtend then (Ret (rc, Shared iPage), set_shm (grow_shm (S iPage) (shm st)) st)
      else (Ret (rc, Unmapped), st)
    else (Ret (rc, Unmapped), st).

(** The part that enlarges [apWiData]; false when memory is exhausted. *)
Definition wiData_grow (iPage : nat) : M wi bool :=
  let* n := gets (fun st => length (apWiData (wal st))) in
  if bool_decide (n <= iPage)%nat then
    let* ok := wi_malloc in
    if ok then
      modify (fun st => set_wal (set_apWiData
        (apWiData (wal st) ++ replicate (S iPage - n) Unmapped) (wal st)) st) ;;*
      ret true
    else ret false
  else ret true.

Definition walIndexPageRealloc (iPage : nat) : M wi (Z * wiptr) :=
  let* ok := wiData_grow iPage in
  if negb ok then ret (SQLITE_NOMEM, Unmapped)
  else
    let* p := gets wal in
    if exclusiveMode p =? WAL_HEAPMEMORY_MODE then
      let* ok := wi_malloc in
      if ok then
        modify (fun st => set_shm (<[iPage := zero_page]> (grow_shm (S iPage) (shm st))) st) ;;*
        modify (set_ptr iPage (Shared iPage)) ;;*
        ret (SQLITE_OK, Shared iPage)
      else ret (SQLITE_NOMEM, Unmapped)
    else
      let* r := sqlite3OsShmMap iPage (writeLock p) in
      let '(rc, ptr) := r in
      modify (set_ptr iPage ptr) ;;*
      if rc =? SQLITE_OK then ret (rc, ptr)
      else if Z.land rc 0xff =? SQLITE_READONLY then
        modify (fun st => set_wal
          (set_readOnly (Z.lor (readOnly (wal st)) WAL_SHM_RDONLY) (wal st)) st) ;;*
        ret (if rc =? SQLITE_READONLY then SQLITE_OK else rc, ptr)
      else ret (rc, ptr).

Definition walIndexPage (iPage : nat) : M wi (Z * wiptr) :=
  let* ptr := gets (fun st => default Unmapped (apWiData (wal st) !! iPage)) in
  match ptr with
  | Unmapped => walIndexPageRealloc iPage
  | _ => ret (SQLITE_OK, ptr)
  end.

(** *** Hash tables *)

Definition walHash (iPage : Z) : Z :=
  Z.land (u32 (iPage * HASHTABLE_HASH_1)) (HASHTABLE_NSLOT - 1).
Definition walNextHash (iPriorHash : Z) : Z :=
  Z.land (iPriorHash + 1) (HASHTABLE_NSLOT - 1).

(** The page of the table, the word [aPgno] starts at, and [iZero]. *)
Record WalHashLoc : Type := mkLoc { aPage : wiptr; aPgno : Z; iZero : Z }.

Definition walHashGet (iHash : nat) : M wi WalHashLoc :=
  let* r := walIndexPage iHash in
  let '(rc, ptr) := r in
  match ptr with
  | Unmapped => fail (if rc =? SQLITE_OK then SQLITE_ERROR else rc)
  | _ =>
      if negb (rc =? SQLITE_OK) then fail rc
      else ret (if bool_decide (iHash = 0)%nat
                then mkLoc ptr (WALINDEX_HDR_SIZE / 4) 0
                else mkLoc ptr 0
                  (u32 (HASHTABLE_NPAGE_ONE + (Z.of_nat iHash - 1) * HASHTABLE_NPAGE)))
  end.

Definition walFramePage (iFrame : Z) : nat :=
  Z.to_nat (u64 (u32 (iFrame + HASHTABLE_NPAGE) - HASHTABLE_NPAGE_ONE - 1)
            / HASHTABLE_NPAGE).

(** [pWal->apWiData[iHash][...]]. *)
Definition walFramePgno (iFrame : Z) : M wi Z :=
  let iHash := walFramePage iFrame in
  let* st := gets id in
  let* ptr := lift (apWiData (wal st) !! iHash) in
  let* g := lift (deref st ptr) in
  if bool_decide (iHash = 0)%nat
  then lift (bget (words g) (WALINDEX_HDR_SIZE / 4 + iFrame - 1))
  else lift (bget (words g) ((u64 (u32 (iFrame - 1) - HASHTABLE_NPAGE_ONE)) mod HASHTABLE_NPAGE)).

(** Zeroes the slots above [iLimit]. *)
Definition clear_slots (iLimit : Z) (l : list Z) : list Z :=
  map (fun v => if iLimit <? v then 0 else v) l.

Definition walCleanupHash : M wi unit :=
  let* mx := gets (fun st => mxFrame (hdr (wal st))) in
  if mx =? 0 then ret tt
  else fun st =>
    match walHashGet (walFramePage mx) st with
    | (Ret sLoc, st) =>
        let iLimit := mx - iZero sLoc in
        (let* g := lift (deref st (aPage sLoc)) in
         let* w := lift (bzero (words g) (aPgno sLoc + iLimit)
                           (HASHTABLE_NPAGE - (aPgno sLoc + iLimit))) in
         modify (store (aPage sLoc) (mkPage w (clear_slots iLimit (slots g))))) st
    | (Fail _, st) => (Ret tt, st)
    | (Undef, st) => (Undef, st)
    end.

(** [for(iKey=walHash(iPage); aHash[iKey]; iKey=walNextHash(iKey))]: the
    free slot, or [None] when more than [nCollide] are taken. *)
Fixpoint append_loop (fuel : nat) (l : list Z) (iKey nCollide : Z) : option (option Z) :=
  match fuel with
  | O => None
  | S fuel =>
      v ← bget l iKey;
      if v =? 0 then Some (Some iKey)
      else if nCollide =? 0 then Some None
      else append_loop fuel l (walNextHash iKey) (nCollide - 1)
  end.

(** [memset(sLoc.aPgno, 0, nByte)]: the page numbers and the slots. *)
Definition clear_table (sLoc : WalHashLoc) : M wi unit :=
  let* st := gets id in
  let* g := lift (deref st (aPage sLoc)) in
  let* w := lift (bzero (words g) (aPgno sLoc) (HASHTABLE_NPAGE - aPgno sLoc)) in
  modify (store (aPage sLoc) (mkPage w (zeros HASHTABLE_NSLOT))).

(** The page number and the hash slot of entry [idx]. *)
Definition append_entry (sLoc : WalHashLoc) (idx iPage : Z) : M wi unit :=
  let* st := gets id in
  let* g := lift (deref st (aPage sLoc)) in
  let* r := lift (append_loop (S (S (Z.to_nat idx))) (slots g) (walHash iPage) idx) in
  match r with
  | None => fail SQLITE_CORRUPT
  | Some iKey =>
      let* w := lift (aset (words g)
                  (aPgno sLoc + Z.land (idx - 1) (HASHTABLE_NPAGE - 1)) iPage) in
      let* s := lift (aset (slots g) iKey (u16 idx)) in
      modify (store (aPage sLoc) (mkPage w s))
  end.

Definition walIndexAppend (iFrame iPage : Z) : M wi unit :=
  let* sLoc := walHashGet (walFramePage iFrame) in
  let idx := iFrame - iZero sLoc in
  (if idx =? 1 then clear_table sLoc else ret tt) ;;*
  let* st := gets id in
  let* g := lift (deref st (aPage sLoc)) in
  let* old := lift (bget (words g) (aPgno sLoc + (idx - 1))) in
  (if negb (old =? 0) then walCleanupHash else ret tt) ;;*
  append_entry sLoc idx iPage.

(** *** Lookup *)

(** The inner loop on one table; [None] of the result is a table without a
    free slot. *)
Fixpoint find_loop (fuel : nat) (g : wipage) (sLoc : WalHashLoc) (pgno iLast minF : Z)
    (iKey nCollide iRead : Z) : option (option Z) :=
  match fuel with
  | O => None
  | S fuel =>
      iH ← bget (slots g) iKey;
      if iH =? 0 then Some (Some iRead)
      else
        let iFrame := u32 (iH + iZero sLoc) in
        iRead ← (if (iFrame <=? iLast) && (minF <=? iFrame) then
                   v ← bget (words g) (aPgno sLoc + Z.land (iH - 1) (HASHTABLE_NPAGE - 1));
                   Some (if v =? pgno then iFrame else iRead)
                 else Some iRead);
        if nCollide =? 0 then Some None
        else find_loop fuel g sLoc pgno iLast minF (walNextHash iKey) (nCollide - 1) iRead
  end.

(** The loop over the tables, from [iHash] down to [iMinHash]. *)
Fixpoint tables_loop (n : nat) (pgno iLast minF : Z) (iHash iMinHash : nat) : M wi Z :=
  match n with
  | O => ret 0
  | S n =>
      let* sLoc := walHashGet iHash in
      let* st := gets id in
      let* g := lift (deref st (aPage sLoc)) in
      let* r := lift (find_loop (S (S (Z.to_nat HASHTABLE_NSLOT))) g sLoc pgno iLast minF
                        (walHash pgno) HASHTABLE_NSLOT 0) in
      match r with
      | None => fail SQLITE_CORRUPT
      | Some iRead =>
          if negb (iRead =? 0) then ret iRead
          else tables_loop n pgno iLast minF (pred iHash) iMinHash
      end
  end.

Definition walFindFrame (pgno : Z) : M wi Z :=
  let* p := gets wal in
  let iLast := mxFrame (hdr p) in
  if (iLast =? 0) || ((readLock p =? 0) && negb (bShmUnreliable p)) then ret 0
  else
    let iMinHash := walFramePage (minFrame p) in
    let iHash := walFramePage iLast in
    tables_loop (S iHash - iMinHash) pgno iLast (minFrame p) iHash iMinHash.
End Code.

(** ** One table *)

(** The slot reached from page [k] after [n] collisions. *)
Definition pos (k n : Z) : Z := (walHash k + n) mod HASHTABLE_NSLOT.

(** A page whose words from [off] and slots index the frames of pages [ks]:
    each entry is found by probing, behind entries older than it. *)
Record table_ok (ks : list Z) (off : Z) (g : wipage) : Prop := {
  t_words : blen (words g) = HASHTABLE_NPAGE;
  t_slots : blen (slots g) = HASHTABLE_NSLOT;
  t_off : 0 <= off;
  t_cap : off + blen ks <= HASHTABLE_NPAGE;
  t_key j : 0 <= j < blen ks -> bat (words g) (off + j) = bat ks j;
  t_zero j : blen ks <= j < HASHTABLE_NPAGE - off -> bat (words g) (off + j) = 0;
  t_range i : 0 <= bat (slots g) i <= blen ks;
  t_inj i i' : 0 <= i < HASHTABLE_NSLOT -> 0 <= i' < HASHTABLE_NSLOT ->
    bat (slots g) i = bat (slots g) i' -> bat (slots g) i <> 0 -> i = i';
  t_probe j : 0 <= j < blen ks -> exists n, 0 <= n < HASHTABLE_NSLOT
    /\ bat (slots g) (pos (bat ks j) n) = j + 1
    /\ forall m, 0 <= m < n -> 0 < bat (slots g) (pos (bat ks j) m) <= j;
}.

(** The greatest frame of [lo..hi] among [z+1, z+2, ...] that holds page [k],
    0 when there is none. *)
Definition is_last (ks : list Z) (z lo hi k r : Z) : Prop :=
  (r = 0 /\ forall j, 0 <= j < blen ks -> lo <= z + j + 1 <= hi -> bat ks j <> k) \/
  (exists j, 0 <= j < blen ks /\ r = z + j + 1 /\ lo <= r <= hi /\ bat ks j = k
     /\ forall j', j < j' < blen ks -> z + j' + 1 <= hi -> bat ks j' <> k).

Lemma land_slots x : Z.land x (HASHTABLE_NSLOT - 1) = x mod HASHTABLE_NSLOT.
Proof. change (HASHTABLE_NSLOT - 1) with (Z.ones 13). by rewrite Z.land_ones by lia. Qed.
Lemma land_pages x : Z.land x (HASHTABLE_NPAGE - 1) = x mod HASHTABLE_NPAGE.
Proof. change (HASHTABLE_NPAGE - 1) with (Z.ones 12). by rewrite Z.land_ones by lia. Qed.

Lemma walHash_range k : 0 <= walHash k < HASHTABLE_NSLOT.
Proof. unfold walHash. rewrite land_slots. apply Z.mod_pos_bound. done. Qed.
Lemma pos_0 k : pos k 0 = walHash k.
Proof. unfold pos. rewrite Z.add_0_r. apply Z.mod_small, walHash_range. Qed.
Lemma pos_range k n : 0 <= pos k n < HASHTABLE_NSLOT.
Proof. apply Z.mod_pos_bound. done. Qed.
Lemma pos_next k n : walNextHash (pos k n) = pos k (n + 1).
Proof.
  unfold walNextHash, pos. rewrite land_slots, Zplus_mod_idemp_l. f_equal. lia.
Qed.
Lemma pos_inj k m n :
  0 <= m < HASHTABLE_NSLOT -> 0 <= n < HASHTABLE_NSLOT -> pos k m = pos k n -> m = n.
Proof. unfold pos, HASHTABLE_NSLOT, HASHTABLE_NPAGE. div_lia. Qed.

Lemma distinct_le (f : Z -> Z) n c :
  0 <= n -> 0 <= c -> (forall i, 0 <= i < n -> 1 <= f i <= c) ->
  (forall i j, 0 <= i < n -> 0 <= j < n -> f i = f j -> i = j) -> n <= c.
Proof.
  intros Hn Hc Hr Hi.
  assert (H : (Z.to_nat n <= Z.to_nat c)%nat); [|lia].
  set (l := map (fun i => f (Z.of_nat i)) (seq 0 (Z.to_nat n))).
  set (u := map Z.of_nat (seq 1 (Z.to_nat c))).
  assert (Hl : length l = Z.to_nat n) by (unfold l; by rewrite length_map, length_seq).
  assert (Hu : length u = Z.to_nat c) by (unfold u; by rewrite length_map, length_seq).
  rewrite <- Hl, <- Hu. apply List.NoDup_incl_length.
  - apply List.NoDup_map_NoDup_ForallPairs; [|apply List.seq_NoDup].
    intros a b Ha%List.in_seq Hb%List.in_seq E. apply Hi in E; lia.
  - intros x (i & <- & Hin%List.in_seq)%List.in_map_iff.
    apply List.in_map_iff. specialize (Hr (Z.of_nat i) ltac:(lia)).
    exists (Z.to_nat (f (Z.of_nat i))). split; [lia|]. apply List.in_seq. lia.
Qed.

Lemma least_zero (f : Z -> Z) n :
  (forall i, 0 <= i < Z.of_nat n -> f i <> 0) \/
  (exists e, 0 <= e < Z.of_nat n /\ f e = 0 /\ forall i, 0 <= i < e -> f i <> 0).
Proof.
  induction n as [|n IH]; [left; lia|].
  destruct IH as [IH|(e & He & H1 & H2)]; [|right; exists e; split_and!; auto; lia].
  destruct (decide (f (Z.of_nat n) = 0)) as [E|E].
  - right. exists (Z.of_nat n). split_and!; auto; lia.
  - left. intros i Hi. destruct (decide (i = Z.of_nat n)) as [->|]; [done|]. apply IH. lia.
Qed.

Section Table.
Context (ks : list Z) (off : Z) (g : wipage) (T : table_ok ks off g).

Lemma first_free k :
  exists e, 0 <= e <= blen ks /\ bat (slots g) (pos k e) = 0
    /\ forall i, 0 <= i < e -> bat (slots g) (pos k i) <> 0.
Proof.
  pose proof (t_off _ _ _ T) as Ho. pose proof (t_cap _ _ _ T) as Hc.
  pose proof (blen_nonneg ks).
  assert (Hbound : forall n, 0 <= n <= HASHTABLE_NSLOT ->
    (forall i, 0 <= i < n -> bat (slots g) (pos k i) <> 0) -> n <= blen ks).
  { intros n Hn Hnz. apply (distinct_le (fun i => bat (slots g) (pos k i))); [lia|done|..].
    - intros i Hi. pose proof (t_range _ _ _ T (pos k i)). specialize (Hnz i Hi). lia.
    - intros i j Hi Hj E. apply (t_inj _ _ _ T) in E; [|apply pos_range..|by apply Hnz].
      apply pos_inj in E; lia. }
  destruct (least_zero (fun i => bat (slots g) (pos k i)) (Z.to_nat HASHTABLE_NSLOT))
    as [H0|(e & He & H1 & H2)].
  - exfalso. specialize (Hbound HASHTABLE_NSLOT ltac:(done) H0).
    unfold HASHTABLE_NSLOT, HASHTABLE_NPAGE in *. lia.
  - exists e. split_and!; [lia| |done|done]. apply Hbound; [|done].
    unfold HASHTABLE_NSLOT, HASHTABLE_NPAGE in *. lia.
Qed.

(** The entry in a slot, met while probing for its page. *)
Lemma probe_entry k n :
  0 <= n < HASHTABLE_NSLOT -> bat (slots g) (pos k n) <> 0 ->
  bat ks (bat (slots g) (pos k n) - 1) = k ->
  forall m, 0 <= m < n -> 0 < bat (slots g) (pos k m) < bat (slots g) (pos k n).
Proof.
  intros Hn Hnz Hk m Hm. set (v := bat (slots g) (pos k n)) in *.
  pose proof (t_range _ _ _ T (pos k n)). fold v in H.
  destruct (t_probe _ _ _ T (v - 1)) as (n' & Hn' & E & Hpath); [lia|].
  rewrite Hk in E, Hpath. replace (v - 1 + 1) with v in E by lia.
  assert (n' = n) as ->.
  { apply (pos_inj k); [done|done|]. apply (t_inj _ _ _ T); try apply pos_range; [done|lia]. }
  specialize (Hpath m Hm). lia.
Qed.

Lemma entry_before_free k e j :
  (forall i, 0 <= i < e -> bat (slots g) (pos k i) <> 0) -> 0 <= e ->
  bat (slots g) (pos k e) = 0 -> 0 <= j < blen ks -> bat ks j = k ->
  exists n, 0 <= n < e /\ bat (slots g) (pos k n) = j + 1.
Proof.
  intros He He0 H0 Hj Hk. destruct (t_probe _ _ _ T j Hj) as (n & Hn & E & Hpath).
  rewrite Hk in *. exists n. split; [|done]. split; [lia|].
  destruct (Z.lt_trichotomy n e) as [|[->|Hlt]]; [done|lia|].
  specialize (Hpath e ltac:(lia)). lia.
Qed.

Lemma append_loop_ok k e n fuel c :
  0 <= n <= e -> bat (slots g) (pos k e) = 0 ->
  (forall i, 0 <= i < e -> bat (slots g) (pos k i) <> 0) ->
  e - n <= c -> e - n < Z.of_nat fuel ->
  append_loop fuel (slots g) (pos k n) c = Some (Some (pos k e)).
Proof.
  intros Hn H0 Hnz. revert n c Hn. induction fuel as [|fuel IH]; intros n c Hn Hc Hf; [lia|].
  cbn [append_loop]. rewrite bget_in by (rewrite (t_slots _ _ _ T); apply pos_range).
  cbn [mbind option_bind]. destruct (Z.eqb_spec (bat (slots g) (pos k n)) 0) as [E|E].
  - assert (n = e) as ->; [|done]. destruct (decide (n = e)); [done|]. by destruct (Hnz n); [lia|].
  - assert (n <> e) by (intros ->; done).
    destruct (Z.eqb_spec c 0); [lia|]. rewrite pos_next. apply IH; lia.
Qed.
End Table.

(** *** Lookup in one table *)

Section Find.
Context (ks : list Z) (off : Z) (g : wipage) (T : table_ok ks off g).
Context (sLoc : WalHashLoc) (lo hi k : Z).
Hypothesis Hoff : aPgno sLoc = off.
Hypothesis Hzero : 0 <= iZero sLoc < 2 ^ 32 - HASHTABLE_NPAGE.

(** The slot at distance [m] holds a frame the reader wants. *)
Definition hit (m : Z) : Prop :=
  let v := bat (slots g) (pos k m) in
  lo <= iZero sLoc + v <= hi /\ bat ks (v - 1) = k.
Definition seen (n r : Z) : Prop :=
  (r = 0 /\ forall m, 0 <= m < n -> ~ hit m) \/
  (exists m, 0 <= m < n /\ hit m /\ r = iZero sLoc + bat (slots g) (pos k m)
     /\ forall m', m < m' < n -> ~ hit m').

Lemma seen_hit n :
  0 <= n -> hit n -> seen (n + 1) (iZero sLoc + bat (slots g) (pos k n)).
Proof. intros Hn H. right. exists n. split_and!; [lia|lia|done|done|lia]. Qed.
Lemma seen_miss n r : ~ hit n -> seen n r -> seen (n + 1) r.
Proof.
  intros Hn [[-> H]|(m & Hm & H1 & -> & H2)].
  - left. split; [done|]. intros m Hm. destruct (decide (m = n)) as [->|]; [done|]. apply H. lia.
  - right. exists m. split_and!; [lia|lia|done|done|].
    intros m' Hm'. destruct (decide (m' = n)) as [->|]; [done|]. apply H2. lia.
Qed.

Lemma find_loop_ok e n fuel c r :
  0 <= n <= e -> bat (slots g) (pos k e) = 0 ->
  (forall i, 0 <= i < e -> bat (slots g) (pos k i) <> 0) ->
  e - n <= c -> e - n < Z.of_nat fuel -> seen n r ->
  exists r', find_loop fuel g sLoc k hi lo (pos k n) c r = Some (Some r') /\ seen e r'.
Proof.
  intros Hn H0 Hnz. revert n c r Hn.
  induction fuel as [|fuel IH]; intros n c r Hn Hc Hf Hs; [lia|].
  cbn [find_loop]. rewrite bget_in by (rewrite (t_slots _ _ _ T); apply pos_range).
  cbn [mbind option_bind]. set (v := bat (slots g) (pos k n)).
  destruct (Z.eqb_spec v 0) as [E|E].
  { assert (n = e) as ->; [|eauto].
    destruct (decide (n = e)); [done|]. destruct (Hnz n); [lia|done]. }
  assert (n <> e) by (intros ->; done).
  pose proof (t_range _ _ _ T (pos k n)) as Hv. fold v in Hv.
  pose proof (t_cap _ _ _ T). pose proof (t_off _ _ _ T).
  unfold HASHTABLE_NPAGE in *. rewrite u32_small by lia.
  assert (Hstep : exists r', (if (v + iZero sLoc <=? hi) && (lo <=? v + iZero sLoc)
      then w ← bget (words g) (aPgno sLoc + Z.land (v - 1) (4096 - 1));
           Some (if w =? k then v + iZero sLoc else r)
      else Some r) = Some r' /\ seen (n + 1) r').
  { case_if.
    - change (Z.land (v - 1) (4096 - 1)) with (Z.land (v - 1) (HASHTABLE_NPAGE - 1)). rewrite (land_pages (v - 1)). unfold HASHTABLE_NPAGE. rewrite Z.mod_small by lia.
      rewrite bget_in by (rewrite (t_words _ _ _ T); unfold HASHTABLE_NPAGE; lia).
      rewrite Hoff, (t_key _ _ _ T) by lia. cbn [mbind option_bind].
      eexists. split; [reflexivity|]. destruct (Z.eqb_spec (bat ks (v - 1)) k).
      + rewrite (Z.add_comm v). apply seen_hit; [lia|]. unfold hit. fold v. lia.
      + apply seen_miss; [|done]. unfold hit. fold v. tauto.
    - exists r. split; [done|]. apply seen_miss; [|done]. unfold hit. fold v.
      apply andb_false_iff in Hif. destruct Hif; zb; lia. }
  destruct Hstep as (r' & -> & Hs'). cbn [mbind option_bind].
  destruct (Z.eqb_spec c 0); [lia|]. rewrite pos_next. apply IH; [lia..|done].
Qed.

Lemma seen_last e r :
  0 <= e -> bat (slots g) (pos k e) = 0 -> e < HASHTABLE_NSLOT ->
  (forall i, 0 <= i < e -> bat (slots g) (pos k i) <> 0) ->
  seen e r -> is_last ks (iZero sLoc) lo hi k r.
Proof.
  intros He H0 Hlt Hnz Hs.
  assert (Hfound : forall j, 0 <= j < blen ks -> bat ks j = k ->
    exists m, 0 <= m < e /\ bat (slots g) (pos k m) = j + 1).
  { intros j Hj Hk. by apply (entry_before_free ks off g T k e j). }
  destruct Hs as [[-> Hs]|(m & Hm & [Hb Hk] & -> & Hs)].
  - left. split; [done|]. intros j Hj Hb Hk.
    destruct (Hfound j Hj Hk) as (m & Hm & E). apply (Hs m Hm). unfold hit.
    rewrite E. replace (j + 1 - 1) with j by lia. split; [lia|done].
  - right. set (v := bat (slots g) (pos k m)) in *.
    pose proof (t_range _ _ _ T (pos k m)) as Hv. fold v in Hv.
    specialize (Hnz m Hm) as Hnz'. fold v in Hnz'.
    exists (v - 1). split_and!; [lia|lia|lia|lia|lia|done|].
    intros j' Hj' Hb' Hk'. destruct (Hfound j' ltac:(lia) Hk') as (m' & Hm' & E).
    destruct (Z.lt_trichotomy m m') as [Hl|[->|Hl]].
    + apply (Hs m'); [lia|]. unfold hit. rewrite E. replace (j' + 1 - 1) with j' by lia.
      split; [lia|done].
    + fold v in E. lia.
    + pose proof (probe_entry ks off g T k m ltac:(lia) ltac:(fold v; lia) Hk m' ltac:(lia)) as Hp.
      rewrite E in Hp. fold v in Hp. lia.
Qed.

(** The search of one table gives the last matching frame. *)
Lemma table_find :
  exists r, find_loop (S (S (Z.to_nat HASHTABLE_NSLOT))) g sLoc k hi lo
              (walHash k) HASHTABLE_NSLOT 0 = Some (Some r)
    /\ is_last ks (iZero sLoc) lo hi k r.
Proof.
  destruct (first_free ks off g T k) as (e & He & H0 & Hnz).
  pose proof (t_cap _ _ _ T). pose proof (t_off _ _ _ T).
  assert (He' : e < HASHTABLE_NSLOT) by (unfold HASHTABLE_NSLOT, HASHTABLE_NPAGE in *; lia).
  destruct (find_loop_ok e 0 (S (S (Z.to_nat HASHTABLE_NSLOT))) HASHTABLE_NSLOT 0)
    as (r & E & Hs); [lia|done|done|lia|lia|left; split; [done|intros; lia]|].
  rewrite pos_0 in E. exists r. split; [done|]. apply (seen_last e); done || lia.
Qed.
End Find.

(** *** Adding and removing entries *)

Lemma bat_app_l l1 l2 i : i < blen l1 -> bat (l1 ++ l2) i = bat l1 i.
Proof.
  intros H. unfold bat, blen in *. destruct (Z.leb_spec 0 i); [|done].
  by rewrite lookup_app_l by lia.
Qed.
Lemma bat_snoc l x : bat (l ++ [x]) (blen l) = x.
Proof.
  unfold bat, blen. destruct (Z.leb_spec 0 (Z.of_nat (length l))); [|lia].
  by rewrite Nat2Z.id, list_lookup_middle.
Qed.
Lemma bat_take l n i : i < n -> bat (take (Z.to_nat n) l) i = bat l i.
Proof.
  intros H. unfold bat. destruct (Z.leb_spec 0 i); [|done].
  by rewrite lookup_take_lt by lia.
Qed.
Lemma blen_take l n : 0 <= n <= blen l -> blen (take (Z.to_nat n) l) = n.
Proof. unfold blen. intros H. rewrite length_take. lia. Qed.

Lemma table_empty off g w :
  blen (words g) = HASHTABLE_NPAGE -> 0 <= off <= HASHTABLE_NPAGE ->
  bzero (words g) off (HASHTABLE_NPAGE - off) = Some w ->
  table_ok [] off (mkPage w (zeros HASHTABLE_NSLOT)).
Proof.
  intros Hw Ho. unfold bzero. destruct (Z.leb_spec 0 (HASHTABLE_NPAGE - off)); [|lia].
  intros E. pose proof (blit_len _ _ _ _ E) as El. cbn.
  split; cbn [words slots]; change (blen []) with 0;
    [lia|by rewrite zeros_len|lia|lia|lia| | | |lia].
  - intros j Hj. cbn in Hj. rewrite (blit_at _ _ _ _ _ E), zeros_len by lia.
    destruct (Z.leb_spec off (off + j)), (Z.ltb_spec (off + j) (off + (HASHTABLE_NPAGE - off)));
      try lia. apply zeros_at.
  - intros i. rewrite zeros_at. cbn. lia.
  - intros i i' _ _ _ H0. by rewrite zeros_at in H0.
Qed.

Lemma table_append ks off g k e w s :
  table_ok ks off g -> off + blen ks < HASHTABLE_NPAGE ->
  0 <= e -> bat (slots g) (pos k e) = 0 -> e < HASHTABLE_NSLOT ->
  (forall i, 0 <= i < e -> bat (slots g) (pos k i) <> 0) ->
  aset (words g) (off + blen ks) k = Some w ->
  aset (slots g) (pos k e) (blen ks + 1) = Some s ->
  table_ok (ks ++ [k]) off (mkPage w s).
Proof.
  intros T Hcap He H0 He' Hnz Ew Es.
  assert (Hw : forall i, bat w i = if i =? off + blen ks then k else bat (words g) i).
  { intros i. by rewrite (aset_at _ _ _ _ _ Ew). }
  assert (Hs : forall i, bat s i = if i =? pos k e then blen ks + 1 else bat (slots g) i).
  { intros i. by rewrite (aset_at _ _ _ _ _ Es). }
  pose proof (blen_nonneg ks). pose proof (t_range _ _ _ T) as Hrg.
  assert (Hkeep : forall i, bat (slots g) i <> 0 -> bat s i = bat (slots g) i).
  { intros i Hi. rewrite Hs. destruct (Z.eqb_spec i (pos k e)); [by subst|done]. }
  split; cbn [words slots]; rewrite ?blen_snoc.
  - rewrite (aset_len _ _ _ _ Ew). apply T.
  - rewrite (aset_len _ _ _ _ Es). apply T.
  - apply T.
  - lia.
  - intros j Hj. rewrite Hw. destruct (Z.eqb_spec (off + j) (off + blen ks)).
    + replace j with (blen ks) by lia. by rewrite bat_snoc.
    + rewrite (t_key _ _ _ T), bat_app_l by lia. done.
  - intros j Hj. rewrite Hw. destruct (Z.eqb_spec (off + j) (off + blen ks)); [lia|].
    apply (t_zero _ _ _ T). lia.
  - intros i. rewrite Hs. specialize (Hrg i). case_if; lia.
  - intros i i' Hi Hi' E Hz. rewrite !Hs in E. rewrite Hs in Hz.
    pose proof (Hrg i). pose proof (Hrg i').
    destruct (Z.eqb_spec i (pos k e)), (Z.eqb_spec i' (pos k e)); [congruence|lia|lia|].
    by apply (t_inj _ _ _ T).
  - intros j Hj. destruct (decide (j = blen ks)) as [->|Hne].
    + rewrite bat_snoc. exists e. split_and!; [lia|lia| |].
      * rewrite Hs, Z.eqb_refl. done.
      * intros m Hm. rewrite Hkeep by auto. specialize (Hnz m Hm). specialize (Hrg (pos k m)). lia.
    + rewrite bat_app_l by lia. destruct (t_probe _ _ _ T j) as (n & Hn & E & Hp); [lia|].
      exists n. split; [done|]. split; [rewrite Hkeep; lia|].
      intros m Hm. specialize (Hp m Hm). rewrite Hkeep; lia.
Qed.

Lemma clear_slots_at n l i : 0 <= n -> bat (clear_slots n l) i = if n <? bat l i then 0 else bat l i.
Proof.
  intros Hn. unfold clear_slots, bat.
  destruct (0 <=? i); [|by destruct (Z.ltb_spec n 0)].
  change (map (fun v => if n <? v then 0 else v) l) with ((fun v => if n <? v then 0 else v) <$> l).
  rewrite list_lookup_fmap. destruct (l !! Z.to_nat i); cbn; [done|].
  by destruct (Z.ltb_spec n 0).
Qed.

Lemma table_cleanup ks off g n w :
  table_ok ks off g -> 0 <= n <= blen ks ->
  bzero (words g) (off + n) (HASHTABLE_NPAGE - (off + n)) = Some w ->
  table_ok (take (Z.to_nat n) ks) off (mkPage w (clear_slots n (slots g))).
Proof.
  intros T Hn. pose proof (t_cap _ _ _ T). pose proof (t_off _ _ _ T).
  unfold bzero. destruct (Z.leb_spec 0 (HASHTABLE_NPAGE - (off + n))); [|lia].
  intros E. pose proof (blit_len _ _ _ _ E) as El.
  assert (Hat : forall i, bat w i = if (off + n <=? i) && (i <? HASHTABLE_NPAGE) then 0
                                    else bat (words g) i).
  { intros i. rewrite (blit_at _ _ _ _ _ E), zeros_len by lia. rewrite zeros_at.
    by replace (off + n + (HASHTABLE_NPAGE - (off + n))) with HASHTABLE_NPAGE by lia. }
  pose proof (t_range _ _ _ T) as Hrg.
  split; cbn [words slots]; rewrite ?blen_take by lia.
  - rewrite El. apply T.
  - unfold clear_slots, blen. rewrite length_map. apply T.
  - done.
  - lia.
  - intros j Hj. rewrite Hat, bat_take by lia.
    destruct (Z.leb_spec (off + n) (off + j)); [lia|]. cbn. apply (t_key _ _ _ T). lia.
  - intros j Hj. rewrite Hat. destruct (Z.leb_spec (off + n) (off + j)), (Z.ltb_spec (off + j) HASHTABLE_NPAGE); (done || lia).
  - intros i. rewrite clear_slots_at by lia. specialize (Hrg i). case_if; lia.
  - intros i i' Hi Hi'. rewrite !clear_slots_at by lia. intros E' Hz.
    destruct (Z.ltb_spec n (bat (slots g) i)); [done|].
    destruct (Z.ltb_spec n (bat (slots g) i')); [done|]. by apply (t_inj _ _ _ T).
  - intros j Hj. rewrite bat_take by lia.
    destruct (t_probe _ _ _ T j) as (m & Hm & E' & Hp); [lia|]. exists m. split; [done|].
    rewrite clear_slots_at by lia. split.
    + rewrite E'. destruct (Z.ltb_spec n (j + 1)); lia.
    + intros i Hi. specialize (Hp i Hi). rewrite clear_slots_at by lia. case_if; lia.
Qed.

(** ** Mapping pages *)

(** What connection [st] sees of page [h], mapped or not; a page of heap
    memory exists only once it is mapped. *)
Definition view (st : wi) (h : nat) : option wipage :=
  match default Unmapped (apWiData (wal st) !! h) with
  | Unmapped => if exclusiveMode (wal st) =? WAL_HEAPMEMORY_MODE then None else shm st !! h
  | ptr => deref st ptr
  end.

Definition page_sized (g : wipage) : Prop :=
  blen (words g) = HASHTABLE_NPAGE /\ blen (slots g) = HASHTABLE_NSLOT.

Record wi_wf (st : wi) : Prop := {
  wf_ptr h ptr : apWiData (wal st) !! h = Some ptr ->
    ptr = Unmapped \/ (ptr = Shared h /\ (h < length (shm st))%nat) \/ ptr = Private;
  wf_priv h h' : apWiData (wal st) !! h = Some Private ->
    apWiData (wal st) !! h' = Some Private -> h = h';
  wf_shm : Forall page_sized (shm st);
  wf_private : page_sized (priv st);
}.

(** Only the mapping, and the read-only flag it reports, may differ. *)
Definition wal_same (p p' : Wal) : Prop :=
  p' = set_readOnly (readOnly p') (set_apWiData (apWiData p') p).
(** [st'] sees what [st] sees, and perhaps more. *)
Definition view_ext (st st' : wi) : Prop :=
  wal_same (wal st) (wal st') /\ priv st' = priv st /\
  (forall h g, view st h = Some g -> view st' h = Some g) /\
  (forall h ptr, apWiData (wal st) !! h = Some ptr -> ptr <> Unmapped ->
     apWiData (wal st') !! h = Some ptr) /\
  (forall h, apWiData (wal st') !! h = Some Private -> apWiData (wal st) !! h = Some Private).

Lemma wal_same_refl p : wal_same p p.
Proof. by destruct p. Qed.
Lemma wal_same_trans p q r : wal_same p q -> wal_same q r -> wal_same p r.
Proof. unfold wal_same. intros -> ->. done. Qed.
Lemma view_ext_refl st : view_ext st st.
Proof. split_and!; [apply wal_same_refl|done..]. Qed.
Lemma view_ext_trans s1 s2 s3 : view_ext s1 s2 -> view_ext s2 s3 -> view_ext s1 s3.
Proof.
  intros (A & B & C & D & E) (A' & B' & C' & D' & E').
  split; [by eapply wal_same_trans|]. split; [congruence|]. split_and!; auto.
Qed.

Lemma zero_page_sized : page_sized zero_page.
Proof. split; by apply zeros_len. Qed.
Lemma grow_shm_lookup n l h g : l !! h = Some g -> grow_shm n l !! h = Some g.
Proof. unfold grow_shm. intros H. apply lookup_app_l_Some, H. Qed.
Lemma grow_shm_length n l : length (grow_shm n l) = Nat.max n (length l).
Proof. unfold grow_shm. rewrite length_app, length_replicate. lia. Qed.
Lemma grow_shm_sized n l : Forall page_sized l -> Forall page_sized (grow_shm n l).
Proof.
  intros H. apply Forall_app. split; [done|]. apply Forall_replicate, zero_page_sized.
Qed.

Lemma lookup_grown l n h : default Unmapped ((l ++ replicate n Unmapped) !! h) = default Unmapped (l !! h).
Proof.
  destruct (decide (h < length l)%nat).
  - by rewrite lookup_app_l.
  - rewrite lookup_app_r, (lookup_ge_None_2 l) by lia. cbn.
    destruct (replicate n Unmapped !! _) eqn:E; [|done].
    by apply lookup_replicate in E as [-> _].
Qed.

(** Reduces the accessors of an updated state. *)
Ltac wi_cbn :=
  cbn [fst snd wal shm priv wreqs set_wal set_shm set_ptr set_priv count_req
       set_apWiData set_readOnly apWiData exclusiveMode hdr minFrame readLock].

Section Mapping.
Context (mallocOk : nat -> bool) (shmRc : nat -> Z).

Lemma view_default st st' h :
  exclusiveMode (wal st') = exclusiveMode (wal st) -> shm st' = shm st -> priv st' = priv st ->
  default Unmapped (apWiData (wal st') !! h) = default Unmapped (apWiData (wal st) !! h) ->
  view st' h = view st h.
Proof. unfold view. intros -> Hs Hp ->. unfold deref. by rewrite Hs, Hp. Qed.

Lemma wiData_grow_ok h st :
  wi_wf st ->
  wp (wiData_grow mallocOk h) (returns (fun b st' => wi_wf st' /\ view_ext st st'
    /\ shm st' = shm st
    /\ (b = true -> (h < length (apWiData (wal st')))%nat)
    /\ default Unmapped (apWiData (wal st') !! h) = default Unmapped (apWiData (wal st) !! h))) st.
Proof.
  intros [W1 W2 W3 W4]. unfold wiData_grow. wp_go. case_bool_decide as Hn.
  2:{ wp_go. cbn. split; [by split|]. split; [apply view_ext_refl|]. split; [done|]. split; [lia|done]. }
  wp_step. unfold wi_malloc, wp. cbn [fst snd].
  destruct (mallocOk (wreqs st)); cbn -[replicate Nat.sub].
  - split; [split; cbn -[replicate Nat.sub]; [|..]|].
    + intros i ptr Hi. apply lookup_app_Some in Hi as [Hi|[_ [-> _]%lookup_replicate]]; [|by left]. by apply W1.
    + intros i i' Hi Hi'. apply lookup_app_Some in Hi as [Hi|[_ [? _]%lookup_replicate]]; [|done].
      apply lookup_app_Some in Hi' as [Hi'|[_ [? _]%lookup_replicate]]; [|done]. by apply W2.
    + done.
    + done.
    + split; [|split; [done|split; [|apply lookup_grown]]].
      * split; [by destruct st as [[] ???]|]. split; [done|]. split.
        { intros i g <-. apply view_default; [done|done|done|]. apply lookup_grown. }
        split; [intros i ptr Hi _; by apply lookup_app_l_Some|].
        intros i Hi. by apply lookup_app_Some in Hi as [Hi|[_ [? _]%lookup_replicate]].
      * intros _. rewrite length_app, length_replicate. lia.
  - split; [by split|]. split; [|split; [done|split; [done|done]]].
    split_and!; [apply wal_same_refl|done..].
Qed.

(** Setting the pointer of an unmapped page to its region. *)
Lemma map_shared st st' h :
  wi_wf st -> (h < length (apWiData (wal st)))%nat -> default Unmapped (apWiData (wal st) !! h) = Unmapped ->
  Forall page_sized (shm st') -> priv st' = priv st -> (h < length (shm st'))%nat ->
  wal_same (set_apWiData (<[h := Shared h]> (apWiData (wal st))) (wal st)) (wal st') ->
  apWiData (wal st') = <[h := Shared h]> (apWiData (wal st)) ->
  (forall i g, shm st !! i = Some g -> (i <> h \/ exclusiveMode (wal st) <> WAL_HEAPMEMORY_MODE) ->
     shm st' !! i = Some g) ->
  wi_wf st' /\ view_ext st st' /\ apWiData (wal st') !! h = Some (Shared h).
Proof.
  intros [W1 W2 W3 W4] Hlt Hun Hsz Hp Hh Hs Ha Hshm.
  assert (Hmode : exclusiveMode (wal st') = exclusiveMode (wal st)) by (by rewrite Hs).
  assert (Hlen : (length (shm st) <= length (shm st'))%nat).
  { destruct (Nat.le_gt_cases (length (shm st)) (length (shm st'))) as [|Hc]; [done|].
    destruct (lookup_lt_is_Some_2 (shm st) (length (shm st'))) as [g Hg]; [done|].
    apply Hshm in Hg; [|left; lia]. apply lookup_lt_Some in Hg. lia. }
  split; [split|split; [split; [|split; [|split; [|split]]]|]].
  - intros i ptr Hi. rewrite Ha in Hi. apply list_lookup_insert_Some in Hi as [(-> & <- & _)|[Hne Hi]].
    + right. by left.
    + destruct (W1 _ _ Hi) as [|[[-> ?]|]]; auto. right. left. split; [done|lia].
  - intros i i' Hi Hi'. rewrite Ha in Hi, Hi'.
    apply list_lookup_insert_Some in Hi as [(_ & ? & _)|[_ Hi]]; [done|].
    apply list_lookup_insert_Some in Hi' as [(_ & ? & _)|[_ Hi']]; [done|]. by apply W2.
  - done.
  - by rewrite Hp.
  - rewrite Hs. by destruct (wal st).
  - done.
  - intros i g. unfold view. rewrite Ha, Hmode.
    destruct (decide (i = h)) as [->|Hne].
    + rewrite list_lookup_insert_eq by done. rewrite Hun. cbn.
      destruct (Z.eqb_spec (exclusiveMode (wal st)) WAL_HEAPMEMORY_MODE); [done|].
      intros Hg. apply Hshm; auto.
    + rewrite list_lookup_insert_ne by done.
      destruct (apWiData (wal st) !! i) as [[| |]|] eqn:E; cbn.
      * case_match; [done|]. intros Hg. apply Hshm; auto.
      * destruct (W1 _ _ E) as [|[[[= ->] ?]|]]; [done| |done]. intros Hg. apply Hshm; auto.
      * by rewrite Hp.
      * case_match; [done|]. intros Hg. apply Hshm; auto.
  - intros i ptr Hi Hne. rewrite Ha. destruct (decide (i = h)) as [->|].
    + rewrite Hi in Hun. cbn in Hun. congruence.
    + by rewrite list_lookup_insert_ne.
  - intros i Hi. rewrite Ha in Hi. by apply list_lookup_insert_Some in Hi as [(_ & ? & _)|[_ Hi]].
  - rewrite Ha. by apply list_lookup_insert_eq.
Qed.

(** The pointer of a page that is not mapped stays null. *)
Lemma map_null st st' h :
  wi_wf st -> (h < length (apWiData (wal st)))%nat ->
  default Unmapped (apWiData (wal st) !! h) = Unmapped ->
  apWiData (wal st') = <[h := Unmapped]> (apWiData (wal st)) ->
  wal_same (wal st) (wal st') -> shm st' = shm st -> priv st' = priv st ->
  wi_wf st' /\ view_ext st st'.
Proof.
  intros [W1 W2 W3 W4] Hlt Hun Ha Hs Hm Hp.
  assert (Hin : <[h := Unmapped]> (apWiData (wal st)) = apWiData (wal st)).
  { apply list_insert_id. destruct (lookup_lt_is_Some_2 _ _ Hlt) as [x Hx].
    rewrite Hx in Hun. cbn in Hun. by subst. }
  rewrite Hin in Ha. split; [split; rewrite ?Ha, ?Hm, ?Hp; auto|].
  split; [done|]. split; [done|]. split; [|split; by rewrite Ha].
  intros i g <-. apply view_default; [by rewrite Hs|done|done|by rewrite Ha].
Qed.

(** A connection that may enlarge the index gets a page or an error. *)
Definition page_post (h : nat) (st : wi) (r : Z * wiptr) (st' : wi) : Prop :=
  wi_wf st' /\ view_ext st st' /\
  (snd r <> Unmapped -> apWiData (wal st') !! h = Some (snd r) /\ is_Some (deref st' (snd r))) /\
  (writeLock (wal st) = true -> fst r = SQLITE_OK -> snd r <> Unmapped).

Lemma walIndexPageRealloc_ok h st :
  wi_wf st -> default Unmapped (apWiData (wal st) !! h) = Unmapped ->
  wp (walIndexPageRealloc mallocOk shmRc h) (returns (page_post h st)) st.
Proof.
  intros W Hun. unfold walIndexPageRealloc. eapply wp_seq; [by apply wiData_grow_ok|].
  intros ok s1 (W1 & X1 & Hshm1 & Hlen & Hd). rewrite Hun in Hd.
  destruct ok; cbn [negb]; [|wp_go; by split_and!].
  assert (Hwl : writeLock (wal s1) = writeLock (wal st)).
  { destruct X1 as (-> & _). done. }
  specialize (Hlen eq_refl). do 2 wp_step. unfold after.
  assert (Hgrow : forall i g, shm s1 !! i = Some g -> i <> h ->
    <[h:=zero_page]> (grow_shm (S h) (shm s1)) !! i = Some g).
  { intros i g Hg Hne. rewrite list_lookup_insert_ne by done. by apply grow_shm_lookup. }
  assert (Hpost : forall s' rc, wi_wf s' /\ view_ext s1 s' /\ apWiData (wal s') !! h = Some (Shared h) ->
    page_post h st (rc, Shared h) s').
  { intros s' rc (A & B & C). split; [done|]. split; [by eapply view_ext_trans|].
    split; [|done]. intros _. split; [done|]. cbn.
    destruct (wf_ptr _ A h _ C) as [|[[_ Hl]|]]; [done| |done].
    by apply lookup_lt_is_Some_2. }
  assert (Hnull : forall s' rc, (writeLock (wal s1) = false \/ rc <> SQLITE_OK) ->
    wi_wf s' /\ view_ext s1 s' -> page_post h st (rc, Unmapped) s').
  { intros s' rc Hrc (A & B). split; [done|]. split; [by eapply view_ext_trans|].
    split; [done|]. cbn. rewrite <- Hwl. destruct Hrc; congruence. }
  destruct (Z.eqb_spec (exclusiveMode (wal s1)) WAL_HEAPMEMORY_MODE) as [Hheap|Hheap].
  - wp_step. unfold wp at 1, wi_malloc, after, returns, okp, bind, modify, ret. cbn [fst snd].
    destruct (mallocOk (wreqs s1)).
    + cbn [fst snd]. apply Hpost. apply map_shared; wi_cbn; try done.
      * apply Forall_insert; [|apply zero_page_sized]. apply grow_shm_sized, W1.
      * rewrite length_insert, grow_shm_length. lia.
      * intros i g Hg [Hne|]; [by apply Hgrow|done].
    + cbn. apply Hnull; [by right|]. split; [by destruct W1|]. split; [apply wal_same_refl|done].
  - wp_step. unfold wp at 1, sqlite3OsShmMap, after, returns, okp. cbn [fst snd].
    set (rc := shmRc (wreqs s1)).
    destruct ((rc =? SQLITE_OK) || (rc =? SQLITE_READONLY)) eqn:Hrc;
      [case_bool_decide as Hin; [|destruct (writeLock (wal s1)) eqn:Hw]|]; cbn [fst snd];
      unfold wp, bind, modify, ret; cbn [fst snd];
      (destruct (Z.eqb_spec rc SQLITE_OK); [|destruct (Z.land rc 255 =? SQLITE_READONLY)]); cbn [fst snd].
    all: first [apply Hpost; apply map_shared
               | apply Hnull; [|apply (map_null _ _ h)] ]; wi_cbn.
    all: try done; try (rewrite grow_shm_length; lia); try apply (wf_shm _ W1); try (by apply grow_shm_sized, W1); try (intros i g Hg _; by apply grow_shm_lookup).
    all: first [by left | right; destruct (rc =? SQLITE_READONLY); done].
Qed.

Lemma walIndexPage_ok h st :
  wi_wf st -> wp (walIndexPage mallocOk shmRc h) (returns (page_post h st)) st.
Proof.
  intros W. unfold walIndexPage. do 2 wp_step. unfold after.
  destruct (apWiData (wal st) !! h) as [ptr|] eqn:E; cbn [default].
  2:{ apply walIndexPageRealloc_ok; [done|by rewrite E]. }
  assert (Hd : ptr <> Unmapped -> is_Some (deref st ptr)).
  { intros Hne. destruct (wf_ptr _ W _ _ E) as [|[[-> Hl]| ->]]; [done| |by eexists].
    by apply lookup_lt_is_Some_2. }
  change (default Unmapped (Some ptr)) with ptr.
  destruct ptr; [apply walIndexPageRealloc_ok; [done|by rewrite E]| |];
    wp_go; (split; [done|]; split; [apply view_ext_refl|]; split; [|done];
            intros Hne; split; [done|auto]).
Qed.

(** *** Tables *)

(** First word, first frame and number of frames of table [h]. *)
Definition toff (h : nat) : Z := if decide (h = 0%nat) then 34 else 0.
Definition tzero (h : nat) : Z :=
  if decide (h = 0%nat) then 0 else 4062 + (Z.of_nat h - 1) * 4096.
Definition tsize (h : nat) : Z := 4096 - toff h.

(** Fewer frames than this are in a log. *)
Definition max_frame : Z := 2 ^ 31.

Lemma walHashGet_ok h st :
  wi_wf st -> tzero h < max_frame ->
  wp (walHashGet mallocOk shmRc h)
    (okp (fun st' => wi_wf st' /\ view_ext st st')
      (fun loc st' => wi_wf st' /\ view_ext st st' /\ aPgno loc = toff h /\ iZero loc = tzero h
         /\ apWiData (wal st') !! h = Some (aPage loc)
         /\ exists g, deref st' (aPage loc) = Some g /\ view st' h = Some g)) st.
Proof.
  intros W Hz. unfold walHashGet. apply wp_bind.
  eapply wp_mono; [by apply walIndexPage_ok|]. intros [[rc ptr]|e|] st'; cbn; [|done|done].
  intros (W' & X & Hp & _). cbn [snd] in Hp.
  assert (Hloc : ptr <> Unmapped ->
     wp (if negb (rc =? SQLITE_OK) then fail rc else ret
       (if bool_decide (h = 0%nat) then mkLoc ptr (WALINDEX_HDR_SIZE / 4) 0
        else mkLoc ptr 0 (u32 (HASHTABLE_NPAGE_ONE + (Z.of_nat h - 1) * HASHTABLE_NPAGE))))
    (okp (fun st' => wi_wf st' /\ view_ext st st')
      (fun loc st' => wi_wf st' /\ view_ext st st' /\ aPgno loc = toff h /\ iZero loc = tzero h
         /\ apWiData (wal st') !! h = Some (aPage loc)
         /\ exists g, deref st' (aPage loc) = Some g /\ view st' h = Some g)) st').
  { intros Hne. destruct (Hp Hne) as [Ha [g Hg]].
    case_if; wp_go; [by split|]. cbn [okp].
    split; [done|]. split; [done|].
    assert (Hv : view st' h = Some g).
    { unfold view. rewrite Ha. cbn. by destruct ptr. }
    unfold toff, tzero in *. case_bool_decide; destruct (decide (h = 0%nat)); try done; cbn [aPgno iZero aPage].
    - split; [done|]. split; [done|]. split; [done|eauto].
    - split; [done|]. split; [|split; [done|eauto]].
      unfold HASHTABLE_NPAGE_ONE, HASHTABLE_NPAGE, WALINDEX_HDR_SIZE, max_frame in *.
      change (4096 - 136 / 4) with 4062. apply u32_small. lia. }
  destruct ptr; [|by apply Hloc..].
  wp_go. by split.
Qed.
End Mapping.

(** ** The index of a log *)

Definition tkeys (h : nat) (log : list Z) : list Z :=
  take (Z.to_nat (tsize h)) (drop (Z.to_nat (tzero h)) log).

(** The index of [st] maps the frames of [log], whose pages it lists; the
    frames after [mxFrame] are those of a transaction that is not committed,
    or remnants of one that never was. *)
Record index_ok (log : list Z) (st : wi) : Prop := {
  ix_wf : wi_wf st;
  ix_len : blen log < max_frame;
  ix_keys : Forall (fun k => 0 < k < 2 ^ 32) log;
  ix_table h : tzero h < blen log ->
    exists g, view st h = Some g /\ table_ok (tkeys h log) (toff h) g;
}.

Lemma index_ext log st st' :
  index_ok log st -> wi_wf st' -> view_ext st st' -> index_ok log st'.
Proof.
  intros [A B C D] W (_ & _ & X & _ & _). split; [done|done|done|].
  intros h Hh. destruct (D h Hh) as (g & Hg & T). exists g. split; [by apply X|done].
Qed.

Lemma tzero_S h : tzero (S h) = tzero h + tsize h.
Proof.
  unfold tzero, tsize, toff. destruct (decide (S h = 0%nat)); [done|].
  destruct (decide (h = 0%nat)); subst; lia.
Qed.
Lemma tzero_nonneg h : 0 <= tzero h.
Proof. unfold tzero. case_decide; lia. Qed.
Lemma tsize_pos h : 0 <= toff h /\ 4062 <= tsize h.
Proof. unfold tsize, toff. case_decide; lia. Qed.
Lemma tzero_mono h h' : (h <= h')%nat -> tzero h <= tzero h'.
Proof. unfold tzero. intros. repeat case_decide; lia. Qed.

Lemma walFramePage_spec f :
  1 <= f < max_frame ->
  tzero (walFramePage f) < f <= tzero (walFramePage f) + tsize (walFramePage f).
Proof.
  intros Hf. unfold max_frame in Hf.
  unfold walFramePage, HASHTABLE_NPAGE_ONE, HASHTABLE_NPAGE, WALINDEX_HDR_SIZE.
  change (4096 - 136 / 4) with 4062.
  rewrite u32_small, u64_small by lia.
  unfold tzero, tsize, toff. repeat case_decide; div_lia.
Qed.
Lemma walFramePage_unique h f :
  1 <= f < max_frame -> tzero h < f <= tzero h + tsize h -> walFramePage f = h.
Proof.
  intros Hf Hh. pose proof (walFramePage_spec f Hf) as Hs.
  destruct (Nat.lt_trichotomy (walFramePage f) h) as [Hl|[|Hl]]; [|done|].
  - pose proof (tzero_mono (S (walFramePage f)) h Hl). rewrite tzero_S in H. lia.
  - pose proof (tzero_mono (S h) (walFramePage f) Hl). rewrite tzero_S in H. lia.
Qed.

Lemma tkeys_len h log :
  blen (tkeys h log) = Z.max 0 (Z.min (tsize h) (blen log - tzero h)).
Proof.
  pose proof (tsize_pos h). pose proof (tzero_nonneg h).
  unfold tkeys, blen. rewrite length_take, length_drop. lia.
Qed.
Lemma tkeys_at h log j :
  0 <= j < tsize h -> bat (tkeys h log) j = bat log (tzero h + j).
Proof.
  intros Hj. pose proof (tzero_nonneg h). unfold tkeys, bat.
  destruct (Z.leb_spec 0 j), (Z.leb_spec 0 (tzero h + j)); try lia.
  rewrite lookup_take_lt by lia. rewrite lookup_drop. do 2 f_equal. lia.
Qed.

(** The same frames below [n], and table [h] lies below [n]. *)
Lemma tkeys_below h log log' n :
  tzero h + tsize h <= n -> n <= blen log -> n <= blen log' ->
  (forall i, 0 <= i < n -> bat log i = bat log' i) -> tkeys h log = tkeys h log'.
Proof.
  intros Hn H1 H2 Heq. pose proof (tzero_nonneg h). pose proof (tsize_pos h).
  apply bytes_ext; [rewrite !tkeys_len; lia|]. rewrite tkeys_len. intros i Hi.
  rewrite !tkeys_at by lia. apply Heq. lia.
Qed.

(** *** Writing a page *)

(** The words before the first table are unchanged. *)
Definition hdr_kept (st st' : wi) : Prop :=
  forall g, view st 0%nat = Some g -> exists g', view st' 0%nat = Some g' /\
    forall i, i < toff 0 -> bat (words g') i = bat (words g) i.
(** The connection, the extent of the shared memory and its header are unchanged. *)
Definition kept (st st' : wi) : Prop :=
  wal st' = wal st /\ length (shm st') = length (shm st) /\ hdr_kept st st'.

Lemma hdr_kept_refl st : hdr_kept st st.
Proof. intros g Hg. by exists g. Qed.
Lemma hdr_kept_trans s1 s2 s3 : hdr_kept s1 s2 -> hdr_kept s2 s3 -> hdr_kept s1 s3.
Proof.
  intros A B g Hg. destruct (A g Hg) as (g2 & Hg2 & E). destruct (B g2 Hg2) as (g3 & Hg3 & E').
  exists g3. split; [done|]. intros i Hi. by rewrite E', E.
Qed.
Lemma kept_trans s1 s2 s3 : kept s1 s2 -> kept s2 s3 -> kept s1 s3.
Proof.
  intros (A & B & C) (A' & B' & C'). split; [congruence|]. split; [congruence|]. by eapply hdr_kept_trans.
Qed.

Lemma store_ok st h ptr g :
  wi_wf st -> apWiData (wal st) !! h = Some ptr -> ptr <> Unmapped -> page_sized g ->
  wi_wf (store ptr g st) /\ wal (store ptr g st) = wal st
  /\ view (store ptr g st) h = Some g
  /\ (forall h', h' <> h -> view (store ptr g st) h' = view st h').
Proof.
  intros [W1 W2 W3 W4] Ha Hne Hg.
  destruct (W1 _ _ Ha) as [|[[-> Hl]| ->]]; [done|..]; cbn [store].
  - split; [split; cbn; [|done|by apply Forall_insert|done]|].
    { intros i ptr Hi. rewrite length_insert. by apply W1. }
    split; [done|]. unfold view. wi_cbn. rewrite Ha. cbn. split; [by apply list_lookup_insert_eq|].
    intros h' Hh. destruct (apWiData (wal st) !! h') as [[| |]|] eqn:E; cbn.
    + by rewrite list_lookup_insert_ne.
    + destruct (W1 _ _ E) as [|[[[= ->] ?]|]]; [done| |done]. by rewrite list_lookup_insert_ne.
    + done.
    + by rewrite list_lookup_insert_ne.
  - split; [by split|]. split; [done|]. unfold view. wi_cbn. rewrite Ha. cbn. split; [done|].
    intros h' Hh. destruct (apWiData (wal st) !! h') as [[| |]|] eqn:E; cbn; try done.
    by destruct (Hh (W2 _ _ E Ha)).
Qed.

Lemma kept_store st h ptr g g' :
  wi_wf st -> apWiData (wal st) !! h = Some ptr -> ptr <> Unmapped -> view st h = Some g ->
  page_sized g' -> (forall i, i < toff h -> bat (words g') i = bat (words g) i) ->
  kept st (store ptr g' st).
Proof.
  intros W Ha Hne Hg Hs Hat. destruct (store_ok st h ptr g' W Ha Hne Hs) as (_ & Hw & Hv & Ho).
  split; [done|]. split; [destruct ptr; cbn; [done|apply length_insert|done]|].
  intros g0 Hg0. destruct (decide (h = 0%nat)) as [->|Hne0].
  - exists g'. split; [done|]. by assert (g0 = g) as -> by congruence.
  - exists g0. by rewrite Ho.
Qed.

Lemma index_store log log' st st' h g :
  index_ok log st -> wi_wf st' -> view st' h = Some g ->
  (forall h', h' <> h -> view st' h' = view st h') ->
  table_ok (tkeys h log') (toff h) g ->
  blen log' < max_frame -> Forall (fun k => 0 < k < 2 ^ 32) log' ->
  (forall h', h' <> h -> tzero h' < blen log' ->
     tzero h' < blen log /\ tkeys h' log = tkeys h' log') ->
  index_ok log' st'.
Proof.
  intros [A B C D] W Hh Hoth T Hl Hk Hsame. split; [done|done|done|].
  intros h' Hlt. destruct (decide (h' = h)) as [->|Hne]; [eauto|].
  destruct (Hsame h' Hne Hlt) as [Hlt' <-]. rewrite Hoth by done. by apply D.
Qed.

(** *** Lookup *)

Section Ops.
Context (mallocOk : nat -> bool) (shmRc : nat -> Z).

Lemma is_last_outer log h lo hi k r :
  is_last (tkeys h log) (tzero h) lo hi k r -> r <> 0 ->
  (forall f, lo <= f -> tzero h + tsize h < f <= hi -> bat log (f - 1) <> k) ->
  is_last log 0 lo hi k r.
Proof.
  intros [[-> _]|(j & Hj & -> & Hb & Hk & Hlast)]; [done|]. intros _ Hout.
  pose proof (tzero_nonneg h). rewrite tkeys_len in Hj, Hlast.
  rewrite tkeys_at in Hk by lia. right. exists (tzero h + j).
  split_and!; [lia|lia|lia|lia|lia|done|].
  intros j' Hj' Hb' Hk'. destruct (Z.le_gt_cases (j' - tzero h + 1) (tsize h)).
  - apply (Hlast (j' - tzero h)); [lia|lia|]. rewrite tkeys_at by lia.
    by replace (tzero h + (j' - tzero h)) with j' by lia.
  - apply (Hout (j' + 1)); [lia|lia|]. by replace (j' + 1 - 1) with j' by lia.
Qed.

Lemma tables_loop_ok log lo hi k L n iHash st :
  index_ok log st -> 0 <= hi <= blen log ->
  ((0 < n)%nat -> iHash = (L + n - 1)%nat /\ tzero iHash < hi) -> tzero L < lo ->
  (forall f, lo <= f -> tzero (L + n) < f <= hi -> bat log (f - 1) <> k) ->
  wp (tables_loop mallocOk shmRc n k hi lo iHash L)
    (okp (fun st' => index_ok log st' /\ view_ext st st')
      (fun r st' => index_ok log st' /\ view_ext st st' /\ is_last log 0 lo hi k r)) st.
Proof.
  intros I Hhi. revert iHash st I. induction n as [|n IH]; intros iHash st I Hi Hlo Hout.
  - cbn [tables_loop]. wp_go. cbn. split; [done|]. split; [apply view_ext_refl|].
    left. split; [done|]. intros j Hj Hb Hk. rewrite Nat.add_0_r in Hout.
    apply (Hout (j + 1)); [lia|lia|]. by replace (j + 1 - 1) with j by lia.
  - destruct (Hi ltac:(lia)) as [-> Hz]. clear Hi. set (h := (L + S n - 1)%nat) in *.
    assert (Htop : tzero h + tsize h = tzero (L + S n)) by (rewrite <- tzero_S; f_equal; lia).
    cbn [tables_loop]. eapply wp_seq.
    { eapply wp_mono; [apply walHashGet_ok; [apply I|destruct I; lia]|].
      intros [loc|e|] st'; cbn; [intros H; exact H| |done].
      intros [W X]. split; [by eapply index_ext|done]. }
    cbn beta. intros loc s1 (W & X & Hpg & Hiz & Ha & g & Hd & Hv).
    assert (I1 : index_ok log s1) by (by eapply index_ext).
    destruct (ix_table _ _ I1 h) as (g' & Hg' & T); [lia|].
    assert (g' = g) as -> by congruence.
    do 2 wp_step. unfold after. change (id s1) with s1. rewrite Hd. do 2 wp_step. unfold after.
    pose proof (tzero_nonneg h). pose proof (ix_len _ _ I1).
    destruct (table_find _ _ _ T loc lo hi k) as (r & E & Hr);
      [done|rewrite Hiz; unfold max_frame, HASHTABLE_NPAGE in *; lia|].
    rewrite E. do 2 wp_step. unfold after. rewrite Hiz in Hr.
    destruct (Z.eqb_spec r 0) as [->|Hr0]; cbn [negb].
    + eapply wp_mono.
      { apply IH; [done| |done|].
        - intros Hn. split; [lia|]. pose proof (tzero_mono (pred h) h ltac:(lia)). lia.
        - intros f Hlof Hf Hk. destruct (Z.le_gt_cases f (tzero h + tsize h)) as [Hle|Hgt].
          + destruct Hr as [[_ Hr]|(j & Hj & Hr & _)]; [|lia].
            assert (tzero (L + n) = tzero h) by (f_equal; lia).
            apply (Hr (f - tzero h - 1)); [rewrite tkeys_len; lia|lia|].
            rewrite tkeys_at by lia. rewrite <- Hk. f_equal. lia.
          + apply (Hout f); [lia|lia|done]. }
      intros [r|e|] s2; cbn; [|intros [A B]|done].
      * intros (A & B & C). split; [done|]. split; [by eapply view_ext_trans|done].
      * split; [done|by eapply view_ext_trans].
    + wp_go. cbn. split; [done|]. split; [done|]. eapply is_last_outer; [done|done|].
      intros f Hlof Hf. apply Hout; lia.
Qed.

(** A lookup gives the last frame of the reader's snapshot, [minFrame] to
    [mxFrame], that holds the page, whatever was appended after it. *)
Lemma walFindFrame_ok log k st :
  index_ok log st ->
  mxFrame (hdr (wal st)) <= blen log -> 0 <= mxFrame (hdr (wal st)) ->
  1 <= minFrame (wal st) < max_frame ->
  wp (walFindFrame mallocOk shmRc k)
    (okp (fun st' => index_ok log st' /\ view_ext st st')
      (fun r st' => index_ok log st' /\ view_ext st st' /\
         if (readLock (wal st) =? 0) && negb (bShmUnreliable (wal st)) then r = 0
         else is_last log 0 (minFrame (wal st)) (mxFrame (hdr (wal st))) k r)) st.
Proof.
  intros I Hmx Hmx0 Hmin. unfold walFindFrame. do 2 wp_step. unfold after.
  set (mx := mxFrame (hdr (wal st))) in *. set (mn := minFrame (wal st)) in *.
  destruct ((readLock (wal st) =? 0) && negb (bShmUnreliable (wal st))).
  { rewrite orb_true_r. wp_go. cbn. split; [done|]. split; [apply view_ext_refl|done]. }
  rewrite orb_false_r. destruct (Z.eqb_spec mx 0) as [E|E].
  { wp_go. cbn. split; [done|]. split; [apply view_ext_refl|]. left. split; [done|lia]. }
  pose proof (ix_len _ _ I).
  pose proof (walFramePage_spec mx ltac:(lia)) as Hh.
  pose proof (walFramePage_spec mn Hmin) as Hl.
  apply tables_loop_ok; [done|lia| |lia|].
  - intros Hn. split; [lia|lia].
  - intros f Hlo Hf. exfalso.
    pose proof (tzero_mono (S (walFramePage mx)) (walFramePage mn + (S (walFramePage mx) - walFramePage mn)) ltac:(lia)).
    rewrite tzero_S in H0. lia.
Qed.

(** *** Rolling back and appending *)

Lemma walHashGet_mapped h ptr st :
  apWiData (wal st) !! h = Some ptr -> ptr <> Unmapped -> tzero h < max_frame ->
  walHashGet mallocOk shmRc h st = (Ret (mkLoc ptr (toff h) (tzero h)), st).
Proof.
  intros Ha Hne Hz. unfold walHashGet, walIndexPage, bind, gets. rewrite Ha. cbn [default].
  change (default Unmapped (Some ptr)) with ptr.
  assert (E : u32 (HASHTABLE_NPAGE_ONE + (Z.of_nat h - 1) * HASHTABLE_NPAGE)
              = if decide (h = 0%nat) then u32 (-34) else tzero h).
  { unfold HASHTABLE_NPAGE_ONE, HASHTABLE_NPAGE, WALINDEX_HDR_SIZE, max_frame, tzero in *.
    change (4096 - 136 / 4) with 4062. case_decide; [by subst|]. apply u32_small. lia. }
  rewrite E. destruct ptr; [done|..]; cbn; unfold ret, toff, tzero; repeat case_decide;
    case_bool_decide; done || congruence.
Qed.

Lemma deref_view st h ptr g :
  apWiData (wal st) !! h = Some ptr -> ptr <> Unmapped -> view st h = Some g ->
  deref st ptr = Some g.
Proof. unfold view. intros -> Hne. cbn. by destruct ptr. Qed.

Lemma view_sized st h g : wi_wf st -> view st h = Some g -> page_sized g.
Proof.
  intros [W1 W2 W3 W4]. unfold view.
  assert (Hs : forall i, shm st !! i = Some g -> page_sized g).
  { intros i Hi. by eapply Forall_lookup_1 in W3. }
  destruct (default Unmapped (apWiData (wal st) !! h)); cbn.
  - case_match; [done|]. apply Hs.
  - apply Hs.
  - by intros [= <-].
Qed.

Lemma table_page_sized ks off g : table_ok ks off g -> page_sized g.
Proof. intros T. split; apply T. Qed.

Lemma Forall_take_snoc (P : Z -> Prop) n l x :
  Forall P l -> P x -> Forall P (take n l ++ [x]).
Proof.
  intros Hl Hx. apply Forall_app. split; [by apply Forall_take|by apply list.Forall_cons].
Qed.

Lemma tkeys_take h log n :
  tzero h <= n <= blen log -> n <= tzero h + tsize h ->
  tkeys h (take (Z.to_nat n) log) = take (Z.to_nat (n - tzero h)) (tkeys h log).
Proof.
  intros Hn Hle. pose proof (tzero_nonneg h). pose proof (tsize_pos h).
  apply bytes_ext.
  - rewrite tkeys_len, !blen_take by (rewrite ?tkeys_len; lia). lia.
  - rewrite tkeys_len, blen_take by lia. intros i Hi.
    rewrite tkeys_at, !bat_take, tkeys_at by lia. done.
Qed.

Lemma bzero_below d off n d' i : bzero d off n = Some d' -> i < off -> bat d' i = bat d i.
Proof.
  unfold bzero. destruct (Z.leb_spec 0 n); [|done]. intros E Hi. rewrite (blit_at _ _ _ _ _ E).
  destruct (Z.leb_spec off i); [lia|done].
Qed.

Lemma cleanup_table log h g w n :
  table_ok (tkeys h log) (toff h) g -> tzero h <= n <= blen log -> n <= tzero h + tsize h ->
  bzero (words g) (toff h + (n - tzero h)) (HASHTABLE_NPAGE - (toff h + (n - tzero h))) = Some w ->
  table_ok (tkeys h (take (Z.to_nat n) log)) (toff h) (mkPage w (clear_slots (n - tzero h) (slots g))).
Proof.
  intros T Hn Hle E. rewrite tkeys_take by done.
  apply table_cleanup; [done|rewrite tkeys_len; lia|done].
Qed.

(** Removing the frames after [mxFrame] from the index. *)
Lemma walCleanupHash_ok log st ptr :
  let mx := mxFrame (hdr (wal st)) in
  index_ok log st -> 0 < mx <= blen log ->
  apWiData (wal st) !! walFramePage mx = Some ptr -> ptr <> Unmapped ->
  wp (walCleanupHash mallocOk shmRc) (returns (fun _ st' =>
    index_ok (take (Z.to_nat mx) log) st' /\ kept st st')) st.
Proof.
  intros mx I Hmx Ha Hne. unfold walCleanupHash. do 2 wp_step. unfold after. fold mx.
  destruct (Z.eqb_spec mx 0); [lia|].
  pose proof (ix_len _ _ I). pose proof (walFramePage_spec mx ltac:(lia)) as Hh.
  set (h := walFramePage mx) in *. pose proof (tsize_pos h). pose proof (tzero_nonneg h).
  unfold wp. rewrite (walHashGet_mapped h ptr st) by (done || lia).
  cbn [aPage aPgno iZero].
  destruct (ix_table _ _ I h) as (g & Hg & T); [lia|].
  rewrite (deref_view st h ptr g) by done.
  change (wp (let* g := lift (Some g) in
    let* w := lift (bzero (words g) (toff h + (mx - tzero h)) (HASHTABLE_NPAGE - (toff h + (mx - tzero h)))) in
    modify (store ptr (mkPage w (clear_slots (mx - tzero h) (slots g)))))
    (returns (fun _ st' => index_ok (take (Z.to_nat mx) log) st' /\ kept st st')) st).
  do 2 wp_step. unfold after.
  assert (exists w, bzero (words g) (toff h + (mx - tzero h)) (HASHTABLE_NPAGE - (toff h + (mx - tzero h))) = Some w) as [w E].
  { unfold bzero, tsize, HASHTABLE_NPAGE in *. destruct (Z.leb_spec 0 (4096 - (toff h + (mx - tzero h)))); [|lia].
    apply blit_in; [lia|]. rewrite zeros_len, (t_words _ _ _ T) by lia. unfold HASHTABLE_NPAGE. lia. }
  rewrite E. do 2 wp_step. unfold after. wp_step. cbn [returns okp].
  pose proof (cleanup_table log h g w mx T ltac:(lia) ltac:(lia) E) as T'.
  destruct (store_ok st h ptr (mkPage w (clear_slots (mx - tzero h) (slots g)))) as (W & Hw & Hv & Ho);
    [apply I|done|done|by eapply table_page_sized|].
  split.
  2:{ eapply (kept_store st h ptr g); [apply I|done|done|done|by eapply table_page_sized|].
      intros i Hi. cbn [words]. eapply bzero_below; [exact E|lia]. }
  eapply (index_store log); [done|done|exact Hv|done|done|..].
  - rewrite blen_take; lia.
  - apply Forall_take, I.
  - rewrite blen_take by lia. intros h' Hne' Hlt.
    split; [lia|]. assert (Hlt' : (h' < h)%nat).
    { destruct (Nat.le_gt_cases h h') as [Hle|]; [|done].
      pose proof (tzero_mono (S h) h' ltac:(lia)). rewrite tzero_S in H2. lia. }
    pose proof (tzero_mono (S h') h Hlt'). rewrite tzero_S in H2.
    apply (tkeys_below h' _ _ mx); [lia|lia|rewrite blen_take; lia|].
    intros i Hi. by rewrite bat_take by lia.
Qed.

Lemma append_entry_ok ks h ptr g k st :
  wi_wf st -> apWiData (wal st) !! h = Some ptr -> ptr <> Unmapped ->
  view st h = Some g -> table_ok ks (toff h) g -> blen ks < tsize h ->
  wp (append_entry (mkLoc ptr (toff h) (tzero h)) (blen ks + 1) k)
    (returns (fun _ st' => wi_wf st' /\ kept st st'
      /\ (exists g', view st' h = Some g' /\ table_ok (ks ++ [k]) (toff h) g')
      /\ (forall h', h' <> h -> view st' h' = view st h'))) st.
Proof.
  intros W Ha Hne Hv T Hcap. pose proof (tsize_pos h). pose proof (blen_nonneg ks).
  destruct (first_free ks (toff h) g T k) as (e & He & He0 & Hnz).
  assert (Hc : toff h + blen ks < HASHTABLE_NPAGE) by (unfold tsize, HASHTABLE_NPAGE in *; lia).
  assert (He' : e < HASHTABLE_NSLOT) by (unfold HASHTABLE_NSLOT, HASHTABLE_NPAGE in *; lia).
  unfold append_entry. cbn [aPage aPgno]. do 2 wp_step. unfold after. change (id st) with st.
  rewrite (deref_view st h ptr g) by done. do 2 wp_step. unfold after.
  rewrite <- pos_0, (append_loop_ok ks (toff h) g T k e 0) by (done || lia).
  do 2 wp_step. unfold after. replace (blen ks + 1 - 1) with (blen ks) by lia.
  rewrite land_pages, Z.mod_small by lia.
  rewrite u16_small by (unfold HASHTABLE_NPAGE in *; lia).
  destruct (aset_in (words g) (toff h + blen ks) k) as [w Ew]; [rewrite (t_words _ _ _ T); lia|].
  destruct (aset_in (slots g) (pos k e) (blen ks + 1)) as [s Es];
    [rewrite (t_slots _ _ _ T); apply pos_range|].
  rewrite Ew. do 2 wp_step. unfold after. rewrite Es. do 2 wp_step. unfold after. wp_step.
  pose proof (table_append ks (toff h) g k e w s T Hc ltac:(lia) He0 He' Hnz Ew Es) as T'.
  destruct (store_ok st h ptr (mkPage w s)) as (W' & Hw & Hv' & Ho);
    [done|done|done|by eapply table_page_sized|].
  cbn [returns okp]. split; [done|]. split; [|eauto].
  eapply (kept_store st h ptr g); [done..|by eapply table_page_sized|].
  intros i Hi. cbn [words]. rewrite (aset_at _ _ _ _ _ Ew). destruct (Z.eqb_spec i (toff h + blen ks)); [lia|done].
Qed.

(** The frames of other tables, below [n], when table [h] is the one of
    frame [n + 1]. *)
Lemma other_tables h h' n log log' :
  tzero h <= n -> n <= blen log -> n <= blen log' <= tzero h + tsize h ->
  (forall i, 0 <= i < n -> bat log i = bat log' i) ->
  h' <> h -> tzero h' < blen log' ->
  tzero h' < blen log /\ tkeys h' log = tkeys h' log'.
Proof.
  intros Hz Hn Hn' Heq Hne Hlt.
  assert (Hl : (h' < h)%nat).
  { destruct (Nat.le_gt_cases h h') as [Hle|]; [|done].
    pose proof (tzero_mono (S h) h' ltac:(lia)) as Hm. rewrite tzero_S in Hm. lia. }
  pose proof (tzero_mono (S h') h Hl) as Hm. rewrite tzero_S in Hm.
  pose proof (tsize_pos h'). split; [lia|]. apply (tkeys_below h' _ _ n); lia || done.
Qed.

Lemma clear_table_ok log h ptr n st :
  index_ok log st -> apWiData (wal st) !! h = Some ptr -> ptr <> Unmapped ->
  is_Some (view st h) -> n = tzero h -> n <= blen log ->
  wp (clear_table (mkLoc ptr (toff h) (tzero h)))
    (returns (fun _ st' => kept st st' /\ index_ok (take (Z.to_nat n) log) st'
      /\ exists g, view st' h = Some g /\ table_ok [] (toff h) g)) st.
Proof.
  intros I Ha Hne [g Hg] -> Hn. pose proof (tsize_pos h). pose proof (tzero_nonneg h).
  pose proof (view_sized _ _ _ (ix_wf _ _ I) Hg) as [Hw Hs].
  unfold clear_table. cbn [aPage aPgno]. do 2 wp_step. unfold after. change (id st) with st.
  rewrite (deref_view st h ptr g) by done. do 2 wp_step. unfold after.
  assert (exists w, bzero (words g) (toff h) (HASHTABLE_NPAGE - toff h) = Some w) as [w E].
  { unfold bzero, tsize, HASHTABLE_NPAGE in *. destruct (Z.leb_spec 0 (4096 - toff h)); [|lia].
    apply blit_in; [lia|]. rewrite zeros_len; lia. }
  rewrite E. do 2 wp_step. unfold after. wp_step.
  pose proof (table_empty (toff h) g w Hw ltac:(unfold tsize, HASHTABLE_NPAGE in *; lia) E) as T'.
  destruct (store_ok st h ptr (mkPage w (zeros HASHTABLE_NSLOT))) as (W & Hwal & Hv & Ho);
    [apply I|done|done|by eapply table_page_sized|].
  cbn [returns okp]. split.
  { eapply (kept_store st h ptr g); [apply I|done|done|done|by eapply table_page_sized|].
    intros i Hi. cbn [words]. eapply bzero_below; [exact E|lia]. }
  split; [|eauto].
  eapply (index_store log); [done|done|exact Hv|done|..].
  - rewrite tkeys_take, Z.sub_diag by lia. by rewrite take_0.
  - rewrite blen_take by lia. pose proof (ix_len _ _ I). lia.
  - apply Forall_take, I.
  - intros h' Hne' Hlt. apply (other_tables h h' (tzero h)); try rewrite blen_take; try lia; try done.
    + intros i Hi. by rewrite bat_take by lia.
    + rewrite blen_take in Hlt; lia.
Qed.

Lemma append_finish h ptr g n log k st :
  index_ok log st -> apWiData (wal st) !! h = Some ptr -> ptr <> Unmapped ->
  view st h = Some g -> table_ok (tkeys h log) (toff h) g ->
  n = blen log -> tzero h <= n < tzero h + tsize h -> n + 1 < max_frame -> 0 < k < 2 ^ 32 ->
  wp (append_entry (mkLoc ptr (toff h) (tzero h)) (n + 1 - tzero h) k)
    (returns (fun _ st' => index_ok (log ++ [k]) st' /\ kept st st')) st.
Proof.
  intros I Ha Hne Hv T -> Hn Hmax Hk.
  assert (Hlen : blen (tkeys h log) = blen log - tzero h) by (rewrite tkeys_len; lia).
  replace (blen log + 1 - tzero h) with (blen (tkeys h log) + 1) by lia.
  eapply okp_mono; [eapply append_entry_ok; (done || apply I || lia)|].
  cbn beta. intros _ s' (W & Hw & (g' & Hv' & T') & Ho). split; [|done].
  assert (Hat : forall i, i < blen log -> bat log i = bat (log ++ [k]) i).
  { intros i Hi. by rewrite bat_app_l by lia. }
  pose proof (tzero_nonneg h). pose proof (tsize_pos h).
  eapply (index_store log); [done|done|exact Hv'|done|..].
  - replace (tkeys h (log ++ [k])) with (tkeys h log ++ [k]); [done|].
    apply bytes_ext; [rewrite blen_snoc, !tkeys_len, blen_snoc; lia|].
    rewrite blen_snoc, Hlen. intros i Hi. rewrite tkeys_at by lia.
    destruct (decide (i = blen log - tzero h)) as [->|].
    + rewrite <- Hlen at 1. rewrite bat_snoc.
      replace (tzero h + (blen log - tzero h)) with (blen log) by lia. by rewrite bat_snoc.
    + rewrite bat_app_l, tkeys_at by lia. apply Hat. lia.
  - rewrite blen_snoc. lia.
  - apply Forall_app. split; [apply I|by apply list.Forall_cons].
  - intros h' Hne'. apply (other_tables h h' (blen log)); rewrite ?blen_snoc; try lia; try done.
    intros i Hi. apply Hat. lia.
Qed.

(** The part of [walIndexAppend] that follows the clearing of the table. *)
Definition append_tail (sLoc : WalHashLoc) (idx iPage : Z) : M wi unit :=
  let* st := gets id in
  let* g := lift (deref st (aPage sLoc)) in
  let* old := lift (bget (words g) (aPgno sLoc + (idx - 1))) in
  (if negb (old =? 0) then walCleanupHash mallocOk shmRc else ret tt) ;;*
  append_entry sLoc idx iPage.

Lemma append_tail_clean h ptr g n log k st :
  index_ok log st -> apWiData (wal st) !! h = Some ptr -> ptr <> Unmapped ->
  view st h = Some g -> table_ok (tkeys h log) (toff h) g ->
  n = blen log -> tzero h <= n < tzero h + tsize h -> n + 1 < max_frame -> 0 < k < 2 ^ 32 ->
  wp (append_tail (mkLoc ptr (toff h) (tzero h)) (n + 1 - tzero h) k)
    (returns (fun _ st' => index_ok (log ++ [k]) st' /\ kept st st')) st.
Proof.
  intros I Ha Hne Hv T Hn Hr Hmax Hk. unfold append_tail. cbn [aPage aPgno iZero].
  do 2 wp_step. unfold after. change (id st) with st.
  rewrite (deref_view st h ptr g) by done. do 2 wp_step. unfold after.
  replace (toff h + (n + 1 - tzero h - 1)) with (toff h + (n - tzero h)) by lia.
  pose proof (tsize_pos h). unfold tsize in *.
  rewrite bget_in by (rewrite (t_words _ _ _ T); unfold HASHTABLE_NPAGE in *; lia).
  do 2 wp_step. unfold after.
  rewrite (t_zero _ _ _ T) by (rewrite tkeys_len, <- Hn; unfold tsize, HASHTABLE_NPAGE; lia).
  cbn [Z.eqb negb]. do 2 wp_step. unfold after. eapply append_finish; try done; unfold tsize; lia.
Qed.

(** Entry [n + 1] is taken by a remnant: it is removed first. *)
Lemma append_tail_remnant h ptr n log k st :
  index_ok log st -> apWiData (wal st) !! h = Some ptr -> ptr <> Unmapped ->
  tzero h < n -> n < blen log -> n < tzero h + tsize h -> n = mxFrame (hdr (wal st)) ->
  n + 1 < max_frame -> 0 < k < 2 ^ 32 ->
  wp (append_tail (mkLoc ptr (toff h) (tzero h)) (n + 1 - tzero h) k)
    (returns (fun _ st' => index_ok (take (Z.to_nat n) log ++ [k]) st' /\ kept st st')) st.
Proof.
  intros I Ha Hne Hz Hlt Hr Hmx Hmax Hk. unfold append_tail. cbn [aPage aPgno iZero].
  pose proof (tsize_pos h). pose proof (tzero_nonneg h).
  destruct (ix_table _ _ I h) as (g & Hg & T); [lia|].
  do 2 wp_step. unfold after. change (id st) with st. rewrite (deref_view st h ptr g) by done.
  do 2 wp_step. unfold after.
  rewrite bget_in by (rewrite (t_words _ _ _ T); unfold tsize, HASHTABLE_NPAGE in *; lia).
  do 2 wp_step. unfold after.
  replace (toff h + (n + 1 - tzero h - 1)) with (toff h + (n - tzero h)) by lia.
  rewrite (t_key _ _ _ T), tkeys_at by (rewrite ?tkeys_len; lia).
  replace (tzero h + (n - tzero h)) with n by lia.
  assert (Hkn : 0 < bat log n).
  { pose proof (ix_keys _ _ I) as Hks. unfold bat. destruct (Z.leb_spec 0 n); [|lia].
    destruct (lookup_lt_is_Some_2 log (Z.to_nat n)) as [x Hx]; [unfold blen in *; lia|].
    rewrite Hx. cbn. eapply Forall_lookup_1 in Hks; [|done]. cbn in Hks. lia. }
  destruct (Z.eqb_spec (bat log n) 0); [lia|]. cbn [negb].
  assert (Hpage : walFramePage n = h) by (apply walFramePage_unique; lia).
  assert (Hlen : blen (take (Z.to_nat n) log) = n) by (apply blen_take; lia).
  eapply wp_seq.
  { eapply returns_okp;
      [apply (walCleanupHash_ok log st ptr); rewrite <- ?Hmx, ?Hpage; done || lia|].
    intros ? s2 H2. exact H2. }
  cbn beta. intros _ s2 [I2 K2]. pose proof K2 as [Hw2 _]. rewrite <- Hmx in I2.
  destruct (ix_table _ _ I2 h) as (g2 & Hg2 & T2); [rewrite Hlen; lia|].
  eapply okp_mono; [eapply append_finish; rewrite ?Hw2; try done; lia|].
  cbn beta. intros _ s3 [I3 Hk3]. split; [done|]. by eapply kept_trans.
Qed.

(** Appending frame [n + 1] to a table that is mapped: what the index held
    after frame [n] is dropped. *)
Lemma append_mapped log n k st ptr :
  let h := walFramePage (n + 1) in
  index_ok log st -> 0 <= n <= blen log -> n + 1 < max_frame -> 0 < k < 2 ^ 32 ->
  n = blen log \/ n = mxFrame (hdr (wal st)) ->
  apWiData (wal st) !! h = Some ptr -> ptr <> Unmapped -> is_Some (view st h) ->
  wp (walIndexAppend mallocOk shmRc (n + 1) k)
    (returns (fun _ st' => index_ok (take (Z.to_nat n) log ++ [k]) st' /\ kept st st')) st.
Proof.
  intros h I Hn Hmax Hk Hcase Ha Hne Hv.
  pose proof (walFramePage_spec (n + 1) ltac:(lia)) as Hh. fold h in Hh.
  assert (Hlen : blen (take (Z.to_nat n) log) = n) by (by apply blen_take).
  unfold walIndexAppend. fold h. wp_step. unfold wp at 1.
  rewrite (walHashGet_mapped h ptr st) by (done || lia). cbn [fst snd after aPgno iZero].
  change (wp ((if n + 1 - tzero h =? 1 then clear_table (mkLoc ptr (toff h) (tzero h)) else ret tt) ;;*
    append_tail (mkLoc ptr (toff h) (tzero h)) (n + 1 - tzero h) k)
    (returns (fun _ st' => index_ok (take (Z.to_nat n) log ++ [k]) st' /\ kept st st')) st).
  destruct (Z.eqb_spec (n + 1 - tzero h) 1) as [E1|E1].
  - eapply wp_seq.
    { eapply returns_okp; [apply (clear_table_ok log h ptr n); try done; lia|].
      intros ? s2 H. exact H. }
    cbn beta. intros _ s2 (Hk2 & I2 & g2 & Hv2 & T2). eapply okp_mono.
    { eapply (append_tail_clean h ptr g2 n (take (Z.to_nat n) log)); try done; try lia.
      - destruct Hk2 as [-> _]. done.
      - replace (tkeys h (take (Z.to_nat n) log)) with ([] : list Z); [done|].
        symmetry. apply nil_length_inv. pose proof (tkeys_len h (take (Z.to_nat n) log)) as Hl.
        rewrite Hlen in Hl. unfold blen in Hl. lia. }
    cbn beta. intros _ s3 [I3 Hk3]. split; [done|]. by eapply kept_trans.
  - do 2 wp_step. unfold after.
    destruct (decide (n = blen log)) as [Hnl|Hnl].
    + assert (Htl : take (Z.to_nat n) log = log).
      { rewrite Hnl. unfold blen. rewrite Nat2Z.id. apply firstn_all. }
      rewrite Htl. destruct (ix_table _ _ I h) as (g & Hg & T); [lia|].
      eapply append_tail_clean; try done; lia.
    + destruct Hcase as [|Hcase]; [done|]. apply append_tail_remnant; try done; lia.
Qed.

(** No page is moved to private memory. *)
Definition no_private_added (st st' : wi) : Prop :=
  forall h, apWiData (wal st') !! h = Some Private -> apWiData (wal st) !! h = Some Private.

Definition ptr_kept (st st' : wi) : Prop :=
  forall h ptr, apWiData (wal st) !! h = Some ptr -> ptr <> Unmapped -> apWiData (wal st') !! h = Some ptr.

(** Page [h] is mapped by the connection. *)
Definition mapped (h : nat) (st : wi) : Prop :=
  exists ptr, apWiData (wal st) !! h = Some ptr /\ ptr <> Unmapped.
Lemma mapped_kept h st st' : ptr_kept st st' -> mapped h st -> mapped h st'.
Proof. intros K (ptr & H1 & H2). exists ptr. split; [by apply K|done]. Qed.

Lemma view_ext_hdr st st' : view_ext st st' -> hdr_kept st st'.
Proof. intros X g Hg. exists g. split; [by apply X|done]. Qed.
Lemma kept_view st st' h : kept st st' -> is_Some (view st h) -> is_Some (view st' h).
Proof.
  intros (Hw & Hl & _). unfold view. rewrite Hw.
  assert (Hs : forall i, is_Some (shm st !! i) -> is_Some (shm st' !! i)).
  { intros i. rewrite !lookup_lt_is_Some. lia. }
  destruct (default Unmapped (apWiData (wal st) !! h)); cbn; [case_match; [done|]| |]; auto.
Qed.

(** Appending in general: mapping the page may fail, nothing else. *)
Lemma walIndexAppend_ok log n k st :
  index_ok log st -> 0 <= n <= blen log -> n + 1 < max_frame -> 0 < k < 2 ^ 32 ->
  n = blen log \/ n = mxFrame (hdr (wal st)) ->
  wp (walIndexAppend mallocOk shmRc (n + 1) k)
    (okp (fun st' => index_ok log st' /\ view_ext st st')
      (fun _ st' => index_ok (take (Z.to_nat n) log ++ [k]) st' /\ wal_same (wal st) (wal st')
         /\ no_private_added st st' /\ (forall h, is_Some (view st h) -> is_Some (view st' h))
         /\ hdr_kept st st' /\ ptr_kept st st' /\ mapped (walFramePage (n + 1)) st')) st.
Proof.
  intros I Hn Hmax Hk Hcase.
  pose proof (walFramePage_spec (n + 1) ltac:(lia)) as Hh.
  pose proof (walHashGet_ok mallocOk shmRc (walFramePage (n + 1)) st (ix_wf _ _ I) ltac:(lia)) as Hget.
  unfold wp in Hget. unfold walIndexAppend. apply wp_bind. unfold wp at 1.
  destruct (walHashGet mallocOk shmRc (walFramePage (n + 1)) st) as [[loc|e|] s1] eqn:E;
    cbn [fst snd okp after] in Hget |- *;
    [|destruct Hget as [W X]; split; [by eapply index_ext|done]|done].
  destruct Hget as (W & X & Hpg & Hiz & Ha & g & Hd & Hv).
  assert (I1 : index_ok log s1) by (by eapply index_ext).
  assert (Hne : aPage loc <> Unmapped) by (intros Hu; by rewrite Hu in Hd).
  assert (Hwal : wal_same (wal st) (wal s1)) by apply X.
  assert (HA : wp (walIndexAppend mallocOk shmRc (n + 1) k) (returns (fun _ st' =>
    index_ok (take (Z.to_nat n) log ++ [k]) st' /\ kept s1 st')) s1).
  { apply (append_mapped log n k s1 (aPage loc)); try done.
    destruct Hcase as [|Hcase]; [by left|right]. rewrite Hcase. by rewrite Hwal. }
  apply wp_bind_inv in HA. unfold wp at 1 in HA.
  rewrite (walHashGet_mapped _ (aPage loc) s1) in HA by (done || lia).
  replace (mkLoc (aPage loc) (toff (walFramePage (n + 1))) (tzero (walFramePage (n + 1)))) with loc in HA
    by (destruct loc; cbn in *; by subst).
  cbn [fst snd after] in HA. eapply wp_mono; [exact HA|].
  intros [[]|e|] s2; cbn; [|done|done]. intros [I2 K2]. pose proof K2 as [Hw2 _].
  split; [done|]. split; [by rewrite Hw2|]. split.
  - unfold no_private_added. rewrite Hw2. apply X.
  - split; [intros h [g' Hg']; apply (kept_view s1 s2 h K2); exists g'; by apply X|]. split.
    + eapply hdr_kept_trans; [by eapply view_ext_hdr|apply K2].
    + split; [intros h ptr; rewrite Hw2; apply X|]. exists (aPage loc). by rewrite Hw2.
Qed.
End Ops.
