(* ===== verification/WalIter.v ===== *)
(** * Iterating over the log in page order ([src/src/wal.c])

    The checkpointer visits the pages of the log in ascending order, each with
    the last frame that holds it.  Each page of the wal-index is sorted by a
    bottom-up merge sort of frame indices, in place in one array of slots; the
    sorted segments are then merged on the fly. *)
From Stdlib Require Import Sorted.
From S2P Require Import Prelude Bits Bytes Varint Wal WalIndex.

(** ** Definitions *)

(** *** Merging two runs of an array

    [a] is the array both runs lie in, a run being its first position and its
    length; [c] is [aContent] and [cap] the size of [aTmp]. *)

(** [aContent[a[i]]]. *)
Definition key_at (c a : list Z) (i : Z) : option Z := v ← bget a i; bget c v.

(** Whether the next element comes from the left run. *)
Definition take_left (c a : list Z) (aLeft nLeft aRight nRight iLeft iRight : Z) : option bool :=
  if iLeft <? nLeft then
    if nRight <=? iRight then Some true
    else k1 ← key_at c a (aLeft + iLeft); k2 ← key_at c a (aRight + iRight); Some (k1 <? k2)
  else Some false.
(** Past an element of the left run with the key just written. *)
Definition skip_equal (c a : list Z) (aLeft nLeft iLeft dbpage : Z) : option Z :=
  if iLeft <? nLeft then
    k ← key_at c a (aLeft + iLeft); Some (if k =? dbpage then iLeft + 1 else iLeft)
  else Some iLeft.

Fixpoint merge_loop (fuel : nat) (c a : list Z) (aLeft nLeft aRight nRight cap : Z)
    (iLeft iRight : Z) (aTmp : list Z) : option (list Z) :=
  match fuel with
  | O => None
  | S fuel =>
      if (iRight <? nRight) || (iLeft <? nLeft) then
        lft ← take_left c a aLeft nLeft aRight nRight iLeft iRight;
        let i := if (lft : bool) then aLeft + iLeft else aRight + iRight in
        logpage ← bget a i;
        let iLeft := if lft then iLeft + 1 else iLeft in
        let iRight := if lft then iRight else iRight + 1 in
        dbpage ← bget c logpage;
        if blen aTmp <? cap then
          let aTmp := aTmp ++ [logpage] in
          iLeft ← skip_equal c a aLeft nLeft iLeft dbpage;
          merge_loop fuel c a aLeft nLeft aRight nRight cap iLeft iRight aTmp
        else None
      else Some aTmp
  end.

(** The array, and the merged run, which starts where the left one did. *)
Definition walMerge (c a : list Z) (aLeft nLeft aRight nRight cap : Z)
    : option (list Z * Z * Z) :=
  aTmp ← merge_loop (S (Z.to_nat nLeft + Z.to_nat nRight)) c a
           aLeft nLeft aRight nRight cap 0 0 [];
  a ← blit a aLeft aTmp;
  Some (a, aLeft, blen aTmp).

(** *** Merge sort *)

Definition ARRAY_SUB : nat := 13.

(** [for(iSub=0; iList & (1<<iSub); iSub++)]. *)
Fixpoint carry_loop (fuel : nat) (c : list Z) (cap iList : Z) (aSub : list (Z * Z))
    (a : list Z) (aMerge nMerge : Z) (iSub : nat) : option (list Z * Z * Z * nat) :=
  match fuel with
  | O => None
  | S fuel =>
      if Z.testbit iList (Z.of_nat iSub) then
        p ← aSub !! iSub;
        r ← walMerge c a (fst p) (snd p) aMerge nMerge cap;
        let '(a, aMerge, nMerge) := r in
        carry_loop fuel c cap iList aSub a aMerge nMerge (S iSub)
      else Some (a, aMerge, nMerge, iSub)
  end.

(** [for(iList=0; iList<nList; iList++)]. *)
Fixpoint runs_loop (n : nat) (c : list Z) (cap iList : Z) (aSub : list (Z * Z))
    (a : list Z) (aMerge nMerge : Z) (iSub : nat)
    : option (list (Z * Z) * list Z * Z * Z * nat) :=
  match n with
  | O => Some (aSub, a, aMerge, nMerge, iSub)
  | S n =>
      r ← carry_loop (S ARRAY_SUB) c cap iList aSub a iList 1 0;
      let '(a, aMerge, nMerge, iSub) := r in
      if bool_decide (iSub < length aSub)%nat then
        runs_loop n c cap (iList + 1) (<[iSub := (aMerge, nMerge)]> aSub) a aMerge nMerge iSub
      else None
  end.

(** [for(iSub++; iSub<ArraySize(aSub); iSub++)]. *)
Fixpoint collect_loop (n : nat) (c : list Z) (cap nList : Z) (aSub : list (Z * Z))
    (a : list Z) (aMerge nMerge : Z) (iSub : nat) : option (list Z * Z * Z) :=
  match n with
  | O => Some (a, aMerge, nMerge)
  | S n =>
      if Z.testbit nList (Z.of_nat iSub) then
        p ← aSub !! iSub;
        r ← walMerge c a (fst p) (snd p) aMerge nMerge cap;
        let '(a, aMerge, nMerge) := r in
        collect_loop n c cap nList aSub a aMerge nMerge (S iSub)
      else collect_loop n c cap nList aSub a aMerge nMerge (S iSub)
  end.

(** The sorted array and the new length. *)
Definition walMergesort (c : list Z) (cap : Z) (aList : list Z) (nList : Z)
    : option (list Z * Z) :=
  r ← runs_loop (Z.to_nat nList) c cap 0 (replicate ARRAY_SUB (0, 0)) aList 0 0 0;
  let '(aSub, a, aMerge, nMerge, iSub) := r in
  r ← collect_loop (ARRAY_SUB - S iSub) c cap nList aSub a aMerge nMerge (S iSub);
  let '(a, _, nMerge) := r in
  Some (a, nMerge).

(** *** Iterator *)

(** [aIndex] is a position in the slots that follow the segments, [aPgno] a
    page of the wal-index and the word it starts at. *)
Record WalSegment : Type := mkSeg {
  iNext : Z;
  aIndex : Z;
  seg_aPgno : wiptr * Z;
  nEntry : Z;
  seg_iZero : Z;
}.
Record WalIterator : Type := mkIter {
  iPrior : Z;
  aSegment : list WalSegment;
  iter_slots : list Z;
}.

Definition set_iNext (v : Z) (s : WalSegment) : WalSegment :=
  mkSeg v (aIndex s) (seg_aPgno s) (nEntry s) (seg_iZero s).

(** [while( pSegment->iNext<pSegment->nEntry )]: where the segment stops, and
    its first page after [iMin]. *)
Fixpoint next_loop (fuel : nat) (c slots : list Z) (s : WalSegment) (iMin : Z)
    : option (WalSegment * option (Z * Z)) :=
  match fuel with
  | O => None
  | S fuel =>
      if iNext s <? nEntry s then
        v ← bget slots (aIndex s + iNext s);
        iPg ← bget c v;
        if iMin <? iPg then Some (s, Some (iPg, u32 (seg_iZero s + v)))
        else next_loop fuel c slots (set_iNext (iNext s + 1) s) iMin
      else Some (s, None)
  end.

(** [aPgno], as the list of words it points to. *)
Definition pgno_words (st : wi) (p : wiptr * Z) : option (list Z) :=
  g ← deref st (fst p); Some (drop (Z.to_nat (snd p)) (words g)).

Definition seg_content (st : wi) (s : WalSegment) : option (list Z) :=
  if iNext s <? nEntry s then pgno_words st (seg_aPgno s) else Some [].

(** The loop over the first [n] segments, from the last one. *)
Fixpoint segments_loop (n : nat) (st : wi) (slots : list Z) (iMin : Z)
    (segs : list WalSegment) (iRet iFrame : Z) : option (list WalSegment * Z * Z) :=
  match n with
  | O => Some (segs, iRet, iFrame)
  | S n =>
      s ← segs !! n;
      c ← seg_content st s;
      r ← next_loop (S (Z.to_nat (nEntry s - iNext s))) c slots s iMin;
      let '(s, found) := r in
      let segs := <[n := s]> segs in
      match found with
      | Some (iPg, f) =>
          if iPg <? iRet then segments_loop n st slots iMin segs iPg f
          else segments_loop n st slots iMin segs iRet iFrame
      | None => segments_loop n st slots iMin segs iRet iFrame
      end
  end.

(** The iterator, the page and the frame; [None] at the end. *)
Definition walIteratorNext (st : wi) (p : WalIterator)
    : option (WalIterator * option (Z * Z)) :=
  r ← segments_loop (length (aSegment p)) st (iter_slots p) (iPrior p) (aSegment p) 0xFFFFFFFF 0;
  let '(segs, iRet, iFrame) := r in
  Some (mkIter iRet segs (iter_slots p),
        if iRet =? 0xFFFFFFFF then None else Some (iRet, iFrame)).

Section Code.
Variables (mallocOk : nat -> bool) (shmRc : nat -> Z).

(** One turn of the loop of [walIteratorInit] on table [i]. *)
Definition init_segment (iLast : Z) (nSegment i : nat) (p : WalIterator) : M wi WalIterator :=
  let* sLoc := walHashGet mallocOk shmRc i in
  let nEntry := if bool_decide (S i = nSegment) then iLast - iZero sLoc
                else HASHTABLE_NPAGE - aPgno sLoc in
  let aIdx := iZero sLoc in
  let* st := gets id in
  let* c := lift (pgno_words st (aPage sLoc, aPgno sLoc)) in
  let* slots := lift (blit (iter_slots p) aIdx (seqZ 0 nEntry)) in
  let* a := lift (bsub slots aIdx nEntry) in
  let* r := lift (walMergesort c (Z.min iLast HASHTABLE_NPAGE) a nEntry) in
  let '(a, nEntry) := r in
  let* slots := lift (blit slots aIdx a) in
  ret (mkIter (iPrior p)
         (<[i := mkSeg 0 aIdx (aPage sLoc, aPgno sLoc) nEntry (u32 (iZero sLoc + 1))]> (aSegment p))
         slots).

Fixpoint init_loop (n : nat) (iLast : Z) (nSegment i : nat) (p : WalIterator) : M wi WalIterator :=
  match n with
  | O => ret p
  | S n =>
      let* p := init_segment iLast nSegment i p in
      init_loop n iLast nSegment (S i) p
  end.

Definition walIteratorInit (nBackfill : Z) : M wi WalIterator :=
  let* iLast := gets (fun st => mxFrame (hdr (wal st))) in
  let nSegment := S (walFramePage iLast) in
  let* ok := wi_malloc mallocOk in
  if ok then
    let i := walFramePage (nBackfill + 1) in
    init_loop (nSegment - i) iLast nSegment i
      (mkIter 0 (replicate nSegment (mkSeg 0 0 (Unmapped, 0) 0 0)) (zeros iLast))
  else fail SQLITE_NOMEM.
End Code.

(** ** Sorted runs *)

Lemma seg_elem a i n x :
  0 <= i -> i + n <= blen a ->
  x ∈ seg a i n <-> exists j, 0 <= j < n /\ x = bat a (i + j).
Proof.
  intros Hi Hl.
  assert (Hat : forall k, (k < Z.to_nat n)%nat -> seg a i n !! k = Some (bat a (i + Z.of_nat k))).
  { intros k Hk. unfold seg, bat. rewrite lookup_take_lt, lookup_drop by lia.
    destruct (Z.leb_spec 0 (i + Z.of_nat k)); [|lia].
    replace (Z.to_nat (i + Z.of_nat k)) with (Z.to_nat i + k)%nat by lia.
    destruct (lookup_lt_is_Some_2 a (Z.to_nat i + k)) as [y Hy]; [unfold blen in *; lia|].
    by rewrite Hy. }
  rewrite list_elem_of_lookup. split.
  - intros [k Hk]. pose proof (lookup_lt_Some _ _ _ Hk) as Hlt.
    assert (k < Z.to_nat n)%nat by (unfold seg in Hlt; rewrite length_take in Hlt; lia).
    exists (Z.of_nat k). rewrite Hat in Hk by done. split; [lia|congruence].
  - intros (j & Hj & ->). exists (Z.to_nat j). rewrite Hat by lia. by rewrite Z2Nat.id by lia.
Qed.

Section Sort.
Context (c : list Z).
Abbreviation key i := (bat c i).

Definition by_key : relation Z := fun i j => key i < key j.
Abbreviation ascending := (StronglySorted by_key).

Lemma ascending_inv x l : ascending (x :: l) -> ascending l /\ forall y, y ∈ l -> key x < key y.
Proof.
  intros H. apply StronglySorted_inv in H as [H1 H2]. split; [done|].
  rewrite list.Forall_forall in H2. apply H2.
Qed.
Lemma ascending_cons x l : ascending l -> (forall y, y ∈ l -> key x < key y) -> ascending (x :: l).
Proof. intros H1 H2. constructor; [done|]. by apply list.Forall_forall. Qed.

(** [m] has the keys of both runs, those of the right one winning. *)
Record merge_of (l1 l2 m : list Z) : Prop := {
  mo_asc : ascending m;
  mo_from x : x ∈ m -> x ∈ l2 \/ (x ∈ l1 /\ forall y, y ∈ l2 -> key y <> key x);
  mo_right x : x ∈ l2 -> x ∈ m;
  mo_left x : x ∈ l1 -> exists y, y ∈ m /\ key y = key x;
}.

Lemma merge_of_nil : merge_of [] [] [].
Proof.
  split; [constructor|by intros x Hx%list.elem_of_nil|by intros x Hx%list.elem_of_nil
    |by intros x Hx%list.elem_of_nil].
Qed.
Lemma merge_of_left x l1 l2 m :
  ascending (x :: l1) -> (forall y, y ∈ l2 -> key x < key y) ->
  merge_of l1 l2 m -> merge_of (x :: l1) l2 (x :: m).
Proof.
  intros [_ Hx]%ascending_inv Hy [A F R L]. split.
  - apply ascending_cons; [done|]. intros z Hz. destruct (F z Hz) as [|[? _]]; auto.
  - intros z [-> |Hz]%list.elem_of_cons.
    + right. split; [constructor|]. intros y H%Hy. lia.
    + destruct (F z Hz) as [|[? ?]]; [by left|right; split; [by constructor|done]].
  - intros z Hz. constructor. by apply R.
  - intros z [-> |Hz]%list.elem_of_cons; [exists x; split; [constructor|done]|].
    destruct (L z Hz) as (w & ? & ?). exists w. split; [by constructor|done].
Qed.
Lemma merge_of_right y l1 l2 m :
  ascending (y :: l2) -> (forall x, x ∈ l1 -> key y < key x) ->
  merge_of l1 l2 m -> merge_of l1 (y :: l2) (y :: m).
Proof.
  intros [_ Hy]%ascending_inv Hx [A F R L]. split.
  - apply ascending_cons; [done|]. intros z Hz. destruct (F z Hz) as [|[? _]]; auto.
  - intros z [-> |Hz]%list.elem_of_cons; [left; constructor|].
    destruct (F z Hz) as [|[Hz1 Hz2]]; [left; by constructor|right; split; [done|]].
    intros w [-> |Hw]%list.elem_of_cons; [|by apply Hz2]. specialize (Hx z Hz1). lia.
  - intros z [-> |Hz]%list.elem_of_cons; constructor; auto.
  - intros z Hz. destruct (L z Hz) as (w & ? & ?). exists w. split; [by constructor|done].
Qed.
Lemma merge_of_skip x l1 l2 m :
  (exists y, y ∈ l2 /\ key y = key x) -> merge_of l1 l2 m -> merge_of (x :: l1) l2 m.
Proof.
  intros (y & Hy & Hk) [A F R L]. split; [done| |done|].
  - intros z Hz. destruct (F z Hz) as [|[? ?]]; [by left|right; split; [by constructor|done]].
  - intros z [-> |Hz]%list.elem_of_cons; [|by apply L]. exists y. split; [by apply R|done].
Qed.

Lemma seg_cons a i n :
  0 <= i -> 0 < n -> i + n <= blen a -> seg a i n = bat a i :: seg a (i + 1) (n - 1).
Proof.
  intros Hi Hn Hl. replace n with (1 + (n - 1)) at 1 by lia. rewrite seg_app by lia.
  replace (seg a i 1) with [bat a i]; [done|].
  apply bytes_ext.
  - unfold blen at 2. rewrite seg_len by lia. done.
  - change (blen [bat a i]) with 1. intros j Hj. rewrite seg_at by lia.
    replace j with 0 by lia. by rewrite Z.add_0_r.
Qed.
Lemma seg_0 a i n : n <= 0 -> seg a i n = [].
Proof. intros. unfold seg. by replace (Z.to_nat n) with 0%nat by lia. Qed.

(** The entries of a run are positions of [aContent]. *)
Definition in_content (a : list Z) (l n : Z) : Prop :=
  forall i, l <= i < l + n -> 0 <= bat a i < blen c.

Lemma key_at_ok a i :
  0 <= i < blen a -> 0 <= bat a i < blen c -> key_at c a i = Some (key (bat a i)).
Proof. intros H1 H2. unfold key_at. rewrite bget_in by done. cbn. by rewrite bget_in. Qed.

Lemma seg_head_lt a i n x :
  0 <= i -> i + n <= blen a -> ascending (x :: seg a i n) -> 0 < n -> key x < key (bat a i).
Proof.
  intros Hi Hl [_ H]%ascending_inv Hn. apply H. rewrite seg_cons by lia. constructor.
Qed.

(** The left run past an element of key [k], all its keys being [k] or more. *)
Lemma skip_equal_ok a aL nL iL k :
  0 <= aL -> aL + nL <= blen a -> 0 <= iL <= nL -> in_content a aL nL ->
  exists iL', skip_equal c a aL nL iL k = Some iL' /\ iL <= iL' <= nL /\
    ((iL' = iL /\ (iL < nL -> key (bat a (aL + iL)) <> k)) \/
     (iL' = iL + 1 /\ iL < nL /\ key (bat a (aL + iL)) = k)).
Proof.
  intros H0 H1 Hi Hc. unfold skip_equal. destruct (Z.ltb_spec iL nL).
  - rewrite key_at_ok by (lia || (apply Hc; lia)). cbn.
    destruct (Z.eqb_spec (key (bat a (aL + iL))) k).
    + exists (iL + 1). split; [done|]. split; [lia|]. right. lia.
    + exists iL. split; [done|]. split; [lia|]. by left.
  - exists iL. split; [done|]. split; [lia|]. left. split; [done|lia].
Qed.

Section Merge.
Context (a : list Z) (aL nL aR nR cap : Z).
Hypothesis HL0 : 0 <= aL.
Hypothesis HL1 : aL + nL <= blen a.
Hypothesis HR0 : 0 <= aR.
Hypothesis HR1 : aR + nR <= blen a.
Hypothesis HcL : in_content a aL nL.
Hypothesis HcR : in_content a aR nR.

Definition restL (iL : Z) : list Z := seg a (aL + iL) (nL - iL).
Definition restR (iR : Z) : list Z := seg a (aR + iR) (nR - iR).

Lemma restL_cons iL : 0 <= iL < nL -> restL iL = bat a (aL + iL) :: restL (iL + 1).
Proof. intros H. unfold restL. rewrite seg_cons by lia. do 2 f_equal; lia. Qed.
Lemma restR_cons iR : 0 <= iR < nR -> restR iR = bat a (aR + iR) :: restR (iR + 1).
Proof. intros H. unfold restR. rewrite seg_cons by lia. do 2 f_equal; lia. Qed.

(** [fuel] turns of the loop merge what is left of the runs. *)
Definition merges (fuel : nat) : Prop := forall iL iR aTmp,
  0 <= iL <= nL -> 0 <= iR <= nR -> ascending (restL iL) -> ascending (restR iR) ->
  blen aTmp + (nL - iL) + (nR - iR) <= cap -> (nL - iL) + (nR - iR) < Z.of_nat fuel ->
  exists m, merge_loop fuel c a aL nL aR nR cap iL iR aTmp = Some (aTmp ++ m)
    /\ merge_of (restL iL) (restR iR) m.

(** What a turn does once it has chosen the element at [i]. *)
Definition turn (fuel : nat) (i iL iR : Z) (aTmp : list Z) : option (list Z) :=
  logpage ← bget a i;
  dbpage ← bget c logpage;
  if blen aTmp <? cap then
    iL ← skip_equal c a aL nL iL dbpage;
    merge_loop fuel c a aL nL aR nR cap iL iR (aTmp ++ [logpage])
  else None.

Lemma turn_left fuel iL iR aTmp :
  merges fuel -> 0 <= iL < nL -> 0 <= iR <= nR ->
  ascending (restL iL) -> ascending (restR iR) ->
  (forall w, w ∈ restR iR -> key (bat a (aL + iL)) < key w) ->
  blen aTmp + (nL - iL) + (nR - iR) <= cap -> (nL - iL) + (nR - iR) <= Z.of_nat fuel ->
  exists m, turn fuel (aL + iL) (iL + 1) iR aTmp = Some (aTmp ++ m)
    /\ merge_of (restL iL) (restR iR) m.
Proof.
  intros IH HiL HiR HaL HaR Hlt Hcap Hf. set (x := bat a (aL + iL)) in *.
  assert (Hx : 0 <= x < blen c) by (apply HcL; lia).
  rewrite restL_cons in HaL |- * by lia. fold x in HaL |- *.
  unfold turn. rewrite bget_in by lia. fold x. cbn [mbind option_bind].
  rewrite bget_in by done. cbn [mbind option_bind].
  destruct (Z.ltb_spec (blen aTmp) cap); [|lia].
  destruct (skip_equal_ok a aL nL (iL + 1) (key x)) as (iL' & -> & Hr & Hcase); [done|done|lia|done|].
  destruct Hcase as [[-> _]|(-> & Hl & Hk)].
  2:{ exfalso. rewrite restL_cons in HaL by lia.
      apply ascending_inv in HaL as [_ HaL]. specialize (HaL (bat a (aL + (iL + 1))) ltac:(constructor)). lia. }
  cbn [mbind option_bind].
  destruct (IH (iL + 1) iR (aTmp ++ [x])) as (m & -> & Hm);
    [lia|lia|apply (ascending_inv _ _ HaL)|done|rewrite blen_snoc; lia|lia|].
  exists (x :: m). rewrite <- app_assoc. split; [done|]. by apply merge_of_left.
Qed.

Lemma turn_right fuel iL iR aTmp :
  merges fuel -> 0 <= iL <= nL -> 0 <= iR < nR ->
  ascending (restL iL) -> ascending (restR iR) ->
  (iL < nL -> key (bat a (aR + iR)) <= key (bat a (aL + iL))) ->
  blen aTmp + (nL - iL) + (nR - iR) <= cap -> (nL - iL) + (nR - iR) <= Z.of_nat fuel ->
  exists m, turn fuel (aR + iR) iL (iR + 1) aTmp = Some (aTmp ++ m)
    /\ merge_of (restL iL) (restR iR) m.
Proof.
  intros IH HiL HiR HaL HaR Hle Hcap Hf. set (y := bat a (aR + iR)) in *.
  assert (Hy : 0 <= y < blen c) by (apply HcR; lia).
  rewrite restR_cons in HaR |- * by lia. fold y in HaR |- *.
  pose proof (ascending_inv _ _ HaR) as [HaR' _].
  unfold turn. rewrite bget_in by lia. fold y. cbn [mbind option_bind].
  rewrite bget_in by done. cbn [mbind option_bind].
  destruct (Z.ltb_spec (blen aTmp) cap); [|lia].
  destruct (skip_equal_ok a aL nL iL (key y)) as (iL' & -> & Hr & Hcase); [done|done|lia|done|].
  cbn [mbind option_bind]. destruct Hcase as [[-> Hne]|(-> & Hl & Hk)].
  - destruct (IH iL (iR + 1) (aTmp ++ [y])) as (m & -> & Hm);
      [lia|lia|done|done|rewrite blen_snoc; lia|lia|].
    exists (y :: m). rewrite <- app_assoc. split; [done|]. apply merge_of_right; [done| |done].
    intros x Hx. destruct (Z.ltb_spec iL nL) as [Hl|Hl].
    + specialize (Hne Hl). specialize (Hle Hl). rewrite restL_cons in Hx, HaL by lia.
      apply ascending_inv in HaL as [_ HaL].
      apply list.elem_of_cons in Hx as [-> |Hx]; [lia|]. specialize (HaL x Hx). lia.
    + unfold restL in Hx. rewrite seg_0 in Hx by lia. by apply list.elem_of_nil in Hx.
  - rewrite restL_cons in HaL |- * by lia. pose proof (ascending_inv _ _ HaL) as [HaL' Hgt].
    destruct (IH (iL + 1) (iR + 1) (aTmp ++ [y])) as (m & -> & Hm);
      [lia|lia|done|done|rewrite blen_snoc; lia|lia|].
    exists (y :: m). rewrite <- app_assoc. split; [done|].
    apply merge_of_skip; [exists y; split; [constructor|done]|].
    apply merge_of_right; [done| |done]. intros x Hx. specialize (Hgt x Hx). lia.
Qed.

Lemma merge_loop_ok fuel : merges fuel.
Proof.
  induction fuel as [|fuel IH]; intros iL iR aTmp HiL HiR HaL HaR Hcap Hf; [lia|].
  cbn [merge_loop].
  destruct (Z.ltb_spec iR nR) as [HR|HR], (Z.ltb_spec iL nL) as [HL|HL]; cbn [orb].
  4:{ exists []. rewrite app_nil_r. unfold restL, restR. rewrite !seg_0 by lia.
      split; [done|apply merge_of_nil]. }
  all: unfold take_left.
  - destruct (Z.ltb_spec iL nL); [|lia]. destruct (Z.leb_spec nR iR); [lia|].
    rewrite !key_at_ok by (lia || (apply HcL; lia) || (apply HcR; lia)).
    cbn [mbind option_bind].
    destruct (Z.ltb_spec (key (bat a (aL + iL))) (key (bat a (aR + iR)))).
    + apply turn_left; try done; try lia. intros w Hw.
      rewrite restR_cons in Hw, HaR by lia. apply ascending_inv in HaR as [_ HaR].
      apply list.elem_of_cons in Hw as [-> |Hw]; [done|]. specialize (HaR w Hw). lia.
    + apply turn_right; try done; lia.
  - destruct (Z.ltb_spec iL nL); [lia|]. cbn [mbind option_bind].
    apply turn_right; try done; lia.
  - destruct (Z.ltb_spec iL nL); [|lia]. destruct (Z.leb_spec nR iR); [|lia].
    cbn [mbind option_bind]. apply turn_left; try done; try lia.
    intros w Hw. unfold restR in Hw. rewrite seg_0 in Hw by lia. by apply list.elem_of_nil in Hw.
Qed.
End Merge.

(** *** Runs of consecutive frames *)

(** The [n] entries of [a] from [lo] sort the frames [lo..hi), keeping the
    last frame of each page. *)
Record run_ok (a : list Z) (n lo hi : Z) : Prop := {
  ro_bounds : 0 <= lo /\ 0 <= n /\ lo <= hi /\ hi <= blen a /\ hi <= blen c;
  ro_asc : ascending (seg a lo n);
  ro_in i : i ∈ seg a lo n -> lo <= i < hi /\ forall j, i < j < hi -> key j <> key i;
  ro_all j : lo <= j < hi -> exists i, i ∈ seg a lo n /\ key i = key j;
  ro_len : n <= hi - lo;
}.

Lemma ascending_NoDup l : ascending l -> NoDup l.
Proof.
  induction 1 as [|x l _ IH H]; constructor; [|done].
  intros Hx. rewrite list.Forall_forall in H. specialize (H x Hx). unfold by_key in H. lia.
Qed.

Lemma range_len l lo hi :
  NoDup l -> lo <= hi -> (forall i, i ∈ l -> lo <= i < hi) -> blen l <= hi - lo.
Proof.
  intros Hl Hle Hin. unfold blen.
  assert (length l <= length (seqZ lo (hi - lo)))%nat; [|rewrite length_seqZ in *; lia].
  apply submseteq_length, NoDup_submseteq; [done|].
  intros i Hi. apply elem_of_seqZ. specialize (Hin i Hi). lia.
Qed.

Lemma run_single a i : 0 <= i < blen a -> i < blen c -> bat a i = i -> run_ok a 1 i (i + 1).
Proof.
  intros Hi Hc Ha. assert (Hs : seg a i 1 = [i]) by (rewrite seg_cons, Ha, seg_0 by lia; done).
  split; rewrite ?Hs; try lia.
  - repeat constructor.
  - intros j ->%list_elem_of_singleton. split; lia.
  - intros j Hj. exists i. split; [constructor|]. f_equal. lia.
Qed.

Lemma run_keep a a' n lo hi :
  run_ok a n lo hi -> blen a' = blen a -> (forall j, lo <= j < hi -> bat a' j = bat a j) ->
  run_ok a' n lo hi.
Proof.
  intros [B A I L N] Hl Hat. assert (Hs : seg a' lo n = seg a lo n).
  { apply seg_eq; try lia. intros j Hj. apply Hat. lia. }
  split; rewrite ?Hs; try done; lia.
Qed.

Lemma blen_seg a i n : 0 <= i -> 0 <= n -> i + n <= blen a -> blen (seg a i n) = n.
Proof. intros. unfold blen. rewrite seg_len; lia. Qed.

Lemma run_in_content a n lo hi : run_ok a n lo hi -> in_content a lo n.
Proof.
  intros [B A I L N] i Hi. destruct (I (bat a i)) as [H _]; [|lia].
  apply seg_elem; [lia|lia|]. exists (i - lo). split; [lia|]. f_equal. lia.
Qed.

Lemma walMerge_ok a cap lo mid hi nL nR :
  run_ok a nL lo mid -> run_ok a nR mid hi -> hi - lo <= cap ->
  exists a' n, walMerge c a lo nL mid nR cap = Some (a', lo, n) /\ run_ok a' n lo hi
    /\ blen a' = blen a /\ (forall j, j < lo \/ hi <= j -> bat a' j = bat a j).
Proof.
  intros R1 R2 Hcap.
  pose proof (ro_bounds _ _ _ _ R1). pose proof (ro_bounds _ _ _ _ R2).
  pose proof (ro_len _ _ _ _ R1). pose proof (ro_len _ _ _ _ R2).
  destruct (merge_loop_ok a lo nL mid nR cap) with (fuel := S (Z.to_nat nL + Z.to_nat nR))
      (iL := 0) (iR := 0) (aTmp := @nil Z) as (m & E & [A F R L]);
    [lia..|by eapply run_in_content|by eapply run_in_content|lia|lia| | |unfold blen; cbn [length]; lia|lia|].
  { unfold restL. rewrite Z.add_0_r, Z.sub_0_r. apply R1. }
  { unfold restR. rewrite Z.add_0_r, Z.sub_0_r. apply R2. }
  unfold restL, restR in *. rewrite !Z.add_0_r, !Z.sub_0_r in *. cbn [app] in E.
  assert (Hm : forall i, i ∈ m -> lo <= i < hi /\ forall j, i < j < hi -> key j <> key i).
  { intros i Hi. destruct (F i Hi) as [Hr|[Hl Hno]].
    - destruct (ro_in _ _ _ _ R2 i Hr). split; [lia|done].
    - destruct (ro_in _ _ _ _ R1 i Hl) as [? Hlast]. split; [lia|].
      intros j Hj Hk. destruct (Z.lt_ge_cases j mid); [by apply (Hlast j); [lia|]|].
      destruct (ro_all _ _ _ _ R2 j) as (i' & Hi' & Hk'); [lia|].
      apply (Hno i' Hi'). congruence. }
  assert (Hlen : blen m <= hi - lo).
  { apply range_len; [by apply ascending_NoDup|lia|]. intros i Hi. by apply Hm. }
  unfold walMerge. rewrite E. cbn [mbind option_bind].
  destruct (blit_in a lo m) as [a' Ea]; [lia..|]. rewrite Ea. cbn [mbind option_bind].
  assert (Hs : seg a' lo (blen m) = m).
  { pose proof (blen_nonneg m). apply bytes_ext.
    - rewrite blen_seg; rewrite ?(blit_len _ _ _ _ Ea); lia.
    - rewrite blen_seg by (rewrite ?(blit_len _ _ _ _ Ea); lia).
      intros j Hj. rewrite seg_at, (blit_at _ _ _ _ _ Ea) by lia.
      destruct (Z.leb_spec lo (lo + j)), (Z.ltb_spec (lo + j) (lo + blen m)); try lia.
      cbn. f_equal. lia. }
  exists a', (blen m). split; [done|]. split; [|split].
  - split; rewrite ?Hs, ?(blit_len _ _ _ _ Ea); try done.
    + pose proof (blen_nonneg m). lia.
    + intros j Hj. destruct (Z.lt_ge_cases j mid).
      * destruct (ro_all _ _ _ _ R1 j) as (i & Hi & Hk); [lia|].
        destruct (L i Hi) as (y & ? & ?). exists y. split; [done|congruence].
      * destruct (ro_all _ _ _ _ R2 j) as (i & Hi & Hk); [lia|]. exists i. split; [by apply R|done].
  - by apply blit_len in Ea.
  - intros j Hj. rewrite (blit_at _ _ _ _ _ Ea).
    destruct (Z.leb_spec lo j), (Z.ltb_spec j (lo + blen m)); try lia; done.
Qed.

Lemma ascending_at a i n u v :
  0 <= i -> i + n <= blen a -> ascending (seg a i n) -> 0 <= u < v -> v < n ->
  key (bat a (i + u)) < key (bat a (i + v)).
Proof.
  intros Hi Hl A Hu. assert (Hu0 : 0 <= u) by lia. revert i n v Hi Hl A Hu.
  pattern u. apply natlike_ind; [| |done].
  - intros i n v Hi Hl A Hu Hv. rewrite seg_cons in A by lia. apply ascending_inv in A as [_ A].
    rewrite Z.add_0_r. apply A. apply seg_elem; [lia|lia|]. exists (v - 1). split; [lia|]. f_equal. lia.
  - intros w Hw IH i n v Hi Hl A Hu Hv. rewrite seg_cons in A by lia. apply ascending_inv in A as [A _].
    specialize (IH (i + 1) (n - 1) (v - 1) ltac:(lia) ltac:(lia) A ltac:(lia) ltac:(lia)).
    replace (i + Z.succ w) with (i + 1 + w) by lia. by replace (i + v) with (i + 1 + (v - 1)) by lia.
Qed.

(** *** The binary counter of runs *)

Abbreviation p2 b := (2 ^ Z.of_nat b).
(** First frame of the run of size [2^b] when [n] frames are sorted. *)
Definition blk (b : nat) (n : Z) : Z := n / p2 (S b) * p2 (S b).

Lemma p2_S b : p2 (S b) = 2 * p2 b.
Proof. rewrite Nat2Z.inj_succ, Z.pow_succ_r by lia. done. Qed.
Lemma p2_pos b : 0 < p2 b.
Proof. apply Z.pow_pos_nonneg; lia. Qed.

Lemma mod_bit n b :
  n mod p2 (S b) = n mod p2 b + (if Z.testbit n (Z.of_nat b) then p2 b else 0).
Proof.
  rewrite p2_S, (Z.mul_comm 2), Z.rem_mul_r by (pose proof (p2_pos b); lia).
  rewrite <- Z.testbit_spec' by lia. destruct (Z.testbit n (Z.of_nat b)); cbn [Z.b2z]; lia.
Qed.
Lemma blk_mod b n : blk b n = n - n mod p2 (S b).
Proof. unfold blk. pose proof (p2_pos (S b)). pose proof (Z.div_mod n (p2 (S b)) ltac:(lia)). lia. Qed.
Lemma div_pow_le n b k : (b <= k)%nat -> n / p2 k = n / p2 b / p2 (k - b).
Proof.
  intros H. rewrite Z.div_div; [|apply Z.pow_nonzero; lia|apply p2_pos].
  rewrite <- Z.pow_add_r by lia. do 2 f_equal. lia.
Qed.

(** Adding one when the [b] low bits are ones and bit [b] is clear. *)
Section Carry.
Context (n : Z) (b : nat).
Hypothesis Hn : 0 <= n.
Hypothesis Hlow : n mod p2 b = p2 b - 1.
Hypothesis Hbit : Z.testbit n (Z.of_nat b) = false.

Lemma carry_mod : (n + 1) mod p2 (S b) = p2 b /\ (n + 1) / p2 (S b) = n / p2 (S b).
Proof.
  pose proof (p2_pos b). pose proof (mod_bit n b) as Hm. rewrite Hbit, Z.add_0_r, Hlow in Hm.
  pose proof (Z.div_mod n (p2 (S b)) ltac:(rewrite p2_S; lia)) as Hd. rewrite p2_S in *.
  split.
  - symmetry. apply (Z.mod_unique _ _ (n / (2 * p2 b))); lia.
  - symmetry. apply (Z.div_unique _ _ _ (p2 b)); lia.
Qed.
Lemma carry_high k : (b < k)%nat ->
  Z.testbit (n + 1) (Z.of_nat k) = Z.testbit n (Z.of_nat k) /\ blk k (n + 1) = blk k n.
Proof.
  intros Hk. destruct carry_mod as [_ Hd].
  assert (E : forall j, (S b <= j)%nat -> (n + 1) / p2 j = n / p2 j).
  { intros j Hj. rewrite !(div_pow_le _ (S b) j) by lia. by rewrite Hd. }
  split; [|unfold blk; by rewrite E by lia].
  apply Z.b2z_inj. rewrite !Z.testbit_spec' by lia. by rewrite E by lia.
Qed.
Lemma carry_bit : Z.testbit (n + 1) (Z.of_nat b) = true /\ blk b (n + 1) = n + 1 - p2 b.
Proof.
  destruct carry_mod as [Hm _]. split; [|rewrite blk_mod; lia].
  pose proof (mod_bit (n + 1) b) as H. pose proof (p2_pos b). rewrite Hm in H.
  destruct (Z.testbit (n + 1) (Z.of_nat b)); [done|].
  pose proof (Z.mod_pos_bound (n + 1) (p2 b) ltac:(lia)). lia.
Qed.
Lemma carry_low k : (k < b)%nat -> Z.testbit (n + 1) (Z.of_nat k) = false.
Proof.
  intros Hk. destruct carry_mod as [Hm _].
  pose proof (Z.div_mod (n + 1) (p2 (S b)) ltac:(pose proof (p2_pos (S b)); lia)) as Hd.
  rewrite Hm, p2_S in Hd.
  replace (n + 1) with ((2 * ((n + 1) / (2 * p2 b)) + 1) * p2 b) by lia.
  apply Z.mul_pow2_bits_low. lia.
Qed.
End Carry.

Section Sorting.
Context (cap N : Z).
Hypothesis HN : 0 < N <= 4096.
Hypothesis HNc : N <= blen c.
Hypothesis Hcap : N <= cap.

(** Run [b] when [n] frames are sorted. *)
Definition sub_ok (n : Z) (aSub : list (Z * Z)) (a : list Z) (b : nat) : Prop :=
  Z.testbit n (Z.of_nat b) = true -> exists len,
    aSub !! b = Some (blk b n, len) /\ run_ok a len (blk b n) (blk b n + p2 b).

Lemma blk_end b n : 0 <= n -> Z.testbit n (Z.of_nat b) = true ->
  0 <= blk b n /\ blk b n + p2 b = n - n mod p2 b.
Proof.
  intros Hn Hb. rewrite blk_mod, mod_bit, Hb. split; [|lia].
  pose proof (mod_bit n b) as H. rewrite Hb in H. rewrite <- H.
  pose proof (Z.mod_le n (p2 (S b)) Hn (p2_pos (S b))). lia.
Qed.

Lemma mod_mono n b k : 0 <= n -> (b <= k)%nat -> n mod p2 b <= n mod p2 k.
Proof.
  intros Hn. induction 1 as [|k Hk IH]; [lia|]. rewrite (mod_bit n k).
  pose proof (p2_pos k). case_match; lia.
Qed.

Lemma sub_keep n aSub aSub' a a' b :
  sub_ok n aSub a b -> 0 <= n -> aSub' !! b = aSub !! b -> blen a' = blen a ->
  (forall j, j < n - n mod p2 b -> bat a' j = bat a j) -> sub_ok n aSub' a' b.
Proof.
  intros H Hn Hs Hl Hat Hb. destruct (H Hb) as (len & E & R). exists len.
  rewrite Hs. split; [done|]. eapply run_keep; [done|done|].
  intros j Hj. apply Hat. destruct (blk_end b n Hn Hb). lia.
Qed.

Lemma carry_loop_ok aSub n fuel iSub a nMerge :
  0 <= n < N -> blen a = N -> (iSub <= 12)%nat -> (12 < iSub + fuel)%nat ->
  n mod p2 iSub = p2 iSub - 1 ->
  (forall b, (iSub <= b)%nat -> sub_ok n aSub a b) ->
  run_ok a nMerge (n + 1 - p2 iSub) (n + 1) ->
  exists a' nMerge' b, carry_loop fuel c cap n aSub a (n + 1 - p2 iSub) nMerge iSub
      = Some (a', n + 1 - p2 b, nMerge', b)
    /\ (iSub <= b <= 12)%nat /\ n mod p2 b = p2 b - 1 /\ Z.testbit n (Z.of_nat b) = false
    /\ run_ok a' nMerge' (n + 1 - p2 b) (n + 1) /\ blen a' = N
    /\ (forall j, j < n + 1 - p2 b \/ n + 1 <= j -> bat a' j = bat a j).
Proof.
  revert iSub a nMerge.
  induction fuel as [|fuel IH]; intros iSub a nMerge Hn Ha Hi Hf Hlow Hsub R; [lia|].
  cbn [carry_loop]. destruct (Z.testbit n (Z.of_nat iSub)) eqn:Hb.
  2:{ exists a, nMerge, iSub. split_and!; try done; lia. }
  destruct (Hsub iSub ltac:(lia) Hb) as (len & E & R1). rewrite E. cbn [mbind option_bind fst snd].
  destruct (blk_end iSub n ltac:(lia) Hb) as [Hb0 Hbe].
  assert (Hmid : blk iSub n + p2 iSub = n + 1 - p2 iSub) by lia. rewrite Hmid in R1.
  assert (Hlo : blk iSub n = n + 1 - p2 (S iSub)) by (rewrite p2_S; lia).
  destruct (walMerge_ok a cap (blk iSub n) (n + 1 - p2 iSub) (n + 1) len nMerge R1 R ltac:(lia))
    as (a' & m & Em & R' & Hl & Hat). rewrite Em. cbn [mbind option_bind].
  assert (Hi12 : (iSub < 12)%nat).
  { destruct (decide (iSub = 12%nat)) as [->|]; [|lia].
    pose proof (Z.mod_small n (2 ^ 12) ltac:(lia)). change (p2 12) with 4096 in *. lia. }
  rewrite Hlo in *. destruct (IH (S iSub) a' m) as (a2 & m2 & b & E2 & Hb2 & Hl2 & Hc2 & R2 & Hlen2 & Hat2);
    [done|lia|lia|lia| | |done|].
  - rewrite mod_bit, Hb, p2_S. lia.
  - intros b Hb'. eapply sub_keep; [apply Hsub; lia|lia|done|done|].
    intros j Hj. apply Hat. pose proof (mod_mono n (S iSub) b ltac:(lia) Hb').
    rewrite mod_bit, Hb in H. left. rewrite p2_S. lia.
  - exists a2, m2, b. split_and!; try done; try lia.
    intros j Hj. rewrite Hat2 by done. apply Hat.
    assert (p2 (S iSub) <= p2 b) by (apply Z.pow_le_mono_r; lia). lia.
Qed.

(** After [n] frames: one sorted run per bit of [n], the rest untouched. *)
Record sorting (n : Z) (aSub : list (Z * Z)) (a : list Z) : Prop := {
  so_len : blen a = N;
  so_sub : length aSub = ARRAY_SUB;
  so_runs b : sub_ok n aSub a b;
  so_rest j : n <= j < N -> bat a j = j;
}.

Lemma runs_loop_ok k n aSub a aMerge nMerge iSub :
  0 <= n -> n + Z.of_nat k = N -> sorting n aSub a ->
  (0 < n -> (iSub <= 12)%nat /\ n mod p2 (S iSub) = p2 iSub /\ aMerge = n - p2 iSub
     /\ run_ok a nMerge aMerge n) ->
  exists aSub' a' aMerge' nMerge' iSub',
    runs_loop k c cap n aSub a aMerge nMerge iSub = Some (aSub', a', aMerge', nMerge', iSub')
    /\ sorting N aSub' a' /\ (iSub' <= 12)%nat /\ N mod p2 (S iSub') = p2 iSub'
    /\ aMerge' = N - p2 iSub' /\ run_ok a' nMerge' aMerge' N.
Proof.
  revert n aSub a aMerge nMerge iSub.
  induction k as [|k IH]; intros n aSub a aMerge nMerge iSub Hn Hk S0 Hlast.
  - cbn [runs_loop]. replace n with N in * by lia.
    destruct (Hlast ltac:(lia)) as (? & ? & ? & ?). exists aSub, a, aMerge, nMerge, iSub. done.
  - cbn [runs_loop]. destruct S0 as [Hl Hs Hr Hrest].
    destruct (carry_loop_ok aSub n (S ARRAY_SUB) 0 a 1) as (a' & m & b & E & Hb & Hlow & Hc & R & Hl' & Hat);
      [lia|done|lia|unfold ARRAY_SUB; lia|by rewrite Z.mod_1_r|auto| |].
    { change (p2 0) with 1. replace (n + 1 - 1) with n by lia.
      apply run_single; [lia|lia|apply Hrest; lia]. }
    change (p2 0) with 1 in E. replace (n + 1 - 1) with n in E by lia.
    rewrite E. cbn [mbind option_bind].
    rewrite bool_decide_true by (rewrite Hs; unfold ARRAY_SUB; lia).
    destruct (carry_mod n b Hlow Hc) as [Hm Hd].
    destruct (carry_bit n b Hlow Hc) as [Hbt Hbk].
    apply IH; [lia|lia| |].
    + split; [done|by rewrite length_insert| |intros j Hj; rewrite Hat by lia; apply Hrest; lia].
      intros k'. destruct (Nat.lt_trichotomy k' b) as [Hlt|[->|Hgt]].
      * intros Ht. by rewrite (carry_low n b) in Ht.
      * intros _. exists m. rewrite list_lookup_insert_eq by (rewrite Hs; unfold ARRAY_SUB; lia).
        rewrite Hbk. replace (n + 1 - p2 b + p2 b) with (n + 1) by lia. done.
      * destruct (carry_high n b Hlow Hc k' Hgt) as [Ht Hblk].
        intros Hb'. rewrite Ht in Hb'. destruct (Hr k' Hb') as (len & E' & R').
        exists len. rewrite Hblk, list_lookup_insert_ne by lia. split; [done|].
        eapply run_keep; [done|lia|]. intros j Hj. apply Hat. left.
        destruct (blk_end k' n Hn Hb') as [_ He].
        pose proof (mod_mono n (S b) k' Hn ltac:(lia)) as Hmm. rewrite mod_bit, Hc in Hmm. lia.
    + intros _. split; [lia|]. split; [done|]. split; [lia|done].
Qed.

Lemma collect_loop_ok k aSub a b aMerge nMerge :
  blen a = N -> (forall b', (b <= b')%nat -> sub_ok N aSub a b') ->
  (b + k = ARRAY_SUB)%nat -> aMerge = N - N mod p2 b -> run_ok a nMerge aMerge N ->
  exists a' n, collect_loop k c cap N aSub a aMerge nMerge b = Some (a', 0, n)
    /\ run_ok a' n 0 N /\ blen a' = N.
Proof.
  revert a b aMerge nMerge. induction k as [|k IH]; intros a b aMerge nMerge Ha Hsub Hk -> R.
  - cbn [collect_loop]. assert (b = 13%nat) as -> by (unfold ARRAY_SUB in Hk; lia).
    rewrite Z.mod_small in * by (change (p2 13) with 8192; lia). rewrite Z.sub_diag in *.
    exists a, nMerge. done.
  - cbn [collect_loop]. destruct (Z.testbit N (Z.of_nat b)) eqn:Hb.
    + destruct (Hsub b ltac:(lia) Hb) as (len & E & R1). rewrite E. cbn [mbind option_bind fst snd].
      destruct (blk_end b N ltac:(lia) Hb) as [Hb0 He]. rewrite He in R1.
      destruct (walMerge_ok a cap (blk b N) (N - N mod p2 b) N len nMerge R1 R ltac:(lia))
        as (a' & m & Em & R' & Hl & Hat).
      rewrite Em. cbn [mbind option_bind].
      pose proof (blk_mod b N) as Hblk.
      apply IH; [lia| |lia|done|done]. intros b' Hb'.
      eapply sub_keep; [apply Hsub; lia|lia|done|done|]. intros j Hj. apply Hat. left.
      pose proof (mod_mono N (S b) b' ltac:(lia) Hb'). lia.
    + apply IH; [done|intros; apply Hsub; lia|lia|rewrite mod_bit, Hb; lia|done].
Qed.

(** Sorting the frames [0..N): each page once, in order, its last frame. *)
Lemma walMergesort_ok :
  exists a n, walMergesort c cap (seqZ 0 N) N = Some (a, n) /\ run_ok a n 0 N /\ blen a = N.
Proof.
  assert (Hl : blen (seqZ 0 N) = N) by (unfold blen; rewrite length_seqZ; lia).
  destruct (runs_loop_ok (Z.to_nat N) 0 (replicate ARRAY_SUB (0, 0)) (seqZ 0 N) 0 0 0)
    as (aSub & a & aM & nM & iSub & E & S0 & Hi & Hmod & -> & R); [lia|lia| |lia|].
  { split; [done|done| |].
    - intros b Hb. by rewrite Z.bits_0 in Hb.
    - intros j Hj. unfold bat. destruct (Z.leb_spec 0 j); [|lia].
      rewrite lookup_seqZ_lt by lia. cbn. lia. }
  unfold walMergesort. rewrite E. cbn [mbind option_bind].
  destruct (collect_loop_ok (ARRAY_SUB - S iSub) aSub a (S iSub) (N - p2 iSub) nM)
    as (a' & n & E' & R' & Hl'); [apply S0|intros; apply S0|unfold ARRAY_SUB; lia|lia|done|].
  rewrite E'. cbn [mbind option_bind]. eauto.
Qed.
End Sorting.
End Sort.

(** ** The iterator *)

(** Frames of table [i] that the iterator covers. *)
Definition nframes (mx : Z) (i : nat) : Z := Z.min (tsize i) (mx - tzero i).

(** [l] sorts the frames [0..N) by page, keeping the last frame of a page. *)
Record sorted_frames (c : list Z) (N : Z) (l : list Z) : Prop := {
  sf_asc : StronglySorted (by_key c) l;
  sf_in i : i ∈ l -> 0 <= i < N /\ forall j, i < j < N -> bat c j <> bat c i;
  sf_all j : 0 <= j < N -> exists i, i ∈ l /\ bat c i = bat c j;
}.

Lemma run_sorted c a n N : run_ok c a n 0 N -> sorted_frames c N (seg a 0 n).
Proof. intros [B A I L _]. split; [done|done|]. intros j Hj. by apply L. Qed.

(** Segment [i] of an iterator over the frames of [log] up to [mx]. *)
Record seg_ok (st : wi) (slots log : list Z) (mx : Z) (i : nat) (s : WalSegment) : Prop := {
  sg_index : aIndex s = tzero i;
  sg_zero : seg_iZero s = tzero i + 1;
  sg_next : 0 <= iNext s <= nEntry s;
  sg_size : 0 < nframes mx i;
  sg_max : nEntry s <= nframes mx i;
  sg_slots : tzero i + nEntry s <= blen slots;
  sg_sorted : exists c, pgno_words st (seg_aPgno s) = Some c
    /\ nframes mx i <= blen c
    /\ (forall j, 0 <= j < nframes mx i -> bat c j = bat log (tzero i + j))
    /\ sorted_frames c (nframes mx i) (seg slots (tzero i) (nEntry s));
  sg_place : apWiData (wal st) !! i = Some (fst (seg_aPgno s)) /\ snd (seg_aPgno s) = toff i;
}.

Section Next.
Context (c slots : list Z) (s : WalSegment) (N iMin : Z).
Hypothesis Hn : 0 <= iNext s.
Hypothesis Hidx : 0 <= aIndex s.
Hypothesis Hslots : aIndex s + nEntry s <= blen slots.
Hypothesis Hc : N <= blen c.
Hypothesis HS : sorted_frames c N (seg slots (aIndex s) (nEntry s)).

Definition entry (t : Z) : Z := bat slots (aIndex s + t).

Lemma next_loop_ok fuel s' :
  s' = set_iNext (iNext s') s -> 0 <= iNext s' <= nEntry s ->
  nEntry s - iNext s' < Z.of_nat fuel ->
  exists i r, next_loop fuel c slots s' iMin = Some (set_iNext i s, r)
    /\ iNext s' <= i <= nEntry s
    /\ (forall t, iNext s' <= t < i -> bat c (entry t) <= iMin)
    /\ r = (if i <? nEntry s then Some (bat c (entry i), u32 (seg_iZero s + entry i)) else None)
    /\ (i < nEntry s -> iMin < bat c (entry i)).
Proof.
  revert s'. induction fuel as [|fuel IH]; intros s' Hs Hi Hf; [lia|].
  cbn [next_loop]. set (n := iNext s') in *.
  assert (E1 : nEntry s' = nEntry s) by (by rewrite Hs). assert (E2 : aIndex s' = aIndex s) by (by rewrite Hs).
  assert (E3 : seg_iZero s' = seg_iZero s) by (by rewrite Hs).
  rewrite E1, E2, E3. destruct (Z.ltb_spec n (nEntry s)).
  2:{ exists n, None. rewrite <- Hs. split_and!; try done; try lia.
      destruct (Z.ltb_spec n (nEntry s)); [lia|done]. }
  rewrite bget_in by lia. cbn [mbind option_bind]. fold (entry n).
  assert (Hv : 0 <= entry n < N).
  { apply (sf_in _ _ _ HS). apply seg_elem; [lia|lia|]. exists n. split; [lia|done]. }
  rewrite bget_in by lia. cbn [mbind option_bind].
  destruct (Z.ltb_spec iMin (bat c (entry n))).
  - exists n, (Some (bat c (entry n), u32 (seg_iZero s + entry n))). rewrite <- Hs.
    split_and!; try done; try lia. destruct (Z.ltb_spec n (nEntry s)); [done|lia].
  - destruct (IH (set_iNext (n + 1) s')) as (i & r & E & Hi' & Hle & Hr & Hgt).
    + rewrite Hs. done.
    + cbn [iNext set_iNext]. lia.
    + cbn [iNext set_iNext]. lia.
    + cbn [iNext set_iNext] in *. exists i, r. split_and!; try done; try lia.
      intros t Ht. destruct (decide (t = n)) as [->|]; [lia|]. apply Hle. lia.
Qed.

(** The first entry with a page after [iMin] has the least such page. *)
Lemma entry_least i j :
  0 <= i < nEntry s -> (forall t, 0 <= t < i -> bat c (entry t) <= iMin) ->
  0 <= j < N -> iMin < bat c j -> bat c (entry i) <= bat c j.
Proof.
  intros Hi Hle Hj Hgt. destruct (sf_all _ _ _ HS j Hj) as (v & Hv & Hk).
  apply seg_elem in Hv as (t & Ht & ->); [|lia|lia]. fold (entry t) in Hk.
  destruct (Z.lt_trichotomy t i) as [Hl|[->|Hg]]; [specialize (Hle t ltac:(lia)); lia|lia|].
  pose proof (ascending_at c slots (aIndex s) (nEntry s) i t Hidx Hslots (sf_asc _ _ _ HS) ltac:(lia) ltac:(lia)).
  fold (entry i) (entry t) in H. lia.
Qed.
(** When all entries are passed no page after [iMin] is left. *)
Lemma entry_none j :
  (forall t, 0 <= t < nEntry s -> bat c (entry t) <= iMin) -> 0 <= j < N -> bat c j <= iMin.
Proof.
  intros Hle Hj. destruct (sf_all _ _ _ HS j Hj) as (v & Hv & Hk).
  apply seg_elem in Hv as (t & Ht & ->); [|lia|lia]. fold (entry t) in Hk. specialize (Hle t Ht). lia.
Qed.
End Next.

Definition NO_PAGE : Z := 0xFFFFFFFF.

Section Iterator.
Context (st : wi) (slots log : list Z) (mx : Z) (h0 : nat).
Hypothesis Hmx : 0 < mx <= blen log.
Hypothesis Hmax : mx < max_frame.
Hypothesis Hpages : forall j, 0 <= j < mx -> 0 < bat log j < NO_PAGE.

(** The page of a frame. *)
Definition page (f : Z) : Z := bat log (f - 1).

(** The segments, when the pages up to [iMin] have been passed. *)
Record segs_ok (iMin : Z) (segs : list WalSegment) : Prop := {
  ss_len : length segs = S (walFramePage mx);
  ss_empty i s : segs !! i = Some s -> (i < h0)%nat -> iNext s = 0 /\ nEntry s = 0;
  ss_seg i s : segs !! i = Some s -> (h0 <= i)%nat -> seg_ok st slots log mx i s;
  ss_passed i s t : segs !! i = Some s -> (h0 <= i)%nat -> 0 <= t < iNext s ->
    page (tzero i + 1 + bat slots (tzero i + t)) <= iMin;
}.

(** Frames of the tables from [n] on. *)
Definition covered (n : nat) (f : Z) : Prop := tzero (Nat.max n h0) < f <= mx.

(** [R] is the least page after [iMin] in the tables from [n] on, [F] its
    last frame; [NO_PAGE] when there is no such page. *)
Definition best (iMin : Z) (n : nat) (R F : Z) : Prop :=
  (R = NO_PAGE /\ forall f, covered n f -> page f <= iMin) \/
  (iMin < R < NO_PAGE /\ covered n F /\ page F = R
   /\ (forall f, covered n f -> iMin < page f -> R <= page f)
   /\ (forall f, F < f <= mx -> page f <> R)).

Lemma covered_S n f : (h0 <= n)%nat ->
  covered n f <-> (tzero n < f <= tzero n + nframes mx n) \/ covered (S n) f.
Proof.
  intros Hn. unfold covered, nframes. rewrite !Nat.max_l by lia. rewrite tzero_S.
  pose proof (tsize_pos n). lia.
Qed.

(** Adding a table none of whose pages is new. *)
Lemma best_none iMin n R F :
  (h0 <= n)%nat -> best iMin (S n) R F ->
  (forall f, tzero n < f <= tzero n + nframes mx n -> page f <= iMin) -> best iMin n R F.
Proof.
  intros Hn [[-> H]|(H1 & H2 & H3 & H4 & H5)] Hnone.
  - left. split; [done|]. intros f [Hf|Hf]%covered_S; [auto|auto|done].
  - right. split; [done|]. split; [apply covered_S; auto|]. split; [done|]. split; [|done].
    intros f [Hf|Hf]%covered_S Hgt; [specialize (Hnone f Hf); lia|auto|done].
Qed.

(** Adding a table whose least new page is [k], last in frame [f0]. *)
Lemma best_some iMin n R F k f0 :
  (h0 <= n)%nat -> best iMin (S n) R F -> 0 < nframes mx n ->
  iMin < k < NO_PAGE -> tzero n < f0 <= tzero n + nframes mx n -> page f0 = k ->
  (forall f, tzero n < f <= tzero n + nframes mx n -> iMin < page f -> k <= page f) ->
  (forall f, f0 < f <= tzero n + nframes mx n -> page f <> k) ->
  if k <? R then best iMin n k f0 else best iMin n R F.
Proof.
  intros Hn HB HN Hk Hf0 Hp Hmin Hlast.
  assert (Hcov : forall f, tzero n < f <= mx ->
     tzero n < f <= tzero n + nframes mx n \/ covered (S n) f).
  { intros f Hf. apply covered_S; [done|]. unfold covered. by rewrite Nat.max_l. }
  assert (Hc0 : covered n f0) by (apply covered_S; auto).
  destruct (Z.ltb_spec k R) as [HkR|HkR].
  - right. split; [done|]. split; [done|]. split; [done|]. split.
    + intros f [Hf|Hf]%covered_S Hgt; [auto| |done].
      destruct HB as [[-> H]|(_ & _ & _ & H4 & _)]; [specialize (H f Hf); lia|].
      specialize (H4 f Hf Hgt). lia.
    + intros f Hf Hpf. destruct (Hcov f ltac:(lia)) as [Hin|Hin]; [by apply (Hlast f); [lia|]|].
      destruct HB as [[-> H]|(_ & _ & _ & H4 & _)]; [specialize (H f Hin); lia|].
      specialize (H4 f Hin ltac:(lia)). lia.
  - destruct HB as [[-> _]|(H1 & H2 & H3 & H4 & H5)]; [lia|].
    right. split; [done|]. split; [apply covered_S; auto|]. split; [done|]. split; [|done].
    intros f [Hf|Hf]%covered_S Hgt; [specialize (Hmin f Hf Hgt); lia|auto|done].
Qed.

(** What one segment contributes. *)
Lemma segment_next iMin n segs s R F :
  segs_ok iMin segs -> segs !! n = Some s -> best iMin (S n) R F ->
  exists c i r, seg_content st s = Some c
    /\ next_loop (S (Z.to_nat (nEntry s - iNext s))) c slots s iMin = Some (set_iNext i s, r)
    /\ segs_ok iMin (<[n := set_iNext i s]> segs)
    /\ match r with
       | Some (k, f) => if k <? R then best iMin n k f else best iMin n R F
       | None => best iMin n R F
       end.
Proof.
  intros SS Hs HB. pose proof (lookup_lt_Some _ _ _ Hs) as Hlt.
  assert (Hsame : s = set_iNext (iNext s) s) by (by destruct s).
  assert (Hins : segs_ok iMin (<[n := set_iNext (iNext s) s]> segs)).
  { by rewrite <- Hsame, list_insert_id. }
  destruct (decide (n < h0)%nat) as [Hh|Hh].
  { destruct (ss_empty _ _ SS n s Hs Hh) as [E1 E2]. exists [], (iNext s), None.
    unfold seg_content. rewrite E1, E2 in *. cbn [Z.ltb]. rewrite Z.sub_0_r. cbn -[Z.to_nat].
    rewrite E1, E2. split; [done|]. split; [by rewrite <- Hsame|]. split; [exact Hins|].
    unfold best, covered in *. rewrite Nat.max_r in * by lia. done. }
  destruct (ss_seg _ _ SS n s Hs ltac:(lia)) as [G1 G2 G3 G4 Gm G5 (c & Gc & G6 & G7 & G8) G9].
  set (N := nframes mx n) in *. pose proof (tzero_nonneg n) as Hz.
  assert (HN : tzero n + N <= mx) by (unfold N, nframes; lia).
  assert (Hpg : forall v, 0 <= v < N -> page (tzero n + 1 + v) = bat c v).
  { intros v Hv. unfold page. rewrite G7 by done. f_equal. lia. }
  assert (G8' : sorted_frames c N (seg slots (aIndex s) (nEntry s))) by (by rewrite G1).
  assert (Hin : forall t, 0 <= t < nEntry s -> 0 <= bat slots (tzero n + t) < N).
  { intros t Ht. apply (sf_in _ _ _ G8). apply seg_elem; [lia|lia|]. eauto. }
  destruct (Z.ltb_spec (iNext s) (nEntry s)) as [Hnx|Hnx].
  2:{ (* every entry has been passed *)
    exists [], (iNext s), None. unfold seg_content.
    destruct (Z.ltb_spec (iNext s) (nEntry s)); [lia|]. split; [done|].
    split; [cbn [next_loop]; destruct (Z.ltb_spec (iNext s) (nEntry s)); [lia|by rewrite <- Hsame]|].
    split; [done|]. apply best_none; [lia|done|]. intros f Hf. fold N in Hf.
    replace f with (tzero n + 1 + (f - tzero n - 1)) by lia. rewrite Hpg by lia.
    apply (entry_none c slots s N); rewrite ?G1; try done; try lia.
    intros t Ht. unfold entry. rewrite G1, <- Hpg by auto.
    apply (ss_passed _ _ SS n s); [done|lia|lia]. }
  destruct (next_loop_ok c slots s N iMin) with (fuel := S (Z.to_nat (nEntry s - iNext s))) (s' := s)
    as (i & r & E & Hi & Hle & Hr & Hgt); rewrite ?G1; try done; try lia.
  unfold entry in *. rewrite G1 in *.
  assert (Hpass : forall t, 0 <= t < i -> bat c (bat slots (tzero n + t)) <= iMin).
  { intros t Ht. destruct (Z.lt_ge_cases t (iNext s)); [|apply Hle; lia].
    rewrite <- Hpg by (apply Hin; lia). apply (ss_passed _ _ SS n s); [done|lia|lia]. }
  exists c, i, r. unfold seg_content. destruct (Z.ltb_spec (iNext s) (nEntry s)); [|lia].
  split; [done|]. split; [done|]. split.
  - destruct SS as [S1 S2 S3 S4].
    assert (Hcase : forall j s1, <[n := set_iNext i s]> segs !! j = Some s1 ->
      (j = n /\ s1 = set_iNext i s) \/ segs !! j = Some s1).
    { intros j s1 Hj. apply list_lookup_insert_Some in Hj as [(-> & <- & _)|[_ Hj]]; auto. }
    split; [by rewrite length_insert|..].
    + intros j s1 [[-> ->]|Hj]%Hcase Hjh; [lia|eauto].
    + intros j s1 [[-> ->]|Hj]%Hcase Hjh; [|eauto]. split; cbn; try done; try lia. eauto 8.
    + intros j s1 t [[-> ->]|Hj]%Hcase Hjh Ht; [|eauto]. cbn in Ht.
      rewrite Hpg by (apply Hin; lia). by apply Hpass.
  - subst r. destruct (Z.ltb_spec i (nEntry s)) as [Hlt'|Hge].
    + specialize (Hgt Hlt'). set (v := bat slots (tzero n + i)) in *.
      assert (Hv : 0 <= v < N) by (apply Hin; lia).
      rewrite u32_small by (unfold max_frame in *; lia). rewrite G2.
      apply best_some; try done; try lia.
      * split; [done|]. rewrite <- Hpg by done. unfold page. apply Hpages. lia.
      * by apply Hpg.
      * fold N. intros f Hf. replace f with (tzero n + 1 + (f - tzero n - 1)) by lia.
        rewrite Hpg by lia. intros Hgtf.
        pose proof (entry_least c slots s N iMin) as HL. unfold entry in HL. rewrite G1 in HL.
        apply (HL ltac:(lia) ltac:(lia) G8 i (f - tzero n - 1)); [lia|done|lia|done].
      * fold N. intros f Hf Hk. replace f with (tzero n + 1 + (f - tzero n - 1)) in Hk by lia.
        rewrite Hpg in Hk by lia. assert (Hlv : forall j, v < j < N -> bat c j <> bat c v);
          [apply (sf_in _ _ _ G8); apply seg_elem; [lia|lia|exists i; split; [lia|done]]|].
        apply (Hlv (f - tzero n - 1)); [lia|done].
    + apply best_none; [lia|done|]. intros f Hf. fold N in Hf.
      replace f with (tzero n + 1 + (f - tzero n - 1)) by lia. rewrite Hpg by lia.
      apply (entry_none c slots s N); rewrite ?G1; try done; try lia.
      intros t Ht. unfold entry. rewrite G1. apply Hpass. lia.
Qed.

Lemma segments_loop_ok iMin n segs R F :
  segs_ok iMin segs -> (n <= length segs)%nat -> best iMin n R F ->
  exists segs' R' F', segments_loop n st slots iMin segs R F = Some (segs', R', F')
    /\ segs_ok iMin segs' /\ best iMin 0 R' F'.
Proof.
  revert segs R F. induction n as [|n IH]; intros segs R F SS Hn HB.
  - exists segs, R, F. done.
  - cbn [segments_loop]. destruct (lookup_lt_is_Some_2 segs n) as [s Hs]; [lia|].
    destruct (segment_next iMin n segs s R F SS Hs HB) as (c & i & r & E1 & E2 & SS' & Hr).
    rewrite Hs. cbn [mbind option_bind]. rewrite E1. cbn [mbind option_bind]. rewrite E2.
    cbn [mbind option_bind].
    destruct r as [[k f]|]; [destruct (k <? R)|]; (apply IH; [done|rewrite length_insert; lia|done]).
Qed.
End Iterator.

(** An iterator over the frames of [log] up to [mx], from table [h0] on. *)
Definition iter_ok (st : wi) (log : list Z) (mx : Z) (h0 : nat) (p : WalIterator) : Prop :=
  0 <= iPrior p /\ segs_ok st (iter_slots p) log mx h0 (iPrior p) (aSegment p).

(** The least page after [k] among frames [lo+1..mx], with its last frame. *)
Definition next_page (log : list Z) (lo mx k : Z) (r : option (Z * Z)) : Prop :=
  match r with
  | None => forall f, lo < f <= mx -> page log f <= k
  | Some (pg, f) => k < pg /\ lo < f <= mx /\ page log f = pg
      /\ (forall f', lo < f' <= mx -> k < page log f' -> pg <= page log f')
      /\ (forall f', f < f' <= mx -> page log f' <> pg)
  end.

Lemma walIteratorNext_ok st log mx h0 p :
  0 < mx <= blen log -> mx < max_frame ->
  (forall j, 0 <= j < mx -> 0 < bat log j < NO_PAGE) ->
  iter_ok st log mx h0 p -> iPrior p < NO_PAGE ->
  exists p' r, walIteratorNext st p = Some (p', r) /\ iter_ok st log mx h0 p'
    /\ next_page log (tzero h0) mx (iPrior p) r
    /\ iPrior p' = match r with Some (pg, _) => pg | None => NO_PAGE end.
Proof.
  intros Hmx Hmax Hpages [Hp SS] Hprior. unfold walIteratorNext.
  destruct (segments_loop_ok st (iter_slots p) log mx h0 Hmax Hpages (iPrior p)
    (length (aSegment p)) (aSegment p) NO_PAGE 0) as (segs & R & F & E & SS' & HB); [done|done| |].
  { left. split; [done|]. intros f Hf. unfold covered in Hf. rewrite (ss_len _ _ _ _ _ _ _ SS) in Hf.
    pose proof (walFramePage_spec mx ltac:(lia)) as Hh.
    pose proof (tzero_mono (S (walFramePage mx)) (Nat.max (S (walFramePage mx)) h0) ltac:(lia)) as Hm.
    rewrite tzero_S in Hm. lia. }
  change 0xFFFFFFFF with NO_PAGE. rewrite E. cbn [mbind option_bind].
  assert (Hle : iPrior p <= R) by (destruct HB as [[-> _]|(? & _)]; lia).
  exists (mkIter R segs (iter_slots p)), (if R =? NO_PAGE then None else Some (R, F)).
  split; [done|]. split.
  { split; [cbn; lia|]. cbn. destruct SS' as [S1 S2 S3 S4]. split; [done..|].
    intros i s t Hs Hh Ht. specialize (S4 i s t Hs Hh Ht). lia. }
  destruct HB as [[-> Hnone]|(H1 & H2 & H3 & H4 & H5)].
  - rewrite Z.eqb_refl. split; [|done]. intros f Hf. by apply Hnone.
  - destruct (Z.eqb_spec R NO_PAGE); [lia|]. split; [|done]. split; [lia|].
    split; [apply H2|]. split; [done|]. split; [|done]. intros f Hf. by apply H4.
Qed.

(** *** Building the iterator *)

Section Init.
Context (mallocOk : nat -> bool) (shmRc : nat -> Z) (log : list Z) (mx : Z) (h0 : nat).
Hypothesis Hmx : 0 < mx <= blen log.
Hypothesis Hmax : mx < max_frame.

(** The tables below [cur] have their segment. *)
Record init_ok (st : wi) (cur : nat) (p : WalIterator) : Prop := {
  in_prior : iPrior p = 0;
  in_len : length (aSegment p) = S (walFramePage mx);
  in_slots : blen (iter_slots p) = mx;
  in_done i s : aSegment p !! i = Some s -> (h0 <= i < cur)%nat ->
    seg_ok st (iter_slots p) log mx i s /\ iNext s = 0
    /\ apWiData (wal st) !! i = Some (fst (seg_aPgno s)) /\ fst (seg_aPgno s) <> Unmapped;
  in_zero i s : aSegment p !! i = Some s -> (i < h0 \/ cur <= i)%nat ->
    iNext s = 0 /\ nEntry s = 0;
}.

Lemma init_ext st st' cur p :
  index_ok log st -> view_ext st st' -> init_ok st cur p -> init_ok st' cur p.
Proof.
  intros I (Xw & Xp & Xv & Xa & _) [A B C D E]. split; try done. intros i s Hs Hi.
  destruct (D i s Hs Hi) as ([G1 G2 G3 G4 Gm G5 (c & Gc & G6 & G7 & G8) G9] & Hn & Ha & Hne).
  split; [|split; [done|split; [by apply Xa|done]]].
  split; try done; [|split; [by apply Xa|apply G9]]. exists c. split; [|done].
  unfold pgno_words in *. destruct (deref st (fst (seg_aPgno s))) as [g|] eqn:Ed; [|done].
  assert (Hv : view st i = Some g) by (unfold view; rewrite Ha; cbn; by destruct (fst (seg_aPgno s))).
  rewrite (deref_view st' i (fst (seg_aPgno s)) g); auto.
Qed.

Lemma blit_seg d off src d' n :
  blit d off src = Some d' -> 0 <= n <= blen src -> seg d' off n = seg src 0 n.
Proof.
  intros E Hn. pose proof (blit_bounds _ _ _ _ E). pose proof (blit_len _ _ _ _ E).
  apply bytes_ext; [rewrite !blen_seg; lia|]. rewrite blen_seg by lia. intros j Hj.
  rewrite !seg_at, (blit_at _ _ _ _ _ E) by lia.
  destruct (Z.leb_spec off (off + j)), (Z.ltb_spec (off + j) (off + blen src)); try lia.
  cbn. f_equal. lia.
Qed.

Lemma init_segment_done st i p slots c a n N ptr g :
  init_ok st i p -> (h0 <= i <= walFramePage mx)%nat ->
  apWiData (wal st) !! i = Some ptr -> ptr <> Unmapped -> deref st ptr = Some g ->
  table_ok (tkeys i log) (toff i) g -> c = drop (Z.to_nat (toff i)) (words g) ->
  N = nframes mx i -> 0 < N -> tzero i + N <= mx -> N <= blen c ->
  run_ok c a n 0 N -> blen a = N -> blen slots = mx ->
  (forall j, j < tzero i -> bat slots j = bat (iter_slots p) j) ->
  forall slots', blit slots (tzero i) a = Some slots' ->
  init_ok st (S i) (mkIter (iPrior p)
    (<[i := mkSeg 0 (tzero i) (ptr, toff i) n (u32 (tzero i + 1))]> (aSegment p)) slots').
Proof.
  intros [A B C D E] Hi Ha Hne Hd T -> -> HN Hend HNc R Hla Hls Hkeep slots' Eb.
  pose proof (tzero_nonneg i). pose proof (tsize_pos i).
  pose proof (ro_bounds _ _ _ _ _ R). pose proof (ro_len _ _ _ _ _ R).
  assert (Hls' : blen slots' = mx) by (rewrite (blit_len _ _ _ _ Eb); lia).
  split; cbn [iPrior aSegment iter_slots]; [done|by rewrite length_insert|done|..].
  - intros k s Hk Hki. apply list_lookup_insert_Some in Hk as [(Hik & <- & _)|[Hne' Hk]]; [subst k|].
    + split; [|by split_and!]. split; cbn; try done; try lia.
      * rewrite u32_small; unfold max_frame in *; lia.
      * exists (drop (Z.to_nat (toff i)) (words g)). split; [unfold pgno_words; cbn; by rewrite Hd|].
        split; [done|]. split; [|rewrite (blit_seg _ _ _ _ _ Eb) by lia; by apply run_sorted].
        intros j Hj. unfold bat at 1. destruct (Z.leb_spec 0 j); [|lia]. rewrite lookup_drop.
        assert (Hw : bat (words g) (toff i + j) = bat log (tzero i + j)).
        { unfold nframes in *. rewrite (t_key _ _ _ T), tkeys_at by (rewrite ?tkeys_len; lia). done. }
        rewrite <- Hw. unfold bat. destruct (Z.leb_spec 0 (toff i + j)); [|lia].
        do 2 f_equal. lia.
    + destruct (D k s Hk ltac:(lia)) as ([G1 G2 G3 G4 Gm G5 (c & Gc & G6 & G7 & G8) G9] & Hn & Hap & Hnm).
      split; [|by split_and!]. split; try done; [lia|].
      exists c. split; [done|]. split; [done|]. split; [done|].
      replace (seg slots' (tzero k) (nEntry s)) with (seg (iter_slots p) (tzero k) (nEntry s)); [done|].
      pose proof (tzero_mono (S k) i ltac:(lia)) as Hm. rewrite tzero_S in Hm. unfold nframes in Gm.
      pose proof (tzero_nonneg k). symmetry. apply seg_eq; try lia. intros j Hj.
      rewrite (blit_at _ _ _ _ _ Eb). destruct (Z.leb_spec (tzero i) j); [lia|]. cbn. apply Hkeep. lia.
  - intros k s Hk Hki. apply list_lookup_insert_Some in Hk as [(Hik & _ & _)|[Hne' Hk]]; [lia|].
    apply (E k s Hk). lia.
Qed.

Lemma init_segment_ok st i p :
  index_ok log st -> init_ok st i p -> (h0 <= i <= walFramePage mx)%nat ->
  wp (init_segment mallocOk shmRc mx (S (walFramePage mx)) i p)
    (okp (fun st' => index_ok log st' /\ view_ext st st')
      (fun p' st' => index_ok log st' /\ view_ext st st' /\ init_ok st' (S i) p')) st.
Proof.
  intros I IN Hi. unfold init_segment.
  pose proof (walFramePage_spec mx ltac:(lia)) as Hh.
  pose proof (tzero_mono i (walFramePage mx) ltac:(lia)). pose proof (tzero_nonneg i).
  pose proof (tsize_pos i). pose proof (ix_len _ _ I).
  eapply wp_seq.
  { eapply wp_mono; [apply walHashGet_ok; [apply I|lia]|].
    intros [loc|e|] st'; cbn; [intros Hq; exact Hq| |done].
    intros [W X]. split; [by eapply index_ext|done]. }
  cbn beta. intros loc s1 (W & X & Hpg & Hiz & Ha & g & Hd & Hv). rewrite Hpg, Hiz.
  assert (I1 : index_ok log s1) by (by eapply index_ext).
  destruct (ix_table _ _ I1 i) as (g' & Hg' & T); [lia|].
  assert (g' = g) as -> by congruence.
  apply (init_ext st s1) in IN; [|done|done].
  set (N := nframes mx i).
  assert (HN : (if bool_decide (S i = S (walFramePage mx)) then mx - tzero i
                else HASHTABLE_NPAGE - toff i) = N).
  { unfold N, nframes. case_bool_decide as Hc.
    - injection Hc as ->. lia.
    - pose proof (tzero_mono (S i) (walFramePage mx) ltac:(lia)) as Hm. rewrite tzero_S in Hm.
      unfold tsize in *. unfold HASHTABLE_NPAGE. lia. }
  rewrite HN. do 2 wp_step. unfold after. change (id s1) with s1.
  set (c := drop (Z.to_nat (toff i)) (words g)).
  assert (Ec : pgno_words s1 (aPage loc, toff i) = Some c) by (unfold pgno_words; cbn; by rewrite Hd).
  rewrite Ec. do 2 wp_step. unfold after.
  assert (Hc : blen c = tsize i).
  { pose proof (t_words _ _ _ T) as Hw. unfold c, tsize, blen, HASHTABLE_NPAGE in *.
    rewrite length_drop. lia. }
  assert (HNr : 0 < N <= 4096 /\ N <= tsize i /\ tzero i + N <= mx).
  { unfold N, nframes, tsize in *. lia. }
  assert (Hsq : blen (seqZ 0 N) = N) by (unfold blen; rewrite length_seqZ; lia).
  assert (Hms : blen (iter_slots p) = mx) by apply IN.
  destruct (blit_in (iter_slots p) (tzero i) (seqZ 0 N)) as [slots Es]; [lia..|].
  pose proof (blit_len _ _ _ _ Es) as Hls.
  rewrite Es. do 2 wp_step. unfold after.
  destruct (bsub_in slots (tzero i) N) as [a0 Ea]; [lia..|]. rewrite Ea.
  apply bsub_seg in Ea. rewrite (blit_seg _ _ _ _ _ Es) in Ea by lia.
  assert (Hid : seg (seqZ 0 N) 0 N = seqZ 0 N).
  { transitivity (seg (seqZ 0 N) 0 (blen (seqZ 0 N))); [by rewrite Hsq|apply seg_all]. }
  rewrite Hid in Ea. subst a0. do 2 wp_step. unfold after.
  destruct (walMergesort_ok c (mx `min` HASHTABLE_NPAGE) N) as (a & n & E & R & Hla);
    [lia|lia|unfold HASHTABLE_NPAGE; lia|].
  rewrite E. do 2 wp_step. unfold after.
  destruct (blit_in slots (tzero i) a) as [slots' Es']; [lia..|].
  rewrite Es'. do 2 wp_step. unfold after. wp_step. cbn [okp].
  split; [done|]. split; [done|].
  eapply init_segment_done with (slots := slots) (a := a) (N := N); try done; try lia.
  - intros Hu. by rewrite Hu in Hd.
  - fold c. lia.
  - intros j Hj. rewrite (blit_at _ _ _ _ _ Es). destruct (Z.leb_spec (tzero i) j); [lia|done].
Qed.

Lemma init_loop_ok k st i p :
  index_ok log st -> init_ok st i p -> (h0 <= i)%nat -> (i + k = S (walFramePage mx))%nat ->
  wp (init_loop mallocOk shmRc k mx (S (walFramePage mx)) i p)
    (okp (fun st' => index_ok log st' /\ view_ext st st')
      (fun p' st' => index_ok log st' /\ view_ext st st' /\ init_ok st' (S (walFramePage mx)) p')) st.
Proof.
  revert st i p. induction k as [|k IH]; intros st i p I IN Hi Hk; cbn [init_loop].
  - wp_go. cbn. split; [done|]. split; [apply view_ext_refl|].
    by replace (S (walFramePage mx)) with i by lia.
  - eapply wp_seq.
    + eapply wp_mono; [apply init_segment_ok; [done|done|lia]|].
      intros [q|e|] st'; cbn; [intros Hq; exact Hq|tauto|done].
    + cbn beta. intros q s1 (I1 & X & IN1). eapply wp_mono; [apply IH; [done|done|lia|lia]|].
      intros [q'|e|] st'; cbn; [|intros [? ?]; split; [done|by eapply view_ext_trans]|done].
      intros (? & ? & ?). split; [done|]. split; [by eapply view_ext_trans|done].
Qed.

Lemma walIteratorInit_ok nBackfill st :
  index_ok log st -> mxFrame (hdr (wal st)) = mx -> h0 = walFramePage (nBackfill + 1) ->
  0 <= nBackfill < mx ->
  wp (walIteratorInit mallocOk shmRc nBackfill)
    (okp (fun st' => index_ok log st' /\ view_ext st st')
      (fun p st' => index_ok log st' /\ view_ext st st'
         /\ iPrior p = 0 /\ iter_ok st' log mx h0 p)) st.
Proof.
  intros I Hm Hh0 Hn. unfold walIteratorInit. do 2 wp_step. unfold after. rewrite Hm.
  wp_step. unfold wp at 1, wi_malloc. cbn [fst snd].
  assert (X0 : view_ext st (count_req st)) by (split_and!; [apply wal_same_refl|done..]).
  assert (I1 : index_ok log (count_req st)) by (apply (index_ext log st); [done|by destruct I as [[] ? ? ?]|done]).
  assert (Hhh : (h0 <= walFramePage mx)%nat).
  { rewrite Hh0. destruct (Nat.le_gt_cases (walFramePage (nBackfill + 1)) (walFramePage mx)) as [|Hc]; [done|].
    pose proof (walFramePage_spec mx ltac:(lia)) as H1.
    pose proof (walFramePage_spec (nBackfill + 1) ltac:(lia)) as H2.
    pose proof (tzero_mono (S (walFramePage mx)) (walFramePage (nBackfill + 1)) ltac:(lia)) as H3.
    rewrite tzero_S in H3. lia. }
  destruct (mallocOk (wreqs st)); cbn [after]; [|wp_go; split; [done|exact X0]].
  rewrite <- Hh0. eapply wp_mono.
  { apply init_loop_ok; [done| |lia|lia]. split; cbn -[replicate].
    - done.
    - by rewrite length_replicate.
    - rewrite zeros_len; lia.
    - intros; lia.
    - by intros i s [-> _]%lookup_replicate _. }
  intros [p|e|] st'; cbn; [|intros [? X]; split; [done|exact (view_ext_trans _ _ _ X0 X)]|done].
  intros (I' & X & [A B C D E]). split; [done|]. split; [exact (view_ext_trans _ _ _ X0 X)|]. split; [done|].
  split; [lia|]. split; [done|..].
  - intros i s Hs Hi. apply (E i s Hs). by left.
  - intros i s Hs Hi. apply (D i s Hs). apply lookup_lt_Some in Hs. lia.
  - intros i s t Hs Hi Ht. apply lookup_lt_Some in Hs as Hl.
    destruct (D i s Hs ltac:(lia)) as (_ & Hz & _). lia.
Qed.
End Init.

(** ** The whole traversal *)

(** The loop of [walCheckpoint] over the iterator, which collects what it
    visits. *)
Fixpoint iter_all (fuel : nat) (st : wi) (p : WalIterator) : option (list (Z * Z)) :=
  match fuel with
  | O => None
  | S fuel =>
      r ← walIteratorNext st p;
      match snd r with
      | None => Some []
      | Some x => l ← iter_all fuel st (fst r); Some (x :: l)
      end
  end.

(** Frame [f] is the last one of page [pg] among [lo+1..mx]. *)
Definition last_of (log : list Z) (lo mx pg f : Z) : Prop :=
  lo < f <= mx /\ page log f = pg /\ forall f', f < f' <= mx -> page log f' <> pg.

(** Frames whose page is after [k]. *)
Definition later (log : list Z) (lo mx k : Z) : list Z :=
  filter (fun f => k < page log f) (seqZ (lo + 1) (mx - lo)).

Lemma later_step log lo mx k pg f :
  k < pg -> lo < f <= mx -> page log f = pg ->
  (length (later log lo mx pg) < length (later log lo mx k))%nat.
Proof.
  intros Hk Hf Hp. unfold later.
  assert (Hin : f ∈ seqZ (lo + 1) (mx - lo)) by (apply elem_of_seqZ; lia).
  induction (seqZ (lo + 1) (mx - lo)) as [|x l IH]; [by apply list.elem_of_nil in Hin|].
  assert (Hle : (length (filter (fun f => (pg < page log f)%Z) l) <= length (filter (fun f => (k < page log f)%Z) l))%nat).
  { clear -Hk. induction l as [|y l IH]; [done|]. rewrite !filter_cons. repeat case_decide; cbn; lia. }
  rewrite !filter_cons. apply list.elem_of_cons in Hin as [<- |Hin].
  - rewrite decide_False, decide_True by lia. cbn. lia.
  - specialize (IH Hin). repeat case_decide; cbn; lia.
Qed.

Lemma iter_all_ok st log mx h0 fuel p :
  0 < mx <= blen log -> mx < max_frame ->
  (forall j, 0 <= j < mx -> 0 < bat log j < NO_PAGE) ->
  iter_ok st log mx h0 p -> iPrior p < NO_PAGE ->
  (length (later log (tzero h0) mx (iPrior p)) < fuel)%nat ->
  exists l, iter_all fuel st p = Some l
    /\ StronglySorted (fun x y => fst x < fst y) l
    /\ (forall pg f, (pg, f) ∈ l <-> iPrior p < pg /\ last_of log (tzero h0) mx pg f).
Proof.
  intros Hmx Hmax Hpg. revert p. induction fuel as [|fuel IH]; intros p Hp Hprior Hf; [lia|].
  cbn [iter_all].
  destruct (walIteratorNext_ok st log mx h0 p Hmx Hmax Hpg Hp Hprior) as (p' & r & E & Hp' & Hr & HP).
  rewrite E. cbn [mbind option_bind fst snd]. destruct r as [[pg f]|].
  - destruct Hr as (H1 & H2 & H3 & H4 & H5).
    assert (Hlast : forall f', last_of log (tzero h0) mx pg f' <-> f' = f).
    { intros f'. split; [|intros ->; done]. intros (L1 & L2 & L3).
      destruct (Z.lt_trichotomy f f') as [Hl|[|Hl]]; [by destruct (H5 f' ltac:(lia))|done|].
      by destruct (L3 f ltac:(lia)). }
    assert (Hno : pg < NO_PAGE) by (rewrite <- H3; unfold page; apply Hpg; pose proof (tzero_nonneg h0); lia).
    destruct (IH p' Hp' ltac:(lia)) as (l & -> & Hs & Hl).
    { rewrite HP. pose proof (later_step log (tzero h0) mx (iPrior p) pg f H1 H2 H3). lia. }
    exists ((pg, f) :: l). split; [done|]. rewrite HP in Hl. split.
    + constructor; [done|]. apply list.Forall_forall. intros [q g] Hq. cbn. by apply Hl in Hq as [? _].
    + intros q g. rewrite list.elem_of_cons, Hl. split.
      * intros [[= -> ->]|[? ?]]; [split; [done|by apply Hlast]|split; [lia|done]].
      * intros [Hq Hg]. destruct (decide (q = pg)) as [->|Hne].
        { left. f_equal. by apply Hlast. }
        right. split; [|done]. destruct Hg as (G1 & G2 & _). specialize (H4 g G1). lia.
  - exists []. split; [done|]. split; [constructor|]. intros pg f. split; [by intros H%list.elem_of_nil|].
    intros [Hk (L1 & L2 & _)]. specialize (Hr f L1). lia.
Qed.

Lemma later_le log lo mx k : (length (later log lo mx k) <= Z.to_nat (mx - lo))%nat.
Proof. unfold later. etransitivity; [apply length_filter|]. by rewrite length_seqZ. Qed.
