(* ===== verification/WalRecover.v ===== *)
(** * Recovery of the log ([walIndexRecover] of [src/src/wal.c])

    The log file is a byte string read through requests that may fail
    ([ioRc n]); locks may be refused ([lockRc n], of the lock and the count asked for).  Recovery rebuilds the
    wal-index table by table in a private page, which it then copies over the
    shared one, and sets the header to the last commit frame it could verify. *)
From S2P Require Import Prelude Bits Bytes Varint Wal WalIndex.

(** ** Definitions *)

Definition SQLITE_CANTOPEN : Z := 14.
Definition SQLITE_MAX_PAGE_SIZE : Z := 65536.
Definition READMARK_NOT_USED : Z := 0xffffffff.
Definition WAL_ALL_BUT_WRITE : Z := 1.
Definition WAL_READ_LOCK (i : Z) : Z := 3 + i.
Definition WAL_NREADER : Z := 8 - 3.

(** The connection, the log file, the locks held (first byte and count) and
    the number of requests made to the file and the lock manager. *)
Record rs : Type := mkRs {
  r_wi : wi;
  r_file : bytes;
  r_held : list (Z * Z);
  r_ios : nat;
}.
Definition set_wi (s : wi) (r : rs) : rs := mkRs s (r_file r) (r_held r) (r_ios r).
Definition set_held (l : list (Z * Z)) (r : rs) : rs := mkRs (r_wi r) (r_file r) l (r_ios r).
Definition count_io (r : rs) : rs := mkRs (r_wi r) (r_file r) (r_held r) (S (r_ios r)).

(** A computation on the wal-index. *)
Definition on_wi {A} (m : M wi A) : M rs A :=
  fun r => let '(o, s) := m (r_wi r) in (o, set_wi s r).
(** The result code of a computation on the wal-index. *)
Definition on_rc (m : M wi unit) : M rs Z :=
  fun r =>
    match m (r_wi r) with
    | (Ret _, s) => (Ret SQLITE_OK, set_wi s r)
    | (Fail rc, s) => (Ret rc, set_wi s r)
    | (Undef, s) => (Undef, set_wi s r)
    end.
Definition get_wal : M rs Wal := gets (fun r => wal (r_wi r)).
Definition mod_wal (f : Wal -> Wal) : M rs unit :=
  modify (fun r => set_wi (set_wal (f (wal (r_wi r))) (r_wi r)) r).
Definition mod_hdr (f : WalIndexHdr -> WalIndexHdr) : M rs unit :=
  mod_wal (fun p => set_hdr (f (hdr p)) p).

Definition hdr_commit (iFrame nTruncate szPage : Z) (h : WalIndexHdr) : WalIndexHdr :=
  mkHdr (iVersion h) (iChange h) (isInit h) (bigEndCksum h)
    (u16 (Z.lor (Z.land szPage 0xff00) (Z.shiftr szPage 16)))
    iFrame nTruncate (aFrameCksum h) (aSalt h) (aCksum h).
Definition hdr_start (big : bool) (salt : bytes) (h : WalIndexHdr) : WalIndexHdr :=
  mkHdr (iVersion h) (iChange h) (isInit h) big (hdr_szPage h) (mxFrame h) (hdr_nPage h)
    (aFrameCksum h) salt (aCksum h).
Definition hdr_init (h : WalIndexHdr) : WalIndexHdr :=
  mkHdr WALINDEX_MAX_VERSION (iChange h) 1 (bigEndCksum h) (hdr_szPage h) (mxFrame h)
    (hdr_nPage h) (aFrameCksum h) (aSalt h) (aCksum h).
Definition hdr_seal (c : Z * Z) (h : WalIndexHdr) : WalIndexHdr :=
  mkHdr (iVersion h) (iChange h) (isInit h) (bigEndCksum h) (hdr_szPage h) (mxFrame h)
    (hdr_nPage h) (aFrameCksum h) (aSalt h) c.

Section Code.
Variables (SQLITE_BIGENDIAN : bool) (mallocOk : nat -> bool) (shmRc ioRc : nat -> Z) (lockRc : nat -> Z -> Z -> Z)
  (junk : wipage).

(** *** Files and locks *)

Definition sqlite3OsFileSize : M rs (Z * Z) :=
  fun r => (Ret (ioRc (r_ios r), blen (r_file r)), count_io r).

(** A read past the end of the file fills the buffer with zeros. *)
Definition sqlite3OsRead (iAmt iOfst : Z) : M rs (Z * bytes) :=
  fun r =>
    let rc := ioRc (r_ios r) in
    let z := default (zeros iAmt) (bsub (r_file r) iOfst iAmt) in
    (Ret (if rc =? SQLITE_OK
          then if iOfst + iAmt <=? blen (r_file r) then rc else SQLITE_IOERR_SHORT_READ
          else rc, z), count_io r).

Definition walLockExclusive (lockIdx n : Z) : M rs Z :=
  let* p := get_wal in
  if negb (exclusiveMode p =? 0) then ret SQLITE_OK
  else fun r =>
    let rc := lockRc (r_ios r) lockIdx n in
    (Ret rc, if rc =? SQLITE_OK then set_held ((lockIdx, n) :: r_held r) (count_io r)
             else count_io r).

Definition unlock (x : Z * Z) (l : list (Z * Z)) : list (Z * Z) :=
  match list_find (eq x) l with Some (i, _) => delete i l | None => l end.
Definition walUnlockExclusive (lockIdx n : Z) : M rs unit :=
  let* p := get_wal in
  if negb (exclusiveMode p =? 0) then ret tt
  else modify (fun r => set_held (unlock (lockIdx, n) (r_held r)) (count_io r)).

(** *** The header of the wal-index *)

(** A word in the byte order of the machine. *)
Definition word_bytes (x : Z) : bytes :=
  let be := [u8 (Z.shiftr x 24); u8 (Z.shiftr x 16); u8 (Z.shiftr x 8); u8 x] in
  if SQLITE_BIGENDIAN then be else rev be.

(** [isInit], [bigEndCksum] and [szPage] share a word. *)
Definition packed_word (h : WalIndexHdr) : Z :=
  let b := if bigEndCksum h then 1 else 0 in
  if SQLITE_BIGENDIAN then Z.shiftl (isInit h) 24 + Z.shiftl b 16 + hdr_szPage h
  else isInit h + Z.shiftl b 8 + Z.shiftl (hdr_szPage h) 16.

(** The first 40 bytes of a [WalIndexHdr]. *)
Definition hdr_bytes (h : WalIndexHdr) : bytes :=
  word_bytes (iVersion h) ++ word_bytes 0 ++ word_bytes (iChange h)
  ++ word_bytes (packed_word h) ++ word_bytes (mxFrame h) ++ word_bytes (hdr_nPage h)
  ++ word_bytes (fst (aFrameCksum h)) ++ word_bytes (snd (aFrameCksum h)) ++ aSalt h.

(** The twelve words of a [WalIndexHdr]. *)
Definition hdr_words (h : WalIndexHdr) : option (list Z) :=
  s0 ← load32 SQLITE_BIGENDIAN (aSalt h) 0;
  s1 ← load32 SQLITE_BIGENDIAN (aSalt h) 4;
  Some [iVersion h; 0; iChange h; packed_word h; mxFrame h; hdr_nPage h;
        fst (aFrameCksum h); snd (aFrameCksum h); s0; s1; fst (aCksum h); snd (aCksum h)].

(** Words written at [off] of the page [apWiData[0]] points to. *)
Definition write_words (off : Z) (ws : list Z) : M wi unit :=
  let* st := gets id in
  let* ptr := lift (apWiData (wal st) !! 0%nat) in
  let* g := lift (deref st ptr) in
  let* w := lift (blit (words g) off ws) in
  modify (store ptr (mkPage w (slots g))).

(** The second copy is written first. *)
Definition walIndexWriteHdr : M wi unit :=
  modify (fun st => set_wal (set_hdr (hdr_init (hdr (wal st))) (wal st)) st) ;;*
  let* h := gets (fun st => hdr (wal st)) in
  let* c := lift (walChecksumBytes SQLITE_BIGENDIAN true (hdr_bytes h) 40 None) in
  modify (fun st => set_wal (set_hdr (hdr_seal c (hdr (wal st))) (wal st)) st) ;;*
  let* h := gets (fun st => hdr (wal st)) in
  let* ws := lift (hdr_words h) in
  write_words 12 ws ;;*
  write_words 0 ws.

(** *** Reading the log *)

(** Where the code goes after the header of the file. *)
Inductive goto : Type :=
  | recovery_error (rc : Z)
  | finished (rc : Z)
  | read_frames (szPage : Z).

Definition recover_header : M rs goto :=
  let* r := sqlite3OsRead WAL_HDRSIZE 0 in
  let '(rc, aBuf) := r in
  if negb (rc =? SQLITE_OK) then ret (recovery_error rc)
  else
    let* magic := lift (sqlite3Get4byte aBuf 0) in
    let* sz := lift (sqlite3Get4byte aBuf 8) in
    let szPage := i32 sz in
    if negb (Z.land magic 0xFFFFFFFE =? WAL_MAGIC)
       || negb (Z.land szPage (szPage - 1) =? 0)
       || (SQLITE_MAX_PAGE_SIZE <? szPage) || (szPage <? 512)
    then ret (finished SQLITE_OK)
    else
      let big := Z.testbit magic 0 in
      let* n := lift (sqlite3Get4byte aBuf 12) in
      let* salt := lift (bsub aBuf 16 8) in
      mod_wal (set_sizes szPage n) ;;*
      mod_hdr (hdr_start big salt) ;;*
      let* c := lift (walChecksumBytes SQLITE_BIGENDIAN (eqb big SQLITE_BIGENDIAN)
                        aBuf (WAL_HDRSIZE - 8) None) in
      mod_hdr (hdr_set_cksum c) ;;*
      let* c0 := lift (sqlite3Get4byte aBuf 24) in
      let* c1 := lift (sqlite3Get4byte aBuf 28) in
      if negb (fst c =? c0) || negb (snd c =? c1) then ret (finished SQLITE_OK)
      else
        let* version := lift (sqlite3Get4byte aBuf 4) in
        if negb (version =? WAL_MAX_VERSION) then ret (finished SQLITE_CANTOPEN)
        else ret (read_frames szPage).

(** [for(iFrame=iFirst; iFrame<=iLast; iFrame++)], [n] turns at most: the result
    code, the frame the loop stopped at and the checksum of the last commit. *)
Fixpoint frame_loop (n : nat) (szPage rc iFrame : Z) (cks : Z * Z) : M rs (Z * Z * (Z * Z)) :=
  match n with
  | O => ret (rc, iFrame, cks)
  | S n =>
      let szFrame := szPage + WAL_FRAME_HDRSIZE in
      let* r := sqlite3OsRead szFrame (walFrameOffset iFrame szPage) in
      let '(rc, aFrame) := r in
      if negb (rc =? SQLITE_OK) then ret (rc, iFrame, cks)
      else
        let* p := get_wal in
        let* d := lift (walDecodeFrame SQLITE_BIGENDIAN p
                          (drop (Z.to_nat WAL_FRAME_HDRSIZE) aFrame)
                          (take (Z.to_nat WAL_FRAME_HDRSIZE) aFrame)) in
        let '(p, valid) := d in
        mod_wal (fun _ => p) ;;*
        match valid with
        | None => ret (rc, iFrame, cks)
        | Some (pgno, nTruncate) =>
            let* rc := on_rc (walIndexAppend mallocOk shmRc iFrame pgno) in
            if negb (rc =? SQLITE_OK) then ret (rc, iFrame, cks)
            else if negb (nTruncate =? 0) then
              mod_hdr (hdr_commit iFrame nTruncate szPage) ;;*
              let* p := get_wal in
              frame_loop n szPage rc (iFrame + 1) (aFrameCksum (hdr p))
            else frame_loop n szPage rc (iFrame + 1) cks
        end
  end.

(** [memcpy] of the private page over the shared one, after the header. *)
Definition copy_private (iPg : nat) (aShare : wiptr) : M wi unit :=
  let nHdr32 := if bool_decide (iPg = 0%nat) then WALINDEX_HDR_SIZE / 4 else 0 in
  let* st := gets id in
  let* g := lift (deref st aShare) in
  let* w := lift (blit (words g) nHdr32 (drop (Z.to_nat nHdr32) (words (priv st)))) in
  modify (store aShare (mkPage w (slots (priv st)))).

(** [for(iPg=0; iPg<=walFramePage(iLastFrame); iPg++)]. *)
Fixpoint pages_loop (n : nat) (szPage iLastFrame rc : Z) (iPg : nat) (cks : Z * Z)
    : M rs (Z * (Z * Z)) :=
  match n with
  | O => ret (rc, cks)
  | S n =>
      let iLast := Z.min iLastFrame (u32 (HASHTABLE_NPAGE_ONE + Z.of_nat iPg * HASHTABLE_NPAGE)) in
      let iFirst := 1 + (if bool_decide (iPg = 0%nat) then 0
                         else u32 (HASHTABLE_NPAGE_ONE + (Z.of_nat iPg - 1) * HASHTABLE_NPAGE)) in
      let* r := on_wi (walIndexPage mallocOk shmRc iPg) in
      let '(rc, aShare) := r in
      match aShare with
      | Unmapped => ret (rc, cks)
      | _ =>
          on_wi (modify (set_ptr iPg Private)) ;;*
          let* r := frame_loop (Z.to_nat (iLast + 1 - iFirst)) szPage rc iFirst cks in
          let '(rc, iFrame, cks) := r in
          on_wi (modify (set_ptr iPg aShare)) ;;*
          on_wi (copy_private iPg aShare) ;;*
          if iFrame <=? iLast then ret (rc, cks)
          else pages_loop n szPage iLastFrame rc (S iPg) cks
      end
  end.

(** The branch for a file with more than a header. *)
Definition recover_file (nSize : Z) : M rs (goto * (Z * Z)) :=
  let* g := recover_header in
  match g with
  | read_frames szPage =>
      let* ok := on_wi (wi_malloc mallocOk) in
      if negb ok then ret (recovery_error SQLITE_NOMEM, (0, 0))
      else
        on_wi (modify (set_priv junk)) ;;*
        let iLastFrame := u32 ((nSize - WAL_HDRSIZE) / (szPage + WAL_FRAME_HDRSIZE)) in
        let* r := pages_loop (S (walFramePage iLastFrame)) szPage iLastFrame SQLITE_OK 0 (0, 0) in
        ret (finished (fst r), snd r)
  | _ => ret (g, (0, 0))
  end.

(** [for(i=1; i<WAL_NREADER; i++)] over the read marks. *)
Fixpoint marks_loop (n : nat) (i rc : Z) : M rs Z :=
  match n with
  | O => ret rc
  | S n =>
      let* rc := walLockExclusive (WAL_READ_LOCK i) 1 in
      if rc =? SQLITE_OK then
        let* p := get_wal in
        on_wi (write_words (25 + i)
          [if (i =? 1) && negb (mxFrame (hdr p) =? 0) then mxFrame (hdr p)
           else READMARK_NOT_USED]) ;;*
        walUnlockExclusive (WAL_READ_LOCK i) 1 ;;*
        marks_loop n (i + 1) rc
      else if negb (rc =? SQLITE_BUSY) then ret rc
      else marks_loop n (i + 1) rc
  end.

(** [finished:], with result code [SQLITE_OK]. *)
Definition recover_finish (cks : Z * Z) : M rs Z :=
  mod_hdr (hdr_set_cksum cks) ;;*
  on_wi walIndexWriteHdr ;;*
  let* p := get_wal in
  on_wi (write_words 24 [0]) ;;*
  on_wi (write_words 32 [mxFrame (hdr p)]) ;;*
  on_wi (write_words 25 [0]) ;;*
  marks_loop (Z.to_nat (WAL_NREADER - 1)) 1 SQLITE_OK.

Definition walIndexRecover : M rs Z :=
  let* p := get_wal in
  let iLock := WAL_ALL_BUT_WRITE + ckptLock p in
  let* rc := walLockExclusive iLock (WAL_READ_LOCK 0 - iLock) in
  if negb (rc =? SQLITE_OK) then ret rc
  else
    mod_hdr (fun _ => zero_hdr) ;;*
    let* r := sqlite3OsFileSize in
    let '(rc, nSize) := r in
    let* g := (if negb (rc =? SQLITE_OK) then ret (recovery_error rc, (0, 0))
               else if WAL_HDRSIZE <? nSize then recover_file nSize
               else ret (finished SQLITE_OK, (0, 0))) in
    let* rc := (match g with
                | (recovery_error rc, _) => ret rc
                | (finished rc, cks) => if rc =? SQLITE_OK then recover_finish cks else ret rc
                | (read_frames _, _) => undef
                end) in
    walUnlockExclusive iLock (WAL_READ_LOCK 0 - iLock) ;;*
    ret rc.
End Code.

(** ** What a log file holds *)

(** Header and content of frame [i]. *)
Definition frame_at (f : bytes) (sz i : Z) : bytes := seg f (walFrameOffset i sz) WAL_FRAME_HDRSIZE.
Definition data_at (f : bytes) (sz i : Z) : bytes :=
  seg f (walFrameOffset i sz + WAL_FRAME_HDRSIZE) sz.

(** A frame that continues a log of running checksum [c]. *)
Definition good_frame (big : bool) (salt : bytes) (c : Z * Z) (aData aFrame : bytes) : Prop :=
  seg aFrame 8 8 = salt /\ at4 aFrame 0 <> 0 /\
  (at4 aFrame 16, at4 aFrame 20) = frame_cksum big aData aFrame c.
#[global] Instance good_frame_dec big salt c aData aFrame :
  Decision (good_frame big salt c aData aFrame).
Proof. apply _. Defined.

(** Page, size field and checksum of a frame. *)
Definition frec : Type := Z * Z * (Z * Z).
Definition fr_page (x : frec) : Z := fst (fst x).

(** The longest valid run of at most [n] frames from frame [i]. *)
Fixpoint scan (n : nat) (f : bytes) (sz : Z) (big : bool) (salt : bytes) (i : Z) (c : Z * Z)
    : list frec :=
  match n with
  | O => []
  | S n =>
      let fr := frame_at f sz i in
      if decide (good_frame big salt c (data_at f sz i) fr)
      then let c := (at4 fr 16, at4 fr 20) in
           (at4 fr 0, at4 fr 4, c) :: scan n f sz big salt (i + 1) c
      else []
  end.

(** Last frame with a size field, that size, and its checksum. *)
Fixpoint last_commit (i : Z) (fs : list frec) (acc : frec) : frec :=
  match fs with
  | [] => acc
  | (pg, nt, ck) :: fs => last_commit (i + 1) fs (if nt =? 0 then acc else (i, nt, ck))
  end.

Definition last_cks (fs : list frec) (c : Z * Z) : Z * Z :=
  match list.last fs with Some x => snd x | None => c end.

Lemma scan_length n f sz big salt i c : (length (scan n f sz big salt i c) <= n)%nat.
Proof. revert i c. induction n as [|n IH]; intros i c; cbn; [lia|]. case_decide; cbn; [|lia]. specialize (IH (i+1) (at4 (frame_at f sz i) 16, at4 (frame_at f sz i) 20)). lia. Qed.

Lemma last_cks_cons x fs c : last_cks (x :: fs) c = last_cks fs (snd x).
Proof. unfold last_cks. rewrite last_cons. by destruct (list.last fs). Qed.
Lemma last_cks_app fs gs c : last_cks (fs ++ gs) c = last_cks gs (last_cks fs c).
Proof.
  revert c. induction fs as [|x fs IH]; intros c; [done|].
  cbn [app]. by rewrite !last_cks_cons, IH.
Qed.

(** A full run is continued from its last checksum. *)
Lemma scan_app n m f sz big salt i c :
  scan (n + m) f sz big salt i c =
  let fs := scan n f sz big salt i c in
  if bool_decide (length fs = n)
  then fs ++ scan m f sz big salt (i + Z.of_nat n) (last_cks fs c) else fs.
Proof.
  revert i c. induction n as [|n IH]; intros i c.
  - cbn. by rewrite Z.add_0_r.
  - cbn [Nat.add scan]. cbv zeta. case_decide as Hd; [|done].
    rewrite IH. cbn zeta. cbn [length]. set (fs := scan n _ _ _ _ _ _).
    rewrite last_cks_cons. cbn [snd].
    replace (i + Z.of_nat (S n)) with (i + 1 + Z.of_nat n) by lia.
    by repeat case_bool_decide; try lia.
Qed.
Lemma last_commit_app i fs gs acc :
  last_commit i (fs ++ gs) acc = last_commit (i + Z.of_nat (length fs)) gs (last_commit i fs acc).
Proof.
  revert i acc. induction fs as [|[[pg nt] ck] fs IH]; intros i acc.
  - cbn. by rewrite Z.add_0_r.
  - cbn [app last_commit length]. rewrite IH. f_equal. lia.
Qed.

(** ** Proof rules *)

Lemma wp_on_wi {A} (m : M wi A) Q r :
  wp m (fun o s => Q o (set_wi s r)) (r_wi r) -> wp (on_wi m) Q r.
Proof. unfold wp, on_wi. by destruct (m (r_wi r)) as [o s]. Qed.
Lemma wp_on_rc (m : M wi unit) (P : wi -> Prop) (Q : out Z -> rs -> Prop) r :
  wp m (returns (fun _ s => P s)) (r_wi r) ->
  (forall s, P s -> Q (Ret SQLITE_OK) (set_wi s r)) -> wp (on_rc m) Q r.
Proof.
  unfold wp, on_rc. destruct (m (r_wi r)) as [[[]|e|] s]; cbn; [|done|done]. auto.
Qed.

Lemma view_set_wal st p h :
  apWiData p = apWiData (wal st) -> exclusiveMode p = exclusiveMode (wal st) ->
  view (set_wal p st) h = view st h.
Proof. unfold view. wi_cbn. by intros -> ->. Qed.
Lemma wf_set_wal st p :
  wi_wf st -> apWiData p = apWiData (wal st) -> wi_wf (set_wal p st).
Proof. intros [A B C D] E. split; wi_cbn; rewrite ?E; done. Qed.
Lemma index_set_wal log st p :
  index_ok log st -> apWiData p = apWiData (wal st) -> exclusiveMode p = exclusiveMode (wal st) ->
  index_ok log (set_wal p st).
Proof.
  intros [A B C D] E1 E2. split; [by apply wf_set_wal|done|done|].
  intros h Hh. rewrite view_set_wal by done. by apply D.
Qed.

(** ** The loop over the frames of a table *)

(** The state of a recovery: the frames of [log] are indexed, [c] is the
    checksum so far and [acc] the last commit. *)
Record rec_ok (f : bytes) (sz : Z) (big : bool) (salt : bytes) (log : list Z) (c : Z * Z)
    (acc : frec) (r : rs) : Prop := {
  rk_file : r_file r = f;
  rk_size : szPage (wal (r_wi r)) = sz;
  rk_big : bigEndCksum (hdr (wal (r_wi r))) = big;
  rk_salt : aSalt (hdr (wal (r_wi r))) = salt;
  rk_cks : aFrameCksum (hdr (wal (r_wi r))) = c;
  rk_mx : mxFrame (hdr (wal (r_wi r))) = fst (fst acc);
  rk_np : hdr_nPage (hdr (wal (r_wi r))) = snd (fst acc);
  rk_hsz : 0 < fst (fst acc) ->
    hdr_szPage (hdr (wal (r_wi r))) = u16 (Z.lor (Z.land sz 0xff00) (Z.shiftr sz 16));
  rk_index : index_ok log (r_wi r);
}.

(** Nothing but the header of the log, the pages and the counters change. *)
Definition rs_kept (r r' : rs) : Prop :=
  r_file r' = r_file r /\ r_held r' = r_held r /\
  wal (r_wi r') = set_hdr (hdr (wal (r_wi r'))) (wal (r_wi r)) /\
  length (shm (r_wi r')) = length (shm (r_wi r)).

Lemma rs_kept_refl r : rs_kept r r.
Proof. split_and!; try done. by destruct (wal (r_wi r)). Qed.
Lemma rs_kept_count r : rs_kept r (count_io r).
Proof. split_and!; try done. cbn. by destruct (wal (r_wi r)). Qed.
Lemma rs_kept_trans r1 r2 r3 : rs_kept r1 r2 -> rs_kept r2 r3 -> rs_kept r1 r3.
Proof.
  intros (A & B & C & D) (A' & B' & C' & D'). split_and!; try congruence.
  rewrite C', C. by destruct (wal (r_wi r1)).
Qed.

Section Frames.
Context (SQLITE_BIGENDIAN : bool) (mallocOk : nat -> bool) (shmRc ioRc : nat -> Z).
Context (f : bytes) (sz : Z) (big : bool) (salt : bytes).
Hypothesis Hf : bytes_ok f.
Hypothesis Hsz : 0 < sz.
Hypothesis Hal : sz mod 8 = 0.

Abbreviation ok := (rec_ok f sz big salt).

Lemma frame_split i :
  0 <= walFrameOffset i sz ->
  take (Z.to_nat WAL_FRAME_HDRSIZE) (seg f (walFrameOffset i sz) (sz + WAL_FRAME_HDRSIZE)) = frame_at f sz i
  /\ drop (Z.to_nat WAL_FRAME_HDRSIZE) (seg f (walFrameOffset i sz) (sz + WAL_FRAME_HDRSIZE)) = data_at f sz i.
Proof.
  intros H. unfold frame_at, data_at, seg. rewrite take_take, skipn_firstn_comm, drop_drop.
  unfold WAL_FRAME_HDRSIZE. split; do 2 f_equal; lia.
Qed.

Lemma read_frame_ok i r Q :
  r_file r = f -> 1 <= i -> walFrameOffset (i + 1) sz <= blen f ->
  (forall rc, rc <> SQLITE_OK -> forall z, Q (Ret (rc, z)) (count_io r)) ->
  Q (Ret (SQLITE_OK, seg f (walFrameOffset i sz) (sz + WAL_FRAME_HDRSIZE))) (count_io r) ->
  wp (sqlite3OsRead ioRc (sz + WAL_FRAME_HDRSIZE) (walFrameOffset i sz)) Q r.
Proof.
  intros Hr Hi Hend Hbad Hgood. unfold wp, sqlite3OsRead. cbn [fst snd]. rewrite Hr.
  unfold walFrameOffset, WAL_HDRSIZE, WAL_FRAME_HDRSIZE in *.
  destruct (Z.eqb_spec (ioRc (r_ios r)) SQLITE_OK) as [->|Hne]; [|by apply Hbad].
  destruct (Z.leb_spec (32 + (i - 1) * (sz + 24) + (sz + 24)) (blen f)); [|lia].
  destruct (bsub_in f (32 + (i - 1) * (sz + 24)) (sz + 24)) as [s E]; [nia|lia|lia|].
  rewrite E. apply bsub_seg in E as ->. exact Hgood.
Qed.

(** One turn on a state reached after frame [i - 1]. *)
Lemma decode_ok log c acc r i :
  ok log c acc r -> 1 <= i -> walFrameOffset (i + 1) sz <= blen f ->
  let fr := frame_at f sz i in
  exists p, walDecodeFrame SQLITE_BIGENDIAN (wal (r_wi r)) (data_at f sz i) fr
    = Some (p, if decide (good_frame big salt c (data_at f sz i) fr)
               then Some (at4 fr 0, at4 fr 4) else None)
  /\ (good_frame big salt c (data_at f sz i) fr ->
      p = set_cksum (at4 fr 16, at4 fr 20) (wal (r_wi r)))
  /\ (exists c', p = set_cksum c' (wal (r_wi r))).
Proof.
  intros [R1 R2 R3 R4 R5 R6 R7 R8 R9] Hi Hend fr.
  assert (Hoff : 0 <= walFrameOffset i sz /\ walFrameOffset i sz + sz + 24 <= blen f).
  { unfold walFrameOffset, WAL_HDRSIZE, WAL_FRAME_HDRSIZE in *. nia. }
  destruct (walDecodeFrame_ok SQLITE_BIGENDIAN (wal (r_wi r)) (data_at f sz i) fr) as (p & E & H1 & H2).
  { unfold fr, frame_at, data_at, WAL_FRAME_HDRSIZE in *. split; rewrite ?R2.
    - by apply Forall_take, Forall_drop.
    - by apply Forall_take, Forall_drop.
    - unfold blen. rewrite seg_len; unfold WAL_FRAME_HDRSIZE; lia.
    - unfold blen. rewrite seg_len; lia.
    - done.
    - done. }
  assert (Hiff : frame_valid (wal (r_wi r)) (data_at f sz i) fr
    <-> good_frame big salt c (data_at f sz i) fr).
  { unfold frame_valid, good_frame. by rewrite R3, R4, R5. }
  exists p. split; [|split; [|done]].
  - rewrite E. do 2 f_equal. by apply decide_ext.
  - intros Hg. by apply H1, Hiff.
Qed.

(** A frame is indexed. *)
Lemma append_ok log c c' acc r i h ptr k :
  ok log c acc r -> blen log = i - 1 -> i < max_frame -> 1 <= i ->
  tzero h < i <= tzero h + tsize h -> 0 < k < 2 ^ 32 ->
  apWiData (wal (r_wi r)) !! h = Some ptr -> ptr <> Unmapped -> is_Some (view (r_wi r) h) ->
  let r1 := set_wi (set_wal (set_cksum c' (wal (r_wi r))) (r_wi r)) r in
  wp (on_rc (walIndexAppend mallocOk shmRc i k))
    (fun o r' => o = Ret SQLITE_OK /\ ok (log ++ [k]) c' acc r' /\ rs_kept r r'
       /\ apWiData (wal (r_wi r')) = apWiData (wal (r_wi r))) r1.
Proof.
  intros [R1 R2 R3 R4 R5 R6 R7 R8 R9] Hlog Hmax Hi Hh Hk Ha Hne Hv r1.
  assert (Hpage : walFramePage i = h) by (apply walFramePage_unique; lia).
  assert (I1 : index_ok log (r_wi r1)) by (apply index_set_wal; done).
  pose proof (append_mapped mallocOk shmRc log (i - 1) k (r_wi r1) ptr) as HA. cbv zeta in HA.
  replace (i - 1 + 1) with i in HA by lia. rewrite Hpage in HA.
  eapply wp_on_rc; [apply HA; try done; try lia|].
  cbn beta. intros s [I2 (Hw & Hl & _)]. split; [done|].
  assert (Htk : take (Z.to_nat (i - 1)) log = log).
  { rewrite <- Hlog. unfold blen. rewrite Nat2Z.id. apply firstn_all. }
  rewrite Htk in I2. split; [|split].
  - split; cbn [r_file r_wi set_wi]; rewrite ?Hw; done.
  - split_and!; cbn [r_file r_held r_wi set_wi r1]; rewrite ?Hw; try done.
  - cbn [r_wi set_wi]. by rewrite Hw.
Qed.

Lemma view_mapped st h ptr :
  apWiData (wal st) !! h = Some ptr -> ptr <> Unmapped -> wi_wf st -> is_Some (view st h).
Proof.
  intros Ha Hne W. unfold view. rewrite Ha. cbn.
  destruct (wf_ptr _ W _ _ Ha) as [|[[-> Hl]| ->]]; [done| |by eexists].
  by apply lookup_lt_is_Some_2.
Qed.

Definition loop_post (rc0 : Z) (n : nat) (i : Z) (log : list Z) (c : Z * Z) (acc : frec) (r : rs)
    (x : Z * Z * (Z * Z)) (r' : rs) : Prop :=
  let '(rc, iF, cks) := x in
  let fs := scan n f sz big salt i c in
  rs_kept r r' /\ wi_wf (r_wi r') /\
  (rc <> SQLITE_OK -> (n = 0%nat /\ rc = rc0) \/ iF < i + Z.of_nat n) /\
  (rc = SQLITE_OK -> exists c', iF = i + Z.of_nat (length fs)
     /\ ok (log ++ map fr_page fs) c' (last_commit i fs acc) r'
     /\ cks = snd (last_commit i fs acc) /\ (length fs = n -> c' = last_cks fs c)).

Lemma loop_post_keep rc0 n i log c c' acc r r1 rc :
  rs_kept r r1 -> ok log c' acc r1 -> scan n f sz big salt i c = [] -> (n = 0%nat -> c' = c) ->
  (n = 0%nat -> rc = rc0) ->
  loop_post rc0 n i log c acc r (rc, i, snd acc) r1.
Proof.
  intros K O E Hn Hrc. unfold loop_post. rewrite E. split; [done|]. split; [apply O|].
  split; [intros _; destruct n; [left; auto|right; lia]|].
  intros _. exists c'. cbn [length map last_commit]. rewrite app_nil_r. split; [lia|].
  split; [done|]. split; [done|]. intros H0. symmetry in H0. by rewrite Hn.
Qed.

Lemma loop_post_cons rc0 n i log c acc acc' r r1 x r2 :
  let fr := frame_at f sz i in
  let ck := (at4 fr 16, at4 fr 20) in
  good_frame big salt c (data_at f sz i) fr -> rs_kept r r1 ->
  acc' = (if at4 fr 4 =? 0 then acc else (i, at4 fr 4, ck)) ->
  loop_post SQLITE_OK n (i + 1) (log ++ [at4 fr 0]) ck acc' r1 x r2 -> loop_post rc0 (S n) i log c acc r x r2.
Proof.
  intros fr ck Hg K -> H. destruct x as [[rc iF] cks]. unfold loop_post in *. cbn [scan].
  rewrite decide_True by done. cbv zeta. fold fr. fold ck. destruct H as (K' & W & Hr & H).
  split; [by eapply rs_kept_trans|]. split; [done|]. split; [|intros E].
  { intros Hne. destruct (Hr Hne) as [[-> ->]|]; [done|right; lia]. } destruct (H E) as (c' & -> & O & -> & Hl).
  exists c'. cbn [length map last_commit]. split; [lia|]. rewrite <- app_assoc in O. split; [done|].
  split; [done|]. intros Hn. rewrite last_cks_cons. apply Hl. lia.
Qed.

Lemma ok_commit log c acc r i nt :
  ok log c acc r -> 1 <= i ->
  let r' := set_wi (set_wal (set_hdr (hdr_commit i nt sz (hdr (wal (r_wi r)))) (wal (r_wi r))) (r_wi r)) r in
  ok log c (i, nt, c) r' /\ rs_kept r r' /\ apWiData (wal (r_wi r')) = apWiData (wal (r_wi r)).
Proof.
  intros [R1 R2 R3 R4 R5 R6 R7 R8 R9] Hi r'. split; [|split; [by split_and!|done]].
  split; try done. by apply index_set_wal.
Qed.

Lemma frame_loop_ok n h ptr rc0 i r log c acc :
  ok log c acc r -> blen log = i - 1 -> 1 <= i -> i + Z.of_nat n <= max_frame ->
  tzero h < i -> i + Z.of_nat n - 1 <= tzero h + tsize h ->
  walFrameOffset (i + Z.of_nat n) sz <= blen f ->
  apWiData (wal (r_wi r)) !! h = Some ptr -> ptr <> Unmapped ->
  wp (frame_loop SQLITE_BIGENDIAN mallocOk shmRc ioRc n sz rc0 i (snd acc))
    (returns (loop_post rc0 n i log c acc r)) r.
Proof.
  revert rc0 i r log c acc.
  induction n as [|n IH]; intros rc0 i r log c acc O Hlog Hi Hmax Hz Hend Hoff Ha Hne.
  { cbn [frame_loop]. wp_go. cbn [returns okp].
    by apply (loop_post_keep rc0 0 i log c c); [apply rs_kept_refl| | | |]. }
  assert (Hoff1 : walFrameOffset (i + 1) sz <= blen f).
  { unfold walFrameOffset, WAL_HDRSIZE, WAL_FRAME_HDRSIZE in *. nia. }
  assert (Hoff0 : 0 <= walFrameOffset i sz).
  { unfold walFrameOffset, WAL_HDRSIZE, WAL_FRAME_HDRSIZE in *. nia. }
  cbn [frame_loop]. wp_step. apply read_frame_ok; [apply O|done|done|..].
  { intros rc Hrc z. cbn [after]. destruct (Z.eqb_spec rc SQLITE_OK); [done|]. cbn [negb].
    wp_go. cbn [returns okp loop_post]. split; [apply rs_kept_count|].
    split; [apply O|]. split; [right; lia|done]. }
  cbn [after]. rewrite Z.eqb_refl. cbn [negb]. unfold get_wal, mod_wal.
  assert (O1 : ok log c acc (count_io r)) by (destruct O; by split).
  destruct (frame_split i Hoff0) as [-> ->].
  destruct (decode_ok log c acc (count_io r) i O1 Hi Hoff1) as (p & E & Hp1 & c' & Hp2).
  do 2 wp_step. unfold after at 1. rewrite E. do 2 wp_step. unfold after at 1.
  do 2 wp_step. unfold after at 1. cbn [r_wi count_io] in *.
  destruct (decide (good_frame big salt c (data_at f sz i) (frame_at f sz i))) as [Hg|Hg].
  2:{ wp_go. cbn [returns okp]. apply (loop_post_keep _ _ _ _ _ c'); [| | |done|done].
      - subst p. by split_and!.
      - subst p. destruct O as [R1 R2 R3 R4 R5 R6 R7 R8 R9]. split; try done.
        by apply index_set_wal.
      - cbn [scan]. by rewrite decide_False. }
  clear Hp2 c'. rewrite (Hp1 Hg). clear Hp1 E.
  set (fr := frame_at f sz i) in *. set (ck := (at4 fr 16, at4 fr 20)) in *.
  assert (Hfr : bytes_ok fr) by (by apply Forall_take, Forall_drop).
  wp_step. eapply wp_mono.
  { eapply (append_ok log c ck acc (count_io r) i h ptr (at4 fr 0)); try done; try lia.
    - pose proof (at4_range fr 0 Hfr). destruct Hg as (_ & Hnz & _). lia.
    - cbn [r_wi count_io]. apply (view_mapped _ _ ptr); [done|done|apply O]. }
  intros o r1 (-> & O2 & K & Ha1). cbn [after]. rewrite Z.eqb_refl. cbn [negb].
  assert (Hlog' : blen (log ++ [at4 fr 0]) = i + 1 - 1) by (rewrite blen_snoc; lia).
  assert (Hoff' : walFrameOffset (i + 1 + Z.of_nat n) sz <= blen f).
  { replace (i + 1 + Z.of_nat n) with (i + Z.of_nat (S n)) by lia. done. }
  assert (K' : rs_kept r r1) by (eapply rs_kept_trans; [apply rs_kept_count|done]).
  destruct (Z.eqb_spec (at4 fr 4) 0) as [Hnt|Hnt]; cbn [negb].
  - eapply okp_mono; [eapply (IH SQLITE_OK (i + 1) r1 (log ++ [at4 fr 0]) ck acc); try done; try lia|].
    + by rewrite Ha1.
    + cbn beta. intros x r2. apply loop_post_cons; [done|done|]. fold fr. by rewrite Hnt.
  - unfold mod_hdr, mod_wal. destruct (ok_commit _ _ _ r1 i (at4 fr 4) O2 Hi) as (O3 & K3 & Ha3).
    do 2 wp_step. unfold after at 1. do 2 wp_step. unfold after at 1. cbv beta.
    rewrite (rk_cks _ _ _ _ _ _ _ _ O3).
    eapply okp_mono; [eapply (IH SQLITE_OK (i + 1) _ (log ++ [at4 fr 0]) ck (i, at4 fr 4, ck)); [exact O3|..]; try done; try lia|].
    + by rewrite Ha3, Ha1.
    + cbn beta. intros x r2. apply loop_post_cons; [done|by eapply rs_kept_trans|]. fold fr ck.
      destruct (Z.eqb_spec (at4 fr 4) 0); done.
Qed.

(** *** The private copy of a page *)

Definition no_private (st : wi) : Prop :=
  forall h, apWiData (wal st) !! h <> Some Private.

Lemma index_other log st st' h :
  index_ok log st -> wi_wf st' -> blen log <= tzero h ->
  (forall h', h' <> h -> view st' h' = view st h') -> index_ok log st'.
Proof.
  intros [A B C D] W Hz Hv. split; [done|done|done|]. intros h' Hh'.
  rewrite Hv; [by apply D|]. intros ->. lia.
Qed.

Lemma view_set_ptr st h h' ptr : h' <> h -> view (set_ptr h ptr st) h' = view st h'.
Proof. intros H. unfold view, set_ptr. wi_cbn. by rewrite list_lookup_insert_ne. Qed.

Lemma set_private_wf st h :
  wi_wf st -> no_private st -> wi_wf (set_ptr h Private st).
Proof.
  intros [A B C D] N. split; unfold set_ptr; wi_cbn; try done.
  - intros i ptr Hi. apply list_lookup_insert_Some in Hi as [(-> & <- & _)|[_ Hi]]; auto.
  - intros i i' Hi Hi'.
    apply list_lookup_insert_Some in Hi as [(-> & _ & _)|[_ Hi]]; [|by destruct (N i)].
    apply list_lookup_insert_Some in Hi' as [(-> & _ & _)|[_ Hi']]; [done|by destruct (N i')].
Qed.
Lemma set_shared_wf st h :
  wi_wf st -> (h < length (shm st))%nat -> apWiData (wal st) !! h = Some Private ->
  wi_wf (set_ptr h (Shared h) st) /\ no_private (set_ptr h (Shared h) st).
Proof.
  intros [A B C D] Hl Hp. split; [split|]; unfold set_ptr; wi_cbn; try done.
  - intros i ptr Hi. apply list_lookup_insert_Some in Hi as [(-> & <- & _)|[_ Hi]]; auto.
  - intros i i' Hi Hi'.
    apply list_lookup_insert_Some in Hi as [(_ & ? & _)|[_ Hi]]; [done|].
    apply list_lookup_insert_Some in Hi' as [(_ & ? & _)|[_ Hi']]; [done|]. by apply B.
  - intros i Hi. cbn in Hi. apply list_lookup_insert_Some in Hi as [(_ & ? & _)|[Hne Hi]]; [done|].
    by destruct (Hne (B _ _ Hp Hi)).
Qed.

(** A table depends on nothing before its first word. *)
Lemma table_copy ks off g g' :
  table_ok ks off g -> blen (words g') = HASHTABLE_NPAGE -> slots g' = slots g ->
  (forall i, off <= i -> bat (words g') i = bat (words g) i) -> table_ok ks off g'.
Proof.
  intros [T1 T2 T3 T4 T5 T6 T7 T8 T9] Hw Hs He. split; rewrite ?Hs; try done.
  - intros j Hj. rewrite He by lia. auto.
  - intros j Hj. pose proof (blen_nonneg ks). rewrite He by lia. auto.
Qed.

(** The copy brings to the shared page the table built in the private one. *)
Lemma copy_private_ok h st :
  wi_wf st -> apWiData (wal st) !! h = Some Private -> (h < length (shm st))%nat ->
  wp (copy_private h (Shared h)) (returns (fun _ st' =>
    wi_wf st' /\ no_private st' /\ kept (set_ptr h (Shared h) st) st' /\
    (forall log, index_ok log st -> index_ok log st'))) (set_ptr h (Shared h) st).
Proof.
  intros W Hp Hl. set (st1 := set_ptr h (Shared h) st).
  destruct (set_shared_wf st h W Hl Hp) as [W1 N1]. fold st1 in W1, N1.
  assert (Ha : apWiData (wal st1) !! h = Some (Shared h)).
  { unfold st1, set_ptr. wi_cbn. apply list_lookup_insert_eq. by apply lookup_lt_Some in Hp. }
  destruct (lookup_lt_is_Some_2 (shm st1) h Hl) as [g Hg].
  pose proof (wf_private _ W) as [Pw Ps].
  assert (Hgs : page_sized g) by (eapply Forall_lookup_1; [apply W1|exact Hg]).
  unfold copy_private. do 2 wp_step. unfold after at 1. change (id st1) with st1.
  cbn [deref]. rewrite Hg. do 2 wp_step. unfold after at 1.
  assert (Hoff : (if bool_decide (h = 0%nat) then WALINDEX_HDR_SIZE / 4 else 0) = toff h).
  { unfold toff. case_bool_decide; by destruct (decide (h = 0%nat)). }
  rewrite Hoff. pose proof (tsize_pos h). change (priv st1) with (priv st).
  set (w0 := drop (Z.to_nat (toff h)) (words (priv st))).
  assert (Hw0 : blen w0 = 4096 - toff h).
  { unfold w0, blen, tsize, HASHTABLE_NPAGE in *. rewrite length_drop. lia. }
  destruct (blit_in (words g) (toff h) w0) as [w E].
  { lia. } { destruct Hgs as [-> _]. unfold HASHTABLE_NPAGE. lia. }
  rewrite E. do 2 wp_step. unfold after at 1. wp_step.
  assert (Hlw : blen w = HASHTABLE_NPAGE).
  { rewrite (blit_len _ _ _ _ E). apply Hgs. }
  destruct (store_ok st1 h (Shared h) (mkPage w (slots (priv st)))) as (W' & Hw & Hv & Ho); try done.
  cbn [returns okp]. split; [done|]. split; [intros i; rewrite Hw; apply N1|].
  split.
  { eapply (kept_store st1 h (Shared h) g); [done|done|done|unfold view; by rewrite Ha|done|].
    intros i Hi. cbn [words]. rewrite (blit_at _ _ _ _ _ E). by destruct (Z.leb_spec (toff h) i); [lia|]. }
  intros log I. split; [done|apply I|apply I|]. intros h' Hh'.
  destruct (decide (h' = h)) as [->|Hne].
  - destruct (ix_table _ _ I h Hh') as (g' & Hg' & T). eexists. split; [exact Hv|].
    assert (g' = priv st) as ->.
    { unfold view in Hg'. rewrite Hp in Hg'. cbn in Hg'. by injection Hg'. }
    eapply table_copy; [exact T|done|done|]. cbn [words]. intros i Hi.
    rewrite (blit_at _ _ _ _ _ E).
    destruct (Z.leb_spec (toff h) i), (Z.ltb_spec i (toff h + blen w0)); try lia; cbn [andb].
    + unfold w0, bat. destruct (Z.leb_spec 0 (i - toff h)), (Z.leb_spec 0 i); try lia.
      rewrite lookup_drop. do 2 f_equal. lia.
    + destruct Hgs as [Hgw _]. rewrite !bat_outside; [done|right..];
        unfold HASHTABLE_NPAGE, tsize in *; lia.
  - rewrite Ho by done. unfold st1. rewrite view_set_ptr by done. by apply (ix_table _ _ I).
Qed.

(** *** The loop over the tables *)

Lemma kept_ptr (r r2 : rs) (s3 : wi) h :
  apWiData (wal (r_wi r)) !! h = Some (Shared h) ->
  rs_kept (set_wi (set_ptr h Private (r_wi r)) r) r2 ->
  kept (set_ptr h (Shared h) (r_wi r2)) s3 -> rs_kept r (set_wi s3 r2).
Proof.
  intros Ha (K1 & K2 & K3 & K4) (Hw & Hl & _). split; [done|]. split; [done|]. cbn [r_wi set_wi].
  split; [|by rewrite Hl]. rewrite Hw. unfold set_ptr. wi_cbn. rewrite K3.
  destruct (wal (r_wi r)) eqn:Ep. unfold set_apWiData, set_hdr. cbn [r_wi set_wi set_ptr set_wal wal].
  rewrite Ep. cbn in *. by rewrite list_insert_insert_eq, list_insert_id.
Qed.

(** The frames of table [h] are read into the private page, then copied. *)
Lemma table_turn_ok n h rc0 i r log c acc B (K : Z -> Z -> Z * Z -> M rs B) Q :
  ok log c acc r -> blen log = i - 1 -> 1 <= i -> i + Z.of_nat n <= max_frame ->
  tzero h = i - 1 -> i + Z.of_nat n - 1 <= tzero h + tsize h ->
  walFrameOffset (i + Z.of_nat n) sz <= blen f ->
  apWiData (wal (r_wi r)) !! h = Some (Shared h) -> no_private (r_wi r) ->
  (forall rc iF cks r', loop_post rc0 n i log c acc r (rc, iF, cks) r' -> no_private (r_wi r') ->
    wp (K rc iF cks) Q r') ->
  wp (on_wi (modify (set_ptr h Private)) ;;*
      let* x := frame_loop SQLITE_BIGENDIAN mallocOk shmRc ioRc n sz rc0 i (snd acc) in
      let '(rc, iF, cks) := x in
      on_wi (modify (set_ptr h (Shared h))) ;;*
      on_wi (copy_private h (Shared h)) ;;* K rc iF cks) Q r.
Proof.
  intros O Hlog Hi Hmax Hz Hend Hoff Ha N HK. set (r1 := set_wi (set_ptr h Private (r_wi r)) r).
  pose proof (ix_wf _ _ (rk_index _ _ _ _ _ _ _ _ O)) as W.
  assert (O1 : ok log c acc r1).
  { destruct O as [R1 R2 R3 R4 R5 R6 R7 R8 R9]. split; try done.
    apply (index_other log (r_wi r) _ h); [done|by apply set_private_wf|lia|].
    intros h' Hne. by apply view_set_ptr. }
  assert (Hp1 : apWiData (wal (r_wi r1)) !! h = Some Private).
  { cbn. apply list_lookup_insert_eq. by apply lookup_lt_Some in Ha. }
  wp_step. apply wp_on_wi. wp_step. unfold after at 1.
  change (set_wi (set_ptr h Private (r_wi r)) r) with r1.
  wp_step. eapply wp_mono; [apply (frame_loop_ok n h Private rc0 i r1 log c acc); done || lia|].
  intros [[[rc iF] cks]|e|] r2; cbn [returns okp]; [|done|done].
  intros (K2 & W2 & Hrc & Hok). unfold after at 1.
  destruct K2 as (A1 & A2 & A3 & A4).
  assert (Hp2 : apWiData (wal (r_wi r2)) !! h = Some Private) by (by rewrite A3).
  assert (Hl2 : (h < length (shm (r_wi r2)))%nat).
  { rewrite A4. destruct (wf_ptr _ W _ _ Ha) as [|[[_ ?]|]]; done. }
  wp_step. apply wp_on_wi. wp_step. unfold after at 1.
  wp_step. apply wp_on_wi. eapply wp_mono; [by apply copy_private_ok|].
  intros [[]|e|] s3; cbn [returns okp]; [|done|done]. intros (W3 & N3 & K3 & I3).
  unfold after at 1. apply HK; [|done].
  split; [|split; [done|split; [done|]]].
  - change (set_wi s3 (set_wi (set_ptr h (Shared h) (r_wi r2)) r2)) with (set_wi s3 r2).
    apply (kept_ptr r r2 s3 h); [done|by split_and!|done].
  - intros E. destruct (Hok E) as (c' & -> & O2 & -> & Hc). exists c'.
    split; [done|]. split; [|done]. destruct K3 as [Hw _].
    destruct O2 as [R1 R2 R3 R4 R5 R6 R7 R8 R9].
    split; cbn [r_wi set_wi r_file]; rewrite ?Hw; try done. by apply I3.
Qed.

(** Besides what [rs_kept] allows, pages may get mapped. *)
Definition rs_grown (r r' : rs) : Prop :=
  r_file r' = r_file r /\ r_held r' = r_held r /\
  exists h ro ap, wal (r_wi r') = set_hdr h (set_readOnly ro (set_apWiData ap (wal (r_wi r)))).

Lemma rs_grown_trans r1 r2 r3 : rs_grown r1 r2 -> rs_grown r2 r3 -> rs_grown r1 r3.
Proof.
  intros (A & B & h & ro & ap & C) (A' & B' & h' & ro' & ap' & C'). split; [congruence|].
  split; [congruence|]. exists h', ro', ap'. rewrite C', C. by destruct (wal (r_wi r1)).
Qed.
Lemma rs_kept_grown r r' : rs_kept r r' -> rs_grown r r'.
Proof.
  intros (A & B & C & _). split; [done|]. split; [done|].
  exists (hdr (wal (r_wi r'))), (readOnly (wal (r_wi r))), (apWiData (wal (r_wi r))).
  rewrite C at 1. by destruct (wal (r_wi r)).
Qed.
Lemma view_ext_grown r s : view_ext (r_wi r) s -> rs_grown r (set_wi s r).
Proof.
  intros (X & _). split; [done|]. split; [done|].
  exists (hdr (wal (r_wi r))), (readOnly (wal s)), (apWiData (wal s)). cbn [r_wi set_wi].
  unfold wal_same in X. destruct (wal s), (wal (r_wi r)). cbn in *.
  unfold set_readOnly, set_apWiData, set_hdr in *. cbn in *. congruence.
Qed.
Lemma ok_ext log c acc r s :
  ok log c acc r -> wi_wf s -> view_ext (r_wi r) s -> ok log c acc (set_wi s r).
Proof.
  intros [R1 R2 R3 R4 R5 R6 R7 R8 R9] W X. pose proof (index_ext _ _ _ R9 W X) as I.
  destruct X as (Hw & _). revert Hw. unfold wal_same.
  generalize (readOnly (wal s)) (apWiData (wal s)). intros ro ap Hw.
  split; cbn [r_wi set_wi r_file]; rewrite ?Hw; done.
Qed.

(** The loop stops after the last frame [NL] of the file, or before the first
    frame that is not valid. *)
Definition pages_post (NL : Z) (h : nat) (log : list Z) (c : Z * Z) (acc : frec) (r : rs)
    (x : Z * (Z * Z)) (r' : rs) : Prop :=
  let fs := scan (Z.to_nat (NL - tzero h)) f sz big salt (tzero h + 1) c in
  rs_grown r r' /\ wi_wf (r_wi r') /\ no_private (r_wi r') /\
  (fst x = SQLITE_OK -> apWiData (wal (r_wi r')) !! 0%nat = Some (Shared 0) /\
     exists c', ok (log ++ map fr_page fs) c' (last_commit (tzero h + 1) fs acc) r'
       /\ snd x = snd (last_commit (tzero h + 1) fs acc)).

Lemma pages_post_grown NL h log c acc r r1 x r' :
  rs_grown r r1 -> pages_post NL h log c acc r1 x r' -> pages_post NL h log c acc r x r'.
Proof. intros K (A & B). split; [by eapply rs_grown_trans|done]. Qed.

(** The loop over one table gives all there is to read. *)
Lemma pages_post_last NL h n rc0 log c acc r rc iF cks r' :
  (n <= Z.to_nat (NL - tzero h))%nat -> rc <> SQLITE_OK \/ iF < tzero h + 1 + Z.of_nat n
    \/ n = Z.to_nat (NL - tzero h) ->
  apWiData (wal (r_wi r)) !! 0%nat = Some (Shared 0) -> no_private (r_wi r') ->
  loop_post rc0 n (tzero h + 1) log c acc r (rc, iF, cks) r' ->
  pages_post NL h log c acc r (rc, cks) r'.
Proof.
  intros Hn Hstop Ha N (K & W & _ & H). pose proof (rs_kept_grown _ _ K) as G.
  split; [done|]. split; [done|]. split; [done|]. intros E. cbn [fst snd] in *.
  destruct (H E) as (c' & EiF & O & Hc & _). destruct K as (_ & _ & Hw & _).
  split; [by rewrite Hw|]. exists c'.
  assert (Hs : scan (Z.to_nat (NL - tzero h)) f sz big salt (tzero h + 1) c
    = scan n f sz big salt (tzero h + 1) c).
  { destruct (decide (n = Z.to_nat (NL - tzero h))) as [<-|Hne]; [done|].
    replace (Z.to_nat (NL - tzero h)) with (n + (Z.to_nat (NL - tzero h) - n))%nat by lia.
    rewrite scan_app. cbv zeta. case_bool_decide; [|done]. destruct Hstop as [|[|]]; [done|lia|done]. }
  rewrite Hs. done.
Qed.

(** A table full of valid frames, and what follows it. *)
Lemma pages_post_next NL h n rc0 log c acc r rc iF cks r1 :
  Z.of_nat n = tsize h -> tzero (S h) <= NL -> rc = SQLITE_OK -> tzero (S h) < iF ->
  loop_post rc0 n (tzero h + 1) log c acc r (rc, iF, cks) r1 ->
  exists log' c' acc', ok log' c' acc' r1 /\ blen log' = blen log + tsize h /\ snd acc' = cks /\
    (forall x r', pages_post NL (S h) log' c' acc' r1 x r' -> pages_post NL h log c acc r x r').
Proof.
  intros Hn HNL Hrc EiF (K & W & _ & H). rewrite tzero_S in *.
  pose proof (rs_kept_grown _ _ K) as G. destruct (H Hrc) as (c' & EiF' & O & Hc & Hlast).
  set (fs := scan n f sz big salt (tzero h + 1) c) in *.
  assert (Hlen : length fs = n).
  { pose proof (scan_length n f sz big salt (tzero h + 1) c) as Hsl. fold fs in Hsl. lia. }
  eexists _, _, _. split; [exact O|]. split.
  { unfold blen. rewrite length_app, length_map. lia. }
  split; [done|]. intros x r' (G' & W' & N' & H').
  split; [by eapply rs_grown_trans|]. split; [done|]. split; [done|]. intros E.
  destruct (H' E) as (Ha & c2 & O2 & Hc2). split; [done|]. exists c2.
  pose proof (tsize_pos h).
  assert (Hs : scan (Z.to_nat (NL - tzero h)) f sz big salt (tzero h + 1) c
    = fs ++ scan (Z.to_nat (NL - tzero (S h))) f sz big salt (tzero (S h) + 1) c').
  { replace (Z.to_nat (NL - tzero h)) with (n + Z.to_nat (NL - tzero (S h)))%nat
      by (rewrite tzero_S; lia).
    rewrite scan_app. cbv zeta. fold fs. rewrite bool_decide_eq_true_2 by done.
    rewrite <- Hlast by done. rewrite tzero_S. do 2 f_equal. lia. }
  rewrite Hs, map_app, app_assoc, last_commit_app, Hlen.
  replace (tzero h + 1 + Z.of_nat n) with (tzero (S h) + 1) by (rewrite tzero_S; lia). done.
Qed.

Lemma wal_same_lock p q : wal_same p q -> writeLock q = writeLock p.
Proof. by intros ->. Qed.

Lemma pages_loop_ok NL n h rc0 r log c acc :
  0 <= NL -> NL + 1 < max_frame -> walFrameOffset (NL + 1) sz <= blen f ->
  ok log c acc r -> blen log = tzero h -> no_private (r_wi r) -> writeLock (wal (r_wi r)) = true ->
  (n + h)%nat = S (walFramePage NL) -> tzero h <= NL \/ n = 0%nat ->
  h = 0%nat \/ apWiData (wal (r_wi r)) !! 0%nat = Some (Shared 0) ->
  h <> 0%nat \/ n <> 0%nat ->
  wp (pages_loop SQLITE_BIGENDIAN mallocOk shmRc ioRc n sz NL rc0 h (snd acc))
    (returns (pages_post NL h log c acc r)) r.
Proof.
  intros H0 HNL Hend. revert h rc0 r log c acc.
  induction n as [|n IH]; intros h rc0 r log c acc O Hlog N Hwl Hnh Hle Ha0 Hnz.
  { destruct Ha0 as [|Ha0]; [destruct Hnz; lia|]. cbn [pages_loop]. wp_go. cbn [returns okp].
    assert (HNz : NL <= tzero h).
    { cbn in Hnh. rewrite Hnh, tzero_S. pose proof (tsize_pos (walFramePage NL)).
      pose proof (tzero_nonneg (walFramePage NL)). destruct (decide (NL = 0)) as [->|]; [lia|].
      apply walFramePage_spec. lia. }
    unfold pages_post. replace (Z.to_nat (NL - tzero h)) with 0%nat by lia. cbn [scan map last_commit].
    rewrite app_nil_r. split; [apply rs_kept_grown, rs_kept_refl|].
    split; [apply O|]. split; [done|]. eauto. }
  destruct Hle as [Hle|]; [|done]. clear Hnz.
  pose proof (tsize_pos h) as Hts. pose proof (tzero_nonneg h) as Htz.
  assert (Hu : tzero (S h) < 2 ^ 32).
  { rewrite tzero_S. unfold tsize in *. unfold max_frame in HNL. lia. }
  assert (HiL : u32 (HASHTABLE_NPAGE_ONE + Z.of_nat h * HASHTABLE_NPAGE) = tzero (S h)).
  { unfold tzero in Hu |- *. destruct (decide (S h = 0%nat)); [done|].
    unfold HASHTABLE_NPAGE_ONE, HASHTABLE_NPAGE, WALINDEX_HDR_SIZE in *.
    change (4096 - 136 / 4) with 4062. rewrite u32_small; lia. }
  assert (HiF : (if bool_decide (h = 0%nat) then 0
      else u32 (HASHTABLE_NPAGE_ONE + (Z.of_nat h - 1) * HASHTABLE_NPAGE)) = tzero h).
  { unfold tzero in Htz, Hle |- *. unfold HASHTABLE_NPAGE_ONE, HASHTABLE_NPAGE, WALINDEX_HDR_SIZE in *.
    change (4096 - 136 / 4) with 4062. unfold max_frame in HNL.
    case_bool_decide; destruct (decide (h = 0%nat)); try done. apply u32_small. lia. }
  cbn [pages_loop]. rewrite HiL, HiF. wp_step. apply wp_on_wi.
  eapply wp_mono; [apply walIndexPage_ok, O|].
  intros [[rc ptr]|e|] s1; cbn [returns okp]; [|done|done]. unfold page_post. cbn [fst snd].
  intros (W1 & X1 & Hptr & Hnull). specialize (Hnull Hwl). unfold after at 1.
  pose proof (view_ext_grown r s1 X1) as G1. pose proof (ok_ext _ _ _ _ _ O W1 X1) as O1.
  pose proof X1 as (Xw & _ & _ & Xa & Xp).
  assert (N1 : no_private s1) by (intros i Hi; by destruct (N i), (Xp i Hi)).
  assert (Hcase : ptr = Unmapped \/ ptr = Shared h).
  { destruct ptr as [|i|]; [by left|right|right]; destruct (Hptr ltac:(done)) as [Ha _];
      destruct (wf_ptr _ W1 _ _ Ha) as [|[[E _]|]]; try done. by destruct (N1 h). }
  destruct Hcase as [-> | ->].
  { wp_go. cbn [returns okp]. split; [done|]. split; [done|]. split; [done|].
    cbn [fst]. intros E. by destruct (Hnull E). }
  destruct (Hptr ltac:(done)) as [Ha _].
  assert (Ha0' : apWiData (wal s1) !! 0%nat = Some (Shared 0)).
  { destruct Ha0 as [->|Ha0]; [done|]. by apply Xa. }
  assert (HS : tzero (S h) = tzero h + tsize h) by apply tzero_S.
  replace (Z.min NL (tzero (S h)) + 1 - (1 + tzero h)) with (Z.min NL (tzero (S h)) - tzero h) by lia.
  rewrite (Z.add_comm 1 (tzero h)).
  apply table_turn_ok with (log := log) (c := c); cbn [r_wi set_wi]; try done; try lia.
  { unfold walFrameOffset, WAL_FRAME_HDRSIZE in *. nia. }
  intros rc' iF cks r' HL N'. destruct (Z.leb_spec iF (Z.min NL (tzero (S h)))) as [HiF'|HiF'].
  - wp_go. cbn [returns okp]. eapply pages_post_grown; [exact G1|].
    eapply pages_post_last; [..|exact Ha0'|exact N'|exact HL]; lia.
  - destruct (Z.le_gt_cases NL (tzero (S h))) as [Hc|Hc].
    + assert (n = 0%nat) as ->.
      { destruct (decide (NL = 0)) as [->|]; [change (walFramePage 0) with 0%nat in Hnh; lia|].
        pose proof (walFramePage_spec NL ltac:(lia)) as Hs.
        destruct n; [done|]. pose proof (tzero_mono (S h) (walFramePage NL) ltac:(lia)). lia. }
      cbn [pages_loop]. wp_go. cbn [returns okp]. eapply pages_post_grown; [exact G1|].
      eapply pages_post_last; [..|exact Ha0'|exact N'|exact HL]; lia.
    + destruct (HL) as ((_ & _ & Kw & _) & _ & Hrc & _).
      assert (rc' = SQLITE_OK) as -> by (destruct (decide (rc' = SQLITE_OK)) as [|Hne]; [done|destruct (Hrc Hne); lia]).
      edestruct (pages_post_next NL h) as (log' & c' & acc' & O' & Hl' & <- & Hnext);
        [..|exact HL|]; [lia|lia|done|lia|].
      eapply okp_mono; [apply (IH (S h) SQLITE_OK r' log' c' acc')|]; try done; try lia.
      * rewrite Kw. cbn [r_wi set_wi set_hdr writeLock]. by rewrite (wal_same_lock _ _ Xw).
      * right. rewrite Kw. cbn [r_wi set_wi set_hdr apWiData]. done.
      * intros x r2 H. eapply pages_post_grown; [exact G1|]. by apply Hnext.
Qed.
End Frames.
