(* ===== verification/WalRecovery.v ===== *)
(** * What a recovery establishes

    The header of a log file, the frames it holds and the last commit among
    them; [walIndexRecover] restores the connection and the wal-index to that
    commit, publishes the header and releases every lock it took. *)
From S2P Require Import Prelude Bits Bytes Varint Wal WalIndex WalRecover.

(** ** The contents of a log file *)

Definition log_big (f : bytes) : bool := Z.testbit (at4 f 0) 0.
Definition log_size (f : bytes) : Z := i32 (at4 f 8).
Definition log_salt (f : bytes) : bytes := seg f 16 8.
(** Checksum of the header, the start of the running checksum. *)
Definition log_cksum (f : bytes) : Z * Z := cksum (log_big f) (seg f 0 24) (0, 0).

(** A header that passes the tests of the code. *)
Definition log_header (f : bytes) : Prop :=
  WAL_HDRSIZE < blen f /\ Z.land (at4 f 0) 0xFFFFFFFE = WAL_MAGIC /\
  Z.land (log_size f) (log_size f - 1) = 0 /\ 512 <= log_size f <= SQLITE_MAX_PAGE_SIZE /\
  log_cksum f = (at4 f 24, at4 f 28).
#[global] Instance log_header_dec f : Decision (log_header f).
Proof. apply _. Defined.

Definition log_last (f : bytes) : Z := (blen f - WAL_HDRSIZE) / (log_size f + WAL_FRAME_HDRSIZE).
(** The valid frames, up to the first that is not. *)
Definition log_frames (f : bytes) : list frec :=
  if decide (log_header f)
  then scan (Z.to_nat (log_last f)) f (log_size f) (log_big f) (log_salt f) 1 (log_cksum f)
  else [].
(** Frame, size of the database and checksum of the last commit. *)
Definition log_commit (f : bytes) : frec := last_commit 1 (log_frames f) (0, 0, (0, 0)).

(** ** Locks *)

(** Only the locks and the counter differ. *)
Definition rs_same (r r' : rs) : Prop := r_wi r' = r_wi r /\ r_file r' = r_file r.

Definition locked (p : Wal) (x : Z * Z) (l : list (Z * Z)) : list (Z * Z) :=
  if exclusiveMode p =? 0 then x :: l else l.

Lemma lock_ok lockRc a n r :
  wp (walLockExclusive lockRc a n) (returns (fun rc r' => rs_same r r' /\
    r_held r' = (if rc =? SQLITE_OK then locked (wal (r_wi r)) (a, n) (r_held r) else r_held r) /\
    (exclusiveMode (wal (r_wi r)) = 0 -> rc = lockRc (r_ios r) a n))) r.
Proof.
  unfold walLockExclusive, get_wal. do 2 wp_step. unfold after, locked.
  destruct (Z.eqb_spec (exclusiveMode (wal (r_wi r))) 0); cbn [negb].
  - unfold wp. cbn [fst snd returns okp]. by destruct (Z.eqb_spec (lockRc (r_ios r) a n) SQLITE_OK).
  - wp_go. cbn. done.
Qed.

Lemma unlock_ok a n l r :
  r_held r = locked (wal (r_wi r)) (a, n) l ->
  wp (walUnlockExclusive a n) (returns (fun _ r' => rs_same r r' /\ r_held r' = l)) r.
Proof.
  unfold walUnlockExclusive, get_wal, locked. intros Hh. do 2 wp_step. unfold after.
  destruct (Z.eqb_spec (exclusiveMode (wal (r_wi r))) 0); cbn [negb]; wp_go; cbn [returns okp].
  - split; [done|]. cbn [set_held r_held count_io]. rewrite Hh. unfold unlock. cbn [list_find].
    by rewrite decide_True.
  - done.
Qed.

(** ** Words of the first page *)

(** The words outside [lo..hi-1] of the first page are unchanged, and so are
    the tables. *)
Record quiet (lo hi : Z) (s s' : wi) : Prop := {
  q_wf : wi_wf s';
  q_wal : wal s' = wal s;
  q_index log : index_ok log s -> index_ok log s';
  q_words g : view s 0%nat = Some g -> exists g', view s' 0%nat = Some g' /\
    forall i, ~ lo <= i < hi -> bat (words g') i = bat (words g) i;
}.

Lemma quiet_refl lo hi s : wi_wf s -> quiet lo hi s s.
Proof. intros W. split; eauto. Qed.
Lemma quiet_trans lo hi s1 s2 s3 : quiet lo hi s1 s2 -> quiet lo hi s2 s3 -> quiet lo hi s1 s3.
Proof.
  intros [A B C D] [A' B' C' D']. split; [done|congruence|auto|]. intros g Hg.
  destruct (D g Hg) as (g2 & Hg2 & E). destruct (D' g2 Hg2) as (g3 & Hg3 & E').
  exists g3. split; [done|]. intros i Hi. by rewrite E', E.
Qed.
Lemma quiet_widen lo hi lo' hi' s s' :
  lo' <= lo -> hi <= hi' -> quiet lo hi s s' -> quiet lo' hi' s s'.
Proof.
  intros H1 H2 [A B C D]. split; [done..|]. intros g Hg. destruct (D g Hg) as (g' & Hg' & E).
  exists g'. split; [done|]. intros i Hi. apply E. lia.
Qed.

Lemma write_words_ok off ws s :
  wi_wf s -> apWiData (wal s) !! 0%nat = Some (Shared 0) -> 0 <= off -> off + blen ws <= 34 ->
  wp (write_words off ws) (returns (fun _ s' => quiet off (off + blen ws) s s' /\
    exists g', view s' 0%nat = Some g' /\
      forall j, 0 <= j < blen ws -> bat (words g') (off + j) = bat ws j)) s.
Proof.
  intros W Ha Hoff Hend. unfold write_words. do 2 wp_step. unfold after at 1.
  change (id s) with s. rewrite Ha. do 2 wp_step. unfold after at 1.
  assert (exists g, view s 0%nat = Some g) as [g Hg] by (by eapply view_mapped).
  rewrite (deref_view s 0 (Shared 0) g) by done. do 2 wp_step. unfold after at 1.
  destruct (view_sized _ _ _ W Hg) as [Hlw Hs]. pose proof (blen_nonneg ws).
  destruct (blit_in (words g) off ws) as [wd E]; [done|rewrite Hlw; unfold HASHTABLE_NPAGE; lia|].
  rewrite E. do 2 wp_step. unfold after at 1. wp_step.
  destruct (store_ok s 0 (Shared 0) (mkPage wd (slots g))) as (W' & Hwal & Hv & Ho); try done.
  { split; [|done]. cbn [words]. by rewrite (blit_len _ _ _ _ E). }
  cbn [returns okp].
  assert (Hat : forall i, ~ off <= i < off + blen ws -> bat wd i = bat (words g) i).
  { intros i Hi. rewrite (blit_at _ _ _ _ _ E).
    by destruct (Z.leb_spec off i), (Z.ltb_spec i (off + blen ws)); try lia. }
  split; [split; [done|done|..]|].
  - intros log I. split; [done|apply I|apply I|]. intros h Hh.
    destruct (ix_table _ _ I h Hh) as (g' & Hg' & T).
    destruct (decide (h = 0%nat)) as [->|Hne]; [|exists g'; by rewrite Ho].
    assert (g' = g) as -> by congruence. eexists. split; [exact Hv|].
    eapply table_copy; [exact T|cbn [words]; by rewrite (blit_len _ _ _ _ E)|done|].
    intros i Hi. cbn [words]. apply Hat. change (toff 0) with 34 in Hi. lia.
  - intros g' Hg'. assert (g' = g) as -> by congruence. eexists. split; [exact Hv|]. exact Hat.
  - eexists. split; [exact Hv|]. intros j Hj. cbn [words]. rewrite (blit_at _ _ _ _ _ E).
    destruct (Z.leb_spec off (off + j)), (Z.ltb_spec (off + j) (off + blen ws)); try lia.
    cbn [andb]. f_equal. lia.
Qed.

(** ** Read marks *)

Lemma marks_loop_ok lockRc n i rc r :
  wi_wf (r_wi r) -> apWiData (wal (r_wi r)) !! 0%nat = Some (Shared 0) ->
  1 <= i -> i + Z.of_nat n <= WAL_NREADER ->
  wp (marks_loop lockRc n i rc) (returns (fun _ r' =>
    r_file r' = r_file r /\ r_held r' = r_held r /\ quiet 26 30 (r_wi r) (r_wi r'))) r.
Proof.
  revert i rc r. induction n as [|n IH]; intros i rc r W Ha Hi Hn; cbn [marks_loop].
  { wp_go. cbn. split; [done|]. split; [done|]. by apply quiet_refl. }
  unfold WAL_NREADER in *.
  eapply wp_seq; [apply lock_ok|]. intros rc1 r1 ([Hw Hf] & Hh & _).
  destruct (Z.eqb_spec rc1 SQLITE_OK) as [->|Hrc].
  2:{ case_if.
      - wp_go. cbn. split; [done|]. split; [done|]. rewrite Hw. by apply quiet_refl.
      - eapply okp_mono; [apply IH; rewrite ?Hw; done || lia|].
        cbn beta. rewrite Hw, Hf, Hh. done. }
  unfold get_wal. do 2 wp_step. unfold after at 1. wp_step. apply wp_on_wi.
  eapply wp_mono; [apply write_words_ok; rewrite ?Hw; (done || lia || (unfold blen; cbn [length]; lia))|].
  intros [[]|e|] s2; cbn [returns okp]; [|done|done]. intros [Q _]. unfold after at 1.
  eapply wp_seq; [apply (unlock_ok _ _ (r_held r)); cbn [r_held set_wi r_wi]; by rewrite (q_wal _ _ _ _ Q), Hh, Hw|].
  intros _ r3 [[Hw3 Hf3] Hh3]. cbn [r_wi set_wi r_file] in *.
  eapply (quiet_widen _ _ 26 30) in Q; [|lia|unfold blen; cbn [length]; lia].
  eapply okp_mono; [apply IH; rewrite ?Hw3, ?(q_wal _ _ _ _ Q), ?Hw; try done; try lia; apply Q|].
  cbn beta. intros _ r4. rewrite Hw3, Hf3, Hh3, Hf. intros (-> & -> & Q').
  split; [done|]. split; [done|]. rewrite Hw in Q. by eapply quiet_trans.
Qed.

(** ** The header *)

Section Header.
Context (SQLITE_BIGENDIAN : bool).

Definition salted (h : WalIndexHdr) : Prop := blen (aSalt h) = 8 /\ bytes_ok (aSalt h).

Lemma word_bytes_ok x :
  length (word_bytes SQLITE_BIGENDIAN x) = 4%nat /\ bytes_ok (word_bytes SQLITE_BIGENDIAN x).
Proof.
  unfold word_bytes. pose proof (fun y => u8_range y) as H.
  split; [by destruct SQLITE_BIGENDIAN|]. unfold bytes_ok.
  destruct SQLITE_BIGENDIAN; cbn [rev app]; repeat (apply list.Forall_cons; split; [apply H|]); done.
Qed.
Lemma hdr_bytes_ok h :
  salted h -> blen (hdr_bytes SQLITE_BIGENDIAN h) = 40 /\ bytes_ok (hdr_bytes SQLITE_BIGENDIAN h).
Proof.
  intros [Hl Hs]. pose proof word_bytes_ok as W. unfold hdr_bytes. split.
  - unfold blen in *. rewrite !length_app, !(proj1 (W _)). lia.
  - unfold bytes_ok in *. repeat (apply Forall_app_2; [apply W|]). done.
Qed.
Lemma hdr_words_ok h :
  salted h -> exists ws, hdr_words SQLITE_BIGENDIAN h = Some ws /\ length ws = 12%nat.
Proof.
  intros [Hl Hs]. unfold hdr_words.
  destruct (load32_word SQLITE_BIGENDIAN SQLITE_BIGENDIAN (aSalt h) 0) as (w0 & -> & _); [done|lia|lia|].
  destruct (load32_word SQLITE_BIGENDIAN SQLITE_BIGENDIAN (aSalt h) 4) as (w1 & -> & _); [done|lia|lia|].
  cbn. eauto.
Qed.

(** The header the code writes for [h]: sealed by its own checksum. *)
Definition sealed (h : WalIndexHdr) : WalIndexHdr :=
  hdr_seal (cksum SQLITE_BIGENDIAN (hdr_bytes SQLITE_BIGENDIAN (hdr_init h)) (0, 0)) (hdr_init h).

(** Both copies in the shared page are the header of the connection. *)
Definition published (s : wi) : Prop :=
  exists ws g, hdr_words SQLITE_BIGENDIAN (hdr (wal s)) = Some ws /\ view s 0%nat = Some g /\
    forall j, 0 <= j < 12 -> bat (words g) j = bat ws j /\ bat (words g) (12 + j) = bat ws j.

Lemma published_quiet lo hi s s' :
  24 <= lo -> quiet lo hi s s' -> published s -> published s'.
Proof.
  intros Hlo Q (ws & g & Hws & Hg & H). destruct (q_words _ _ _ _ Q g Hg) as (g' & Hg' & E).
  exists ws, g'. rewrite (q_wal _ _ _ _ Q). split; [done|]. split; [done|]. intros j Hj.
  destruct (H j Hj). by rewrite !E by lia.
Qed.

Lemma walIndexWriteHdr_ok s :
  wi_wf s -> apWiData (wal s) !! 0%nat = Some (Shared 0) -> salted (hdr (wal s)) ->
  wp (walIndexWriteHdr SQLITE_BIGENDIAN) (returns (fun _ s' =>
    quiet 0 24 (set_wal (set_hdr (sealed (hdr (wal s))) (wal s)) s) s' /\ published s')) s.
Proof.
  intros W Ha Hsalt. unfold walIndexWriteHdr. set (h1 := hdr_init (hdr (wal s))).
  assert (Hs1 : salted h1) by done. destruct (hdr_bytes_ok h1 Hs1) as [Hl Hb].
  do 2 wp_step. unfold after at 1. do 2 wp_step. unfold after at 1.
  change (hdr (wal _)) with h1 at 1.
  pose proof (walChecksum_ok SQLITE_BIGENDIAN SQLITE_BIGENDIAN (hdr_bytes SQLITE_BIGENDIAN h1) 40 None
    Hb ltac:(lia) eq_refl) as Hck.
  rewrite eqb_reflx in Hck. rewrite Hck. clear Hck. cbn [default].
  replace (seg (hdr_bytes SQLITE_BIGENDIAN h1) 0 40) with (hdr_bytes SQLITE_BIGENDIAN h1)
    by (symmetry; rewrite <- Hl; apply seg_all).
  do 2 wp_step. unfold after at 1. do 2 wp_step. unfold after at 1. do 2 wp_step. unfold after at 1.
  set (s2 := set_wal (set_hdr (sealed (hdr (wal s))) (wal s)) s).
  change (wp (let* ws := lift (hdr_words SQLITE_BIGENDIAN (hdr (wal s2))) in
    write_words 12 ws ;;* write_words 0 ws)
    (returns (fun _ s' => quiet 0 24 s2 s' /\ published s')) s2).
  assert (Hs2 : salted (hdr (wal s2))) by done.
  destruct (hdr_words_ok _ Hs2) as (ws & Ews & Hlw). rewrite Ews.
  assert (Hbl : blen ws = 12) by (unfold blen; lia).
  assert (W2 : wi_wf s2) by (by apply wf_set_wal).
  do 2 wp_step. unfold after at 1.
  eapply wp_seq; [apply write_words_ok; done || lia|]. intros _ s3 [Q3 (g3 & Hg3 & E3)].
  eapply okp_mono.
  { apply write_words_ok; [apply Q3|by rewrite (q_wal _ _ _ _ Q3)|done|lia]. }
  cbn beta. rewrite Hbl in *. intros _ s4 [Q4 (g4 & Hg4 & E4)].
  split; [eapply quiet_trans; eapply quiet_widen; [..|exact Q3| | |exact Q4]; lia|].
  exists ws, g4. rewrite (q_wal _ _ _ _ Q4), (q_wal _ _ _ _ Q3). split; [done|]. split; [done|].
  intros j Hj. split; [by apply (E4 j)|].
  destruct (q_words _ _ _ _ Q4 g3 Hg3) as (g5 & Hg5 & E5).
  assert (g5 = g4) as -> by congruence. rewrite E5 by lia. by apply E3.
Qed.

(** The checkpoint counters start again. *)
Definition ckpt_reset (s : wi) : Prop :=
  exists g, view s 0%nat = Some g /\ bat (words g) 24 = 0 /\ bat (words g) 25 = 0
    /\ bat (words g) 32 = mxFrame (hdr (wal s)).

Lemma wp_on_seq {A B} (m : M wi A) (f : A -> M rs B) (P : A -> wi -> Prop) G (Q : B -> rs -> Prop) r :
  wp m (returns P) (r_wi r) -> (forall a s, P a s -> wp (f a) (okp G Q) (set_wi s r)) ->
  wp (bind (on_wi m) f) (okp G Q) r.
Proof.
  intros H1 H2. apply wp_bind, wp_on_wi. eapply wp_mono; [exact H1|].
  intros [a|e|] s; cbn; [apply H2|done|done].
Qed.

(** A word of the first page. *)
Lemma write_word_ok off x s :
  wi_wf s -> apWiData (wal s) !! 0%nat = Some (Shared 0) -> 0 <= off < 34 ->
  wp (write_words off [x]) (returns (fun _ s' => quiet off (off + 1) s s' /\
    exists g', view s' 0%nat = Some g' /\ bat (words g') off = x)) s.
Proof.
  intros W Ha Hoff. eapply okp_mono; [apply write_words_ok; (done || lia || (unfold blen; cbn [length]; lia))|].
  cbn beta. intros _ s' [Q (g & Hg & E)]. split; [exact Q|]. exists g. split; [done|].
  specialize (E 0 ltac:(unfold blen; cbn; lia)). by rewrite Z.add_0_r in E.
Qed.

Lemma recover_finish_ok lockRc cks r :
  wi_wf (r_wi r) -> apWiData (wal (r_wi r)) !! 0%nat = Some (Shared 0) ->
  salted (hdr (wal (r_wi r))) ->
  let p := set_hdr (sealed (hdr_set_cksum cks (hdr (wal (r_wi r))))) (wal (r_wi r)) in
  wp (recover_finish SQLITE_BIGENDIAN lockRc cks) (returns (fun _ r' =>
    r_file r' = r_file r /\ r_held r' = r_held r /\ quiet 0 34 (set_wal p (r_wi r)) (r_wi r')
    /\ published (r_wi r') /\ ckpt_reset (r_wi r'))) r.
Proof.
  intros W Ha Hsalt p. unfold recover_finish, mod_hdr, mod_wal, get_wal.
  do 2 wp_step. unfold after at 1.
  set (s0 := set_wal (set_cksum cks (wal (r_wi r))) (r_wi r)).
  eapply (wp_on_seq _ _ (fun _ s' => quiet 0 24 (set_wal p (r_wi r)) s' /\ published s')).
  { apply (walIndexWriteHdr_ok s0); [by apply wf_set_wal|done|done]. }
  intros _ s1 [Q1 P1]. cbn beta. do 2 wp_step. unfold after at 1. cbn [r_wi set_wi].
  assert (Hw1 : wal s1 = p) by apply Q1. rewrite Hw1.
  assert (Ha1 : apWiData (wal s1) !! 0%nat = Some (Shared 0)) by (by rewrite Hw1).
  eapply wp_on_seq; [apply write_word_ok; [apply Q1|done|lia]|]. cbn [r_wi set_wi]. intros _ s2 [Q2 (g2 & V2 & E2)].
  assert (Hw2 : wal s2 = p) by (by rewrite (q_wal _ _ _ _ Q2)).
  eapply wp_on_seq; [apply write_word_ok; [apply Q2|cbn [r_wi set_wi]; by rewrite Hw2|lia]|]. cbn [r_wi set_wi]. intros _ s3 [Q3 (g3 & V3 & E3)].
  assert (Hw3 : wal s3 = p) by (by rewrite (q_wal _ _ _ _ Q3)).
  eapply wp_on_seq; [apply write_word_ok; [apply Q3|cbn [r_wi set_wi]; by rewrite Hw3|lia]|]. cbn [r_wi set_wi]. intros _ s4 [Q4 (g4 & V4 & E4)].
  assert (Hw4 : wal s4 = p) by (by rewrite (q_wal _ _ _ _ Q4)).
  eapply okp_mono; [apply marks_loop_ok; cbn [r_wi set_wi]; [apply Q4|cbn [r_wi set_wi]; by rewrite Hw4|lia|done]|].
  cbn [r_wi set_wi r_file r_held]. intros _ r' (Hf & Hh & Q5).
  split; [done|]. split; [done|]. split.
  { eapply quiet_trans; [eapply quiet_widen; [..|exact Q1]; lia|].
    eapply quiet_trans; [eapply quiet_widen; [..|exact Q2]; lia|].
    eapply quiet_trans; [eapply quiet_widen; [..|exact Q3]; lia|].
    eapply quiet_trans; [eapply quiet_widen; [..|exact Q4]; lia|].
    eapply quiet_widen; [..|exact Q5]; lia. }
  split.
  { do 4 (eapply published_quiet; [|eassumption|]; [lia|]). done. }
  destruct (q_words _ _ _ _ Q3 _ V2) as (g3' & V3' & F3). replace g3' with g3 in * by congruence.
  destruct (q_words _ _ _ _ Q4 _ V3) as (g4' & V4' & F4). replace g4' with g4 in * by congruence.
  destruct (q_words _ _ _ _ Q5 _ V4) as (g5 & V5 & F5).
  exists g5. split; [done|]. rewrite (q_wal _ _ _ _ Q5), Hw4, !F5 by lia.
  split; [rewrite F4, F3 by lia; done|]. split; [done|]. by rewrite F4 by lia.
Qed.
End Header.

(** ** The header of the file *)

(** Multiples of eight are the only page sizes the test lets through. *)
Lemma pow2_aligned x : 512 <= x -> Z.land x (x - 1) = 0 -> x mod 8 = 0.
Proof.
  intros Hx H. destruct (decide (x mod 8 = 0)) as [|Hne]; [done|].
  assert (Hs : Z.shiftr (Z.land x (x - 1)) 3 = 0) by (by rewrite H).
  rewrite Z.shiftr_land, !Z.shiftr_div_pow2 in Hs by lia.
  change (2 ^ 3) with 8 in Hs.
  replace ((x - 1) / 8) with (x / 8) in Hs by div_lia. rewrite Z.land_diag in Hs. div_lia.
Qed.

(** Only fields of the header of the log, and sizes, differ. *)
Definition wal_log (p q : Wal) : Prop :=
  exists sz n h, q = set_hdr h (set_sizes sz n p).

Section Main.
Context (SQLITE_BIGENDIAN : bool) (mallocOk : nat -> bool) (shmRc ioRc : nat -> Z) (lockRc : nat -> Z -> Z -> Z)
  (junk : wipage).
Context (f : bytes).
Hypothesis Hf : bytes_ok f.

Definition cleared (h : WalIndexHdr) : Prop :=
  salted h /\ mxFrame h = 0 /\ hdr_nPage h = 0.

(** What is known when the header has been examined. *)
Definition header_post (r : rs) (g : goto) (r' : rs) : Prop :=
  r_file r' = f /\ r_held r' = r_held r /\
  shm (r_wi r') = shm (r_wi r) /\ priv (r_wi r') = priv (r_wi r) /\
  wal_log (wal (r_wi r)) (wal (r_wi r')) /\ cleared (hdr (wal (r_wi r'))) /\
  match g with
  | recovery_error rc => rc <> SQLITE_OK
  | finished rc => rc = SQLITE_OK -> ~ log_header f
  | read_frames sz =>
      log_header f /\ sz = log_size f /\ szPage (wal (r_wi r')) = sz
      /\ bigEndCksum (hdr (wal (r_wi r'))) = log_big f
      /\ aSalt (hdr (wal (r_wi r'))) = log_salt f
      /\ aFrameCksum (hdr (wal (r_wi r'))) = log_cksum f
  end.

Lemma seg_seg d i n j m :
  0 <= i -> 0 <= j -> 0 <= m -> j + m <= n -> seg (seg d i n) j m = seg d (i + j) m.
Proof.
  intros. unfold seg. rewrite skipn_firstn_comm, drop_drop, take_take. f_equal; [lia|f_equal; lia].
Qed.
Lemma at4_seg d n i : 0 <= i -> i + 4 <= n -> at4 (seg d 0 n) i = at4 d i.
Proof. intros Hi Hn. apply at4_eq. intros j Hj. by rewrite seg_at by lia. Qed.

Lemma recover_header_ok r :
  r_file r = f -> WAL_HDRSIZE < blen f -> cleared (hdr (wal (r_wi r))) ->
  wp (recover_header SQLITE_BIGENDIAN ioRc) (returns (header_post r)) r.
Proof.
  intros Hr Hlen Hc. unfold recover_header. wp_step.
  unfold wp at 1, sqlite3OsRead. cbn [fst snd]. rewrite Hr.
  destruct (bsub_in f 0 WAL_HDRSIZE) as [a E]; [done|done|lia|]. rewrite E. cbn [default].
  apply bsub_seg in E as ->. set (a := seg f 0 WAL_HDRSIZE).
  destruct (Z.leb_spec (0 + WAL_HDRSIZE) (blen f)); [|lia].
  assert (W0 : wal_log (wal (r_wi r)) (wal (r_wi r))).
  { exists (szPage (wal (r_wi r))), (nCkpt (wal (r_wi r))), (hdr (wal (r_wi r))). by destruct (wal (r_wi r)). }
  set (rc := ioRc (r_ios r)). unfold after at 1.
  replace (if rc =? SQLITE_OK then rc else rc) with rc by (by destruct (rc =? SQLITE_OK)).
  destruct (Z.eqb_spec rc SQLITE_OK) as [Hrc|Hrc]; cbn [negb].
  2:{ wp_go. by split_and!. }
  assert (Ha : blen a = 32 /\ bytes_ok a).
  { split; [unfold a, blen; rewrite seg_len; unfold WAL_HDRSIZE in *; lia|].
    by apply Forall_take, Forall_drop. }
  assert (G4 : forall i, 0 <= i -> i + 4 <= 32 -> sqlite3Get4byte a i = Some (at4 f i)).
  { intros i Hi Hi'. rewrite Get4byte_in by (apply Ha || lia). f_equal. by apply at4_seg. }
  rewrite !G4 by lia. do 2 wp_step. unfold after at 1. do 2 wp_step. unfold after at 1.
  fold (log_size f).
  case_if.
  { wp_go. split_and!; try done. intros _ (_ & H1 & H2 & H3 & _). unfold SQLITE_MAX_PAGE_SIZE in *.
    rewrite !orb_true_iff, !negb_true_iff in Hif. zb. destruct Hif as [[[|]|]|]; zb; lia. }
  change (id a) with a. destruct (bsub_in a 16 8) as [salt Es]; [lia|lia|lia|]. rewrite Es.
  assert (salt = log_salt f) as ->.
  { apply bsub_seg in Es as ->. unfold a. by rewrite seg_seg. }
  pose proof (walChecksum_ok SQLITE_BIGENDIAN (log_big f) a (WAL_HDRSIZE - 8) None (proj2 Ha)
    ltac:(unfold WAL_HDRSIZE; lia) eq_refl) as Hck. cbn [default] in Hck.
  unfold a at 2 in Hck. rewrite seg_seg in Hck by (unfold WAL_HDRSIZE; lia).
  change (cksum (log_big f) (seg f (0 + 0) (WAL_HDRSIZE - 8)) (0, 0)) with (log_cksum f) in Hck.
  fold (log_big f). rewrite Hck. unfold mod_hdr, mod_wal.
  do 7 (wp_step; wp_step; unfold after at 1).
  set (h' := hdr_set_cksum (log_cksum f) (hdr_start (log_big f) (log_salt f) (hdr (wal (r_wi r))))).
  set (r' := set_wi (set_wal (set_hdr h' (set_sizes (log_size f) (at4 f 12) (wal (r_wi r))))
               (r_wi r)) (count_io r)).
  match goal with |- wp _ _ ?s => change s with r' end.
  assert (Hr' : forall g, (match g with recovery_error rc => rc <> SQLITE_OK
      | finished rc => rc = SQLITE_OK -> ~ log_header f
      | read_frames sz => log_header f /\ sz = log_size f end) -> header_post r g r').
  { intros g Hg. split; [done|]. split; [done|]. split; [done|]. split; [done|].
    split; [by exists (log_size f), (at4 f 12), h'|]. split; [|by destruct g as [| |sz]; [..|destruct Hg as [? ->]]].
    split; [|apply Hc]. split; cbn [aSalt r' h' r_wi wal hdr set_hdr set_wi set_wal hdr_set_cksum hdr_start].
    - unfold log_salt, blen. rewrite seg_len; unfold WAL_HDRSIZE in *; lia.
    - by apply Forall_take, Forall_drop. }
  do 2 wp_step. unfold after at 1. case_if.
  { wp_go. apply Hr'. intros _ (_ & _ & _ & _ & Hk). rewrite Hk in Hif. cbn [fst snd] in Hif.
    by rewrite !Z.eqb_refl in Hif. }
  do 2 wp_step. unfold after at 1. case_if; wp_go; apply Hr'; [done|].
  split; [|done]. split; [done|]. split; [done|]. split; [done|]. split; [done|].
  destruct (log_cksum f); cbn [fst snd] in *; congruence.
Qed.

(** ** The whole recovery *)

(** The state is that of the last commit of the file. *)
Definition restored (cks : Z * Z) (s : wi) : Prop :=
  mxFrame (hdr (wal s)) = fst (fst (log_commit f)) /\
  hdr_nPage (hdr (wal s)) = snd (fst (log_commit f)) /\
  cks = snd (log_commit f) /\
  (0 < mxFrame (hdr (wal s)) ->
     bigEndCksum (hdr (wal s)) = log_big f /\ aSalt (hdr (wal s)) = log_salt f /\
     hdr_szPage (hdr (wal s)) = u16 (Z.lor (Z.land (log_size f) 0xff00) (Z.shiftr (log_size f) 16))) /\
  index_ok (map fr_page (log_frames f)) s.

Definition wal_env (p q : Wal) : Prop :=
  exclusiveMode q = exclusiveMode p /\ ckptLock q = ckptLock p.

Definition file_post (r : rs) (x : goto * (Z * Z)) (r' : rs) : Prop :=
  r_file r' = f /\ r_held r' = r_held r /\ wal_env (wal (r_wi r)) (wal (r_wi r')) /\
  wi_wf (r_wi r') /\
  match fst x with
  | recovery_error rc => rc <> SQLITE_OK
  | read_frames _ => False
  | finished rc => rc = SQLITE_OK ->
      apWiData (wal (r_wi r')) !! 0%nat = Some (Shared 0) /\ no_private (r_wi r') /\
      salted (hdr (wal (r_wi r'))) /\ restored (snd x) (r_wi r')
  end.

Record start (r : rs) : Prop := {
  st_file : r_file r = f;
  st_wf : wi_wf (r_wi r);
  st_page0 : apWiData (wal (r_wi r)) !! 0%nat = Some (Shared 0);
  st_priv : no_private (r_wi r);
  st_lock : writeLock (wal (r_wi r)) = true;
}.

Lemma index_nil s : wi_wf s -> index_ok [] s.
Proof.
  intros W. split; [done|done|done|]. intros h Hh. pose proof (tzero_nonneg h).
  change (blen []) with 0 in Hh. lia.
Qed.

(** Nothing to recover. *)
Lemma restored_none s :
  wi_wf s -> mxFrame (hdr (wal s)) = 0 -> hdr_nPage (hdr (wal s)) = 0 -> ~ log_header f ->
  restored (0, 0) s.
Proof.
  intros W H1 H2 Hn. unfold restored, log_commit, log_frames. rewrite decide_False by done.
  cbn [last_commit fst snd map]. split_and!; try done; [lia|]. by apply index_nil.
Qed.

Lemma wal_log_start r r' :
  start r -> r_file r' = f -> shm (r_wi r') = shm (r_wi r) -> priv (r_wi r') = priv (r_wi r) ->
  wal_log (wal (r_wi r)) (wal (r_wi r')) -> start r' /\ wal_env (wal (r_wi r)) (wal (r_wi r')).
Proof.
  intros [A [B1 B2 B3 B4] C D E] Hf' Hs Hp (sz & n & h & Hw). split.
  - split; [done|split|..]; rewrite ?Hw, ?Hs, ?Hp; try done. intros i. rewrite Hw. apply D.
  - by split; rewrite Hw.
Qed.

Lemma recover_file_ok r :
  start r -> page_sized junk -> WAL_HDRSIZE < blen f < 2 ^ 40 -> cleared (hdr (wal (r_wi r))) ->
  wp (recover_file SQLITE_BIGENDIAN mallocOk shmRc ioRc junk (blen f)) (returns (file_post r)) r.
Proof.
  intros S0 Hj Hlen Hc. unfold recover_file.
  eapply wp_seq; [apply recover_header_ok; [apply S0|lia|done]|].
  intros g r1 (F1 & H1 & Es & Ep & Lg & (Sa & Mx & Np) & Hg).
  destruct (wal_log_start r r1) as [S1 Env]; try done.
  destruct g as [rc|rc|sz].
  { wp_go. split; [done|]. split; [done|]. split; [done|]. split; [apply S1|done]. }
  { wp_go. split; [done|]. split; [done|]. split; [done|]. split; [apply S1|]. cbn [fst snd].
    intros E. split; [apply S1|]. split; [apply S1|]. split; [done|].
    apply restored_none; auto. apply S1. }
  destruct Hg as (Hh & -> & G1 & G2 & G3 & G4).
  eapply wp_on_seq with (P := fun _ s => s = count_req (r_wi r1)); [done|].
  intros ok s ->. cbn beta. destruct ok; cbn [negb].
  2:{ wp_go. cbn. split; [done|]. split; [done|]. split; [done|]. split; [|done].
      destruct (st_wf _ S1). by split. }
  eapply wp_on_seq with (P := fun _ s => s = set_priv junk (count_req (r_wi r1))); [done|].
  intros _ s ->. set (r2 := set_wi _ _).
  assert (W2 : wi_wf (r_wi r2)) by (destruct (st_wf _ S1); by split).
  assert (Hsz : 512 <= log_size f) by apply Hh.
  assert (Hal : log_size f mod 8 = 0) by (apply pow2_aligned; [done|apply Hh]).
  assert (HL : u32 ((blen f - WAL_HDRSIZE) / (log_size f + WAL_FRAME_HDRSIZE)) = log_last f
    /\ 0 <= log_last f /\ log_last f + 1 < max_frame
    /\ walFrameOffset (log_last f + 1) (log_size f) <= blen f).
  { unfold log_last, walFrameOffset, max_frame, WAL_HDRSIZE, WAL_FRAME_HDRSIZE in *.
    set (q := (blen f - 32) / (log_size f + 24)).
    assert (0 <= q /\ q * (log_size f + 24) <= blen f - 32) as [Hq0 Hq].
    { unfold q. split; [apply Z.div_pos; lia|].
      rewrite Z.mul_comm. apply Z.mul_div_le. lia. }
    assert (q + 1 < 2 ^ 31) by nia. rewrite u32_small by lia. split_and!; lia. }
  destruct HL as (-> & HL0 & HL1 & HL2).
  assert (O2 : rec_ok f (log_size f) (log_big f) (log_salt f) [] (log_cksum f) (0, 0, (0, 0)) r2).
  { split; try done. by apply index_nil. }
  eapply wp_seq.
  { apply (pages_loop_ok SQLITE_BIGENDIAN mallocOk shmRc ioRc f (log_size f) (log_big f) (log_salt f)
      Hf ltac:(lia) Hal (log_last f) _ 0 SQLITE_OK r2 [] (log_cksum f) (0, 0, (0, 0)));
      try done; try (apply S1); try lia. left. done. }
  intros [rc cks] r3 ((F3 & H3 & h3 & ro & ap & Hw3) & W3 & N3 & H). wp_go. cbn [fst snd returns okp] in *.
  split; [by rewrite F3|]. split; [by rewrite H3|]. split.
  { destruct Env as [Env1 Env2]. split; rewrite Hw3; done. }
  split; [done|]. cbn [fst snd]. intros E. destruct (H E) as (Ha & c' & O3 & Hck).
  assert (Hfr : log_frames f = scan (Z.to_nat (log_last f - tzero 0)) f (log_size f) (log_big f)
    (log_salt f) (tzero 0 + 1) (log_cksum f)).
  { unfold log_frames. rewrite decide_True by done. do 2 f_equal. change (tzero 0) with 0. lia. }
  rewrite <- Hfr in O3, Hck. change (tzero 0 + 1) with 1 in O3, Hck. fold (log_commit f) in O3, Hck.
  destruct O3 as [R1 R2 R3 R4 R5 R6 R7 R8 R9].
  split; [done|]. split; [done|]. split; [unfold salted; rewrite R4, <- G3; apply Sa|].
  split; [done|]. split; [done|]. split; [done|]. split; [|done].
  intros Hmx. split; [done|]. split; [done|]. apply R8. by rewrite <- R6.
Qed.

(** What holds after a recovery. *)
Definition recovered (s : wi) : Prop :=
  restored (aFrameCksum (hdr (wal s))) s /\ isInit (hdr (wal s)) = 1 /\
  iVersion (hdr (wal s)) = WALINDEX_MAX_VERSION /\
  published SQLITE_BIGENDIAN s /\ ckpt_reset s.

Lemma restored_quiet cks h s s' lo hi :
  restored cks s -> quiet lo hi (set_wal (set_hdr h (wal s)) s) s' ->
  mxFrame h = mxFrame (hdr (wal s)) -> hdr_nPage h = hdr_nPage (hdr (wal s)) ->
  bigEndCksum h = bigEndCksum (hdr (wal s)) -> aSalt h = aSalt (hdr (wal s)) ->
  hdr_szPage h = hdr_szPage (hdr (wal s)) -> restored cks s'.
Proof.
  intros (A & B & C & D & I) Q E1 E2 E3 E4 E5. unfold restored. rewrite (q_wal _ _ _ _ Q).
  cbn [wal set_wal hdr set_hdr]. rewrite E1, E2, E3, E4, E5. split_and!; try done; try (by apply D).
  apply Q. by apply index_set_wal.
Qed.

(** From the examined file to the end, but for the locks. *)
Definition done_post (r : rs) (rc : Z) (r' : rs) : Prop :=
  r_file r' = f /\ r_held r' = r_held r /\ wal_env (wal (r_wi r)) (wal (r_wi r')) /\
  wi_wf (r_wi r') /\ (rc = SQLITE_OK -> recovered (r_wi r')).

Lemma finish_ok r g cks r' :
  file_post r (g, cks) r' ->
  wp (match g with
      | recovery_error rc => ret rc
      | finished rc => if rc =? SQLITE_OK then recover_finish SQLITE_BIGENDIAN lockRc cks else ret rc
      | read_frames _ => undef
      end) (returns (done_post r)) r'.
Proof.
  intros (F1 & H1 & Env & W & Hg). cbn [fst snd] in Hg.
  destruct g as [rc|rc|sz]; [by wp_go| |done].
  destruct (Z.eqb_spec rc SQLITE_OK) as [Hrc|Hrc]; [|by wp_go].
  destruct (Hg Hrc) as (Ha & _ & Sa & R).
  eapply okp_mono; [apply recover_finish_ok; done|]. cbn beta. intros rc' r2 (F2 & H2 & Q & P & C).
  split; [by rewrite F2|]. split; [by rewrite H2|]. split; [|split; [apply Q|]].
  { destruct Env as [E1 E2]. split; rewrite (q_wal _ _ _ _ Q); done. }
  intros _. assert (Hk : aFrameCksum (hdr (wal (r_wi r2))) = cks) by (by rewrite (q_wal _ _ _ _ Q)).
  split; [rewrite Hk; by eapply restored_quiet|].
  split; [by rewrite (q_wal _ _ _ _ Q)|]. split; [by rewrite (q_wal _ _ _ _ Q)|done].
Qed.

Lemma walIndexRecover_ok r :
  start r -> page_sized junk -> blen f < 2 ^ 40 ->
  wp (walIndexRecover SQLITE_BIGENDIAN mallocOk shmRc ioRc lockRc junk)
    (returns (fun rc r' => r_file r' = f /\ r_held r' = r_held r /\ wi_wf (r_wi r') /\
      (rc = SQLITE_OK -> recovered (r_wi r')))) r.
Proof.
  intros S0 Hj Hlen. unfold walIndexRecover, get_wal. do 2 wp_step. unfold after at 1.
  eapply wp_seq; [apply lock_ok|]. intros rc r1 ([Hw1 Hf1] & Hh1 & _).
  destruct (Z.eqb_spec rc SQLITE_OK) as [->|Hrc]; cbn [negb].
  2:{ wp_go. cbn. rewrite Hw1, Hf1. split; [apply S0|]. split; [done|]. split; [apply S0|done]. }
  unfold mod_hdr, mod_wal. do 2 wp_step. unfold after at 1. wp_step.
  unfold wp at 1, sqlite3OsFileSize. cbn [fst snd]. unfold after at 1.
  set (r3 := count_io _).
  assert (S3 : start r3).
  { destruct S0 as [A [B1 B2 B3 B4] C D E]. split; cbn; rewrite ?Hw1, ?Hf1; done. }
  assert (Env3 : wal_env (wal (r_wi r)) (wal (r_wi r3))) by (split; cbn; by rewrite Hw1).
  assert (Hc3 : cleared (hdr (wal (r_wi r3)))).
  { split; [|done]. split; [done|]. apply Forall_replicate. lia. }
  eapply (wp_seq _ _ _ (file_post r3)).
  { case_if.
    - wp_go. cbn. split; [apply S3|]. split; [done|]. split; [done|]. split; [apply S3|]. done.
    - change (r_file _) with (r_file r3). rewrite (st_file _ S3). case_if; [by apply recover_file_ok|].
      wp_go. split; [apply S3|]. split; [done|]. split; [done|]. split; [apply S3|].
      cbn [fst snd]. intros _. split; [apply S3|]. split; [apply S3|]. split; [apply Hc3|].
      apply restored_none; try done; [apply S3|]. intros (? & _). lia. }
  intros [g cks] r4 HF. eapply wp_seq; [by apply finish_ok|].
  intros rc r5 (F5 & H5 & Env5 & W5 & R5). eapply wp_seq.
  { apply (unlock_ok _ _ (r_held r)). rewrite H5. cbn [r_held r3 count_io set_wi]. rewrite Hh1.
    unfold locked. by rewrite (proj1 Env5), (proj1 Env3). }
  intros _ r6 [[Hw6 Hf6] Hh6]. wp_go. cbn. rewrite Hw6, Hf6. done.
Qed.
End Main.
