(* ===== verification/WalProps.v ===== *)
(** * The write-ahead log: properties

    The checksum, the frames, the index, the snapshot of a reader, the iterator
    of a checkpoint and recovery. *)
From Stdlib Require Import Sorted.
From stdpp Require Import relations.
From S2P Require Import Prelude Bits Bytes Varint Wal WalIndex WalIter WalRecover WalRecovery.

(** ** A reader and a writer on the same shared memory *)

(** A connection whose pages are all in shared memory. *)
Definition shared (p : Wal) : Prop :=
  exclusiveMode p <> WAL_HEAPMEMORY_MODE /\ forall h, apWiData p !! h <> Some Private.

Section Conn.
Context (mallocOk : nat -> bool) (shmRc : nat -> Z).

(** A step of the writer while a reader uses the frames up to [mx]: the state
    comes with the list of the pages of the frames that are indexed.  Appends
    and the removal of the frames after [mxFrame] happen above [mx]; the
    header of the writer changes freely. *)
Inductive writer_step (mx : Z) : list Z * wi -> list Z * wi -> Prop :=
  | writer_append log st n k st' :
      mx <= n <= blen log -> n = blen log \/ n = mxFrame (hdr (wal st)) ->
      n + 1 < max_frame -> 0 < k < 2 ^ 32 ->
      walIndexAppend mallocOk shmRc (n + 1) k st = (Ret tt, st') ->
      writer_step mx (log, st) (take (Z.to_nat n) log ++ [k], st')
  | writer_append_failed log st n k rc st' :
      mx <= n <= blen log -> n = blen log \/ n = mxFrame (hdr (wal st)) ->
      n + 1 < max_frame -> 0 < k < 2 ^ 32 ->
      walIndexAppend mallocOk shmRc (n + 1) k st = (Fail rc, st') ->
      writer_step mx (log, st) (log, st')
  | writer_cleanup log st ptr st' :
      mx <= mxFrame (hdr (wal st)) <= blen log -> 0 < mxFrame (hdr (wal st)) ->
      apWiData (wal st) !! walFramePage (mxFrame (hdr (wal st))) = Some ptr -> ptr <> Unmapped ->
      walCleanupHash mallocOk shmRc st = (Ret tt, st') ->
      writer_step mx (log, st) (take (Z.to_nat (mxFrame (hdr (wal st)))) log, st')
  | writer_header log st h :
      writer_step mx (log, st) (log, set_wal (set_hdr h (wal st)) st).

Lemma view_shared st h : wi_wf st -> shared (wal st) -> view st h = shm st !! h.
Proof.
  intros W [Hm Hp]. unfold view. destruct (apWiData (wal st) !! h) as [ptr|] eqn:E; cbn [default].
  - destruct (wf_ptr _ W _ _ E) as [->|[[-> _]| ->]]; [|done|by destruct (Hp h)].
    by destruct (Z.eqb_spec (exclusiveMode (wal st)) WAL_HEAPMEMORY_MODE).
  - by destruct (Z.eqb_spec (exclusiveMode (wal st)) WAL_HEAPMEMORY_MODE).
Qed.

(** Connections that share the memory share the index. *)
Lemma index_conn log st p :
  index_ok log st -> shared (wal st) -> shared p -> wi_wf (set_wal p st) ->
  index_ok log (set_wal p st).
Proof.
  intros [A B C D] S1 S2 W. split; [done|done|done|]. intros h Hh.
  rewrite view_shared by done. cbn [shm set_wal]. rewrite <- (view_shared st) by done. by apply D.
Qed.

(** What the steps of the writer preserve. *)
Record writer_inv (mx : Z) (log0 : list Z) (n0 : nat) (x : list Z * wi) : Prop := {
  wv_index : index_ok (fst x) (snd x);
  wv_shared : shared (wal (snd x));
  wv_len : mx <= blen (fst x);
  wv_same i : 0 <= i < mx -> bat (fst x) i = bat log0 i;
  wv_shm : (n0 <= length (shm (snd x)))%nat;
}.

Lemma shm_mono st st' :
  wi_wf st -> wi_wf st' -> shared (wal st) -> shared (wal st') ->
  (forall h, is_Some (view st h) -> is_Some (view st' h)) -> (length (shm st) <= length (shm st'))%nat.
Proof.
  intros W W' S S' H. destruct (Nat.le_gt_cases (length (shm st)) (length (shm st'))) as [|Hc]; [done|].
  specialize (H (length (shm st'))). rewrite !view_shared in H by done.
  rewrite !lookup_lt_is_Some in H. lia.
Qed.

Lemma shared_ext p q :
  shared p -> wal_same p q -> (forall h, apWiData q !! h = Some Private -> apWiData p !! h = Some Private) ->
  shared q.
Proof.
  intros [Hm Hp] Hs Hn. split; [by rewrite Hs|]. intros h Hh. by destruct (Hp h), (Hn h Hh).
Qed.

Lemma writer_step_inv mx log0 n0 x y :
  0 <= mx -> writer_inv mx log0 n0 x -> writer_step mx x y -> writer_inv mx log0 n0 y.
Proof.
  intros Hmx [I S L Q H] Hs. destruct Hs as [log st n k st' Hn Hc Hmax Hk E|log st n k rc st' Hn Hc Hmax Hk E
    |log st ptr st' Hm Hpos Ha Hne E|log st h]; cbn [fst snd] in *.
  - pose proof (walIndexAppend_ok mallocOk shmRc log n k st I ltac:(lia) Hmax Hk Hc) as HA.
    unfold wp in HA. rewrite E in HA. destruct HA as (I' & X & N & V & _).
    assert (S' : shared (wal st')) by (by eapply shared_ext).
    split; cbn [fst snd]; [done|done|rewrite blen_snoc, blen_take; lia| |].
    + intros i Hi. rewrite bat_app_l, bat_take by (rewrite ?blen_take; lia). by apply Q.
    + etransitivity; [exact H|]. by apply shm_mono; [apply I|apply I'|..].
  - pose proof (walIndexAppend_ok mallocOk shmRc log n k st I ltac:(lia) Hmax Hk Hc) as HA.
    unfold wp in HA. rewrite E in HA. destruct HA as (I' & X & _ & V & _ & N).
    assert (S' : shared (wal st')) by (by eapply shared_ext).
    split; cbn [fst snd]; try done. etransitivity; [exact H|].
    apply shm_mono; [apply I|apply I'|done|done|]. intros h [g Hg]. exists g. by apply V.
  - pose proof (walCleanupHash_ok mallocOk shmRc log st ptr) as HA. cbv zeta in HA.
    specialize (HA I ltac:(lia) Ha Hne). unfold wp in HA. rewrite E in HA. destruct HA as (I' & Hw & Hl & _).
    cbn [fst snd] in *.
    split; cbn [fst snd]; rewrite ?Hw, ?Hl; [done|done|rewrite blen_take; lia| |done].
    intros i Hi. rewrite bat_take by lia. by apply Q.
  - split; cbn [fst snd]; try done. by apply index_set_wal.
Qed.

Lemma writer_steps_inv mx log0 n0 x y :
  0 <= mx -> writer_inv mx log0 n0 x -> rtc (writer_step mx) x y -> writer_inv mx log0 n0 y.
Proof. intros Hmx H. induction 1; [done|]. eauto using writer_step_inv. Qed.

(** A lookup is determined by the frames of the snapshot. *)
Lemma is_last_det log log' lo mx k r r' :
  0 <= mx -> mx <= blen log -> mx <= blen log' -> (forall i, 0 <= i < mx -> bat log' i = bat log i) ->
  0 < lo -> is_last log 0 lo mx k r -> is_last log' 0 lo mx k r' -> r = r'.
Proof.
  intros H0 Hl Hl' Hs Hlo [[-> Hn]|(j & Hj & -> & Hb & Hk & Hlast)] [[-> Hn']|(j' & Hj' & -> & Hb' & Hk' & Hlast')].
  - done.
  - destruct (Hn j'); [lia|lia|]. rewrite <- Hs; [done|lia].
  - destruct (Hn' j); [lia|lia|]. rewrite Hs; [done|lia].
  - destruct (Z.lt_trichotomy j j') as [Hlt|[->|Hlt]]; [|done|].
    + destruct (Hlast j'); [lia|lia|]. rewrite <- Hs; [done|lia].
    + destruct (Hlast' j); [lia|lia|]. rewrite Hs; [done|lia].
Qed.
End Conn.

(** ** Sample states *)

Definition all_mem : nat -> bool := fun _ => true.
Definition all_ok : nat -> Z := fun _ => SQLITE_OK.
(** Every lock is granted. *)
Definition all_free : nat -> Z -> Z -> Z := fun _ _ _ => SQLITE_OK.
Definition demo_hdr (mx : Z) : WalIndexHdr := mkHdr 3007000 0 1 true 512 mx 1 (0, 0) (zeros 8) (0, 0).
Definition demo_log (mx : Z) : Wal :=
  mkWal [] 512 1 0 true 0 0 false (demo_hdr mx) 1 0 0.
(** An empty index, and the index of frames of pages 7, 9 and 7. *)
Definition demo_wi0 : wi := mkWi (demo_log 0) [] zero_page 0.
Definition demo_wi1 : wi := snd (walIndexAppend all_mem all_ok 1 7 demo_wi0).
Definition demo_wi2 : wi := snd (walIndexAppend all_mem all_ok 2 9 demo_wi1).
Definition demo_wi3 : wi := snd (walIndexAppend all_mem all_ok 3 7 demo_wi2).
Definition demo_wi4 : wi := snd (walIndexAppend all_mem all_ok 4 7 demo_wi3).
(** A reader of the first two frames. *)
Abbreviation demo_reader := (demo_log 2).

Lemma demo_wf0 : wi_wf demo_wi0.
Proof. by split; cbn; [..|split]. Qed.
Lemma demo_append log n k st :
  index_ok log st -> n = blen log -> n < 100 -> 0 < k < 100 ->
  fst (walIndexAppend all_mem all_ok (n + 1) k st) = Ret tt ->
  index_ok (log ++ [k]) (snd (walIndexAppend all_mem all_ok (n + 1) k st)).
Proof.
  intros I -> Hn Hk E. pose proof (blen_nonneg log).
  pose proof (walIndexAppend_ok all_mem all_ok log (blen log) k st I ltac:(lia)
    ltac:(unfold max_frame; lia) ltac:(lia) ltac:(by left)) as H1.
  unfold wp in H1. rewrite E in H1. destruct H1 as [I1 _].
  unfold blen in I1. by rewrite Nat2Z.id, firstn_all in I1.
Qed.
Lemma demo_index1 : index_ok [7] demo_wi1.
Proof. apply (demo_append [] 0); [apply index_nil, demo_wf0|done..|by vm_compute]. Qed.
Lemma demo_index2 : index_ok [7; 9] demo_wi2.
Proof. apply (demo_append [7] 1); [apply demo_index1|done..|by vm_compute]. Qed.
Lemma demo_index3 : index_ok [7; 9; 7] demo_wi3.
Proof. apply (demo_append [7; 9] 2); [apply demo_index2|done..|by vm_compute]. Qed.

Lemma demo_step mx :
  mx <= 3 -> writer_step all_mem all_ok mx ([7; 9; 7], demo_wi3) ([7; 9; 7; 7], demo_wi4).
Proof.
  intros Hmx. apply (writer_append all_mem all_ok mx [7; 9; 7] demo_wi3 3 7 demo_wi4); try done.
  by left.
Qed.
Lemma demo_shared : shared (wal demo_wi3).
Proof.
  assert (apWiData (wal demo_wi3) = [Shared 0] /\ exclusiveMode (wal demo_wi3) = 0) as [E1 E2]
    by (by vm_compute).
  split; [by rewrite E2|]. intros h. rewrite E1. by destruct h.
Qed.
Lemma log_shared mx : shared (demo_log mx).
Proof. by split. Qed.
Lemma unmapped_wf st p : wi_wf st -> apWiData p = [] -> wi_wf (set_wal p st).
Proof.
  intros [_ _ C D] E. split; [| |exact C|exact D]; cbn [wal set_wal]; rewrite E; intros h ptr H;
    by rewrite lookup_nil in H.
Qed.
Lemma demo_log_wf mx : wi_wf (set_wal (demo_log mx) demo_wi3).
Proof. apply unmapped_wf; [exact (ix_wf _ _ demo_index3)|reflexivity]. Qed.
(** The index seen by a connection with another header. *)
Lemma demo_conn mx : index_ok [7; 9; 7] (set_wal (demo_log mx) demo_wi3).
Proof. apply index_conn; [apply demo_index3|apply demo_shared|apply log_shared|apply demo_log_wf]. Qed.

(** A log file with one commit frame, of page 5, and a frame that is not valid. *)
Definition be4 (x : Z) : bytes := [u8 (Z.shiftr x 24); u8 (Z.shiftr x 16); u8 (Z.shiftr x 8); u8 x].
Definition demo_head : bytes :=
  be4 0x377f0683 ++ be4 3007000 ++ be4 512 ++ be4 0 ++ [1; 2; 3; 4; 5; 6; 7; 8].
Definition demo_cks : Z * Z := cksum true demo_head (0, 0).
Definition demo_writer : Wal :=
  set_hdr (mkHdr 0 0 0 true 512 0 0 demo_cks [1; 2; 3; 4; 5; 6; 7; 8] (0, 0)) (demo_log 0).
Definition demo_file : bytes :=
  demo_head ++ be4 (fst demo_cks) ++ be4 (snd demo_cks)
  ++ match walEncodeFrame true demo_writer 5 1 (zeros 512) (zeros 24) with Some (_, fr) => fr | None => [] end
  ++ zeros 512 ++ zeros 536.
Definition demo_start : rs :=
  mkRs (mkWi (mkWal [Shared 0] 0 1 0 true 0 0 false zero_hdr 1 0 0) [zero_page] zero_page 0) demo_file [] 0.

Lemma demo_start_ok : start demo_file demo_start.
Proof.
  assert (Hp : forall h ptr, apWiData (wal (r_wi demo_start)) !! h = Some ptr -> ptr = Shared 0 /\ h = 0%nat).
  { intros [|h] ptr H; [by injection H|done]. }
  split; [done| |done| |done].
  - split.
    + intros h ptr [-> ->]%Hp. right. left. split; [done|]. cbn. lia.
    + by intros h h' [? _]%Hp.
    + constructor; [|done]. apply zero_page_sized.
    + apply zero_page_sized.
  - by intros h [? _]%Hp.
Qed.

Lemma demo_commit : fst (fst (log_commit demo_file)) = 1.
Proof. by vm_compute. Qed.
Lemma demo_frames : map fr_page (log_frames demo_file) = [5].
Proof. by vm_compute. Qed.

(** ** Checksums and frames *)

(** C38: the checksum of a buffer of whole pairs of words is the reference
    checksum of its bytes in the byte order of the log, whatever the byte
    order of the machine and whichever of the two loops runs, and it can be
    computed in two parts. *)
Theorem walChecksumBytes_correct BE big d m n aIn :
  bytes_ok d -> 0 < m -> 0 < n -> m + n = blen d -> m mod 8 = 0 -> n mod 8 = 0 ->
  walChecksumBytes BE (eqb big BE) d (blen d) aIn = Some (cksum big d (default (0, 0) aIn)) /\
  exists s, walChecksumBytes BE (eqb big BE) d m aIn = Some s /\
    walChecksumBytes BE (eqb big BE) (drop (Z.to_nat m) d) n (Some s)
    = walChecksumBytes BE (eqb big BE) d (blen d) aIn.
Proof.
  intros Hd Hm Hn Hl Hm8 Hn8.
  assert (Hdrop : blen (drop (Z.to_nat m) d) = n) by (unfold blen in *; rewrite length_drop; lia).
  rewrite !walChecksum_ok by (try apply Forall_drop; try done; lia || div_lia).
  rewrite seg_all. split; [done|]. eexists. split; [reflexivity|].
  rewrite walChecksum_ok by (try apply Forall_drop; done || lia).
  replace (seg (drop (Z.to_nat m) d) 0 n) with (drop (Z.to_nat m) d) by (rewrite <- Hdrop; symmetry; apply seg_all).
  f_equal. cbn [default from_option id]. rewrite <- (cksum_app big (Z.to_nat (m / 8))).
  - unfold seg. change (drop (Z.to_nat 0) d) with d. by rewrite take_drop.
  - rewrite seg_len by lia. div_lia.
Qed.

Lemma walChecksumBytes_correct_witness :
  walChecksumBytes true false (zeros 64 ++ [1; 2; 3; 4; 5; 6; 7; 8]) 72 None
  = Some (cksum false (zeros 64 ++ [1; 2; 3; 4; 5; 6; 7; 8]) (0, 0)).
Proof.
  apply (walChecksumBytes_correct true false (zeros 64 ++ [1; 2; 3; 4; 5; 6; 7; 8]) 64 8 None); try done.
  repeat constructor; lia.
Defined.

(** C36: a frame that a writer encodes is decoded by a reader whose salt,
    running checksum and byte order are the same, on machines of any two byte
    orders, to the page and size it was given, and both go on with the same
    running checksum. *)
Theorem frame_roundtrip BE BE' (w rd : Wal) iPage nTruncate aData aFrame :
  frame_bufs w aData aFrame -> bytes_ok (aSalt (hdr w)) -> blen (aSalt (hdr w)) = 8 ->
  iReCksum w = 0 -> 0 < iPage < 2 ^ 32 -> 0 <= nTruncate < 2 ^ 32 ->
  0 <= fst (aFrameCksum (hdr w)) < 2 ^ 32 -> 0 <= snd (aFrameCksum (hdr w)) < 2 ^ 32 ->
  aSalt (hdr rd) = aSalt (hdr w) -> aFrameCksum (hdr rd) = aFrameCksum (hdr w) ->
  bigEndCksum (hdr rd) = bigEndCksum (hdr w) -> szPage rd = szPage w ->
  exists w' rd' aFrame', walEncodeFrame BE w iPage nTruncate aData aFrame = Some (w', aFrame') /\
    walDecodeFrame BE' rd aData aFrame' = Some (rd', Some (iPage, nTruncate)) /\
    aFrameCksum (hdr rd') = aFrameCksum (hdr w').
Proof.
  intros HB Hs1 Hs2 Hre Hp Ht Hc1 Hc2 Es Ec Eb Ez. pose proof HB as [B1 B2 B3 B4 B5 B6].
  destruct (walEncodeFrame_ok BE w iPage nTruncate aData aFrame)
    as (fr & c & E & F1 & F2 & F3 & F4 & F5 & F6 & F7); try done.
  destruct (walDecodeFrame_ok BE' rd aData fr) as (rd' & D & D1 & _); [split; rewrite ?Ez; done|].
  assert (V : frame_valid rd aData fr).
  { unfold frame_valid. rewrite Es, Ec, Eb, <- F6, F7, F5. split_and!; [done|lia|done]. }
  rewrite decide_True in D by done. rewrite F3, F4 in D.
  exists (set_cksum c w), rd', fr. split; [done|]. split; [done|]. by rewrite (D1 V).
Qed.

Lemma frame_roundtrip_witness :
  exists w' rd' aFrame', walEncodeFrame true (demo_log 0) 5 2 (zeros 512) (zeros 24) = Some (w', aFrame') /\
    walDecodeFrame false (demo_log 0) (zeros 512) aFrame' = Some (rd', Some (5, 2)) /\
    aFrameCksum (hdr rd') = aFrameCksum (hdr w').
Proof.
  apply (frame_roundtrip true false (demo_log 0) (demo_log 0) 5 2);
    [split; (done || (apply Forall_replicate; lia))|apply Forall_replicate; lia|done..].
Defined.

(** C37: a frame is accepted exactly when it carries the salt of the log, a page
    number, and the checksum that continues the one of the frame before it;
    nothing but the running checksum of the connection changes. *)
Theorem walDecodeFrame_correct BE pWal aData aFrame :
  frame_bufs pWal aData aFrame ->
  exists c v, walDecodeFrame BE pWal aData aFrame = Some (set_cksum c pWal, v) /\
    (v <> None <-> frame_valid pWal aData aFrame) /\
    (frame_valid pWal aData aFrame -> v = Some (at4 aFrame 0, at4 aFrame 4) /\
       c = (at4 aFrame 16, at4 aFrame 20)).
Proof.
  intros HB. destruct (walDecodeFrame_ok BE pWal aData aFrame HB) as (p & E & H1 & c & ->).
  destruct (decide (frame_valid pWal aData aFrame)) as [V|V].
  - exists (at4 aFrame 16, at4 aFrame 20), (Some (at4 aFrame 0, at4 aFrame 4)).
    rewrite E, (H1 V). done.
  - exists c, None. rewrite E. done.
Qed.

(** A frame of zeros has no page number. *)
Lemma walDecodeFrame_correct_witness :
  exists c v, walDecodeFrame true (demo_log 0) (zeros 512) (zeros 24) = Some (set_cksum c (demo_log 0), v)
    /\ v = None.
Proof.
  destruct (walDecodeFrame_correct true (demo_log 0) (zeros 512) (zeros 24)) as (c & v & E & H & _).
  - split; (done || (apply Forall_replicate; lia)).
  - exists c, v. split; [exact E|]. destruct v; [|done]. by destruct (proj1 H) as (_ & Hz & _).
Defined.

(** ** The index *)

(** C18: appending a frame to the index gives the index of the frames kept and
    the new one, also when remnants of an abandoned transaction must be
    cleared first; the one error is that a page of the index cannot be mapped,
    and then the index is as it was. *)
Theorem walIndexAppend_correct mallocOk shmRc log n k st :
  index_ok log st -> 0 <= n <= blen log -> n + 1 < max_frame -> 0 < k < 2 ^ 32 ->
  n = blen log \/ n = mxFrame (hdr (wal st)) ->
  exists o st', walIndexAppend mallocOk shmRc (n + 1) k st = (o, st') /\ o <> Undef /\
    index_ok (match o with Ret _ => take (Z.to_nat n) log ++ [k] | _ => log end) st'.
Proof.
  intros I Hn Hmax Hk Hc. pose proof (walIndexAppend_ok mallocOk shmRc log n k st I Hn Hmax Hk Hc) as H.
  unfold wp in H. destruct (walIndexAppend mallocOk shmRc (n + 1) k st) as [o st'].
  exists o, st'. split; [done|]. destruct o; cbn in H; [|split; [done|apply H]|done].
  split; [done|]. apply H.
Qed.

(** The writer of [demo_wi3] goes back to frame 1. *)
Lemma walIndexAppend_correct_witness :
  exists o st', walIndexAppend all_mem all_ok 2 5 (set_wal (demo_log 1) demo_wi3) = (o, st') /\
    o <> Undef /\ index_ok (match o with Ret _ => [7; 5] | _ => [7; 9; 7] end) st'.
Proof.
  apply (walIndexAppend_correct all_mem all_ok [7; 9; 7] 1 5 (set_wal (demo_log 1) demo_wi3));
    [apply demo_conn|done|done|done|by right].
Defined.

(** C19: a lookup by a reader gives the last frame of its snapshot that holds
    the page, 0 when there is none, whatever frames follow the snapshot; it
    leaves the index as it was. *)
Theorem walFindFrame_correct mallocOk shmRc log k st :
  index_ok log st -> 0 <= mxFrame (hdr (wal st)) <= blen log ->
  1 <= minFrame (wal st) < max_frame -> readLock (wal st) <> 0 ->
  exists o st', walFindFrame mallocOk shmRc k st = (o, st') /\ o <> Undef /\ index_ok log st' /\
    forall r, o = Ret r -> is_last log 0 (minFrame (wal st)) (mxFrame (hdr (wal st))) k r.
Proof.
  intros I [Hmx0 Hmx] Hmin Hr. pose proof (walFindFrame_ok mallocOk shmRc log k st I Hmx Hmx0 Hmin) as H.
  unfold wp in H. destruct (walFindFrame mallocOk shmRc k st) as [o st']. exists o, st'.
  split; [done|]. destruct o as [r| |]; cbn in H; [|split; [done|split; [apply H|done]]|done].
  destruct H as (I' & _ & H). split; [done|]. split; [done|]. intros r' [= <-].
  destruct (Z.eqb_spec (readLock (wal st)) 0); [done|]. exact H.
Qed.

Lemma walFindFrame_correct_witness :
  exists o st', walFindFrame all_mem all_ok 7 (set_wal demo_reader demo_wi3) = (o, st') /\
    o <> Undef /\ index_ok [7; 9; 7] st' /\ forall r, o = Ret r -> is_last [7; 9; 7] 0 1 2 7 r.
Proof.
  apply (walFindFrame_correct all_mem all_ok [7; 9; 7] 7 (set_wal demo_reader demo_wi3));
    [apply demo_conn|done..].
Defined.

(** C13: while a reader uses its snapshot, a writer may append frames, fail to,
    drop the frames of a transaction and change its own header in any order:
    every lookup of the reader gives the frame it gave before. *)
Theorem reader_snapshot_stable mallocOk shmRc pR log stW log' stW' k :
  index_ok log stW -> shared (wal stW) -> shared pR -> wi_wf (set_wal pR stW) ->
  0 <= mxFrame (hdr pR) <= blen log -> 1 <= minFrame pR < max_frame -> readLock pR <> 0 ->
  rtc (writer_step mallocOk shmRc (mxFrame (hdr pR))) (log, stW) (log', stW') ->
  fst (walFindFrame mallocOk shmRc k (set_wal pR stW')) <> Undef /\
  forall r r', fst (walFindFrame mallocOk shmRc k (set_wal pR stW)) = Ret r ->
    fst (walFindFrame mallocOk shmRc k (set_wal pR stW')) = Ret r' -> r' = r.
Proof.
  intros I SW SR WR [Hmx0 Hmx] Hmin Hrl Hrtc.
  destruct (writer_steps_inv mallocOk shmRc (mxFrame (hdr pR)) log (length (shm stW)) (log, stW) _ Hmx0
    ltac:(by split) Hrtc) as [I' S' L' Q' H']. cbn [fst snd] in *.
  assert (WR' : wi_wf (set_wal pR stW')).
  { destruct WR as [A B _ _], (ix_wf _ _ I') as [_ _ C D]. split; [|exact B|exact C|exact D].
    intros h ptr Hp. destruct (A h ptr Hp) as [|[[-> Hl]|]]; auto. right. left.
    split; [done|]. cbn in *. lia. }
  assert (IR := index_conn _ _ pR I SW SR WR). assert (IR' := index_conn _ _ pR I' S' SR WR').
  pose proof (walFindFrame_ok mallocOk shmRc log k _ IR Hmx Hmx0 Hmin) as H1.
  pose proof (walFindFrame_ok mallocOk shmRc log' k _ IR' L' Hmx0 Hmin) as H2.
  unfold wp in H1, H2. cbn [wal set_wal] in H1, H2.
  destruct (Z.eqb_spec (readLock pR) 0); [done|]. cbn [andb] in H1, H2.
  split; [by eapply okp_defined|]. intros r r' E E'. rewrite E in H1. rewrite E' in H2.
  symmetry. eapply (is_last_det log log' (minFrame pR)); [exact Hmx0|done|done|done|lia|apply H1|apply H2].
Qed.

(** The writer appends frame 4 for the page the reader looks up. *)
Lemma reader_snapshot_stable_witness :
  exists r, fst (walFindFrame all_mem all_ok 7 (set_wal demo_reader demo_wi3)) = Ret r /\
    forall r', fst (walFindFrame all_mem all_ok 7 (set_wal demo_reader demo_wi4)) = Ret r' -> r' = r.
Proof.
  pose proof (rtc_once _ _ (demo_step (mxFrame (hdr demo_reader)) ltac:(discriminate))) as Hstep.
  destruct (reader_snapshot_stable all_mem all_ok demo_reader [7; 9; 7] demo_wi3 [7; 9; 7; 7] demo_wi4 7
    demo_index3 demo_shared (log_shared 2) (demo_log_wf 2)) as [_ H]; [done|done|done|exact Hstep|].
  exists 1. assert (E : fst (walFindFrame all_mem all_ok 7 (set_wal demo_reader demo_wi3)) = Ret 1)
    by (by vm_compute).
  split; [exact E|]. intros r' E'. exact (H 1 r' E E').
Defined.

(** ** The iterator of a checkpoint *)

(** C21: sorting the frames of a table terminates within the array it is given
    and keeps, for each page, the last of its frames, in ascending order of the
    pages. *)
Theorem walMergesort_correct c cap N :
  0 < N <= 4096 -> N <= blen c -> N <= cap ->
  exists a n, walMergesort c cap (seqZ 0 N) N = Some (a, n) /\ 0 < n <= N /\
    StronglySorted (fun i j => bat c i < bat c j) (seg a 0 n) /\
    forall i, i ∈ seg a 0 n <-> 0 <= i < N /\ forall j, i < j < N -> bat c j <> bat c i.
Proof.
  intros HN Hc Hcap. destruct (walMergesort_ok c cap N HN Hc Hcap) as (a & n & E & R & Hl).
  pose proof R as [B A Hin Hall Hlen].
  assert (Hfwd : forall i, i ∈ seg a 0 n -> 0 <= i < N /\ forall j, i < j < N -> bat c j <> bat c i) by auto.
  exists a, n. split; [done|]. split; [|split; [exact A|]].
  - split; [|lia]. destruct (Hall 0) as (i & Hi & _); [lia|].
    destruct (decide (n = 0)) as [->|]; [|lia]. by apply list.elem_of_nil in Hi.
  - intros i. split; [auto|]. intros [Hi Hlast].
    destruct (Hall i Hi) as (i' & Hi' & Hk). destruct (Hfwd i' Hi') as [Hr Hl'].
    destruct (Z.lt_trichotomy i i') as [Hlt|[->|Hlt]]; [|done|].
    + destruct (Hlast i'); [lia|]. by rewrite Hk.
    + destruct (Hl' i); [lia|]. by rewrite Hk.
Qed.

Lemma walMergesort_correct_witness :
  exists a n, walMergesort [7; 9; 7; 2] 4 [0; 1; 2; 3] 4 = Some (a, n) /\ n = 3 /\ seg a 0 n = [3; 2; 1].
Proof.
  destruct (walMergesort_correct [7; 9; 7; 2] 4 4) as (a & n & E & _); [done..|].
  exists a, n. split; [exact E|]. vm_compute in E. injection E as <- <-. done.
Defined.

(** C20: the iterator a checkpoint makes over the frames after [nBackfill]
    terminates, visits the pages in strictly ascending order, each once, and
    gives for each its last frame: exactly the pages of the frames from the
    table of the first of them on. *)
Theorem walIterator_correct mallocOk shmRc log nBackfill st :
  let mx := mxFrame (hdr (wal st)) in
  let lo := tzero (walFramePage (nBackfill + 1)) in
  index_ok log st -> 0 <= nBackfill < mx -> mx <= blen log ->
  (forall j, 0 <= j < mx -> bat log j < NO_PAGE) ->
  exists o st', walIteratorInit mallocOk shmRc nBackfill st = (o, st') /\ o <> Undef /\ index_ok log st' /\
    forall p, o = Ret p -> exists l, iter_all (S (Z.to_nat mx)) st' p = Some l /\
      StronglySorted (fun x y => fst x < fst y) l /\
      (forall pg f, (pg, f) ∈ l <-> last_of log lo mx pg f).
Proof.
  intros mx lo I Hn Hmx Hpg. pose proof (ix_len _ _ I) as Hlen.
  assert (Hpos : forall j, 0 <= j < mx -> 0 < bat log j < NO_PAGE).
  { intros j Hj. split; [|by apply Hpg]. pose proof (ix_keys _ _ I) as Hk.
    rewrite list.Forall_forall in Hk.
    destruct (lookup_lt_is_Some_2 log (Z.to_nat j)) as [x Hx]; [unfold blen in *; lia|].
    unfold bat. destruct (Z.leb_spec 0 j); [|lia]. rewrite Hx. cbn.
    apply Hk. by eapply list_elem_of_lookup_2. }
  pose proof (walIteratorInit_ok mallocOk shmRc log mx _ ltac:(lia) ltac:(lia) nBackfill st I eq_refl eq_refl Hn) as H.
  unfold wp in H. destruct (walIteratorInit mallocOk shmRc nBackfill st) as [o st'].
  exists o, st'. split; [done|]. destruct o as [p| |]; cbn in H; [|split; [done|split; [apply H|done]]|done].
  destruct H as (I' & _ & Hp0 & Hp). split; [done|]. split; [done|]. intros p' [= <-].
  destruct (iter_all_ok st' log mx _ (S (Z.to_nat mx)) p ltac:(lia) ltac:(lia) Hpos Hp) as (l & E & S1 & S2).
  - rewrite Hp0. done.
  - pose proof (later_le log (tzero (walFramePage (nBackfill + 1))) mx (iPrior p)).
    pose proof (tzero_nonneg (walFramePage (nBackfill + 1))). lia.
  - exists l. split; [done|]. split; [done|]. intros pg f. rewrite S2, Hp0. split; [by intros [_ ?]|].
    intros L. split; [|done]. destruct L as (Hf & <- & _). unfold page.
    pose proof (tzero_nonneg (walFramePage (nBackfill + 1))). apply Hpos. unfold lo in Hf. lia.
Qed.

Lemma walIterator_correct_witness :
  exists o st', walIteratorInit all_mem all_ok 0 (set_wal (demo_log 3) demo_wi3) = (o, st') /\ o <> Undef /\
    forall p, o = Ret p -> exists l, iter_all 4 st' p = Some l /\
      forall pg f, (pg, f) ∈ l <-> last_of [7; 9; 7] 0 3 pg f.
Proof.
  destruct (walIterator_correct all_mem all_ok [7; 9; 7] 0 (set_wal (demo_log 3) demo_wi3) (demo_conn 3)
    ltac:(split; [lia|reflexivity]) ltac:(discriminate)) as (o & st' & E & Ho & _ & H).
  - intros j Hj. unfold bat. destruct (0 <=? j); [|done].
    destruct (Z.to_nat j) as [|[|[|i]]]; done.
  - exists o, st'. split; [exact E|]. split; [exact Ho|]. intros p Hp.
    destruct (H p Hp) as (l & El & _ & Hl). exists l. split; [exact El|exact Hl].
Defined.

(** ** Recovery *)

(** C14: recovery returns in every case, with the locks as they were; when it
    reports success, the connection is at the last commit of the longest run
    of valid frames of the file, with the checksum of that commit, the index
    holds exactly the pages of that run, both copies of the header in shared
    memory are the header of the connection, and the checkpoint counters are
    reset. *)
Theorem walIndexRecover_correct BE mallocOk shmRc ioRc lockRc junk f r :
  bytes_ok f -> start f r -> page_sized junk -> blen f < 2 ^ 40 ->
  exists rc r', walIndexRecover BE mallocOk shmRc ioRc lockRc junk r = (Ret rc, r') /\
    r_file r' = f /\ r_held r' = r_held r /\ wi_wf (r_wi r') /\
    (rc = SQLITE_OK ->
       (mxFrame (hdr (wal (r_wi r'))), hdr_nPage (hdr (wal (r_wi r'))), aFrameCksum (hdr (wal (r_wi r'))))
         = log_commit f /\
       index_ok (map fr_page (log_frames f)) (r_wi r') /\
       published BE (r_wi r') /\ ckpt_reset (r_wi r')).
Proof.
  intros Hf S0 Hj Hlen.
  destruct (returns_run _ _ _ (walIndexRecover_ok BE mallocOk shmRc ioRc lockRc junk f Hf r S0 Hj Hlen))
    as (rc & r' & E & F & H & W & R).
  exists rc, r'. split; [done|]. split; [done|]. split; [done|]. split; [done|].
  intros Hrc. destruct (R Hrc) as ((R1 & R2 & R3 & _ & R4) & _ & _ & R5 & R6).
  split; [|done]. rewrite R1, R2, R3. by destruct (log_commit f) as [[??]?].
Qed.

Lemma walIndexRecover_correct_witness :
  exists r', walIndexRecover true all_mem all_ok all_ok all_free zero_page demo_start = (Ret SQLITE_OK, r') /\
    r_held r' = [] /\ mxFrame (hdr (wal (r_wi r'))) = 1 /\ index_ok [5] (r_wi r').
Proof.
  assert (Hb : bytes_ok demo_file).
  { apply List.Forall_forall. intros x Hx.
    assert (Hall : forallb (fun b => (0 <=? b) && (b <? 256)) demo_file = true) by (by vm_compute).
    rewrite forallb_forall in Hall. apply Hall in Hx. zb. lia. }
  destruct (walIndexRecover_correct true all_mem all_ok all_ok all_free zero_page demo_file demo_start
    Hb demo_start_ok zero_page_sized) as (rc & r' & E & _ & H & _ & R); [by vm_compute|].
  assert (rc = SQLITE_OK) as ->.
  { assert (Ec : fst (walIndexRecover true all_mem all_ok all_ok all_free zero_page demo_start) = Ret SQLITE_OK)
      by (by vm_compute). rewrite E in Ec. by injection Ec. }
  exists r'. split; [exact E|]. split; [exact H|]. destruct (R eq_refl) as (Hc & I & _).
  rewrite demo_frames in I. split; [|exact I].
  pose proof demo_commit as Hl. rewrite <- Hc in Hl. exact Hl.
Defined.
