(* ===== verification/WalHdr.v ===== *)
(** * Reading the header of the wal-index ([walIndexTryHdr] of [src/src/wal.c])

    The header is kept twice in shared memory and read without a lock: the
    reader copies the first copy and then the second, the writer writes the
    second and then the first.  [walIndexTryHdr] is given as the code runs when
    nobody interferes; the words that the reader and the writer exchange through
    the memory are also given one by one, as a step relation in which the two
    interleave in any way. *)
From S2P Require Import Prelude Bits Bytes Varint Wal WalIndex WalRecover WalRecovery.
From stdpp Require Import gmap relations.
#[local] Open Scope Z_scope.

(** ** Definitions *)

Section Code.
Context (SQLITE_BIGENDIAN : bool).

(** The bytes of words in memory. *)
Definition words_bytes (ws : list Z) : bytes := flat_map (word_bytes SQLITE_BIGENDIAN) ws.

(** The fields packed in the fourth word: [isInit], [bigEndCksum], [szPage]. *)
Definition packed_fields (w : Z) : Z * Z * Z :=
  if SQLITE_BIGENDIAN then (Z.shiftr w 24, Z.land (Z.shiftr w 16) 0xff, Z.land w 0xffff)
  else (Z.land w 0xff, Z.land (Z.shiftr w 8) 0xff, Z.shiftr w 16).

(** The record twelve words hold; [None] when the word that is not used is
    not zero or [bigEndCksum] is neither 0 nor 1, which no header that the code
    writes has. *)
Definition hdr_of_words (ws : list Z) : option WalIndexHdr :=
  match ws with
  | [v; u; c; p; m; n; k0; k1; s0; s1; c0; c1] =>
      let '(ini, big, sz) := packed_fields p in
      if (u =? 0) && (big <=? 1)
      then Some (mkHdr v c ini (big =? 1) sz m n (k0, k1)
                   (word_bytes SQLITE_BIGENDIAN s0 ++ word_bytes SQLITE_BIGENDIAN s1) (c0, c1))
      else None
  | _ => None
  end.

(** [n] words at [off] of the page [apWiData[0]] points to. *)
Definition read_words (off n : Z) : M wi (list Z) :=
  let* st := gets id in
  let* ptr := lift (apWiData (wal st) !! 0%nat) in
  let* g := lift (deref st ptr) in
  lift (bsub (words g) off n).

Definition set_szPage (sz : Z) (p : Wal) : Wal := set_sizes sz (nCkpt p) p.

(** What is done with the two copies once they are read: the result and
    whether [*pChanged] is set. *)
Definition try_hdr (h1 h2 : list Z) : M wi (Z * bool) :=
  if negb (bool_decide (h1 = h2)) then ret (1, false)
  else
    let* p := lift (bget h1 3) in
    if (packed_fields p).1.1 =? 0 then ret (1, false)
    else
      let* c := lift (walChecksumBytes SQLITE_BIGENDIAN true (words_bytes h1) 40 None) in
      let* c0 := lift (bget h1 10) in
      let* c1 := lift (bget h1 11) in
      if negb (fst c =? c0) || negb (snd c =? c1) then ret (1, false)
      else
        let* h := gets (fun st => hdr (wal st)) in
        let* ws := lift (hdr_words SQLITE_BIGENDIAN h) in
        if negb (bool_decide (ws = h1)) then
          let* h := lift (hdr_of_words h1) in
          modify (fun st => set_wal (set_hdr h (wal st)) st) ;;*
          modify (fun st => set_wal (set_szPage (Z.land (hdr_szPage h) 0xfe00
                    + Z.shiftl (Z.land (hdr_szPage h) 0x0001) 16) (wal st)) st) ;;*
          ret (0, true)
        else ret (0, false).

Definition walIndexTryHdr : M wi (Z * bool) :=
  let* h1 := read_words 0 12 in
  let* h2 := read_words 12 12 in
  try_hdr h1 h2.
End Code.

(** *** Interleaving *)

(** The words of the first page, the words the writer has still to write, those
    the reader has still to read, and what it has read. *)
Record race : Type := mkRace {
  memory : list Z;
  to_write : list (Z * Z);
  to_read : list Z;
  got : gmap Z Z;
}.
Inductive race_step : race -> race -> Prop :=
  | race_write i x m w r g :
      race_step (mkRace m ((i, x) :: w) r g) (mkRace (<[Z.to_nat i := x]> m) w r g)
  | race_read i m w r g :
      race_step (mkRace m w (i :: r) g) (mkRace m w r (<[i := bat m i]> g)).

(** A copy is moved word by word in any order; the barrier keeps the order of
    the copies. *)
Definition words_at (off : Z) (ws : list Z) : list (Z * Z) := zip (seqZ off (blen ws)) ws.
Definition writer_order (ws : list Z) (w : list (Z * Z)) : Prop :=
  exists w1 w0, w = w1 ++ w0 /\ w1 ≡ₚ words_at 12 ws /\ w0 ≡ₚ words_at 0 ws.
Definition reader_order (r : list Z) : Prop :=
  exists r0 r1, r = r0 ++ r1 /\ r0 ≡ₚ seqZ 0 12 /\ r1 ≡ₚ seqZ 12 12.
Definition copy_read (off : Z) (g : gmap Z Z) : list Z := map (fun j => g !!! j) (seqZ off 12).

(** ** Headers and words *)

Section Facts.
Context (SQLITE_BIGENDIAN : bool).

(** The fields are those of their types. *)
Definition hdr_ok (h : WalIndexHdr) : Prop :=
  salted h /\ 0 <= isInit h < 256 /\ 0 <= hdr_szPage h < 65536.

Lemma word_bytes_word x0 x1 x2 x3 :
  0 <= x0 < 256 -> 0 <= x1 < 256 -> 0 <= x2 < 256 -> 0 <= x3 < 256 ->
  word_bytes SQLITE_BIGENDIAN (if SQLITE_BIGENDIAN
        then x0 * 2 ^ 24 + x1 * 2 ^ 16 + x2 * 2 ^ 8 + x3
        else x3 * 2 ^ 24 + x2 * 2 ^ 16 + x1 * 2 ^ 8 + x0) = [x0; x1; x2; x3].
Proof.
  intros. unfold word_bytes, u8. rewrite !Z.shiftr_div_pow2 by lia.
  destruct SQLITE_BIGENDIAN; cbn [rev app]; repeat (f_equal; [div_lia|]); f_equal; div_lia.
Qed.

Lemma salt_words h :
  salted h -> exists s0 s1,
    load32 SQLITE_BIGENDIAN (aSalt h) 0 = Some s0 /\ load32 SQLITE_BIGENDIAN (aSalt h) 4 = Some s1 /\
    word_bytes SQLITE_BIGENDIAN s0 ++ word_bytes SQLITE_BIGENDIAN s1 = aSalt h.
Proof.
  intros [Hl Hb]. unfold load32. rewrite !bget_in by lia. cbn [mbind option_bind].
  eexists _, _. split; [reflexivity|]. split; [reflexivity|].
  rewrite !word_bytes_word by (by apply bat_range). rewrite <- (seg_all (aSalt h)) at 9.
  rewrite Hl, seg8 by lia. done.
Qed.

Lemma packed_fields_ok h :
  hdr_ok h -> packed_fields SQLITE_BIGENDIAN (packed_word SQLITE_BIGENDIAN h)
    = (isInit h, if bigEndCksum h then 1 else 0, hdr_szPage h).
Proof.
  intros (_ & Hi & Hs). unfold packed_fields, packed_word.
  change 255 with (Z.ones 8). change 65535 with (Z.ones 16).
  destruct SQLITE_BIGENDIAN; rewrite !Z.land_ones, !Z.shiftr_div_pow2, !Z.shiftl_mul_pow2 by lia;
    destruct (bigEndCksum h); f_equal; try f_equal; div_lia.
Qed.

Lemma hdr_roundtrip h ws :
  hdr_ok h -> hdr_words SQLITE_BIGENDIAN h = Some ws -> hdr_of_words SQLITE_BIGENDIAN ws = Some h.
Proof.
  intros Hok. pose proof Hok as (Hs & _). destruct (salt_words h Hs) as (s0 & s1 & E0 & E1 & E).
  unfold hdr_words. rewrite E0, E1. cbn [mbind option_bind]. intros [= <-]. unfold hdr_of_words.
  rewrite packed_fields_ok, E by done. destruct h as [v c ini big sz m n [k0 k1] salt [c0 c1]].
  cbn. by destruct big.
Qed.

(** The checksummed part of the words is that of the record. *)
Lemma words_bytes_hdr h ws :
  hdr_ok h -> hdr_words SQLITE_BIGENDIAN h = Some ws ->
  blen (words_bytes SQLITE_BIGENDIAN ws) = 48 /\ bytes_ok (words_bytes SQLITE_BIGENDIAN ws) /\
  seg (words_bytes SQLITE_BIGENDIAN ws) 0 40 = hdr_bytes SQLITE_BIGENDIAN h.
Proof.
  intros Hok Hws. pose proof Hok as (Hs & _). destruct (salt_words h Hs) as (s0 & s1 & E0 & E1 & E).
  destruct (hdr_bytes_ok SQLITE_BIGENDIAN h Hs) as [Hl Hb]. pose proof (word_bytes_ok SQLITE_BIGENDIAN) as W.
  unfold hdr_words in Hws. rewrite E0, E1 in Hws. cbn [mbind option_bind] in Hws. injection Hws as <-.
  assert (Eq : words_bytes SQLITE_BIGENDIAN
    [iVersion h; 0; iChange h; packed_word SQLITE_BIGENDIAN h; mxFrame h; hdr_nPage h;
        fst (aFrameCksum h); snd (aFrameCksum h); s0; s1; fst (aCksum h); snd (aCksum h)] =
    hdr_bytes SQLITE_BIGENDIAN h ++ word_bytes SQLITE_BIGENDIAN (aCksum h).1 ++ word_bytes SQLITE_BIGENDIAN (aCksum h).2).
  { unfold words_bytes, hdr_bytes. cbn [flat_map]. rewrite <- E, app_nil_r, <- !app_assoc. done. }
  rewrite Eq. split_and!.
  - unfold blen in *. rewrite !length_app, !(proj1 (W _)). lia.
  - unfold bytes_ok in *. apply Forall_app_2; [done|]. apply Forall_app_2; apply W.
  - unfold seg. change (Z.to_nat 0) with 0%nat. rewrite drop_0, take_app_le by (unfold blen in Hl; lia).
    apply take_ge. unfold blen in Hl. lia.
Qed.

Lemma sealed_ok h : hdr_ok h -> hdr_ok (sealed SQLITE_BIGENDIAN h).
Proof. intros (? & _ & ?). split; [done|]. cbn. lia. Qed.

Lemma bind_lift {S A B} (a : A) (f : A -> M S B) s : bind (lift (Some a)) f s = f a s.
Proof. done. Qed.
Lemma bind_gets {S A B} (g : S -> A) (f : A -> M S B) s : bind (gets g) f s = f (g s) s.
Proof. done. Qed.

(** What a connection becomes that takes over the header [h]. *)
Definition with_hdr (h : WalIndexHdr) (p : Wal) : Wal :=
  set_szPage (Z.land (hdr_szPage h) 0xfe00 + Z.shiftl (Z.land (hdr_szPage h) 0x0001) 16) (set_hdr h p).

(** Copies that differ are refused. *)
Lemma try_hdr_torn h1 h2 s :
  h1 <> h2 -> try_hdr SQLITE_BIGENDIAN h1 h2 s = (Ret (1, false), s).
Proof. intros H. unfold try_hdr. by rewrite bool_decide_false. Qed.

(** Two copies of a header that was sealed are accepted. *)
Lemma try_hdr_sealed h ws s :
  hdr_ok h -> hdr_words SQLITE_BIGENDIAN (sealed SQLITE_BIGENDIAN h) = Some ws -> salted (hdr (wal s)) ->
  try_hdr SQLITE_BIGENDIAN ws ws s =
  (if decide (hdr_words SQLITE_BIGENDIAN (hdr (wal s)) = Some ws)
   then (Ret (0, false), s)
   else (Ret (0, true), set_wal (with_hdr (sealed SQLITE_BIGENDIAN h) (wal s)) s)).
Proof.
  intros Hok Hws Hsalt. pose proof (sealed_ok h Hok) as Hs. unfold try_hdr.
  rewrite bool_decide_true by done. cbn [negb].
  destruct (words_bytes_hdr _ _ Hs Hws) as (Hl & Hb & Hseg).
  assert (Hg : bget ws 3 = Some (packed_word SQLITE_BIGENDIAN (sealed SQLITE_BIGENDIAN h)) /\
    bget ws 10 = Some (aCksum (sealed SQLITE_BIGENDIAN h)).1 /\
    bget ws 11 = Some (aCksum (sealed SQLITE_BIGENDIAN h)).2).
  { destruct (salt_words _ (proj1 Hs)) as (s0 & s1 & E0 & E1 & _). unfold hdr_words in Hws.
    rewrite E0, E1 in Hws. cbn [mbind option_bind] in Hws. injection Hws as <-. done. }
  destruct Hg as (-> & -> & ->). rewrite bind_lift, packed_fields_ok by done.
  cbn [fst snd]. change (isInit (sealed SQLITE_BIGENDIAN h)) with 1. cbn [Z.eqb].
  pose proof (walChecksum_ok SQLITE_BIGENDIAN SQLITE_BIGENDIAN _ 40 None Hb ltac:(lia) eq_refl) as Hck.
  rewrite eqb_reflx in Hck. rewrite Hck, Hseg. clear Hck. cbn [default from_option id].
  rewrite !bind_lift. change (cksum _ _ _) with (aCksum (sealed SQLITE_BIGENDIAN h)).
  rewrite !Z.eqb_refl. cbn [negb orb]. rewrite bind_gets.
  destruct (hdr_words_ok SQLITE_BIGENDIAN (hdr (wal s)) Hsalt) as (ws' & E' & _).
  rewrite E', bind_lift, (hdr_roundtrip _ _ Hs Hws). case_bool_decide as E; cbn [negb].
  - subst ws'. by rewrite decide_True.
  - rewrite decide_False by congruence. done.
Qed.
End Facts.

(** ** The race *)

Lemma bat_insert (m : list Z) i x j :
  0 <= i < blen m -> 0 <= j -> bat (<[Z.to_nat i := x]> m) j = if j =? i then x else bat m j.
Proof.
  intros Hi Hj. unfold bat. rewrite (proj2 (Z.leb_le 0 j)) by lia. destruct (Z.eqb_spec j i) as [->|Hne].
  - rewrite list_lookup_insert by (unfold blen in Hi; lia). rewrite decide_True; [done|]. unfold blen in Hi. lia.
  - by rewrite list_lookup_insert_ne by lia.
Qed.

Lemma words_at_elem off ws x :
  x ∈ words_at off ws <-> exists j, x = (off + j, bat ws j) /\ 0 <= j < blen ws.
Proof.
  unfold words_at. rewrite list_elem_of_lookup. split.
  - intros [n Hn]. destruct x as [i v]. apply lookup_zip_Some in Hn.
    destruct Hn as (Hn & Hw). apply lookup_seqZ in Hn as [Hn Hlt]. exists (Z.of_nat n). subst i. unfold bat. rewrite Nat2Z.id, Hw.
    destruct (Z.leb_spec 0 (Z.of_nat n)); [done|lia].
  - intros (j & -> & Hj). exists (Z.to_nat j). apply lookup_zip_Some. cbn. split.
    + apply lookup_seqZ. lia.
    + unfold bat, blen in *. rewrite (proj2 (Z.leb_le 0 j)) by lia.
      destruct (ws !! Z.to_nat j) eqn:E; [done|]. apply lookup_ge_None in E. lia.
Qed.

Section Race.
Context (old new : list Z).
Hypothesis (Hold : length old = 12%nat) (Hnew : length new = 12%nat).

(** Phase A: the first copy is old and what was read of it is. Phase B: the
    second copy is new, and either the first was read while it was old, or
    what has been read of the second is new. *)
Definition phase_a (s : race) : Prop :=
  (forall j, 0 <= j < 12 -> bat (memory s) j = bat old j) /\
  (forall j v, 0 <= j < 12 -> got s !! j = Some v -> v = bat old j) /\
  (exists w1 w0, to_write s = w1 ++ w0 /\ w1 <> [] /\ w0 ≡ₚ words_at 0 new /\
     (forall x, x ∈ w1 -> exists j, x = (12 + j, bat new j) /\ 0 <= j < 12) /\
     (forall j, 0 <= j < 12 -> bat (memory s) (12 + j) = bat new j \/ (12 + j, bat new j) ∈ w1)).
Definition phase_b (s : race) : Prop :=
  (forall j, 0 <= j < 12 -> bat (memory s) (12 + j) = bat new j) /\
  (forall x, x ∈ to_write s -> exists j, x = (j, bat new j) /\ 0 <= j < 12) /\
  ((forall j, j ∈ to_read s -> 12 <= j) /\
   (forall j v, 0 <= j < 12 -> got s !! j = Some v -> v = bat old j) \/
   (forall j v, 0 <= j < 12 -> got s !! (12 + j) = Some v -> v = bat new j)).
Record race_ok (s : race) : Prop := {
  ra_len : 24 <= blen (memory s);
  ra_reads : exists r0 r1, to_read s = r0 ++ r1 /\ (forall j, j ∈ r0 -> 0 <= j < 12) /\
    (forall j, j ∈ r1 -> 12 <= j < 24) /\
    (r0 <> [] -> forall j, 12 <= j -> got s !! j = None);
  ra_got j : 0 <= j < 24 -> j ∈ to_read s \/ is_Some (got s !! j);
  ra_phase : phase_a s \/ phase_b s;
}.

Lemma write_ok i x m w r g :
  race_ok (mkRace m ((i, x) :: w) r g) -> race_ok (mkRace (<[Z.to_nat i := x]> m) w r g).
Proof.
  intros [Hl Hr Hg Hp]; cbn [memory to_write to_read got] in *.
  split; cbn [memory to_write to_read got]; [unfold blen in *; by rewrite length_insert|done|done|].
  assert (Hlen : blen new = 12) by (unfold blen; lia).
  destruct Hp as [(Hm & Ho & w1 & w0 & Hw & Hne & H0 & Hw1 & Hc)|(Hm & Hw & Hd)];
    cbn [memory to_write to_read got] in *.
  - destruct w1 as [|y w1]; [done|]. cbn [app] in Hw. injection Hw as <- ->.
    destruct (Hw1 (i, x)) as (k & [= -> ->] & Hk); [apply list.elem_of_cons; by left|].
    assert (Hc' : forall j, 0 <= j < 12 -> bat (<[Z.to_nat (12 + k) := bat new k]> m) (12 + j) = bat new j \/
      (12 + j, bat new j) ∈ w1).
    { intros j Hj. rewrite bat_insert by lia. destruct (Z.eqb_spec (12 + j) (12 + k)).
      - left. by replace j with k by lia.
      - destruct (Hc j Hj) as [H|H]; [by left|]. apply list.elem_of_cons in H as [[= ?]|H]; [lia|by right]. }
    destruct (decide (w1 = [])) as [->|Hne1].
    + right. split; [|split]; cbn [memory to_write to_read got].
      * intros j Hj. destruct (Hc' j Hj) as [H|H]; [done|]. by apply not_elem_of_nil in H.
      * intros y Hy. cbn [app] in Hy. rewrite H0, words_at_elem, Hlen in Hy. apply Hy.
      * destruct Hr as (r0 & r1 & -> & R0 & R1 & Rg). destruct (decide (r0 = [])) as [->|Hr0].
        -- left. split; [|done]. intros j Hj. cbn [app] in Hj. apply R1 in Hj. lia.
        -- right. intros j v Hj. by rewrite Rg by (done || lia).
    + left. split; [|split]; cbn [memory to_write to_read got].
      * intros j Hj. rewrite bat_insert by lia. destruct (Z.eqb_spec j (12 + k)); [lia|by apply Hm].
      * done.
      * exists w1, w0. split; [done|]. split; [done|]. split; [done|]. split; [|done].
        intros y Hy. apply Hw1, list.elem_of_cons. by right.
  - right. destruct (Hw (i, x)) as (k & [= -> ->] & Hk); [apply list.elem_of_cons; by left|].
    split; [|split]; cbn [memory to_write to_read got]; [| |done].
    + intros j Hj. rewrite bat_insert by lia. destruct (Z.eqb_spec (12 + j) k); [lia|by apply Hm].
    + intros y Hy. apply Hw, list.elem_of_cons. by right.
Qed.

Lemma read_ok i m w r g :
  race_ok (mkRace m w (i :: r) g) -> race_ok (mkRace m w r (<[i := bat m i]> g)).
Proof.
  intros [Hl Hr Hg Hp]; cbn [memory to_write to_read got] in *.
  split; cbn [memory to_write to_read got]; [done|..].
  - destruct Hr as (r0 & r1 & Hr & R0 & R1 & Rg). destruct r0 as [|k r0]; cbn [app] in Hr.
    + destruct r1 as [|k r1]; [done|]. injection Hr as <- ->. exists [], r1. split; [done|].
      split; [intros j Hj; by apply not_elem_of_nil in Hj|]. split; [|done].
      intros j Hj. apply R1, list.elem_of_cons. by right.
    + injection Hr as <- ->. exists r0, r1. split; [done|].
      split; [intros j Hj; apply R0, list.elem_of_cons; by right|]. split; [done|].
      intros Hne j Hj. pose proof (R0 i ltac:(apply list.elem_of_cons; by left)).
      rewrite lookup_insert_ne by lia. by apply Rg.
  - intros j Hj. destruct (decide (i = j)) as [->|Hne]; [right; rewrite lookup_insert_eq; eauto|].
    rewrite lookup_insert_ne by done. destruct (Hg j Hj) as [H|H]; [|by right].
    apply list.elem_of_cons in H as [->|H]; [done|by left].
  - destruct Hp as [(Hm & Ho & Hw)|(Hm & Hw & Hd)]; cbn [memory to_write to_read got] in *.
    + left. split; [done|]. split; [|done]. cbn [memory to_write to_read got]. intros j v Hj.
      rewrite lookup_insert_Some. intros [[-> <-]|[_ H]]; [by apply Hm|by eapply Ho].
    + right. split; [done|]. split; [done|]. cbn [memory to_write to_read got].
      destruct Hd as [[Hge Ho]|Hn]; [left|right].
      * split; [intros j Hj; apply Hge, list.elem_of_cons; by right|].
        pose proof (Hge i ltac:(apply list.elem_of_cons; by left)). intros j v Hj.
        rewrite lookup_insert_ne by lia. by apply Ho.
      * intros j v Hj. rewrite lookup_insert_Some. intros [[-> <-]|[_ H]]; [by apply Hm|by eapply Hn].
Qed.

Lemma race_steps_ok s s' : rtc race_step s s' -> race_ok s -> race_ok s'.
Proof.
  induction 1 as [|s1 s2 s3 Hst _ IH]; [done|]. intros H. apply IH. destruct Hst; [by apply write_ok|by apply read_ok].
Qed.

Lemma race_start m w r :
  24 <= blen m -> (forall j, 0 <= j < 12 -> bat m j = bat old j) -> writer_order new w -> reader_order r ->
  race_ok (mkRace m w r ∅).
Proof.
  intros Hm Ho (w1 & w0 & -> & Hw1 & Hw0) (r0 & r1 & -> & Hr0 & Hr1).
  assert (Hlen : blen new = 12) by (unfold blen; lia).
  split; cbn [memory to_write to_read got]; [done|..].
  - exists r0, r1. split; [done|]. split; [|split; [|by intros]].
    + intros j. rewrite Hr0, elem_of_seqZ. lia.
    + intros j. rewrite Hr1, elem_of_seqZ. lia.
  - intros j Hj. left. rewrite elem_of_app, Hr0, Hr1, !elem_of_seqZ. lia.
  - left. split; [done|]. split; [by intros|]. cbn [memory to_write to_read got].
    exists w1, w0. split; [done|]. split; [|split; [done|split]].
    + intros ->. apply Permutation_nil in Hw1.
      assert (Hx : (12 + 0, bat new 0) ∈ words_at 12 new) by (apply words_at_elem; exists 0; lia || (split; [done|lia])).
      rewrite Hw1 in Hx. by apply not_elem_of_nil in Hx.
    + intros x. rewrite Hw1, words_at_elem, Hlen. done.
    + intros j Hj. right. rewrite Hw1, words_at_elem. exists j. split; [done|lia].
Qed.

Lemma copy_read_eq off g ws :
  length ws = 12%nat -> (forall j, 0 <= j < 12 -> g !! (off + j) = Some (bat ws j)) -> copy_read off g = ws.
Proof.
  intros Hl H. assert (Hc : blen (copy_read off g) = blen ws).
  { unfold copy_read, blen. rewrite length_map, length_seqZ. lia. }
  apply bytes_ext; [done|]. rewrite Hc. unfold blen at 1. rewrite Hl. intros j Hj.
  unfold copy_read, bat at 1. rewrite (proj2 (Z.leb_le 0 j)), list_lookup_fmap by lia.
  rewrite (proj2 (lookup_seqZ off 12 (Z.to_nat j) (off + j))) by lia. cbn [fmap option_fmap option_map default].
  rewrite lookup_total_alt, H by lia. done.
Qed.

(** What a reader ends up with. *)
Lemma race_end s :
  race_ok s -> to_read s = [] -> copy_read 0 (got s) = old \/ copy_read 12 (got s) = new.
Proof.
  intros [Hl Hr Hg Hp] Hend. rewrite Hend in *.
  assert (Hs : forall j, 0 <= j < 24 -> is_Some (got s !! j)).
  { intros j Hj. destruct (Hg j Hj) as [H|H]; [by apply not_elem_of_nil in H|done]. }
  assert (Ha : (forall j v, 0 <= j < 12 -> got s !! j = Some v -> v = bat old j) -> copy_read 0 (got s) = old).
  { intros H. apply copy_read_eq; [done|]. intros j Hj. rewrite Z.add_0_l.
    destruct (Hs j ltac:(lia)) as [v E]. rewrite E. f_equal. by eapply H. }
  destruct Hp as [(_ & Ho & _)|(_ & _ & [[_ Ho]|Hn])]; [by left; apply Ha..|].
  right. apply copy_read_eq; [done|]. intros j Hj. destruct (Hs (12 + j) ltac:(lia)) as [v E].
  rewrite E. f_equal. by eapply Hn.
Qed.
End Race.

(** ** The writer of the code *)

Definition run_writes (evs : list (Z * Z)) (m : list Z) : list Z :=
  fold_left (fun m e => <[Z.to_nat (fst e) := snd e]> m) evs m.

Lemma run_writes_len evs m : blen (run_writes evs m) = blen m.
Proof.
  revert m. induction evs as [|[i x] evs IH]; intros m; [done|]. cbn. unfold run_writes in IH. rewrite IH.
  unfold blen. by rewrite length_insert.
Qed.

Lemma run_writes_steps evs rest m r g :
  rtc race_step (mkRace m (evs ++ rest) r g) (mkRace (run_writes evs m) rest r g).
Proof.
  revert m. induction evs as [|[i x] evs IH]; intros m; [apply rtc_refl|]. eapply rtc_l; [|apply IH].
  cbn [app]. constructor.
Qed.

Lemma run_words_at off ws m j :
  0 <= off -> off + blen ws <= blen m -> 0 <= j ->
  bat (run_writes (words_at off ws) m) j
  = if (off <=? j) && (j <? off + blen ws) then bat ws (j - off) else bat m j.
Proof.
  revert off m. induction ws as [|x ws IH]; intros off m Hoff Hend Hj.
  - change (blen []) with 0. destruct (Z.leb_spec off j), (Z.ltb_spec j (off + 0)); (done || lia).
  - assert (Hb : blen (x :: ws) = 1 + blen ws) by (unfold blen; cbn [length]; lia). pose proof (blen_nonneg ws).
    unfold words_at. rewrite Hb, seqZ_cons by lia. cbn [zip zip_with]. change (run_writes ((off, x) :: ?l) m) with (run_writes l (<[Z.to_nat off := x]> m)).
    replace (Z.pred (1 + blen ws)) with (blen ws) by lia. change (zip _ ws) with (words_at (Z.succ off) ws).
    rewrite IH; [|lia|unfold blen in *; rewrite length_insert; lia|lia]. rewrite bat_insert by lia.
    destruct (Z.leb_spec (Z.succ off) j), (Z.ltb_spec j (Z.succ off + blen ws)), (Z.leb_spec off j),
      (Z.ltb_spec j (off + (1 + blen ws))), (Z.eqb_spec j off); cbn [andb]; try lia; try done.
    + replace (j - off) with (1 + (j - Z.succ off)) by lia. unfold bat.
      destruct (Z.leb_spec 0 (j - Z.succ off)), (Z.leb_spec 0 (1 + (j - Z.succ off))); try lia.
      by replace (Z.to_nat (1 + (j - Z.succ off))) with (S (Z.to_nat (j - Z.succ off))) by lia.
    + subst j. by rewrite Z.sub_diag.
Qed.

(** The two [memcpy] of [walIndexWriteHdr] make the writes of a race in order. *)
Lemma blit_run_writes off ws m m' : blit m off ws = Some m' -> m' = run_writes (words_at off ws) m.
Proof.
  intros E. pose proof (blit_bounds _ _ _ _ E) as Hb. pose proof (blit_len _ _ _ _ E) as Hl.
  apply bytes_ext; [by rewrite run_writes_len|]. intros j Hj. rewrite (blit_at _ _ _ _ _ E), run_words_at by lia.
  done.
Qed.
Lemma writer_order_code ws : writer_order ws (words_at 12 ws ++ words_at 0 ws).
Proof. by exists (words_at 12 ws), (words_at 0 ws). Qed.
Lemma reader_order_code : reader_order (seqZ 0 12 ++ seqZ 12 12).
Proof. by exists (seqZ 0 12), (seqZ 12 12). Qed.

(** ** Properties *)

#[global] Instance WalIndexHdr_eq_dec : EqDecision WalIndexHdr.
Proof. solve_decision. Defined.

Section Props.
Context (SQLITE_BIGENDIAN : bool).

Lemma hdr_words_inj h1 h2 ws :
  hdr_ok h1 -> hdr_ok h2 -> hdr_words SQLITE_BIGENDIAN h1 = Some ws -> hdr_words SQLITE_BIGENDIAN h2 = Some ws ->
  h1 = h2.
Proof.
  intros O1 O2 E1 E2. apply (hdr_roundtrip SQLITE_BIGENDIAN) in E1, E2; [|done..]. congruence.
Qed.

(** The outcome of an accepted reading of [sealed h]. *)
Definition accepted (h : WalIndexHdr) (s : wi) : out (Z * bool) * wi :=
  let h := sealed SQLITE_BIGENDIAN h in
  if decide (hdr (wal s) = h) then (Ret (0, false), s) else (Ret (0, true), set_wal (with_hdr h (wal s)) s).

Lemma try_hdr_accepts h ws s :
  hdr_ok h -> hdr_words SQLITE_BIGENDIAN (sealed SQLITE_BIGENDIAN h) = Some ws -> hdr_ok (hdr (wal s)) ->
  try_hdr SQLITE_BIGENDIAN ws ws s = accepted h s.
Proof.
  intros Hok Hws Hs. rewrite (try_hdr_sealed _ h) by (done || apply Hs). unfold accepted.
  destruct (decide (hdr (wal s) = _)) as [E|E].
  - by rewrite E, decide_True.
  - rewrite decide_False; [done|]. intros E'. apply E.
    apply (hdr_words_inj _ _ ws); try done. by apply sealed_ok.
Qed.

Lemma read_words_ok off n g s :
  apWiData (wal s) !! 0%nat = Some (Shared 0) -> view s 0%nat = Some g -> 0 <= off -> 0 <= n -> off + n <= blen (words g) ->
  read_words off n s = (Ret (seg (words g) off n), s).
Proof.
  intros Ha Hg H1 H2 H3. unfold read_words. rewrite bind_gets. change (id s) with s. rewrite Ha, bind_lift.
  rewrite (deref_view s 0 (Shared 0) g) by done. rewrite bind_lift.
  destruct (bsub_in (words g) off n) as [l E]; [lia..|]. rewrite E. by apply bsub_seg in E as <-.
Qed.

(** A test of a range of integers, from its start. *)
Fixpoint all_from (n : nat) (z : Z) (p : Z -> bool) : bool :=
  match n with O => true | S n => p z && all_from n (z + 1) p end.
Lemma all_from_ok n z p x : all_from n z p = true -> z <= x < z + Z.of_nat n -> p x = true.
Proof.
  revert z. induction n as [|n IH]; intros z; cbn [all_from]; [lia|]. rewrite andb_true_iff. intros [H1 H2] Hx.
  destruct (decide (x = z)) as [->|]; [done|]. apply (IH (z + 1) H2). lia.
Qed.

(** The page size fits in 16 bits of the header. *)
Definition fits (sz : Z) : bool :=
  negb (Z.land sz (sz - 1) =? 0) ||
  (let v := u16 (Z.lor (Z.land sz 0xff00) (Z.shiftr sz 16)) in
   Z.land v 0xfe00 + Z.shiftl (Z.land v 0x0001) 16 =? sz).
Lemma all_fit : all_from (Z.to_nat 65025) 512 fits = true.
Proof. by vm_compute. Qed.
Lemma szPage_roundtrip sz :
  512 <= sz <= SQLITE_MAX_PAGE_SIZE -> Z.land sz (sz - 1) = 0 ->
  let v := u16 (Z.lor (Z.land sz 0xff00) (Z.shiftr sz 16)) in
  Z.land v 0xfe00 + Z.shiftl (Z.land v 0x0001) 16 = sz.
Proof.
  unfold SQLITE_MAX_PAGE_SIZE. intros Hsz Hp. pose proof (all_from_ok _ _ _ sz all_fit ltac:(lia)) as H.
  unfold fits in H. rewrite Hp in H. cbn [Z.eqb negb orb] in H. by apply Z.eqb_eq in H.
Qed.

(** Two copies of [sealed h] in the first page are read. *)
Lemma walIndexTryHdr_copies h ws g s :
  apWiData (wal s) !! 0%nat = Some (Shared 0) -> view s 0%nat = Some g -> blen (words g) = HASHTABLE_NPAGE -> hdr_ok h ->
  hdr_words SQLITE_BIGENDIAN (sealed SQLITE_BIGENDIAN h) = Some ws ->
  (forall j, 0 <= j < 12 -> bat (words g) j = bat ws j /\ bat (words g) (12 + j) = bat ws j) ->
  hdr_ok (hdr (wal s)) -> walIndexTryHdr SQLITE_BIGENDIAN s = accepted h s.
Proof.
  unfold HASHTABLE_NPAGE. intros Ha Hg Hl Hok Hws Hcopies Hs.
  assert (Hlw : blen ws = 12).
  { destruct (hdr_words_ok SQLITE_BIGENDIAN _ (proj1 (sealed_ok SQLITE_BIGENDIAN _ Hok))) as (ws' & E & H).
    unfold blen. assert (ws' = ws) as <- by congruence. by rewrite H. }
  assert (Hseg : forall off, (off = 0 \/ off = 12) -> seg (words g) off 12 = ws).
  { intros off Hoff. apply bytes_ext; [rewrite Hlw; unfold blen; rewrite seg_len; lia|].
    intros j. unfold blen at 1. rewrite seg_len by lia. intros Hj. rewrite seg_at by lia.
    destruct (Hcopies j ltac:(lia)). by destruct Hoff as [->| ->]. }
  unfold walIndexTryHdr, bind. rewrite !(read_words_ok _ _ g) by (done || lia). rewrite !Hseg by auto. by apply try_hdr_accepts.
Qed.

(** a header written to the shared memory by one connection is read back
    whole by any other: the reader accepts it, ends with the header of the
    writer, reports a change exactly when it had another one, and then has the
    page size the writer encoded in it. *)
Theorem header_written_then_read p2 s :
  wi_wf s -> apWiData (wal s) !! 0%nat = Some (Shared 0) -> hdr_ok (hdr (wal s)) ->
  apWiData p2 !! 0%nat = Some (Shared 0) -> hdr_ok (hdr p2) ->
  wp (walIndexWriteHdr SQLITE_BIGENDIAN ;;* modify (set_wal p2) ;;* walIndexTryHdr SQLITE_BIGENDIAN)
    (returns (fun '(rc, changed) s' =>
      rc = 0 /\ hdr (wal s') = sealed SQLITE_BIGENDIAN (hdr (wal s)) /\
      changed = bool_decide (hdr p2 <> sealed SQLITE_BIGENDIAN (hdr (wal s))) /\
      forall sz, 512 <= sz <= SQLITE_MAX_PAGE_SIZE -> Z.land sz (sz - 1) = 0 ->
        hdr_szPage (hdr (wal s)) = u16 (Z.lor (Z.land sz 0xff00) (Z.shiftr sz 16)) ->
        szPage (wal s') = if changed then sz else szPage p2)) s.
Proof.
  intros W Ha Hok Ha2 Hok2.
  eapply wp_seq; [apply walIndexWriteHdr_ok; [done|done|apply Hok]|].
  intros _ s1 [Q (ws & g & Hws & Hg & Hcopies)]. do 2 wp_step. unfold after.
  assert (Hw : wal s1 = set_hdr (sealed SQLITE_BIGENDIAN (hdr (wal s))) (wal s)) by apply Q.
  rewrite Hw in Hws. cbn [hdr set_hdr] in Hws.
  assert (Hg2 : view (set_wal p2 s1) 0%nat = Some g).
  { unfold view in *. cbn [wal set_wal]. rewrite Ha2. rewrite Hw in Hg. cbn [apWiData set_hdr] in Hg. by rewrite Ha in Hg. }
  assert (Hrun : walIndexTryHdr SQLITE_BIGENDIAN (set_wal p2 s1) = accepted (hdr (wal s)) (set_wal p2 s1)).
  { apply (walIndexTryHdr_copies (hdr (wal s)) ws g); try done. apply (view_sized _ _ _ (q_wf _ _ _ _ Q) Hg). }
  unfold wp. rewrite Hrun. unfold accepted. cbn [wal set_wal]. set (h := sealed SQLITE_BIGENDIAN (hdr (wal s))) in *.
  case_decide as E; cbn [fst snd returns okp].
  - split; [done|]. split; [done|]. rewrite bool_decide_false by (by intros H). done.
  - split; [done|]. split; [done|]. rewrite bool_decide_true by done. split; [done|].
    intros sz Hsz Hp Hz. cbn. rewrite Hz. by apply szPage_roundtrip.
Qed.

(** C15: while one connection replaces the header of the wal-index, word by word
    in the order of the code, another reads it, in any interleaving, and the
    writer may be stopped anywhere: the reader asks for another try, unchanged,
    or accepts the old header or the new one, whole, whatever the checksum
    would let through. *)
Theorem header_read_is_atomic ho hn wo wn m w r fin s :
  hdr_ok ho -> hdr_words SQLITE_BIGENDIAN (sealed SQLITE_BIGENDIAN ho) = Some wo ->
  hdr_ok hn -> hdr_words SQLITE_BIGENDIAN (sealed SQLITE_BIGENDIAN hn) = Some wn ->
  24 <= blen m -> (forall j, 0 <= j < 12 -> bat m j = bat wo j) ->
  writer_order wn w -> reader_order r ->
  rtc race_step (mkRace m w r ∅) fin -> to_read fin = [] -> hdr_ok (hdr (wal s)) ->
  let res := try_hdr SQLITE_BIGENDIAN (copy_read 0 (got fin)) (copy_read 12 (got fin)) s in
  res = (Ret (1, false), s) \/ res = accepted ho s \/ res = accepted hn s.
Proof.
  intros Oo Eo On En Hm Ho Hw Hr Hrun Hend Hs res.
  assert (Hlen : forall h ws, hdr_ok h -> hdr_words SQLITE_BIGENDIAN (sealed SQLITE_BIGENDIAN h) = Some ws -> length ws = 12%nat).
  { intros h ws O E. destruct (hdr_words_ok SQLITE_BIGENDIAN _ (proj1 (sealed_ok SQLITE_BIGENDIAN _ O))) as (ws' & E' & H).
    congruence. }
  assert (Hok : race_ok wo wn fin).
  { apply (race_steps_ok wo wn (Hlen _ _ Oo Eo) (Hlen _ _ On En) _ _ Hrun).
    apply race_start; eauto. }
  destruct (decide (copy_read 0 (got fin) = copy_read 12 (got fin))) as [E|E];
    [|left; by apply try_hdr_torn].
  right. unfold res. rewrite <- E.
  destruct (race_end wo wn (Hlen _ _ Oo Eo) (Hlen _ _ On En) fin Hok Hend) as [H|H].
  - left. rewrite H. by apply try_hdr_accepts.
  - right. rewrite E, H. by apply try_hdr_accepts.
Qed.
End Props.

(** ** Witnesses *)

Definition demo_h (mx : Z) : WalIndexHdr := mkHdr 3007000 0 1 true 512 mx 1 (0, 0) (zeros 8) (0, 0).
Definition demo_p (mx : Z) : Wal := mkWal [Shared 0] 1024 1 0 true 0 0 false (demo_h mx) 1 0 0.
Definition demo_s : wi := mkWi (demo_p 5) [zero_page] zero_page 0.

Lemma demo_s_wf : wi_wf demo_s.
Proof.
  split; cbn [wal demo_s apWiData demo_p shm priv].
  - intros [|h] ptr [= <-]. right. left. split; [done|cbn; lia].
  - intros [|h] h' H; discriminate.
  - apply list.Forall_cons. split; [apply zero_page_sized|done].
  - apply zero_page_sized.
Qed.
Lemma demo_h_ok mx : hdr_ok (demo_h mx).
Proof. split; [split; [done|apply zeros_ok]|]. cbn. lia. Qed.

(** Written by a connection with five frames, read by one with two. *)
Lemma header_written_then_read_witness :
  exists s', (walIndexWriteHdr false ;;* modify (set_wal (demo_p 2)) ;;* walIndexTryHdr false) demo_s
    = (Ret (0, true), s') /\ mxFrame (hdr (wal s')) = 5 /\ szPage (wal s') = 512.
Proof.
  pose proof (header_written_then_read false (demo_p 2) demo_s demo_s_wf eq_refl (demo_h_ok 5) eq_refl (demo_h_ok 2)) as H.
  unfold wp in H. destruct ((walIndexWriteHdr false ;;* modify (set_wal (demo_p 2)) ;;* walIndexTryHdr false) demo_s)
    as [[[rc ch]| |] s']; cbn [fst snd returns okp] in H; [|done|done].
  destruct H as (-> & Hh & -> & Hsz). exists s'.
  assert (Hne : hdr (demo_p 2) <> sealed false (hdr (wal demo_s))) by (intros E; apply (f_equal mxFrame) in E; discriminate E).
  rewrite bool_decide_true in * by exact Hne. split; [reflexivity|]. split; [by rewrite Hh|].
  apply (Hsz 512); [unfold SQLITE_MAX_PAGE_SIZE; lia|reflexivity..].
Defined.

(** The reader comes between the two copies. *)
Definition demo_words (mx : Z) : list Z := default [] (hdr_words false (sealed false (demo_h mx))).
Definition demo_mem : list Z := demo_words 2 ++ demo_words 2.

Lemma run_reads_steps ixs m w g :
  exists g', rtc race_step (mkRace m w ixs g) (mkRace m w [] g').
Proof.
  revert g. induction ixs as [|i ixs IH]; intros g; [exists g; apply rtc_refl|].
  destruct (IH (<[i := bat m i]> g)) as [g' H]. exists g'. eapply rtc_l; [constructor|exact H].
Qed.

Lemma header_read_is_atomic_witness :
  exists fin, rtc race_step (mkRace demo_mem (words_at 12 (demo_words 5) ++ words_at 0 (demo_words 5))
      (seqZ 0 12 ++ seqZ 12 12) ∅) fin /\ to_read fin = [] /\ to_write fin = words_at 0 (demo_words 5) /\
    let res := try_hdr false (copy_read 0 (got fin)) (copy_read 12 (got fin)) demo_s in
    res = (Ret (1, false), demo_s) \/ res = accepted false (demo_h 2) demo_s \/ res = accepted false (demo_h 5) demo_s.
Proof.
  destruct (run_reads_steps (seqZ 0 12 ++ seqZ 12 12) (run_writes (words_at 12 (demo_words 5)) demo_mem)
    (words_at 0 (demo_words 5)) ∅) as [g' Hr].
  pose proof (transitivity (run_writes_steps (words_at 12 (demo_words 5)) (words_at 0 (demo_words 5)) demo_mem
    (seqZ 0 12 ++ seqZ 12 12) ∅) Hr) as Hrun.
  eexists. split; [exact Hrun|]. split; [reflexivity|]. split; [reflexivity|].
  refine (header_read_is_atomic false (demo_h 2) (demo_h 5) (demo_words 2) (demo_words 5) demo_mem _ _ _ demo_s
    (demo_h_ok 2) eq_refl (demo_h_ok 5) eq_refl _ _ (writer_order_code _) reader_order_code Hrun eq_refl (demo_h_ok 5));
    [vm_compute; discriminate|].
  intros j Hj. unfold demo_mem, bat. rewrite (proj2 (Z.leb_le 0 j)) by lia.
  rewrite lookup_app_l by (change (length (demo_words 2)) with 12%nat; lia). reflexivity.
Defined.
