(* ===== verification/WalWrite.v ===== *)
(** * Writing the log ([walFrames] of [src/src/wal.c])

    The connection of [WalRecover] with the fields the writers use, the pages
    to write, and the log file as it was at the last [fsync].  A write that
    fails leaves any number of the bytes it was given ([partial n] of them for
    request [n]): a power failure is a request that fails with nothing after
    it.  The build has neither snapshots nor lock timeouts. *)
From S2P Require Import Prelude Bits Bytes Varint Wal WalIndex WalRecover WalRecovery WalHdr.

(** ** Definitions *)

Definition SQLITE_PROTOCOL : Z := 15.
Definition SQLITE_BUSY_SNAPSHOT : Z := Z.lor SQLITE_BUSY (Z.shiftl 2 8).
Definition SQLITE_READONLY_CANTINIT : Z := Z.lor SQLITE_READONLY (Z.shiftl 7 8).
Definition WAL_WRITE_LOCK : Z := 0.
Definition WAL_RETRY : Z := -1.
Definition WAL_RETRY_PROTOCOL_LIMIT : Z := 100.
Definition MAX_SECTOR_SIZE : Z := 0x10000.

(** A page to write: number, content and the flag [PGHDR_WAL_APPEND]. *)
Record PgHdr : Type := mkPg { pgno : Z; pData : bytes; wal_append : bool }.

Record conn : Type := mkConn {
  c_rs : rs;
  c_shared : list Z;               (* locks held in shared mode *)
  truncateOnCommit : bool;
  syncHeader : bool;
  padToSectorBoundary : bool;
  mxWalSize : Z;
  iCallback : Z;
  pList : list PgHdr;              (* the pages, linked by [pDirty] *)
  synced : bytes;                  (* the log at the last [fsync] *)
  naps : list Z;                   (* sleeps of a reader *)
}.
Definition set_rs (r : rs) (c : conn) : conn :=
  mkConn r (c_shared c) (truncateOnCommit c) (syncHeader c) (padToSectorBoundary c) (mxWalSize c)
    (iCallback c) (pList c) (synced c) (naps c).
Definition set_shared (l : list Z) (c : conn) : conn :=
  mkConn (c_rs c) l (truncateOnCommit c) (syncHeader c) (padToSectorBoundary c) (mxWalSize c)
    (iCallback c) (pList c) (synced c) (naps c).
Definition set_truncateOnCommit (b : bool) (c : conn) : conn :=
  mkConn (c_rs c) (c_shared c) b (syncHeader c) (padToSectorBoundary c) (mxWalSize c)
    (iCallback c) (pList c) (synced c) (naps c).
Definition set_iCallback (n : Z) (c : conn) : conn :=
  mkConn (c_rs c) (c_shared c) (truncateOnCommit c) (syncHeader c) (padToSectorBoundary c) (mxWalSize c)
    n (pList c) (synced c) (naps c).
Definition set_pList (l : list PgHdr) (c : conn) : conn :=
  mkConn (c_rs c) (c_shared c) (truncateOnCommit c) (syncHeader c) (padToSectorBoundary c) (mxWalSize c)
    (iCallback c) l (synced c) (naps c).
Definition set_synced (d : bytes) (c : conn) : conn :=
  mkConn (c_rs c) (c_shared c) (truncateOnCommit c) (syncHeader c) (padToSectorBoundary c) (mxWalSize c)
    (iCallback c) (pList c) d (naps c).
Definition nap (us : Z) (c : conn) : conn :=
  mkConn (c_rs c) (c_shared c) (truncateOnCommit c) (syncHeader c) (padToSectorBoundary c) (mxWalSize c)
    (iCallback c) (pList c) (synced c) (us :: naps c).

Definition set_file (f : bytes) (r : rs) : rs := mkRs (r_wi r) f (r_held r) (r_ios r).
Definition c_wi (c : conn) : wi := r_wi (c_rs c).
Definition c_wal (c : conn) : Wal := wal (c_wi c).
Definition c_file (c : conn) : bytes := r_file (c_rs c).
Definition mod_rs (f : rs -> rs) (c : conn) : conn := set_rs (f (c_rs c)) c.

Definition on_rs {A} (m : M rs A) : M conn A :=
  fun c => let '(o, r) := m (c_rs c) in (o, set_rs r c).
Definition set_conn_wal (f : Wal -> Wal) : M conn unit := on_rs (mod_wal f).
Definition on_index {A} (m : M wi A) : M conn A := on_rs (on_wi m).

(** [if( rc ) return rc;]. *)
Definition check (rc : Z) : M conn unit := if rc =? SQLITE_OK then ret tt else fail rc.

(** The fields of [Wal] this file changes. *)
Definition set_readLock (k : Z) (p : Wal) : Wal :=
  mkWal (apWiData p) (szPage p) k (exclusiveMode p) (writeLock p)
    (ckptLock p) (readOnly p) (bShmUnreliable p) (hdr p) (minFrame p) (iReCksum p) (nCkpt p).
Definition set_writeLock (b : bool) (p : Wal) : Wal :=
  mkWal (apWiData p) (szPage p) (readLock p) (exclusiveMode p) b
    (ckptLock p) (readOnly p) (bShmUnreliable p) (hdr p) (minFrame p) (iReCksum p) (nCkpt p).
Definition set_minFrame (n : Z) (p : Wal) : Wal :=
  mkWal (apWiData p) (szPage p) (readLock p) (exclusiveMode p) (writeLock p)
    (ckptLock p) (readOnly p) (bShmUnreliable p) (hdr p) n (iReCksum p) (nCkpt p).
Definition set_iReCksum (n : Z) (p : Wal) : Wal :=
  mkWal (apWiData p) (szPage p) (readLock p) (exclusiveMode p) (writeLock p)
    (ckptLock p) (readOnly p) (bShmUnreliable p) (hdr p) (minFrame p) n (nCkpt p).
Definition hdr_mxFrame (n : Z) (h : WalIndexHdr) : WalIndexHdr :=
  mkHdr (iVersion h) (iChange h) (isInit h) (bigEndCksum h) (hdr_szPage h) n (hdr_nPage h)
    (aFrameCksum h) (aSalt h) (aCksum h).
Definition hdr_salt (salt : bytes) (h : WalIndexHdr) : WalIndexHdr :=
  mkHdr (iVersion h) (iChange h) (isInit h) (bigEndCksum h) (hdr_szPage h) (mxFrame h) (hdr_nPage h)
    (aFrameCksum h) salt (aCksum h).

(** Bytes [d] in a file at [off]; the gap before is filled with zeros. *)
Definition log_write (f : bytes) (off : Z) (d : bytes) : bytes :=
  if blen d =? 0 then f
  else take (Z.to_nat off) (f ++ zeros (off - blen f)) ++ d ++ drop (Z.to_nat (off + blen d)) f.

Section Code.
Variables (SQLITE_BIGENDIAN : bool) (mallocOk : nat -> bool) (shmRc ioRc : nat -> Z) (lockRc : nat -> Z -> Z -> Z)
  (partial : nat -> Z) (osSectorSize : Z) (randomness : nat -> bytes).

(** *** The file and the locks *)

Definition sqlite3OsWrite (d : bytes) (off : Z) : M conn Z :=
  fun c =>
    let r := c_rs c in
    let rc := ioRc (r_ios r) in
    let k := if rc =? SQLITE_OK then blen d else Z.max 0 (Z.min (partial (r_ios r)) (blen d)) in
    (Ret rc, set_rs (count_io (set_file (log_write (r_file r) off (take (Z.to_nat k) d)) r)) c).

(** Without flags nothing is synced. *)
Definition sqlite3OsSync (flags : Z) : M conn Z :=
  if flags =? 0 then ret SQLITE_OK
  else fun c =>
    let r := c_rs c in
    let rc := ioRc (r_ios r) in
    let c := set_rs (count_io r) c in
    (Ret rc, if rc =? SQLITE_OK then set_synced (r_file r) c else c).

Definition sqlite3OsTruncate (n : Z) : M conn Z :=
  fun c =>
    let r := c_rs c in
    let rc := ioRc (r_ios r) in
    (Ret rc, set_rs (count_io (if rc =? SQLITE_OK
                               then set_file (take (Z.to_nat n) (r_file r ++ zeros (n - blen (r_file r)))) r
                               else r)) c).

Definition sqlite3SectorSize : Z :=
  if osSectorSize <? 32 then 512
  else if MAX_SECTOR_SIZE <? osSectorSize then MAX_SECTOR_SIZE else osSectorSize.

(** The next [n] random bytes. *)
Definition sqlite3_randomness (n : Z) : M conn bytes :=
  fun c =>
    let r := c_rs c in
    (Ret (take (Z.to_nat n) (randomness (r_ios r) ++ zeros n)), set_rs (count_io r) c).

Definition walLockShared (lockIdx : Z) : M conn Z :=
  let* p := gets c_wal in
  if negb (exclusiveMode p =? 0) then ret SQLITE_OK
  else fun c =>
    let r := c_rs c in
    let rc := lockRc (r_ios r) lockIdx 1 in
    let c := set_rs (count_io r) c in
    (Ret rc, if rc =? SQLITE_OK then set_shared (lockIdx :: c_shared c) c else c).

Definition walUnlockShared (lockIdx : Z) : M conn unit :=
  let* p := gets c_wal in
  if negb (exclusiveMode p =? 0) then ret tt
  else modify (fun c => set_shared (match list_find (eq lockIdx) (c_shared c) with
                                    | Some (i, _) => delete i (c_shared c)
                                    | None => c_shared c
                                    end) (mod_rs count_io c)).

(** *** Restarting the log *)

(** [memcmp(&pWal->hdr, walIndexHdr(pWal), sizeof(WalIndexHdr))], false when
    they are equal, and the shared header. *)
Definition live_hdr : M conn (bool * list Z) :=
  let* ws := on_index (read_words 0 12) in
  let* p := gets c_wal in
  let* mine := lift (hdr_words SQLITE_BIGENDIAN (hdr p)) in
  ret (negb (bool_decide (mine = ws)), ws).

(** A word of the first page of the wal-index, and [aReadMark[i]]. *)
Definition read_word (off : Z) : M conn Z :=
  let* ws := on_index (read_words off 1) in lift (bget ws 0).
Definition write_word (off x : Z) : M conn unit := on_index (write_words off [x]).
Definition nBackfill_at : Z := 24.
Definition aReadMark_at (i : Z) : Z := 25 + i.
Definition nBackfillAttempted_at : Z := 32.

Definition set_nCkpt (n : Z) (p : Wal) : Wal := set_sizes (szPage p) n p.

(** [for(i=2; i<WAL_NREADER; i++)]. *)
Fixpoint unmark_loop (n : nat) (i : Z) : M conn unit :=
  match n with
  | O => ret tt
  | S n => write_word (aReadMark_at i) READMARK_NOT_USED ;;* unmark_loop n (i + 1)
  end.

Definition walRestartHdr (salt1 : bytes) : M conn unit :=
  set_conn_wal (fun p => set_nCkpt (u32 (nCkpt p + 1)) p) ;;*
  set_conn_wal (fun p => set_hdr (hdr_mxFrame 0 (hdr p)) p) ;;*
  let* p := gets c_wal in
  let* s0 := lift (sqlite3Get4byte (aSalt (hdr p)) 0) in
  let* salt := lift (sqlite3Put4byte (aSalt (hdr p)) 0 (u32 (1 + s0))) in
  let* salt := lift (blit salt 4 salt1) in
  set_conn_wal (fun p => set_hdr (hdr_salt salt (hdr p)) p) ;;*
  on_index (walIndexWriteHdr SQLITE_BIGENDIAN) ;;*
  write_word nBackfill_at 0 ;;*
  write_word nBackfillAttempted_at 0 ;;*
  write_word (aReadMark_at 1) 0 ;;*
  unmark_loop (Z.to_nat (WAL_NREADER - 2)) 2.

(** The mark closest to [mxFrame] and not above it. *)
Fixpoint best_mark_loop (n : nat) (i mxFrame mxReadMark mxI : Z) : M conn (Z * Z) :=
  match n with
  | O => ret (mxReadMark, mxI)
  | S n =>
      let* thisMark := read_word (aReadMark_at i) in
      if (mxReadMark <=? thisMark) && (thisMark <=? mxFrame)
      then best_mark_loop n (i + 1) mxFrame thisMark i
      else best_mark_loop n (i + 1) mxFrame mxReadMark mxI
  end.
(** A mark nobody uses is set to [mxFrame]: the result code, mark and index. *)
Fixpoint claim_mark_loop (n : nat) (i rc mxFrame mxReadMark mxI : Z) : M conn (Z * Z * Z) :=
  match n with
  | O => ret (rc, mxReadMark, mxI)
  | S n =>
      let* rc := on_rs (walLockExclusive lockRc (WAL_READ_LOCK i) 1) in
      if rc =? SQLITE_OK then
        write_word (aReadMark_at i) mxFrame ;;*
        on_rs (walUnlockExclusive (WAL_READ_LOCK i) 1) ;;*
        ret (rc, mxFrame, i)
      else if negb (rc =? SQLITE_BUSY) then fail rc
      else claim_mark_loop n (i + 1) rc mxFrame mxReadMark mxI
  end.

(** The start: the count of attempts and the delay after five of them. *)
Definition begin_read_delay (pCnt : Z) : M conn unit :=
  if 5 <? pCnt then
    if WAL_RETRY_PROTOCOL_LIMIT <? pCnt then fail SQLITE_PROTOCOL
    else modify (nap (if 10 <=? pCnt then (pCnt - 9) * (pCnt - 9) * 39 else 1))
  else ret tt.

(** From the choice of a mark to the end. *)
Definition begin_read_mark : M conn Z :=
  let* p := gets c_wal in
  let mx := mxFrame (hdr p) in
  let* b := best_mark_loop (Z.to_nat (WAL_NREADER - 1)) 1 mx 0 0 in
  let '(mxReadMark, mxI) := b in
  let* b := (if (Z.land (readOnly p) WAL_SHM_RDONLY =? 0) && ((mxReadMark <? mx) || (mxI =? 0))
             then claim_mark_loop (Z.to_nat (WAL_NREADER - 1)) 1 SQLITE_OK mx mxReadMark mxI
             else ret (SQLITE_OK, mxReadMark, mxI)) in
  let '(rc, mxReadMark, mxI) := b in
  if mxI =? 0 then (if rc =? SQLITE_BUSY then ret WAL_RETRY else fail SQLITE_READONLY_CANTINIT)
  else
    let* rc := walLockShared (WAL_READ_LOCK mxI) in
    if negb (rc =? SQLITE_OK) then
      (if Z.land rc 0xff =? SQLITE_BUSY then ret WAL_RETRY else fail rc)
    else
      let* nBackfill := read_word nBackfill_at in
      set_conn_wal (set_minFrame (u32 (nBackfill + 1))) ;;*
      let* mark := read_word (aReadMark_at mxI) in
      let* live := live_hdr in
      if negb (mark =? mxReadMark) || fst live then
        walUnlockShared (WAL_READ_LOCK mxI) ;;* ret WAL_RETRY
      else set_conn_wal (set_readLock mxI) ;;* ret SQLITE_OK.

(** [walTryBeginRead] called with [useWal] set, on the [pCnt]-th attempt. *)
Definition walTryBeginRead_useWal (pCnt : Z) : M conn Z :=
  begin_read_delay pCnt ;;* begin_read_mark.
Fixpoint begin_read_loop (fuel : nat) (cnt : Z) : M conn Z :=
  match fuel with
  | O => undef
  | S fuel =>
      let* rc := walTryBeginRead_useWal (cnt + 1) in
      if rc =? WAL_RETRY then begin_read_loop fuel (cnt + 1) else ret rc
  end.

Definition walRestartLog : M conn unit :=
  let* p := gets c_wal in
  if negb (readLock p =? 0) then ret tt
  else
    let* nBackfill := read_word nBackfill_at in
    (if 0 <? nBackfill then
       let* salt1 := sqlite3_randomness 4 in
       let* rc := on_rs (walLockExclusive lockRc (WAL_READ_LOCK 1) (WAL_NREADER - 1)) in
       if rc =? SQLITE_OK then
         walRestartHdr salt1 ;;*
         on_rs (walUnlockExclusive (WAL_READ_LOCK 1) (WAL_NREADER - 1))
       else if negb (rc =? SQLITE_BUSY) then fail rc else ret tt
     else ret tt) ;;*
    walUnlockShared (WAL_READ_LOCK 0) ;;*
    set_conn_wal (set_readLock (-1)) ;;*
    let* rc := begin_read_loop (S (Z.to_nat WAL_RETRY_PROTOCOL_LIMIT)) 0 in
    check rc.

(** *** Writing frames *)

Record WalWriter : Type := mkWriter { iSyncPoint : Z; syncFlags : Z; w_szPage : Z }.
Definition WAL_SYNC_FLAGS (x : Z) : Z := Z.land x 0x03.
Definition CKPT_SYNC_FLAGS (x : Z) : Z := Z.land (Z.shiftr x 2) 0x03.

Definition walWriteToLog (w : WalWriter) (pContent : bytes) (iAmt iOffset : Z) : M conn Z :=
  let* d := lift (bsub pContent 0 iAmt) in
  if (iOffset <? iSyncPoint w) && (iSyncPoint w <=? iOffset + iAmt) then
    let iFirstAmt := i32 (iSyncPoint w - iOffset) in
    let* d1 := lift (bsub d 0 iFirstAmt) in
    let* rc := sqlite3OsWrite d1 iOffset in
    if negb (rc =? SQLITE_OK) then ret rc
    else
      let iOffset := iOffset + iFirstAmt in
      let iAmt := iAmt - iFirstAmt in
      let* rc := sqlite3OsSync (WAL_SYNC_FLAGS (syncFlags w)) in
      if (iAmt =? 0) || negb (rc =? SQLITE_OK) then ret rc
      else let* d2 := lift (bsub d iFirstAmt iAmt) in sqlite3OsWrite d2 iOffset
  else sqlite3OsWrite d iOffset.

(** The page at index [i] of the list. *)
Definition walWriteOneFrame (w : WalWriter) (i : nat) (nTruncate iOffset : Z) : M conn Z :=
  let* p := gets c_wal in
  let* pPage := gets (fun c => pList c !! i) in
  let* pPage := lift pPage in
  let* e := lift (walEncodeFrame SQLITE_BIGENDIAN p (pgno pPage) nTruncate (pData pPage)
                    (zeros WAL_FRAME_HDRSIZE)) in
  let '(p, aFrame) := e in
  set_conn_wal (fun _ => p) ;;*
  let* rc := walWriteToLog w aFrame WAL_FRAME_HDRSIZE iOffset in
  if negb (rc =? SQLITE_OK) then ret rc
  else walWriteToLog w (pData pPage) (w_szPage w) (iOffset + WAL_FRAME_HDRSIZE).

(** [for(; rc==SQLITE_OK && iRead<=iLast; iRead++)], [n] turns. *)
Fixpoint rewrite_loop (n : nat) (iRead rc : Z) : M conn Z :=
  match n with
  | O => ret rc
  | S n =>
      if negb (rc =? SQLITE_OK) then ret rc
      else
        let* p := gets c_wal in
        let iOff := walFrameOffset iRead (szPage p) in
        let* r := on_rs (sqlite3OsRead ioRc (szPage p + WAL_FRAME_HDRSIZE) iOff) in
        let '(rc, aBuf) := r in
        if rc =? SQLITE_OK then
          let* iPgno := lift (sqlite3Get4byte aBuf 0) in
          let* nDbSize := lift (sqlite3Get4byte aBuf 4) in
          let* e := lift (walEncodeFrame SQLITE_BIGENDIAN p iPgno nDbSize
                            (drop (Z.to_nat WAL_FRAME_HDRSIZE) aBuf) (zeros WAL_FRAME_HDRSIZE)) in
          let '(p, aFrame) := e in
          set_conn_wal (fun _ => p) ;;*
          let* rc := sqlite3OsWrite aFrame iOff in
          rewrite_loop n (iRead + 1) rc
        else rewrite_loop n (iRead + 1) rc
  end.

Definition walRewriteChecksums (iLast : Z) : M conn Z :=
  let* ok := on_index (wi_malloc mallocOk) in
  if negb ok then ret SQLITE_NOMEM
  else
    let* p := gets c_wal in
    let iCksumOff := if iReCksum p =? 1 then 24 else walFrameOffset (iReCksum p - 1) (szPage p) + 16 in
    let* r := on_rs (sqlite3OsRead ioRc 8 iCksumOff) in
    let '(rc, aBuf) := r in
    let* c0 := lift (sqlite3Get4byte aBuf 0) in
    let* c1 := lift (sqlite3Get4byte aBuf 4) in
    set_conn_wal (set_cksum (c0, c1)) ;;*
    let iRead := iReCksum p in
    set_conn_wal (set_iReCksum 0) ;;*
    rewrite_loop (Z.to_nat (iLast + 1 - iRead)) iRead rc.

Definition walLimitSize (nMax : Z) : M conn unit :=
  let* r := on_rs (sqlite3OsFileSize ioRc) in
  let '(rx, sz) := r in
  if (rx =? SQLITE_OK) && (nMax <? sz) then let* _ := sqlite3OsTruncate nMax in ret tt else ret tt.

(** [p->flags |= PGHDR_WAL_APPEND] and [p->flags &= ~PGHDR_WAL_APPEND]. *)
Definition set_append (i : nat) (b : bool) : M conn unit :=
  modify (fun c => set_pList (alter (fun p => mkPg (pgno p) (pData p) b) i (pList c)) c).

(** The header of a log that starts. *)
Definition write_wal_header (sz sync_flags : Z) : M conn unit :=
  let* p := gets c_wal in
  let aWalHdr := zeros WAL_HDRSIZE in
  let* h := lift (sqlite3Put4byte aWalHdr 0 (Z.lor WAL_MAGIC (if SQLITE_BIGENDIAN then 1 else 0))) in
  let* h := lift (sqlite3Put4byte h 4 WAL_MAX_VERSION) in
  let* h := lift (sqlite3Put4byte h 8 sz) in
  let* h := lift (sqlite3Put4byte h 12 (nCkpt p)) in
  (if nCkpt p =? 0 then
     let* salt := sqlite3_randomness 8 in
     set_conn_wal (fun p => set_hdr (hdr_salt salt (hdr p)) p)
   else ret tt) ;;*
  let* p := gets c_wal in
  let* h := lift (blit h 16 (aSalt (hdr p))) in
  let* c := lift (walChecksumBytes SQLITE_BIGENDIAN true h (WAL_HDRSIZE - 8) None) in
  let* h := lift (sqlite3Put4byte h 24 (fst c)) in
  let* h := lift (sqlite3Put4byte h 28 (snd c)) in
  set_conn_wal (set_szPage sz) ;;*
  set_conn_wal (fun p => set_hdr (hdr_start SQLITE_BIGENDIAN (aSalt (hdr p)) (hdr p)) p) ;;*
  set_conn_wal (set_cksum c) ;;*
  modify (set_truncateOnCommit true) ;;*
  let* rc := sqlite3OsWrite h 0 in
  check rc ;;*
  let* b := gets syncHeader in
  if b then let* rc := sqlite3OsSync (CKPT_SYNC_FLAGS sync_flags) in check rc else ret tt.

(** The frame [walFindFrame] finds, 0 when it fails. *)
Definition find_or_zero (pg : Z) : M conn Z :=
  on_index (fun s => match walFindFrame mallocOk shmRc pg s with
                     | (Ret r, s) => (Ret r, s)
                     | (Fail _, s) => (Ret 0, s)
                     | (Undef, s) => (Undef, s)
                     end).

(** The loop that writes each page of the list, from index [i] on, [n] pages
    left: the last frame, the next offset and the index of the last page
    appended. *)
Fixpoint frames_loop (n i : nat) (w : WalWriter) (iFirst nTruncate : Z) (isCommit : bool)
    (iFrame iOffset : Z) (pLast : option nat) : M conn (Z * Z * option nat) :=
  match n with
  | O => ret (iFrame, iOffset, pLast)
  | S n =>
      let isLast := bool_decide (n = 0%nat) in
      let* p := gets (fun c => pList c !! i) in
      let* p := lift p in
      let* iWrite := (if negb (iFirst =? 0) && (negb isLast || negb isCommit)
                      then find_or_zero (pgno p) else ret 0) in
      if negb (iFirst =? 0) && (negb isLast || negb isCommit) && (iFirst <=? iWrite) then
        let iOff := walFrameOffset iWrite (w_szPage w) + WAL_FRAME_HDRSIZE in
        set_conn_wal (fun p => if (iReCksum p =? 0) || (iWrite <? iReCksum p)
                               then set_iReCksum iWrite p else p) ;;*
        let* d := lift (bsub (pData p) 0 (w_szPage w)) in
        let* rc := sqlite3OsWrite d iOff in
        check rc ;;*
        set_append i false ;;*
        frames_loop n (S i) w iFirst nTruncate isCommit iFrame iOffset pLast
      else
        let iFrame := u32 (iFrame + 1) in
        let nDbSize := if isCommit && isLast then nTruncate else 0 in
        let* rc := walWriteOneFrame w i nDbSize iOffset in
        check rc ;;*
        set_append i true ;;*
        frames_loop n (S i) w iFirst nTruncate isCommit iFrame
          (iOffset + (w_szPage w + WAL_FRAME_HDRSIZE)) (Some i)
  end.

(** [while( iOffset<w.iSyncPoint )]: the next offset and [nExtra]. *)
Fixpoint pad_loop (fuel : nat) (w : WalWriter) (pLast : option nat) (nTruncate iOffset nExtra : Z)
    : M conn (Z * Z) :=
  match fuel with
  | O => undef
  | S fuel =>
      if iOffset <? iSyncPoint w then
        let* i := lift pLast in
        let* rc := walWriteOneFrame w i nTruncate iOffset in
        check rc ;;*
        pad_loop fuel w pLast nTruncate (iOffset + (w_szPage w + WAL_FRAME_HDRSIZE)) (nExtra + 1)
      else ret (iOffset, nExtra)
  end.

(** Padding and syncing of a commit: the result code and [nExtra]. *)
Definition pad_and_sync (sz sync_flags nTruncate iOffset : Z) (pLast : option nat) : M conn (Z * Z) :=
  let* pad := gets padToSectorBoundary in
  let* b := (if pad : bool then
               let sectorSize := sqlite3SectorSize in
               let pt := (iOffset + sectorSize - 1) / sectorSize * sectorSize in
               let* r := pad_loop (S (Z.to_nat sectorSize)) (mkWriter pt sync_flags sz) pLast nTruncate iOffset 0 in
               ret (pt =? iOffset, snd r)
             else ret (true, 0)) in
  let '(bSync, nExtra) := b in
  if bSync : bool then let* rc := sqlite3OsSync (WAL_SYNC_FLAGS sync_flags) in ret (rc, nExtra) else ret (SQLITE_OK, nExtra).

(** [for(p=pList; p && rc==SQLITE_OK; p=p->pDirty)], the pages appended. *)
Fixpoint index_loop (l : list PgHdr) (iFrame rc : Z) : M conn (Z * Z) :=
  match l with
  | [] => ret (rc, iFrame)
  | p :: l =>
      if negb (rc =? SQLITE_OK) then ret (rc, iFrame)
      else if negb (wal_append p) then index_loop l iFrame rc
      else
        let* rc := on_rs (on_rc (walIndexAppend mallocOk shmRc (u32 (iFrame + 1)) (pgno p))) in
        index_loop l (u32 (iFrame + 1)) rc
  end.
(** [while( rc==SQLITE_OK && nExtra>0 )]. *)
Fixpoint extra_loop (nExtra : nat) (pg iFrame rc : Z) : M conn (Z * Z) :=
  match nExtra with
  | O => ret (rc, iFrame)
  | S nExtra =>
      if negb (rc =? SQLITE_OK) then ret (rc, iFrame)
      else
        let* rc := on_rs (on_rc (walIndexAppend mallocOk shmRc (u32 (iFrame + 1)) pg)) in
        extra_loop nExtra pg (u32 (iFrame + 1)) rc
  end.

(** The new header of the connection. *)
Definition hdr_frames (sz iFrame : Z) (commit : option Z) (h : WalIndexHdr) : WalIndexHdr :=
  mkHdr (iVersion h) (match commit with Some _ => u32 (iChange h + 1) | None => iChange h end)
    (isInit h) (bigEndCksum h) (u16 (Z.lor (Z.land sz 0xff00) (Z.shiftr sz 16)))
    iFrame (match commit with Some n => n | None => hdr_nPage h end) (aFrameCksum h) (aSalt h) (aCksum h).

(** From the appending to the index to the end. *)
Definition frames_finish (sz nTruncate : Z) (isCommit : bool) (pLast : option nat) (nExtra rc : Z)
    : M conn Z :=
  let* p := gets c_wal in
  let* l := gets pList in
  let* r := index_loop l (mxFrame (hdr p)) rc in
  let '(rc, iFrame) := r in
  let* r := (match pLast with
             | Some i => let* q := lift (l !! i) in extra_loop (Z.to_nat nExtra) (pgno q) iFrame rc
             | None => ret (rc, iFrame)
             end) in
  let '(rc, iFrame) := r in
  if rc =? SQLITE_OK then
    set_conn_wal (fun p => set_hdr (hdr_frames sz iFrame (if isCommit then Some nTruncate else None) (hdr p)) p) ;;*
    if isCommit then
      on_index (walIndexWriteHdr SQLITE_BIGENDIAN) ;;*
      modify (set_iCallback iFrame) ;;*
      ret rc
    else ret rc
  else ret rc.

(** The pages are those of the state. *)
Definition walFrames (sz nTruncate : Z) (isCommit : bool) (sync_flags : Z) : M conn Z :=
  let* live := live_hdr in
  let* iFirst := (if fst live then let* mx := lift (bget (snd live) 4) in ret (u32 (mx + 1)) else ret 0) in
  walRestartLog ;;*
  let* p := gets c_wal in
  let iFrame := mxFrame (hdr p) in
  (if iFrame =? 0 then write_wal_header sz sync_flags else ret tt) ;;*
  let* p := gets c_wal in
  if negb (i32 (szPage p) =? sz) then fail SQLITE_CORRUPT
  else
    let w := mkWriter 0 sync_flags sz in
    let* n := gets (fun c => length (pList c)) in
    let* r := frames_loop n 0 w iFirst nTruncate isCommit iFrame (walFrameOffset (u32 (iFrame + 1)) sz) None in
    let '(iFrame, iOffset, pLast) := r in
    let* p := gets c_wal in
    (if isCommit && negb (iReCksum p =? 0) then let* rc := walRewriteChecksums iFrame in check rc else ret tt) ;;*
    let* r := (if isCommit && negb (WAL_SYNC_FLAGS sync_flags =? 0)
               then pad_and_sync sz sync_flags nTruncate iOffset pLast else ret (SQLITE_OK, 0)) in
    let '(rc, nExtra) := r in
    let* t := gets truncateOnCommit in
    let* mxSize := gets mxWalSize in
    (if isCommit && t && (0 <=? mxSize) then
       let e := walFrameOffset (u32 (iFrame + nExtra + 1)) sz in
       walLimitSize (if mxSize <? e then e else mxSize) ;;*
       modify (set_truncateOnCommit false)
     else ret tt) ;;*
    frames_finish sz nTruncate isCommit pLast nExtra rc.
Definition sqlite3WalFrames := walFrames.

(** *** Transactions *)

Definition sqlite3WalBeginWriteTransaction : M conn Z :=
  let* p := gets c_wal in
  if negb (readOnly p =? 0) then ret SQLITE_READONLY
  else
    let* rc := on_rs (walLockExclusive lockRc WAL_WRITE_LOCK 1) in
    if negb (rc =? SQLITE_OK) then ret rc
    else
      set_conn_wal (set_writeLock true) ;;*
      let* live := live_hdr in
      if fst live then
        on_rs (walUnlockExclusive WAL_WRITE_LOCK 1) ;;*
        set_conn_wal (set_writeLock false) ;;*
        ret SQLITE_BUSY_SNAPSHOT
      else ret SQLITE_OK.

Definition sqlite3WalEndWriteTransaction : M conn Z :=
  let* p := gets c_wal in
  (if writeLock p then
     on_rs (walUnlockExclusive WAL_WRITE_LOCK 1) ;;*
     set_conn_wal (set_writeLock false) ;;*
     set_conn_wal (set_iReCksum 0) ;;*
     modify (set_truncateOnCommit false)
   else ret tt) ;;*
  ret SQLITE_OK.

(** [xUndo] is the callback of the pager. *)
Section Undo.
Variable xUndo : Z -> M conn Z.
Fixpoint undo_loop (n : nat) (iFrame rc : Z) : M conn Z :=
  match n with
  | O => ret rc
  | S n =>
      if negb (rc =? SQLITE_OK) then ret rc
      else
        let* pg := on_index (walFramePgno iFrame) in
        let* rc := xUndo pg in
        undo_loop n (u32 (iFrame + 1)) rc
  end.
Definition sqlite3WalUndo : M conn Z :=
  let* p := gets c_wal in
  if writeLock p then
    let iMax := mxFrame (hdr p) in
    let* ws := on_index (read_words 0 12) in
    let* h := lift (hdr_of_words SQLITE_BIGENDIAN ws) in
    set_conn_wal (set_hdr h) ;;*
    let* rc := undo_loop (Z.to_nat (iMax - mxFrame h)) (u32 (mxFrame h + 1)) SQLITE_OK in
    let* p := gets c_wal in
    (if negb (iMax =? mxFrame (hdr p)) then on_index (walCleanupHash mallocOk shmRc) else ret tt) ;;*
    set_conn_wal (set_iReCksum 0) ;;*
    ret rc
  else ret SQLITE_OK.
End Undo.

(** [aWalData]: frame, checksum and checkpoint count. *)
Definition sqlite3WalSavepoint : M conn (Z * (Z * Z) * Z) :=
  let* p := gets c_wal in ret (mxFrame (hdr p), aFrameCksum (hdr p), nCkpt p).

(** [aWalData] and the result code. *)
Definition sqlite3WalSavepointUndo (aWalData : Z * (Z * Z) * Z) : M conn (Z * (Z * Z) * Z * Z) :=
  let* p := gets c_wal in
  let '(mx, cks, n) := aWalData in
  let '(mx, n) := if negb (n =? nCkpt p) then (0, nCkpt p) else (mx, n) in
  (if mx <? mxFrame (hdr p) then
     set_conn_wal (fun p => set_cksum cks (set_hdr (hdr_mxFrame mx (hdr p)) p)) ;;*
     on_index (walCleanupHash mallocOk shmRc) ;;*
     set_conn_wal (fun p => if mxFrame (hdr p) <? iReCksum p then set_iReCksum 0 p else p)
   else ret tt) ;;*
  ret (mx, cks, n, SQLITE_OK).

Definition sqlite3WalReadFrame (iRead nOut : Z) : M conn (Z * bytes) :=
  let* p := gets c_wal in
  let sz := hdr_szPage (hdr p) in
  let sz := Z.land sz 0xfe00 + Z.shiftl (Z.land sz 0x0001) 16 in
  on_rs (sqlite3OsRead ioRc (if sz <? nOut then sz else nOut) (walFrameOffset iRead sz + WAL_FRAME_HDRSIZE)).

Definition sqlite3WalFindFrame (pg : Z) : M conn Z := on_index (walFindFrame mallocOk shmRc pg).

(** The part of [readDbPage] that asks the log: [None] when the page has to
    come from the database file. *)
Definition read_from_wal (pg pageSize : Z) : M conn (option (Z * bytes)) :=
  let* iFrame := sqlite3WalFindFrame pg in
  if negb (iFrame =? 0) then let* r := sqlite3WalReadFrame iFrame pageSize in ret (Some r)
  else ret None.
End Code.
