(* ===== verification/WalFile.v ===== *)
(** * The log file as a list of frames

    What the file holds is a list of frames, each with a page number, a size
    field and a content; the frames up to some point are valid.  This file
    says how the writes of [WalWrite] change that list, and relates it to
    what a recovery finds ([log_frames]). *)
From S2P Require Import Prelude Bits Bytes Varint Wal WalIndex WalRecover WalRecovery WalHdr WalWrite.

(** ** Bytes of a file *)

Lemma log_write_len f off d : 0 <= off -> blen (log_write f off d) = if blen d =? 0 then blen f else Z.max (blen f) (off + blen d).
Proof.
  intros Hoff. unfold log_write. destruct (Z.eqb_spec (blen d) 0) as [|Hd]; [done|].
  pose proof (blen_nonneg d). pose proof (blen_nonneg f). unfold blen, zeros in *.
  rewrite !length_app, length_take, length_drop, length_app, length_replicate. lia.
Qed.

Lemma log_write_at f off d j :
  0 <= off -> 0 <= j ->
  bat (log_write f off d) j = if (off <=? j) && (j <? off + blen d) then bat d (j - off) else bat f j.
Proof.
  intros Hoff Hj. unfold log_write. pose proof (blen_nonneg d). destruct (Z.eqb_spec (blen d) 0) as [Hd|Hd].
  { destruct (Z.leb_spec off j), (Z.ltb_spec j (off + blen d)); cbn [andb]; (done || lia). }
  assert (Hlt : length (take (Z.to_nat off) (f ++ zeros (off - blen f))) = Z.to_nat off).
  { rewrite length_take, length_app. unfold zeros. rewrite length_replicate. unfold blen. lia. }
  unfold bat. rewrite (proj2 (Z.leb_le 0 j)) by lia.
  destruct (Z.leb_spec off j) as [H1|H1]; cbn [andb].
  - rewrite lookup_app_r by lia. rewrite Hlt. rewrite (proj2 (Z.leb_le 0 (j - off))) by lia.
    destruct (Z.ltb_spec j (off + blen d)) as [H2|H2].
    + rewrite lookup_app_l by (unfold blen in *; lia). do 2 f_equal. lia.
    + rewrite lookup_app_r by (unfold blen in *; lia). rewrite lookup_drop. do 2 f_equal. unfold blen in *. lia.
  - rewrite lookup_app_l by lia. rewrite lookup_take_lt by lia.
    destruct (decide (Z.to_nat j < length f)%nat) as [H2|H2].
    + by rewrite lookup_app_l by done.
    + rewrite lookup_app_r by lia. rewrite (lookup_ge_None_2 f) by lia. cbn.
      unfold zeros. destruct (replicate _ _ !! _) eqn:E; [|done]. by apply lookup_replicate in E as [-> _].
Qed.

Lemma log_write_ok f off d : bytes_ok f -> bytes_ok d -> bytes_ok (log_write f off d).
Proof.
  intros Hf Hd. unfold log_write. case_match; [done|]. unfold bytes_ok in *.
  apply Forall_app_2; [apply Forall_take, Forall_app_2; [done|apply zeros_ok]|].
  apply Forall_app_2; [done|by apply Forall_drop].
Qed.

(** Only bytes in [lo..hi-1] differ, and the file is not shorter. *)
Definition changed (lo hi : Z) (f f' : bytes) : Prop :=
  blen f <= blen f' /\ forall j, 0 <= j -> ~ lo <= j < hi -> bat f' j = bat f j.

Lemma changed_refl lo hi f : changed lo hi f f.
Proof. split; [lia|done]. Qed.
Lemma fchanged_trans lo hi f1 f2 f3 : changed lo hi f1 f2 -> changed lo hi f2 f3 -> changed lo hi f1 f3.
Proof. intros [A B] [A' B']. split; [lia|]. intros j H1 H2. by rewrite B', B. Qed.
Lemma changed_widen lo hi lo' hi' f f' : lo' <= lo -> hi <= hi' -> changed lo hi f f' -> changed lo' hi' f f'.
Proof. intros ?? [A B]. split; [done|]. intros j H1 H2. apply B; lia. Qed.
Lemma changed_write f off d lo hi :
  0 <= off -> lo <= off -> off + blen d <= hi -> changed lo hi f (log_write f off d).
Proof.
  intros H0 H1 H2. split.
  - rewrite log_write_len by done. case_match; lia.
  - intros j Hj Hn. rewrite log_write_at by done.
    destruct (Z.leb_spec off j), (Z.ltb_spec j (off + blen d)); cbn [andb]; (done || lia).
Qed.

Lemma seg_ext f f' i n :
  0 <= i -> 0 <= n -> i + n <= blen f -> i + n <= blen f' ->
  (forall j, i <= j < i + n -> bat f' j = bat f j) -> seg f' i n = seg f i n.
Proof.
  intros H0 H1 H2 H3 Heq. apply bytes_ext; unfold blen.
  - by rewrite !seg_len by lia.
  - rewrite seg_len by lia. intros j Hj. rewrite !seg_at by lia. apply Heq. lia.
Qed.
Lemma seg_changed lo hi f f' i n :
  changed lo hi f f' -> 0 <= i -> 0 <= n -> i + n <= blen f -> i + n <= lo \/ hi <= i -> seg f' i n = seg f i n.
Proof. intros [A B] ????. apply seg_ext; try lia. intros j Hj. apply B; lia. Qed.
Lemma seg_write f off d : 0 <= off -> seg (log_write f off d) off (blen d) = d.
Proof.
  intros Hoff. pose proof (blen_nonneg d). destruct (Z.eqb_spec (blen d) 0) as [E|E].
  { rewrite E. unfold seg. cbn. symmetry. apply nil_length_inv. unfold blen in E. lia. }
  assert (Hl : off + blen d <= blen (log_write f off d)).
  { rewrite log_write_len by done. destruct (Z.eqb_spec (blen d) 0); lia. }
  apply bytes_ext; unfold blen at 1; rewrite seg_len by lia; [lia|]. intros j Hj.
  rewrite seg_at, log_write_at by lia.
  destruct (Z.leb_spec off (off + j)), (Z.ltb_spec (off + j) (off + blen d)); try lia. cbn [andb]. f_equal. lia.
Qed.

(** ** Frames *)

(** Page number, size field and content. *)
Definition fent : Type := Z * Z * bytes.
Definition fe_page (e : fent) : Z := fst (fst e).
Definition fe_size (e : fent) : Z := snd (fst e).
Definition flen (fs : list fent) : Z := Z.of_nat (length fs).
#[export] Hint Unfold flen : lengths.
Lemma flen_take k fs : 0 <= k <= flen fs -> flen (take (Z.to_nat k) fs) = k.
Proof. intros H. len. Qed.

Section Frames.
Context (sz : Z).
Hypothesis (Hsz : 0 < sz).

Lemma foff_eq i : walFrameOffset i sz = 32 + (i - 1) * (sz + 24).
Proof. done. Qed.
Lemma foff_next i : walFrameOffset (i + 1) sz = walFrameOffset i sz + sz + 24.
Proof. rewrite !foff_eq. lia. Qed.
Lemma foff_le i j : i <= j -> walFrameOffset i sz <= walFrameOffset j sz.
Proof. rewrite !foff_eq. nia. Qed.
Lemma foff_lt i j : i < j -> walFrameOffset i sz + sz + 24 <= walFrameOffset j sz.
Proof. rewrite !foff_eq. nia. Qed.

Definition entry (f : bytes) (i : Z) : fent :=
  (at4 (frame_at f sz i) 0, at4 (frame_at f sz i) 4, data_at f sz i).
(** The checksum frame [i] ends with, that of the header for frame 0. *)
Definition ck_at (f : bytes) (i : Z) : Z * Z :=
  if i =? 0 then log_cksum f else (at4 (frame_at f sz i) 16, at4 (frame_at f sz i) 20).
Definition good_at (f : bytes) (i : Z) : Prop :=
  good_frame (log_big f) (log_salt f) (ck_at f (i - 1)) (data_at f sz i) (frame_at f sz i).

(** The file starts with the frames [fs], the first [good] of which are valid. *)
Record file_ok (f : bytes) (fs : list fent) (good : Z) : Prop := {
  fk_bytes : bytes_ok f;
  fk_len : walFrameOffset (flen fs + 1) sz <= blen f;
  fk_entry i : 1 <= i <= flen fs -> fs !! Z.to_nat (i - 1) = Some (entry f i);
  fk_range : 0 <= good <= flen fs;
  fk_good i : 1 <= i <= good -> good_at f i;
}.

(** *** Frames outside of the bytes that changed *)

Definition same_head (f f' : bytes) : Prop := seg f' 0 32 = seg f 0 32.

Lemma head_at f f' j : same_head f f' -> 0 <= j < 32 -> bat f' j = bat f j.
Proof.
  intros H Hj. pose proof (seg_at f 0 32 j ltac:(lia) Hj) as E. pose proof (seg_at f' 0 32 j ltac:(lia) Hj) as E'.
  rewrite H, E in E'. cbn [Z.add] in E'. done.
Qed.
Lemma head_at4 f f' i : same_head f f' -> 32 <= blen f -> 32 <= blen f' -> 0 <= i <= 28 -> at4 f' i = at4 f i.
Proof.
  intros H L L' Hi. apply at4_eq. intros j Hj. apply head_at; [done|lia].
Qed.
Lemma head_seg f f' i n :
  same_head f f' -> 32 <= blen f -> 32 <= blen f' -> 0 <= i -> 0 <= n -> i + n <= 32 -> seg f' i n = seg f i n.
Proof.
  intros H L L' Hi Hn Hin. apply seg_ext; try lia. intros j Hj. apply head_at; [done|lia].
Qed.
Lemma head_eq f f' :
  same_head f f' -> 32 <= blen f -> 32 <= blen f' ->
  log_big f' = log_big f /\ log_size f' = log_size f /\ log_salt f' = log_salt f /\ log_cksum f' = log_cksum f.
Proof.
  intros H L L'. assert (Hb : log_big f' = log_big f) by (unfold log_big; by rewrite (head_at4 f f')).
  split; [done|]. split; [unfold log_size; by rewrite (head_at4 f f')|].
  split; [unfold log_salt; by rewrite (head_seg f f')|].
  unfold log_cksum. by rewrite Hb, (head_seg f f').
Qed.
(** A header that is complete. *)
Definition head_ok (f : bytes) : Prop :=
  Z.land (at4 f 0) 0xFFFFFFFE = WAL_MAGIC /\ log_size f = sz /\ log_cksum f = (at4 f 24, at4 f 28).
Lemma head_ok_eq f f' : same_head f f' -> 32 <= blen f -> 32 <= blen f' -> head_ok f -> head_ok f'.
Proof.
  intros H L L' (A & B & C). destruct (head_eq f f' H L L') as (_ & E2 & _ & E4).
  unfold head_ok. rewrite E2, E4, !(head_at4 f f') by (done || lia). done.
Qed.

Lemma changed_head lo hi f f' : changed lo hi f f' -> 32 <= blen f -> 32 <= lo -> same_head f f'.
Proof. intros C L Hlo. eapply seg_changed; [exact C|lia..]. Qed.

Lemma frame_changed lo hi f f' i :
  changed lo hi f f' -> 1 <= i -> walFrameOffset (i + 1) sz <= blen f ->
  walFrameOffset (i + 1) sz <= lo \/ hi <= walFrameOffset i sz ->
  frame_at f' sz i = frame_at f sz i /\ data_at f' sz i = data_at f sz i.
Proof.
  intros C Hi Hl Hout. rewrite foff_next in *. pose proof (foff_le 1 i Hi). rewrite (foff_eq 1) in *.
  unfold frame_at, data_at. unfold WAL_FRAME_HDRSIZE. split; eapply seg_changed; try exact C; lia.
Qed.

Lemma good_at_ext f f' i :
  same_head f f' -> 32 <= blen f -> 32 <= blen f' ->
  (i <> 1 -> frame_at f' sz (i - 1) = frame_at f sz (i - 1)) ->
  frame_at f' sz i = frame_at f sz i -> data_at f' sz i = data_at f sz i -> good_at f i -> good_at f' i.
Proof.
  intros H L L' Hp Hf Hd. destruct (head_eq f f' H L L') as (E1 & _ & E3 & E4).
  unfold good_at, ck_at. rewrite E1, E3, Hf, Hd. destruct (Z.eqb_spec (i - 1) 0); [by rewrite E4|].
  by rewrite Hp by lia.
Qed.

(** *** The changes *)

Lemma file_head_len f fs good : file_ok f fs good -> 32 <= blen f.
Proof.
  intros [_ Hl _ _ _]. unfold flen in *. pose proof (foff_le 1 (Z.of_nat (length fs) + 1) ltac:(lia)).
  rewrite (foff_eq 1) in *. lia.
Qed.

Lemma file_append f f' fs good e :
  let n := flen fs in
  file_ok f fs good -> changed (walFrameOffset (n + 1) sz) (walFrameOffset (n + 2) sz) f f' ->
  bytes_ok f' -> walFrameOffset (n + 2) sz <= blen f' -> entry f' (n + 1) = e ->
  (good = n -> good_at f' (n + 1)) ->
  same_head f f' /\ file_ok f' (fs ++ [e]) (if good =? n then n + 1 else good).
Proof.
  intros n F C Hb Hl He Hg. pose proof (file_head_len _ _ _ F) as H32. destruct F as [_ Fl Fe Fr Fg]. fold n in Fl, Fe, Fr.
  assert (Hn : 0 <= n) by (unfold n, flen; lia). pose proof (foff_le 1 (n + 1) ltac:(lia)) as H1. rewrite (foff_eq 1) in H1.
  assert (Hh : same_head f f') by (eapply changed_head; [exact C|done|lia]). split; [done|].
  assert (Hfr : forall i, 1 <= i <= n -> frame_at f' sz i = frame_at f sz i /\ data_at f' sz i = data_at f sz i).
  { intros i Hi. pose proof (foff_le (i + 1) (n + 1) ltac:(lia)). eapply frame_changed; [exact C|lia..]. }
  assert (Hlen : flen (fs ++ [e]) = n + 1) by (unfold n; len).
  assert (H32' : 32 <= blen f') by (destruct C; lia).
  split; [done|rewrite Hlen; by replace (n + 1 + 1) with (n + 2) by lia|..]; rewrite ?Hlen.
  - intros i Hi. destruct (decide (i = n + 1)) as [->|Hne].
    + rewrite He. replace (Z.to_nat (n + 1 - 1)) with (length fs) by (unfold n, flen; lia).
      by rewrite lookup_app_r, Nat.sub_diag by lia.
    + rewrite lookup_app_l by (unfold n, flen in *; lia). rewrite Fe by lia.
      destruct (Hfr i) as [E1 E2]; [lia|]. unfold entry. by rewrite E1, E2.
  - case_match; lia.
  - intros i Hi. destruct (Z.eqb_spec good n) as [->|Hne].
    + destruct (decide (i = n + 1)) as [->|]; [by apply Hg|].
      apply (good_at_ext f); try done; [intros; apply Hfr; lia|apply Hfr; lia|apply Hfr; lia|apply Fg; lia].
    + apply (good_at_ext f); try done; [intros; apply Hfr; lia|apply Hfr; lia|apply Hfr; lia|apply Fg; lia].
Qed.

Lemma file_over f f' fs good w pg nt d0 d :
  file_ok f fs good -> 1 <= w <= flen fs -> fs !! Z.to_nat (w - 1) = Some (pg, nt, d0) ->
  changed (walFrameOffset w sz + 24) (walFrameOffset (w + 1) sz) f f' -> bytes_ok f' -> data_at f' sz w = d ->
  same_head f f' /\ file_ok f' (<[Z.to_nat (w - 1) := (pg, nt, d)]> fs) (Z.min good (w - 1)).
Proof.
  intros F Hw He C Hb Hd. pose proof (file_head_len _ _ _ F) as H32. destruct F as [_ Fl Fe Fr Fg].
  pose proof (foff_le 1 w ltac:(lia)) as H1. rewrite (foff_eq 1) in H1.
  assert (Hh : same_head f f') by (eapply changed_head; [exact C|done|lia]). split; [done|].
  assert (H32' : 32 <= blen f') by (destruct C; lia).
  assert (Hfr : forall i, 1 <= i <= flen fs -> i <> w ->
    frame_at f' sz i = frame_at f sz i /\ data_at f' sz i = data_at f sz i).
  { intros i Hi Hne. pose proof (foff_le (i + 1) (flen fs + 1) ltac:(lia)). eapply frame_changed; [exact C|lia|lia|].
    destruct (Z.lt_ge_cases i w); [left; pose proof (foff_le (i + 1) w ltac:(lia)); lia|right; apply foff_le; lia]. }
  assert (Hfw : frame_at f' sz w = frame_at f sz w).
  { pose proof (foff_le (w + 1) (flen fs + 1) ltac:(lia)). pose proof (foff_next w). unfold frame_at, WAL_FRAME_HDRSIZE.
    eapply seg_changed; [exact C|lia..]. }
  assert (Hlen : flen (<[Z.to_nat (w - 1) := (pg, nt, d)]> fs) = flen fs) by (unfold flen; by rewrite length_insert).
  split; rewrite ?Hlen; [done|destruct C; lia| |lia|].
  - intros i Hi. destruct (decide (i = w)) as [->|Hne].
    + rewrite list_lookup_insert_eq by (unfold flen in *; lia). f_equal.
      rewrite Fe in He by lia. unfold entry in *. rewrite Hfw, Hd. by injection He as -> -> _.
    + rewrite list_lookup_insert_ne by lia. rewrite Fe by lia. destruct (Hfr i) as [E1 E2]; [lia..|].
      unfold entry. by rewrite E1, E2.
  - intros i Hi. apply (good_at_ext f); try done; [intros; apply Hfr; lia|apply Hfr; lia|apply Hfr; lia|apply Fg; lia].
Qed.

Lemma file_reseal f f' fs w :
  file_ok f fs (w - 1) -> 1 <= w <= flen fs ->
  changed (walFrameOffset w sz) (walFrameOffset w sz + 24) f f' -> bytes_ok f' ->
  entry f' w = entry f w -> good_at f' w -> same_head f f' /\ file_ok f' fs w.
Proof.
  intros F Hw C Hb He Hg. pose proof (file_head_len _ _ _ F) as H32. destruct F as [_ Fl Fe Fr Fg].
  pose proof (foff_le 1 w ltac:(lia)) as H1. rewrite (foff_eq 1) in H1.
  assert (Hh : same_head f f') by (eapply changed_head; [exact C|done|lia]). split; [done|].
  assert (H32' : 32 <= blen f') by (destruct C; lia).
  assert (Hfr : forall i, 1 <= i <= flen fs -> i <> w ->
    frame_at f' sz i = frame_at f sz i /\ data_at f' sz i = data_at f sz i).
  { intros i Hi Hne. pose proof (foff_le (i + 1) (flen fs + 1) ltac:(lia)). eapply frame_changed; [exact C|lia|lia|].
    destruct (Z.lt_ge_cases i w); [left; apply foff_le; lia|right; pose proof (foff_lt w i ltac:(lia)); lia]. }
  split; [done|destruct C; lia| |lia|].
  - intros i Hi. rewrite Fe by lia. destruct (decide (i = w)) as [->|Hne]; [by rewrite He|].
    destruct (Hfr i) as [E1 E2]; [lia..|]. unfold entry. by rewrite E1, E2.
  - intros i Hi. destruct (decide (i = w)) as [->|Hne]; [done|].
    apply (good_at_ext f); try done; [intros; apply Hfr; lia|apply Hfr; lia|apply Hfr; lia|apply Fg; lia].
Qed.

(** *** What a recovery reads *)

Definition rec_at (f : bytes) (i : Z) : frec := (at4 (frame_at f sz i) 0, at4 (frame_at f sz i) 4, ck_at f i).

Lemma scan_good n m f :
  (forall i, 1 <= i <= Z.of_nat n -> good_at f i) ->
  scan (n + m) f sz (log_big f) (log_salt f) 1 (log_cksum f)
  = map (rec_at f) (seqZ 1 (Z.of_nat n)) ++ scan m f sz (log_big f) (log_salt f) (Z.of_nat n + 1) (ck_at f (Z.of_nat n)).
Proof.
  revert m. induction n as [|n IH]; intros m Hg.
  { change (ck_at f (Z.of_nat 0)) with (log_cksum f). change (Z.of_nat 0 + 1) with 1. reflexivity. }
  replace (S n + m)%nat with (n + S m)%nat by lia. rewrite IH by (intros; apply Hg; lia).
  cbn [scan]. cbv zeta. specialize (Hg (Z.of_nat n + 1) ltac:(lia)). unfold good_at in Hg.
  replace (Z.of_nat n + 1 - 1) with (Z.of_nat n) in Hg by lia. rewrite decide_True by done.
  replace (Z.of_nat (S n)) with (Z.of_nat n + 1) by lia. rewrite (seqZ_app _ (Z.of_nat n) 1) by lia.
  assert (E : forall x, seqZ x 1 = [x]) by (intros x; unfold seqZ; cbn; f_equal; lia).
  rewrite E, map_app, <- app_assoc. cbn [map app]. f_equal. unfold rec_at, ck_at.
  replace (1 + Z.of_nat n) with (Z.of_nat n + 1) by lia. by destruct (Z.eqb_spec (Z.of_nat n + 1) 0); [lia|].
Qed.
End Frames.

(** ** The newest content of a page *)

Definition newest (fs : list fent) (k : Z) : option bytes :=
  fold_left (fun acc e => if decide (fe_page e = k) then Some (snd e) else acc) fs None.

Lemma newest_snoc fs e k : newest (fs ++ [e]) k = if decide (fe_page e = k) then Some (snd e) else newest fs k.
Proof. unfold newest. by rewrite fold_left_app. Qed.

Lemma newest_tail l k acc :
  (forall e, e ∈ l -> fe_page e <> k) ->
  fold_left (fun acc e => if decide (fe_page e = k) then Some (snd e) else acc) l acc = acc.
Proof.
  revert acc. induction l as [|e l IH]; intros acc H; [done|]. cbn [fold_left].
  rewrite decide_False by (apply H, list.elem_of_cons; by left). apply IH. intros e' He'.
  apply H, list.elem_of_cons. by right.
Qed.

Lemma newest_insert fs i pg nt d0 d k :
  fs !! i = Some (pg, nt, d0) -> (forall j e, (i < j)%nat -> fs !! j = Some e -> fe_page e <> pg) ->
  newest (<[i := (pg, nt, d)]> fs) k = if decide (pg = k) then Some d else newest fs k.
Proof.
  intros Hi Hlast. rewrite insert_take_drop by (by apply lookup_lt_Some in Hi).
  replace (newest fs k) with (newest (take i fs ++ (pg, nt, d0) :: drop (S i) fs) k) by (by rewrite take_drop_middle).
  assert (Hd : forall e, e ∈ drop (S i) fs -> fe_page e <> pg).
  { intros e He. apply list_elem_of_lookup in He as [j Hj]. rewrite lookup_drop in Hj.
    apply (Hlast (S i + j)%nat); [lia|done]. }
  unfold newest. rewrite !fold_left_app. cbn [fold_left]. change (fe_page (pg, nt, d)) with pg.
  change (fe_page (pg, nt, d0)) with pg. case_decide as E; [|done]. subst k. by rewrite newest_tail.
Qed.
