(* ===== verification/WalTx.v ===== *)
(** * Steps of the writers of the log

    What the requests and the loops of [WalWrite] do to the connection and to
    the file, seen as the list of frames of [WalFile]. *)
From S2P Require Import Prelude Bits Bytes Varint Wal WalIndex WalRecover WalRecovery WalHdr WalWrite WalFile.

(** ** What a step leaves alone *)

Definition page_of (p : PgHdr) : Z * bytes := (pgno p, pData p).

(** Everything but the file, the running checksum, the first frame to seal
    again, the flags of the pages and the mapping of the index, which may grow. *)
Record steady (c c' : conn) : Prop := {
  sd_wal : exists k ck a ro, c_wal c' = set_iReCksum k (set_cksum ck (set_readOnly ro (set_apWiData a (c_wal c))));
  sd_hdr : hdr_kept (c_wi c) (c_wi c');
  sd_ptr : ptr_kept (c_wi c) (c_wi c');
  sd_index log : index_ok log (c_wi c) -> index_ok log (c_wi c');
  sd_pages : map page_of (pList c') = map page_of (pList c);
  sd_held : r_held (c_rs c') = r_held (c_rs c) /\ c_shared c' = c_shared c;
  sd_conf : padToSectorBoundary c' = padToSectorBoundary c /\ mxWalSize c' = mxWalSize c
    /\ syncHeader c' = syncHeader c /\ truncateOnCommit c' = truncateOnCommit c;
}.

Lemma steady_refl c : steady c c.
Proof.
  split; [|apply hdr_kept_refl|by intros ??|done..].
  exists (iReCksum (c_wal c)), (aFrameCksum (hdr (c_wal c))), (apWiData (c_wal c)), (readOnly (c_wal c)).
  by destruct (c_wal c) as [???????? [] ???].
Qed.
Lemma steady_trans c1 c2 c3 : steady c1 c2 -> steady c2 c3 -> steady c1 c3.
Proof.
  intros [(k & ck & a & ro & A) B C D E F G] [(k' & ck' & a' & ro' & A') B' C' D' E' F' G']. split.
  - exists k', ck', a', ro'. by rewrite A', A.
  - by eapply hdr_kept_trans.
  - intros h ptr H1 H2. apply C'; [by apply C|done].
  - auto.
  - congruence.
  - by destruct F, F'; split; congruence.
  - destruct G as (? & ? & ? & ?), G' as (? & ? & ? & ?). split_and!; congruence.
Qed.

Lemma steady_fields c c' :
  steady c c' ->
  szPage (c_wal c') = szPage (c_wal c) /\ readLock (c_wal c') = readLock (c_wal c) /\
  exclusiveMode (c_wal c') = exclusiveMode (c_wal c) /\ minFrame (c_wal c') = minFrame (c_wal c) /\
  nCkpt (c_wal c') = nCkpt (c_wal c) /\ bShmUnreliable (c_wal c') = bShmUnreliable (c_wal c) /\
  writeLock (c_wal c') = writeLock (c_wal c) /\
  exists ck, hdr (c_wal c') = hdr_set_cksum ck (hdr (c_wal c)).
Proof. intros [(k & ck & a & ro & E) _ _ _ _ _ _]. rewrite E. split_and!; try done. by exists ck. Qed.

Definition with_wal (p : Wal) (c : conn) : conn := set_rs (set_wi (set_wal p (c_wi c)) (c_rs c)) c.
Lemma wp_set_conn_wal f Q c : Q (Ret tt) (with_wal (f (c_wal c)) c) -> wp (set_conn_wal f) Q c.
Proof. done. Qed.

(** A step that only changes the fields of the log [steady] allows. *)
Lemma steady_set_wal c p :
  (exists k ck, p = set_iReCksum k (set_cksum ck (c_wal c))) ->
  steady c (with_wal p c).
Proof.
  intros (k & ck & ->). unfold c_wal, c_wi. split; [| |by intros ??| |done..].
  - exists k, ck, (apWiData (wal (r_wi (c_rs c)))), (readOnly (wal (r_wi (c_rs c)))). cbn. unfold c_wal, c_wi.
    by destruct (wal (r_wi (c_rs c))).
  - intros g Hg. exists g. split; [|done]. unfold c_wi in *. cbn. by rewrite view_set_wal.
  - intros log I. cbn. by apply index_set_wal.
Qed.

(** *** The file *)

Definition with_io (f : bytes) (c : conn) : conn := set_rs (count_io (set_file f (c_rs c))) c.
Lemma steady_io f c : steady c (with_io f c).
Proof. destruct (steady_refl c) as [A B C D E F G]. by split. Qed.
Lemma steady_count c : steady c (set_rs (count_io (c_rs c)) c).
Proof. destruct (steady_refl c) as [A B C D E F G]. by split. Qed.
Lemma steady_synced d c : steady c (set_synced d c).
Proof. destruct (steady_refl c) as [A B C D E F G]. by split. Qed.

Section Steps.
Context (SQLITE_BIGENDIAN : bool) (mallocOk : nat -> bool) (shmRc ioRc : nat -> Z) (lockRc : nat -> Z -> Z -> Z)
  (partial : nat -> Z) (osSectorSize : Z) (randomness : nat -> bytes).

Lemma wp_write d off Q c :
  (forall rc f', (rc = SQLITE_OK -> f' = log_write (c_file c) off d) ->
    (exists k, f' = log_write (c_file c) off (take k d)) -> Q (Ret rc) (with_io f' c)) ->
  wp (sqlite3OsWrite ioRc partial d off) Q c.
Proof.
  intros H. unfold wp, sqlite3OsWrite. cbn [fst snd]. apply H; [|by eexists].
  intros ->. rewrite Z.eqb_refl. unfold blen. rewrite Nat2Z.id, take_ge by done. done.
Qed.
Lemma wp_sync flags Q c :
  (forall rc c', (rc = SQLITE_OK -> flags <> 0 -> synced c' = c_file c) -> (rc <> SQLITE_OK -> synced c' = synced c) ->
     c_file c' = c_file c -> c_wal c' = c_wal c -> pList c' = pList c -> steady c c' -> Q (Ret rc) c') ->
  wp (sqlite3OsSync ioRc flags) Q c.
Proof.
  intros H. unfold wp, sqlite3OsSync. destruct (Z.eqb_spec flags 0); [by apply H; try done; apply steady_refl|]. cbn [fst snd]. destruct (Z.eqb_spec (ioRc (r_ios (c_rs c))) SQLITE_OK).
  - apply H; try done. eapply steady_trans; [apply steady_count|apply steady_synced].
  - apply H; try done. apply steady_count.
Qed.

Lemma log_write_app f off d1 d2 : 0 <= off -> log_write (log_write f off d1) (off + blen d1) d2 = log_write f off (d1 ++ d2).
Proof.
  intros Hoff. pose proof (blen_nonneg d1). pose proof (blen_nonneg d2). pose proof (blen_nonneg f).
  assert (Hb : blen (d1 ++ d2) = blen d1 + blen d2) by len.
  apply bytes_ext.
  - rewrite !log_write_len by lia. rewrite Hb.
    destruct (Z.eqb_spec (blen d1) 0), (Z.eqb_spec (blen d2) 0), (Z.eqb_spec (blen d1 + blen d2) 0); lia.
  - intros j Hj. rewrite !log_write_at by lia. rewrite Hb.
    destruct (Z.leb_spec off j), (Z.leb_spec (off + blen d1) j), (Z.ltb_spec j (off + blen d1)),
      (Z.ltb_spec j (off + blen d1 + blen d2)), (Z.ltb_spec j (off + (blen d1 + blen d2))); cbn [andb]; try lia; try done.
    + unfold bat. rewrite !(proj2 (Z.leb_le 0 _)) by lia. rewrite lookup_app_r by (unfold blen in *; lia).
      do 2 f_equal. unfold blen in *. lia.
    + unfold bat. rewrite !(proj2 (Z.leb_le 0 _)) by lia. by rewrite lookup_app_l by (unfold blen in *; lia).
Qed.
Lemma take_ok k d : bytes_ok d -> bytes_ok (take k d).
Proof. apply Forall_take. Qed.
Lemma blen_take_le k (d : bytes) : blen (take k d) <= blen d.
Proof. unfold blen. rewrite length_take. lia. Qed.

(** After a request on bytes [off..hi-1]. *)
Definition wrote (off hi : Z) (c c' : conn) : Prop :=
  steady c c' /\ c_wal c' = c_wal c /\ pList c' = pList c /\ changed off hi (c_file c) (c_file c') /\ bytes_ok (c_file c').

Lemma walWriteToLog_ok w d iAmt off c :
  bytes_ok (c_file c) -> bytes_ok d -> 0 <= off -> blen d = iAmt -> 0 < iAmt < 2 ^ 31 ->
  wp (walWriteToLog ioRc partial w d iAmt off) (returns (fun rc c' =>
    wrote off (off + iAmt) c c' /\
    (rc = SQLITE_OK -> c_file c' = log_write (c_file c) off d /\
       (off < iSyncPoint w <= off + iAmt -> WAL_SYNC_FLAGS (syncFlags w) <> 0 -> changed off (off + iAmt) (c_file c) (synced c') /\ bytes_ok (synced c'))) /\
    (~ off < iSyncPoint w <= off + iAmt -> synced c' = synced c))) c.
Proof.
  intros Hf Hd Hoff <- Hamt. unfold walWriteToLog.
  destruct (bsub_in d 0 (blen d)) as [d0 E]; [lia..|]. rewrite E. apply bsub_seg in E as ->.
  rewrite seg_all. do 2 wp_step. unfold after at 1.
  assert (Hch : forall k, changed off (off + blen d) (c_file c) (log_write (c_file c) off (take k d))).
  { intros k. apply changed_write; [done|lia|]. pose proof (blen_take_le k d). lia. }
  assert (Hch' : changed off (off + blen d) (c_file c) (log_write (c_file c) off d)) by (apply changed_write; lia).
  destruct ((off <? iSyncPoint w) && (iSyncPoint w <=? off + blen d)) eqn:Hs.
  2:{ assert (Hno : ~ off < iSyncPoint w <= off + blen d).
      { apply andb_false_iff in Hs. rewrite Z.ltb_ge, Z.leb_gt in Hs. lia. }
      apply wp_write. intros rc f' H1 [k H2]. cbn [returns okp]. split; [|split; [|done]].
      - split; [apply steady_io|]. split; [done|]. split; [done|]. cbn. subst f'. split; [done|].
        apply log_write_ok; [done|by apply take_ok].
      - intros Hrc. cbn. split; [by apply H1|done]. }
  apply andb_true_iff in Hs. rewrite Z.ltb_lt, Z.leb_le in Hs.
  rewrite (i32_small (iSyncPoint w - off)) by lia.
  set (k := iSyncPoint w - off). assert (Hk : 0 < k <= blen d) by (unfold k; lia).
  destruct (bsub_in d 0 k) as [d1 E1]; [lia..|]. rewrite E1. pose proof (bsub_len _ _ _ _ E1) as L1.
  assert (Ok1 : bytes_ok d1) by (by eapply (bsub_ok d)). apply bsub_seg in E1.
  do 2 wp_step. unfold after at 1. wp_step. apply wp_write. intros rc f' H1 [k' H2].
  unfold after at 1.
  assert (Hd1 : blen d1 <= blen d) by lia.
  assert (C1 : changed off (off + blen d) (c_file c) f' /\ bytes_ok f').
  { subst f'. split; [|apply log_write_ok; [done|by apply take_ok]].
    apply changed_write; [done|lia|]. pose proof (blen_take_le k' d1). lia. }
  destruct C1 as [C1 O1]. destruct (Z.eqb_spec rc SQLITE_OK) as [->|Hrc]; cbn [negb].
  2:{ wp_go. cbn [returns okp]. split; [|split; [done|lia]]. split; [apply steady_io|]. split; [done|]. split; [done|]. by split. }
  specialize (H1 eq_refl). wp_step. apply wp_sync. intros rc c2 S1 S2 F2 W2 P2 St2. unfold after at 1.
  assert (Wr2 : wrote off (off + blen d) c c2).
  { split; [by eapply steady_trans; [apply steady_io|]|]. rewrite F2, W2, P2. split; [done|]. split; [done|]. by split. }
  assert (Hall : d1 ++ seg d k (blen d - k) = d).
  { rewrite E1. rewrite <- (Z.add_0_l k) at 2. rewrite <- seg_app by lia.
    replace (k + (blen d - k)) with (blen d) by lia. apply seg_all. }
  destruct (Z.eqb_spec rc SQLITE_OK) as [->|Hrc]; cbn [negb].
  2:{ rewrite orb_true_r. wp_go. cbn [returns okp]. split; [done|]. split; [done|lia]. }
  rewrite orb_false_r. specialize (S1 eq_refl). destruct (Z.eqb_spec (blen d - k) 0) as [Hz|Hz].
  - wp_go. cbn [returns okp]. split; [done|]. split; [|lia]. intros _.
    assert (d1 = d) as Hd1d.
    { rewrite Hz in Hall. unfold seg in Hall. cbn in Hall. by rewrite app_nil_r in Hall. }
    rewrite F2. cbn. rewrite Hd1d in H1. split; [exact H1|]. intros _ Hfl. by rewrite (S1 Hfl).
  - destruct (bsub_in d k (blen d - k)) as [d2 E2]; [lia..|]. rewrite E2.
    pose proof (bsub_len _ _ _ _ E2) as L2. assert (Ok2 : bytes_ok d2) by (by eapply (bsub_ok d)).
    apply bsub_seg in E2. do 2 wp_step. unfold after at 1. apply wp_write. intros rc f2 H3 [k2 H4].
    cbn [returns okp]. rewrite F2 in *. cbn [c_file with_io] in *.
    assert (C2 : changed off (off + blen d) (c_file c) f2 /\ bytes_ok f2).
    { subst f2. split; [|apply log_write_ok; [done|by apply take_ok]].
      eapply fchanged_trans; [exact C1|]. apply changed_write; [lia|lia|]. pose proof (blen_take_le k2 d2). lia. }
    split; [|split; [|lia]].
    + destruct Wr2 as (A & B & P & _ & _). split; [by eapply steady_trans; [|apply steady_io]|]. split; [done|]. split; [done|]. exact C2.
    + intros Hrc. split; [|cbn; intros _ Hfl; by rewrite (S1 Hfl)]. change (c_file (with_io f2 c2)) with f2. rewrite (H3 Hrc). change (c_file (with_io f' c)) with f'. rewrite H1.
      replace (off + k) with (off + blen d1) by lia. rewrite log_write_app by done. f_equal.
      by rewrite E2.
Qed.

(** ** One frame *)

Context (sz : Z).
Hypothesis (Hsz : 512 <= sz <= SQLITE_MAX_PAGE_SIZE) (Hal : sz mod 8 = 0).

Lemma encode_unsealed p pg nt d :
  iReCksum p <> 0 -> 0 <= pg < 2 ^ 32 -> 0 <= nt < 2 ^ 32 ->
  exists aFrame, walEncodeFrame SQLITE_BIGENDIAN p pg nt d (zeros WAL_FRAME_HDRSIZE) = Some (p, aFrame) /\
    bytes_ok aFrame /\ blen aFrame = 24 /\ at4 aFrame 0 = pg /\ at4 aFrame 4 = nt.
Proof.
  intros Hre Hp Ht. unfold walEncodeFrame, WAL_FRAME_HDRSIZE. pose proof (zeros_len 24 ltac:(lia)) as L0.
  destruct (Put4byte_in (zeros 24) 0 pg) as [f1 E1]; [lia..|].
  pose proof (Put4byte_len _ _ _ _ E1) as L1. pose proof (Put4byte_ok _ _ _ _ (zeros_ok 24) E1) as O1.
  destruct (Put4byte_in f1 4 nt) as [f2 E2]; [lia..|].
  pose proof (Put4byte_len _ _ _ _ E2) as L2. pose proof (Put4byte_ok _ _ _ _ O1 E2) as O2.
  rewrite E1. cbn [mbind option_bind]. rewrite E2. cbn [mbind option_bind].
  destruct (Z.eqb_spec (iReCksum p) 0); [done|]. unfold bzero. cbn [Z.leb Z.compare].
  destruct (blit_in f2 8 (zeros 16)) as [f3 E3]; [lia|rewrite zeros_len; lia|].
  rewrite E3. cbn [mbind option_bind]. exists f3. split; [done|].
  pose proof (blit_len _ _ _ _ E3) as L3. split; [by eapply blit_ok; [| |exact E3]; [done|apply zeros_ok]|].
  split; [lia|]. assert (H23 : forall j, j < 8 -> bat f3 j = bat f2 j).
  { intros j Hj. rewrite (blit_at _ _ _ _ _ E3). destruct (Z.leb_spec 8 j); [lia|done]. }
  split.
  - rewrite (at4_eq f2 f3) by (intros; apply H23; lia). rewrite (Put4byte_at4_other _ _ _ _ _ E2) by lia.
    by apply (Put4byte_at4 _ _ _ _ E1).
  - rewrite (at4_eq f2 f3) by (intros; apply H23; lia). by apply (Put4byte_at4 _ _ _ _ E2).
Qed.

(** The connection writes the log that is in the file. *)
Record conn_log (c : conn) : Prop := {
  cl_size : szPage (c_wal c) = sz;
  cl_big : bigEndCksum (hdr (c_wal c)) = log_big (c_file c);
  cl_salt : aSalt (hdr (c_wal c)) = log_salt (c_file c);
  cl_head : head_ok sz (c_file c);
}.
(** The file holds [fs]; all frames are valid, or those before [iReCksum]. *)
Record at_frame (fs : list fent) (c : conn) : Prop := {
  af_file : file_ok sz (c_file c) fs (if iReCksum (c_wal c) =? 0 then flen fs else iReCksum (c_wal c) - 1);
  af_conn : conn_log c;
  af_re : 0 <= iReCksum (c_wal c) <= flen fs;
  af_cks : iReCksum (c_wal c) = 0 -> aFrameCksum (hdr (c_wal c)) = ck_at sz (c_file c) (flen fs);
}.

Lemma salt_ok f fs good : file_ok sz f fs good -> blen (log_salt f) = 8 /\ bytes_ok (log_salt f).
Proof.
  intros F. pose proof (file_head_len sz ltac:(lia) f fs good F). split.
  - unfold log_salt, blen. rewrite seg_len by lia. done.
  - apply Forall_take, Forall_drop, F.
Qed.
Lemma cks_ok f fs good i : file_ok sz f fs good -> 0 <= i ->
  0 <= fst (ck_at sz f i) < 2 ^ 32 /\ 0 <= snd (ck_at sz f i) < 2 ^ 32.
Proof.
  intros F Hi. pose proof (file_head_len sz ltac:(lia) f fs good F). unfold ck_at.
  destruct (Z.eqb_spec i 0).
  - apply (cksum_range _ 3); [|done|done]. rewrite seg_len by lia. done.
  - assert (bytes_ok (frame_at f sz i)) by (apply Forall_take, Forall_drop, F). split; by apply at4_range.
Qed.

(** What the next frame is written as. *)
Lemma encode_next fs c pg nt d :
  at_frame fs c -> 0 < pg < 2 ^ 32 -> 0 <= nt < 2 ^ 32 -> blen d = sz -> bytes_ok d ->
  exists p aFrame, walEncodeFrame SQLITE_BIGENDIAN (c_wal c) pg nt d (zeros WAL_FRAME_HDRSIZE) = Some (p, aFrame) /\
    bytes_ok aFrame /\ blen aFrame = 24 /\ at4 aFrame 0 = pg /\ at4 aFrame 4 = nt /\
    (exists ck, p = set_cksum ck (c_wal c)) /\
    (iReCksum (c_wal c) = 0 ->
       good_frame (log_big (c_file c)) (log_salt (c_file c)) (ck_at sz (c_file c) (flen fs)) d aFrame /\
       aFrameCksum (hdr p) = (at4 aFrame 16, at4 aFrame 20)).
Proof.
  intros [F [C1 C2 C3 _] _ Hck] Hp Ht Hl Hd. destruct (Z.eqb_spec (iReCksum (c_wal c)) 0) as [Hre|Hre].
  - destruct (walEncodeFrame_ok SQLITE_BIGENDIAN (c_wal c) pg nt d (zeros WAL_FRAME_HDRSIZE))
      as (aFrame & ck & E & O & L & A0 & A4 & As & Hc & Ac); try done.
    { split; try done; [apply zeros_ok|lia|lia|by rewrite C1]. }
    { rewrite C3. eapply salt_ok, F. }
    { rewrite C3. eapply salt_ok, F. }
    { rewrite Hck by done. eapply cks_ok; [exact F|unfold flen; lia]. }
    { rewrite Hck by done. eapply cks_ok; [exact F|unfold flen; lia]. }
    exists (set_cksum ck (c_wal c)), aFrame. split; [done|]. split; [done|]. split; [done|]. split; [done|]. split; [done|].
    split; [by eexists|]. intros _. split; [|by rewrite Ac].
    split; [by rewrite As, C3|]. split; [lia|]. rewrite Ac, Hc, C2, Hck by done. done.
  - destruct (encode_unsealed (c_wal c) pg nt d Hre ltac:(lia) Ht) as (aFrame & E & O & L & A0 & A4).
    exists (c_wal c), aFrame. split_and!; try done. exists (aFrameCksum (hdr (c_wal c))).
    by destruct (c_wal c) as [???????? [] ???].
Qed.

Definition page_ok (p : PgHdr) : Prop := 0 < pgno p < 2 ^ 32 /\ blen (pData p) = sz /\ bytes_ok (pData p).

(** The bytes of frame [n + 1] once its header and content are written. *)
Lemma frame_written f n aFrame d :
  0 <= n -> blen aFrame = 24 -> blen d = sz -> bytes_ok f -> bytes_ok aFrame -> bytes_ok d ->
  let f' := log_write f (walFrameOffset (n + 1) sz) (aFrame ++ d) in
  frame_at f' sz (n + 1) = aFrame /\ data_at f' sz (n + 1) = d /\ walFrameOffset (n + 2) sz <= blen f' /\
  changed (walFrameOffset (n + 1) sz) (walFrameOffset (n + 2) sz) f f' /\ bytes_ok f'.
Proof.
  intros Hn La Ld Of Oa Od f'. pose proof (foff_next sz (n + 1)) as Hnext. replace (n + 1 + 1) with (n + 2) in Hnext by lia.
  pose proof (foff_le sz ltac:(lia) 1 (n + 1) ltac:(lia)) as H1. rewrite (foff_eq sz 1) in H1.
  set (off := walFrameOffset (n + 1) sz) in *.
  assert (Hl : blen (aFrame ++ d) = 24 + sz) by len.
  assert (Hlen : walFrameOffset (n + 2) sz <= blen f').
  { unfold f'. rewrite log_write_len by lia. case_match; lia. }
  assert (Hseg : seg f' off (24 + sz) = aFrame ++ d) by (rewrite <- Hl; apply seg_write; lia).
  rewrite seg_app in Hseg by lia. apply app_inj_1 in Hseg as [E1 E2].
  2:{ rewrite seg_len by lia. unfold blen in La. lia. }
  split; [done|]. split; [done|]. split; [done|]. split; [apply changed_write; lia|].
  apply log_write_ok; [done|]. by apply Forall_app_2.
Qed.

Lemma at_frame_next fs c c' pw pg nt d aFrame :
  at_frame fs c -> blen aFrame = 24 -> bytes_ok aFrame -> blen d = sz -> bytes_ok d ->
  at4 aFrame 0 = pg -> at4 aFrame 4 = nt -> (exists ck, pw = set_cksum ck (c_wal c)) ->
  (iReCksum (c_wal c) = 0 ->
     good_frame (log_big (c_file c)) (log_salt (c_file c)) (ck_at sz (c_file c) (flen fs)) d aFrame /\
     aFrameCksum (hdr pw) = (at4 aFrame 16, at4 aFrame 20)) ->
  c_wal c' = pw -> c_file c' = log_write (c_file c) (walFrameOffset (flen fs + 1) sz) (aFrame ++ d) ->
  at_frame (fs ++ [(pg, nt, d)]) c'.
Proof.
  intros [F [C1 C2 C3 C4] Hre Hck] La Oa Ld Od A0 A4 [ck Hpw] Hgood W E. set (n := flen fs) in *.
  assert (Hn : 0 <= n) by (unfold n, flen; lia). pose proof (fk_bytes _ _ _ _ F) as Of.
  destruct (frame_written (c_file c) n aFrame d Hn La Ld Of Oa Od) as (Ff & Fd & Fl & Fc & Fo). rewrite <- E in *.
  pose proof (file_head_len sz ltac:(lia) _ _ _ F) as H32.
  pose proof (foff_le sz ltac:(lia) 1 (n + 1) ltac:(lia)) as H1. rewrite (foff_eq sz 1) in H1.
  assert (Hh : same_head (c_file c) (c_file c')) by (eapply changed_head; [exact Fc|done|lia]).
  destruct (head_eq _ _ Hh H32) as (Eb & _ & Es & Ec); [destruct Fc; lia|].
  assert (Hk : ck_at sz (c_file c') n = ck_at sz (c_file c) n).
  { unfold ck_at. destruct (Z.eqb_spec n 0); [done|]. pose proof (foff_le sz ltac:(lia) (n + 1) (n + 1) ltac:(lia)).
    destruct (frame_changed sz ltac:(lia) _ _ _ _ n Fc) as [-> _]; [lia|apply (fk_len _ _ _ _ F)|lia|done]. }
  assert (Hlen : flen (fs ++ [(pg, nt, d)]) = n + 1) by (unfold n; len).
  assert (Hre' : iReCksum (c_wal c') = iReCksum (c_wal c)) by (rewrite W, Hpw; done).
  destruct (file_append sz ltac:(lia) (c_file c) (c_file c') fs _ (pg, nt, d) F Fc Fo Fl) as [_ Fnew].
  { fold n. unfold entry. rewrite Ff, Fd. by rewrite A0, A4. }
  { fold n. intros Hg. destruct (Z.eqb_spec (iReCksum (c_wal c)) 0) as [H0|H0]; [|lia].
    destruct (Hgood H0) as [G _]. unfold good_at. replace (n + 1 - 1) with n by lia. by rewrite Eb, Es, Hk, Ff, Fd. }
  fold n in Fnew. split.
  - rewrite Hre', Hlen. destruct (Z.eqb_spec (iReCksum (c_wal c)) 0) as [H0|H0].
    + by rewrite Z.eqb_refl in Fnew.
    + destruct (Z.eqb_spec (iReCksum (c_wal c) - 1) n); [lia|done].
  - split; rewrite ?W, ?Hpw; [done|by rewrite Eb|by rewrite Es|by eapply head_ok_eq; [exact Hh|lia|destruct Fc; lia|]].
  - rewrite Hre', Hlen. lia.
  - rewrite Hre', Hlen. intros H0. destruct (Hgood H0) as [_ G]. rewrite W, G. unfold ck_at.
    destruct (Z.eqb_spec (n + 1) 0); [lia|]. by rewrite Ff.
Qed.

Lemma walWriteOneFrame_ok w i p nt fs c :
  at_frame fs c -> pList c !! i = Some p -> page_ok p -> 0 <= nt < 2 ^ 32 -> w_szPage w = sz ->
  let n := flen fs in
  let off := walFrameOffset (n + 1) sz in
  let next := walFrameOffset (n + 2) sz in
  wp (walWriteOneFrame SQLITE_BIGENDIAN ioRc partial w i nt off) (returns (fun rc c' =>
    steady c c' /\ pList c' = pList c /\ iReCksum (c_wal c') = iReCksum (c_wal c) /\
    changed off next (c_file c) (c_file c') /\ bytes_ok (c_file c') /\
    (rc = SQLITE_OK -> at_frame (fs ++ [(pgno p, nt, pData p)]) c' /\
      (off < iSyncPoint w <= next -> WAL_SYNC_FLAGS (syncFlags w) <> 0 -> changed off next (c_file c) (synced c') /\ bytes_ok (synced c'))) /\
    (~ off < iSyncPoint w <= next -> synced c' = synced c))) c.
Proof.
  intros A Hi (Hpg & Hl & Hd) Hnt Hw n off next. unfold walWriteOneFrame.
  destruct (encode_next fs c (pgno p) nt (pData p) A Hpg Hnt Hl Hd)
    as (pw & aFrame & E & Oa & La & A0 & A4 & [ck Hpw] & Hgood).
  do 2 wp_step. unfold after at 1. do 2 wp_step. unfold after at 1. rewrite Hi. do 2 wp_step. unfold after at 1.
  rewrite E. do 2 wp_step. unfold after at 1.
  wp_step. apply wp_set_conn_wal. unfold after at 1. set (c1 := with_wal pw c).
  assert (St1 : steady c c1).
  { apply steady_set_wal. exists (iReCksum (c_wal c)), ck. rewrite Hpw. by destruct (c_wal c) as [???????? [] ???]. }
  pose proof (fk_bytes _ _ _ _ (af_file _ _ A)) as Of.
  assert (Hoff : 32 <= off) by (pose proof (foff_le sz ltac:(lia) 1 (n + 1) ltac:(unfold n, flen; lia)) as H; rewrite (foff_eq sz 1) in H; unfold off; lia).
  assert (Hnext : next = off + 24 + sz).
  { unfold next, off. replace (n + 2) with (n + 1 + 1) by lia. rewrite foff_next. lia. }
  unfold SQLITE_MAX_PAGE_SIZE in Hsz.
  eapply wp_seq; [apply (walWriteToLog_ok w aFrame 24 off c1); try done; lia|].
  intros rc c2 ((St2 & W2 & P2 & C2 & O2) & H2 & N2). change (c_file c1) with (c_file c) in *.
  assert (I2 : iReCksum (c_wal c2) = iReCksum (c_wal c)) by (rewrite W2; change (c_wal c1) with pw; by rewrite Hpw).
  assert (St : steady c c2) by (by eapply steady_trans).
  destruct (Z.eqb_spec rc SQLITE_OK) as [->|Hrc]; cbn [negb].
  2:{ wp_go. cbn [returns okp]. split; [done|]. split; [done|]. split; [done|]. split; [eapply changed_widen; [| |exact C2]; lia|].
      split; [done|]. split; [done|]. intros Hn. rewrite N2; [done|lia]. }
  destruct (H2 eq_refl) as [F2 S2]. rewrite Hw. eapply okp_mono.
  { apply (walWriteToLog_ok w (pData p) sz (off + 24) c2); try done; lia. }
  cbn beta. intros rc c3 ((St3 & W3 & P3 & C3 & O3) & H3 & N3).
  assert (Call : changed off next (c_file c) (c_file c3)).
  { eapply fchanged_trans; [eapply changed_widen; [| |exact C2]; lia|eapply changed_widen; [| |exact C3]; lia]. }
  assert (W : c_wal c3 = pw) by (by rewrite W3, W2).
  split; [by eapply steady_trans|]. split; [by rewrite P3, P2|]. split; [by rewrite W3|].
  split; [done|]. split; [done|]. split.
  2:{ intros Hn. rewrite N3, N2; [done|lia..]. }
  intros Hrc. destruct (H3 Hrc) as [F3 S3]. rewrite F2 in F3.
  replace (off + 24) with (off + blen aFrame) in F3 by lia. rewrite log_write_app in F3 by lia.
  split; [|intros Hsp Hfl; destruct (Z.le_gt_cases (iSyncPoint w) (off + 24)) as [Hle|Hgt]].
  - apply (at_frame_next fs c c3 pw (pgno p) nt (pData p) aFrame); try done. by exists ck.
  - rewrite N3 by lia. destruct (S2 ltac:(lia) Hfl) as [S S']. split; [|done]. eapply changed_widen; [| |exact S]; lia.
  - destruct (S3 ltac:(lia) Hfl) as [S S']. split; [|done].
    eapply fchanged_trans; [eapply changed_widen; [| |exact C2]; lia|eapply changed_widen; [| |exact S]; lia].
Qed.
End Steps.
