(* ===== verification/WalLoops.v ===== *)
(** * The loops that write the frames of a transaction

    The frames of a transaction are appended to the log, or overwrite those of
    the transaction that hold the same pages; at a commit the frames from the
    first overwritten on are sealed again. *)
From S2P Require Import Prelude Bits Bytes Varint Wal WalIndex WalRecover WalRecovery WalHdr WalWrite WalFile WalTx.

(** Bytes below [B] are as they were. *)
Definition below (B : Z) (f f' : bytes) : Prop :=
  (B <= blen f -> B <= blen f') /\ forall j, 0 <= j < B -> bat f' j = bat f j.

Lemma below_refl B f : below B f f.
Proof. done. Qed.
Lemma below_trans B f1 f2 f3 : below B f1 f2 -> below B f2 f3 -> below B f1 f3.
Proof. intros [A C] [A' C']. split; [auto|]. intros j Hj. by rewrite C', C. Qed.
Lemma below_changed B lo hi f f' : changed lo hi f f' -> B <= lo -> below B f f'.
Proof. intros [A C] H. split; [lia|]. intros j Hj. apply C; lia. Qed.

(** The content of page [k] once the pages [l] are written. *)
Definition newest_after (l : list (Z * bytes)) (o : option bytes) (k : Z) : option bytes :=
  fold_left (fun acc p => if decide (fst p = k) then Some (snd p) else acc) l o.
Lemma newest_after_snoc l p o k :
  newest_after (l ++ [p]) o k = if decide (fst p = k) then Some (snd p) else newest_after l o k.
Proof. unfold newest_after. by rewrite fold_left_app. Qed.

Section Loops.
Context (SQLITE_BIGENDIAN : bool) (mallocOk : nat -> bool) (shmRc ioRc : nat -> Z) (lockRc : nat -> Z -> Z -> Z)
  (partial : nat -> Z) (osSectorSize : Z) (randomness : nat -> bytes).
Context (sz : Z).
Hypothesis (Hsz : 512 <= sz <= SQLITE_MAX_PAGE_SIZE) (Hal : sz mod 8 = 0).

Lemma steady_view_ext c s : view_ext (c_wi c) s -> wi_wf s -> steady c (set_rs (set_wi s (c_rs c)) c).
Proof.
  intros X W. pose proof X as (Hw & _ & _ & Hp & _). split; try done.
  - exists (iReCksum (c_wal c)), (aFrameCksum (hdr (c_wal c))), (apWiData (wal s)), (readOnly (wal s)).
    etransitivity; [exact Hw|]. unfold c_wal.
    by destruct (wal (c_wi c)) as [???????? [] ???].
  - by apply view_ext_hdr.
  - intros log I. by eapply index_ext.
Qed.

(** A lookup that fails counts as one that finds nothing. *)
Lemma find_ok log k c :
  index_ok log (c_wi c) -> 0 <= mxFrame (hdr (c_wal c)) <= blen log ->
  1 <= minFrame (c_wal c) < max_frame -> readLock (c_wal c) <> 0 ->
  wp (find_or_zero mallocOk shmRc k) (returns (fun r c' =>
    steady c c' /\ c_file c' = c_file c /\ pList c' = pList c /\ synced c' = synced c /\
    iReCksum (c_wal c') = iReCksum (c_wal c) /\ hdr (c_wal c') = hdr (c_wal c) /\
    (r = 0 \/ is_last log 0 (minFrame (c_wal c)) (mxFrame (hdr (c_wal c))) k r))) c.
Proof.
  intros I [H1 H2] Hmin Hr. pose proof (walFindFrame_ok mallocOk shmRc log k (c_wi c) I H2 H1 Hmin) as HF.
  unfold find_or_zero, on_index, on_rs, on_wi, wp in *. change (r_wi (c_rs c)) with (c_wi c).
  assert (Hpost : forall s, index_ok log s -> view_ext (c_wi c) s -> let c' := set_rs (set_wi s (c_rs c)) c in
    steady c c' /\ iReCksum (c_wal c') = iReCksum (c_wal c) /\ hdr (c_wal c') = hdr (c_wal c)).
  { intros s Is X c'. split; [by apply steady_view_ext; [|apply Is]|].
    destruct X as (Hw & _). change (c_wal c') with (wal s). unfold wal_same in Hw. rewrite Hw. done. }
  destruct (walFindFrame mallocOk shmRc k (c_wi c)) as [[r|e|] s]; cbn [fst snd okp returns] in *; [| |done].
  - destruct HF as (Is & X & HF). destruct (Hpost s Is X) as (A & B & D). split_and!; try done. right.
    unfold c_wal in Hr. destruct (Z.eqb_spec (readLock (wal (c_wi c))) 0); [done|exact HF].
  - destruct HF as (Is & X). destruct (Hpost s Is X) as (A & B & D). split_and!; try done. by left.
Qed.

(** ** The loop over the pages *)

(** Where a transaction starts: [fs0] in the log, the first [m0] of them
    committed. *)
Context (m0 : Z) (fs0 : list fent) (c0 : conn).
Abbreviation mx := (length fs0).
Abbreviation pages := (map page_of (pList c0)).

(** The first [i] pages of the list are written and the log holds [fs]; the
    last frame has the size field [cm], the others of the transaction 0. *)
Record loop_inv (i : nat) (fs : list fent) (cm : Z) (pLast : option nat) (c : conn) : Prop := {
  li_steady : steady c0 c;
  li_at : at_frame sz fs c;
  li_mx : map fe_page (take mx fs) = map fe_page fs0;
  li_new : map fe_page (drop mx fs) = map pgno (filter wal_append (take i (pList c)));
  li_newest lo k : (lo <= Z.to_nat m0)%nat -> newest (drop lo fs) k = newest_after (take i pages) (newest (drop lo fs0) k) k;
  li_old : take (Z.to_nat m0) fs = take (Z.to_nat m0) fs0;
  li_size j e : (Z.to_nat m0 <= j)%nat -> fs !! j = Some e -> fe_size e = if decide (S j = length fs) then cm else 0;
  li_below : below (walFrameOffset (m0 + 1) sz) (c_file c0) (c_file c);
  li_re : iReCksum (c_wal c) = 0 \/ m0 < iReCksum (c_wal c);
  li_synced : synced c = synced c0;
  li_last : match pLast with
            | Some q => (q < i)%nat /\ exists p fs1, pList c !! q = Some p /\ fs = fs1 ++ [(pgno p, cm, pData p)] /\ (mx <= length fs1)%nat
            | None => length fs = mx
            end;
}.

(** A failure: the frames committed are untouched. *)
Definition failed (c : conn) : Prop :=
  steady c0 c /\ below (walFrameOffset (m0 + 1) sz) (c_file c0) (c_file c) /\ bytes_ok (c_file c).

Lemma li_len i fs cm pLast c : loop_inv i fs cm pLast c -> (mx <= length fs)%nat.
Proof.
  intros L. pose proof (f_equal length (li_mx _ _ _ _ _ L)) as H. rewrite !length_map, length_take in H. lia.
Qed.

(** The mark of a page of the list. *)
Lemma steady_append c i b :
  steady c (set_pList (alter (fun p => mkPg (pgno p) (pData p) b) i (pList c)) c).
Proof.
  destruct (steady_refl c) as [A B D E F G H]. split; try done. cbn [pList set_pList].
  apply list_eq. intros j. rewrite !list_lookup_fmap. destruct (decide (i = j)) as [->|Hne].
  - rewrite list_lookup_alter_eq. by destruct (pList c !! j).
  - by rewrite list_lookup_alter_ne.
Qed.
Lemma take_alter_lt (l : list PgHdr) i j f : (i <= j)%nat -> take i (alter f j l) = take i l.
Proof.
  intros H. apply list_eq. intros k. destruct (decide (k < i)%nat).
  - rewrite !lookup_take_lt by lia. apply list_lookup_alter_ne. lia.
  - by rewrite !lookup_take_ge by lia.
Qed.
Lemma take_S_alter (l : list PgHdr) i f p :
  l !! i = Some p -> take (S i) (alter f i l) = take i l ++ [f p].
Proof.
  intros H. rewrite (take_S_r _ _ (f p)); [by rewrite take_alter_lt|].
  by rewrite list_lookup_alter_eq, H.
Qed.

Lemma at_frame_eq fs c c' : c_wal c' = c_wal c -> c_file c' = c_file c -> at_frame sz fs c -> at_frame sz fs c'.
Proof. intros W F [A [B1 B2 B3 B4] C D]. split; [|split|..]; rewrite ?W, ?F; done. Qed.

Lemma page_at i p c : steady c0 c -> pList c !! i = Some p -> pages !! i = Some (page_of p).
Proof. intros S H. rewrite <- (sd_pages _ _ S), list_lookup_fmap. by rewrite H. Qed.

(** A page is appended. *)
Lemma step_append i fs pLast p nt c c2 :
  loop_inv i fs 0 pLast c -> pList c !! i = Some p -> 0 <= m0 <= Z.of_nat mx ->
  steady c c2 -> pList c2 = pList c -> iReCksum (c_wal c2) = iReCksum (c_wal c) ->
  changed (walFrameOffset (flen fs + 1) sz) (walFrameOffset (flen fs + 2) sz) (c_file c) (c_file c2) ->
  at_frame sz (fs ++ [(pgno p, nt, pData p)]) c2 -> synced c2 = synced c ->
  loop_inv (S i) (fs ++ [(pgno p, nt, pData p)]) nt (Some i)
    (set_pList (alter (fun p => mkPg (pgno p) (pData p) true) i (pList c2)) c2).
Proof.
  intros L Hp Hm St Pl Ire Ch At Sy. pose proof (li_len _ _ _ _ _ L) as Hlen.
  destruct L as [A B D E F G H I J K N].
  assert (Hi : (i < length (pList c))%nat) by (by apply lookup_lt_Some in Hp).
  split; cbn [pList set_pList].
  - eapply steady_trans; [exact A|]. eapply steady_trans; [exact St|]. apply steady_append.
  - by eapply at_frame_eq; [..|exact At].
  - rewrite take_app_le by lia. exact D.
  - rewrite drop_app_le, map_app, E by lia. rewrite Pl, (take_S_alter _ _ _ p Hp), list.filter_app, map_app.
    f_equal.
  - intros lo k Hlo. rewrite drop_app_le by lia. rewrite newest_snoc, F by done. change (fe_page (pgno p, nt, pData p)) with (pgno p).
    rewrite (take_S_r _ _ _ (page_at _ _ _ A Hp)), newest_after_snoc. done.
  - rewrite take_app_le by lia. exact G.
  - intros j e Hj. rewrite length_app. cbn [length]. destruct (decide (j < length fs)%nat) as [Hlt|Hge].
    + rewrite lookup_app_l by done. intros He. rewrite decide_False by lia. specialize (H j e Hj He). by case_decide.
    + rewrite lookup_app_r by lia. intros He. pose proof (lookup_lt_Some _ _ _ He) as Hl. cbn in Hl.
      replace (j - length fs)%nat with 0%nat in He by lia. injection He as <-. by rewrite decide_True by lia.
  - eapply below_trans; [exact I|]. eapply below_changed; [exact Ch|]. apply foff_le; unfold SQLITE_MAX_PAGE_SIZE, flen in *; lia.
  - cbn. change (c_wal (set_pList _ c2)) with (c_wal c2). by rewrite Ire.
  - cbn. by rewrite Sy.
  - split; [lia|]. exists (mkPg (pgno p) (pData p) true), fs. rewrite list_lookup_alter_eq, Pl, Hp. done.
Qed.

(** What a lookup says of the frames written so far. *)
Lemma found_frame i fs pLast p c log rem lo w :
  loop_inv i fs 0 pLast c -> pList c !! i = Some p -> NoDup (map fst pages) ->
  log = map fe_page fs0 ++ rem -> 0 <= m0 -> m0 + 1 <= w -> is_last log 0 lo (Z.of_nat mx) (pgno p) w ->
  w <= Z.of_nat mx /\ exists nt d, fs !! Z.to_nat (w - 1) = Some (pgno p, nt, d) /\
    forall j e, (Z.to_nat (w - 1) < j)%nat -> fs !! j = Some e -> fe_page e <> pgno p.
Proof.
  intros L Hp Hnd -> Hm Hw [[-> _]|(j & Hj & -> & Hlo & Hk & Hlast)]; [lia|].
  pose proof (li_len _ _ _ _ _ L) as Hlen. split; [lia|].
  replace (0 + j + 1 - 1) with j by lia.
  assert (Hpg : forall k e, (k < mx)%nat -> fs !! k = Some e ->
    bat (map fe_page fs0 ++ rem) (Z.of_nat k) = fe_page e).
  { intros k e Hk' He. rewrite <- (li_mx _ _ _ _ _ L). unfold bat. rewrite (proj2 (Z.leb_le 0 _)), Nat2Z.id by lia.
    rewrite lookup_app_l by (rewrite length_map, length_take; lia). rewrite list_lookup_fmap, lookup_take_lt by done.
    by rewrite He. }
  destruct (lookup_lt_is_Some_2 fs (Z.to_nat j)) as [[[pg nt] d] He]; [lia|]. exists nt, d. split.
  - specialize (Hpg (Z.to_nat j) _ ltac:(lia) He). rewrite Z2Nat.id in Hpg by lia.
    change (fe_page (pg, nt, d)) with pg in Hpg. assert (pg = pgno p) as -> by congruence. exact He.
  - intros k e Hjk Hek. destruct (decide (k < mx)%nat) as [Hlt|Hge].
    + rewrite <- (Hpg k _ Hlt Hek). apply Hlast; [|lia].
      unfold blen. rewrite length_app, length_map. lia.
    + assert (Hin : fe_page e ∈ map pgno (filter wal_append (take i (pList c)))).
      { rewrite <- (li_new _ _ _ _ _ L). apply list_elem_of_fmap_2. apply list_elem_of_lookup.
        exists (k - mx)%nat. rewrite lookup_drop. by replace (mx + (k - mx))%nat with k by lia. }
      apply list_elem_of_fmap in Hin as (p' & -> & Hin). apply list_elem_of_filter in Hin as [_ Hin].
      apply list_elem_of_lookup in Hin as [i' Hi']. pose proof (lookup_lt_Some _ _ _ Hi') as Hlt'.
      rewrite length_take in Hlt'. rewrite lookup_take_lt in Hi' by lia.
      pose proof (page_at _ _ _ (li_steady _ _ _ _ _ L) Hp) as P. pose proof (page_at _ _ _ (li_steady _ _ _ _ _ L) Hi') as P'.
      intros Heq. assert (i' = i); [|lia]. apply (NoDup_lookup (map fst pages) i' i (pgno p) Hnd).
      * rewrite list_lookup_fmap, P'. cbn. by rewrite Heq.
      * by rewrite list_lookup_fmap, P.
Qed.

Definition mark_over (w : Z) (p : Wal) : Wal :=
  if (iReCksum p =? 0) || (w <? iReCksum p) then set_iReCksum w p else p.

Lemma over_at_frame fs c c2 w pg nt d0 d :
  at_frame sz fs c -> 1 <= w <= flen fs -> fs !! Z.to_nat (w - 1) = Some (pg, nt, d0) ->
  blen d = sz -> bytes_ok d -> c_wal c2 = mark_over w (c_wal c) ->
  c_file c2 = log_write (c_file c) (walFrameOffset w sz + 24) d ->
  changed (walFrameOffset w sz + 24) (walFrameOffset (w + 1) sz) (c_file c) (c_file c2) /\
  at_frame sz (<[Z.to_nat (w - 1) := (pg, nt, d)]> fs) c2.
Proof.
  intros [F [C1 C2 C3 C4] Hre Hck] Hw He Ld Od W E.
  pose proof (file_head_len sz ltac:(lia) _ _ _ F) as H32.
  pose proof (foff_le sz ltac:(lia) 1 w ltac:(lia)) as H1. rewrite (foff_eq sz 1) in H1. pose proof (foff_next sz w) as Hn.
  assert (Ch : changed (walFrameOffset w sz + 24) (walFrameOffset (w + 1) sz) (c_file c) (c_file c2)).
  { rewrite E. apply changed_write; lia. }
  split; [done|]. assert (Ob : bytes_ok (c_file c2)) by (rewrite E; apply log_write_ok; [apply F|done]).
  destruct (file_over sz ltac:(lia) (c_file c) (c_file c2) fs _ w pg nt d0 d F Hw He Ch Ob) as [Hh F2].
  { rewrite E. pose proof (seg_write (c_file c) (walFrameOffset w sz + 24) d ltac:(lia)) as Hs. by rewrite Ld in Hs. }
  destruct (head_eq _ _ Hh H32) as (Eb & _ & Es & _); [destruct Ch; lia|].
  assert (Hlen : flen (<[Z.to_nat (w - 1) := (pg, nt, d)]> fs) = flen fs) by (unfold flen; by rewrite length_insert).
  unfold mark_over in W. split; rewrite ?Hlen.
  - rewrite W. destruct (Z.eqb_spec (iReCksum (c_wal c)) 0) as [H0|H0]; cbn [orb].
    + cbn [iReCksum set_iReCksum]. destruct (Z.eqb_spec w 0); [lia|].
      by replace (Z.min (flen fs) (w - 1)) with (w - 1) in F2 by lia.
    + destruct (Z.ltb_spec w (iReCksum (c_wal c))) as [Hlt|Hge].
      * cbn [iReCksum set_iReCksum]. destruct (Z.eqb_spec w 0); [lia|].
        by replace (Z.min (iReCksum (c_wal c) - 1) (w - 1)) with (w - 1) in F2 by lia.
      * destruct (Z.eqb_spec (iReCksum (c_wal c)) 0); [done|].
        by replace (Z.min (iReCksum (c_wal c) - 1) (w - 1)) with (iReCksum (c_wal c) - 1) in F2 by lia.
  - assert (Hmk : szPage (c_wal c2) = szPage (c_wal c) /\ hdr (c_wal c2) = hdr (c_wal c)) by (rewrite W; by destruct (_ || _)).
    destruct Hmk as [M1 M2]. split; rewrite ?M1, ?M2; [congruence..|]. by eapply head_ok_eq; [exact Hh|lia|destruct Ch; lia|].
  - rewrite W. destruct (_ || _); cbn; lia.
  - rewrite W. destruct (Z.eqb_spec (iReCksum (c_wal c)) 0), (Z.ltb_spec w (iReCksum (c_wal c))); cbn [orb iReCksum set_iReCksum]; lia.
Qed.

(** A page is written over its frame. *)
Lemma step_over i fs pLast p w nt d0 c c2 :
  loop_inv i fs 0 pLast c -> pList c !! i = Some p -> page_ok sz p -> 0 <= m0 -> m0 + 1 <= w <= Z.of_nat mx ->
  fs !! Z.to_nat (w - 1) = Some (pgno p, nt, d0) ->
  (forall j e, (Z.to_nat (w - 1) < j)%nat -> fs !! j = Some e -> fe_page e <> pgno p) ->
  steady c c2 -> pList c2 = pList c -> synced c2 = synced c -> c_wal c2 = mark_over w (c_wal c) ->
  c_file c2 = log_write (c_file c) (walFrameOffset w sz + 24) (pData p) ->
  loop_inv (S i) (<[Z.to_nat (w - 1) := (pgno p, nt, pData p)]> fs) 0 pLast
    (set_pList (alter (fun p => mkPg (pgno p) (pData p) false) i (pList c2)) c2).
Proof.
  intros L Hp (_ & Ld & Od) Hm Hw He Hlast St Pl Sy W E. pose proof (li_len _ _ _ _ _ L) as Hlen.
  destruct L as [A B D Ew F G H I J K N]. set (j := Z.to_nat (w - 1)) in *. assert (Hj : (j < mx)%nat) by lia.
  destruct (over_at_frame fs c c2 w (pgno p) nt d0 (pData p) B) as [Ch At]; try done; [unfold flen; lia|].
  fold j in At.
  assert (Hfst : fe_page <$> (<[j := (pgno p, nt, pData p)]> fs) = fe_page <$> fs).
  { rewrite list_fmap_insert. apply list_insert_id. etransitivity; [apply list_lookup_fmap|]. exact (f_equal (fmap fe_page) He). }
  split; cbn [pList set_pList].
  - eapply steady_trans; [exact A|]. eapply steady_trans; [exact St|]. apply steady_append.
  - by eapply at_frame_eq; [..|exact At].
  - rewrite <- D. change (fe_page <$> take mx (<[j := (pgno p, nt, pData p)]> fs) = fe_page <$> take mx fs).
    by rewrite !fmap_take, Hfst.
  - transitivity (fe_page <$> drop mx fs); [|].
    { change (fe_page <$> drop mx (<[j := (pgno p, nt, pData p)]> fs) = fe_page <$> drop mx fs). by rewrite !fmap_drop, Hfst. }
    transitivity (map fe_page (drop mx fs)); [done|]. rewrite Ew, Pl, (take_S_alter _ _ _ p Hp), list.filter_app.
    by rewrite map_app, app_nil_r.
  - intros lo k Hlo. rewrite drop_insert_ge by lia. rewrite (newest_insert _ _ _ _ d0).
    2:{ rewrite lookup_drop. by replace (lo + (j - lo))%nat with j by lia. }
    2:{ intros j' e Hj' He'. rewrite lookup_drop in He'. apply (Hlast (lo + j')%nat e); [lia|done]. }
    rewrite F by done.
    rewrite (take_S_r _ _ _ (page_at _ _ _ A Hp)), newest_after_snoc. done.
  - rewrite take_insert_ge by lia. exact G.
  - intros j' e Hj'. rewrite length_insert. destruct (decide (j' = j)) as [->|Hne].
    + rewrite list_lookup_insert_eq by lia. intros [= <-]. exact (H j _ Hj' He).
    + rewrite list_lookup_insert_ne by done. by apply H.
  - eapply below_trans; [exact I|]. eapply below_changed; [exact Ch|].
    pose proof (foff_le sz ltac:(lia) (m0 + 1) w ltac:(lia)). lia.
  - change (c_wal (set_pList _ c2)) with (c_wal c2). rewrite W. unfold mark_over. right.
    destruct J as [J|J]; [rewrite J; cbn; lia|]. destruct (_ || _); cbn; lia.
  - change (synced (set_pList _ c2)) with (synced c2). by rewrite Sy.
  - destruct pLast as [q|]; [|by rewrite length_insert]. destruct N as (Hq & p' & fs1 & Hp' & -> & Hb). split; [lia|].
    exists p', (<[j := (pgno p, nt, pData p)]> fs1). rewrite list_lookup_alter_ne, Pl by lia. split; [done|]. rewrite length_insert. split; [|done].
    by rewrite insert_app_l by lia.
Qed.

(** Where the pages of a call come from: the log of the index, of which the
    frames after [fs0] are remnants, and a list of distinct pages. *)
Context (rem : list Z).
Abbreviation log := (map fe_page fs0 ++ rem).
Hypothesis (Hindex : index_ok log (c_wi c0)).
Hypothesis (Hmx0 : mxFrame (hdr (c_wal c0)) = Z.of_nat mx).
Hypothesis (Hmin : 1 <= minFrame (c_wal c0) < max_frame) (Hlock : readLock (c_wal c0) <> 0).
Hypothesis (Hm0 : 0 <= m0 <= Z.of_nat mx).
Hypothesis (Hpages : Forall (page_ok sz) (pList c0)) (Hnodup : NoDup (map fst pages)).

Lemma page_ok_at c i p : steady c0 c -> pList c !! i = Some p -> page_ok sz p.
Proof.
  intros S H. pose proof (page_at i p c S H) as E. rewrite list_lookup_fmap in E.
  destruct (pList c0 !! i) as [q|] eqn:Eq; [|done]. cbn in E. injection E as E1 E2.
  pose proof (Forall_lookup_1 _ _ _ _ Hpages Eq) as Hq. unfold page_ok in *. by rewrite <- E1, <- E2.
Qed.

Lemma find_in_loop i fs cm pLast c k :
  loop_inv i fs cm pLast c ->
  wp (find_or_zero mallocOk shmRc k) (returns (fun r c' =>
    loop_inv i fs cm pLast c' /\ c_file c' = c_file c /\ pList c' = pList c /\
    (r = 0 \/ is_last log 0 (minFrame (c_wal c0)) (Z.of_nat mx) k r))) c.
Proof.
  intros L. pose proof (steady_fields _ _ (li_steady _ _ _ _ _ L)) as (_ & Fr & _ & Fm & _ & _ & _ & ck & Fh).
  eapply okp_mono; [apply (find_ok log)|].
  - apply (sd_index _ _ (li_steady _ _ _ _ _ L)), Hindex.
  - rewrite Fh. change (mxFrame (hdr_set_cksum ck ?h)) with (mxFrame h). rewrite Hmx0. unfold blen.
    rewrite length_app, length_map. lia.
  - by rewrite Fm.
  - by rewrite Fr.
  - cbn beta. intros r c' (S & F & P & Y & R & H & Hr).
    rewrite Fm, Fh in Hr. change (mxFrame (hdr_set_cksum ck ?h)) with (mxFrame h) in Hr. rewrite Hmx0 in Hr.
    split; [|done]. destruct L as [A B D E G I J K M N O].
    pose proof (steady_fields _ _ S) as (Sz & _). split; rewrite ?F, ?P, ?Y, ?R; try done.
    + by eapply steady_trans.
    + destruct B as [B1 [B2 B3 B4 B7] B5 B6]. split; [|split|..]; rewrite ?F, ?R, ?H; try done. congruence.
Qed.

Lemma wp_check rc (Q : out unit -> conn -> Prop) c :
  (rc = SQLITE_OK -> Q (Ret tt) c) -> (rc <> SQLITE_OK -> Q (Fail rc) c) -> wp (check rc) Q c.
Proof. unfold check. destruct (Z.eqb_spec rc SQLITE_OK); intros H1 H2; [apply H1|apply H2]; done. Qed.

Lemma append_turn {A} i fs pLast p nt w c (k : M conn A) Q :
  loop_inv i fs 0 pLast c -> pList c !! i = Some p -> 0 <= nt < 2 ^ 32 -> iSyncPoint w = 0 -> w_szPage w = sz ->
  (forall c', loop_inv (S i) (fs ++ [(pgno p, nt, pData p)]) nt (Some i) c' -> wp k (okp failed Q) c') ->
  wp (let* rc := walWriteOneFrame SQLITE_BIGENDIAN ioRc partial w i nt (walFrameOffset (flen fs + 1) sz) in
      check rc ;;* set_append i true ;;* k) (okp failed Q) c.
Proof.
  intros L Hp Hnt Hsp Hw Hk. pose proof (page_ok_at c i p (li_steady _ _ _ _ _ L) Hp) as Hpo.
  pose proof (foff_le sz ltac:(lia) 1 (flen fs + 1) ltac:(unfold flen; lia)) as H1. rewrite (foff_eq sz 1) in H1.
  wp_step. eapply wp_mono; [apply (walWriteOneFrame_ok SQLITE_BIGENDIAN ioRc partial sz Hsz Hal w i p nt fs c); try done; apply L|].
  intros [rc| |] c2; [|done..]. cbn [returns okp]. intros (St & Pl & Re & Ch & Ob & Ok & Sy).
  unfold after at 1. wp_step. apply wp_check; intros Hrc; unfold after at 1.
  - destruct (Ok Hrc) as [At _]. specialize (Sy ltac:(lia)). wp_step. unfold set_append at 1. wp_step. unfold after at 1. apply Hk.
    by apply (step_append i fs pLast p nt c c2).
  - cbn [okp]. split; [by eapply steady_trans; [apply L|]|]. split; [|done].
    eapply below_trans; [apply L|]. eapply below_changed; [exact Ch|]. pose proof (li_len _ _ _ _ _ L).
    apply foff_le; unfold flen; lia.
Qed.

Lemma over_turn {A} i fs pLast p iWrite nt d0 w c (k : M conn A) Q :
  loop_inv i fs 0 pLast c -> pList c !! i = Some p -> m0 + 1 <= iWrite <= Z.of_nat mx -> w_szPage w = sz ->
  fs !! Z.to_nat (iWrite - 1) = Some (pgno p, nt, d0) ->
  (forall j e, (Z.to_nat (iWrite - 1) < j)%nat -> fs !! j = Some e -> fe_page e <> pgno p) ->
  (forall c', loop_inv (S i) (<[Z.to_nat (iWrite - 1) := (pgno p, nt, pData p)]> fs) 0 pLast c' -> wp k (okp failed Q) c') ->
  wp (set_conn_wal (fun p => if (iReCksum p =? 0) || (iWrite <? iReCksum p) then set_iReCksum iWrite p else p) ;;*
      let* d := lift (bsub (pData p) 0 (w_szPage w)) in
      let* rc := sqlite3OsWrite ioRc partial d (walFrameOffset iWrite (w_szPage w) + WAL_FRAME_HDRSIZE) in
      check rc ;;* set_append i false ;;* k) (okp failed Q) c.
Proof.
  intros L Hp Hiw -> He Hlast Hk. pose proof (page_ok_at c i p (li_steady _ _ _ _ _ L) Hp) as Hpo.
  pose proof Hpo as (_ & Ld & Od). pose proof (foff_le sz ltac:(lia) (m0 + 1) iWrite ltac:(lia)) as H1.
  pose proof (foff_le sz ltac:(lia) 1 (m0 + 1) ltac:(lia)) as H0. rewrite (foff_eq sz 1) in H0.
  wp_step. apply wp_set_conn_wal. unfold after at 1.
  set (c1 := with_wal (mark_over iWrite (c_wal c)) c).
  assert (St1 : steady c c1).
  { apply steady_set_wal. exists (iReCksum (mark_over iWrite (c_wal c))), (aFrameCksum (hdr (c_wal c))).
    unfold mark_over. destruct (_ || _); by destruct (c_wal c) as [???????? [] ???]. }
  destruct (bsub_in (pData p) 0 sz) as [d E]; [lia..|]. rewrite E. apply bsub_seg in E as ->.
  rewrite <- Ld at 1. rewrite seg_all. do 2 wp_step. unfold after at 1. wp_step. apply wp_write.
  intros rc f' F1 [k' F2]. unfold after at 1. wp_step. change (c_file c1) with (c_file c) in *.
  unfold WAL_FRAME_HDRSIZE in *. pose proof (steady_trans _ _ _ St1 (steady_io f' c1)) as St.
  apply wp_check; intros Hrc; unfold after at 1.
  - wp_step. unfold set_append at 1. wp_step. unfold after at 1. apply Hk.
    apply (step_over i fs pLast p iWrite nt d0 c); try done; [lia|]. by apply F1.
  - cbn [okp]. split; [by eapply steady_trans; [apply L|]|]. change (c_file (with_io f' c1)) with f'. subst f'. split.
    + eapply below_trans; [apply L|]. apply (below_changed _ (walFrameOffset iWrite sz + 24) (walFrameOffset iWrite sz + 24 + sz)); [|lia].
      apply changed_write; [lia|lia|]. pose proof (blen_take_le k' (pData p)). lia.
    + apply log_write_ok; [apply (fk_bytes _ _ _ _ (af_file _ _ _ (li_at _ _ _ _ _ L)))|by apply take_ok].
Qed.

(** What the loop leaves behind when [n] pages from index [i] were left and
    the log had [len] frames. *)
Definition frames_done (isCommit : bool) (n i : nat) (len nTruncate : Z) (r : Z * Z * option nat) (c' : conn) : Prop :=
  let '(iFrame, iOffset, pLast) := r in
  exists fs', iFrame = flen fs' /\ iOffset = walFrameOffset (flen fs' + 1) sz /\
    loop_inv (i + n) fs' (if isCommit && negb (bool_decide (n = 0%nat)) then nTruncate else 0) pLast c' /\
    flen fs' <= len + Z.of_nat n /\ (isCommit = true -> n <> 0%nat -> is_Some pLast).

Lemma frames_loop_ok n w iFirst nTruncate isCommit i fs pLast c :
  loop_inv i fs 0 pLast c -> (i + n = length (pList c0))%nat ->
  iSyncPoint w = 0 -> w_szPage w = sz -> iFirst = 0 \/ iFirst = m0 + 1 -> 0 <= nTruncate < 2 ^ 32 ->
  flen fs + Z.of_nat n < max_frame ->
  wp (frames_loop SQLITE_BIGENDIAN mallocOk shmRc ioRc partial n i w iFirst nTruncate isCommit (flen fs)
        (walFrameOffset (flen fs + 1) sz) pLast)
    (okp failed (frames_done isCommit n i (flen fs) nTruncate)) c.
Proof.
  revert i fs pLast c. induction n as [|n IH]; intros i fs pLast c L Hin Hsp Hw Hif Hnt Hmax.
  { cbn [frames_loop]. wp_go. cbn [okp]. exists fs. rewrite andb_false_r, Nat.add_0_r. split_and!; (done || lia). }
  cbn [frames_loop].
  assert (Hi : (i < length (pList c))%nat).
  { rewrite <- (length_map page_of), (sd_pages _ _ (li_steady _ _ _ _ _ L)), length_map. lia. }
  destruct (lookup_lt_is_Some_2 (pList c) i Hi) as [p Hp].
  do 2 wp_step. unfold after at 1. rewrite Hp. do 2 wp_step. unfold after at 1.
  set (nt := if isCommit && bool_decide (n = 0%nat) then nTruncate else 0).
  assert (Hnt' : 0 <= nt < 2 ^ 32) by (unfold nt; clear -Hnt; destruct (_ && _); lia).
  assert (Happ : forall c', loop_inv i fs 0 pLast c' -> pList c' = pList c ->
    wp (let* rc := walWriteOneFrame SQLITE_BIGENDIAN ioRc partial w i nt (walFrameOffset (flen fs + 1) sz) in
        check rc ;;* set_append i true ;;*
        frames_loop SQLITE_BIGENDIAN mallocOk shmRc ioRc partial n (S i) w iFirst nTruncate isCommit (u32 (flen fs + 1))
          (walFrameOffset (flen fs + 1) sz + (w_szPage w + WAL_FRAME_HDRSIZE)) (Some i)) (okp failed (frames_done isCommit (S n) i (flen fs) nTruncate)) c').
  { intros c' L' Pl. apply (append_turn i fs pLast p nt w c'); try done; [by rewrite Pl|]. intros c2 L2.
    assert (Hf : flen (fs ++ [(pgno p, nt, pData p)]) = flen fs + 1) by len.
    pose proof (foff_next sz (flen fs + 1)) as Hn. rewrite Hw. unfold WAL_FRAME_HDRSIZE.
    replace (walFrameOffset (flen fs + 1) sz + (sz + 24)) with (walFrameOffset (flen fs + 1 + 1) sz) by lia.
    rewrite u32_small by (unfold max_frame, flen in *; lia). rewrite <- Hf. destruct n as [|n].
    - cbn [frames_loop]. wp_go. cbn [okp]. exists (fs ++ [(pgno p, nt, pData p)]).
      split; [done|]. split; [done|]. split; [|split; [lia|by eexists]].
      rewrite Nat.add_1_r. change (negb (bool_decide (1%nat = 0%nat))) with true. rewrite andb_true_r.
      unfold nt in L2 |- *. rewrite bool_decide_true, andb_true_r in L2 |- * by done. exact L2.
    - assert (nt = 0) as Hz by (unfold nt; rewrite bool_decide_false, andb_false_r by done; done).
      rewrite Hz in *. eapply okp_mono; [apply IH; try done; try lia|].
      cbn beta. intros [[iFrame iOffset] q] c3 (fs' & E1 & E2 & L3 & Hlen & Hq). exists fs'.
      replace (i + S (S n))%nat with (S i + S n)%nat by lia.
      split; [done|]. split; [done|]. split; [done|]. split; [lia|]. intros Hc _. by apply Hq. }
  destruct (negb (iFirst =? 0) && (negb (bool_decide (n = 0%nat)) || negb isCommit)) eqn:Hb; cbn [andb].
  2:{ do 2 wp_step. unfold after at 1. by apply Happ. }
  apply andb_true_iff in Hb as [Hb1 Hb2]. rewrite negb_true_iff, Z.eqb_neq in Hb1. destruct Hif as [ -> | -> ]; [done|].
  wp_step. eapply wp_mono; [by apply (find_in_loop i fs 0 pLast c (pgno p))|].
  intros [r| |] c1; [|done..]. cbn [returns okp]. intros (L1 & F1 & P1 & Hr). unfold after at 1.
  destruct (Z.leb_spec (m0 + 1) r) as [Hge|Hlt]; [|by apply Happ].
  destruct Hr as [->|Hr]; [lia|]. assert (Hp1 : pList c1 !! i = Some p) by (by rewrite P1).
  destruct (found_frame i fs pLast p c1 log rem (minFrame (c_wal c0)) r L1 Hp1 Hnodup eq_refl) as (Hr2 & nt' & d & He & Hlast); [lia|lia|exact Hr|].
  apply (over_turn i fs pLast p r nt' d w c1); try done. intros c2 L2.
  assert (Hf : flen (<[Z.to_nat (r - 1) := (pgno p, nt', pData p)]> fs) = flen fs) by (unfold flen; by rewrite length_insert).
  rewrite <- Hf. eapply okp_mono; [apply IH; try done; try lia; by right|].
  cbn beta. intros [[iFrame iOffset] q] c3 (fs' & E1 & E2 & L3 & Hlen & Hq). exists fs'.
  assert (Hn : isCommit = true -> n <> 0%nat) by (intros -> ->; done).
  assert (Hcm : isCommit && negb (bool_decide (n = 0%nat)) = isCommit && negb (bool_decide (S n = 0%nat))).
  { destruct isCommit; [|done]. by rewrite !bool_decide_false by auto. }
  rewrite <- Hcm. replace (i + S n)%nat with (S i + n)%nat by lia.
  split; [done|]. split; [done|]. split; [done|]. split; [lia|]. auto.
Qed.
End Loops.
