(* ===== verification/WalSeal.v ===== *)
(** * Sealing and finishing a transaction

    Frames that were overwritten get new headers, the last frame may be
    repeated up to a sector boundary, the file may be cut, and the index is
    brought up to date. *)
From S2P Require Import Prelude Bits Bytes Varint Wal WalIndex WalRecover WalRecovery WalHdr WalWrite WalFile WalTx WalLoops.

Lemma file_take sz f fs good k :
  0 < sz -> file_ok sz f fs good -> file_ok sz f (take k fs) (Z.min good (flen (take k fs))).
Proof.
  intros Hsz [A B C D E]. assert (Hk : flen (take k fs) <= flen fs) by len.
  assert (H0 : 0 <= flen (take k fs)) by (unfold flen; lia).
  split; [done|pose proof (foff_le sz Hsz (flen (take k fs) + 1) (flen fs + 1)); lia| |lia|intros i Hi; apply E; lia].
  intros i Hi. rewrite lookup_take_lt by (unfold flen in Hi; rewrite length_take in Hi; lia). apply C. lia.
Qed.

(** Frames below the bytes that differ. *)
Lemma below_frames sz f f' n :
  0 < sz -> 0 <= n -> walFrameOffset (n + 1) sz <= blen f -> below (walFrameOffset (n + 1) sz) f f' ->
  same_head f f' /\ 32 <= blen f /\ 32 <= blen f' /\
  (forall i, 1 <= i <= n -> frame_at f' sz i = frame_at f sz i /\ data_at f' sz i = data_at f sz i) /\
  (forall i, 0 <= i <= n -> ck_at sz f' i = ck_at sz f i).
Proof.
  intros Hsz Hn Fl [Bl Bj]. specialize (Bl Fl).
  pose proof (foff_le sz Hsz 1 (n + 1) ltac:(lia)) as H0. rewrite (foff_eq sz 1) in H0.
  assert (Hh : same_head f f') by (apply seg_ext; [lia..|]; intros j Hj; apply Bj; lia).
  assert (Hfr : forall i, 1 <= i <= n -> frame_at f' sz i = frame_at f sz i /\ data_at f' sz i = data_at f sz i).
  { intros i Hi. pose proof (foff_le sz Hsz 1 i ltac:(lia)) as H1. rewrite (foff_eq sz 1) in H1.
    pose proof (foff_lt sz Hsz i (n + 1) ltac:(lia)). unfold frame_at, data_at, WAL_FRAME_HDRSIZE.
    split; apply seg_ext; try lia; intros j Hj; apply Bj; lia. }
  split; [done|]. split; [lia|]. split; [lia|]. split; [done|]. intros i Hi. unfold ck_at.
  destruct (Z.eqb_spec i 0); [apply (head_eq f f' Hh); lia|]. by rewrite (proj1 (Hfr i ltac:(lia))).
Qed.

(** Only bytes behind the frames differ. *)
Lemma file_below sz f f' fs good :
  0 < sz -> file_ok sz f fs good -> below (walFrameOffset (flen fs + 1) sz) f f' -> bytes_ok f' ->
  same_head f f' /\ file_ok sz f' fs good.
Proof.
  intros Hsz [_ Fl Fe Fr Fg] B Ob.
  destruct (below_frames sz f f' (flen fs) Hsz ltac:(unfold flen; lia) Fl B) as (Hh & H1 & H2 & Hfr & _). split; [done|].
  split; try done.
  - by apply B.
  - intros i Hi. rewrite Fe by done. destruct (Hfr i Hi) as [E1 E2]. unfold entry. by rewrite E1, E2.
  - intros i Hi. apply (good_at_ext sz f); try done; [intros; apply Hfr; lia|apply Hfr; lia|apply Hfr; lia|by apply Fg].
Qed.

Definition paged (fs : list fent) : Prop := Forall (fun e => 0 < fe_page e < 2 ^ 32) fs.

Section Seal.
Context (SQLITE_BIGENDIAN : bool) (mallocOk : nat -> bool) (shmRc ioRc : nat -> Z) (lockRc : nat -> Z -> Z -> Z)
  (partial : nat -> Z) (osSectorSize : Z) (randomness : nat -> bytes).
Context (sz : Z).
Hypothesis (Hsz : 512 <= sz <= SQLITE_MAX_PAGE_SIZE) (Hal : sz mod 8 = 0).
Context (m0 : Z) (c0 : conn).
Hypothesis (Hm0 : 0 <= m0).

(** ** New checksums *)

(** The frames before [r] are sealed, [r] is next. *)
Record sealing (r : Z) (fs : list fent) (c : conn) : Prop := {
  se_steady : steady c0 c;
  se_below : below (walFrameOffset (m0 + 1) sz) (c_file c0) (c_file c);
  se_file : file_ok sz (c_file c) fs (r - 1);
  se_conn : conn_log sz c;
  se_re : iReCksum (c_wal c) = 0;
  se_cks : aFrameCksum (hdr (c_wal c)) = ck_at sz (c_file c) (r - 1);
}.

Lemma sealing_failed r fs c : sealing r fs c -> failed sz m0 c0 c.
Proof. intros [A B C _ _ _]. split; [done|]. split; [done|]. apply C. Qed.

(** Frame [r] with its new header [aFrame]. *)
Lemma sealing_next r fs c c' pw aFrame nt :
  sealing r fs c -> m0 < r <= flen fs ->
  at4 aFrame 0 = at4 (frame_at (c_file c) sz r) 0 -> at4 aFrame 4 = nt -> nt = at4 (frame_at (c_file c) sz r) 4 ->
  bytes_ok aFrame -> blen aFrame = 24 -> (exists ck, pw = set_cksum ck (c_wal c)) ->
  good_frame (log_big (c_file c)) (log_salt (c_file c)) (ck_at sz (c_file c) (r - 1)) (data_at (c_file c) sz r) aFrame ->
  aFrameCksum (hdr pw) = (at4 aFrame 16, at4 aFrame 20) ->
  steady c c' -> c_wal c' = pw -> c_file c' = log_write (c_file c) (walFrameOffset r sz) aFrame ->
  sealing (r + 1) fs c'.
Proof.
  intros [A B F [C1 C2 C3 C4] Re Ck] Hr E0 E4 -> Ob La [ck Hpw] G Hck St W E.
  pose proof (file_head_len sz ltac:(lia) _ _ _ F) as H32. pose proof (fk_len _ _ _ _ F) as Hlen.
  pose proof (foff_le sz ltac:(lia) (m0 + 1) r ltac:(lia)) as H1. pose proof (foff_le sz ltac:(lia) 1 (m0 + 1) ltac:(lia)) as H0.
  rewrite (foff_eq sz 1) in H0. pose proof (foff_lt sz ltac:(lia) r (flen fs + 1) ltac:(lia)) as H2.
  assert (Ch : changed (walFrameOffset r sz) (walFrameOffset r sz + 24) (c_file c) (c_file c')).
  { rewrite E. apply changed_write; lia. }
  assert (Ff : frame_at (c_file c') sz r = aFrame).
  { rewrite E. unfold frame_at, WAL_FRAME_HDRSIZE. rewrite <- La. apply seg_write. lia. }
  assert (Fd : data_at (c_file c') sz r = data_at (c_file c) sz r).
  { unfold data_at, WAL_FRAME_HDRSIZE. eapply seg_changed; [exact Ch|lia..]. }
  assert (Hh : same_head (c_file c) (c_file c')) by (eapply changed_head; [exact Ch|done|lia]).
  assert (H32' : 32 <= blen (c_file c')) by (destruct Ch; lia).
  destruct (head_eq _ _ Hh H32 H32') as (Eb & _ & Es & Ec).
  assert (Hk : ck_at sz (c_file c') (r - 1) = ck_at sz (c_file c) (r - 1)).
  { unfold ck_at. destruct (Z.eqb_spec (r - 1) 0); [done|]. pose proof (foff_le sz ltac:(lia) r (r - 1 + 1) ltac:(lia)).
    pose proof (foff_le sz ltac:(lia) (r - 1 + 1) (flen fs + 1) ltac:(lia)). pose proof (foff_le sz ltac:(lia) (r - 1 + 1) r ltac:(lia)).
    destruct (frame_changed sz ltac:(lia) _ _ _ _ (r - 1) Ch) as [-> _]; [lia|lia|lia|done]. }
  destruct (file_reseal sz ltac:(lia) (c_file c) (c_file c') fs r F) as [_ F']; [lia|done| | | |].
  - rewrite E. apply log_write_ok; [apply F|done].
  - unfold entry. by rewrite Ff, Fd, E0, E4.
  - unfold good_at. by rewrite Eb, Es, Hk, Ff, Fd.
  - split; rewrite ?W.
    + by eapply steady_trans.
    + eapply below_trans; [exact B|]. eapply below_changed; [exact Ch|lia].
    + by replace (r + 1 - 1) with r by lia.
    + split; rewrite ?W, ?Hpw; [done|by rewrite Eb|by rewrite Es|by apply (head_ok_eq sz (c_file c))].
    + by rewrite Hpw.
    + replace (r + 1 - 1) with r by lia. rewrite Hck. unfold ck_at. destruct (Z.eqb_spec r 0); [lia|]. by rewrite Ff.
Qed.

Definition kept_conn (c c' : conn) : Prop := pList c' = pList c /\ synced c' = synced c.

Lemma wp_on_rs {A} (m : M rs A) Q c :
  wp m (fun o r => Q o (set_rs r c)) (c_rs c) -> wp (on_rs m) Q c.
Proof. unfold wp, on_rs. by destruct (m (c_rs c)). Qed.

(** The sealed part of the log, as the encoder sees it. *)
Lemma sealing_at r fs c : sealing r fs c -> 1 <= r -> at_frame sz (take (Z.to_nat (r - 1)) fs) c.
Proof.
  intros [A B F C Re Ck] Hr. pose proof (fk_range _ _ _ _ F) as Hr2.
  assert (Hl : flen (take (Z.to_nat (r - 1)) fs) = r - 1) by (apply flen_take; lia).
  split; rewrite ?Hl, ?Re; [|done|lia|done]. cbn [Z.eqb].
  pose proof (file_take sz (c_file c) fs (r - 1) (Z.to_nat (r - 1)) ltac:(lia) F) as F'.
  rewrite Hl in F'. by replace (Z.min (r - 1) (r - 1)) with (r - 1) in F' by lia.
Qed.

Lemma rewrite_fail n k rc : rc <> SQLITE_OK -> rewrite_loop SQLITE_BIGENDIAN ioRc partial n k rc = ret rc.
Proof. intros H. destruct n; cbn [rewrite_loop]; [done|]. by destruct (Z.eqb_spec rc SQLITE_OK). Qed.

Lemma rewrite_loop_ok n r fs c :
  sealing r fs c -> m0 < r -> r + Z.of_nat n = flen fs + 1 -> paged fs ->
  wp (rewrite_loop SQLITE_BIGENDIAN ioRc partial n r SQLITE_OK) (returns (fun rc c' =>
    failed sz m0 c0 c' /\ kept_conn c c' /\ (rc = SQLITE_OK -> sealing (flen fs + 1) fs c'))) c.
Proof.
  revert r c. induction n as [|n IH]; intros r c L Hr Hn Hpg.
  { cbn [rewrite_loop]. wp_go. cbn [returns okp]. split; [by eapply sealing_failed|]. split; [done|]. intros _.
    by replace (flen fs + 1) with r by lia. }
  cbn [rewrite_loop]. change (negb (SQLITE_OK =? SQLITE_OK)) with false. cbv iota.
  pose proof (se_file _ _ _ L) as F. pose proof (foff_le sz ltac:(lia) (r + 1) (flen fs + 1) ltac:(lia)) as H2.
  pose proof (fk_len _ _ _ _ F) as Hlen.
  do 2 wp_step. unfold after at 1. rewrite (cl_size _ _ (se_conn _ _ _ L)).
  wp_step. apply wp_on_rs. apply (read_frame_ok ioRc (c_file c) sz ltac:(lia)); [done|lia|lia|..].
  { intros rc Hrc z. unfold after at 1. destruct (Z.eqb_spec rc SQLITE_OK); [done|].
    rewrite rewrite_fail by done. wp_go. cbn [returns okp]. split; [|split; [done|done]].
    destruct (sealing_failed _ _ _ L) as (X & Y & Z). split; [|done]. eapply steady_trans; [exact X|apply steady_count]. }
  unfold after at 1. cbv beta iota zeta. change (SQLITE_OK =? SQLITE_OK) with true. cbv iota.
  set (a := seg (c_file c) (walFrameOffset r sz) (sz + WAL_FRAME_HDRSIZE)).
  pose proof (foff_le sz ltac:(lia) 1 r ltac:(lia)) as H0. rewrite (foff_eq sz 1) in H0.
  pose proof (foff_next sz r) as Hnx. assert (Ha : blen a = sz + 24).
  { unfold a, blen, WAL_FRAME_HDRSIZE. rewrite seg_len; lia. }
  destruct (frame_split (c_file c) sz ltac:(lia) r ltac:(lia)) as [_ Hd]. fold a in Hd. rewrite Hd.
  assert (Hfl : blen (frame_at (c_file c) sz r) = 24) by (unfold frame_at, blen, WAL_FRAME_HDRSIZE; rewrite seg_len; lia).
  assert (Hat : forall i, 0 <= i <= 20 -> at4 a i = at4 (frame_at (c_file c) sz r) i).
  { intros i Hi. apply at4_eq. intros j Hj. unfold a, frame_at, WAL_FRAME_HDRSIZE. by rewrite !seg_at by lia. }
  assert (Ofr : bytes_ok (frame_at (c_file c) sz r)) by (apply Forall_take, Forall_drop, F).
  assert (Oa0 : bytes_ok a) by (apply Forall_take, Forall_drop, F). rewrite !Get4byte_in, !Hat by (done || lia). do 2 wp_step. unfold after at 1. do 2 wp_step. unfold after at 1.
  pose proof (sealing_at r fs c L ltac:(lia)) as At.
  assert (Hpage : 0 < at4 (frame_at (c_file c) sz r) 0 < 2 ^ 32).
  { exact (Forall_lookup_1 _ _ _ _ Hpg (fk_entry _ _ _ _ F r ltac:(lia))). }
  destruct (encode_next SQLITE_BIGENDIAN sz Hsz Hal _ c _ (at4 (frame_at (c_file c) sz r) 4) (data_at (c_file c) sz r) At Hpage)
    as (pw & aFrame & E & Oa & La & E0 & E4 & Hpw & Hg).
  { by apply at4_range. }
  { unfold data_at, blen, WAL_FRAME_HDRSIZE. rewrite seg_len; lia. }
  { apply Forall_take, Forall_drop, F. }
  destruct (Hg (se_re _ _ _ L)) as [G Hck]. assert (Hl : flen (take (Z.to_nat (r - 1)) fs) = r - 1).
  { unfold flen in *. rewrite length_take. lia. }
  rewrite Hl in G. rewrite E. do 2 wp_step. unfold after at 1. wp_step. apply wp_set_conn_wal. unfold after at 1.
  wp_step. apply wp_write. intros rc f' F1 [k F2]. unfold after at 1.
  set (c1 := with_wal pw _) in *. change (c_file c1) with (c_file c) in *.
  assert (St : steady c (with_io f' c1)).
  { eapply steady_trans; [apply steady_count|]. eapply steady_trans; [apply steady_set_wal|apply steady_io].
    destruct Hpw as [ck ->]. exists (iReCksum (c_wal c)), ck. change (c_wal (set_rs _ c)) with (c_wal c). by destruct (c_wal c) as [???????? [] ???]. }
  destruct (Z.eqb_spec rc SQLITE_OK) as [->|Hrc].
  - eapply okp_mono; [apply IH; [|lia|lia|done]|].
    + by apply (sealing_next r fs c _ pw aFrame (at4 (frame_at (c_file c) sz r) 4)); auto; lia.
    + cbn beta. intros rc c2 (X & [Y1 Y2] & Z). split; [done|]. split; [split; [by rewrite Y1|by rewrite Y2]|done].
  - rewrite rewrite_fail by done. wp_go. cbn [returns okp]. split; [|done]. split; [by eapply steady_trans; [apply L|]|].
    change (c_file (with_io f' c1)) with f'. subst f'. pose proof (blen_take_le k aFrame). split.
    + eapply below_trans; [apply L|]. apply (below_changed _ (walFrameOffset r sz) (walFrameOffset r sz + 24)).
      * apply changed_write; lia.
      * apply foff_le; lia.
    + apply log_write_ok; [apply F|by apply take_ok].
Qed.

(** The log holds [fs] for the connection, and the frames committed are as
    they were. *)
Record run_ok (fs : list fent) (c : conn) : Prop := {
  ro_steady : steady c0 c;
  ro_at : at_frame sz fs c;
  ro_below : below (walFrameOffset (m0 + 1) sz) (c_file c0) (c_file c);
  ro_re : iReCksum (c_wal c) = 0 \/ m0 < iReCksum (c_wal c);
}.
Lemma run_failed fs c : run_ok fs c -> failed sz m0 c0 c.
Proof. intros [A B C _]. split; [done|]. split; [done|]. apply B. Qed.

Lemma steady_count_req c : wi_wf (c_wi c) -> steady c (set_rs (set_wi (count_req (c_wi c)) (c_rs c)) c).
Proof.
  intros W. apply steady_view_ext; [|by destruct W; split].
  split_and!; [apply wal_same_refl|done..].
Qed.

Lemma at4_of_seg d off n i : 0 <= off -> 0 <= i -> i + 4 <= n -> at4 (seg d off n) i = at4 d (off + i).
Proof. intros H1 H2 H3. unfold at4. rewrite !seg_at by lia. by rewrite !Z.add_assoc. Qed.

(** Eight bytes of a file that is long enough, read as two words. *)
Lemma wp_read8 off c (Q : out (Z * bytes) -> conn -> Prop) :
  bytes_ok (c_file c) -> 0 <= off -> off + 8 <= blen (c_file c) ->
  (forall rc a, bytes_ok a -> blen a = 8 -> (rc = SQLITE_OK -> a = seg (c_file c) off 8) ->
     Q (Ret (rc, a)) (set_rs (count_io (c_rs c)) c)) ->
  wp (on_rs (sqlite3OsRead ioRc 8 off)) Q c.
Proof.
  intros Ob Hoff Hlen H. apply wp_on_rs. unfold wp, sqlite3OsRead. cbn [fst snd]. change (r_file (c_rs c)) with (c_file c).
  destruct (bsub_in (c_file c) off 8) as [a E]; [lia..|]. rewrite E. cbn [default].
  apply H; [by eapply bsub_ok|by eapply bsub_len|]. intros _. by apply bsub_seg.
Qed.

Lemma walRewriteChecksums_ok fs c :
  run_ok fs c -> wi_wf (c_wi c) -> iReCksum (c_wal c) <> 0 -> paged fs ->
  wp (walRewriteChecksums SQLITE_BIGENDIAN mallocOk ioRc partial (flen fs)) (returns (fun rc c' =>
    failed sz m0 c0 c' /\ kept_conn c c' /\ (rc = SQLITE_OK -> run_ok fs c' /\ iReCksum (c_wal c') = 0))) c.
Proof.
  intros R W Hre Hpg. pose proof R as [A [F [C1 C2 C3 C4] Hr Hc] B Hm]. destruct (Z.eqb_spec (iReCksum (c_wal c)) 0) as [|_]; [done|].
  pose proof (steady_count_req c W) as S1. unfold walRewriteChecksums. wp_step.
  unfold wp, on_index, on_rs, on_wi, wi_malloc. cbn [fst snd]. unfold after at 1.
  set (c1 := set_rs _ c). change (set_rs _ c) with c1 in S1.
  destruct (mallocOk _); cbn [negb].
  2:{ wp_go. cbn [returns okp]. split; [|split; [done|done]]. split; [by eapply steady_trans|]. split; [done|apply F]. }
  do 2 wp_step. unfold after at 1. change (c_wal c1) with (c_wal c). rewrite C1.
  set (r := iReCksum (c_wal c)) in *. pose proof (fk_len _ _ _ _ F) as Hlen.
  pose proof (file_head_len sz ltac:(lia) _ _ _ F) as H32.
  set (off := if r =? 1 then 24 else _).
  assert (Hoff : 0 <= off /\ off + 8 <= blen (c_file c)).
  { unfold off. destruct (Z.eqb_spec r 1); [lia|]. pose proof (foff_le sz ltac:(lia) 1 (r - 1) ltac:(lia)) as H0.
    rewrite (foff_eq sz 1) in H0. pose proof (foff_lt sz ltac:(lia) (r - 1) (flen fs + 1) ltac:(lia)). lia. }
  wp_step. apply (wp_read8 off c1); [apply F|lia|change (c_file c1) with (c_file c); lia|]. intros rc a Oa La Ea. unfold after at 1.
  change (c_file c1) with (c_file c) in Ea. cbv beta iota zeta. rewrite !Get4byte_in by (done || lia).
  do 2 wp_step. unfold after at 1. do 2 wp_step. unfold after at 1.
  wp_step. apply wp_set_conn_wal. unfold after at 1. wp_step. apply wp_set_conn_wal. unfold after at 1.
  set (c2 := with_wal (set_iReCksum 0 _) _).
  assert (S2 : steady c c2).
  { eapply steady_trans; [exact S1|]. eapply steady_trans; [apply steady_count|].
    eapply steady_trans; apply steady_set_wal; [exists (iReCksum (c_wal c)), (at4 a 0, at4 a 4)|].
    - change (c_wal (set_rs _ c1)) with (c_wal c). by destruct (c_wal c) as [???????? [] ???].
    - exists 0, (at4 a 0, at4 a 4). done. }
  destruct (Z.eqb_spec rc SQLITE_OK) as [->|Hrc].
  2:{ rewrite rewrite_fail by done. wp_go. cbn [returns okp]. split; [|done]. split; [by eapply steady_trans|]. split; [done|apply F]. }
  assert (L : sealing r fs c2).
  { split; [by eapply steady_trans|done|done|by split|done|]. cbn [c2 c_wal]. change (aFrameCksum _) with (at4 a 0, at4 a 4).
    change (c_file c2) with (c_file c). rewrite (Ea eq_refl), !at4_of_seg by lia. unfold ck_at, off.
    destruct (Z.eqb_spec r 1) as [->|Hr1].
    - by rewrite (proj2 (proj2 C4)).
    - destruct (Z.eqb_spec (r - 1) 0); [lia|]. unfold frame_at, WAL_FRAME_HDRSIZE.
      pose proof (foff_le sz ltac:(lia) 1 (r - 1) ltac:(lia)) as H0. rewrite (foff_eq sz 1) in H0.
      rewrite !at4_of_seg by lia. f_equal; f_equal; lia. }
  eapply okp_mono; [apply (rewrite_loop_ok _ r fs c2); [done|destruct Hm; lia|lia|done]|].
  cbn beta. intros rc' c3 (X & K & Y). split; [done|]. split; [done|]. intros Hrc. destruct (Y Hrc) as [Z1 Z2 Z3 Z4 Z5 Z6].
  replace (flen fs + 1 - 1) with (flen fs) in * by lia. split; [|done]. split; [done| |done|by left].
  split; [by rewrite Z5|done|unfold flen; lia|done].
Qed.

(** ** Repeating the last frame, syncing *)

(** The log that survives a loss of power holds [fs], all sealed. *)
Record durable (fs : list fent) (c : conn) : Prop := {
  du_file : file_ok sz (synced c) fs (flen fs);
  du_head : same_head (c_file c) (synced c);
}.

Lemma run_file fs c : run_ok fs c -> iReCksum (c_wal c) = 0 -> file_ok sz (c_file c) fs (flen fs).
Proof. intros R E. pose proof (af_file _ _ _ (ro_at _ _ R)) as F. by rewrite E in F. Qed.

Lemma durable_below fs c f d :
  file_ok sz f fs (flen fs) -> same_head f (c_file c) -> synced c = d -> bytes_ok d ->
  below (walFrameOffset (flen fs + 1) sz) f d -> durable fs c.
Proof.
  intros F H <- Ob B. destruct (file_below sz f _ fs _ ltac:(lia) F B Ob) as [H' F']. split; [done|].
  unfold same_head in *. congruence.
Qed.

Lemma durable_take fs gs c : durable (fs ++ gs) c -> durable fs c.
Proof.
  intros [F H]. split; [|done]. pose proof (file_take sz _ _ _ (length fs) ltac:(lia) F) as F'.
  rewrite take_app_length in F'. assert (Hle : flen fs <= flen (fs ++ gs)) by len.
  by replace (Z.min (flen (fs ++ gs)) (flen fs)) with (flen fs) in F' by lia.
Qed.

Lemma flen_app fs gs : flen (fs ++ gs) = flen fs + flen gs.
Proof. len. Qed.

Lemma pad_turn i p nt w fs c :
  run_ok fs c -> iReCksum (c_wal c) = 0 -> pList c !! i = Some p -> page_ok sz p -> 0 <= nt < 2 ^ 32 -> w_szPage w = sz ->
  WAL_SYNC_FLAGS (syncFlags w) <> 0 -> m0 <= flen fs ->
  wp (walWriteOneFrame SQLITE_BIGENDIAN ioRc partial w i nt (walFrameOffset (flen fs + 1) sz)) (returns (fun rc c' =>
    failed sz m0 c0 c' /\
    (rc = SQLITE_OK -> run_ok (fs ++ [(pgno p, nt, pData p)]) c' /\ iReCksum (c_wal c') = 0 /\ pList c' = pList c /\
       (walFrameOffset (flen fs + 1) sz < iSyncPoint w <= walFrameOffset (flen fs + 2) sz -> durable fs c')))) c.
Proof.
  intros R Hre Hp Hpo Hnt Hw Hfl Hm. pose proof (run_file fs c R Hre) as F. pose proof (file_head_len sz ltac:(lia) _ _ _ F) as H32.
  pose proof (foff_le sz ltac:(lia) 1 (flen fs + 1) ltac:(lia)) as H0. rewrite (foff_eq sz 1) in H0.
  eapply okp_mono; [apply (walWriteOneFrame_ok SQLITE_BIGENDIAN ioRc partial sz Hsz Hal w i p nt fs c); try done; apply R|].
  cbn beta. intros rc c2 (St & Pl & Re & Ch & Ob & Ok & _).
  assert (Hb : below (walFrameOffset (m0 + 1) sz) (c_file c0) (c_file c2)).
  { eapply below_trans; [apply R|]. eapply below_changed; [exact Ch|apply foff_le; lia]. }
  assert (Hst : steady c0 c2) by (by eapply steady_trans; [apply R|]).
  split; [done|]. intros Hrc. destruct (Ok Hrc) as [At Sy].
  split; [split; [done|done|done|left; congruence]|]. split; [congruence|]. split; [done|].
  intros Hs. destruct (Sy Hs Hfl) as [Cs Os]. apply (durable_below fs c2 (c_file c) (synced c2)); try done.
  - eapply changed_head; [exact Ch|done|lia].
  - eapply below_changed; [exact Cs|lia].
Qed.

Lemma pad_loop_S fuel w pLast nt iOffset nExtra :
  pad_loop SQLITE_BIGENDIAN ioRc partial (S fuel) w pLast nt iOffset nExtra =
  if iOffset <? iSyncPoint w then
    let* i := lift pLast in
    let* rc := walWriteOneFrame SQLITE_BIGENDIAN ioRc partial w i nt iOffset in
    check rc ;;* pad_loop SQLITE_BIGENDIAN ioRc partial fuel w pLast nt (iOffset + (w_szPage w + WAL_FRAME_HDRSIZE)) (nExtra + 1)
  else ret (iOffset, nExtra).
Proof. done. Qed.

Lemma pad_loop_ok fuel w q p nt nExtra fs c :
  run_ok fs c -> iReCksum (c_wal c) = 0 -> pList c !! q = Some p -> page_ok sz p -> 0 <= nt < 2 ^ 32 -> w_szPage w = sz ->
  WAL_SYNC_FLAGS (syncFlags w) <> 0 -> m0 <= flen fs -> iSyncPoint w - walFrameOffset (flen fs + 1) sz <= Z.of_nat fuel ->
  wp (pad_loop SQLITE_BIGENDIAN ioRc partial (S fuel) w (Some q) nt (walFrameOffset (flen fs + 1) sz) nExtra)
    (okp (failed sz m0 c0) (fun '(iOffset, nExtra') c' => exists n, nExtra' = nExtra + Z.of_nat n /\
       run_ok (fs ++ replicate n (pgno p, nt, pData p)) c' /\ iReCksum (c_wal c') = 0 /\ pList c' = pList c /\
       (n = 0%nat \/ (Z.of_nat n - 1) * (sz + 24) < iSyncPoint w - walFrameOffset (flen fs + 1) sz) /\
       (if decide (walFrameOffset (flen fs + 1) sz < iSyncPoint w) then durable fs c' else c' = c))) c.
Proof.
  revert nExtra fs c. induction fuel as [|fuel IH]; intros nExtra fs c R Hre Hp Hpo Hnt Hw Hfl Hm Hf; rewrite pad_loop_S.
  - destruct (Z.ltb_spec (walFrameOffset (flen fs + 1) sz) (iSyncPoint w)); [lia|]. wp_go. cbn [okp].
    exists 0%nat. rewrite app_nil_r, decide_False by lia. split_and!; try done; [lia|by left].
  - destruct (Z.ltb_spec (walFrameOffset (flen fs + 1) sz) (iSyncPoint w)).
    2:{ wp_go. cbn [okp]. exists 0%nat. rewrite app_nil_r, decide_False by lia. split_and!; try done; [lia|by left]. }
    cbn [lift]. wp_step. wp_step. unfold after at 1. wp_step.
    eapply wp_mono; [by apply (pad_turn q p nt w fs c)|]. intros [rc| |] c2; [|done..]. cbn [returns okp].
    intros [Hf2 Ok]. unfold after at 1. wp_step. apply wp_check; intros Hrc; unfold after at 1; [|done].
    destruct (Ok Hrc) as (R2 & Re2 & P2 & D2). set (e := (pgno p, nt, pData p)) in *.
    assert (Hl : flen (fs ++ [e]) = flen fs + 1) by (rewrite flen_app; done).
    pose proof (foff_next sz (flen fs + 1)) as Hn. replace (flen fs + 1 + 1) with (flen fs + 2) in Hn by lia.
    rewrite Hw. unfold WAL_FRAME_HDRSIZE.
    replace (walFrameOffset (flen fs + 1) sz + (sz + 24)) with (walFrameOffset (flen (fs ++ [e]) + 1) sz)
      by (rewrite Hl; replace (flen fs + 1 + 1) with (flen fs + 2) by lia; lia).
    eapply okp_mono; [apply IH; try done; [by rewrite P2|lia|rewrite Hl; replace (flen fs + 1 + 1) with (flen fs + 2) by lia; lia]|].
    cbn beta. rewrite Hl. replace (flen fs + 1 + 1) with (flen fs + 2) by lia.
    intros [iOff nEx] c3 (n & -> & R3 & Re3 & P3 & Hn3 & D3). exists (S n).
    rewrite decide_True by done. rewrite <- app_assoc in R3. split; [lia|]. split; [exact R3|].
    split; [done|]. split; [congruence|]. split; [right; destruct Hn3 as [->|]; lia|].
    case_decide; [|rewrite D3; apply D2; lia]. by apply durable_take in D3.
Qed.

Lemma sector_range : 32 <= sqlite3SectorSize osSectorSize <= 65536.
Proof.
  unfold sqlite3SectorSize, MAX_SECTOR_SIZE.
  destruct (Z.ltb_spec osSectorSize 32); [lia|]. destruct (Z.ltb_spec 65536 osSectorSize); lia.
Qed.
Lemma round_up x k : 0 < k -> x <= (x + k - 1) / k * k < x + k.
Proof. intros H. pose proof (Z.div_mod (x + k - 1) k ltac:(lia)). pose proof (Z.mod_pos_bound (x + k - 1) k H). lia. Qed.

(** At most this many copies of the last frame are written. *)
Definition max_pad : Z := 123.

Definition padded (fs : list fent) (e : fent) (c : conn) (r : Z * Z) (c' : conn) : Prop :=
  let '(rc, nExtra) := r in
  exists n, nExtra = Z.of_nat n /\ Z.of_nat n <= max_pad /\ run_ok (fs ++ replicate n e) c' /\
    iReCksum (c_wal c') = 0 /\ pList c' = pList c /\ (rc = SQLITE_OK -> durable fs c').

Lemma sync_ok flags fs e n c1 c :
  flags <> 0 ->
  run_ok (fs ++ replicate n e) c -> iReCksum (c_wal c) = 0 -> pList c = pList c1 -> Z.of_nat n <= max_pad ->
  wp (let* rc := sqlite3OsSync ioRc flags in ret (rc, Z.of_nat n)) (okp (failed sz m0 c0) (padded fs e c1)) c.
Proof.
  intros Hfl R Hre Pl Hn. wp_step. apply wp_sync. intros rc c2 S1 _ F W P St. unfold after at 1. wp_go. cbn [okp].
  exists n. split; [done|]. split; [done|]. rewrite W, P. split; [|split; [done|split; [done|]]].
  - destruct R as [A B D E]. split; [by eapply steady_trans|by apply (at_frame_eq sz (fs ++ replicate n e) c)|by rewrite F|by rewrite W].
  - intros Hrc. apply (durable_take _ (replicate n e)). pose proof (run_file _ c R Hre) as Hf.
    apply (durable_below _ c2 (c_file c) (c_file c)); [done|by rewrite F|by apply S1|apply Hf|done].
Qed.

Lemma pad_and_sync_ok q p flags nt fs c :
  run_ok fs c -> iReCksum (c_wal c) = 0 -> pList c !! q = Some p -> page_ok sz p -> 0 <= nt < 2 ^ 32 ->
  WAL_SYNC_FLAGS flags <> 0 -> m0 <= flen fs ->
  wp (pad_and_sync SQLITE_BIGENDIAN ioRc partial osSectorSize sz flags nt (walFrameOffset (flen fs + 1) sz) (Some q))
    (okp (failed sz m0 c0) (padded fs (pgno p, nt, pData p) c)) c.
Proof.
  intros R Hre Hp Hpo Hnt Hfl Hm. unfold pad_and_sync. do 2 wp_step. unfold after at 1.
  assert (R0 : run_ok (fs ++ replicate 0 (pgno p, nt, pData p)) c) by (by rewrite app_nil_r).
  destruct (padToSectorBoundary c).
  2:{ do 2 wp_step. unfold after at 1. apply (sync_ok _ fs _ 0 c c); done. }
  pose proof sector_range as Hs. set (k := sqlite3SectorSize osSectorSize) in *.
  pose proof (round_up (walFrameOffset (flen fs + 1) sz) k ltac:(lia)) as Hr.
  set (off := walFrameOffset (flen fs + 1) sz) in *. cbv zeta. set (pt := (off + k - 1) / k * k) in *.
  apply wp_bind. apply wp_bind. eapply wp_mono.
  { apply (pad_loop_ok (Z.to_nat k) (mkWriter pt flags sz) q p nt 0 fs c); try done. cbn [iSyncPoint]. fold off. lia. }
  intros [[iOff nEx]| |] c2; cbn [okp]; [|done..]. cbn [iSyncPoint]. fold off.
  intros (n & -> & R2 & Re2 & P2 & Hn & D). unfold after at 1. wp_go. cbn [snd].
  assert (Hn' : Z.of_nat n <= max_pad) by (unfold max_pad; destruct Hn as [->|Hn]; nia).
  destruct (Z.eqb_spec pt off) as [Heq|Hne].
  - by apply (sync_ok _ fs _ n c c2).
  - wp_go. cbn [okp]. exists n. split_and!; try done. intros _. by rewrite decide_True in D by lia.
Qed.
End Seal.
