(* ===== verification/WalFinish.v ===== *)
(** * The end of a transaction

    The file may be cut to its limit; the frames appended are entered in the
    index; the header of the connection, and at a commit that in shared memory,
    are replaced. *)
From S2P Require Import Prelude Bits Bytes Varint Wal WalIndex WalRecover WalRecovery WalHdr WalWrite WalFile WalTx WalLoops WalSeal.

(** ** Steps that may change the index *)

(** As [steady], but frames may be added to the index. *)
Record near (c c' : conn) : Prop := {
  nr_wal : exists k ck a ro, c_wal c' = set_iReCksum k (set_cksum ck (set_readOnly ro (set_apWiData a (c_wal c))));
  nr_hdr : hdr_kept (c_wi c) (c_wi c');
  nr_ptr : ptr_kept (c_wi c) (c_wi c');
  nr_pages : map page_of (pList c') = map page_of (pList c);
  nr_held : r_held (c_rs c') = r_held (c_rs c) /\ c_shared c' = c_shared c;
}.
Lemma steady_near c c' : steady c c' -> near c c'.
Proof. by intros [A B C D E F G]. Qed.
Lemma near_trans c1 c2 c3 : near c1 c2 -> near c2 c3 -> near c1 c3.
Proof.
  intros [(k & ck & a & ro & A) B C D E] [(k' & ck' & a' & ro' & A') B' C' D' E']. split.
  - exists k', ck', a', ro'. by rewrite A', A.
  - by eapply hdr_kept_trans.
  - intros h ptr H1 H2. apply C'; [by apply C|done].
  - congruence.
  - by destruct E, E'; split; congruence.
Qed.
Lemma near_fields c c' :
  near c c' ->
  szPage (c_wal c') = szPage (c_wal c) /\ readLock (c_wal c') = readLock (c_wal c) /\
  exclusiveMode (c_wal c') = exclusiveMode (c_wal c) /\ minFrame (c_wal c') = minFrame (c_wal c) /\
  writeLock (c_wal c') = writeLock (c_wal c) /\
  exists ck, hdr (c_wal c') = hdr_set_cksum ck (hdr (c_wal c)).
Proof. intros [(k & ck & a & ro & E) _ _ _ _]. rewrite E. split_and!; try done. by exists ck. Qed.

(** ** Errors are errors *)

(** No call ends with an error code that means success. *)
Definition honest {S A} (m : M S A) : Prop := forall s, fst (m s) <> Fail SQLITE_OK.
Lemma honest_bind {S A B} (m : M S A) (f : A -> M S B) : honest m -> (forall a, honest (f a)) -> honest (bind m f).
Proof.
  intros H1 H2 s. unfold bind. specialize (H1 s). destruct (m s) as [[a|rc|] s']; cbn in *; [apply H2|congruence|done].
Qed.
Lemma honest_fail {S A} rc : rc <> SQLITE_OK -> honest (fail rc : M S A).
Proof. intros H s. cbn. congruence. Qed.
Lemma honest_lift {S A} (o : option A) : honest (lift o : M S A).
Proof. intros s. by destruct o. Qed.
Ltac honest :=
  repeat first
    [ assumption
    | by intros ?
    | apply honest_lift
    | apply honest_bind; [|intros ?]
    | apply honest_fail; done
    | case_match ].

Section Append.
Context (mallocOk : nat -> bool) (shmRc : nat -> Z).
Lemma walIndexPage_honest h : honest (walIndexPage mallocOk shmRc h).
Proof.
  assert (Hm : honest (wi_malloc mallocOk)) by done. assert (Hs : forall b, honest (sqlite3OsShmMap shmRc h b)).
  { intros b s. unfold sqlite3OsShmMap. by repeat case_match. }
  assert (Hr : honest (walIndexPageRealloc mallocOk shmRc h)).
  { unfold walIndexPageRealloc, wiData_grow. honest; apply Hm || apply Hs. }
  unfold walIndexPage. honest.
Qed.
Lemma walHashGet_honest h : honest (walHashGet mallocOk shmRc h).
Proof.
  unfold walHashGet. apply honest_bind; [apply walIndexPage_honest|]. intros [rc ptr].
  destruct ptr; destruct (Z.eqb_spec rc SQLITE_OK); cbn [negb]; by first [apply honest_fail|intros ?].
Qed.
Lemma walCleanupHash_honest : honest (walCleanupHash mallocOk shmRc).
Proof.
  unfold walCleanupHash. apply honest_bind; [done|]. intros mx. case_match; [done|]. intros s.
  destruct (walHashGet _ _ _ s) as [[loc|rc|] s']; [|done..].
  match goal with |- fst (?m s') <> _ => cut (honest m); [intros Hm; apply Hm|] end. honest.
Qed.
Lemma walIndexAppend_honest n k : honest (walIndexAppend mallocOk shmRc n k).
Proof.
  unfold walIndexAppend, clear_table, append_entry. apply honest_bind; [apply walHashGet_honest|]. intros loc. cbv zeta.
  pose proof walCleanupHash_honest. honest.
Qed.

(** The rest of the connection. *)
Definition same_io (c c' : conn) : Prop :=
  c_file c' = c_file c /\ pList c' = pList c /\ synced c' = synced c /\ mxWalSize c' = mxWalSize c /\
  iReCksum (c_wal c') = iReCksum (c_wal c) /\ hdr (c_wal c') = hdr (c_wal c).
Lemma same_io_trans c1 c2 c3 : same_io c1 c2 -> same_io c2 c3 -> same_io c1 c3.
Proof. intros (?&?&?&?&?&?) (?&?&?&?&?&?). split_and!; congruence. Qed.
Lemma near_refl c : near c c.
Proof. apply steady_near, steady_refl. Qed.

Lemma near_index c s :
  wal_same (c_wal c) (wal s) -> hdr_kept (c_wi c) s -> ptr_kept (c_wi c) s ->
  let c' := set_rs (set_wi s (c_rs c)) c in near c c' /\ same_io c c'.
Proof.
  intros Hw Hh Hp c'. assert (E : c_wal c' = set_readOnly (readOnly (wal s)) (set_apWiData (apWiData (wal s)) (c_wal c))) by exact Hw.
  split; [split; try done|split_and!; try done; by rewrite E].
  exists (iReCksum (c_wal c)), (aFrameCksum (hdr (c_wal c))), (apWiData (wal s)), (readOnly (wal s)). rewrite E.
  by destruct (c_wal c) as [???????? [] ???].
Qed.

(** The index holds the frames of the pages [base], those of [keys], and
    perhaps remnants, which the next frame removes. *)
Definition enters (base keys : list Z) (c : conn) : Prop :=
  exists log, index_ok log (c_wi c) /\ blen (base ++ keys) <= blen log /\
    take (Z.to_nat (blen (base ++ keys))) log = base ++ keys /\
    (blen (base ++ keys) = blen log \/ blen (base ++ keys) = mxFrame (hdr (c_wal c))) /\
    (forall i, blen base < i <= blen (base ++ keys) -> mapped (walFramePage i) (c_wi c)).
Definition holds (base : list Z) (c : conn) : Prop := exists rem, index_ok (base ++ rem) (c_wi c).

Lemma enters_holds base keys c : enters base keys c -> holds base c.
Proof.
  intros (log & I & Hl & Ht & _). exists (keys ++ drop (Z.to_nat (blen (base ++ keys))) log).
  set (n := Z.to_nat _) in *. by rewrite app_assoc, <- Ht, take_drop.
Qed.
Lemma holds_steady base c c' : (forall log, index_ok log (c_wi c) -> index_ok log (c_wi c')) -> holds base c -> holds base c'.
Proof. intros H [rem I]. exists rem. auto. Qed.

Lemma enter_one base keys pg c :
  enters base keys c -> blen (base ++ keys) + 1 < max_frame -> 0 < pg < 2 ^ 32 ->
  wp (on_rs (on_rc (walIndexAppend mallocOk shmRc (u32 (blen (base ++ keys) + 1)) pg))) (returns (fun rc c' =>
    near c c' /\ same_io c c' /\ holds base c' /\ (rc = SQLITE_OK -> enters base (keys ++ [pg]) c'))) c.
Proof.
  intros En Hmax Hpg. pose proof En as (log & I & Hl & Ht & Hn & Hm). unfold max_frame in Hmax.
  pose proof (blen_nonneg (base ++ keys)) as H0. rewrite u32_small by lia.
  pose proof (walIndexAppend_ok mallocOk shmRc log (blen (base ++ keys)) pg (c_wi c) I ltac:(lia) ltac:(done) Hpg Hn) as H.
  pose proof (walIndexAppend_honest (blen (base ++ keys) + 1) pg (c_wi c)) as Hh.
  unfold on_rs, on_rc, wp in *. change (r_wi (c_rs c)) with (c_wi c).
  destruct (walIndexAppend _ _ _ _ (c_wi c)) as [[[]|e|] s]; cbn [fst snd okp returns] in *; [| |done].
  - destruct H as (I' & W & _ & _ & Hk & Pk & Mp). destruct (near_index c s W Hk Pk) as [N S]. split; [exact N|]. split; [exact S|].
    rewrite Ht, <- app_assoc in I'. split; [by exists (keys ++ [pg])|]. intros _. exists (base ++ keys ++ [pg]).
    split; [exact I'|]. split; [lia|]. split; [unfold blen; rewrite Nat2Z.id; by apply take_ge|]. split; [by left|].
    intros i Hi. destruct (decide (i = blen (base ++ keys) + 1)) as [->|Hne]; [exact Mp|].
    apply (mapped_kept _ (c_wi c)); [done|]. apply Hm. rewrite !blen_app in *. change (blen [pg]) with 1 in Hi. lia.
  - destruct H as (I' & X). destruct X as (W & X1 & X2 & X3 & X4).
    destruct (near_index c s W) as [N S]; [by apply view_ext_hdr|exact X3|]. split; [exact N|]. split; [exact S|].
    split; [|intros ->; done]. apply (enters_holds _ keys). exists log. split; [exact I'|].
    split; [done|]. split; [done|]. destruct S as (_ & _ & _ & _ & _ & S6). rewrite S6. split; [done|].
    intros i Hi. apply (mapped_kept _ (c_wi c)); [exact X3|by apply Hm].
Qed.

Lemma index_fail l n rc : rc <> SQLITE_OK -> index_loop mallocOk shmRc l n rc = ret (rc, n).
Proof. intros H. destruct l; cbn [index_loop]; [done|]. by destruct (Z.eqb_spec rc SQLITE_OK). Qed.

Lemma index_loop_ok base l keys c :
  enters base keys c -> blen (base ++ keys) + Z.of_nat (length l) < max_frame -> Forall (fun p => 0 < pgno p < 2 ^ 32) l ->
  wp (index_loop mallocOk shmRc l (blen (base ++ keys)) SQLITE_OK) (returns (fun '(rc, iFrame) c' =>
    near c c' /\ same_io c c' /\ holds base c' /\
    (rc = SQLITE_OK -> let keys' := keys ++ map pgno (filter wal_append l) in
       enters base keys' c' /\ iFrame = blen (base ++ keys')))) c.
Proof.
  revert keys c. induction l as [|p l IH]; intros keys c En Hmax Hl.
  { cbn [index_loop]. wp_go. cbn [returns okp]. split; [apply near_refl|]. split; [done|].
    split; [by eapply enters_holds|]. intros _. cbn. by rewrite app_nil_r. }
  apply list.Forall_cons in Hl as [Hp Hl]. cbn [index_loop length] in *. change (negb (SQLITE_OK =? SQLITE_OK)) with false. cbv iota.
  destruct (wal_append p) eqn:Ea; cbn [negb].
  - wp_step. eapply wp_mono; [apply (enter_one base keys (pgno p) c); [done|lia|done]|].
    intros [rc| |] c2; cbn [returns okp]; [|done..]. intros (N & S & H & En2). unfold after at 1.
    destruct (Z.eqb_spec rc SQLITE_OK) as [->|Hrc].
    + specialize (En2 eq_refl). assert (Hb : u32 (blen (base ++ keys) + 1) = blen (base ++ keys ++ [pgno p])).
      { pose proof (blen_nonneg (base ++ keys)). unfold max_frame in Hmax. rewrite u32_small by lia.
        rewrite !blen_app. unfold blen. cbn [length]. lia. }
      rewrite Hb. eapply okp_mono; [apply IH; [done| |done]|].
      { rewrite <- Hb. pose proof (blen_nonneg (base ++ keys)). unfold max_frame in *. rewrite u32_small by lia. lia. }
      cbn beta. intros [rc iF] c3 (N3 & S3 & H3 & E3). split; [by eapply near_trans|]. split; [by eapply same_io_trans|].
      split; [done|]. intros Hrc. destruct (E3 Hrc) as [E4 E5]. rewrite <- app_assoc in E4, E5.
      assert (Hfil : map pgno (filter wal_append (p :: l)) = [pgno p] ++ map pgno (filter wal_append l)).
      { rewrite filter_cons_True by (by rewrite Ea). done. }
      by rewrite Hfil.
    + rewrite index_fail by done. wp_go. cbn [returns okp]. split_and!; done.
  - eapply okp_mono; [apply IH; [done|lia|done]|]. cbn beta. intros [rc iF] c3 (N3 & S3 & H3 & E3).
    assert (Hfil : map pgno (filter wal_append (p :: l)) = map pgno (filter wal_append l)).
    { rewrite filter_cons_False by (rewrite Ea; by intros []). done. }
    by rewrite Hfil.
Qed.

(** The copies of the last frame are entered like a list of pages. *)
Lemma extra_loop_eq n pg iFrame rc s :
  extra_loop mallocOk shmRc n pg iFrame rc s = index_loop mallocOk shmRc (replicate n (mkPg pg [] true)) iFrame rc s.
Proof.
  revert iFrame rc s. induction n as [|n IH]; intros iFrame rc s; [done|]. cbn [extra_loop replicate index_loop wal_append negb].
  destruct (negb (rc =? SQLITE_OK)); [done|]. unfold bind. cbn [pgno].
  destruct (on_rs _ s) as [[rc'|e|] s']; [apply IH|done..].
Qed.
Lemma filter_replicate n pg : map pgno (filter wal_append (replicate n (mkPg pg [] true))) = replicate n pg.
Proof. induction n as [|n IH]; [done|]. cbn [replicate]. rewrite filter_cons_True by done. cbn [map]. by rewrite IH. Qed.

Section Finish.
Context (SQLITE_BIGENDIAN : bool).

(** A connection whose header follows the frames [base ++ keys]. *)
Record finished (base keys : list Z) (hN : WalIndexHdr) (isCommit : bool) (c c' : conn) : Prop := {
  fi_wal : exists a ro, c_wal c' = set_hdr (if isCommit then sealed SQLITE_BIGENDIAN hN else hN) (set_readOnly ro (set_apWiData a (c_wal c)));
  fi_ptr : ptr_kept (c_wi c) (c_wi c');
  fi_file : c_file c' = c_file c;
  fi_list : pList c' = pList c;
  fi_synced : synced c' = synced c;
  fi_held : r_held (c_rs c') = r_held (c_rs c) /\ c_shared c' = c_shared c;
  fi_index : exists rem, index_ok (base ++ keys ++ rem) (c_wi c');
  fi_mapped i : blen base < i <= blen (base ++ keys) -> mapped (walFramePage i) (c_wi c');
  fi_public : if isCommit then published SQLITE_BIGENDIAN (c_wi c') else hdr_kept (c_wi c) (c_wi c');
}.

Lemma enter_all base l n pg c :
  enters base [] c -> blen base + Z.of_nat (length l) + Z.of_nat n < max_frame ->
  Forall (fun p => 0 < pgno p < 2 ^ 32) l -> (n <> 0%nat -> 0 < pg < 2 ^ 32) ->
  wp (let* r := index_loop mallocOk shmRc l (blen base) SQLITE_OK in
      let '(rc, iFrame) := r in extra_loop mallocOk shmRc n pg iFrame rc) (returns (fun '(rc, iFrame) c' =>
    near c c' /\ same_io c c' /\ holds base c' /\
    (rc = SQLITE_OK -> let keys := map pgno (filter wal_append l) ++ replicate n pg in
       enters base keys c' /\ iFrame = blen (base ++ keys)))) c.
Proof.
  intros En Hmax Hl Hpg. eapply wp_seq.
  { pose proof (index_loop_ok base l [] c En) as H. rewrite app_nil_r in H. apply H; [lia|done]. }
  intros [rc iF] c2 (N & S & H & E). set (Q := okp _ _). change (Q (extra_loop mallocOk shmRc n pg iF rc c2).1 (extra_loop mallocOk shmRc n pg iF rc c2).2).
  rewrite extra_loop_eq. destruct (Z.eqb_spec rc SQLITE_OK) as [->|Hrc].
  - destruct (E eq_refl) as [En2 ->]. cbn [app] in *. eapply okp_mono; [apply (index_loop_ok base _ _ c2 En2)|].
    + rewrite length_replicate, blen_app. pose proof (length_filter wal_append l). unfold blen at 2. rewrite length_map. lia.
    + destruct n as [|n]; [by constructor|]. apply Forall_replicate. by apply Hpg.
    + cbn beta. intros [rc iF] c3 (N3 & S3 & H3 & E3). split; [by eapply near_trans|]. split; [by eapply same_io_trans|].
      split; [done|]. intros Hrc. specialize (E3 Hrc). by rewrite filter_replicate in E3.
  - rewrite index_fail by done. cbn. split_and!; done.
Qed.

Lemma wal_back k ck a ro p p' :
  p' = set_iReCksum k (set_cksum ck (set_readOnly ro (set_apWiData a p))) -> iReCksum p' = iReCksum p -> hdr p' = hdr p ->
  p' = set_hdr (hdr p) (set_readOnly ro (set_apWiData a p)).
Proof.
  intros ->. destruct p. unfold set_iReCksum, set_cksum, set_readOnly, set_apWiData, set_hdr. cbn. intros -> E2. by rewrite E2.
Qed.

Lemma finish_header base keys sz nt (isCommit : bool) c c2 :
  near c c2 -> same_io c c2 -> enters base keys c2 -> apWiData (c_wal c) !! 0%nat = Some (Shared 0) -> salted (hdr (c_wal c)) ->
  let hN := hdr_frames sz (blen (base ++ keys)) (if isCommit then Some nt else None) (hdr (c_wal c)) in
  wp (set_conn_wal (fun p => set_hdr (hdr_frames sz (blen (base ++ keys)) (if isCommit then Some nt else None) (hdr p)) p) ;;*
      if isCommit then on_index (walIndexWriteHdr SQLITE_BIGENDIAN) ;;* modify (set_iCallback (blen (base ++ keys))) ;;* ret SQLITE_OK
      else ret SQLITE_OK) (returns (fun rc c' => rc = SQLITE_OK /\ finished base keys hN isCommit c c')) c2.
Proof.
  intros N S (log & I & Hl & Ht & _ & Hm) Ha Hs hN. wp_step. apply wp_set_conn_wal. unfold after at 1.
  pose proof S as (S1 & S2 & S3 & _ & S5 & S6). rewrite S6. fold hN. set (c3 := with_wal (set_hdr hN (c_wal c2)) c2).
  destruct N as [(k & ck & a & ro & W) N2 N3 _ N5].
  assert (E : c_wal c2 = set_hdr (hdr (c_wal c)) (set_readOnly ro (set_apWiData a (c_wal c)))).
  { by eapply wal_back. }
  assert (I3 : index_ok log (c_wi c3)) by (by apply index_set_wal).
  assert (Hlog : exists rem, log = base ++ keys ++ rem).
  { exists (drop (Z.to_nat (blen (base ++ keys))) log). rewrite app_assoc. set (n := Z.to_nat (blen (base ++ keys))) in *. by rewrite <- Ht, take_drop. }
  destruct Hlog as [rem ->]. destruct isCommit.
  - wp_step. unfold on_index. apply wp_on_rs, wp_on_wi. change (r_wi (c_rs c3)) with (c_wi c3).
    eapply wp_mono; [apply (walIndexWriteHdr_ok SQLITE_BIGENDIAN (c_wi c3)); [apply I3| |exact Hs]|].
    { change (apWiData (wal (c_wi c3))) with (apWiData (c_wal c2)). by apply (N3 0%nat). }
    intros [[]| |] s'; cbn [returns okp]; [|done..]. intros [Q P]. unfold after at 1. wp_go. cbn [returns okp]. split; [done|].
    pose proof (q_wal _ _ _ _ Q) as Qw. split; try done.
    + exists a, ro. etransitivity; [exact Qw|]. change (wal (c_wi c3)) with (set_hdr hN (c_wal c2)). by rewrite E.
    + intros h ptr H1 H2. change (apWiData (wal s') !! h = Some ptr). rewrite Qw. by apply (N3 h).
    + exists rem. apply (q_index _ _ _ _ Q). by apply index_set_wal.
    + intros i Hi. destruct (Hm i Hi) as (ptr & H1 & H2). exists ptr. split; [|done].
      change (apWiData (wal s') !! walFramePage i = Some ptr). by rewrite Qw.
  - wp_go. cbn [returns okp]. split; [done|]. split; try done.
    + exists a, ro. change (set_hdr hN (c_wal c2) = set_hdr hN (set_readOnly ro (set_apWiData a (c_wal c)))). by rewrite E.
    + by exists rem.
Qed.

Lemma frames_finish_ok base q n sz nt (isCommit : bool) pLast c rc :
  enters base [] c -> mxFrame (hdr (c_wal c)) = blen base ->
  match pLast with Some i => pList c !! i = Some q | None => n = 0%nat end ->
  blen base + Z.of_nat (length (pList c)) + Z.of_nat n < max_frame -> Forall (fun p => 0 < pgno p < 2 ^ 32) (pList c) ->
  apWiData (c_wal c) !! 0%nat = Some (Shared 0) -> salted (hdr (c_wal c)) ->
  let keys := map pgno (filter wal_append (pList c)) ++ replicate n (pgno q) in
  let hN := hdr_frames sz (blen (base ++ keys)) (if isCommit then Some nt else None) (hdr (c_wal c)) in
  wp (frames_finish SQLITE_BIGENDIAN mallocOk shmRc sz nt isCommit pLast (Z.of_nat n) rc) (returns (fun rc' c' =>
    (rc' = SQLITE_OK -> rc = SQLITE_OK /\ finished base keys hN isCommit c c') /\
    (rc' <> SQLITE_OK -> near c c' /\ same_io c c' /\ holds base c'))) c.
Proof.
  intros En Hmx Hq Hmax Hl Ha Hs keys hN. unfold frames_finish. do 2 wp_step. unfold after at 1. do 2 wp_step. unfold after at 1.
  rewrite Hmx. destruct (Z.eqb_spec rc SQLITE_OK) as [->|Hrc].
  2:{ rewrite index_fail by done. wp_go.
    assert (Hx : wp (match pLast with
      | Some i => let* q0 := lift (pList c !! i) in extra_loop mallocOk shmRc (Z.to_nat (Z.of_nat n)) (pgno q0) (blen base) rc
      | None => ret (rc, blen base) end) (fun o s => o = Ret (rc, blen base) /\ s = c) c).
    { destruct pLast; [|by wp_go]. rewrite Hq. do 2 wp_step. unfold after at 1. unfold wp. by rewrite extra_loop_eq, index_fail. }
    eapply wp_mono; [exact Hx|]. intros o s [-> ->]. unfold after at 1. destruct (Z.eqb_spec rc SQLITE_OK); [done|].
    wp_go. cbn [returns okp]. split; [done|]. intros _. split; [apply near_refl|]. split; [done|by eapply enters_holds]. }
  assert (Hpg : n <> 0%nat -> 0 < pgno q < 2 ^ 32).
  { intros Hn. destruct pLast; [|done]. exact (Forall_lookup_1 _ _ _ _ Hl Hq). }
  pose proof (enter_all base (pList c) n (pgno q) c En Hmax Hl Hpg) as HA. apply wp_bind_inv in HA.
  wp_step. eapply wp_mono; [exact HA|]. intros [[rc iF]| |] c2 H; [|done..]. unfold after in H at 1. unfold after at 1.
  assert (Hx : wp (match pLast with
      | Some i => let* q0 := lift (pList c !! i) in extra_loop mallocOk shmRc (Z.to_nat (Z.of_nat n)) (pgno q0) iF rc
      | None => ret (rc, iF) end) (returns (fun '(rc, iFrame) c' => near c c' /\ same_io c c' /\ holds base c' /\
        (rc = SQLITE_OK -> enters base keys c' /\ iFrame = blen (base ++ keys)))) c2).
  { destruct pLast; [|subst n; exact H]. rewrite Hq. do 2 wp_step. unfold after at 1. rewrite Nat2Z.id. exact H. }
  eapply wp_seq; [exact Hx|]. intros [rc3 iF3] c3 (N & S & Hh & E).
  destruct (Z.eqb_spec rc3 SQLITE_OK) as [->|Hrc].
  - destruct (E eq_refl) as [En3 ->]. eapply okp_mono; [by apply (finish_header base keys sz nt isCommit c c3)|].
    cbn beta. intros rc' c' [-> F]. split; done.
  - wp_go. cbn [returns okp]. split; [done|]. done.
Qed.
End Finish.
End Append.

(** ** Cutting the file *)

Section Limit.
Context (ioRc : nat -> Z) (sz : Z).
Hypothesis (Hsz : 512 <= sz <= SQLITE_MAX_PAGE_SIZE).
Context (m0 : Z) (c0 : conn).

(** Only the file behind the frames differs. *)
Record cut (fs : list fent) (c c' : conn) : Prop := {
  cu_steady : steady c c';
  cu_wal : c_wal c' = c_wal c;
  cu_list : pList c' = pList c;
  cu_synced : synced c' = synced c;
  cu_file : below (walFrameOffset (flen fs + 1) sz) (c_file c) (c_file c');
  cu_bytes : bytes_ok (c_file c');
}.

Lemma cut_run fs c c' : m0 <= flen fs -> run_ok sz m0 c0 fs c -> cut fs c c' -> run_ok sz m0 c0 fs c'.
Proof.
  intros Hm [A [F [C1 C2 C3 C4] Re Ck] B R] [St W _ _ Be Ob].
  pose proof (file_head_len sz ltac:(lia) _ _ _ F) as H32. pose proof (fk_len _ _ _ _ F) as Hlen.
  destruct (file_below sz _ _ fs _ ltac:(lia) F Be Ob) as [Hh F'].
  assert (H32' : 32 <= blen (c_file c')) by (by eapply file_head_len; [|exact F']; lia).
  destruct (head_eq _ _ Hh H32 H32') as (Eb & _ & Es & Ec). split.
  - by eapply steady_trans.
  - split; rewrite ?W; [done|split; rewrite ?W; [done|by rewrite Eb|by rewrite Es|by apply (head_ok_eq sz (c_file c))]|done|].
    intros H. rewrite Ck by done. symmetry.
    destruct (below_frames sz _ _ (flen fs) ltac:(lia) ltac:(unfold flen; lia) Hlen Be) as (_ & _ & _ & _ & Hk). apply Hk. unfold flen. lia.
  - eapply below_trans; [exact B|]. destruct Be as [B1 B2]. pose proof (foff_le sz ltac:(lia) (m0 + 1) (flen fs + 1) ltac:(lia)).
    split; [|intros j Hj; apply B2; lia]. intros _. specialize (B1 Hlen). lia.
  - by rewrite W.
Qed.
Lemma cut_durable fs gs c c' : run_ok sz m0 c0 fs c -> cut fs c c' -> durable sz gs c -> durable sz gs c'.
Proof.
  intros R [_ _ _ S Be Ob] [D1 D2]. split; rewrite S; [done|]. pose proof (af_file _ _ _ (ro_at _ _ _ _ _ R)) as F.
  destruct (file_below sz _ _ fs _ ltac:(lia) F Be Ob) as [Hh _]. unfold same_head in *. congruence.
Qed.

Lemma walLimitSize_ok nMax fs c :
  bytes_ok (c_file c) -> walFrameOffset (flen fs + 1) sz <= nMax ->
  wp (walLimitSize ioRc nMax) (returns (fun _ => cut fs c)) c.
Proof.
  intros Ob Hn. assert (C0 : forall c', c' = set_rs (count_io (c_rs c)) c -> cut fs c c').
  { intros c' ->. split; try done. apply steady_count. }
  unfold walLimitSize. wp_step. apply wp_on_rs. unfold wp, sqlite3OsFileSize. cbn [fst snd]. unfold after at 1.
  destruct (_ && _) eqn:E; [|wp_go; by apply C0]. apply andb_true_iff in E as [_ E]. rewrite Z.ltb_lt in E.
  wp_step. unfold wp, sqlite3OsTruncate. cbn [fst snd]. unfold after at 1. wp_go. cbn [returns okp].
  case_match; [|destruct (C0 _ eq_refl) as [St W P S B O]; split; try done; eapply steady_trans; [exact St|apply steady_count]].
  change (r_file _) with (c_file c) in *. unfold zeros. replace (Z.to_nat (nMax - blen (c_file c))) with 0%nat by lia.
  cbn [replicate]. rewrite app_nil_r. split; try done.
  - eapply steady_trans; [apply steady_count|]. apply (steady_io (take (Z.to_nat nMax) (c_file c))).
  - split; [intros Hx; unfold blen in *; cbn; rewrite length_take; lia|]. intros j Hj. unfold bat. cbn.
    rewrite !(proj2 (Z.leb_le 0 j)) by lia. by rewrite lookup_take_lt by lia.
  - by apply Forall_take.
Qed.
End Limit.
