(* ===== verification/WalStart.v ===== *)
(** * The start of a transaction

    Reading the header that is published, and writing the header of a log
    that starts. *)
From S2P Require Import Prelude Bits Bytes Varint Wal WalIndex WalRecover WalRecovery WalHdr WalWrite WalFile WalTx WalLoops WalSeal WalFinish.

Section Public.
Context (SQLITE_BIGENDIAN : bool).

(** Both copies of the header in shared memory are [h]. *)
Definition public (h : WalIndexHdr) (s : wi) : Prop :=
  exists ws g, hdr_words SQLITE_BIGENDIAN h = Some ws /\ view s 0%nat = Some g /\
    forall j, 0 <= j < 12 -> bat (words g) j = bat ws j /\ bat (words g) (12 + j) = bat ws j.
Lemma published_public s : published SQLITE_BIGENDIAN s -> public (hdr (wal s)) s.
Proof. done. Qed.
Lemma public_kept h s s' : hdr_kept s s' -> public h s -> public h s'.
Proof.
  intros K (ws & g & Hw & Hg & H). destruct (K g Hg) as (g' & Hg' & E). exists ws, g'. split; [done|]. split; [done|].
  intros j Hj. rewrite !E by (change (toff 0) with 34; lia). by apply H.
Qed.

Lemma public_words_ok h c :
  public h (c_wi c) -> wi_wf (c_wi c) -> apWiData (c_wal c) !! 0%nat = Some (Shared 0) -> salted h ->
  exists ws, hdr_words SQLITE_BIGENDIAN h = Some ws /\ read_words 0 12 (c_wi c) = (Ret ws, c_wi c).
Proof.
  intros (ws & g & Hw & Hg & H) W Ha Hs. exists ws. split; [done|].
  destruct (hdr_words_ok SQLITE_BIGENDIAN h Hs) as (ws' & E & Hl). assert (ws' = ws) as -> by congruence.
  pose proof (view_sized _ _ _ W Hg) as [Hlen _]. unfold c_wal in Ha.
  assert (Hd : deref (c_wi c) (Shared 0) = Some g) by (unfold view in Hg; by rewrite Ha in Hg).
  unfold read_words, bind, gets, lift. cbn [id]. rewrite Ha. unfold ret at 1. cbv beta iota. rewrite Hd. unfold ret at 1. cbv beta iota.
  destruct (bsub_in (words g) 0 12) as [d Ed]; [lia|lia|unfold HASHTABLE_NPAGE in Hlen; lia|]. rewrite Ed. unfold ret.
  assert (d = ws) as ->; [|done]. apply bytes_ext; rewrite (bsub_len _ _ _ _ Ed); [unfold blen; lia|].
  intros j Hj. rewrite (bsub_at _ _ _ _ _ Ed) by lia. apply H. lia.
Qed.

Lemma live_hdr_ok h c :
  public h (c_wi c) -> wi_wf (c_wi c) -> apWiData (c_wal c) !! 0%nat = Some (Shared 0) -> salted h -> salted (hdr (c_wal c)) ->
  wp (live_hdr SQLITE_BIGENDIAN) (returns (fun r c' => c' = c /\ hdr_words SQLITE_BIGENDIAN h = Some (snd r) /\
    (fst r = false -> hdr_words SQLITE_BIGENDIAN (hdr (c_wal c)) = Some (snd r)))) c.
Proof.
  intros P W Ha Hs Hs'. destruct (public_words_ok h c P W Ha Hs) as (ws & Ew & Er). unfold live_hdr.
  wp_step. unfold on_index. apply wp_on_rs, wp_on_wi. change (r_wi (c_rs c)) with (c_wi c). unfold wp at 1. rewrite Er. cbn [fst snd].
  assert (Ec : set_rs (set_wi (c_wi c) (c_rs c)) c = c) by (by destruct c as [[] ? ? ? ? ? ? ? ? ?]).
  rewrite Ec. unfold after at 1. do 2 wp_step. unfold after at 1.
  destruct (hdr_words_ok SQLITE_BIGENDIAN _ Hs') as (mine & Em & _). rewrite Em. do 2 wp_step. unfold after at 1.
  wp_go. cbn [returns okp fst snd]. split; [done|]. split; [done|]. intros Hd. rewrite negb_false_iff, bool_decide_eq_true in Hd. congruence.
Qed.
Lemma words_mx h ws : hdr_words SQLITE_BIGENDIAN h = Some ws -> bget ws 4 = Some (mxFrame h).
Proof.
  unfold hdr_words. destruct (load32 _ _ 0); [|done]. destruct (load32 _ _ 4); [|done]. cbn [mbind option_bind]. by intros [= <-].
Qed.
End Public.

(** ** A new log *)

Section Header.
Context (SQLITE_BIGENDIAN : bool) (ioRc : nat -> Z) (partial : nat -> Z) (randomness : nat -> bytes).
Context (sz : Z).
Hypothesis (Hsz : 512 <= sz <= SQLITE_MAX_PAGE_SIZE).
Hypothesis (Hrand : forall n, bytes_ok (randomness n)).

(** What starting a log changes: the fields of the header that describe the
    log, the page size, and the file. *)
Record restarted (c c' : conn) : Prop := {
  rt_wal : exists salt ck, salted (hdr_salt salt (hdr (c_wal c))) /\
    c_wal c' = set_hdr (hdr_set_cksum ck (hdr_start SQLITE_BIGENDIAN salt (hdr (c_wal c)))) (set_szPage sz (c_wal c));
  rt_wi : c_wi c' = set_wal (c_wal c') (c_wi c);
  rt_list : pList c' = pList c;
  rt_held : r_held (c_rs c') = r_held (c_rs c) /\ c_shared c' = c_shared c;
  rt_conf : padToSectorBoundary c' = padToSectorBoundary c /\ mxWalSize c' = mxWalSize c;
  rt_bytes : bytes_ok (c_file c');
}.

(** The 32 bytes of the header. *)
Lemma header_bytes_ok ck salt :
  blen salt = 8 -> bytes_ok salt ->
  exists h1 h2 h3 h4 h5 c h6 h7,
    sqlite3Put4byte (zeros WAL_HDRSIZE) 0 (Z.lor WAL_MAGIC (if SQLITE_BIGENDIAN then 1 else 0)) = Some h1 /\
    sqlite3Put4byte h1 4 WAL_MAX_VERSION = Some h2 /\ sqlite3Put4byte h2 8 sz = Some h3 /\
    sqlite3Put4byte h3 12 ck = Some h4 /\ blit h4 16 salt = Some h5 /\
    walChecksumBytes SQLITE_BIGENDIAN true h5 (WAL_HDRSIZE - 8) None = Some c /\
    sqlite3Put4byte h5 24 (fst c) = Some h6 /\ sqlite3Put4byte h6 28 (snd c) = Some h7 /\
    bytes_ok h7 /\ blen h7 = 32 /\
    (forall f', seg f' 0 32 = h7 -> 32 <= blen f' ->
       head_ok sz f' /\ log_big f' = SQLITE_BIGENDIAN /\ log_salt f' = salt /\ log_cksum f' = c).
Proof.
  intros Ls Os. pose proof (zeros_len WAL_HDRSIZE ltac:(done)) as L0. change WAL_HDRSIZE with 32 in *.
  set (magic := Z.lor WAL_MAGIC _). assert (Hmg : 0 <= magic < 2 ^ 32 /\ Z.testbit magic 0 = SQLITE_BIGENDIAN /\ Z.land magic 0xFFFFFFFE = WAL_MAGIC).
  { by destruct SQLITE_BIGENDIAN. }
  destruct (Put4byte_in (zeros 32) 0 magic) as [h1 E1]; [lia..|]. pose proof (Put4byte_len _ _ _ _ E1) as L1. pose proof (Put4byte_ok _ _ _ _ (zeros_ok _) E1) as O1.
  destruct (Put4byte_in h1 4 WAL_MAX_VERSION) as [h2 E2]; [lia..|]. pose proof (Put4byte_len _ _ _ _ E2) as L2. pose proof (Put4byte_ok _ _ _ _ O1 E2) as O2.
  destruct (Put4byte_in h2 8 sz) as [h3 E3]; [lia..|]. pose proof (Put4byte_len _ _ _ _ E3) as L3. pose proof (Put4byte_ok _ _ _ _ O2 E3) as O3.
  destruct (Put4byte_in h3 12 ck) as [h4 E4]; [lia..|]. pose proof (Put4byte_len _ _ _ _ E4) as L4. pose proof (Put4byte_ok _ _ _ _ O3 E4) as O4.
  destruct (blit_in h4 16 salt) as [h5 E5]; [lia..|]. pose proof (blit_len _ _ _ _ E5) as L5. pose proof (blit_ok _ _ _ _ O4 Os E5) as O5.
  set (c := cksum SQLITE_BIGENDIAN (seg h5 0 24) (0, 0)).
  pose proof (walChecksum_ok SQLITE_BIGENDIAN SQLITE_BIGENDIAN h5 24 None O5 ltac:(lia) eq_refl) as Ec. rewrite eqb_reflx in Ec.
  assert (Hc : 0 <= fst c < 2 ^ 32 /\ 0 <= snd c < 2 ^ 32).
  { apply (cksum_range _ 3); [rewrite seg_len by lia; done|done|done]. }
  destruct (Put4byte_in h5 24 (fst c)) as [h6 E6]; [lia..|]. pose proof (Put4byte_len _ _ _ _ E6) as L6. pose proof (Put4byte_ok _ _ _ _ O5 E6) as O6.
  destruct (Put4byte_in h6 28 (snd c)) as [h7 E7]; [lia..|]. pose proof (Put4byte_len _ _ _ _ E7) as L7. pose proof (Put4byte_ok _ _ _ _ O6 E7) as O7.
  exists h1, h2, h3, h4, h5, c, h6, h7. split_and!; try done; [lia|].
  assert (B5 : forall j, j < 16 -> bat h5 j = bat h4 j) by (intros j Hj; rewrite (blit_at _ _ _ _ _ E5); by destruct (Z.leb_spec 16 j); [lia|]).
  assert (B7 : forall j, j < 24 -> bat h7 j = bat h5 j).
  { intros j Hj. by rewrite (Put4byte_at _ _ _ _ _ E7), (Put4byte_at _ _ _ _ _ E6) by lia. }
  assert (A7 : forall i, i + 4 <= 16 -> at4 h7 i = at4 h4 i).
  { intros i Hi. apply at4_eq. intros j Hj. by rewrite B7, B5 by lia. }
  intros f' Hf Hlen. assert (Hat : forall i, 0 <= i <= 28 -> at4 f' i = at4 h7 i).
  { intros i Hi. rewrite <- Hf. by rewrite at4_of_seg by lia. }
  assert (Hseg : forall i n, 0 <= i -> 0 <= n -> i + n <= 24 -> seg f' i n = seg h5 i n).
  { intros i n H1 H2 H3. apply bytes_ext; unfold blen; rewrite seg_len by lia; [by rewrite seg_len by lia|]. intros j Hj.
    rewrite !seg_at by lia. rewrite <- B7 by lia. rewrite <- Hf, seg_at by lia. done. }
  assert (M0 : at4 f' 0 = magic).
  { rewrite Hat, A7 by lia. rewrite (Put4byte_at4_other _ _ _ _ _ E4), (Put4byte_at4_other _ _ _ _ _ E3), (Put4byte_at4_other _ _ _ _ _ E2) by lia.
    apply (Put4byte_at4 _ _ _ _ E1), Hmg. }
  assert (Hb : log_big f' = SQLITE_BIGENDIAN) by (unfold log_big; rewrite M0; apply Hmg).
  assert (Hk : log_cksum f' = c) by (unfold log_cksum; rewrite Hb, Hseg by lia; done).
  split_and!; [|done| |done].
  - split; [rewrite M0; apply Hmg|]. split.
    + unfold log_size. rewrite Hat, A7 by lia. rewrite (Put4byte_at4_other _ _ _ _ _ E4) by lia. unfold SQLITE_MAX_PAGE_SIZE in Hsz.
      rewrite (Put4byte_at4 _ _ _ _ E3) by lia. apply i32_small. lia.
    + rewrite Hk, !Hat by lia. rewrite (Put4byte_at4_other _ _ _ _ _ E7) by lia. rewrite (Put4byte_at4 _ _ _ _ E6), (Put4byte_at4 _ _ _ _ E7) by apply Hc.
      by destruct c.
  - unfold log_salt. rewrite Hseg by lia. apply bytes_ext; unfold blen; rewrite seg_len by lia; [unfold blen in Ls; lia|].
    intros j Hj. rewrite seg_at by lia. rewrite (blit_at _ _ _ _ _ E5).
    destruct (Z.leb_spec 16 (16 + j)), (Z.ltb_spec (16 + j) (16 + blen salt)); try lia. cbn [andb]. f_equal. lia.
Qed.

Definition with_file (f : bytes) (r : rs) : rs := count_io (set_file f r).

(** The steps after the choice of the salt. *)
Lemma header_written flags c c1 salt :
  salted (hdr_salt salt (hdr (c_wal c))) -> bytes_ok (c_file c) -> iReCksum (c_wal c) = 0 ->
  c_wal c1 = set_hdr (hdr_salt salt (hdr (c_wal c))) (c_wal c) -> c_wi c1 = set_wal (c_wal c1) (c_wi c) ->
  c_file c1 = c_file c -> pList c1 = pList c -> r_held (c_rs c1) = r_held (c_rs c) -> c_shared c1 = c_shared c ->
  padToSectorBoundary c1 = padToSectorBoundary c -> mxWalSize c1 = mxWalSize c ->
  forall h1 h2 h3 h4,
    sqlite3Put4byte (zeros WAL_HDRSIZE) 0 (Z.lor WAL_MAGIC (if SQLITE_BIGENDIAN then 1 else 0)) = Some h1 ->
    sqlite3Put4byte h1 4 WAL_MAX_VERSION = Some h2 -> sqlite3Put4byte h2 8 sz = Some h3 ->
    sqlite3Put4byte h3 12 (nCkpt (c_wal c)) = Some h4 ->
  wp (let* p := gets c_wal in
      let* h := lift (blit h4 16 (aSalt (hdr p))) in
      let* c := lift (walChecksumBytes SQLITE_BIGENDIAN true h (WAL_HDRSIZE - 8) None) in
      let* h := lift (sqlite3Put4byte h 24 (fst c)) in
      let* h := lift (sqlite3Put4byte h 28 (snd c)) in
      set_conn_wal (set_szPage sz) ;;*
      set_conn_wal (fun p => set_hdr (hdr_start SQLITE_BIGENDIAN (aSalt (hdr p)) (hdr p)) p) ;;*
      set_conn_wal (set_cksum c) ;;*
      modify (set_truncateOnCommit true) ;;*
      let* rc := sqlite3OsWrite ioRc partial h 0 in
      check rc ;;*
      let* b := gets syncHeader in
      if b then let* rc := sqlite3OsSync ioRc (CKPT_SYNC_FLAGS flags) in check rc else ret tt)
    (okp (restarted c) (fun _ c' => restarted c c' /\ at_frame sz [] c')) c1.
Proof.
  intros Hs Ob Hre W1 X1 F1 P1 R1 S1 D1 M1 h1 h2 h3 h4 E1 E2 E3 E4.
  destruct (header_bytes_ok (nCkpt (c_wal c)) salt) as (h1' & h2' & h3' & h4' & h5 & ck & h6 & h7 & E1' & E2' & E3' & E4' & E5 & Ec & E6 & E7 & O7 & L7 & Hh); [apply Hs..|].
  assert (h4' = h4) as -> by congruence.
  do 2 wp_step. unfold after at 1. rewrite W1. change (aSalt (hdr (set_hdr _ _))) with salt. rewrite E5.
  do 2 wp_step. unfold after at 1. rewrite Ec. do 2 wp_step. unfold after at 1. rewrite E6. do 2 wp_step. unfold after at 1.
  rewrite E7. do 2 wp_step. unfold after at 1. wp_step. apply wp_set_conn_wal. unfold after at 1. wp_step. apply wp_set_conn_wal. unfold after at 1.
  wp_step. apply wp_set_conn_wal. unfold after at 1. do 2 wp_step. unfold after at 1. wp_step. apply wp_write.
  set (c2 := set_truncateOnCommit true _). intros rc f' G1 [k G2]. unfold after at 1.
  change (c_file c2) with (c_file c1) in *. rewrite F1 in *.
  assert (W2 : c_wal c2 = set_hdr (hdr_set_cksum ck (hdr_start SQLITE_BIGENDIAN salt (hdr (c_wal c)))) (set_szPage sz (c_wal c))).
  { change (c_wal c2) with (set_cksum ck (set_hdr (hdr_start SQLITE_BIGENDIAN (aSalt (hdr (c_wal c1))) (hdr (c_wal c1))) (set_szPage sz (c_wal c1)))).
    rewrite W1. done. }
  assert (Rt : forall c', c_wi c' = c_wi c2 -> pList c' = pList c2 -> r_held (c_rs c') = r_held (c_rs c2) -> c_shared c' = c_shared c2 ->
    padToSectorBoundary c' = padToSectorBoundary c2 -> mxWalSize c' = mxWalSize c2 -> bytes_ok (c_file c') -> restarted c c').
  { intros c' A1 A2 A3 A4 A5 A6 A7. assert (Wc : c_wal c' = c_wal c2) by (unfold c_wal; by rewrite A1). split; try done.
    - exists salt, ck. split; [done|]. by rewrite Wc.
    - rewrite Wc, A1. change (c_wi c2) with (set_wal (c_wal c2) (c_wi c1)). rewrite X1. done.
    - rewrite A2. done.
    - rewrite A3, A4. done.
    - rewrite A5, A6. done. }
  assert (O' : bytes_ok f') by (subst f'; by apply log_write_ok; [|apply take_ok]).
  wp_step. apply wp_check; intros Hrc; unfold after at 1.
  2:{ cbn [okp]. by apply Rt. }
  specialize (G1 Hrc). assert (At : forall c', c_wal c' = c_wal c2 -> c_file c' = f' -> at_frame sz [] c').
  { intros c' Wc Fc. pose proof (seg_write (c_file c) 0 h7 ltac:(lia)) as Hseg. rewrite L7, <- G1 in Hseg.
    assert (Hlen : 32 <= blen f') by (rewrite G1, log_write_len, L7 by lia; destruct (Z.eqb_spec 32 0); lia).
    destruct (Hh f' Hseg Hlen) as (H1 & H2 & H3 & H4).
    assert (Hre' : iReCksum (c_wal c') = 0) by (rewrite Wc, W2; exact Hre).
    split; rewrite ?Hre', ?Fc; [cbn [Z.eqb]|split; rewrite ?Fc, ?Wc, ?W2; done|done|intros _; rewrite Wc, W2; change (ck_at sz f' (flen [])) with (log_cksum f'); by rewrite H4].
    split; [done|change (flen [] + 1) with 1; rewrite (foff_eq sz 1); lia| |done|]; intros i Hi; change (flen []) with 0 in Hi; lia. }
  do 2 wp_step. unfold after at 1. destruct (syncHeader _).
  2:{ wp_go. cbn [okp]. split; [by apply Rt|by apply At]. }
  wp_step. unfold wp at 1, sqlite3OsSync.
  destruct (_ =? 0); [wp_go; unfold after at 1; apply wp_check; intros Hrc2; cbn [okp]; [split|]; by first [apply Rt|apply At]|].
  cbn [fst snd]. unfold after at 1. destruct (_ =? _); (apply wp_check; intros Hrc2; cbn [okp]; [split|]; by first [apply Rt|apply At]).
Qed.

Lemma write_wal_header_ok flags c :
  salted (hdr (c_wal c)) -> bytes_ok (c_file c) -> iReCksum (c_wal c) = 0 ->
  wp (write_wal_header SQLITE_BIGENDIAN ioRc partial randomness sz flags)
    (okp (restarted c) (fun _ c' => restarted c c' /\ at_frame sz [] c')) c.
Proof.
  intros Hs Ob Hre. unfold write_wal_header. do 2 wp_step. unfold after at 1. cbv zeta.
  destruct (header_bytes_ok (nCkpt (c_wal c)) (aSalt (hdr (c_wal c)))) as (h1 & h2 & h3 & h4 & _ & _ & _ & _ & E1 & E2 & E3 & E4 & _); [apply Hs..|].
  rewrite E1. do 2 wp_step. unfold after at 1. rewrite E2. do 2 wp_step. unfold after at 1. rewrite E3. do 2 wp_step. unfold after at 1.
  rewrite E4. do 2 wp_step. unfold after at 1. wp_step. destruct (Z.eqb_spec (nCkpt (c_wal c)) 0) as [Hn|Hn].
  - wp_step. unfold wp at 1, sqlite3_randomness. cbn [fst snd]. unfold after at 1.
    set (salt := take _ _). assert (Ls : blen salt = 8 /\ bytes_ok salt).
    { unfold salt. split; [unfold blen; rewrite length_take, length_app; unfold zeros; rewrite length_replicate; lia|].
      apply Forall_take, Forall_app_2; [apply Hrand|apply zeros_ok]. }
    apply wp_set_conn_wal. unfold after at 1. by apply (header_written flags c _ salt) with (h1 := h1) (h2 := h2) (h3 := h3).
  - wp_step. unfold after at 1. apply (header_written flags c c (aSalt (hdr (c_wal c)))) with (h1 := h1) (h2 := h2) (h3 := h3); try done.
    + by destruct (c_wal c) as [???????? [] ???].
    + by destruct c as [[[] ? ? ?] ? ? ? ? ? ? ? ? ?].
Qed.
End Header.
