(* ===== verification/WalCommit.v ===== *)
(** * Transactions of the log

    [walFrames] from end to end: what a successful call has written and
    published, and what any other outcome leaves untouched. *)
From S2P Require Import Prelude Bits Bytes Varint Wal WalIndex WalRecover WalRecovery WalHdr WalWrite WalFile WalTx WalLoops WalSeal WalFinish WalStart.

Section Writer.
Context (SQLITE_BIGENDIAN : bool) (sz : Z).
Hypothesis (Hsz : 512 <= sz <= SQLITE_MAX_PAGE_SIZE).

(** A page size as the header stores it. *)
Definition size_field : Z := u16 (Z.lor (Z.land sz 0xff00) (Z.shiftr sz 16)).

(** The published header [h] describes the first [m0] frames of file [f]. *)
Record describes (h : WalIndexHdr) (m0 : Z) (fs : list fent) (f : bytes) : Prop := {
  ds_big : bigEndCksum h = log_big f;
  ds_salt : aSalt h = log_salt f;
  ds_cks : aFrameCksum h = ck_at sz f m0;
  ds_size : hdr_szPage h = size_field;
  ds_last : exists e, fs !! Z.to_nat (m0 - 1) = Some e /\ fe_size e = hdr_nPage h /\ 0 < fe_size e;
}.

(** A connection that holds the write lock: the log has the frames [fs], of
    which the first [m0] are committed, under the published header [h]. *)
Record writer (m0 : Z) (fs : list fent) (h : WalIndexHdr) (c : conn) : Prop := {
  wr_index : holds (map fe_page fs) c;
  wr_ptr : apWiData (c_wal c) !! 0%nat = Some (Shared 0);
  wr_public : public SQLITE_BIGENDIAN h (c_wi c);
  wr_salted : hdr_ok h /\ salted (hdr (c_wal c));
  wr_mapped i : m0 < i <= flen fs -> mapped (walFramePage i) (c_wi c);
  wr_mx : mxFrame (hdr (c_wal c)) = flen fs;
  wr_m0 : mxFrame h = m0 /\ 0 <= m0 <= flen fs;
  wr_min : 1 <= minFrame (c_wal c) < max_frame;
  wr_lock : readLock (c_wal c) <> 0;
  wr_bytes : bytes_ok (c_file c);
  wr_file : fs <> [] -> at_frame sz fs c;
  wr_size : fs <> [] -> hdr_szPage (hdr (c_wal c)) = size_field;
  wr_re : iReCksum (c_wal c) = 0 \/ m0 < iReCksum (c_wal c) /\ fs <> [];
  wr_sizes j e : (Z.to_nat m0 <= j)%nat -> fs !! j = Some e -> fe_size e = 0;
  wr_desc : 0 < m0 -> describes h m0 fs (c_file c);
}.

(** After an error: the transaction is lost, what was committed is intact. *)
Record aborted (m0 : Z) (fs : list fent) (h : WalIndexHdr) (c c' : conn) : Prop := {
  ab_index : holds (map fe_page fs) c';
  ab_ptr : apWiData (c_wal c') !! 0%nat = Some (Shared 0);
  ab_public : public SQLITE_BIGENDIAN h (c_wi c');
  ab_mapped i : m0 < i <= flen fs -> mapped (walFramePage i) (c_wi c');
  ab_mx : mxFrame (hdr (c_wal c')) = flen fs;
  ab_min : minFrame (c_wal c') = minFrame (c_wal c);
  ab_lock : readLock (c_wal c') = readLock (c_wal c) /\ writeLock (c_wal c') = writeLock (c_wal c);
  ab_bytes : bytes_ok (c_file c');
  ab_size : 0 < m0 -> szPage (c_wal c') = sz;
  ab_below : 0 < m0 -> below (walFrameOffset (m0 + 1) sz) (c_file c) (c_file c');
}.

(** Ready to write: the log exists. *)
Record ready (m0 : Z) (fs : list fent) (h : WalIndexHdr) (c c1 : conn) : Prop := {
  rd_at : at_frame sz fs c1;
  rd_index : holds (map fe_page fs) c1;
  rd_ptr : apWiData (c_wal c1) !! 0%nat = Some (Shared 0);
  rd_public : public SQLITE_BIGENDIAN h (c_wi c1);
  rd_mapped i : m0 < i <= flen fs -> mapped (walFramePage i) (c_wi c1);
  rd_salted : salted (hdr (c_wal c1));
  rd_mx : mxFrame (hdr (c_wal c1)) = flen fs;
  rd_min : minFrame (c_wal c1) = minFrame (c_wal c);
  rd_lock : readLock (c_wal c1) = readLock (c_wal c) /\ writeLock (c_wal c1) = writeLock (c_wal c);
  rd_re : iReCksum (c_wal c1) = 0 \/ m0 < iReCksum (c_wal c1);
  rd_list : pList c1 = pList c;
  rd_below : 0 < m0 -> c_file c1 = c_file c;
}.

Lemma near_aborted m0 fs h c c1 c' :
  ready m0 fs h c c1 -> near c1 c' -> holds (map fe_page fs) c' -> bytes_ok (c_file c') ->
  below (walFrameOffset (m0 + 1) sz) (c_file c1) (c_file c') -> aborted m0 fs h c c'.
Proof.
  intros R N H Ob B. destruct (near_fields _ _ N) as (N1 & N2 & _ & N4 & N5 & ck & N6). destruct R.
  split; try done.
  - apply (nr_ptr _ _ N 0%nat); done.
  - eapply public_kept; [apply N|done].
  - intros i Hi. apply (mapped_kept _ (c_wi c1)); [apply N|by apply rd_mapped0].
  - by rewrite N6.
  - congruence.
  - split; [destruct rd_lock0; congruence..].
  - intros _. rewrite N1. apply rd_at0.
  - intros Hm. by rewrite <- rd_below0.
Qed.
Lemma failed_aborted m0 fs h c c1 c' : ready m0 fs h c c1 -> failed sz m0 c1 c' -> aborted m0 fs h c c'.
Proof.
  intros R (St & B & Ob). apply (near_aborted m0 fs h c c1); try done; [by apply steady_near|].
  eapply holds_steady; [apply (sd_index _ _ St)|apply R].
Qed.

(** *** The log starts, or goes on *)

Lemma restarted_aborted h c c' : writer 0 [] h c -> restarted SQLITE_BIGENDIAN sz c c' -> aborted 0 [] h c c'.
Proof.
  intros W [(salt & ck & Hs & Wc) Rw _ _ _ Ob].
  assert (Hw : apWiData (c_wal c') = apWiData (c_wal c) /\ exclusiveMode (c_wal c') = exclusiveMode (c_wal c)) by (by rewrite Wc).
  destruct Hw as [Ha Hx]. destruct W. split; try done; rewrite ?Ha; try done.
  - destruct wr_index0 as [rem I]. exists rem. rewrite Rw. by apply index_set_wal.
  - destruct wr_public0 as (ws & g & H1 & H2 & H3). exists ws, g. rewrite Rw, view_set_wal by done. done.
  - intros i Hi. change (flen []) with 0 in Hi. lia.
  - by rewrite Wc.
  - by rewrite Wc.
  - by rewrite Wc.
Qed.

Lemma begin_ok ioRc partial randomness flags m0 fs h c :
  (forall n, bytes_ok (randomness n)) -> writer m0 fs h c ->
  wp (if mxFrame (hdr (c_wal c)) =? 0 then write_wal_header SQLITE_BIGENDIAN ioRc partial randomness sz flags else ret tt)
    (okp (aborted m0 fs h c) (fun _ => ready m0 fs h c)) c.
Proof.
  intros Hr W. rewrite (wr_mx _ _ _ _ W). destruct (Z.eqb_spec (flen fs) 0) as [E|E].
  - assert (fs = []) as -> by (destruct fs; [done|unfold flen in E; cbn in E; lia]).
    assert (m0 = 0) as -> by (pose proof (wr_m0 _ _ _ _ W) as [_ H]; change (flen []) with 0 in H; lia).
    assert (Hre : iReCksum (c_wal c) = 0) by (destruct (wr_re _ _ _ _ W) as [|[_ Hx]]; done).
    eapply wp_mono; [apply (write_wal_header_ok SQLITE_BIGENDIAN ioRc partial randomness sz Hsz Hr flags c); [apply W|apply W|done]|].
    intros [[]| |] c'; cbn [okp]; [|by apply restarted_aborted|done]. intros [Rt At]. destruct (restarted_aborted h c c' W Rt) as [A1 A2 A3 A4 A5 A6 A7 A8 A9 A10].
    destruct Rt as [(salt & ck & Hsalt & Wc) Rw Rl _ _ _]. split; try done.
    + rewrite Wc. exact Hsalt.
    + left. rewrite Wc. exact Hre.
  - wp_go. cbn [okp]. assert (Hne : fs <> []) by (intros ->; done). destruct W. split; try done.
    + by apply wr_file0.
    + apply wr_salted0.
    + destruct wr_re0 as [|[? _]]; auto.
Qed.

(** *** What the loop has written *)

(** The log [fs1] once the pages [l] (with their flags) are written after
    [fs], the last frame with size field [cm]. *)
Record grown (m0 : Z) (fs : list fent) (l : list PgHdr) (cm : Z) (fs1 : list fent) (pLast : option nat) : Prop := {
  gr_pages : map fe_page fs1 = map fe_page fs ++ map pgno (filter wal_append l);
  gr_newest lo k : (lo <= Z.to_nat m0)%nat -> newest (drop lo fs1) k = newest_after (map page_of l) (newest (drop lo fs) k) k;
  gr_old : take (Z.to_nat m0) fs1 = take (Z.to_nat m0) fs;
  gr_size j e : (Z.to_nat m0 <= j)%nat -> fs1 !! j = Some e -> fe_size e = if decide (S j = length fs1) then cm else 0;
  gr_last : match pLast with
            | Some q => exists p fs2, l !! q = Some p /\ fs1 = fs2 ++ [(pgno p, cm, pData p)] /\ (length fs <= length fs2)%nat
            | None => True
            end;
}.

Lemma loop_grown m0 fs c1 n cm fs1 pLast c2 :
  n = length (pList c1) -> loop_inv sz m0 fs c1 n fs1 cm pLast c2 ->
  run_ok sz m0 c1 fs1 c2 /\ grown m0 fs (pList c2) cm fs1 pLast /\ synced c2 = synced c1.
Proof.
  intros -> [A B D E F G H I J K N]. pose proof (sd_pages _ _ A) as Hp.
  assert (Hl : length (pList c1) = length (pList c2)) by (by rewrite <- (length_map page_of), <- Hp, length_map).
  split; [by split|]. split; [|done]. split; try done.
  - rewrite <- (take_drop (length fs) fs1) at 1. rewrite map_app, D, E. rewrite Hl, take_ge by done. done.
  - intros lo k Hlo. rewrite F, <- Hp by done. by rewrite take_ge by (rewrite length_map; lia).
  - destruct pLast; [|done]. destruct N as (_ & p & fs2 & H1 & H2 & H3). by exists p, fs2.
Qed.

Lemma loop_start m0 fs h c c1 :
  writer m0 fs h c -> ready m0 fs h c c1 -> loop_inv sz m0 fs c1 0 fs 0 None c1.
Proof.
  intros W R. destruct R. split; try done.
  - apply steady_refl.
  - by rewrite firstn_all.
  - by rewrite drop_ge.
  - intros j e Hj He. rewrite (wr_sizes _ _ _ _ W j e Hj He). by case_decide.
Qed.

(** Repeating the last frame changes no content. *)
Lemma newest_repeat fs1 fs2 e n k : fs1 = fs2 ++ [e] -> newest (fs1 ++ replicate n e) k = newest fs1 k.
Proof.
  intros ->. induction n as [|n IH]; [by rewrite app_nil_r|].
  rewrite replicate_S_end, app_assoc, newest_snoc, IH, newest_snoc. by case_decide.
Qed.
End Writer.

Section Stages.
Context (SQLITE_BIGENDIAN : bool) (mallocOk : nat -> bool) (shmRc ioRc : nat -> Z) (lockRc : nat -> Z -> Z -> Z)
  (partial : nat -> Z) (osSectorSize : Z) (randomness : nat -> bytes).
Context (sz : Z).
Hypothesis (Hsz : 512 <= sz <= SQLITE_MAX_PAGE_SIZE) (Hal : sz mod 8 = 0).
Context (m0 : Z) (c1 : conn) (isCommit : bool) (nTruncate : Z).
Hypothesis (Hm0 : 0 <= m0) (Hnt : 0 <= nTruncate < 2 ^ 32).

Lemma seal_stage fs1 c :
  run_ok sz m0 c1 fs1 c -> wi_wf (c_wi c) -> paged fs1 ->
  wp (let* p := gets c_wal in
      if isCommit && negb (iReCksum p =? 0)
      then let* rc := walRewriteChecksums SQLITE_BIGENDIAN mallocOk ioRc partial (flen fs1) in check rc else ret tt)
    (okp (failed sz m0 c1) (fun _ c' => run_ok sz m0 c1 fs1 c' /\ pList c' = pList c /\ (isCommit = true -> iReCksum (c_wal c') = 0))) c.
Proof.
  intros R W Hpg. do 2 wp_step. unfold after at 1. destruct isCommit; cbn [andb]; [|by wp_go].
  destruct (Z.eqb_spec (iReCksum (c_wal c)) 0) as [E|E]; cbn [negb]; [by wp_go|].
  wp_step. eapply wp_mono; [by apply (walRewriteChecksums_ok SQLITE_BIGENDIAN mallocOk ioRc partial sz Hsz Hal m0 c1 Hm0 fs1 c)|].
  intros [rc| |] c'; cbn [returns okp]; [|done..]. intros (Hf & [K1 K2] & Ok). unfold after at 1.
  apply wp_check; intros Hrc; cbn [okp]; [|done]. destruct (Ok Hrc). by split_and!.
Qed.

(** The log after the padding: [n] copies of the last frame. *)
Definition synced_log (flags : Z) (fs1 : list fent) (e : fent) (c : conn) (r : Z * Z) (c' : conn) : Prop :=
  let '(rc, nExtra) := r in
  exists n, nExtra = Z.of_nat n /\ Z.of_nat n <= max_pad /\ run_ok sz m0 c1 (fs1 ++ replicate n e) c' /\ pList c' = pList c /\
    (if isCommit then iReCksum (c_wal c') = 0 /\ (rc = SQLITE_OK -> WAL_SYNC_FLAGS flags <> 0 -> durable sz fs1 c')
     else n = 0%nat /\ rc = SQLITE_OK).

Lemma sync_stage flags fs1 q p c :
  run_ok sz m0 c1 fs1 c -> (isCommit = true -> iReCksum (c_wal c) = 0 /\ q <> None) ->
  (forall i, q = Some i -> pList c !! i = Some p) -> (q <> None -> page_ok sz p) -> m0 <= flen fs1 ->
  wp (if isCommit && negb (WAL_SYNC_FLAGS flags =? 0)
      then pad_and_sync SQLITE_BIGENDIAN ioRc partial osSectorSize sz flags nTruncate (walFrameOffset (flen fs1 + 1) sz) q
      else ret (SQLITE_OK, 0))
    (okp (failed sz m0 c1) (synced_log flags fs1 (pgno p, nTruncate, pData p) c)) c.
Proof.
  intros R Hc Hq Hp Hm. assert (R0 : run_ok sz m0 c1 (fs1 ++ replicate 0 (pgno p, nTruncate, pData p)) c) by (by rewrite app_nil_r).
  destruct isCommit eqn:Hic; cbn [andb].
  - destruct (Hc eq_refl) as [Hre Hne]. destruct q as [i|]; [|done].
    destruct (Z.eqb_spec (WAL_SYNC_FLAGS flags) 0) as [E|E]; cbn [negb].
    + wp_go. cbn [okp]. exists 0%nat. rewrite Hic. split; [done|]. split; [done|]. split; [done|]. split; [done|]. split; [done|].
      intros _ H. contradiction.
    + eapply okp_mono; [by apply (pad_and_sync_ok SQLITE_BIGENDIAN ioRc partial osSectorSize sz Hsz Hal m0 c1 Hm0 i p flags nTruncate fs1 c); auto|].
      cbn beta. intros [rc nExtra] c' (n & H1 & H2 & H3 & H4 & H5 & H6). exists n. rewrite Hic. split_and!; auto.
  - wp_go. cbn [okp]. exists 0%nat. rewrite Hic. by split_and!.
Qed.

(** The state in which the index is brought up to date. *)
Record near_log (fs : list fent) (c : conn) : Prop := {
  nl_near : near c1 c;
  nl_index log : index_ok log (c_wi c1) -> index_ok log (c_wi c);
  nl_at : at_frame sz fs c;
  nl_below : below (walFrameOffset (m0 + 1) sz) (c_file c1) (c_file c);
  nl_re : iReCksum (c_wal c) = 0 \/ m0 < iReCksum (c_wal c);
}.
Lemma run_near_log fs c : run_ok sz m0 c1 fs c -> near_log fs c.
Proof. intros [A B C D]. split; try done; [by apply steady_near|apply A]. Qed.

Lemma limit_stage (t : bool) mxSize fs iFrame nExtra c :
  run_ok sz m0 c1 fs c -> iFrame + nExtra = flen fs -> flen fs + 1 < 2 ^ 32 -> m0 <= flen fs ->
  wp (if isCommit && t && (0 <=? mxSize) then
        let e := walFrameOffset (u32 (iFrame + nExtra + 1)) sz in
        walLimitSize ioRc (if mxSize <? e then e else mxSize) ;;* modify (set_truncateOnCommit false)
      else ret tt)
    (returns (fun _ c' => near_log fs c' /\ pList c' = pList c /\ iReCksum (c_wal c') = iReCksum (c_wal c) /\
       (forall gs, durable sz gs c -> durable sz gs c'))) c.
Proof.
  intros R E Hmax Hm. destruct (_ && _).
  2:{ wp_go. cbn [returns okp]. split; [by apply run_near_log|done]. }
  cbv zeta. rewrite E, u32_small by (unfold flen in *; lia). set (e := walFrameOffset (flen fs + 1) sz).
  eapply wp_seq; [apply (walLimitSize_ok ioRc sz _ fs c)|].
  { apply (af_file _ _ _ (ro_at _ _ _ _ _ R)). }
  { destruct (Z.ltb_spec mxSize e); fold e; lia. }
  intros [] c2 Cu. pose proof (cut_run sz Hsz m0 c1 fs c c2 Hm R Cu) as R2. wp_go. cbn [returns okp].
  destruct (run_near_log fs c2 R2) as [A B C D F]. split.
  - split; try done; [|by apply (at_frame_eq sz fs c2)]. destruct A as [N1 N2 N3 N4 N5]. by split.
  - split; [apply Cu|]. split; [by rewrite <- (cu_wal _ _ _ _ Cu)|].
    intros gs Hd. destruct (cut_durable sz Hsz m0 c1 fs gs c c2 R Cu Hd) as [D1 D2]. by split.
Qed.
End Stages.

(** ** The state a successful call leaves *)

Section Final.
Context (SQLITE_BIGENDIAN : bool) (sz : Z).
Hypothesis (Hsz : 512 <= sz <= SQLITE_MAX_PAGE_SIZE).

Lemma at_frame_hdr fs c c' h a ro :
  at_frame sz fs c -> c_file c' = c_file c -> c_wal c' = set_hdr h (set_readOnly ro (set_apWiData a (c_wal c))) ->
  bigEndCksum h = bigEndCksum (hdr (c_wal c)) -> aSalt h = aSalt (hdr (c_wal c)) ->
  aFrameCksum h = aFrameCksum (hdr (c_wal c)) -> at_frame sz fs c'.
Proof.
  intros [A [B1 B2 B3 B4] C D] F W E1 E2 E3.
  assert (Hw : iReCksum (c_wal c') = iReCksum (c_wal c) /\ szPage (c_wal c') = szPage (c_wal c) /\ hdr (c_wal c') = h) by (by rewrite W).
  destruct Hw as (W1 & W2 & W3). split; [|split|..]; rewrite ?F, ?W1, ?W2, ?W3, ?E1, ?E2, ?E3; done.
Qed.

Lemma describes_below h m0 fs f f' fs' :
  0 < m0 -> walFrameOffset (m0 + 1) sz <= blen f -> below (walFrameOffset (m0 + 1) sz) f f' ->
  take (Z.to_nat m0) fs' = take (Z.to_nat m0) fs -> describes sz h m0 fs f -> describes sz h m0 fs' f'.
Proof.
  intros Hm Hlen B Ht [D1 D2 D3 DS (e' & D4 & D5)].
  destruct (below_frames sz f f' m0 ltac:(lia) ltac:(lia) Hlen B) as (Hh & L1 & L2 & _ & Hk).
  destruct (head_eq _ _ Hh L1 L2) as (E1 & _ & E3 & _). split; [congruence|congruence| |done|].
  - rewrite Hk by lia. done.
  - exists e'. split; [|done]. rewrite <- D4. rewrite <- (lookup_take_lt _ (Z.to_nat m0)) by lia.
    rewrite Ht. apply lookup_take_lt. lia.
Qed.

Context (m0 : Z) (fs : list fent) (h : WalIndexHdr) (c c1 : conn) (l : list PgHdr) (isCommit : bool) (nTruncate : Z).
Context (fs1 : list fent) (q : option nat) (p : PgHdr) (n : nat) (c5 c6 : conn).
Abbreviation e := (pgno p, nTruncate, pData p).
Abbreviation fsF := (fs1 ++ replicate n e).
Abbreviation cm := (if isCommit then nTruncate else 0).
Abbreviation keys := (map pgno (filter wal_append l) ++ replicate n (pgno p)).
Abbreviation hN := (hdr_frames sz (blen (map fe_page fs ++ keys)) (if isCommit then Some nTruncate else None) (hdr (c_wal c5))).
Hypothesis (W : writer SQLITE_BIGENDIAN sz m0 fs h c) (R : ready SQLITE_BIGENDIAN sz m0 fs h c c1) (G : grown m0 fs l cm fs1 q).
Hypothesis (Hq : forall i, q = Some i -> l !! i = Some p) (Hn : isCommit = false -> n = 0%nat).
Hypothesis (N : near_log sz m0 c1 fsF c5) (Hl : pList c5 = l).
Hypothesis (F : finished SQLITE_BIGENDIAN (map fe_page fs) keys hN isCommit c5 c6).

Lemma final_pages : map fe_page fsF = map fe_page fs ++ keys.
Proof.
  rewrite map_app, (gr_pages _ _ _ _ _ _ G), <- app_assoc. do 2 f_equal.
  exact (fmap_replicate fe_page n e).
Qed.
Lemma final_len : blen (map fe_page fs ++ keys) = flen fsF.
Proof. rewrite <- final_pages. unfold blen, flen. by rewrite length_map. Qed.

Lemma final_at : at_frame sz fsF c6.
Proof.
  destruct (fi_wal _ _ _ _ _ _ _ F) as (a & ro & E). eapply at_frame_hdr; [apply N|apply F|exact E|..]; by destruct isCommit.
Qed.
Lemma final_wal : mxFrame (hdr (c_wal c6)) = flen fsF /\ minFrame (c_wal c6) = minFrame (c_wal c) /\
  readLock (c_wal c6) = readLock (c_wal c) /\ iReCksum (c_wal c6) = iReCksum (c_wal c5) /\
  hdr_szPage (hdr (c_wal c6)) = size_field sz /\ salted (hdr (c_wal c6)) /\
  (isCommit = true -> hdr_ok (hdr (c_wal c6)) /\ hdr_nPage (hdr (c_wal c6)) = nTruncate).
Proof.
  destruct (fi_wal _ _ _ _ _ _ _ F) as (a & ro & E). rewrite E. rewrite <- final_len.
  destruct (near_fields _ _ (nl_near _ _ _ _ _ N)) as (_ & N2 & _ & N4 & _ & ck & N6).
  pose proof (rd_salted _ _ _ _ _ _ _ R) as Hs. destruct R. cbn.
  split; [by destruct isCommit|]. split; [congruence|]. split; [destruct rd_lock0; congruence|]. split; [done|].
  split; [by destruct isCommit|]. assert (Hs5 : salted (hdr (c_wal c5))) by (unfold salted in *; rewrite N6; exact Hs).
  split; [by destruct isCommit|]. intros ->. split; [|done]. split; [exact Hs5|]. split; [cbn; lia|]. apply u16_range.
Qed.

Lemma final_lock : writeLock (c_wal c6) = writeLock (c_wal c).
Proof.
  destruct (fi_wal _ _ _ _ _ _ _ F) as (a & ro & E). rewrite E.
  destruct (near_fields _ _ (nl_near _ _ _ _ _ N)) as (_ & _ & _ & _ & N5 & _).
  destruct (rd_lock _ _ _ _ _ _ _ R) as [_ <-]. exact N5.
Qed.

Lemma final_grown : (length fs <= length fs1)%nat /\ 0 <= m0 <= flen fs /\ flen fs1 <= flen fsF.
Proof.
  pose proof (f_equal length (gr_pages _ _ _ _ _ _ G)) as H. rewrite length_map, length_app, length_map in H.
  pose proof (wr_m0 _ _ _ _ _ _ W) as [_ H0]. unfold flen in *. rewrite length_app. lia.
Qed.

Lemma final_prefix : take (Z.to_nat m0) fsF = take (Z.to_nat m0) fs.
Proof.
  destruct final_grown as (H1 & H2 & _). rewrite take_app_le by (unfold flen in *; lia). apply (gr_old _ _ _ _ _ _ G).
Qed.
Lemma final_below : 0 < m0 -> below (walFrameOffset (m0 + 1) sz) (c_file c) (c_file c6).
Proof. intros H. rewrite <- (rd_below _ _ _ _ _ _ _ R H), (fi_file _ _ _ _ _ _ _ F). apply N. Qed.

Lemma final_describes : 0 < m0 -> describes sz h m0 fsF (c_file c6).
Proof.
  intros Hm. pose proof (wr_m0 _ _ _ _ _ _ W) as [_ H0].
  assert (Hne : fs <> []) by (intros ->; change (flen []) with 0 in H0; lia).
  apply (describes_below h m0 fs (c_file c)); [done| |by apply final_below|apply final_prefix|by apply W].
  pose proof (fk_len _ _ _ _ (af_file _ _ _ (wr_file _ _ _ _ _ _ W Hne))).
  pose proof (foff_le sz ltac:(lia) (m0 + 1) (flen fs + 1) ltac:(lia)). lia.
Qed.

Lemma final_common : holds (map fe_page fsF) c6 /\ apWiData (c_wal c6) !! 0%nat = Some (Shared 0) /\ bytes_ok (c_file c6).
Proof.
  split; [|split].
  - destruct (fi_index _ _ _ _ _ _ _ F) as [rem I]. exists rem. by rewrite final_pages, <- app_assoc.
  - apply (fi_ptr _ _ _ _ _ _ _ F 0%nat); [|done]. apply (nr_ptr _ _ (nl_near _ _ _ _ _ N) 0%nat); [apply R|done].
  - apply (fk_bytes _ _ _ _ (af_file _ _ _ final_at)).
Qed.

Lemma final_mapped i : m0 < i <= flen fsF -> mapped (walFramePage i) (c_wi c6).
Proof.
  intros Hi. destruct (Z.le_gt_cases i (flen fs)) as [Hle|Hgt].
  - apply (mapped_kept _ (c_wi c5)); [apply F|]. apply (mapped_kept _ (c_wi c1)); [apply (nl_near _ _ _ _ _ N)|].
    apply (rd_mapped _ _ _ _ _ _ _ R). lia.
  - apply (fi_mapped _ _ _ _ _ _ _ F). rewrite final_len. unfold blen. rewrite length_map. unfold flen in *. lia.
Qed.

Lemma spill_writer : isCommit = false -> writer SQLITE_BIGENDIAN sz m0 fsF h c6.
Proof.
  intros Hc. destruct final_wal as (W1 & W2 & W3 & W4 & WS & W5 & _). destruct final_grown as (G1 & G2 & G3).
  destruct final_common as (C1 & C2 & C3). split; try done.
  - pose proof (fi_public _ _ _ _ _ _ _ F) as P. rewrite Hc in P. eapply public_kept; [exact P|].
    eapply public_kept; [apply (nl_near _ _ _ _ _ N)|]. apply R.
  - split; [apply W|done].
  - apply final_mapped.
  - split; [apply W|]. unfold flen in *. lia.
  - rewrite W2. apply W.
  - rewrite W3. apply W.
  - intros _. apply final_at.
  - rewrite W4. destruct (nl_re _ _ _ _ _ N) as [Hr|Hr]; [by left|right]. split; [done|]. intros Hx.
    pose proof (af_re _ _ _ (nl_at _ _ _ _ _ N)) as Ha. rewrite Hx in Ha. change (flen []) with 0 in Ha. lia.
  - intros j e' Hj. rewrite (Hn Hc), app_nil_r. intros He. rewrite (gr_size _ _ _ _ _ _ G j e' Hj He), Hc. by case_decide.
  - intros Hm. by apply final_describes.
Qed.

Lemma final_last : isCommit = true -> q <> None -> exists fs2, fs1 = fs2 ++ [e] /\ fsF !! Z.to_nat (flen fsF - 1) = Some e /\ (length fs <= length fs2)%nat.
Proof.
  intros Hc Hne. pose proof (gr_last _ _ _ _ _ _ G) as H. destruct q as [i|]; [|done]. destruct H as (p' & fs2 & Hp & E & Hf2).
  specialize (Hq i eq_refl). assert (p' = p) as -> by congruence. rewrite Hc in E. exists fs2. split; [exact E|]. split; [|exact Hf2].
  rewrite E, <- app_assoc. change ([e] ++ replicate n e) with (replicate (S n) e).
  unfold flen. rewrite length_app, length_replicate, lookup_app_r by lia.
  apply lookup_replicate. split; [done|lia].
Qed.

Lemma commit_writer :
  isCommit = true -> q <> None -> 0 < nTruncate -> iReCksum (c_wal c5) = 0 ->
  writer SQLITE_BIGENDIAN sz (flen fsF) fsF (hdr (c_wal c6)) c6.
Proof.
  intros Hc Hne Hnt Hre. destruct final_wal as (W1 & W2 & W3 & W4 & WS & W5 & W6). destruct final_grown as (G1 & G2 & G3).
  destruct final_common as (C1 & C2 & C3). pose proof final_at as At. split; try done.
  - pose proof (fi_public _ _ _ _ _ _ _ F) as P. rewrite Hc in P. by apply published_public.
  - split; [by apply W6|done].
  - intros i Hi. lia.
  - split; [done|]. unfold flen. lia.
  - rewrite W2. apply W.
  - rewrite W3. apply W.
  - left. congruence.
  - intros j e' Hj He. apply lookup_lt_Some in He. unfold flen in Hj. lia.
  - intros _. destruct At as [A1 [A2 A3 A4 A5] A6 A7]. split; [done|done|apply A7; congruence|done|].
    destruct (final_last Hc Hne) as (_ & _ & El & _). exists e. split; [exact El|]. destruct (W6 Hc) as [_ ->]. done.
Qed.
End Final.
