(* ===== verification/WalFrames.v ===== *)
(** * What a call of [walFrames] does

    The steps of [WalStart], [WalLoops], [WalSeal] and [WalFinish] composed: a
    call writes the request ([written]) or leaves what was committed ([aborted]). *)
From S2P Require Import Prelude Bits Bytes Varint Wal WalIndex WalRecover WalRecovery WalHdr WalWrite WalFile WalTx WalLoops WalSeal WalFinish WalStart WalCommit.

Lemma pages_same sz l l' : map page_of l' = map page_of l -> Forall (page_ok sz) l -> Forall (page_ok sz) l'.
Proof.
  intros E H. apply Forall_lookup_2. intros i p Hp.
  assert (Hi : (map page_of l') !! i = Some (page_of p)) by (rewrite list_lookup_fmap; by rewrite Hp).
  rewrite E, list_lookup_fmap in Hi. destruct (l !! i) as [p0|] eqn:E0; [|done]. cbn in Hi. injection Hi as E1 E2.
  pose proof (Forall_lookup_1 _ _ _ _ H E0) as H0. unfold page_ok in *. by rewrite <- E1, <- E2.
Qed.
Lemma pages_numbers sz l : Forall (page_ok sz) l -> Forall (fun p => 0 < pgno p < 2 ^ 32) l.
Proof. intros H. eapply list.Forall_impl; [exact H|]. by intros p (Hp & _). Qed.
Lemma grown_paged m0 fs l cm fs1 q c sz :
  grown m0 fs l cm fs1 q -> holds (map fe_page fs) c -> Forall (page_ok sz) l -> paged fs1.
Proof.
  intros G [rem I] Hl. pose proof (ix_keys _ _ I) as Hk. apply Forall_app in Hk as [Hk _].
  assert (H : Forall (fun k => 0 < k < 2 ^ 32) (map fe_page fs1)).
  { rewrite (gr_pages _ _ _ _ _ _ G). apply Forall_app_2; [done|]. apply list.Forall_fmap, list.Forall_forall. intros p Hp.
    apply list_elem_of_filter in Hp as [_ Hp]. by apply (proj1 (list.Forall_forall _ _) (pages_numbers sz l Hl)). }
  by apply list.Forall_fmap in H.
Qed.
Lemma holds_enters base c : holds base c -> mxFrame (hdr (c_wal c)) = blen base -> enters base [] c.
Proof.
  intros [rem I] Hm. exists (base ++ rem). rewrite app_nil_r. split; [done|]. rewrite blen_app. pose proof (blen_nonneg rem).
  split; [lia|]. split; [unfold blen; rewrite Nat2Z.id; apply take_app_length|]. split; [right; lia|lia].
Qed.

Section Main.
Context (SQLITE_BIGENDIAN : bool) (mallocOk : nat -> bool) (shmRc ioRc : nat -> Z) (lockRc : nat -> Z -> Z -> Z)
  (partial : nat -> Z) (osSectorSize : Z) (randomness : nat -> bytes).
Context (sz : Z).
Hypothesis (Hsz : 512 <= sz <= SQLITE_MAX_PAGE_SIZE) (Hal : sz mod 8 = 0).
Hypothesis (Hrand : forall n, bytes_ok (randomness n)).
Context (m0 : Z) (fs : list fent) (h : WalIndexHdr) (isCommit : bool) (nTruncate flags : Z).
Hypothesis (Hnt : 0 <= nTruncate < 2 ^ 32) (Hct : isCommit = true -> 0 < nTruncate).

(** The log after a call that succeeds. *)
Definition written (c : conn) (fs' : list fent) (c' : conn) : Prop :=
  take (Z.to_nat m0) fs' = take (Z.to_nat m0) fs /\
  (0 < m0 -> below (walFrameOffset (m0 + 1) sz) (c_file c) (c_file c')) /\
  (forall lo k, (lo <= Z.to_nat m0)%nat -> newest (drop lo fs') k = newest_after (map page_of (pList c)) (newest (drop lo fs) k) k) /\
  (minFrame (c_wal c') = minFrame (c_wal c) /\ writeLock (c_wal c') = writeLock (c_wal c)) /\
  if isCommit then
    writer SQLITE_BIGENDIAN sz (flen fs') fs' (hdr (c_wal c')) c' /\ hdr_nPage (hdr (c_wal c')) = nTruncate /\
    iReCksum (c_wal c') = 0 /\
    exists fs1 e n, fs' = fs1 ++ replicate n e /\ list.last fs1 = Some e /\ fe_size e = nTruncate /\
      (WAL_SYNC_FLAGS flags <> 0 -> durable sz fs1 c')
  else writer SQLITE_BIGENDIAN sz m0 fs' h c'.

(** The steps after the loop. *)
Lemma after_loop c c1 fs1 q c2 :
  writer SQLITE_BIGENDIAN sz m0 fs h c -> ready SQLITE_BIGENDIAN sz m0 fs h c c1 ->
  Forall (page_ok sz) (pList c) -> flen fs + Z.of_nat (length (pList c)) + max_pad + 1 < max_frame ->
  run_ok sz m0 c1 fs1 c2 -> grown m0 fs (pList c2) (if isCommit then nTruncate else 0) fs1 q ->
  (isCommit = true -> q <> None) -> flen fs1 <= flen fs + Z.of_nat (length (pList c)) ->
  wp (let* p := gets c_wal in
      (if isCommit && negb (iReCksum p =? 0) then let* rc := walRewriteChecksums SQLITE_BIGENDIAN mallocOk ioRc partial (flen fs1) in check rc else ret tt) ;;*
      let* r := (if isCommit && negb (WAL_SYNC_FLAGS flags =? 0)
                 then pad_and_sync SQLITE_BIGENDIAN ioRc partial osSectorSize sz flags nTruncate (walFrameOffset (flen fs1 + 1) sz) q else ret (SQLITE_OK, 0)) in
      let '(rc, nExtra) := r in
      let* t := gets truncateOnCommit in
      let* mxSize := gets mxWalSize in
      (if isCommit && t && (0 <=? mxSize) then
         let e := walFrameOffset (u32 (flen fs1 + nExtra + 1)) sz in
         walLimitSize ioRc (if mxSize <? e then e else mxSize) ;;*
         modify (set_truncateOnCommit false)
       else ret tt) ;;*
      frames_finish SQLITE_BIGENDIAN mallocOk shmRc sz nTruncate isCommit q nExtra rc)
    (okp (aborted SQLITE_BIGENDIAN sz m0 fs h c) (fun rc c' =>
       (rc = SQLITE_OK -> exists fs', written c fs' c') /\ (rc <> SQLITE_OK -> aborted SQLITE_BIGENDIAN sz m0 fs h c c'))) c2.
Proof.
  intros W R Hpg Hmax Ro G Hq Hl. pose proof (wr_m0 _ _ _ _ _ _ W) as [_ Hm]. unfold max_frame, max_pad in Hmax.
  set (FA := failed_aborted SQLITE_BIGENDIAN sz m0 fs h c c1).
  assert (Hfs : flen fs <= flen fs1).
  { pose proof (f_equal length (gr_pages _ _ _ _ _ _ G)) as H. rewrite length_map, length_app, length_map in H. unfold flen. lia. }
  assert (Hpl : map page_of (pList c2) = map page_of (pList c)).
  { rewrite <- (rd_list _ _ _ _ _ _ _ R). apply (sd_pages _ _ (ro_steady _ _ _ _ _ Ro)). }
  pose proof (pages_same sz _ _ Hpl Hpg) as Hpg2. set (l := pList c2) in *.
  assert (Hp : exists p, (forall i, q = Some i -> l !! i = Some p) /\ (q <> None -> page_ok sz p)).
  { pose proof (gr_last _ _ _ _ _ _ G) as H. destruct q as [i|]; [|by exists (mkPg 0 [] false)]. destruct H as (p & fs2 & Hp & _).
    exists p. split; [by intros i' [= <-]|]. intros _. exact (Forall_lookup_1 _ _ _ _ Hpg2 Hp). }
  destruct Hp as (p & Hp1 & Hp2). apply wp_assoc. eapply wp_seq_weak.
  { apply (seal_stage SQLITE_BIGENDIAN mallocOk ioRc partial sz Hsz Hal m0 c1 isCommit ltac:(lia) fs1 c2 Ro).
    - destruct (rd_index _ _ _ _ _ _ _ R) as [rem I]. apply (sd_index _ _ (ro_steady _ _ _ _ _ Ro) _ I).
    - eapply grown_paged; [exact G|apply R|exact Hpg2]. }
  { intros s' Hs'. exact (FA s' R Hs'). }
  intros _ c3 (R3 & P3 & Re3). eapply wp_seq_weak.
  { apply (sync_stage SQLITE_BIGENDIAN ioRc partial osSectorSize sz Hsz Hal m0 c1 isCommit nTruncate ltac:(lia) Hnt flags fs1 q p c3 R3).
    - intros Hc. split; auto.
    - rewrite P3. exact Hp1.
    - exact Hp2.
    - lia. }
  { intros s' Hs'. exact (FA s' R Hs'). }
  intros [rc nExtra] c4 (n & -> & Hn & R4 & P4 & D4). set (e := (pgno p, nTruncate, pData p)) in *. unfold max_pad in Hn.
  do 2 wp_step. unfold after at 1. do 2 wp_step. unfold after at 1.
  assert (HlF : flen (fs1 ++ replicate n e) = flen fs1 + Z.of_nat n) by len.
  eapply wp_seq_weak.
  { apply (limit_stage ioRc sz Hsz m0 c1 isCommit (truncateOnCommit c4) (mxWalSize c4) (fs1 ++ replicate n e) (flen fs1) (Z.of_nat n) c4 R4); lia. }
  { done. }
  intros _ c5 (N5 & P5 & Re5 & D5). assert (Hl5 : pList c5 = l) by (by rewrite P5, P4, P3).
  destruct (near_fields _ _ (nl_near _ _ _ _ _ N5)) as (_ & _ & _ & _ & _ & ck & Hh5).
  assert (Hll : length l = length (pList c)) by (by rewrite <- (length_map page_of), Hpl, length_map).
  assert (Hmx5 : mxFrame (hdr (c_wal c5)) = blen (map fe_page fs)).
  { rewrite Hh5. change (mxFrame (hdr_set_cksum ck ?x)) with (mxFrame x). rewrite (rd_mx _ _ _ _ _ _ _ R). unfold blen, flen. by rewrite length_map. }
  assert (Hh : holds (map fe_page fs) c5) by (eapply holds_steady; [apply N5|apply R]).
  eapply returns_okp.
  { apply (frames_finish_ok mallocOk shmRc SQLITE_BIGENDIAN (map fe_page fs) p n sz nTruncate isCommit q c5 rc).
    - by apply holds_enters.
    - done.
    - rewrite Hl5. destruct q as [i|]; [by apply Hp1|]. destruct isCommit; [by destruct (Hq eq_refl)|apply D4].
    - rewrite Hl5, Hll. unfold blen. rewrite length_map. unfold max_frame, flen in *. lia.
    - rewrite Hl5. by eapply pages_numbers.
    - apply (nr_ptr _ _ (nl_near _ _ _ _ _ N5) 0%nat); [apply R|done].
    - unfold salted. rewrite Hh5. apply (rd_salted _ _ _ _ _ _ _ R). }
  cbn beta. rewrite Hl5. intros rc' c6 [H1 H2]. split.
  - intros Hrc. destruct (H1 Hrc) as [Hrc0 F].
    assert (Hn0 : isCommit = false -> n = 0%nat) by (intros Hc; rewrite Hc in D4; apply D4).
    pose proof (final_prefix SQLITE_BIGENDIAN sz m0 fs h c l isCommit nTruncate fs1 q p n W G Hn0) as FP.
    pose proof (final_below SQLITE_BIGENDIAN sz m0 fs h c c1 l isCommit nTruncate fs1 p n c5 c6 R N5 F) as FB.
    pose proof (final_last m0 fs l isCommit nTruncate fs1 q p n G Hp1 Hn0) as FL.
    exists (fs1 ++ replicate n e). split; [exact FP|]. split; [exact FB|]. split.
    { intros lo k Hlo. rewrite <- Hpl. etransitivity; [|by apply (gr_newest _ _ _ _ _ _ G)]. destruct (decide (isCommit = true)) as [Hc|Hc].
      - destruct (FL Hc (Hq Hc)) as (fs2 & E & _ & Hl2). rewrite drop_app_le by (rewrite E, length_app; unfold flen, fent in *; lia). apply (newest_repeat _ (drop lo fs2) e). rewrite E. apply drop_app_le. unfold flen, fent in *. lia.
      - rewrite Hn0 by (by destruct isCommit). cbn [replicate]. by rewrite app_nil_r. }
    pose proof (commit_writer SQLITE_BIGENDIAN sz m0 fs h c c1 l isCommit nTruncate fs1 q p n c5 c6 W R G Hp1 Hn0 N5 F) as CW.
    pose proof (spill_writer SQLITE_BIGENDIAN sz Hsz m0 fs h c c1 l isCommit nTruncate fs1 q p n c5 c6 W R G Hn0 N5 F) as SW.
    pose proof (final_wal SQLITE_BIGENDIAN sz m0 fs h c c1 l isCommit nTruncate fs1 q p n c5 c6 R G Hn0 N5 F) as (_ & W2 & _ & W4 & _ & _ & W6).
    pose proof (final_lock SQLITE_BIGENDIAN sz m0 fs h c c1 l isCommit nTruncate fs1 p n c5 c6 R N5 F) as WL.
    split; [by split|]. destruct isCommit; [|by apply SW]. destruct D4 as [D4 D4'].
    split; [apply CW; auto; congruence|]. split; [by apply W6|]. split; [congruence|].
    destruct (FL eq_refl (Hq eq_refl)) as (fs2 & E & _). exists fs1, e, n. split; [done|]. split; [by rewrite E, last_snoc|]. split; [done|].
    intros Hf. destruct (D5 _ (D4' Hrc0 Hf)) as [Da Db].
    split; rewrite ?(fi_synced _ _ _ _ _ _ _ F), ?(fi_file _ _ _ _ _ _ _ F); done.
  - intros Hrc. destruct (H2 Hrc) as (N6 & S6 & Hh6). apply (near_aborted SQLITE_BIGENDIAN sz m0 fs h c c1); try done.
    + eapply near_trans; [apply N5|done].
    + destruct S6 as (-> & _). apply (fk_bytes _ _ _ _ (af_file _ _ _ (nl_at _ _ _ _ _ N5))).
    + destruct S6 as (-> & _). apply N5.
Qed.

Lemma walFrames_ok c :
  writer SQLITE_BIGENDIAN sz m0 fs h c -> Forall (page_ok sz) (pList c) -> NoDup (map fst (map page_of (pList c))) ->
  pList c <> [] -> flen fs + Z.of_nat (length (pList c)) + max_pad + 1 < max_frame ->
  wp (walFrames SQLITE_BIGENDIAN mallocOk shmRc ioRc lockRc partial osSectorSize randomness sz nTruncate isCommit flags)
    (okp (aborted SQLITE_BIGENDIAN sz m0 fs h c) (fun rc c' =>
       (rc = SQLITE_OK -> exists fs', written c fs' c') /\ (rc <> SQLITE_OK -> aborted SQLITE_BIGENDIAN sz m0 fs h c c'))) c.
Proof.
  intros W Hpg Hnd Hne Hmax. pose proof (wr_m0 _ _ _ _ _ _ W) as [Hmh Hm]. unfold max_frame, max_pad in Hmax.
  pose proof (wr_salted _ _ _ _ _ _ W) as [Hs1 Hs2]. pose proof (wr_index _ _ _ _ _ _ W) as [rem I].
  unfold walFrames. eapply wp_seq_weak.
  { apply (returns_okp (fun _ => False) _ _ _ _ (live_hdr_ok SQLITE_BIGENDIAN h c (wr_public _ _ _ _ _ _ W) (ix_wf _ _ I) (wr_ptr _ _ _ _ _ _ W) (proj1 Hs1) Hs2)).
    intros a s' Ha. exact Ha. }
  { done. }
  intros [b ws] c' (-> & Ews & _). cbn [fst snd] in *.
  wp_step. assert (Hif : wp (if b then let* mx := lift (bget ws 4) in ret (u32 (mx + 1)) else ret 0)
    (fun o s => s = c /\ exists iFirst, o = Ret iFirst /\ (iFirst = 0 \/ iFirst = m0 + 1)) c).
  { destruct b; [|wp_go; split; [done|]; exists 0; auto]. rewrite (words_mx _ _ _ Ews). wp_go. split; [done|].
    exists (m0 + 1). split; [|by right]. rewrite Hmh, u32_small by lia. done. }
  eapply wp_mono; [exact Hif|]. intros o s (-> & iFirst & -> & Hfirst). unfold after at 1.
  wp_step. assert (Hres : wp (walRestartLog SQLITE_BIGENDIAN lockRc randomness) (fun o s => o = Ret tt /\ s = c) c).
  { unfold walRestartLog. do 2 wp_step. unfold after at 1. destruct (Z.eqb_spec (readLock (c_wal c)) 0) as [Hx|_].
    - by apply (wr_lock _ _ _ _ _ _ W) in Hx.
    - by wp_go. }
  eapply wp_mono; [exact Hres|]. intros o s (-> & ->). unfold after at 1. do 2 wp_step. unfold after at 1. cbv zeta.
  eapply wp_seq_weak; [by apply (begin_ok SQLITE_BIGENDIAN sz Hsz ioRc partial randomness flags m0 fs h c)|done|].
  intros [] c1 R. do 2 wp_step. unfold after at 1. rewrite (cl_size _ _ (af_conn _ _ _ (rd_at _ _ _ _ _ _ _ R))).
  unfold SQLITE_MAX_PAGE_SIZE in Hsz. rewrite i32_small, Z.eqb_refl by lia. cbn [negb]. cbv zeta. do 2 wp_step. unfold after at 1.
  rewrite (wr_mx _ _ _ _ _ _ W), (rd_list _ _ _ _ _ _ _ R). rewrite u32_small by (unfold flen in *; lia).
  pose proof (rd_index _ _ _ _ _ _ _ R) as [rem1 I1].
  eapply wp_seq_weak.
  { apply (frames_loop_ok SQLITE_BIGENDIAN mallocOk shmRc ioRc partial sz Hsz Hal m0 fs c1 rem1 I1); try done.
    - by rewrite (rd_mx _ _ _ _ _ _ _ R).
    - rewrite (rd_min _ _ _ _ _ _ _ R). apply W.
    - destruct (rd_lock _ _ _ _ _ _ _ R) as [-> _]. apply W.
    - by rewrite (rd_list _ _ _ _ _ _ _ R).
    - by rewrite (rd_list _ _ _ _ _ _ _ R).
    - by apply (loop_start SQLITE_BIGENDIAN sz m0 fs h c c1).
    - by rewrite (rd_list _ _ _ _ _ _ _ R).
    - unfold max_frame. lia. }
  { intros s' Hs'. by apply (failed_aborted SQLITE_BIGENDIAN sz m0 fs h c c1). }
  intros [[iFrame iOffset] q] c2 (fs1 & -> & -> & L & Hl & Hq).
  assert (Hn : (length (pList c) <> 0)%nat) by (by destruct (pList c)).
  rewrite bool_decide_false in L by done. cbn [negb] in L. rewrite andb_true_r in L.
  destruct (loop_grown sz m0 fs c1 (length (pList c)) (if isCommit then nTruncate else 0) fs1 q c2) as (Ro & G & _); [by rewrite (rd_list _ _ _ _ _ _ _ R)|exact L|].
  apply (after_loop c c1 fs1 q c2); try done.
  intros Hc. destruct (Hq Hc Hn) as [x ->]. done.
Qed.
End Main.
