(* ===== verification/WalUndo.v ===== *)
(** * Giving up a transaction

    [sqlite3WalUndo] after a call of [walFrames], whatever its outcome: the
    header is read back, the index cleaned, and the writer is as after the last
    commit. *)
From S2P Require Import Prelude Bits Bytes Varint Wal WalIndex WalRecover WalRecovery WalHdr WalWrite WalFile WalTx WalLoops WalSeal WalFinish WalStart WalCommit WalFrames.

(** ** The index *)

Section Index.
Context (mallocOk : nat -> bool) (shmRc : nat -> Z).

(** Remnants are removed, unless their page cannot be mapped. *)
Lemma walCleanupHash_any log st :
  index_ok log st -> 0 <= mxFrame (hdr (wal st)) <= blen log ->
  wp (walCleanupHash mallocOk shmRc) (returns (fun _ st' => exists log',
    index_ok log' st' /\ take (Z.to_nat (mxFrame (hdr (wal st)))) log' = take (Z.to_nat (mxFrame (hdr (wal st)))) log /\
    mxFrame (hdr (wal st)) <= blen log' /\ wal_same (wal st) (wal st') /\ hdr_kept st st' /\ ptr_kept st st')) st.
Proof.
  intros I Hmx. set (mx := mxFrame (hdr (wal st))) in *. pose proof (ix_len _ _ I) as Hl.
  assert (Hsame : exists log', index_ok log' st /\ take (Z.to_nat mx) log' = take (Z.to_nat mx) log /\ mx <= blen log' /\
    wal_same (wal st) (wal st) /\ hdr_kept st st /\ ptr_kept st st).
  { exists log. split; [done|]. split; [done|]. split; [lia|]. split; [apply wal_same_refl|]. split; [apply hdr_kept_refl|by intros ??]. }
  destruct (Z.eqb_spec mx 0) as [E|E].
  { unfold walCleanupHash. do 2 wp_step. unfold after. fold mx. rewrite E. cbn [Z.eqb]. wp_go. cbn [returns okp]. rewrite E in Hsame. exact Hsame. }
  pose proof (walFramePage_spec mx ltac:(lia)) as Hh.
  pose proof (walHashGet_ok mallocOk shmRc (walFramePage mx) st (ix_wf _ _ I) ltac:(lia)) as Hget. unfold wp in Hget |- *.
  assert (Hstep : forall s, mxFrame (hdr (wal s)) = mx -> forall r, walHashGet mallocOk shmRc (walFramePage mx) s = r ->
    walCleanupHash mallocOk shmRc s = match r with
      | (Ret sLoc, st) => (let* g := lift (deref st (aPage sLoc)) in
          let* w := lift (bzero (words g) (aPgno sLoc + (mx - iZero sLoc)) (HASHTABLE_NPAGE - (aPgno sLoc + (mx - iZero sLoc)))) in
          modify (store (aPage sLoc) (mkPage w (clear_slots (mx - iZero sLoc) (slots g))))) st
      | (Fail _, st) => (Ret tt, st)
      | (Undef, st) => (Undef, st)
      end).
  { intros s Hs r <-. unfold walCleanupHash. rewrite bind_gets, Hs. by destruct (Z.eqb_spec mx 0). }
  destruct (walHashGet mallocOk shmRc (walFramePage mx) st) as [[loc|e|] s1] eqn:Eg; cbn [fst snd okp] in Hget; [| |done].
  2:{ destruct Hget as [W X]. rewrite (Hstep st eq_refl _ Eg). cbn [fst snd returns okp]. exists log. split; [by eapply index_ext|]. split; [done|]. split; [lia|].
      split; [apply X|]. split; [by apply view_ext_hdr|intros h ptr; apply X]. }
  destruct Hget as (W & X & Hpg & Hiz & Ha & g & Hd & Hv). pose proof (index_ext _ _ _ I W X) as I1.
  assert (Hw : wal_same (wal st) (wal s1)) by apply X.
  assert (Hmx1 : mxFrame (hdr (wal s1)) = mx) by (rewrite Hw; done).
  assert (Hne : aPage loc <> Unmapped) by (intros Hu; by rewrite Hu in Hd).
  pose proof (walHashGet_mapped mallocOk shmRc _ (aPage loc) s1 Ha Hne ltac:(lia)) as Eg1.
  replace (mkLoc (aPage loc) (toff (walFramePage mx)) (tzero (walFramePage mx))) with loc in Eg1 by (destruct loc; cbn in *; by subst).
  pose proof (walCleanupHash_ok mallocOk shmRc log s1 (aPage loc) I1) as HC. cbv zeta in HC. rewrite Hmx1 in HC.
  specialize (HC ltac:(lia) Ha Hne). unfold wp in HC. rewrite (Hstep st eq_refl _ Eg), <- (Hstep s1 Hmx1 _ Eg1).
  destruct (walCleanupHash mallocOk shmRc s1) as [[[]|e|] s2]; cbn [fst snd returns okp] in *; [|done..]. destruct HC as (I2 & Hw2 & Hl2 & Hk2).
  exists (take (Z.to_nat mx) log). split; [done|]. split; [by rewrite take_take, Nat.min_id|].
  split; [rewrite blen_take; lia|]. split; [rewrite Hw2; exact Hw|]. split.
  - eapply hdr_kept_trans; [by apply view_ext_hdr|done].
  - intros h ptr. rewrite Hw2. apply X.
Qed.

(** The page of a frame whose table is mapped. *)
Lemma walFramePgno_ok log i st :
  index_ok log st -> 1 <= i <= blen log -> mapped (walFramePage i) st ->
  walFramePgno i st = (Ret (bat log (i - 1)), st).
Proof.
  intros I Hi (ptr & Ha & Hne). pose proof (ix_len _ _ I) as Hl. pose proof (walFramePage_spec i ltac:(lia)) as Hh.
  set (h := walFramePage i) in *. destruct (ix_table _ _ I h) as (g & Hg & T); [lia|].
  pose proof (deref_view st h ptr g Ha Hne Hg) as Hd. unfold walFramePgno. fold h.
  rewrite bind_gets. cbn [id]. rewrite Ha, bind_lift, Hd, bind_lift.
  pose proof (t_key _ _ _ T (i - 1 - tzero h)) as Hk. rewrite tkeys_at in Hk by (pose proof (tsize_pos h); lia).
  rewrite tkeys_len in Hk. specialize (Hk ltac:(pose proof (tsize_pos h); lia)).
  replace (tzero h + (i - 1 - tzero h)) with (i - 1) in Hk by lia. rewrite <- Hk.
  unfold max_frame, tsize in *. pose proof (t_words _ _ _ T) as Hw. unfold HASHTABLE_NPAGE in *.
  case_bool_decide as E.
  - rewrite E in *. change (toff 0) with 34 in *. change (tzero 0) with 0 in *. change (WALINDEX_HDR_SIZE / 4) with 34.
    rewrite bget_in by lia. cbn [lift]. unfold ret. do 3 f_equal. lia.
  - unfold toff, tzero in *. rewrite !decide_False in * by done. change HASHTABLE_NPAGE_ONE with 4062.
    assert (Em : u64 (u32 (i - 1) - 4062) mod 4096 = i - 1 - (4062 + (Z.of_nat h - 1) * 4096)).
    { rewrite u32_small, u64_small by lia. replace (i - 1 - 4062) with (i - 1 - (4062 + (Z.of_nat h - 1) * 4096) + (Z.of_nat h - 1) * 4096) by lia.
      rewrite Z_mod_plus_full. apply Z.mod_small. lia. }
    rewrite Em, bget_in by lia. cbn [lift]. unfold ret. do 3 f_equal. 
Qed.
End Index.

(** ** Rolling back *)

Section Undo.
Context (SQLITE_BIGENDIAN : bool) (mallocOk : nat -> bool) (shmRc : nat -> Z) (sz : Z).
Hypothesis (Hsz : 512 <= sz <= SQLITE_MAX_PAGE_SIZE).
(** The callback of the pager drops pages from the cache; it does not touch
    the log. *)
Context (xUndo : Z -> M conn Z).
Hypothesis (HxUndo : forall pg c, exists rc, xUndo pg c = (Ret rc, c)).
Context (m0 : Z) (fs : list fent) (h : WalIndexHdr).

(** What a rollback starts from. *)
Record undoable (c : conn) : Prop := {
  un_index : holds (map fe_page fs) c;
  un_ptr : apWiData (c_wal c) !! 0%nat = Some (Shared 0);
  un_public : public SQLITE_BIGENDIAN h (c_wi c);
  un_hdr : hdr_ok h;
  un_mapped i : m0 < i <= flen fs -> mapped (walFramePage i) (c_wi c);
  un_mx : mxFrame (hdr (c_wal c)) = flen fs;
  un_m0 : mxFrame h = m0 /\ 0 <= m0 <= flen fs;
  un_min : 1 <= minFrame (c_wal c) < max_frame;
  un_lock : readLock (c_wal c) <> 0 /\ writeLock (c_wal c) = true;
  un_bytes : bytes_ok (c_file c);
  un_file : 0 < m0 -> szPage (c_wal c) = sz /\ file_ok sz (c_file c) (take (Z.to_nat m0) fs) m0 /\ head_ok sz (c_file c) /\
    describes sz h m0 fs (c_file c);
}.

Lemma writer_good c : writer SQLITE_BIGENDIAN sz m0 fs h c -> 0 < m0 ->
  at_frame sz fs c /\ file_ok sz (c_file c) (take (Z.to_nat m0) fs) m0.
Proof.
  intros W Hm. pose proof (wr_m0 _ _ _ _ _ _ W) as [_ H0]. assert (Hne : fs <> []) by (intros ->; change (flen []) with 0 in H0; lia).
  pose proof (wr_file _ _ _ _ _ _ W Hne) as At. split; [done|].
  pose proof (file_take sz _ _ _ (Z.to_nat m0) ltac:(lia) (af_file _ _ _ At)) as F.
  assert (Hl : flen (take (Z.to_nat m0) fs) = m0) by (by apply flen_take).
  rewrite Hl in F. assert (Hg : Z.min (if iReCksum (c_wal c) =? 0 then flen fs else iReCksum (c_wal c) - 1) m0 = m0).
  { destruct (wr_re _ _ _ _ _ _ W) as [E|[E _]]; destruct (Z.eqb_spec (iReCksum (c_wal c)) 0); lia. }
  by rewrite Hg in F.
Qed.

Lemma aborted_undoable c c' :
  writer SQLITE_BIGENDIAN sz m0 fs h c -> writeLock (c_wal c) = true -> aborted SQLITE_BIGENDIAN sz m0 fs h c c' -> undoable c'.
Proof.
  intros W Hwl A. destruct A. split; try done; try apply W.
  - rewrite ab_min. apply W.
  - destruct ab_lock as [-> ->]. split; [apply W|done].
  - intros Hm. split; [auto|]. destruct (writer_good c W Hm) as [At F]. pose proof (fk_len _ _ _ _ F) as Hlen.
    assert (Hl : flen (take (Z.to_nat m0) fs) = m0).
    { pose proof (wr_m0 _ _ _ _ _ _ W) as [_ H0]. unfold flen in *. rewrite length_take. lia. }
    specialize (ab_below Hm). rewrite Hl in Hlen.
    destruct (below_frames sz _ _ m0 ltac:(lia) ltac:(lia) Hlen ab_below) as (Hh & L1 & L2 & _ & _).
    split; [|split].
    + eapply file_below; [lia|exact F|by rewrite Hl|done].
    + apply (head_ok_eq sz (c_file c)); try done. apply (cl_head _ _ (af_conn _ _ _ At)).
    + eapply (describes_below sz Hsz h m0 fs (c_file c)); try done. by apply W.
Qed.
Lemma writer_undoable c :
  writer SQLITE_BIGENDIAN sz m0 fs h c -> writeLock (c_wal c) = true -> undoable c.
Proof.
  intros W Hwl. split; try apply W; [split; [apply W|done]|].
  intros Hm. destruct (writer_good c W Hm) as [At F]. split; [apply At|]. split; [done|]. split; [apply At|by apply W].
Qed.

Lemma undo_loop_ok log n i rc c :
  index_ok log (c_wi c) -> 1 <= i -> i + Z.of_nat n <= blen log + 1 ->
  (forall j, i <= j < i + Z.of_nat n -> mapped (walFramePage j) (c_wi c)) ->
  wp (undo_loop xUndo n i rc) (returns (fun _ c' => c' = c)) c.
Proof.
  intros I. revert i rc. induction n as [|n IH]; intros i rc Hi Hn Hm; cbn [undo_loop]; [by wp_go|].
  destruct (negb _); [by wp_go|]. pose proof (ix_len _ _ I) as Hl. unfold max_frame in Hl.
  wp_step. unfold on_index. apply wp_on_rs, wp_on_wi. unfold wp at 1. change (r_wi (c_rs c)) with (c_wi c).
  rewrite (walFramePgno_ok log i (c_wi c) I) by (lia || (apply Hm; lia)). cbn [fst snd].
  assert (Ec : set_rs (set_wi (c_wi c) (c_rs c)) c = c) by (by destruct c as [[] ? ? ? ? ? ? ? ? ?]).
  rewrite Ec. unfold after at 1. wp_step. unfold wp at 1. destruct (HxUndo (bat log (i - 1)) c) as [rc' ->]. cbn [fst snd]. unfold after at 1.
  rewrite u32_small by lia. apply IH; [lia|lia|]. intros j Hj. apply Hm. lia.
Qed.

(** The connection once the header is read back. *)
Lemma undone c c' :
  undoable c -> holds (map fe_page (take (Z.to_nat m0) fs)) c' -> apWiData (c_wal c') !! 0%nat = Some (Shared 0) ->
  public SQLITE_BIGENDIAN h (c_wi c') -> c_file c' = c_file c -> hdr (c_wal c') = h -> iReCksum (c_wal c') = 0 ->
  szPage (c_wal c') = szPage (c_wal c) -> readLock (c_wal c') = readLock (c_wal c) -> minFrame (c_wal c') = minFrame (c_wal c) ->
  writer SQLITE_BIGENDIAN sz m0 (take (Z.to_nat m0) fs) h c'.
Proof.
  intros U Hi Ha Hp F Hh Hre Hs Hr Hmn. pose proof (un_m0 _ U) as [Hmx H0].
  assert (Hl : flen (take (Z.to_nat m0) fs) = m0) by (by apply flen_take).
  assert (Hpos : take (Z.to_nat m0) fs <> [] -> 0 < m0).
  { intros Hne. destruct (Z.lt_ge_cases 0 m0); [done|]. destruct Hne. by replace m0 with 0 by lia. }
  split; rewrite ?Hl; try done.
  - rewrite Hh. split; [apply U|apply (un_hdr _ U)].
  - intros i Hi'. lia.
  - by rewrite Hh.
  - split; [done|lia].
  - rewrite Hmn. apply U.
  - rewrite Hr. apply U.
  - rewrite F. apply U.
  - intros Hne. pose proof (Hpos Hne) as Hm. destruct (un_file _ U Hm) as (U1 & U2 & U3 & [D1 D2 D3 DS _]). split; rewrite ?Hre, ?Hl, ?F; [done|split|lia|intros _; by rewrite Hh].
    + by rewrite Hs.
    + by rewrite Hh, F.
    + by rewrite Hh, F.
    + by rewrite F.
  - intros Hne. rewrite Hh. destruct (un_file _ U (Hpos Hne)) as (_ & _ & _ & D). apply D.
  - by left.
  - intros j e Hj He. apply lookup_lt_Some in He. rewrite length_take in He. lia.
  - intros Hm. destruct (un_file _ U Hm) as (_ & _ & _ & D). rewrite F.
    apply (describes_below sz Hsz h m0 fs (c_file c)); try done.
    + destruct (un_file _ U Hm) as (_ & U2 & _). pose proof (fk_len _ _ _ _ U2) as H. by rewrite Hl in H.
    + by rewrite take_take, Nat.min_id.
Qed.

Lemma sqlite3WalUndo_ok c :
  undoable c ->
  wp (sqlite3WalUndo SQLITE_BIGENDIAN mallocOk shmRc xUndo) (returns (fun _ c' =>
    writer SQLITE_BIGENDIAN sz m0 (take (Z.to_nat m0) fs) h c' /\ c_file c' = c_file c /\ hdr (c_wal c') = h)) c.
Proof.
  intros U. pose proof (un_m0 _ U) as [Hmx H0]. pose proof (un_index _ U) as [rem I]. unfold sqlite3WalUndo.
  do 2 wp_step. unfold after at 1. rewrite (proj2 (un_lock _ U)). cbv zeta. rewrite (un_mx _ U).
  destruct (public_words_ok SQLITE_BIGENDIAN h c (un_public _ U) (ix_wf _ _ I) (un_ptr _ U) (proj1 (un_hdr _ U))) as (ws & Ew & Er).
  wp_step. unfold on_index at 1. apply wp_on_rs, wp_on_wi. unfold wp at 1. change (r_wi (c_rs c)) with (c_wi c). rewrite Er. cbn [fst snd].
  assert (Ec : set_rs (set_wi (c_wi c) (c_rs c)) c = c) by (by destruct c as [[] ? ? ? ? ? ? ? ? ?]).
  rewrite Ec. unfold after at 1. rewrite (hdr_roundtrip _ _ _ (un_hdr _ U) Ew). do 2 wp_step. unfold after at 1.
  wp_step. apply wp_set_conn_wal. unfold after at 1. set (c1 := with_wal (set_hdr h (c_wal c)) c). rewrite Hmx.
  pose proof (ix_len _ _ I) as Hlen. assert (Hb : blen (map fe_page fs ++ rem) = flen fs + blen rem).
  { unfold blen, flen. rewrite length_app, length_map. lia. }
  pose proof (blen_nonneg rem). unfold max_frame in Hlen.
  assert (I1 : index_ok (map fe_page fs ++ rem) (c_wi c1)) by (by apply index_set_wal).
  rewrite u32_small by lia. wp_step. eapply wp_mono.
  { apply (undo_loop_ok (map fe_page fs ++ rem) (Z.to_nat (flen fs - m0)) (m0 + 1) SQLITE_OK c1 I1); [lia|lia|].
    intros j Hj. apply (un_mapped _ U j). lia. }
  intros [rc| |] c1'; cbn [returns okp]; [|done..]. intros ->. unfold after at 1. do 2 wp_step. unfold after at 1.
  change (hdr (c_wal c1)) with h. rewrite Hmx.
  assert (Hclean : wp (if negb (flen fs =? m0) then on_index (walCleanupHash mallocOk shmRc) else ret tt)
    (returns (fun _ c2 => holds (map fe_page (take (Z.to_nat m0) fs)) c2 /\ wal_same (c_wal c1) (c_wal c2) /\
       hdr_kept (c_wi c1) (c_wi c2) /\ ptr_kept (c_wi c1) (c_wi c2) /\ c_file c2 = c_file c)) c1).
  { destruct (Z.eqb_spec (flen fs) m0) as [E|E]; cbn [negb].
    - wp_go. cbn [returns okp]. split; [|split; [apply wal_same_refl|split; [apply hdr_kept_refl|split; [by intros ??|done]]]].
      exists rem. rewrite take_ge by (unfold flen in E; lia). exact I1.
    - unfold on_index. apply wp_on_rs, wp_on_wi. change (r_wi (c_rs c1)) with (c_wi c1).
      eapply wp_mono; [apply (walCleanupHash_any mallocOk shmRc _ (c_wi c1) I1)|].
      { change (hdr (wal (c_wi c1))) with h. lia. }
      change (hdr (wal (c_wi c1))) with h. rewrite Hmx. intros [[]| |] s'; cbn [returns okp]; [|done..].
      intros (log' & I' & Ht & _ & W' & K' & P'). split; [|done]. exists (drop (Z.to_nat m0) log').
      assert (E' : map fe_page (take (Z.to_nat m0) fs) = take (Z.to_nat m0) log').
      { rewrite Ht, take_app_le by (rewrite length_map; unfold flen in *; lia). exact (fmap_take fe_page (Z.to_nat m0) fs). }
      rewrite E', take_drop. exact I'. }
  eapply wp_seq; [exact Hclean|]. intros _ c2 (Hh2 & W2 & K2 & P2 & F2).
  wp_step. apply wp_set_conn_wal. unfold after at 1. wp_go. cbn [returns okp]. set (c3 := with_wal _ c2).
  assert (W3 : c_wal c3 = set_iReCksum 0 (set_readOnly (readOnly (c_wal c2)) (set_apWiData (apWiData (c_wal c2)) (set_hdr h (c_wal c))))).
  { change (c_wal c3) with (set_iReCksum 0 (c_wal c2)). exact (f_equal (set_iReCksum 0) W2). }
  assert (F3 : c_file c3 = c_file c) by exact F2.
  split; [|split; [done|by rewrite W3]]. apply (undone c c3 U); try done; try (by rewrite W3).
  - destruct Hh2 as [rem' I2]. exists rem'. by apply index_set_wal.
  - change (apWiData (c_wal c2) !! 0%nat = Some (Shared 0)). apply (P2 0%nat); [apply U|done].
  - apply (public_kept SQLITE_BIGENDIAN h (c_wi c)); [|apply U]. intros g Hg. destruct (K2 g Hg) as (g' & Hg' & Hw).
    exists g'. split; [|done]. rewrite <- Hg'. by apply view_set_wal.
Qed.
End Undo.
