(* ===== verification/WalTrans.v ===== *)
(** * Transactions: the properties

    What the writers of the log promise to the pager and to a recovery, and
    what is read back from the log. *)
From S2P Require Import Prelude Bits Bytes Varint Wal WalIndex WalRecover WalRecovery WalHdr WalWrite WalFile WalTx WalLoops WalSeal WalFinish WalStart WalCommit WalFrames WalUndo WalProps.

(** ** What a recovery finds *)

Section Recover.
Context (sz : Z).
Hypothesis (Hsz : 512 <= sz <= SQLITE_MAX_PAGE_SIZE) (Hpow : Z.land sz (sz - 1) = 0).

(** The frames a recovery of [f] accepts start with [fs]; what follows is
    [stale]: frames of an older log that happen to continue it. *)
Definition recovers (f : bytes) (fs : list fent) (stale : list frec) : Prop :=
  log_frames f = map (rec_at sz f) (seqZ 1 (flen fs)) ++ stale /\
  forall i, 1 <= i <= flen fs -> fs !! Z.to_nat (i - 1) = Some (entry sz f i).

Lemma file_recovers f fs :
  file_ok sz f fs (flen fs) -> head_ok sz f -> fs <> [] -> exists stale, recovers f fs stale.
Proof.
  intros F (H1 & H2 & H3) Hne. assert (Hn : 1 <= flen fs) by (destruct fs; [done|unfold flen; cbn; lia]).
  pose proof (fk_len _ _ _ _ F) as Hl. rewrite foff_eq in Hl.
  eexists. split; [|apply F]. unfold log_frames. rewrite decide_True.
  2:{ split; [unfold WAL_HDRSIZE; nia|]. rewrite H2. done. }
  assert (Hlast : flen fs <= log_last f).
  { unfold log_last. rewrite H2. unfold WAL_HDRSIZE, WAL_FRAME_HDRSIZE. apply Z.div_le_lower_bound; nia. }
  replace (Z.to_nat (log_last f)) with (length fs + Z.to_nat (log_last f - flen fs))%nat by (unfold flen in *; lia).
  rewrite H2, (scan_good sz (length fs)); [reflexivity|]. apply F.
Qed.

(** Recovery makes of [f] a database of [size] pages whose changes are [fs],
    unless the stale frames end in a commit themselves. *)
Definition restores (f : bytes) (fs : list fent) (size : Z) : Prop :=
  exists stale, recovers f fs stale /\
    (Forall (fun r : frec => snd (fst r) = 0) stale -> log_commit f = (flen fs, size, ck_at sz f (flen fs))).

Lemma last_commit_none i l acc : Forall (fun r : frec => snd (fst r) = 0) l -> last_commit i l acc = acc.
Proof.
  intros H. revert i. induction H as [|[[pg nt] ck] l Hr _ IH]; intros i; cbn [last_commit]; [done|].
  cbn in Hr. subst. apply IH.
Qed.

Lemma file_restores f fs e :
  file_ok sz f fs (flen fs) -> head_ok sz f -> fs !! Z.to_nat (flen fs - 1) = Some e -> fe_size e <> 0 ->
  restores f fs (fe_size e).
Proof.
  intros F Hh He Hs. assert (Hne : fs <> []) by (by intros ->).
  destruct (file_recovers f fs F Hh Hne) as [stale [E H]]. exists stale. split; [done|]. intros Hst.
  assert (Hn : 1 <= flen fs) by (destruct fs; [done|unfold flen; cbn; lia]).
  rewrite (H (flen fs)) in He by lia. injection He as <-. unfold log_commit. rewrite E, last_commit_app, last_commit_none by done.
  replace (flen fs) with (flen fs - 1 + 1) at 1 by lia. rewrite seqZ_app by lia.
  assert (E1 : forall x, seqZ x 1 = [x]) by (intros x; unfold seqZ; cbn; f_equal; lia).
  rewrite E1, map_app, last_commit_app, length_map, length_seqZ. cbn [map last_commit rec_at].
  replace (1 + (flen fs - 1)) with (flen fs) by lia. replace (1 + Z.of_nat (Z.to_nat (flen fs - 1))) with (flen fs) by lia.
  unfold entry, fe_size in *. cbn [fst snd] in *. by destruct (Z.eqb_spec (at4 (frame_at f sz (flen fs)) 4) 0).
Qed.

End Recover.

(** ** Reading a page *)

Lemma newest_last fs j e k :
  fs !! j = Some e -> fe_page e = k -> (forall j' e', (j < j')%nat -> fs !! j' = Some e' -> fe_page e' <> k) ->
  newest fs k = Some (snd e).
Proof.
  intros He <- Hl. rewrite <- (take_drop_middle fs j e He). unfold newest. rewrite fold_left_app. cbn [fold_left].
  rewrite decide_True by done. apply newest_tail. intros e' Hin. apply list_elem_of_lookup in Hin as [i Hi].
  rewrite lookup_drop in Hi. by apply (Hl (S j + i)%nat e'); [lia|].
Qed.

Section Read.
Context (SQLITE_BIGENDIAN : bool) (mallocOk : nat -> bool) (shmRc ioRc : nat -> Z) (sz : Z).
Hypothesis (Hsz : 512 <= sz <= SQLITE_MAX_PAGE_SIZE) (Hpow : Z.land sz (sz - 1) = 0).

(** The frames the database does not have yet. *)
Definition live_frames (c : conn) (fs : list fent) : list fent := drop (Z.to_nat (minFrame (c_wal c) - 1)) fs.
(** The frame of the log a lookup finds, in terms of the frames. *)
Lemma last_frame m0 fs h c rem k r :
  writer SQLITE_BIGENDIAN sz m0 fs h c ->
  is_last (map fe_page fs ++ rem) 0 (minFrame (c_wal c)) (flen fs) k r ->
  (r = 0 /\ newest (live_frames c fs) k = None) \/
  (1 <= r <= flen fs /\ exists e, fs !! Z.to_nat (r - 1) = Some e /\ newest (live_frames c fs) k = Some (snd e)).
Proof.
  intros W. pose proof (wr_min _ _ _ _ _ _ W) as Hmin.
  assert (Hb : forall j e, fs !! j = Some e -> bat (map fe_page fs ++ rem) (Z.of_nat j) = fe_page e).
  { intros j e He. unfold bat. rewrite (proj2 (Z.leb_le 0 _)), Nat2Z.id by lia.
    rewrite lookup_app_l by (rewrite length_map; by eapply lookup_lt_Some). rewrite list_lookup_fmap.
    destruct (fs !! j); [|done]. by injection He as ->. }
  assert (Hl : flen fs <= blen (map fe_page fs ++ rem)) by len.
  intros [[-> H]|(j & Hj & -> & Hr & Hk & H)].
  - left. split; [done|]. unfold newest. apply newest_tail. intros e He. apply list_elem_of_lookup in He as [j He].
    unfold live_frames in He. rewrite lookup_drop in He. rewrite <- (Hb _ e He). pose proof (lookup_lt_Some _ _ _ He). apply H; unfold flen in *; lia.
  - right. split; [lia|]. replace (Z.to_nat (0 + j + 1 - 1)) with (Z.to_nat j) by lia.
    destruct (lookup_lt_is_Some_2 fs (Z.to_nat j)) as [e He]; [unfold flen in *; lia|]. exists e. split; [done|].
    specialize (Hb (Z.to_nat j) e He) as Hp. rewrite Z2Nat.id in Hp by lia.
    unfold live_frames. set (lo := Z.to_nat (minFrame (c_wal c) - 1)).
    apply (newest_last _ (Z.to_nat j - lo)); [|congruence|].
    + rewrite lookup_drop. by replace (lo + (Z.to_nat j - lo))%nat with (Z.to_nat j) by lia.
    + intros j' e' Hlt He'. rewrite lookup_drop in He'. rewrite <- (Hb _ e' He').
      pose proof (lookup_lt_Some _ _ _ He'). apply H; unfold flen in *; lia.
Qed.

Lemma read_from_wal_ok m0 fs h c k :
  writer SQLITE_BIGENDIAN sz m0 fs h c ->
  wp (read_from_wal mallocOk shmRc ioRc k sz) (okp (fun _ => True) (fun r c' =>
    c_file c' = c_file c /\
    match r with
    | None => newest (live_frames c fs) k = None
    | Some (rc, d) => rc = SQLITE_OK -> newest (live_frames c fs) k = Some d
    end)) c.
Proof.
  intros W. pose proof (wr_index _ _ _ _ _ _ W) as [rem I]. pose proof (wr_min _ _ _ _ _ _ W) as Hmin.
  pose proof (ix_len _ _ I) as Hl. assert (Hlen : flen fs <= blen (map fe_page fs ++ rem)) by len.
  pose proof (walFindFrame_ok mallocOk shmRc _ k (c_wi c) I) as HF. change (wal (c_wi c)) with (c_wal c) in HF.
  rewrite (wr_mx _ _ _ _ _ _ W) in HF. specialize (HF Hlen ltac:(unfold flen; lia) Hmin).
  unfold read_from_wal, sqlite3WalFindFrame, on_index. wp_step. apply wp_on_rs, wp_on_wi. change (r_wi (c_rs c)) with (c_wi c).
  eapply wp_mono; [exact HF|]. intros [r|e|] s; cbn [okp]; [|done..]. intros (Is & X & HL).
  unfold c_wal in HL. pose proof (wr_lock _ _ _ _ _ _ W) as Hlk. unfold c_wal in Hlk.
  destruct (Z.eqb_spec (readLock (wal (c_wi c))) 0); [done|]. cbn [andb] in HL. unfold after at 1.
  destruct (last_frame m0 fs h c rem k r W HL) as [[-> Hn]|(Hr & e & He & Hnew)].
  - cbn [Z.eqb negb]. wp_go. cbn [okp]. by split.
  - destruct (Z.eqb_spec r 0); [lia|]. cbn [negb]. assert (Hne : fs <> []) by (intros ->; change (flen []) with 0 in Hr; lia).
    pose proof (wr_file _ _ _ _ _ _ W Hne) as At. pose proof (wr_size _ _ _ _ _ _ W Hne) as Hs.
    wp_step. unfold sqlite3WalReadFrame. do 2 wp_step. unfold after at 1. cbv zeta.
    set (c1 := set_rs (set_wi s (c_rs c)) c).
    assert (Hh : hdr (c_wal c1) = hdr (c_wal c)) by (change (c_wal c1) with (wal s); destruct X as [-> _]; done).
    rewrite Hh, Hs. pose proof (szPage_roundtrip sz Hsz Hpow) as Hsp. cbv zeta in Hsp. unfold size_field. rewrite Hsp.
    rewrite Z.ltb_irrefl. apply wp_on_rs. pose proof (af_file _ _ _ At) as F. pose proof (fk_len _ _ _ _ F) as Hfl.
    pose proof (foff_lt sz ltac:(lia) r (flen fs + 1) ltac:(lia)) as H1. pose proof (foff_le sz ltac:(lia) 1 r ltac:(lia)) as H0.
    rewrite (foff_eq sz 1) in H0. unfold wp, sqlite3OsRead. cbn [fst snd]. unfold WAL_FRAME_HDRSIZE.
    change (r_file (c_rs c1)) with (c_file c).
    destruct (bsub_in (c_file c) (walFrameOffset r sz + 24) sz) as [d Ed]; [lia..|]. rewrite Ed. cbn [default].
    unfold after at 1. wp_go. cbn [okp]. split; [done|]. intros _. rewrite Hnew.
    pose proof (fk_entry _ _ _ _ F r Hr) as He'. unfold fent in *. rewrite He in He'. injection He' as ->.
    apply bsub_seg in Ed as ->. done.
Qed.
End Read.

(** ** Transactions *)

(** The pages to write are not part of the log. *)
Lemma writer_next BE sz m fs h l c : writer BE sz m fs h c -> writer BE sz m fs h (set_pList l c).
Proof.
  intros W. pose proof (wr_file _ _ _ _ _ _ W) as Hf. destruct W. split; try done. intros H. destruct (Hf H) as [? [] ? ?].
  by split; [|split|..].
Qed.

Section Outcomes.
Context (SQLITE_BIGENDIAN : bool) (mallocOk : nat -> bool) (shmRc ioRc : nat -> Z) (lockRc : nat -> Z -> Z -> Z)
  (partial : nat -> Z) (osSectorSize : Z) (randomness : nat -> bytes).
Context (sz : Z).
Hypothesis (Hsz : 512 <= sz <= SQLITE_MAX_PAGE_SIZE) (Hpow : Z.land sz (sz - 1) = 0).
Hypothesis (Hrand : forall n, bytes_ok (randomness n)).
Context (m0 : Z) (fs : list fent) (h : WalIndexHdr).
Abbreviation writer := (writer SQLITE_BIGENDIAN sz).
Abbreviation walFrames := (walFrames SQLITE_BIGENDIAN mallocOk shmRc ioRc lockRc partial osSectorSize randomness sz).

(** What the pager asks for: the dirty pages, each once, in [pList]. *)
Record request (isCommit : bool) (nTruncate : Z) (c : conn) : Prop := {
  rq_writer : writer m0 fs h c;
  rq_lock : writeLock (c_wal c) = true;
  rq_pages : Forall (page_ok sz) (pList c);
  rq_once : NoDup (map fst (map page_of (pList c)));
  rq_some : pList c <> [];
  rq_room : flen fs + Z.of_nat (length (pList c)) + max_pad + 1 < max_frame;
  rq_size : 0 <= nTruncate < 2 ^ 32;
  rq_commit : isCommit = true -> 0 < nTruncate;
}.

Lemma request_ok isCommit nTruncate flags c :
  request isCommit nTruncate c ->
  wp (walFrames nTruncate isCommit flags) (okp (aborted SQLITE_BIGENDIAN sz m0 fs h c) (fun rc c' =>
    (rc = SQLITE_OK -> exists fs', written SQLITE_BIGENDIAN sz m0 fs h isCommit nTruncate flags c fs' c') /\
    (rc <> SQLITE_OK -> aborted SQLITE_BIGENDIAN sz m0 fs h c c'))) c.
Proof. intros []. apply walFrames_ok; try done. apply pow2_aligned; [lia|done]. Qed.

Lemma undoable_restores gs c :
  undoable SQLITE_BIGENDIAN sz m0 gs h c -> 0 < m0 -> restores sz (c_file c) (take (Z.to_nat m0) gs) (hdr_nPage h).
Proof.
  intros U Hm. destruct (un_file _ _ _ _ _ _ U Hm) as (_ & F & Hh & D). destruct (un_m0 _ _ _ _ _ _ U) as [_ H0].
  destruct (ds_last _ _ _ _ _ D) as (e & He & Hs & Hpos).
  assert (Hl : flen (take (Z.to_nat m0) gs) = m0) by (by apply flen_take).
  rewrite <- Hs. apply file_restores; rewrite ?Hl; try done; [|lia]. rewrite lookup_take_lt by lia. exact He.
Qed.

Lemma last_at fs1 (e : fent) : list.last fs1 = Some e -> fs1 !! Z.to_nat (flen fs1 - 1) = Some e.
Proof. rewrite last_lookup. unfold flen. intros <-. f_equal. lia. Qed.

Lemma durable_restores fs1 e c m fs' h' :
  writer m fs' h' c -> fs' <> [] -> durable sz fs1 c -> list.last fs1 = Some e -> 0 < fe_size e ->
  restores sz (synced c) fs1 (fe_size e).
Proof.
  intros W Hne [F Hh] He Hp. pose proof (wr_file _ _ _ _ _ _ W Hne) as At.
  pose proof (file_head_len sz ltac:(lia) _ _ _ F). pose proof (file_head_len sz ltac:(lia) _ _ _ (af_file _ _ _ At)).
  apply (file_restores sz Hsz Hpow (synced c) fs1 e); [done| |by apply last_at|lia].
  apply (head_ok_eq sz (c_file c)); try done. apply (cl_head _ _ (af_conn _ _ _ At)).
Qed.

(** A connection that committed. *)
Lemma writer_restores fs' h' c :
  writer (flen fs') fs' h' c -> writeLock (c_wal c) = true -> 0 < flen fs' -> restores sz (c_file c) fs' (hdr_nPage h').
Proof.
  intros W Hwl Hp. destruct (writer_good SQLITE_BIGENDIAN sz Hsz (flen fs') fs' h' c W Hp) as [At F].
  destruct (wr_desc _ _ _ _ _ _ W Hp) as [_ _ _ _ (e & He & Hs & Hpos)].
  assert (Ht : take (Z.to_nat (flen fs')) fs' = fs') by (apply take_ge; unfold flen; lia). rewrite Ht in F.
  rewrite <- Hs. apply file_restores; try done; [|lia]. apply At.
Qed.

(** A commit leaves the connection ready for the next transaction. *)
Lemma commit_next nTruncate flags c c1 l :
  request true nTruncate c -> walFrames nTruncate true flags c = (Ret SQLITE_OK, c1) ->
  exists fs', written SQLITE_BIGENDIAN sz m0 fs h true nTruncate flags c fs' c1 /\ mxFrame (hdr (c_wal c1)) = flen fs' /\
    writer (flen fs') fs' (hdr (c_wal c1)) (set_pList l c1) /\ writeLock (c_wal (set_pList l c1)) = true.
Proof.
  intros Rq E. pose proof (wp_run _ _ _ _ _ (request_ok true nTruncate flags c Rq) E) as [H _].
  destruct (H eq_refl) as (fs' & Hw). exists fs'. split; [done|]. destruct Hw as (_ & _ & _ & [_ Hl] & W & _).
  split; [by rewrite (wr_mx _ _ _ _ _ _ W)|]. split; [by apply writer_next|].
  change (writeLock (c_wal c1) = true). rewrite Hl. apply Rq.
Qed.

(** C4: a successful call of [walFrames] commits or spills: the pages of the
    request are the newest content of the log, the frames committed before are
    unchanged, and after a commit the published header covers the whole log,
    which is what a recovery of the file restores, with the size of the database
    as given; if the commit was to be synced, what the disk holds restores the
    same contents.  Without a commit what is published stays as it was. *)
Theorem walFrames_commits isCommit nTruncate flags c o c' :
  request isCommit nTruncate c -> walFrames nTruncate isCommit flags c = (o, c') ->
  o <> Undef /\ (o = Ret SQLITE_OK -> exists fs',
    take (Z.to_nat m0) fs' = take (Z.to_nat m0) fs /\
    (forall k, newest fs' k = newest_after (map page_of (pList c)) (newest fs k) k) /\
    if isCommit then
      writer (flen fs') fs' (hdr (c_wal c')) c' /\ restores sz (c_file c') fs' nTruncate /\
      (WAL_SYNC_FLAGS flags <> 0 -> exists fs1, restores sz (synced c') fs1 nTruncate /\ forall k, newest fs1 k = newest fs' k)
    else writer m0 fs' h c').
Proof.
  intros Rq E. pose proof (wp_run _ _ _ _ _ (request_ok isCommit nTruncate flags c Rq) E) as H.
  destruct o as [rc|rc|]; cbn [okp] in H; [|done..]. split; [done|]. intros [= ->]. destruct H as [H _].
  destruct (H eq_refl) as (fs' & H1 & _ & H3 & [_ H4] & H5). exists fs'. split; [done|].
  split; [exact (fun k => H3 0%nat k (Nat.le_0_l _))|].
  destruct isCommit; [|done]. destruct H5 as (W & Hn & _ & fs1 & e & n & E1 & He & Hs & Hd). split; [done|].
  pose proof (rq_commit _ _ _ Rq eq_refl) as Hp.
  assert (Hl : list.last fs1 <> None) by (by rewrite He).
  assert (Hne : fs1 <> []) by (by intros ->). assert (Hpos : 0 < flen fs').
  { rewrite E1. unfold flen. rewrite length_app. destruct fs1; [done|]. cbn. lia. }
  split.
  - rewrite <- Hn. apply writer_restores; [done|rewrite H4; apply Rq|done].
  - intros Hf. exists fs1. split.
    + rewrite <- Hs. eapply durable_restores; [exact W| |by apply Hd|done|lia]. intros ->. by vm_compute in Hpos.
    + intros k. rewrite E1. apply last_Some in He as [l ->]. symmetry. by apply (newest_repeat _ l).
Qed.

(** C5: a call of [walFrames] that does not succeed, whatever request to the
    disk failed and however much of it was written, loses no committed
    transaction: the published header and the index of the frames it covers are
    as they were, and a recovery of the file finds the committed frames. *)
Theorem walFrames_errors_are_safe isCommit nTruncate flags c o c' :
  request isCommit nTruncate c -> walFrames nTruncate isCommit flags c = (o, c') -> o <> Ret SQLITE_OK ->
  public SQLITE_BIGENDIAN h (c_wi c') /\ holds (map fe_page fs) c' /\
  (0 < m0 -> restores sz (c_file c') (take (Z.to_nat m0) fs) (hdr_nPage h)).
Proof.
  intros Rq E Ho. pose proof (wp_run _ _ _ _ _ (request_ok isCommit nTruncate flags c Rq) E) as H.
  assert (A : aborted SQLITE_BIGENDIAN sz m0 fs h c c').
  { destruct o as [rc|rc|]; cbn [okp] in H; [|done..]. apply H. intros ->. by apply Ho. }
  split; [apply A|]. split; [apply A|]. apply undoable_restores.
  eapply aborted_undoable; [exact Hsz|apply Rq|apply Rq|done].
Qed.

(** C6: after [walFrames] failed, or spilled pages without a commit, a rollback
    succeeds or reports the error of its callback, and leaves the connection and
    the log as after the last commit: the same frames, under the same header. *)
Theorem sqlite3WalUndo_rolls_back xUndo isCommit nTruncate flags c o c1 :
  (forall pg c, exists rc, xUndo pg c = (Ret rc, c)) ->
  request isCommit nTruncate c -> walFrames nTruncate isCommit flags c = (o, c1) -> o <> Ret SQLITE_OK \/ isCommit = false ->
  exists rc c', sqlite3WalUndo SQLITE_BIGENDIAN mallocOk shmRc xUndo c1 = (Ret rc, c') /\
    writer m0 (take (Z.to_nat m0) fs) h c' /\ hdr (c_wal c') = h /\
    (0 < m0 -> restores sz (c_file c') (take (Z.to_nat m0) fs) (hdr_nPage h)).
Proof.
  intros Hx Rq E Ho. pose proof (wp_run _ _ _ _ _ (request_ok isCommit nTruncate flags c Rq) E) as H.
  assert (U : exists fs', take (Z.to_nat m0) fs' = take (Z.to_nat m0) fs /\ undoable SQLITE_BIGENDIAN sz m0 fs' h c1).
  { assert (HA : aborted SQLITE_BIGENDIAN sz m0 fs h c c1 -> exists fs', take (Z.to_nat m0) fs' = take (Z.to_nat m0) fs /\ undoable SQLITE_BIGENDIAN sz m0 fs' h c1).
    { intros A. exists fs. split; [done|]. eapply aborted_undoable; [exact Hsz|apply Rq|apply Rq|done]. }
    destruct o as [rc|rc|]; cbn [okp] in H; [|auto|done]. destruct H as [H H'].
    destruct (decide (rc = SQLITE_OK)) as [Hrc|Hrc]; [|auto]. destruct Ho as [Ho| ->]; [by rewrite Hrc in Ho|].
    destruct (H Hrc) as (fs' & H1 & _ & _ & [_ H4] & W). exists fs'. split; [done|].
    apply writer_undoable; [done..|]. rewrite H4. apply Rq. }
  destruct U as (fs' & Ht & U). pose proof (sqlite3WalUndo_ok SQLITE_BIGENDIAN mallocOk shmRc sz Hsz xUndo Hx m0 fs' h c1 U) as Hu.
  apply returns_run in Hu as (rc & c' & Eu & W & Ef & Eh). exists rc, c'. rewrite <- Ht. split; [done|]. split; [done|]. split; [done|].
  rewrite Ef. by apply undoable_restores.
Qed.

(** C7: what [walFrames] wrote is what is read.  The frames before [minFrame]
    are in the database already, and none of them is of the transaction.  Then
    reading page [k] from the log gives the content the request had for it, or
    else that of the newest frame of [k] from [minFrame] on; and the database is
    asked for [k] only if the request does not have the page and no frame from
    [minFrame] on is of it. *)
Theorem walFrames_read_back isCommit nTruncate flags c c1 k o c2 :
  request isCommit nTruncate c -> minFrame (c_wal c) <= m0 + 1 ->
  walFrames nTruncate isCommit flags c = (Ret SQLITE_OK, c1) -> read_from_wal mallocOk shmRc ioRc k sz c1 = (o, c2) ->
  let content := newest_after (map page_of (pList c)) (newest (drop (Z.to_nat (minFrame (c_wal c) - 1)) fs) k) k in
  o <> Undef /\ (forall d, o = Ret (Some (SQLITE_OK, d)) -> content = Some d) /\ (o = Ret None -> content = None).
Proof.
  intros Rq Hlo E Er. cbv zeta. pose proof (wp_run _ _ _ _ _ (request_ok isCommit nTruncate flags c Rq) E) as [H _].
  destruct (H eq_refl) as (fs' & _ & _ & Hk & [Hmin _] & W). rewrite <- Hk, <- Hmin by lia.
  assert (W' : exists m h', writer m fs' h' c1) by (destruct isCommit; [destruct W as [W _]|]; eauto). destruct W' as (m & h' & W').
  pose proof (wp_run _ _ _ _ _ (read_from_wal_ok SQLITE_BIGENDIAN mallocOk shmRc ioRc sz Hsz Hpow m fs' h' c1 k W') Er) as HR.
  destruct o as [r|e|]; cbn [okp] in HR; [|done..]. destruct HR as [_ HR]. split; [done|]. split.
  - intros d [= ->]. by apply HR.
  - intros [= ->]. exact HR.
Qed.
End Outcomes.

(** ** Examples *)

Definition demo_bytes : nat -> bytes := fun _ => zeros 8.
Definition demo_pages : list PgHdr := [mkPg 1 (replicate 512 7) false; mkPg 2 (replicate 512 9) false].
(** A connection to an empty log. *)
Definition demo_empty : conn :=
  mkConn (mkRs (r_wi demo_start) [] [] 0) [] false false false (-1) 0 demo_pages [] [].
Definition demo_frames (ioRc : nat -> Z) (nTruncate : Z) (isCommit : bool) (c : conn) : out Z * conn :=
  walFrames false all_mem all_ok ioRc all_free (fun _ => 100) 512 demo_bytes 512 nTruncate isCommit 0x22 c.
Definition demo_more : list PgHdr := [mkPg 2 (replicate 512 5) false; mkPg 3 (replicate 512 6) false].

Lemma demo_run ioRc n b c : walFrames false all_mem all_ok ioRc all_free (fun _ => 100) 512 demo_bytes 512 n b 0x22 c = demo_frames ioRc n b c.
Proof. done. Qed.
Lemma demo_size : 512 <= 512 <= SQLITE_MAX_PAGE_SIZE.
Proof. done. Qed.
Lemma demo_rand n : bytes_ok (demo_bytes n).
Proof. repeat constructor; lia. Qed.
Lemma demo_page k x : 0 < k < 10 -> 0 <= x < 256 -> page_ok 512 (mkPg k (replicate 512 x) false).
Proof. intros Hk Hx. split; cbn [pgno pData]; [lia|]. split; [done|]. by apply Forall_replicate. Qed.
Lemma demo_more_ok : Forall (page_ok 512) demo_more /\ NoDup (map fst (map page_of demo_more)).
Proof.
  split; [|by apply (bool_decide_unpack _)].
  apply list.Forall_cons. split; [by apply demo_page|]. apply list.Forall_cons. by split; [by apply demo_page|].
Qed.
Lemma demo_request isCommit : request false 512 0 [] zero_hdr isCommit 2 demo_empty.
Proof.
  split; try done.
  - split; try done.
    + exists []. apply index_nil. apply demo_start_ok.
    + exists (replicate 12 0), zero_page. split; [by vm_compute|]. split; [done|].
      intros j Hj. change (words zero_page) with (zeros HASHTABLE_NPAGE). change (replicate 12 0) with (zeros 12).
      by rewrite !zeros_at.
    + assert (Hs : salted zero_hdr) by (split; [done|repeat constructor; lia]). by split; [split|].
    + intros i Hi. change (flen []) with 0 in Hi. lia.
    + by constructor.
    + by left.
  - apply list.Forall_cons. split; [by apply demo_page|]. apply list.Forall_cons. by split; [by apply demo_page|].
  - by apply (bool_decide_unpack _).
Qed.


(** The connection after the first commit. *)
Definition demo_c1 : conn := snd (demo_frames all_ok 2 true demo_empty).
Definition demo_next : conn := set_pList demo_more demo_c1.
Lemma demo_run1 : walFrames false all_mem all_ok all_ok all_free (fun _ => 100) 512 demo_bytes 512 2 true 0x22 demo_empty = (Ret SQLITE_OK, demo_c1).
Proof.
  rewrite demo_run. unfold demo_c1. assert (E : fst (demo_frames all_ok 2 true demo_empty) = Ret SQLITE_OK) by (by vm_compute).
  by rewrite <- E, <- surjective_pairing.
Qed.
Lemma demo_mx1 : mxFrame (hdr (c_wal demo_c1)) = 2.
Proof. by vm_compute. Qed.

Lemma demo_next_request isCommit :
  exists fs, request false 512 2 fs (hdr (c_wal demo_c1)) isCommit 3 demo_next /\ flen fs = 2.
Proof.
  destruct (commit_next false all_mem all_ok all_ok all_free (fun _ => 100) 512 demo_bytes 512 demo_size eq_refl demo_rand 0 []
    zero_hdr 2 0x22 demo_empty demo_c1 demo_more (demo_request true) demo_run1) as (fs & _ & Hf & W & Hl).
  rewrite demo_mx1 in Hf. rewrite <- Hf in W. exists fs. split; [|done].
  unfold demo_next. revert Hl W. generalize demo_c1 as c1. intros c1 Hl W. destruct demo_more_ok as [M1 M2]. split.
  - exact W.
  - exact Hl.
  - exact M1.
  - exact M2.
  - discriminate.
  - rewrite <- Hf. by vm_compute.
  - lia.
  - lia.
Qed.
(** The disk fails at request [k]. *)
Definition demo_fail (k : nat) : nat -> Z := fun n => if (n =? k)%nat then 10 else SQLITE_OK.
Lemma demo_pair ioRc n b c : walFrames false all_mem all_ok ioRc all_free (fun _ => 100) 512 demo_bytes 512 n b 0x22 c =
  (fst (demo_frames ioRc n b c), snd (demo_frames ioRc n b c)).
Proof. rewrite demo_run. apply surjective_pairing. Qed.

Lemma walFrames_commits_witness :
  exists fs', newest fs' 2 = Some (replicate 512 9) /\ restores 512 (c_file demo_c1) fs' 2 /\
    exists fs1, restores 512 (synced demo_c1) fs1 2.
Proof.
  destruct (walFrames_commits false all_mem all_ok all_ok all_free (fun _ => 100) 512 demo_bytes 512 demo_size eq_refl demo_rand 0 []
    zero_hdr true 2 0x22 demo_empty _ _ (demo_request true) demo_run1) as [_ H].
  destruct (H eq_refl) as (fs' & _ & Hk & _ & R & S). exists fs'. split; [rewrite Hk; by vm_compute|]. split; [exact R|].
  destruct (S ltac:(discriminate)) as (fs1 & R1 & _). exists fs1. exact R1.
Defined.

Lemma walFrames_errors_are_safe_witness :
  fst (demo_frames (demo_fail 8) 3 true demo_next) = Fail 10 /\
  exists fs n, restores 512 (c_file (snd (demo_frames (demo_fail 8) 3 true demo_next))) (take 2 fs) n.
Proof.
  assert (E : fst (demo_frames (demo_fail 8) 3 true demo_next) = Fail 10) by (by vm_compute).
  split; [exact E|]. destruct (demo_next_request true) as (fs & Rq & _).
  pose proof (walFrames_errors_are_safe false all_mem all_ok (demo_fail 8) all_free (fun _ => 100) 512 demo_bytes 512 demo_size eq_refl
    demo_rand 2 fs (hdr (c_wal demo_c1)) true 3 0x22 demo_next _ _ Rq (demo_pair (demo_fail 8) 3 true demo_next)) as H.
  rewrite E in H. destruct (H ltac:(discriminate)) as (_ & _ & R). exists fs, (hdr_nPage (hdr (c_wal demo_c1))). apply R. reflexivity.
Defined.

Lemma sqlite3WalUndo_rolls_back_witness :
  exists rc c' fs, sqlite3WalUndo false all_mem all_ok (fun _ c => (Ret SQLITE_OK, c)) (snd (demo_frames all_ok 3 false demo_next)) = (Ret rc, c') /\
    writer false 512 2 (take 2 fs) (hdr (c_wal demo_c1)) c'.
Proof.
  destruct (demo_next_request false) as (fs & Rq & _).
  destruct (sqlite3WalUndo_rolls_back false all_mem all_ok all_ok all_free (fun _ => 100) 512 demo_bytes 512 demo_size eq_refl
    demo_rand 2 fs (hdr (c_wal demo_c1)) (fun _ c => (Ret SQLITE_OK, c)) false 3 0x22 demo_next _ _
    (fun pg c => ex_intro _ SQLITE_OK eq_refl) Rq (demo_pair all_ok 3 false demo_next) (or_intror eq_refl)) as (rc & c' & Eu & W & _).
  exists rc, c', fs. split; [exact Eu|exact W].
Defined.

Lemma walFrames_read_back_witness :
  exists d, fst (read_from_wal all_mem all_ok all_ok 2 512 demo_c1) = Ret (Some (SQLITE_OK, d)) /\ d = replicate 512 9.
Proof.
  destruct (read_from_wal all_mem all_ok all_ok 2 512 demo_c1) as [o c2] eqn:E.
  destruct (walFrames_read_back false all_mem all_ok all_ok all_free (fun _ => 100) 512 demo_bytes 512 demo_size eq_refl demo_rand 0 []
    zero_hdr true 2 0x22 demo_empty demo_c1 2 o c2 (demo_request true) ltac:(vm_compute; discriminate) demo_run1 E) as (_ & H & _).
  assert (Eo : o = Ret (Some (SQLITE_OK, replicate 512 9))) by (change o with (fst (o, c2)); rewrite <- E; by vm_compute).
  exists (replicate 512 9). split; [exact Eo|]. specialize (H _ Eo). clear - H. by vm_compute in H |- *.
Defined.
