(* ===== verification/WalCkpt.v ===== *)
(** * Checkpoints ([walCheckpoint] of [src/src/wal.c])

    A checkpoint copies the newest frame of each page into the database file,
    as far as no reader needs the old content.  The state is the connection of
    [WalWrite], whose requests to the database file go through the same counter
    as those to the log, the database file, and what of it has been synced.
    Each write to the database is recorded with the locks held and the log as
    synced at that moment.  The busy handler answers its [n]-th call with
    [busy n] and gives up after [busyMax] calls; [hint n] is the number of bytes
    by which the operating system may extend the file when told its size. *)
From S2P Require Import Prelude Bits Bytes Varint Wal WalIndex WalIter WalRecover WalHdr WalWrite.

(** ** Definitions *)

Definition SQLITE_INTERRUPT : Z := 9.
Definition SQLITE_READONLY_RECOVERY : Z := Z.lor SQLITE_READONLY (Z.shiftl 8 8).
Definition SQLITE_CHECKPOINT_NOOP : Z := -1.
Definition SQLITE_CHECKPOINT_PASSIVE : Z := 0.
Definition SQLITE_CHECKPOINT_FULL : Z := 1.
Definition SQLITE_CHECKPOINT_RESTART : Z := 2.
Definition SQLITE_CHECKPOINT_TRUNCATE : Z := 3.
Definition WAL_CKPT_LOCK : Z := 1.

Definition set_ckptLock (n : Z) (p : Wal) : Wal :=
  mkWal (apWiData p) (szPage p) (readLock p) (exclusiveMode p) (writeLock p)
    n (readOnly p) (bShmUnreliable p) (hdr p) (minFrame p) (iReCksum p) (nCkpt p).

(** A write to the database file: its offset, the locks held and the log on
    the disk. *)
Record db_write : Type := mkDbWrite { dw_off : Z; dw_held : list (Z * Z); dw_log : bytes }.

Record ckpt : Type := mkCkpt {
  k_conn : conn;
  k_db : bytes;
  k_dbsynced : bytes;
  k_calls : nat;                   (* calls of the busy handler *)
  k_writes : list db_write;
}.
Definition set_conn (c : conn) (k : ckpt) : ckpt :=
  mkCkpt c (k_db k) (k_dbsynced k) (k_calls k) (k_writes k).
Definition set_db (d : bytes) (k : ckpt) : ckpt :=
  mkCkpt (k_conn k) d (k_dbsynced k) (k_calls k) (k_writes k).
Definition set_dbsynced (d : bytes) (k : ckpt) : ckpt :=
  mkCkpt (k_conn k) (k_db k) d (k_calls k) (k_writes k).
Definition count_call (k : ckpt) : ckpt :=
  mkCkpt (k_conn k) (k_db k) (k_dbsynced k) (S (k_calls k)) (k_writes k).
Definition log_db_write (off : Z) (k : ckpt) : ckpt :=
  mkCkpt (k_conn k) (k_db k) (k_dbsynced k) (k_calls k)
    (mkDbWrite off (r_held (c_rs (k_conn k))) (synced (k_conn k)) :: k_writes k).

Definition k_wal (k : ckpt) : Wal := c_wal (k_conn k).
Definition on_conn {A} (m : M conn A) : M ckpt A :=
  fun k => let '(o, c) := m (k_conn k) in (o, set_conn c k).
(** The number of the next request. *)
Definition k_ios (k : ckpt) : nat := r_ios (c_rs (k_conn k)).
Definition count_request (k : ckpt) : ckpt := set_conn (set_rs (count_io (c_rs (k_conn k))) (k_conn k)) k.

(** The result code of a computation. *)
Definition code_of {S} (m : M S Z) : M S Z :=
  fun s => match m s with
           | (Fail rc, s) => (Ret rc, s)
           | r => r
           end.

Definition walPagesize (p : Wal) : Z :=
  Z.land (hdr_szPage (hdr p)) 0xfe00 + Z.shiftl (Z.land (hdr_szPage (hdr p)) 0x0001) 16.

Section Code.
Variables (SQLITE_BIGENDIAN : bool) (mallocOk : nat -> bool) (shmRc ioRc : nat -> Z) (lockRc : nat -> Z -> Z -> Z)
  (partial : nat -> Z) (randomness : nat -> bytes)
  (junk : wipage)
  (busy : nat -> Z) (busyMax : nat) (isInterrupted : nat -> bool) (mallocFailed : bool) (hint : nat -> Z).

(** *** The database file *)

Definition db_write_request (d : bytes) (off : Z) : M ckpt Z :=
  fun k =>
    let rc := ioRc (k_ios k) in
    let n := if rc =? SQLITE_OK then blen d else Z.max 0 (Z.min (partial (k_ios k)) (blen d)) in
    (Ret rc, count_request (log_db_write off (set_db (log_write (k_db k) off (take (Z.to_nat n) d)) k))).
Definition db_truncate (n : Z) : M ckpt Z :=
  fun k =>
    let rc := ioRc (k_ios k) in
    (Ret rc, count_request (if rc =? SQLITE_OK
                            then set_db (take (Z.to_nat n) (k_db k ++ zeros (n - blen (k_db k)))) k else k)).
Definition db_sync (flags : Z) : M ckpt Z :=
  if flags =? 0 then ret SQLITE_OK
  else fun k =>
    let rc := ioRc (k_ios k) in
    (Ret rc, count_request (if rc =? SQLITE_OK then set_dbsynced (k_db k) k else k)).
Definition db_size : M ckpt (Z * Z) :=
  fun k => (Ret (ioRc (k_ios k), blen (k_db k)), count_request k).
(** [SQLITE_FCNTL_SIZE_HINT]. *)
Definition db_size_hint : M ckpt unit :=
  fun k => (Ret tt, count_request (set_db (k_db k ++ zeros (hint (k_ios k))) k)).

(** *** Locks *)

(** [do ... while( xBusy && rc==SQLITE_BUSY && xBusy(pBusyArg) )]. *)
Fixpoint busy_loop (fuel : nat) (xBusy : bool) (lockIdx n : Z) : M ckpt Z :=
  match fuel with
  | O => undef
  | S fuel =>
      let* rc := on_conn (on_rs (walLockExclusive lockRc lockIdx n)) in
      if xBusy && (rc =? SQLITE_BUSY) then
        let* again := (fun k => (Ret (busy (k_calls k)), count_call k)) in
        if negb (again =? 0) then busy_loop fuel xBusy lockIdx n else ret rc
      else ret rc
  end.
Definition walBusyLock (xBusy : bool) (lockIdx n : Z) : M ckpt Z :=
  busy_loop (S busyMax) xBusy lockIdx n.
Definition k_unlock (lockIdx n : Z) : M ckpt unit := on_conn (on_rs (walUnlockExclusive lockIdx n)).

(** *** The checkpoint *)

Definition k_word (off : Z) : M ckpt Z := on_conn (read_word off).
Definition set_word (off x : Z) : M ckpt unit := on_conn (write_word off x).

(** [for(i=1; i<WAL_NREADER; i++)]: the result code, [mxSafeFrame] and whether
    the busy handler is still in use. *)
Fixpoint readers_loop (n : nat) (i rc mxSafeFrame : Z) (xBusy : bool) : M ckpt (Z * Z * bool) :=
  match n with
  | O => ret (rc, mxSafeFrame, xBusy)
  | S n =>
      let* y := k_word (aReadMark_at i) in
      if y <? mxSafeFrame then
        let* rc := walBusyLock xBusy (WAL_READ_LOCK i) 1 in
        if rc =? SQLITE_OK then
          set_word (aReadMark_at i) (if i =? 1 then mxSafeFrame else READMARK_NOT_USED) ;;*
          k_unlock (WAL_READ_LOCK i) 1 ;;*
          readers_loop n (i + 1) rc mxSafeFrame xBusy
        else if rc =? SQLITE_BUSY then readers_loop n (i + 1) rc y false
        else fail rc
      else readers_loop n (i + 1) rc mxSafeFrame xBusy
  end.

(** [memcmp(pLive->aSalt, pWal->hdr.aSalt, sizeof(pWal->hdr.aSalt))], true when
    they are equal. *)
Definition same_salt : M ckpt bool :=
  let* ws := on_conn (on_index (read_words 8 2)) in
  let* p := gets k_wal in
  let* s0 := lift (load32 SQLITE_BIGENDIAN (aSalt (hdr p)) 0) in
  let* s1 := lift (load32 SQLITE_BIGENDIAN (aSalt (hdr p)) 4) in
  ret (bool_decide (ws = [s0; s1])).

(** The size of the database file is checked, and announced. *)
Definition announce_size (mxPage szPage : Z) : M ckpt Z :=
  let nReq := mxPage * szPage in
  let* r := db_size in
  let '(rc, nSize) := r in
  if (rc =? SQLITE_OK) && (nSize <? nReq) then
    let* p := gets k_wal in
    if nSize + 65536 + mxFrame (hdr p) * szPage <? nReq then ret SQLITE_CORRUPT
    else db_size_hint ;;* ret rc
  else ret rc.

(** [while( rc==SQLITE_OK && 0==walIteratorNext(pIter, &iDbpage, &iFrame) )]. *)
Fixpoint copy_loop (fuel : nat) (pIter : WalIterator) (szPage nBackfill mxSafeFrame mxPage : Z) : M ckpt Z :=
  match fuel with
  | O => undef
  | S fuel =>
      let* st := gets (fun k => c_wi (k_conn k)) in
      let* r := lift (walIteratorNext st pIter) in
      let '(pIter, next) := r in
      match next with
      | None => ret SQLITE_OK
      | Some (iDbpage, iFrame) =>
          let* n := gets k_ios in
          if isInterrupted n then ret (if mallocFailed then SQLITE_NOMEM else SQLITE_INTERRUPT)
          else if (iFrame <=? nBackfill) || (mxSafeFrame <? iFrame) || (mxPage <? iDbpage)
          then copy_loop fuel pIter szPage nBackfill mxSafeFrame mxPage
          else
            let* r := on_conn (on_rs (sqlite3OsRead ioRc szPage (walFrameOffset iFrame szPage + WAL_FRAME_HDRSIZE))) in
            let '(rc, zBuf) := r in
            if negb (rc =? SQLITE_OK) then ret rc
            else
              let* rc := db_write_request zBuf ((iDbpage - 1) * szPage) in
              if negb (rc =? SQLITE_OK) then ret rc
              else copy_loop fuel pIter szPage nBackfill mxSafeFrame mxPage
      end
  end.

(** The work done under [WAL_READ_LOCK(0)], if the log was not restarted. *)
Definition backfill (pIter : WalIterator) (mxSafeFrame mxPage szPage sync_flags : Z) : M ckpt Z :=
  let* nBackfill := k_word nBackfill_at in
  let* same := same_salt in
  if negb same then ret SQLITE_OK
  else
    set_word nBackfillAttempted_at mxSafeFrame ;;*
    let* rc := on_conn (sqlite3OsSync ioRc (CKPT_SYNC_FLAGS sync_flags)) in
    let* rc := (if rc =? SQLITE_OK then announce_size mxPage szPage else ret rc) in
    let* rc := (if rc =? SQLITE_OK then
                  let* p := gets k_wal in
                  copy_loop (S (Z.to_nat (mxFrame (hdr p)))) pIter szPage nBackfill mxSafeFrame mxPage
                else ret rc) in
    if rc =? SQLITE_OK then
      let* live := k_word 4 in
      let* rc := (if mxSafeFrame =? live then
                    let* p := gets k_wal in
                    let* rc := db_truncate (hdr_nPage (hdr p) * szPage) in
                    if rc =? SQLITE_OK then db_sync (CKPT_SYNC_FLAGS sync_flags) else ret rc
                  else ret rc) in
      if rc =? SQLITE_OK then set_word nBackfill_at mxSafeFrame ;;* ret rc else ret rc
    else ret rc.

(** The branch for a log with frames to copy: the result code and whether the
    busy handler is still in use. *)
Definition ckpt_copy (xBusy : bool) (szPage sync_flags : Z) : M ckpt (Z * bool) :=
  let* p := gets k_wal in
  let mxPage := hdr_nPage (hdr p) in
  let* r := readers_loop (Z.to_nat (WAL_NREADER - 1)) 1 SQLITE_OK (mxFrame (hdr p)) xBusy in
  let '(rc, mxSafeFrame, xBusy) := r in
  let* nBackfill := k_word nBackfill_at in
  let* r := (if nBackfill <? mxSafeFrame then
               fun k => match on_conn (on_index (walIteratorInit mallocOk shmRc nBackfill)) k with
                        | (Ret pIter, k) => (Ret (SQLITE_OK, Some pIter), k)
                        | (Fail rc, k) => (Ret (rc, None), k)
                        | (Undef, k) => (Undef, k)
                        end
             else ret (rc, None)) in
  let '(rc, pIter) := r in
  let* rc := (match pIter with
              | Some pIter =>
                  let* rc := walBusyLock xBusy (WAL_READ_LOCK 0) 1 in
                  if rc =? SQLITE_OK then
                    let* rc := backfill pIter mxSafeFrame mxPage szPage sync_flags in
                    k_unlock (WAL_READ_LOCK 0) 1 ;;*
                    ret rc
                  else ret rc
              | None => ret rc
              end) in
  ret (if rc =? SQLITE_BUSY then SQLITE_OK else rc, xBusy).

(** Waiting for the readers of the log, which restarts it. *)
Definition ckpt_restart (xBusy : bool) (eMode : Z) : M ckpt Z :=
  let* nBackfill := k_word nBackfill_at in
  let* p := gets k_wal in
  if nBackfill <? mxFrame (hdr p) then ret SQLITE_BUSY
  else if SQLITE_CHECKPOINT_RESTART <=? eMode then
    let* salt1 := on_conn (sqlite3_randomness randomness 4) in
    let* rc := walBusyLock xBusy (WAL_READ_LOCK 1) (WAL_NREADER - 1) in
    if rc =? SQLITE_OK then
      let* rc := (if eMode =? SQLITE_CHECKPOINT_TRUNCATE then
                    on_conn (walRestartHdr SQLITE_BIGENDIAN salt1) ;;*
                    on_conn (sqlite3OsTruncate ioRc 0)
                  else ret rc) in
      k_unlock (WAL_READ_LOCK 1) (WAL_NREADER - 1) ;;*
      ret rc
    else ret rc
  else ret SQLITE_OK.

Definition walCheckpoint (eMode : Z) (xBusy : bool) (sync_flags : Z) : M ckpt Z :=
  let* p := gets k_wal in
  let szPage := walPagesize p in
  let* nBackfill := k_word nBackfill_at in
  let* r := (if nBackfill <? mxFrame (hdr p) then ckpt_copy xBusy szPage sync_flags
             else ret (SQLITE_OK, xBusy)) in
  let '(rc, xBusy) := r in
  if (rc =? SQLITE_OK) && negb (eMode =? SQLITE_CHECKPOINT_PASSIVE) then ckpt_restart xBusy eMode
  else ret rc.

(** *** The header of the index *)

(** [walIndexReadHdr]: the result code and [*pChanged].  A connection that
    cannot map the shared memory at all ([SQLITE_READONLY_CANTINIT]) sets
    [bShmUnreliable] and goes on with an index of its own, which is not modelled. *)
Definition read_hdr_locked (badHdr : Z) (changed : bool) : M conn (Z * Z * bool) :=
  let* p := gets c_wal in
  if negb (Z.land (readOnly p) WAL_SHM_RDONLY =? 0) then
    let* rc := walLockShared lockRc WAL_WRITE_LOCK in
    if rc =? SQLITE_OK then walUnlockShared WAL_WRITE_LOCK ;;* ret (SQLITE_READONLY_RECOVERY, badHdr, changed)
    else ret (rc, badHdr, changed)
  else
    let bWriteLock := writeLock p in
    let* rc := (if bWriteLock then ret SQLITE_OK else on_rs (walLockExclusive lockRc WAL_WRITE_LOCK 1)) in
    if negb (rc =? SQLITE_OK) then ret (rc, badHdr, changed)
    else
      set_conn_wal (set_writeLock true) ;;*
      let* r := on_index (walIndexPage mallocOk shmRc 0) in
      let rc := fst r in
      let* r := (if rc =? SQLITE_OK then
                   let* r := on_index (walIndexTryHdr SQLITE_BIGENDIAN) in
                   let changed := changed || snd r in
                   if negb (fst r =? 0) then
                     let* rc := on_rs (walIndexRecover SQLITE_BIGENDIAN mallocOk shmRc ioRc lockRc junk) in
                     ret (rc, fst r, true)
                   else ret (rc, fst r, changed)
                 else ret (rc, badHdr, changed)) in
      (if bWriteLock then ret tt
       else set_conn_wal (set_writeLock false) ;;* on_rs (walUnlockExclusive WAL_WRITE_LOCK 1)) ;;*
      ret r.
Definition walIndexReadHdr : M conn (Z * bool) :=
  let* p := gets c_wal in
  let* r := (if bShmUnreliable p then undef else on_index (walIndexPage mallocOk shmRc 0)) in
  let '(rc, page0) := r in
  if negb (rc =? SQLITE_OK) then (if rc =? SQLITE_READONLY_CANTINIT then undef else ret (rc, false))
  else
    let* r := (match page0 with
               | Unmapped => ret (1, false)
               | _ => on_index (walIndexTryHdr SQLITE_BIGENDIAN)
               end) in
    let '(badHdr, changed) := r in
    let* r := (if negb (badHdr =? 0) then read_hdr_locked badHdr changed else ret (rc, badHdr, changed)) in
    let '(rc, badHdr, changed) := r in
    let* p := gets c_wal in
    ret (if (badHdr =? 0) && negb (iVersion (hdr p) =? WALINDEX_MAX_VERSION) then SQLITE_CANTOPEN else rc, changed).

(** *** The interface *)

Definition k_set_wal (f : Wal -> Wal) : M ckpt unit := on_conn (set_conn_wal f).

(** The locks of a checkpoint: the result code, [eMode2] and [xBusy2]. *)
Definition ckpt_locks (eMode : Z) (xBusy : bool) : M ckpt (Z * Z * bool) :=
  if eMode =? SQLITE_CHECKPOINT_NOOP then ret (SQLITE_OK, eMode, xBusy)
  else
    let* rc := on_conn (on_rs (walLockExclusive lockRc WAL_CKPT_LOCK 1)) in
    if negb (rc =? SQLITE_OK) then ret (rc, eMode, xBusy)
    else
      k_set_wal (set_ckptLock 1) ;;*
      if eMode =? SQLITE_CHECKPOINT_PASSIVE then ret (rc, eMode, xBusy)
      else
        let* rc := walBusyLock xBusy WAL_WRITE_LOCK 1 in
        if rc =? SQLITE_OK then k_set_wal (set_writeLock true) ;;* ret (rc, eMode, xBusy)
        else if rc =? SQLITE_BUSY then ret (SQLITE_OK, SQLITE_CHECKPOINT_PASSIVE, false)
        else ret (rc, eMode, xBusy).

(** The result code, and [*pnLog] and [*pnCkpt] where they are set. *)
Definition ckpt_run (eMode2 : Z) (xBusy2 : bool) (sync_flags nBuf : Z) : M ckpt (Z * option (Z * Z)) :=
  let* p := gets k_wal in
  let* rc := (if negb (mxFrame (hdr p) =? 0) && negb (walPagesize p =? nBuf) then ret SQLITE_CORRUPT
              else if eMode2 =? SQLITE_CHECKPOINT_NOOP then ret SQLITE_OK
              else code_of (walCheckpoint eMode2 xBusy2 sync_flags)) in
  if (rc =? SQLITE_OK) || (rc =? SQLITE_BUSY) then
    let* p := gets k_wal in
    let* nBackfill := k_word nBackfill_at in
    ret (rc, Some (i32 (mxFrame (hdr p)), i32 nBackfill))
  else ret (rc, None).

Definition sqlite3WalCheckpoint (eMode : Z) (xBusy : bool) (sync_flags nBuf : Z) : M ckpt (Z * option (Z * Z)) :=
  let* p := gets k_wal in
  if negb (readOnly p =? 0) then ret (SQLITE_READONLY, None)
  else
    let* r := ckpt_locks eMode xBusy in
    let '(rc, eMode2, xBusy2) := r in
    let* r := (if rc =? SQLITE_OK then on_conn walIndexReadHdr else ret (rc, false)) in
    let '(rc, isChanged) := r in
    let* r := (if rc =? SQLITE_OK then ckpt_run eMode2 xBusy2 sync_flags nBuf else ret (rc, None)) in
    let '(rc, counts) := r in
    (if isChanged : bool then k_set_wal (set_hdr zero_hdr) else ret tt) ;;*
    let* _ := on_conn sqlite3WalEndWriteTransaction in
    let* p := gets k_wal in
    (if negb (ckptLock p =? 0) then k_unlock WAL_CKPT_LOCK 1 ;;* k_set_wal (set_ckptLock 0) else ret tt) ;;*
    ret (if (rc =? SQLITE_OK) && negb (eMode =? eMode2) then SQLITE_BUSY else rc, counts).
End Code.
