(* ===== verification/WalSteps.v ===== *)
(** * What a checkpoint does, step by step

    The requests and loops of [WalCkpt], seen as steps that keep the log and the
    wal-index, and change pages of the database file. *)
From S2P Require Import Prelude Bits Bytes Varint Wal WalIndex WalIter WalRecover WalRecovery WalHdr WalWrite WalFile WalTx WalLoops WalSeal WalFinish WalStart WalCommit WalCkpt.

Lemma wp_on_conn {A} (m : M conn A) Q k :
  wp m (fun o c => Q o (set_conn c k)) (k_conn k) -> wp (on_conn m) Q k.
Proof. unfold wp, on_conn. by destruct (m (k_conn k)). Qed.

(** ** Pages of the database *)

(** Page [pg] of the file [db]; what is behind its end reads as zeros. *)
Definition db_page (sz : Z) (db : bytes) (pg : Z) : bytes :=
  map (fun j => bat db ((pg - 1) * sz + j)) (seqZ 0 sz).

(** What a reader of the frames [lo + 1..hi] of the log sees of page [pg]. *)
Definition seen (sz : Z) (fs : list fent) (lo hi : Z) (db : bytes) (pg : Z) : bytes :=
  match newest (drop (Z.to_nat lo) (take (Z.to_nat hi) fs)) pg with
  | Some d => d
  | None => db_page sz db pg
  end.

Lemma db_page_ext sz db db' pg :
  (forall j, (pg - 1) * sz <= j < pg * sz -> bat db' j = bat db j) -> db_page sz db' pg = db_page sz db pg.
Proof.
  intros H. unfold db_page. apply map_ext_in. intros j Hj. apply list_elem_of_In, elem_of_seqZ in Hj. apply H. lia.
Qed.
(** A write of page [pg], whole or not. *)
Lemma db_page_write sz db pg pg' d k :
  0 < sz -> 1 <= pg -> 1 <= pg' -> blen d = sz -> pg' <> pg ->
  db_page sz (log_write db ((pg - 1) * sz) (take k d)) pg' = db_page sz db pg'.
Proof.
  intros Hsz Hpg Hpg' Hd Hne. apply db_page_ext. intros j Hj. pose proof (blen_take_le k d) as Hl.
  rewrite log_write_at by nia.
  destruct (Z.leb_spec ((pg - 1) * sz) j), (Z.ltb_spec j ((pg - 1) * sz + blen (take k d))); cbn [andb]; try done. nia.
Qed.
Lemma db_page_written sz db pg d :
  0 < sz -> 1 <= pg -> blen d = sz -> db_page sz (log_write db ((pg - 1) * sz) d) pg = d.
Proof.
  intros Hsz Hpg Hd. apply bytes_ext.
  { unfold db_page, blen in *. rewrite length_map, length_seqZ. lia. }
  intros j Hj. assert (Hl : blen (db_page sz (log_write db ((pg - 1) * sz) d) pg) = sz).
  { unfold db_page, blen. rewrite length_map, length_seqZ. lia. }
  rewrite Hl in Hj. unfold db_page, bat at 1. destruct (Z.leb_spec 0 j); [|lia].
  rewrite list_lookup_fmap, lookup_seqZ_lt by lia. cbn [fmap option_fmap option_map default]. rewrite log_write_at by nia.
  destruct (Z.leb_spec ((pg - 1) * sz) ((pg - 1) * sz + (0 + Z.of_nat (Z.to_nat j)))),
    (Z.ltb_spec ((pg - 1) * sz + (0 + Z.of_nat (Z.to_nat j))) ((pg - 1) * sz + blen d)); cbn [andb]; try lia.
  unfold id. f_equal. lia.
Qed.
Lemma bat_pad d n j : bat (d ++ zeros n) j = bat d j.
Proof.
  destruct (Z.lt_ge_cases j (blen d)) as [H|H]; [by apply bat_app_l|]. rewrite (bat_outside d j) by lia.
  pose proof (blen_nonneg d). unfold bat. destruct (Z.leb_spec 0 j); [|done]. rewrite lookup_app_r by (unfold blen in *; lia).
  unfold zeros. destruct (replicate _ 0 !! _) as [x|] eqn:E; [|done]. by apply lookup_replicate in E as [-> _].
Qed.
Lemma db_page_pad sz db pg n : db_page sz (db ++ zeros n) pg = db_page sz db pg.
Proof. apply db_page_ext. intros j _. apply bat_pad. Qed.
Lemma db_page_truncate sz db pg n :
  0 < sz -> pg <= n -> db_page sz (take (Z.to_nat (n * sz)) (db ++ zeros (n * sz - blen db))) pg = db_page sz db pg.
Proof.
  intros Hsz Hpg. apply db_page_ext. intros j Hj. rewrite bat_take by nia. apply bat_pad.
Qed.

(** ** Steps *)

(** The first page of the wal-index. *)
Definition word_at (k : ckpt) (i : Z) : Z := bat (words (default zero_page (view (c_wi (k_conn k)) 0%nat))) i.

(** The database file, what is on the disk and what was recorded are the same. *)
Definition same_db (k k' : ckpt) : Prop :=
  k_db k' = k_db k /\ k_dbsynced k' = k_dbsynced k /\ k_writes k' = k_writes k.
(** A step of the checkpoint: the mapping of the wal-index may grow, the words
    [lo..hi-1] of its first page and the locks may change. *)
Record step (lo hi : Z) (k k' : ckpt) : Prop := {
  sp_wal : wal_same (k_wal k) (k_wal k');
  sp_ptr : ptr_kept (c_wi (k_conn k)) (c_wi (k_conn k'));
  sp_index log : index_ok log (c_wi (k_conn k)) -> index_ok log (c_wi (k_conn k'));
  sp_view : is_Some (view (c_wi (k_conn k)) 0%nat) -> is_Some (view (c_wi (k_conn k')) 0%nat);
  sp_words i : is_Some (view (c_wi (k_conn k)) 0%nat) -> i < 34 -> ~ lo <= i < hi -> word_at k' i = word_at k i;
  sp_file : c_file (k_conn k') = c_file (k_conn k);
}.

Lemma step_refl lo hi k : step lo hi k k.
Proof. split; try done; [apply wal_same_refl|by intros h ptr]. Qed.
Lemma step_trans lo hi k1 k2 k3 : step lo hi k1 k2 -> step lo hi k2 k3 -> step lo hi k1 k3.
Proof.
  intros [A B C D E F] [A' B' C' D' E' F']. split.
  - by eapply wal_same_trans.
  - intros h ptr Hp Hn. apply B'; [by apply B|done].
  - auto.
  - auto.
  - intros i Hv Hi Hn. rewrite E', E by auto. done.
  - congruence.
Qed.
Lemma step_widen lo hi lo' hi' k k' : lo' <= lo -> hi <= hi' -> step lo hi k k' -> step lo' hi' k k'.
Proof. intros H1 H2 [A B C D E F]. split; try done. intros i Hv Hi Hn. apply E; [done|done|lia]. Qed.
(** Nothing of the connection but the locks, the counter and [synced] changed. *)
Lemma step_same lo hi k k' : c_wi (k_conn k') = c_wi (k_conn k) -> c_file (k_conn k') = c_file (k_conn k) -> step lo hi k k'.
Proof.
  intros E F. unfold k_wal, c_wal, word_at. split; unfold k_wal, c_wal, word_at; rewrite ?E; try done; [apply wal_same_refl|by intros h ptr].
Qed.
(** Only [synced] of the connection may differ apart from the index. *)
Definition same_log (k k' : ckpt) : Prop := synced (k_conn k') = synced (k_conn k) /\ r_held (c_rs (k_conn k')) = r_held (c_rs (k_conn k)).

(** What every step needs of the state. *)
Record mapped_ok (k : ckpt) : Prop := {
  mo_wf : wi_wf (c_wi (k_conn k));
  mo_ptr : apWiData (k_wal k) !! 0%nat = Some (Shared 0);
}.
Lemma mapped_view k : mapped_ok k -> exists g, view (c_wi (k_conn k)) 0%nat = Some g.
Proof. intros [W P]. by eapply view_mapped. Qed.
Lemma mapped_step lo hi k k' log : index_ok log (c_wi (k_conn k)) -> mapped_ok k -> step lo hi k k' -> mapped_ok k'.
Proof. intros I [W P] S. split; [apply (sp_index _ _ _ _ S log I)|]. apply (sp_ptr _ _ _ _ S 0%nat); done. Qed.

Lemma k_word_ok off k Q :
  mapped_ok k -> 0 <= off < 34 -> Q (Ret (word_at k off)) k -> wp (k_word off) Q k.
Proof.
  intros M Ho HQ. destruct (mapped_view k M) as [g Hg]. destruct M as [W P].
  unfold k_word. apply wp_on_conn. unfold read_word, on_index. wp_step. apply wp_on_rs, wp_on_wi. unfold wp at 1.
  change (r_wi (c_rs (k_conn k))) with (c_wi (k_conn k)). destruct (view_sized _ _ _ W Hg) as [Hl _].
  rewrite (read_words_ok off 1 g) by (done || (unfold HASHTABLE_NPAGE in *; lia)). cbn [fst snd]. unfold after at 1.
  destruct (bsub_in (words g) off 1) as [l E]; [unfold HASHTABLE_NPAGE in *; lia..|].
  apply bsub_seg in E as E'. rewrite <- E'. rewrite bget_in by (rewrite (bsub_len _ _ _ _ E); lia). wp_go.
  rewrite E', seg_at by lia. rewrite Z.add_0_r.
  assert (Ek : set_conn (set_rs (set_wi (c_wi (k_conn k)) (c_rs (k_conn k))) (k_conn k)) k = k) by (by destruct k as [[[] ? ? ? ? ? ? ? ? ?] ? ? ? ?]).
  rewrite Ek. unfold word_at in HQ. rewrite Hg in HQ. exact HQ.
Qed.

(** The tables, after the header of the first page, are unchanged. *)
Definition tables_kept (s s' : wi) : Prop :=
  wal s' = wal s /\
  forall h g, view s h = Some g -> exists g', view s' h = Some g' /\ blen (words g') = blen (words g) /\
    forall i, toff h <= i -> bat (words g') i = bat (words g) i.

Lemma write_word_tables off x s :
  wi_wf s -> apWiData (wal s) !! 0%nat = Some (Shared 0) -> 0 <= off < 34 ->
  wp (write_words off [x]) (returns (fun _ => tables_kept s)) s.
Proof.
  intros W Ha Hoff. unfold write_words. do 2 wp_step. unfold after at 1. change (id s) with s. rewrite Ha. do 2 wp_step. unfold after at 1.
  assert (exists g, view s 0%nat = Some g) as [g Hg] by (by eapply view_mapped).
  rewrite (deref_view s 0 (Shared 0) g) by done. do 2 wp_step. unfold after at 1. destruct (view_sized _ _ _ W Hg) as [Hl Hs].
  assert (H1 : blen [x] = 1) by done.
  destruct (blit_in (words g) off [x]) as [wd E]; [lia|rewrite Hl, H1; unfold HASHTABLE_NPAGE; lia|].
  rewrite E. do 2 wp_step. unfold after at 1. wp_step. cbn [returns okp].
  destruct (store_ok s 0 (Shared 0) (mkPage wd (slots g))) as (W' & Hwal & Hv & Ho); try done.
  { split; [|done]. cbn [words]. by rewrite (blit_len _ _ _ _ E). }
  split; [done|]. intros h g' Hg'. destruct (decide (h = 0%nat)) as [->|Hne]; [|exists g'; by rewrite Ho].
  assert (g' = g) as -> by congruence. eexists. split; [exact Hv|]. cbn [words]. split; [by apply (blit_len _ _ _ _ E)|].
  intros i Hi. change (toff 0) with 34 in Hi. rewrite (blit_at _ _ _ _ _ E).
  by destruct (Z.leb_spec off i), (Z.ltb_spec i (off + blen [x])); try lia.
Qed.

Lemma iter_kept s s' log mx h p : iter_ok s log mx h p -> tables_kept s s' -> iter_ok s' log mx h p.
Proof.
  intros [Hp [A B C D]] [Hw Hk]. split; [done|]. split; try done. intros i g Hs Hi.
  destruct (C i g Hs Hi) as [G1 G2 G3 G4 Gm G5 (c & Gc & G6 & G7 & G8) [G9 G9']].
  split; try done; [|by rewrite Hw]. exists c. split; [|done]. unfold pgno_words in *.
  destruct (deref s (fst (seg_aPgno g))) as [pg|] eqn:Ed; [|done]. cbn in Gc. injection Gc as <-.
  assert (Hne : fst (seg_aPgno g) <> Unmapped) by (intros Hu; by rewrite Hu in Ed).
  assert (Hv : view s i = Some pg) by (unfold view; rewrite G9; cbn; by destruct (fst (seg_aPgno g))).
  destruct (Hk i pg Hv) as (pg' & Hv' & Hl & Hat). rewrite (deref_view s' i (fst (seg_aPgno g)) pg'); [|by rewrite Hw|done|done].
  cbn. f_equal. assert (H0 : 0 <= toff i) by (unfold toff; case_decide; lia). apply bytes_ext; [unfold blen in *; rewrite !length_drop; lia|].
  intros j Hj. unfold bat. rewrite !(proj2 (Z.leb_le 0 j)) by lia. rewrite !lookup_drop.
  specialize (Hat (snd (seg_aPgno g) + j) ltac:(lia)). unfold bat in Hat.
  rewrite !(proj2 (Z.leb_le 0 (snd (seg_aPgno g) + j))) in Hat by lia.
  by replace (Z.to_nat (snd (seg_aPgno g)) + Z.to_nat j)%nat with (Z.to_nat (snd (seg_aPgno g) + j)) by lia.
Qed.

Lemma wp_and {S A} (m : M S A) (P Q : A -> S -> Prop) s :
  wp m (returns P) s -> wp m (returns Q) s -> wp m (returns (fun a s' => P a s' /\ Q a s')) s.
Proof. unfold wp. destruct (m s) as [[a|e|] s']; cbn; [by split|done..]. Qed.

(** A failure is a value of the rest. *)
Lemma wp_catch_all {S A B} (m : M S A) (f : A -> B) (g : Z -> B) (P : A -> S -> Prop) (G : S -> Prop) (Q : B -> S -> Prop) H s :
  wp m (okp G P) s -> (forall a s', P a s' -> Q (f a) s') -> (forall e s', G s' -> Q (g e) s') ->
  wp (fun s => match m s with (Ret a, s) => (Ret (f a), s) | (Fail e, s) => (Ret (g e), s) | (Undef, s) => (Undef, s) end) (okp H Q) s.
Proof. unfold wp. destruct (m s) as [[a|e|] s']; cbn; auto. Qed.

Lemma set_word_ok off x k :
  mapped_ok k -> 0 <= off < 34 ->
  wp (set_word off x) (returns (fun _ k' => step off (off + 1) k k' /\ same_db k k' /\ same_log k k' /\ word_at k' off = x /\
    tables_kept (c_wi (k_conn k)) (c_wi (k_conn k')))) k.
Proof.
  intros M Ho. destruct (mapped_view k M) as [g Hg]. destruct M as [W P].
  unfold set_word. apply wp_on_conn. unfold write_word, on_index. apply wp_on_rs, wp_on_wi.
  eapply wp_mono; [apply wp_and; [apply write_word_ok; [exact W|exact P|done]|apply write_word_tables; [exact W|exact P|done]]|].
  intros [[]| |] s; cbn [returns okp]; [|done..].
  intros [[Q (g' & Hg' & E)] T]. split; [split|split; [done|split; [done|split; [|exact T]]]].
  - change (wal_same (c_wal (k_conn k)) (wal s)). rewrite (q_wal _ _ _ _ Q). apply wal_same_refl.
  - intros h ptr. change (apWiData (c_wal (k_conn k)) !! h = Some ptr -> ptr <> Unmapped -> apWiData (wal s) !! h = Some ptr).
    by rewrite (q_wal _ _ _ _ Q).
  - intros log. apply (q_index _ _ _ _ Q).
  - intros _. by exists g'.
  - intros i _ Hi Hn. destruct (q_words _ _ _ _ Q g Hg) as (g2 & Hg2 & E2).
    change (bat (words (default zero_page (view s 0%nat))) i = word_at k i). unfold word_at. rewrite Hg2, Hg. cbn. by apply E2.
  - done.
  - change (bat (words (default zero_page (view s 0%nat))) off = x). rewrite Hg'. exact E.
Qed.

(** *** Locks *)

Abbreviation held k := (r_held (c_rs (k_conn k))).
(** Only locks and counters differ. *)
Definition idle (k k' : ckpt) : Prop :=
  c_wi (k_conn k') = c_wi (k_conn k) /\ c_file (k_conn k') = c_file (k_conn k) /\
  synced (k_conn k') = synced (k_conn k) /\ same_db k k'.
Lemma idle_step lo hi k k' : idle k k' -> step lo hi k k'.
Proof. intros (A & B & _). by apply step_same. Qed.
Lemma idle_word k k' i : idle k k' -> word_at k' i = word_at k i.
Proof. intros (A & _). unfold word_at. by rewrite A. Qed.
Lemma idle_mapped k k' : idle k k' -> mapped_ok k -> mapped_ok k'.
Proof. intros (A & _) [W P]. unfold k_wal, c_wal in *. split; unfold k_wal, c_wal; by rewrite A. Qed.
Lemma idle_trans k1 k2 k3 : idle k1 k2 -> idle k2 k3 -> idle k1 k3.
Proof. intros (A & B & C & D & E & F) (A' & B' & C' & D' & E' & F'). repeat split; congruence. Qed.

Section Locks.
Context (lockRc : nat -> Z -> Z -> Z) (busy : nat -> Z) (busyMax : nat).
Hypothesis (Hbusy : forall n, (busyMax <= n)%nat -> busy n = 0).

(** A request for the exclusive lock on the slots [a..a+n-1] succeeds. *)
Definition granted (a n : Z) : Prop := exists m, lockRc m a n = SQLITE_OK.

Lemma busy_loop_ok fuel xBusy a n k :
  exclusiveMode (k_wal k) = 0 -> (busyMax < k_calls k + fuel)%nat -> (0 < fuel)%nat ->
  wp (busy_loop lockRc busy fuel xBusy a n) (returns (fun rc k' => idle k k' /\
    held k' = (if rc =? SQLITE_OK then (a, n) :: held k else held k) /\ (rc = SQLITE_OK -> granted a n))) k.
Proof.
  revert k. induction fuel as [|fuel IH]; intros k Hx Hf H0; [lia|]. cbn [busy_loop].
  wp_step. apply wp_on_conn, wp_on_rs. eapply wp_mono; [apply lock_ok|]. intros [rc| |] r; cbn [returns okp]; [|done..].
  intros ([Hw Hfi] & Hh & Hgr). specialize (Hgr Hx). change (wal (r_wi (c_rs (k_conn k)))) with (k_wal k) in Hh. unfold locked in Hh. rewrite Hx in Hh.
  set (k1 := set_conn (set_rs r (k_conn k)) k).
  assert (I1 : idle k k1) by (split; [exact Hw|split; [exact Hfi|done]]).
  unfold after at 1. destruct (xBusy && (rc =? SQLITE_BUSY)) eqn:Hb.
  2:{ wp_go. cbn [returns okp]. split; [done|]. split; [exact Hh|]. intros Hrc. eexists. by rewrite <- Hgr. }
  apply andb_true_iff in Hb as [_ Hb%Z.eqb_eq]. clear Hgr. subst rc. change (SQLITE_BUSY =? SQLITE_OK) with false in *. cbv iota in Hh.
  wp_step. unfold wp at 1. cbn [fst snd]. unfold after at 1. set (k2 := count_call k1).
  assert (I2 : idle k k2) by exact I1. destruct (Z.eqb_spec (busy (k_calls k1)) 0) as [E|E]; cbn [negb].
  - wp_go. cbn [returns okp]. split; [done|]. by split.
  - assert (Hlt : (k_calls k < busyMax)%nat).
    { destruct (Nat.lt_ge_cases (k_calls k) busyMax); [done|]. destruct E. by apply Hbusy. }
    assert (Hx2 : exclusiveMode (k_wal k2) = 0) by (unfold k_wal, c_wal in *; by rewrite (proj1 I2)).
    eapply okp_mono; [apply (IH k2); [exact Hx2|cbn; lia|lia]|]. cbn beta. intros rc k3 (I3 & H3 & G3).
    split; [by eapply idle_trans|]. split; [|done]. rewrite H3. change (held k2) with (r_held r). by rewrite Hh.
Qed.
Lemma walBusyLock_ok xBusy a n k :
  exclusiveMode (k_wal k) = 0 ->
  wp (walBusyLock lockRc busy busyMax xBusy a n) (returns (fun rc k' => idle k k' /\
    held k' = (if rc =? SQLITE_OK then (a, n) :: held k else held k) /\ (rc = SQLITE_OK -> granted a n))) k.
Proof. intros Hx. apply busy_loop_ok; [done|lia|lia]. Qed.

Lemma k_unlock_ok a n l k :
  exclusiveMode (k_wal k) = 0 -> held k = (a, n) :: l ->
  wp (k_unlock a n) (returns (fun _ k' => idle k k' /\ held k' = l)) k.
Proof.
  intros Hx Hh. unfold k_unlock. apply wp_on_conn, wp_on_rs. eapply wp_mono.
  { apply (unlock_ok a n l). unfold locked. change (wal (r_wi (c_rs (k_conn k)))) with (k_wal k). rewrite Hx. exact Hh. }
  intros [[]| |] r; cbn [returns okp]; [|done..]. intros [[Hw Hfi] Hr]. split; [split; [exact Hw|split; [exact Hfi|done]]|exact Hr].
Qed.

(** *** The readers *)

(** Marks that changed are those of slots that were locked, and out of the way
    of every frame up to [M]. *)
Definition marks_moved (M : Z) (k k' : ckpt) : Prop :=
  forall i, 1 <= i < WAL_NREADER -> word_at k' (aReadMark_at i) = word_at k (aReadMark_at i) \/
    granted (WAL_READ_LOCK i) 1 /\ M <= word_at k' (aReadMark_at i).

Record walked (M : Z) (k k' : ckpt) : Prop := {
  wk_step : step 26 30 k k';
  wk_db : same_db k k';
  wk_log : same_log k k';
  wk_marks : marks_moved M k k';
}.
Lemma walked_refl M k : walked M k k.
Proof. split; [apply step_refl|done|done|by left]. Qed.
Lemma walked_trans M k1 k2 k3 : walked M k1 k2 -> walked M k2 k3 -> walked M k1 k3.
Proof.
  intros [A (B1 & B2 & B3) [C1 C2] D] [A' (B1' & B2' & B3') [C1' C2'] D']. split.
  - by eapply step_trans.
  - repeat split; congruence.
  - split; congruence.
  - intros i Hi. destruct (D' i Hi) as [E|]; [|by right]. rewrite E. by apply D.
Qed.
Lemma idle_walked M k k' : idle k k' -> held k' = held k -> walked M k k'.
Proof.
  intros I H. split; [by apply idle_step|apply I|split; [apply I|done]|]. intros i _. left. by apply idle_word.
Qed.
Lemma wal_same_mode p p' : wal_same p p' -> exclusiveMode p' = exclusiveMode p /\ hdr p' = hdr p.
Proof. intros ->. done. Qed.

(** Slot [i] is free: its mark is moved away. *)
Lemma free_slot_ok s M i k log :
  index_ok log (c_wi (k_conn k)) -> mapped_ok k -> exclusiveMode (k_wal k) = 0 -> 1 <= i < WAL_NREADER ->
  (i = 1 -> s = M) -> M < 2 ^ 31 -> granted (WAL_READ_LOCK i) 1 -> forall l, held k = (WAL_READ_LOCK i, 1) :: l ->
  wp (set_word (aReadMark_at i) (if i =? 1 then s else READMARK_NOT_USED) ;;* k_unlock (WAL_READ_LOCK i) 1)
    (returns (fun _ k' => step 26 30 k k' /\ same_db k k' /\ synced (k_conn k') = synced (k_conn k) /\ held k' = l /\
       marks_moved M k k' /\ M <= word_at k' (aReadMark_at i))) k.
Proof.
  intros I Mp Hx Hi H1 HM Hgr l Hl. unfold aReadMark_at, WAL_NREADER in *. eapply wp_seq; [by apply set_word_ok; [|lia]|].
  intros [] k1 (S1 & D1 & [L1 L1'] & E1 & _). pose proof (wal_same_mode _ _ (sp_wal _ _ _ _ S1)) as [X1 _].
  eapply okp_mono; [apply (k_unlock_ok _ _ l); [by rewrite X1|by rewrite L1']|]. cbn beta. intros _ k2 [I2 Hh2].
  assert (Hm : M <= word_at k2 (25 + i)).
  { rewrite (idle_word _ _ _ I2), E1. unfold READMARK_NOT_USED. destruct (Z.eqb_spec i 1); [|lia]. rewrite H1 by done. lia. }
  split; [eapply step_trans; [eapply step_widen; [..|exact S1]; lia|by apply idle_step]|].
  destruct I2 as (A & B & C & (D & E & F)). destruct D1 as (D1 & E1' & F1). split; [repeat split; congruence|].
  split; [congruence|]. split; [done|]. split; [|done]. intros j Hj. destruct (decide (j = i)) as [->|Hne]; [by right|left].
  unfold aReadMark_at. rewrite (idle_word k1 k2) by done.
  destruct (mapped_view k Mp) as [g Hg]. apply (sp_words _ _ _ _ S1); [by exists g|unfold WAL_NREADER in *; lia|lia].
Qed.

Lemma readers_loop_ok n i rc s M xBusy k log :
  index_ok log (c_wi (k_conn k)) -> mapped_ok k -> exclusiveMode (k_wal k) = 0 -> 1 <= i -> i + Z.of_nat n = WAL_NREADER ->
  (i = 1 -> s = M) -> 0 <= s <= M -> M < 2 ^ 31 -> rc = SQLITE_OK \/ rc = SQLITE_BUSY ->
  (forall j, 1 <= j < WAL_NREADER -> 0 <= word_at k (aReadMark_at j)) ->
  (forall j, 1 <= j < i -> s <= word_at k (aReadMark_at j)) ->
  wp (readers_loop lockRc busy busyMax n i rc s xBusy)
    (okp (walked M k) (fun '(rc', s', _) k' => walked M k k' /\ (rc' = SQLITE_OK \/ rc' = SQLITE_BUSY) /\ 0 <= s' <= s /\
       (forall j, 1 <= j < WAL_NREADER -> s' <= word_at k' (aReadMark_at j)))) k.
Proof.
  revert i rc s xBusy k. induction n as [|n IH]; intros i rc s xBusy k I Mp Hx Hi Hn H1 Hs HM Hrc Hpos Hdone; cbn [readers_loop].
  { wp_go. cbn [okp]. split; [apply walked_refl|]. split; [done|]. split; [lia|].
    intros j Hj. apply Hdone. lia. }
  assert (Hi' : i < WAL_NREADER) by lia. unfold WAL_NREADER in Hi'.
  wp_step. apply k_word_ok; [done|unfold aReadMark_at; lia|]. unfold after at 1.
  set (y := word_at k (aReadMark_at i)). assert (Hy : 0 <= y) by (apply Hpos; unfold WAL_NREADER; lia).
  destruct (Z.ltb_spec y s) as [Hlt|Hge].
  2:{ apply IH; try done; try lia. intros j Hj. destruct (decide (j = i)) as [->|]; [exact Hge|apply Hdone; lia]. }
  eapply wp_seq; [apply (returns_okp _ _ _ _ _ (walBusyLock_ok xBusy (WAL_READ_LOCK i) 1 k Hx))|]; [intros a b Hab; exact Hab|].
  cbn beta. intros rc1 k1 (I1 & Hh1 & Hgr1).
  assert (W1 : k_wal k1 = k_wal k) by (unfold k_wal, c_wal; by rewrite (proj1 I1)).
  pose proof (idle_mapped _ _ I1 Mp) as Mp1. pose proof (sp_index _ _ _ _ (idle_step 26 30 _ _ I1) _ I) as Ix1.
  destruct (Z.eqb_spec rc1 SQLITE_OK) as [->|Hne].
  - apply wp_assoc. eapply wp_seq.
    { apply (returns_okp _ _ _ _ _ (free_slot_ok s M i k1 log Ix1 Mp1 ltac:(by rewrite W1) ltac:(unfold WAL_NREADER; lia) H1 HM (Hgr1 eq_refl) _ Hh1)).
      intros a b Hab. exact Hab. }
    cbn beta. intros _ k2 (S2 & D2 & L2 & Hh2 & Mv2 & Hm2).
    assert (K2 : walked M k k2).
    { split; [eapply step_trans; [by apply idle_step|exact S2]| |split; [|done]|].
      - destruct I1 as (_ & _ & _ & (A & B & C)), D2 as (A' & B' & C'). repeat split; congruence.
      - destruct I1 as (_ & _ & A & _). congruence.
      - intros j Hj. rewrite <- (idle_word k k1) by done. by apply Mv2. }
    assert (Hmarks : forall j, 1 <= j < WAL_NREADER -> word_at k2 (aReadMark_at j) = word_at k (aReadMark_at j) \/ M <= word_at k2 (aReadMark_at j)).
    { intros j Hj. destruct (wk_marks _ _ _ K2 j Hj) as [|[_ ?]]; [by left|by right]. }
    eapply wp_mono; [apply (IH (i + 1) SQLITE_OK s xBusy k2); try lia|].
    + apply (sp_index _ _ _ _ (wk_step _ _ _ K2) _ I).
    + by eapply mapped_step; [exact I|exact Mp|apply K2].
    + destruct (wal_same_mode _ _ (sp_wal _ _ _ _ (wk_step _ _ _ K2))) as [-> _]. done.
    + intros j Hj. pose proof (Hpos j Hj). destruct (Hmarks j Hj); lia.
    + intros j Hj. destruct (decide (j = i)) as [->|]; [lia|]. pose proof (Hdone j ltac:(lia)).
      destruct (Hmarks j ltac:(unfold WAL_NREADER; lia)); lia.
    + intros [[[rc' s'] xb]|e|] k3; cbn [okp]; [|intros K3; by eapply walked_trans|done].
      intros (K3 & H3). split; [by eapply walked_trans|done].
  - pose proof (idle_walked M k k1 I1 Hh1) as K1. destruct (Z.eqb_spec rc1 SQLITE_BUSY) as [->|Hnb]; [|by wp_go].
    eapply wp_mono; [apply (IH (i + 1) SQLITE_BUSY y false k1); try done; try lia|].
    + by rewrite W1.
    + intros j Hj. rewrite (idle_word _ _ _ I1). by apply Hpos.
    + intros j Hj. rewrite (idle_word _ _ _ I1). destruct (decide (j = i)) as [->|]; [unfold y; lia|].
      pose proof (Hdone j ltac:(lia)). lia.
    + intros [[[rc' s'] xb]|e|] k3; cbn [okp]; [|intros K3; by eapply walked_trans|done].
      intros (K3 & Hr & Hs' & Hm). split; [by eapply walked_trans|]. split; [done|]. split; [lia|done].
Qed.
End Locks.

(** *** Copying *)

Section Copy.
Context (ioRc partial : nat -> Z) (isInterrupted : nat -> bool) (mallocFailed : bool) (hint : nat -> Z).
Context (sz : Z).
Hypothesis (Hsz : 512 <= sz <= SQLITE_MAX_PAGE_SIZE).

Lemma k_sync_ok flags k :
  wp (on_conn (sqlite3OsSync ioRc flags)) (returns (fun rc k' =>
    c_wi (k_conn k') = c_wi (k_conn k) /\ c_file (k_conn k') = c_file (k_conn k) /\ held k' = held k /\ same_db k k' /\
    (rc = SQLITE_OK -> flags <> 0 -> synced (k_conn k') = c_file (k_conn k)))) k.
Proof.
  apply wp_on_conn. unfold wp, sqlite3OsSync. destruct (Z.eqb_spec flags 0); [by cbn|]. cbn [fst snd returns okp].
  by destruct (Z.eqb_spec (ioRc (r_ios (c_rs (k_conn k)))) SQLITE_OK).
Qed.

(** The database file may have grown by zeros. *)
Definition announced (k k' : ckpt) : Prop :=
  c_wi (k_conn k') = c_wi (k_conn k) /\ c_file (k_conn k') = c_file (k_conn k) /\ held k' = held k /\
  synced (k_conn k') = synced (k_conn k) /\ k_dbsynced k' = k_dbsynced k /\ k_writes k' = k_writes k /\
  forall pg, db_page sz (k_db k') pg = db_page sz (k_db k) pg.
Lemma announce_size_ok mxPage k :
  wp (announce_size ioRc hint mxPage sz) (returns (fun _ => announced k)) k.
Proof.
  unfold announce_size. cbv zeta. wp_step. unfold wp at 1, db_size. cbn [fst snd]. unfold after at 1.
  assert (A : announced k (count_request k)) by done.
  destruct (_ && _); [|by wp_go]. do 2 wp_step. unfold after at 1. destruct (_ <? _); [by wp_go|].
  wp_step. unfold wp at 1, db_size_hint. cbn [fst snd]. unfold after at 1. wp_go. cbn [returns okp].
  split; [done|]. split; [done|]. split; [done|]. split; [done|]. split; [done|]. split; [done|]. intros pg. apply db_page_pad.
Qed.

Context (fs : list fent) (rem : list Z) (M b s mxPage : Z) (good : Z) (k0 : ckpt).
Abbreviation log := (map fe_page fs ++ rem).
Abbreviation h0 := (walFramePage (b + 1)).
Hypothesis (HM : M = flen fs) (Hb : 0 <= b < M) (Hmax : M < max_frame) (Hs : s <= M).
Hypothesis (HF : file_ok sz (c_file (k_conn k0)) fs good).
Hypothesis (Hpg : Forall (fun e => 0 < fe_page e < NO_PAGE) fs).

Lemma log_page f e : fs !! Z.to_nat (f - 1) = Some e -> 1 <= f -> page log f = fe_page e.
Proof.
  intros He Hf. unfold page, bat. destruct (Z.leb_spec 0 (f - 1)); [|lia].
  rewrite lookup_app_l by (rewrite length_map; by eapply lookup_lt_Some). rewrite list_lookup_fmap. by rewrite He.
Qed.
Lemma log_pages j : 0 <= j < M -> 0 < bat log j < NO_PAGE.
Proof.
  intros Hj. destruct (lookup_lt_is_Some_2 fs (Z.to_nat j)) as [e He]; [unfold flen in HM; lia|].
  pose proof (log_page (j + 1) e) as H. replace (j + 1 - 1) with j in H by lia. unfold page in H.
  replace (j + 1 - 1) with j in H by lia. rewrite H by (done || lia). exact (Forall_lookup_1 _ _ _ _ Hpg He).
Qed.

(** Frame [f] of page [pg] is copied. *)
Definition to_copy (pg f : Z) : Prop := last_of log (tzero h0) M pg f /\ b < f <= s /\ pg <= mxPage.

(** A write made for [to_copy pg f], while [l] was held and [d] on the disk. *)
Definition fair_write (l : list (Z * Z)) (d : bytes) (w : db_write) : Prop :=
  dw_held w = l /\ dw_log w = d /\ exists pg f, dw_off w = (pg - 1) * sz /\ to_copy pg f.

Record copying (k : ckpt) : Prop := {
  co_wi : c_wi (k_conn k) = c_wi (k_conn k0);
  co_file : c_file (k_conn k) = c_file (k_conn k0);
  co_held : held k = held k0;
  co_synced : synced (k_conn k) = synced (k_conn k0) /\ k_dbsynced k = k_dbsynced k0;
  co_writes : exists l, k_writes k = l ++ k_writes k0 /\ Forall (fair_write (held k0) (synced (k_conn k0))) l;
  co_pages pg : 1 <= pg -> db_page sz (k_db k) pg = db_page sz (k_db k0) pg \/ exists f, to_copy pg f;
}.
(** The pages up to [prior] are done. *)
Definition copied (prior : Z) (k : ckpt) : Prop :=
  forall pg f, pg <= prior -> to_copy pg f -> db_page sz (k_db k) pg = data_at (c_file (k_conn k0)) sz f.

Lemma copying_start : copying k0 /\ copied 0 k0.
Proof.
  split.
  - split; try done; [by exists []|by left].
  - intros pg f H0 [(L1 & L2 & _) _]. pose proof (tzero_nonneg h0). pose proof (log_pages (f - 1) ltac:(lia)) as Hlp. unfold page in L2. lia.
Qed.

Lemma last_unique pg f f' : last_of log (tzero h0) M pg f -> last_of log (tzero h0) M pg f' -> f = f'.
Proof.
  intros (A & B & C) (A' & B' & C'). destruct (Z.lt_trichotomy f f') as [H|[|H]]; [by destruct (C f' ltac:(lia))|done|by destruct (C' f ltac:(lia))].
Qed.

(** One page is copied. *)
Lemma copy_write k pg f d n prior :
  copying k -> copied prior k -> to_copy pg f -> blen d = sz -> (forall pg', pg' <= prior -> pg' <> pg) ->
  let k' := count_request (log_db_write ((pg - 1) * sz) (set_db (log_write (k_db k) ((pg - 1) * sz) (take n d)) k)) in
  copying k' /\ (d = data_at (c_file (k_conn k0)) sz f -> take n d = d -> (forall pg' f', pg' <= pg -> to_copy pg' f' -> pg' <= prior \/ pg' = pg) -> copied pg k').
Proof.
  intros [A B C D (l & E & F) G] Hc T Hd Hnew k'. pose proof T as [(L1 & L2 & _) _].
  assert (Hp : 1 <= pg). { pose proof (tzero_nonneg h0). pose proof (log_pages (f - 1) ltac:(lia)) as Hlp. unfold page in L2. lia. }
  split.
  - split; try done.
    + exists (mkDbWrite ((pg - 1) * sz) (held k) (synced (k_conn k)) :: l). split; [by cbn; rewrite E|].
      apply list.Forall_cons. split; [|done]. split; [done|]. split; [apply D|]. by exists pg, f.
    + intros pg' Hp'. destruct (decide (pg' = pg)) as [->|Hne]; [right; by exists f|].
      change (k_db k') with (log_write (k_db k) ((pg - 1) * sz) (take n d)). rewrite db_page_write by (done || lia). by apply G.
  - intros Hdat Htake Hlast pg' f' Hle T'. change (k_db k') with (log_write (k_db k) ((pg - 1) * sz) (take n d)). rewrite Htake.
    destruct (decide (pg' = pg)) as [->|Hne].
    + rewrite (last_unique pg f' f) by (apply T' || apply T). rewrite db_page_written by (done || lia). done.
    + assert (Hp' : 1 <= pg'). { destruct T' as [(L1' & L2' & _) _]. pose proof (tzero_nonneg h0). pose proof (log_pages (f' - 1) ltac:(lia)) as Hlp. unfold page in L2'. lia. }
      rewrite <- (take_ge d (length d)) by done. rewrite db_page_write by (done || lia).
      apply Hc; [|done]. destruct (Hlast pg' f' Hle T'); [done|contradiction].
Qed.

Lemma read_data f Q k :
  copying k -> 1 <= f <= M ->
  (forall rc z, (rc = SQLITE_OK -> z = data_at (c_file (k_conn k0)) sz f) -> blen z = sz ->
     forall k', copying k' -> k_db k' = k_db k -> Q (Ret (rc, z)) k') ->
  wp (on_conn (on_rs (sqlite3OsRead ioRc sz (walFrameOffset f sz + WAL_FRAME_HDRSIZE)))) Q k.
Proof.
  intros Cp Hf HQ. apply wp_on_conn, wp_on_rs. unfold wp, sqlite3OsRead. cbn [fst snd].
  change (r_file (c_rs (k_conn k))) with (c_file (k_conn k)). rewrite (co_file _ Cp).
  pose proof (fk_len _ _ _ _ HF) as Hl. pose proof (foff_lt sz ltac:(lia) f (flen fs + 1) ltac:(lia)) as H1.
  pose proof (foff_le sz ltac:(lia) 1 f ltac:(lia)) as H0'. rewrite (foff_eq sz 1) in H0'. unfold WAL_FRAME_HDRSIZE.
  destruct (bsub_in (c_file (k_conn k0)) (walFrameOffset f sz + 24) sz) as [d Ed]; [lia..|]. rewrite Ed. cbn [default].
  pose proof (bsub_len _ _ _ _ Ed) as Ld. apply bsub_seg in Ed. apply HQ.
  - intros _. exact Ed.
  - exact Ld.
  - destruct Cp as [A B C D E F]. by split.
  - done.
Qed.

Lemma copy_loop_ok fuel p k :
  iter_ok (c_wi (k_conn k0)) log M h0 p -> iPrior p < NO_PAGE -> (length (later log (tzero h0) M (iPrior p)) < fuel)%nat ->
  copying k -> copied (iPrior p) k ->
  wp (copy_loop ioRc partial isInterrupted mallocFailed fuel p sz b s mxPage)
    (returns (fun rc k' => copying k' /\ (rc = SQLITE_OK -> copied NO_PAGE k'))) k.
Proof.
  revert p k. induction fuel as [|fuel IH]; intros p k Hp Hprior Hf Cp Cd; [lia|]. cbn [copy_loop].
  assert (Hlog : 0 < M <= blen log) by (unfold blen, flen in *; rewrite length_app, length_map; lia).
  do 2 wp_step. unfold after at 1. rewrite (co_wi _ Cp).
  destruct (walIteratorNext_ok _ log M h0 p Hlog Hmax log_pages Hp Hprior) as (p' & r & E & Hp' & Hr & HP).
  rewrite E. do 2 wp_step. unfold after at 1. destruct r as [[pg f]|].
  2:{ wp_go. cbn [returns okp]. split; [done|]. intros _ pg f _ T. destruct (Z.le_gt_cases pg (iPrior p)); [by apply Cd|].
      destruct T as [(L1 & L2 & _) _]. specialize (Hr f L1). lia. }
  destruct Hr as (R1 & R2 & R3 & R4 & R5). pose proof (tzero_nonneg h0) as Hz.
  assert (Hno : pg < NO_PAGE) by (rewrite <- R3; apply log_pages; lia).
  assert (Hlen : (length (later log (tzero h0) M (iPrior p')) < fuel)%nat).
  { rewrite HP. pose proof (later_step log (tzero h0) M (iPrior p) pg f R1 R2 R3). lia. }
  assert (L : last_of log (tzero h0) M pg f) by done.
  do 2 wp_step. unfold after at 1. destruct (isInterrupted _).
  { wp_go. cbn [returns okp]. split; [done|]. by destruct mallocFailed. }
  destruct ((f <=? b) || (s <? f) || (mxPage <? pg)) eqn:Hskip.
  { apply IH; try done; [by rewrite HP|]. rewrite HP. intros pg' f' Hle T.
    destruct (Z.le_gt_cases pg' (iPrior p)); [by apply Cd|]. destruct T as [L' [Hf' Hm]].
    assert (pg' = pg) as ->. { destruct L' as (L1 & L2 & _). specialize (R4 f' L1). lia. }
    rewrite (last_unique pg f' f L' L) in Hf'. rewrite !orb_true_iff, Z.leb_le, !Z.ltb_lt in Hskip. lia. }
  rewrite !orb_false_iff, Z.leb_gt, !Z.ltb_ge in Hskip.
  assert (T : to_copy pg f) by (split; [done|lia]).
  wp_step. apply read_data; [done|lia|]. intros rc z Hz1 Lz k1 Cp1 D1. unfold after at 1.
  destruct (Z.eqb_spec rc SQLITE_OK) as [->|Hrc]; cbn [negb]; [|by wp_go]. specialize (Hz1 eq_refl).
  wp_step. unfold wp at 1, db_write_request. cbn [fst snd]. unfold after at 1.
  assert (Cd1 : copied (iPrior p) k1) by (intros pg' f' H1 H2; rewrite D1; by apply Cd).
  set (n := Z.to_nat _).
  destruct (copy_write k1 pg f z n (iPrior p) Cp1 Cd1 T Lz ltac:(lia)) as [Cp2 Cd2]. cbv zeta in *.
  destruct (Z.eqb_spec (ioRc (k_ios k1)) SQLITE_OK) as [Hok|Hrc]; cbn [negb]; [|by wp_go].
  apply IH; try done; [by rewrite HP|]. rewrite HP. apply Cd2; [done|unfold n; apply take_ge; unfold blen; lia|].
  intros pg' f' Hle [(L1 & L2 & _) _]. specialize (R4 f' L1). lia.
Qed.
End Copy.
