(* ===== verification/WalBackfill.v ===== *)
(** * Backfilling

    What the part of [walCheckpoint] that is done under the first read lock
    leaves in the database file and in the wal-index. *)
From S2P Require Import Prelude Bits Bytes Varint Wal WalIndex WalIter WalRecover WalRecovery WalHdr WalWrite WalFile WalTx WalLoops WalSeal WalFinish WalStart WalCommit WalCkpt WalSteps.

(** ** The work of a checkpoint *)

Lemma newest_app l1 l2 pg : newest (l1 ++ l2) pg = match newest l2 pg with Some d => Some d | None => newest l1 pg end.
Proof.
  induction l2 as [|e l2 IH] using rev_ind; [by rewrite app_nil_r|].
  rewrite app_assoc, !newest_snoc. by case_decide.
Qed.
Lemma newest_some l e pg : e ∈ l -> fe_page e = pg -> newest l pg <> None.
Proof.
  intros He Hp. apply list_elem_of_split in He as (l1 & l2 & ->). rewrite newest_app. cbn [app].
  change (e :: l2) with ([e] ++ l2). rewrite newest_app. destruct (newest l2 pg); [done|].
  unfold newest. cbn [fold_left]. by rewrite decide_True.
Qed.
Lemma newest_none l pg : (forall e, e ∈ l -> fe_page e <> pg) -> newest l pg = None.
Proof. apply newest_tail. Qed.

(** The frames [lo + 1..hi]. *)
Definition frames (fs : list fent) (lo hi : Z) : list fent := drop (Z.to_nat lo) (take (Z.to_nat hi) fs).
Lemma frames_split fs lo mid hi : 0 <= lo <= mid -> mid <= hi -> frames fs lo hi = frames fs lo mid ++ frames fs mid hi.
Proof.
  intros H1 H2. unfold frames. set (l := take (Z.to_nat hi) fs).
  assert (E : take (Z.to_nat mid) fs = take (Z.to_nat mid) l) by (unfold l; rewrite take_take; f_equal; lia). rewrite E.
  rewrite <- (take_drop (Z.to_nat mid) l) at 1. destruct (Nat.le_gt_cases (Z.to_nat lo) (length (take (Z.to_nat mid) l))) as [H|H].
  - by rewrite drop_app_le.
  - rewrite length_take in H. rewrite drop_app_ge by (rewrite length_take; lia).
    rewrite (drop_ge (take _ l)) by (rewrite length_take; lia). cbn [app]. rewrite !drop_drop.
    rewrite !drop_ge by (rewrite ?length_take; lia). done.
Qed.
Lemma frames_elem fs lo hi e : 0 <= lo -> e ∈ frames fs lo hi <-> exists f, lo < f <= hi /\ fs !! Z.to_nat (f - 1) = Some e.
Proof.
  intros Hlo. unfold frames. rewrite list_elem_of_lookup. split.
  - intros [i Hi]. rewrite lookup_drop in Hi. apply lookup_take_Some in Hi as [Hi Hlt].
    exists (lo + Z.of_nat i + 1). split; [lia|]. by replace (Z.to_nat (lo + Z.of_nat i + 1 - 1)) with (Z.to_nat lo + i)%nat by lia.
  - intros (f & Hf & He). exists (Z.to_nat (f - 1 - lo)). rewrite lookup_drop, lookup_take_lt by lia.
    by replace (Z.to_nat lo + Z.to_nat (f - 1 - lo))%nat with (Z.to_nat (f - 1)) by lia.
Qed.

Lemma newest_where l pg d :
  newest l pg = Some d -> exists j e, l !! j = Some e /\ fe_page e = pg /\ snd e = d /\
    forall j' e', (j < j')%nat -> l !! j' = Some e' -> fe_page e' <> pg.
Proof.
  induction l as [|x l IH] using rev_ind; [done|]. rewrite newest_snoc. case_decide as Hx.
  - intros [= <-]. exists (length l), x. rewrite list_lookup_middle by done. split_and!; try done.
    intros j' e' Hj He'. apply lookup_lt_Some in He'. rewrite length_app in He'. cbn in He'. lia.
  - intros H. destruct (IH H) as (j & e & Hj & Hp & Hd & Hl). exists j, e.
    split; [by apply lookup_app_l_Some|]. split; [done|]. split; [done|]. intros j' e' Hlt He'.
    apply lookup_app_Some in He' as [He'|[_ He']]; [by apply (Hl j')|]. apply list_lookup_singleton_Some in He' as [_ <-]. done.
Qed.
Lemma frames_lookup fs lo hi j e : 0 <= lo -> frames fs lo hi !! j = Some e <->
  fs !! (Z.to_nat lo + j)%nat = Some e /\ lo + Z.of_nat j < hi.
Proof.
  intros Hlo. unfold frames. rewrite lookup_drop, lookup_take_Some. split; intros [H1 H2]; (split; [done|lia]).
Qed.

Section Work.
Context (SQLITE_BIGENDIAN : bool) (mallocOk : nat -> bool) (shmRc ioRc : nat -> Z) (lockRc : nat -> Z -> Z -> Z)
  (partial : nat -> Z) (randomness : nat -> bytes)
  (busy : nat -> Z) (busyMax : nat) (isInterrupted : nat -> bool) (mallocFailed : bool) (hint : nat -> Z).
Hypothesis (Hbusy : forall n, (busyMax <= n)%nat -> busy n = 0).
Context (sz : Z).
Hypothesis (Hsz : 512 <= sz <= SQLITE_MAX_PAGE_SIZE) (Hpow : Z.land sz (sz - 1) = 0).

(** The salt of the connection is that of the wal-index. *)
Definition live_salt (k : ckpt) : Prop :=
  load32 SQLITE_BIGENDIAN (aSalt (hdr (k_wal k))) 0 = Some (word_at k 8) /\
  load32 SQLITE_BIGENDIAN (aSalt (hdr (k_wal k))) 4 = Some (word_at k 9).

Lemma same_salt_ok k :
  mapped_ok k -> salted (hdr (k_wal k)) ->
  wp (same_salt SQLITE_BIGENDIAN) (returns (fun b k' => k' = k /\ (b = true -> live_salt k))) k.
Proof.
  intros M [Ls Os]. destruct (mapped_view k M) as [g Hg]. destruct M as [W P]. destruct (view_sized _ _ _ W Hg) as [Hl _].
  unfold same_salt. wp_step. apply wp_on_conn. unfold on_index. apply wp_on_rs, wp_on_wi. unfold wp at 1.
  change (r_wi (c_rs (k_conn k))) with (c_wi (k_conn k)).
  rewrite (read_words_ok 8 2 g) by (done || (unfold HASHTABLE_NPAGE in *; lia)). cbn [fst snd]. unfold after at 1.
  assert (Ek : set_conn (set_rs (set_wi (c_wi (k_conn k)) (c_rs (k_conn k))) (k_conn k)) k = k) by (by destruct k as [[[] ? ? ? ? ? ? ? ? ?] ? ? ? ?]).
  rewrite Ek. do 2 wp_step. unfold after at 1.
  assert (E0 : exists s0, load32 SQLITE_BIGENDIAN (aSalt (hdr (k_wal k))) 0 = Some s0) by (unfold load32; rewrite !bget_in by lia; by eexists).
  assert (E1 : exists s1, load32 SQLITE_BIGENDIAN (aSalt (hdr (k_wal k))) 4 = Some s1) by (unfold load32; rewrite !bget_in by lia; by eexists).
  destruct E0 as [s0 E0], E1 as [s1 E1]. rewrite E0, E1. cbn [lift]. wp_go. cbn [returns okp].
  split; [done|]. intros H%bool_decide_eq_true. unfold live_salt. rewrite E0, E1. unfold word_at. rewrite Hg. cbn [default].
  assert (A : forall j, 0 <= j < 2 -> bat [s0; s1] j = bat (words g) (8 + j)) by (intros j Hj; rewrite <- H; by apply seg_at).
  assert (A0 : s0 = bat (words g) 8) by exact (A 0 ltac:(lia)). assert (A1 : s1 = bat (words g) 9) by exact (A 1 ltac:(lia)).
  by rewrite A0, A1.
Qed.

(** What a checkpoint starts from: the frames [fs] of the log are those the
    header counts, and the first [b] of them are in the database file. *)
Record ready_ckpt (fs : list fent) (b : Z) (k : ckpt) : Prop := {
  ck_index : exists rem, index_ok (map fe_page fs ++ rem) (c_wi (k_conn k));
  ck_ptr : apWiData (k_wal k) !! 0%nat = Some (Shared 0);
  ck_mode : exclusiveMode (k_wal k) = 0;
  ck_mx : mxFrame (hdr (k_wal k)) = flen fs;
  ck_file : fs <> [] -> exists good, file_ok sz (c_file (k_conn k)) fs good;
  ck_size : fs <> [] -> hdr_szPage (hdr (k_wal k)) = size_field sz;
  ck_pages : Forall (fun e => 0 < fe_page e < NO_PAGE) fs;
  ck_salted : salted (hdr (k_wal k));
  ck_backfill : word_at k nBackfill_at = b /\ 0 <= b;
  ck_marks i : 1 <= i < WAL_NREADER -> 0 <= word_at k (aReadMark_at i);
  ck_live : live_salt k -> flen fs <= word_at k 4;
}.

(** A write to the database made with the first read lock held, when the log
    was on the disk if it is synced at all. *)
Definition guarded (sync_flags : Z) (f : bytes) (w : db_write) : Prop :=
  (WAL_READ_LOCK 0, 1) ∈ dw_held w /\ (CKPT_SYNC_FLAGS sync_flags <> 0 -> dw_log w = f).

Definition of_page (fs : list fent) (lo hi pg : Z) : Prop :=
  exists f e, lo < f <= hi /\ fs !! Z.to_nat (f - 1) = Some e /\ fe_page e = pg.

(** The frames up to [s] are in the database file, but for pages with a newer
    frame. *)
Definition backfilled (fs : list fent) (b s nPage : Z) (db db' : bytes) : Prop :=
  forall pg, 1 <= pg <= nPage -> ~ of_page fs s (flen fs) pg ->
    db_page sz db' pg = match newest (frames fs b s) pg with Some d => d | None => db_page sz db pg end.

Record progress (fs : list fent) (b s sync_flags : Z) (k k' : ckpt) : Prop := {
  pr_step : step 24 34 k k';
  pr_marks : marks_moved lockRc (flen fs) k k';
  pr_writes : exists l, k_writes k' = l ++ k_writes k /\ Forall (guarded sync_flags (c_file (k_conn k))) l;
  pr_pages pg : 1 <= pg -> pg <= hdr_nPage (hdr (k_wal k)) \/ s < flen fs ->
    db_page sz (k_db k') pg = db_page sz (k_db k) pg \/ of_page fs b s pg;
  pr_backfill : word_at k' nBackfill_at = b \/
    b < s /\ word_at k' nBackfill_at = s /\ backfilled fs b s (hdr_nPage (hdr (k_wal k))) (k_db k) (k_db k');
}.

Section Backfill.
Context (fs : list fent) (rem : list Z) (b s sync_flags : Z).
Hypothesis (Hb : 0 <= b < flen fs) (Hs : b < s <= flen fs).
Abbreviation log := (map fe_page fs ++ rem).
Abbreviation h0 := (walFramePage (b + 1)).
Abbreviation nPage k := (hdr_nPage (hdr (k_wal k))).

Lemma to_copy_of_page pg f mxPage : to_copy fs rem (flen fs) b s mxPage pg f -> of_page fs b s pg.
Proof.
  intros [(L1 & L2 & _) [Hf _]]. pose proof (tzero_nonneg h0).
  destruct (lookup_lt_is_Some_2 fs (Z.to_nat (f - 1))) as [e He]; [unfold flen in *; lia|].
  exists f, e. split; [done|]. split; [done|]. rewrite <- L2. symmetry. apply log_page; [done|lia].
Qed.

(** Everything that was to be copied is in the database. *)
Lemma copied_backfilled mxPage k0 k good :
  file_ok sz (c_file (k_conn k0)) fs good -> flen fs < max_frame ->
  (forall pg, 1 <= pg -> db_page sz (k_db k) pg = db_page sz (k_db k0) pg \/ exists f, to_copy fs rem (flen fs) b s mxPage pg f) ->
  copied sz fs rem (flen fs) b s mxPage k0 NO_PAGE k -> Forall (fun e => 0 < fe_page e < NO_PAGE) fs ->
  backfilled fs b s mxPage (k_db k0) (k_db k).
Proof.
  intros HF Hmax Hpages Hc Hpg pg Hp Hno. pose proof (walFramePage_spec (b + 1) ltac:(lia)) as Hh.
  destruct (newest (frames fs b s) pg) as [d|] eqn:En.
  - apply newest_where in En as (j & e & Hj & Hfp & <- & Hlast). apply frames_lookup in Hj as [He Hj]; [|lia].
    set (f := b + Z.of_nat j + 1). replace (Z.to_nat b + j)%nat with (Z.to_nat (f - 1)) in He by lia.
    assert (T : to_copy fs rem (flen fs) b s mxPage pg f).
    { split; [|lia]. split; [lia|]. split; [rewrite <- Hfp; apply log_page; [done|lia]|]. intros f' Hf' Hpg'.
      destruct (lookup_lt_is_Some_2 fs (Z.to_nat (f' - 1))) as [e' He']; [unfold flen in *; lia|].
      rewrite (log_page fs rem f' e' He') in Hpg' by lia. destruct (Z.le_gt_cases f' s) as [Hle|Hgt].
      - apply (Hlast (Z.to_nat (f' - 1 - b)) e'); [lia| |done]. apply frames_lookup; [lia|]. split; [|lia].
        by replace (Z.to_nat b + Z.to_nat (f' - 1 - b))%nat with (Z.to_nat (f' - 1)) by lia.
      - apply Hno. exists f', e'. split; [lia|done]. }
    assert (Hlt : pg <= NO_PAGE) by (rewrite <- Hfp; pose proof (Forall_lookup_1 _ _ _ _ Hpg He) as H; cbn beta in H; lia).
    rewrite (Hc pg f Hlt T). rewrite (fk_entry _ _ _ _ HF f ltac:(lia)) in He. by injection He as <-.
  - destruct (Hpages pg ltac:(lia)) as [E|[f T]]; [done|]. apply to_copy_of_page in T as (f' & e & Hf & He & Hfp).
    exfalso. apply (newest_some (frames fs b s) e pg); [|done|done]. apply frames_elem; [lia|]. by exists f'.
Qed.

(** After the first synced request. *)
Lemma k_truncate_ok n k :
  wp (db_truncate ioRc n) (returns (fun rc k' => c_wi (k_conn k') = c_wi (k_conn k) /\ c_file (k_conn k') = c_file (k_conn k) /\
    held k' = held k /\ k_writes k' = k_writes k /\
    (k_db k' = k_db k \/ k_db k' = take (Z.to_nat n) (k_db k ++ zeros (n - blen (k_db k)))))) k.
Proof.
  unfold wp, db_truncate. cbn [fst snd returns okp]. destruct (_ =? _); (split; [done|]; split; [done|]; split; [done|]; split; [done|]; auto).
Qed.
Lemma k_dbsync_ok flags k :
  wp (db_sync ioRc flags) (returns (fun rc k' => c_wi (k_conn k') = c_wi (k_conn k) /\ c_file (k_conn k') = c_file (k_conn k) /\
    held k' = held k /\ k_writes k' = k_writes k /\ k_db k' = k_db k)) k.
Proof.
  unfold wp, db_sync. destruct (flags =? 0); [done|]. cbn [fst snd returns okp]. by destruct (_ =? _).
Qed.

Lemma ready_good k : ready_ckpt fs b k -> mapped_ok k /\ exists good, file_ok sz (c_file (k_conn k)) fs good.
Proof.
  intros R. assert (Hne : fs <> []) by (intros ->; change (flen []) with 0 in *; lia).
  destruct (ck_index _ _ _ R) as [r I]. split; [split; [apply I|apply R]|by apply (ck_file _ _ _ R)].
Qed.

(** Between the mark of the attempt and the end. *)
Record midway (k k' : ckpt) : Prop := {
  mw_step : step 32 33 k k';
  mw_held : held k' = held k;
  mw_writes : exists l, k_writes k' = l ++ k_writes k /\ Forall (guarded sync_flags (c_file (k_conn k))) l;
  mw_pages pg : 1 <= pg -> db_page sz (k_db k') pg = db_page sz (k_db k) pg \/ of_page fs b s pg;
}.
Lemma midway_same k k1 k2 :
  midway k k1 -> c_wi (k_conn k2) = c_wi (k_conn k1) -> c_file (k_conn k2) = c_file (k_conn k1) -> held k2 = held k1 ->
  k_writes k2 = k_writes k1 -> (forall pg, 1 <= pg -> db_page sz (k_db k2) pg = db_page sz (k_db k1) pg) -> midway k k2.
Proof.
  intros [A B C D] H1 H2 H3 H4 H5. split.
  - eapply step_trans; [exact A|by apply step_same].
  - by rewrite H3.
  - by rewrite H4.
  - intros pg Hp. rewrite H5 by done. by apply D.
Qed.
Lemma midway_word k k' i : mapped_ok k -> midway k k' -> i < 34 -> i <> 32 -> word_at k' i = word_at k i.
Proof.
  intros M W Hi Hn. destruct (mapped_view k M) as [g Hg]. apply (sp_words _ _ _ _ (mw_step _ _ W)); [by exists g|done|lia].
Qed.
Lemma midway_progress k k' : ready_ckpt fs b k -> midway k k' ->
  progress fs b s sync_flags k k' /\ held k' = held k /\
  (forall i, 1 <= i < WAL_NREADER -> word_at k' (aReadMark_at i) = word_at k (aReadMark_at i)).
Proof.
  intros R W. destruct (ready_good k R) as [Mp _]. destruct (ck_backfill _ _ _ R) as [Eb _].
  assert (Hw : forall i, 1 <= i < WAL_NREADER -> word_at k' (aReadMark_at i) = word_at k (aReadMark_at i)).
  { intros i Hi. unfold aReadMark_at, WAL_NREADER in *. apply midway_word; [done|done|lia|lia]. }
  split; [|split; [apply W|done]]. split.
  - eapply step_widen; [..|apply W]; lia.
  - intros i Hi. left. by apply Hw.
  - apply W.
  - intros pg Hp _. by apply W.
  - left. rewrite <- Eb. by apply midway_word.
Qed.

(** The log is synced and the size announced. *)
Lemma sync_announce_ok mxPage k k1 :
  midway k k1 -> k_writes k1 = k_writes k ->
  wp (let* rc := on_conn (sqlite3OsSync ioRc (CKPT_SYNC_FLAGS sync_flags)) in
      if rc =? SQLITE_OK then announce_size ioRc hint mxPage sz else ret rc)
    (returns (fun rc k' => midway k k' /\ c_wi (k_conn k') = c_wi (k_conn k1) /\ k_writes k' = k_writes k /\
       (forall pg, db_page sz (k_db k') pg = db_page sz (k_db k1) pg) /\
       (rc = SQLITE_OK -> CKPT_SYNC_FLAGS sync_flags <> 0 -> synced (k_conn k') = c_file (k_conn k)))) k1.
Proof.
  intros W Hw. eapply wp_seq; [apply k_sync_ok|]. cbn beta. intros rc k2 (A2 & B2 & C2 & (D2 & E2 & F2) & G2).
  assert (W2 : midway k k2) by (apply (midway_same k k1); try done; intros pg _; by rewrite D2).
  assert (Fk : c_file (k_conn k1) = c_file (k_conn k)) by (apply (sp_file _ _ _ _ (mw_step _ _ W))).
  destruct (Z.eqb_spec rc SQLITE_OK) as [->|Hrc].
  - eapply okp_mono; [apply announce_size_ok|]. cbn beta. intros rc3 k3 (A3 & B3 & C3 & D3 & _ & F3 & G3).
    split; [by apply (midway_same k k2)|]. split; [congruence|]. split; [congruence|].
    split; [intros pg; by rewrite G3, D2|]. intros _ Hf. rewrite D3, <- Fk. by apply G2.
  - wp_go. cbn [returns okp]. split; [done|]. split; [done|]. split; [congruence|]. split; [intros pg; by rewrite D2|done].
Qed.

(** The pages are copied. *)
Lemma copy_stage_ok mxPage pIter k k1 good :
  midway k k1 -> k_writes k1 = k_writes k -> mxFrame (hdr (k_wal k)) = flen fs -> file_ok sz (c_file (k_conn k)) fs good ->
  Forall (fun e => 0 < fe_page e < NO_PAGE) fs -> flen fs < max_frame -> (WAL_READ_LOCK 0, 1) ∈ held k ->
  (CKPT_SYNC_FLAGS sync_flags <> 0 -> synced (k_conn k1) = c_file (k_conn k)) ->
  iter_ok (c_wi (k_conn k1)) log (flen fs) h0 pIter -> iPrior pIter = 0 ->
  (forall pg, db_page sz (k_db k1) pg = db_page sz (k_db k) pg) ->
  wp (let* p := gets k_wal in
      copy_loop ioRc partial isInterrupted mallocFailed (S (Z.to_nat (mxFrame (hdr p)))) pIter sz b s mxPage)
    (returns (fun rc k' => midway k k' /\ (rc = SQLITE_OK -> backfilled fs b s mxPage (k_db k) (k_db k')))) k1.
Proof.
  intros W Hw Hmx HF Hpg Hmax Hheld Hsync Hit Hp0 Hdb. do 2 wp_step. unfold after at 1.
  assert (Fk : c_file (k_conn k1) = c_file (k_conn k)) by (apply (sp_file _ _ _ _ (mw_step _ _ W))).
  destruct (wal_same_mode _ _ (sp_wal _ _ _ _ (mw_step _ _ W))) as [_ ->]. rewrite Hmx.
  assert (HF1 : file_ok sz (c_file (k_conn k1)) fs good) by (by rewrite Fk).
  destruct (copying_start sz fs rem (flen fs) b s mxPage k1 eq_refl Hb Hpg) as [Cp Cd].
  eapply okp_mono.
  { apply (copy_loop_ok ioRc partial isInterrupted mallocFailed sz Hsz fs rem (flen fs) b s mxPage good k1 eq_refl Hb Hmax HF1 Hpg).
    - exact Hit.
    - rewrite Hp0. done.
    - pose proof (later_le log (tzero h0) (flen fs) (iPrior pIter)). pose proof (tzero_nonneg h0). lia.
    - exact Cp.
    - by rewrite Hp0. }
  cbn beta. intros rc k2 [[A B C D (l & E & F) G] Hc].
  split.
  - split.
    + eapply step_trans; [apply W|by apply step_same].
    + rewrite C. apply W.
    + exists l. rewrite E, Hw. split; [done|]. eapply list.Forall_impl; [exact F|]. intros w (X & Y & _).
      split; [rewrite X, (mw_held _ _ W); exact Hheld|]. intros Hf. rewrite Y. by apply Hsync.
    + intros pg Hp. rewrite <- Hdb. destruct (G pg Hp) as [|[f T]]; [by left|right]. by eapply to_copy_of_page.
  - intros Hrc. pose proof (copied_backfilled mxPage k1 k2 good HF1 Hmax G (Hc Hrc) Hpg) as Hbf.
    intros pg Hp Hno. rewrite (Hbf pg Hp Hno). by rewrite Hdb.
Qed.

(** The file gets its size, and the header of the index says so. *)
Lemma finish_stage_ok k k1 :
  ready_ckpt fs b k -> midway k k1 -> flen fs <= word_at k 4 ->
  backfilled fs b s (nPage k) (k_db k) (k_db k1) ->
  wp (let* live := k_word 4 in
      let* rc := (if s =? live then
                    let* p := gets k_wal in
                    let* rc := db_truncate ioRc (hdr_nPage (hdr p) * sz) in
                    if rc =? SQLITE_OK then db_sync ioRc (CKPT_SYNC_FLAGS sync_flags) else ret rc
                  else ret SQLITE_OK) in
      if rc =? SQLITE_OK then set_word nBackfill_at s ;;* ret rc else ret rc)
    (returns (fun _ k' => progress fs b s sync_flags k k' /\ held k' = held k /\
       (forall i, 1 <= i < WAL_NREADER -> word_at k' (aReadMark_at i) = word_at k (aReadMark_at i)))) k1.
Proof.
  intros R W Hlive Hbf. destruct (ready_good k R) as [Mp _]. destruct (ck_index _ _ _ R) as [r I].
  pose proof (mapped_step _ _ _ _ _ I Mp (mw_step _ _ W)) as Mp1. wp_step. apply k_word_ok; [done|lia|]. unfold after at 1.
  rewrite (midway_word k k1 4) by (done || lia).
  (* the size of the file *)
  eapply (wp_seq _ _ _ (fun rc k2 => c_wi (k_conn k2) = c_wi (k_conn k1) /\ c_file (k_conn k2) = c_file (k_conn k1) /\ held k2 = held k1 /\
    k_writes k2 = k_writes k1 /\ forall pg, pg <= nPage k \/ s < flen fs -> db_page sz (k_db k2) pg = db_page sz (k_db k1) pg)).
  { destruct (Z.eqb_spec s (word_at k 4)) as [E|E]; [|by wp_go]. do 2 wp_step. unfold after at 1.
    destruct (wal_same_mode _ _ (sp_wal _ _ _ _ (mw_step _ _ W))) as [_ ->].
    eapply wp_seq; [apply k_truncate_ok|]. cbn beta. intros rc k2 (A2 & B2 & C2 & D2 & E2).
    assert (G2 : forall pg, pg <= nPage k \/ s < flen fs -> db_page sz (k_db k2) pg = db_page sz (k_db k1) pg).
    { intros pg Hp. destruct E2 as [-> | ->]; [done|]. apply db_page_truncate; lia. }
    destruct (rc =? SQLITE_OK); [|by wp_go]. eapply okp_mono; [apply k_dbsync_ok|]. cbn beta.
    intros rc3 k3 (A3 & B3 & C3 & D3 & E3). split; [congruence|]. split; [congruence|]. split; [congruence|]. split; [congruence|].
    intros pg Hp. rewrite E3. by apply G2. }
  cbn beta. intros rc k2 (A2 & B2 & C2 & D2 & E2).
  assert (P2 : progress fs b s sync_flags k k2 /\ held k2 = held k /\
    (forall i, 1 <= i < WAL_NREADER -> word_at k2 (aReadMark_at i) = word_at k (aReadMark_at i))).
  { destruct (midway_progress k k1 R W) as ([P1 P1m P1w P1p P1b] & H1 & M1).
    assert (Ew : forall i, word_at k2 i = word_at k1 i) by (intros i; unfold word_at; by rewrite A2).
    split; [|split; [by rewrite C2|intros i Hi; rewrite Ew; by apply M1]]. split.
    - eapply step_trans; [exact P1|by apply step_same].
    - intros i Hi. left. rewrite Ew. by apply M1.
    - by rewrite D2.
    - intros pg Hp Hn. rewrite E2 by done. by apply P1p.
    - left. rewrite Ew. destruct (ck_backfill _ _ _ R) as [<- _]. by apply midway_word. }
  destruct (rc =? SQLITE_OK); [|by wp_go]. destruct P2 as ([P2 P2m P2w P2p _] & H2 & M2).
  pose proof (mapped_step _ _ _ _ _ I Mp P2) as Mp2.
  eapply wp_seq; [by apply set_word_ok|]. intros [] k3 (S3 & (D3 & _ & F3) & [_ L3] & E3 & _). wp_go. cbn [returns okp].
  destruct (mapped_view k2 Mp2) as [g2 Hg2].
  assert (Hm3 : forall i, 1 <= i < WAL_NREADER -> word_at k3 (aReadMark_at i) = word_at k (aReadMark_at i)).
  { intros i Hi. rewrite <- M2 by done. apply (sp_words _ _ _ _ S3); unfold aReadMark_at, nBackfill_at, WAL_NREADER in *; [by exists g2|lia|lia]. }
  split; [|split; [by rewrite L3|done]]. split.
  - eapply step_trans; [exact P2|]. eapply step_widen; [..|exact S3]; unfold nBackfill_at; lia.
  - intros i Hi. left. by apply Hm3.
  - by rewrite F3.
  - intros pg Hp Hn. rewrite D3. by apply P2p.
  - right. split; [lia|]. split; [done|]. intros pg Hp Hno. rewrite D3, E2 by (left; lia). by apply Hbf.
Qed.

Lemma backfill_ok pIter k :
  ready_ckpt fs b k -> index_ok log (c_wi (k_conn k)) -> iter_ok (c_wi (k_conn k)) log (flen fs) h0 pIter -> iPrior pIter = 0 ->
  (WAL_READ_LOCK 0, 1) ∈ held k ->
  wp (backfill SQLITE_BIGENDIAN ioRc partial isInterrupted mallocFailed hint pIter s (nPage k) sz sync_flags)
    (returns (fun _ k' => progress fs b s sync_flags k k' /\ held k' = held k /\
       (forall i, 1 <= i < WAL_NREADER -> word_at k' (aReadMark_at i) = word_at k (aReadMark_at i)))) k.
Proof.
  intros R I Hit Hp0 Hheld. destruct (ready_good k R) as [Mp [good HF]]. pose proof (ix_len _ _ I) as Hmax0.
  assert (Hmax : flen fs < max_frame) by (unfold blen, flen in *; rewrite length_app, length_map in Hmax0; lia).
  unfold backfill. wp_step. apply k_word_ok; [done|done|]. unfold after at 1. destruct (ck_backfill _ _ _ R) as [-> _].
  eapply wp_seq; [apply same_salt_ok; [done|apply R]|]. intros same k0 [-> Hlive].
  destruct same; cbn [negb].
  2:{ wp_go. cbn [returns okp]. split; [|done]. split; [apply step_refl|by left|by exists []|by left|left; apply R]. }
  eapply wp_seq; [by apply set_word_ok|]. intros [] k1 (S1 & (D1 & E1 & F1) & [L1 L1'] & _ & T1).
  assert (W1 : midway k k1) by (split; [exact S1|done|exists []; by rewrite F1|left; by rewrite D1]).
  apply wp_assoc. eapply wp_seq; [by apply (sync_announce_ok (nPage k) k k1)|]. cbn beta.
  intros rc k2 (W2 & A2 & F2 & D2 & Y2).
  eapply (wp_seq _ _ _ (fun rc3 k3 => midway k k3 /\ (rc3 = SQLITE_OK -> backfilled fs b s (nPage k) (k_db k) (k_db k3)))).
  { destruct (Z.eqb_spec rc SQLITE_OK) as [->|Hrc]; [|by wp_go].
    apply (copy_stage_ok (nPage k) pIter k k2 good); try done; try apply R.
    - by apply Y2.
    - rewrite A2. by eapply iter_kept.
    - intros pg. by rewrite D2, D1. }
  cbn beta. intros rc3 k3 [W3 B3]. destruct (Z.eqb_spec rc3 SQLITE_OK) as [->|Hrc].
  - by apply finish_stage_ok; [| |apply R, Hlive|apply B3].
  - wp_go. cbn [returns okp]. by apply midway_progress.
Qed.
End Backfill.
End Work.
