(* ===== verification/WalCheckpoint.v ===== *)
(** * Checkpoints: what they keep and what they complete

    The phases of [walCheckpoint], and the theorems about it. *)
From S2P Require Import Prelude Bits Bytes Varint Wal WalIndex WalProps WalIter WalRecover WalRecovery WalHdr WalWrite WalFile WalTx WalLoops WalSeal WalFinish WalStart WalCommit WalTrans WalCkpt WalSteps WalBackfill.

Section Work.
Context (SQLITE_BIGENDIAN : bool) (mallocOk : nat -> bool) (shmRc ioRc : nat -> Z) (lockRc : nat -> Z -> Z -> Z)
  (partial : nat -> Z) (randomness : nat -> bytes)
  (busy : nat -> Z) (busyMax : nat) (isInterrupted : nat -> bool) (mallocFailed : bool) (hint : nat -> Z).
Hypothesis (Hbusy : forall n, (busyMax <= n)%nat -> busy n = 0).
Context (sz : Z).
Hypothesis (Hsz : 512 <= sz <= SQLITE_MAX_PAGE_SIZE) (Hpow : Z.land sz (sz - 1) = 0).
Abbreviation ready_ckpt := (ready_ckpt SQLITE_BIGENDIAN sz).
Abbreviation progress := (progress lockRc sz).
Abbreviation granted := (granted lockRc).
Abbreviation backfilled := (backfilled sz).
Abbreviation live_salt := (live_salt SQLITE_BIGENDIAN).

(** *** The phases *)

Section Phases.
Context (fs : list fent) (b sync_flags : Z).
Hypothesis (Hrand : forall n, bytes_ok (randomness n)).
Abbreviation M := (flen fs).

Lemma ready_step lo hi k k' :
  ready_ckpt fs b k -> step lo hi k k' -> 26 <= lo -> hi <= 30 ->
  (forall i, 1 <= i < WAL_NREADER -> 0 <= word_at k' (aReadMark_at i)) -> ready_ckpt fs b k'.
Proof.
  intros R S Hlo Hhi Hm. destruct (ck_index _ _ _ _ _ R) as [r I].
  assert (Mp : mapped_ok k) by (split; [apply I|apply R]). destruct (mapped_view k Mp) as [g Hg].
  assert (Ew : forall i, i < 26 -> word_at k' i = word_at k i).
  { intros i Hi. apply (sp_words _ _ _ _ S); [by exists g|lia|lia]. }
  destruct (wal_same_mode _ _ (sp_wal _ _ _ _ S)) as [Em Eh]. pose proof (ck_live _ _ _ _ _ R) as Hlive. destruct R. split; rewrite ?Em, ?Eh, ?(sp_file _ _ _ _ S); try done.
  - exists r. by apply (sp_index _ _ _ _ S).
  - by apply (sp_ptr _ _ _ _ S 0%nat).
  - unfold nBackfill_at in *. by rewrite Ew.
  - unfold live_salt. rewrite !Ew, Eh by lia. exact Hlive.
Qed.

(** The index, the locks and the counters may differ. *)
Abbreviation marks_moved := (marks_moved lockRc).
Abbreviation walked := (walked lockRc).
Definition reached (k k' : ckpt) : Prop := step 26 30 k k' /\ same_db k k' /\ marks_moved M k k'.
Lemma walked_reached k k' : walked M k k' -> reached k k'.
Proof. by intros [A B C D]. Qed.
Lemma idle_reached k k' : idle k k' -> reached k k'.
Proof. intros I. split; [by apply idle_step|]. split; [apply I|]. intros i _. left. by apply idle_word. Qed.

Lemma progress_none k k' :
  ready_ckpt fs b k -> reached k k' -> progress fs b 0 sync_flags k k'.
Proof.
  intros R (S & (D1 & D2 & D3) & Mv). destruct (ck_index _ _ _ _ _ R) as [r I].
  assert (Mp : mapped_ok k) by (split; [apply I|apply R]). destruct (mapped_view k Mp) as [g Hg]. split.
  - eapply step_widen; [..|exact S]; lia.
  - done.
  - exists []. by rewrite D3.
  - intros pg _ _. left. by rewrite D1.
  - left. destruct (ck_backfill _ _ _ _ _ R) as [<- _]. apply (sp_words _ _ _ _ S); [by exists g|done|unfold nBackfill_at; lia].
Qed.
Lemma progress_after s k k1 k2 :
  reached k k1 -> progress fs b s sync_flags k1 k2 -> progress fs b s sync_flags k k2.
Proof.
  intros (S & (D1 & D2 & D3) & Mv) [A B C D E]. destruct (wal_same_mode _ _ (sp_wal _ _ _ _ S)) as [_ Eh].
  rewrite Eh, D1 in *. rewrite D3, (sp_file _ _ _ _ S) in C. split; try done.
  - eapply step_trans; [eapply step_widen; [..|exact S]; lia|exact A].
  - intros i Hi. destruct (B i Hi) as [->|]; [by apply Mv|by right].
Qed.
Lemma progress_idle s k k1 k2 :
  progress fs b s sync_flags k k1 -> idle k1 k2 -> progress fs b s sync_flags k k2.
Proof.
  intros [A B C D E] I. pose proof I as (_ & _ & _ & (D1 & D2 & D3)). split; rewrite ?D1, ?D3, ?(idle_word _ _ _ I); try done.
  - eapply step_trans; [exact A|by apply idle_step].
  - intros i Hi. rewrite (idle_word _ _ _ I). by apply B.
Qed.

(** The database was written only with the first read lock. *)
Definition db_guarded (k k' : ckpt) : Prop := k_db k' = k_db k \/ granted (WAL_READ_LOCK 0) 1.
(** After a phase that backfilled up to [s]: the marks of the readers that are
    still there are not below [s]. *)
Definition advanced (k k' : ckpt) : Prop :=
  held k' = held k /\ db_guarded k k' /\ exists s, 0 <= s <= M /\ progress fs b s sync_flags k k' /\
    forall i, 1 <= i < WAL_NREADER -> s <= word_at k' (aReadMark_at i).

Lemma advanced_none k k' : ready_ckpt fs b k -> walked M k k' -> advanced k k'.
Proof.
  intros R W. split; [apply W|]. split; [left; apply W|]. exists 0. split; [unfold flen; lia|]. split; [by apply progress_none, walked_reached|].
  intros i Hi. pose proof (ck_marks _ _ _ _ _ R i Hi). assert (0 <= M) by (unfold flen; lia). destruct (wk_marks _ _ _ _ W i Hi) as [|[_ ?]]; lia.
Qed.

Lemma walIteratorInit_k_ok rem k :
  index_ok (map fe_page fs ++ rem) (c_wi (k_conn k)) -> ready_ckpt fs b k -> 0 <= b < M ->
  wp (on_conn (on_index (walIteratorInit mallocOk shmRc b)))
    (okp (fun k' => walked M k k') (fun p k' => walked M k k' /\ iPrior p = 0 /\
       iter_ok (c_wi (k_conn k')) (map fe_page fs ++ rem) M (walFramePage (b + 1)) p)) k.
Proof.
  intros I R Hb. pose proof (ix_len _ _ I) as Hmax. apply wp_on_conn. unfold on_index. apply wp_on_rs, wp_on_wi.
  assert (HX : forall s, index_ok (map fe_page fs ++ rem) s -> view_ext (c_wi (k_conn k)) s -> walked M k (set_conn (set_rs (set_wi s (c_rs (k_conn k))) (k_conn k)) k)).
  { intros s I' X. assert (Hv : forall g, view (c_wi (k_conn k)) 0%nat = Some g -> view s 0%nat = Some g) by (intros g; apply X).
    assert (Ew : forall i, is_Some (view (c_wi (k_conn k)) 0%nat) -> word_at (set_conn (set_rs (set_wi s (c_rs (k_conn k))) (k_conn k)) k) i = word_at k i).
    { intros i [g Hg]. unfold word_at. change (c_wi (k_conn (set_conn (set_rs (set_wi s (c_rs (k_conn k))) (k_conn k)) k))) with s. by rewrite (Hv g Hg), Hg. }
    assert (Hg0 : is_Some (view (c_wi (k_conn k)) 0%nat)).
    { destruct (mapped_view k) as [g Hg]; [split; [apply I|apply R]|by exists g]. }
    split; [split|done|done|].
    - apply X.
    - intros h ptr. apply X.
    - intros log J. apply (index_ext log (c_wi (k_conn k))); [done|apply I'|done].
    - intros [g Hg]. exists g. by apply Hv.
    - intros i Hs _ _. by apply Ew.
    - done.
    - intros i _. left. by apply Ew. }
  assert (Hlog : 0 < M <= blen (map fe_page fs ++ rem)) by (unfold blen, flen in *; rewrite length_app, length_map; lia).
  eapply wp_mono; [apply (walIteratorInit_ok mallocOk shmRc (map fe_page fs ++ rem) M (walFramePage (b + 1)) Hlog ltac:(lia) b _ I (ck_mx _ _ _ _ _ R) eq_refl Hb)|].
  intros [p|e|] s; cbn [okp]; [|intros [I' X]; by apply HX|done]. intros (I' & X & Hp & Hi). split; [by apply HX|]. split; [done|exact Hi].
Qed.

Lemma ready_idle k k' : ready_ckpt fs b k -> idle k k' -> ready_ckpt fs b k'.
Proof.
  intros R I. apply (ready_step 26 30 k); [done|by apply idle_step|lia|lia|]. intros i Hi. rewrite (idle_word _ _ _ I). by apply R.
Qed.

Definition same_marks (k k' : ckpt) : Prop :=
  forall i, 1 <= i < WAL_NREADER -> word_at k' (aReadMark_at i) = word_at k (aReadMark_at i).

(** The work under the first read lock. *)
Lemma locked_backfill_ok rem s xBusy pIter k :
  ready_ckpt fs b k -> index_ok (map fe_page fs ++ rem) (c_wi (k_conn k)) ->
  iter_ok (c_wi (k_conn k)) (map fe_page fs ++ rem) M (walFramePage (b + 1)) pIter -> iPrior pIter = 0 ->
  b < M -> b < s <= M ->
  wp (let* rc := walBusyLock lockRc busy busyMax xBusy (WAL_READ_LOCK 0) 1 in
      if rc =? SQLITE_OK then
        let* rc := backfill SQLITE_BIGENDIAN ioRc partial isInterrupted mallocFailed hint pIter s (hdr_nPage (hdr (k_wal k))) sz sync_flags in
        k_unlock (WAL_READ_LOCK 0) 1 ;;* ret rc
      else ret rc)
    (returns (fun _ k' => held k' = held k /\ same_marks k k' /\ (progress fs b s sync_flags k k' /\ granted (WAL_READ_LOCK 0) 1 \/ idle k k'))) k.
Proof.
  intros R I Hit Hp0 Hb Hs. destruct (ck_backfill _ _ _ _ _ R) as [_ Hb0].
  eapply wp_seq; [by apply (walBusyLock_ok lockRc busy busyMax Hbusy), R|]. cbn beta. intros rc k1 (I1 & H1 & G1).
  destruct (Z.eqb_spec rc SQLITE_OK) as [->|Hrc].
  2:{ wp_go. cbn [returns okp]. split; [done|]. split; [|by right]. intros i _. by apply idle_word. }
  pose proof (ready_idle _ _ R I1) as R1. destruct I1 as (E1 & I1'). assert (W1 : k_wal k1 = k_wal k) by (unfold k_wal, c_wal; by rewrite E1).
  rewrite <- W1. eapply wp_seq.
  { apply (backfill_ok SQLITE_BIGENDIAN ioRc lockRc partial isInterrupted mallocFailed hint sz Hsz fs rem b s sync_flags); [lia|lia|done|by rewrite E1|by rewrite E1|done|rewrite H1; apply list_elem_of_here]. }
  cbn beta. intros rc2 k2 (P2 & H2 & Mk2).
  eapply wp_seq; [apply (k_unlock_ok (WAL_READ_LOCK 0) 1 (held k))|].
  { destruct (wal_same_mode _ _ (sp_wal _ _ _ _ (pr_step _ _ _ _ _ _ _ _ P2))) as [-> _]. apply R1. }
  { by rewrite H2. }
  cbn beta. intros _ k3 [I3 H3]. wp_go. cbn [returns okp]. assert (I1 : idle k k1) by done.
  split; [done|]. split.
  - intros i Hi. rewrite (idle_word _ _ _ I3), Mk2 by done. by apply idle_word.
  - left. split; [|by apply G1]. eapply progress_idle; [|exact I3]. eapply progress_after; [by apply idle_reached|exact P2].
Qed.

Lemma ckpt_copy_ok xBusy k :
  ready_ckpt fs b k -> b < M ->
  wp (ckpt_copy SQLITE_BIGENDIAN mallocOk shmRc ioRc lockRc partial busy busyMax isInterrupted mallocFailed hint xBusy sz sync_flags)
    (okp (advanced k) (fun _ => advanced k)) k.
Proof.
  intros R Hb. destruct (ck_index _ _ _ _ _ R) as [rem I]. destruct (ck_backfill _ _ _ _ _ R) as [Eb Hb0].
  pose proof (ix_len _ _ I) as Hlen. assert (Mp : mapped_ok k) by (split; [apply I|apply R]).
  assert (HM : M < 2 ^ 31). { unfold max_frame, blen, flen in *. rewrite length_app, length_map in Hlen. lia. }
  unfold ckpt_copy. do 2 wp_step. unfold after at 1. rewrite (ck_mx _ _ _ _ _ R).
  eapply wp_seq_weak.
  { apply (readers_loop_ok lockRc busy busyMax Hbusy (Z.to_nat (WAL_NREADER - 1)) 1 SQLITE_OK M M xBusy k _ I Mp); try done; try apply R; try lia; by left. }
  { intros k'. by apply advanced_none. }
  intros [[rc s] xb] k1 (W1 & Hrc & Hs & Hmarks).
  assert (R1 : ready_ckpt fs b k1).
  { apply (ready_step 26 30 k k1); [done|apply W1|lia|lia|]. intros i Hi. specialize (Hmarks i Hi). lia. }
  destruct (ck_index _ _ _ _ _ R1) as [rem1 I1]. assert (Mp1 : mapped_ok k1) by (split; [apply I1|apply R1]).
  wp_step. apply k_word_ok; [done|done|]. unfold after at 1. destruct (ck_backfill _ _ _ _ _ R1) as [-> _].
  destruct (Z.ltb_spec b s) as [Hbs|Hbs].
  2:{ do 2 wp_step. unfold after at 1. wp_go. cbn [okp]. by apply advanced_none. }
  eapply (wp_seq _ _ _ (fun r k2 => walked M k1 k2 /\ match snd r with
     | Some p => iPrior p = 0 /\ iter_ok (c_wi (k_conn k2)) (map fe_page fs ++ rem1) M (walFramePage (b + 1)) p
     | None => True end)).
  { eapply (wp_catch_all _ (fun p => (SQLITE_OK, Some p)) (fun rc => (rc, None))); [by apply walIteratorInit_k_ok; [| |lia]| |].
    - intros p k2 (A & B). by split.
    - by intros e k2. }
  intros [rc2 [p|]] k2 [W2 Hp]; cbn [snd] in Hp.
  2:{ do 2 wp_step. unfold after at 1. wp_go. cbn [okp]. apply advanced_none; [done|by eapply walked_trans]. }
  pose proof (walked_trans _ _ _ _ _ W1 W2) as W12. destruct Hp as [Hp0 Hit].
  assert (Hmarks2 : forall i, 1 <= i < WAL_NREADER -> s <= word_at k2 (aReadMark_at i)).
  { intros i Hi. specialize (Hmarks i Hi). pose proof Hs. destruct (wk_marks _ _ _ _ W2 i Hi) as [|[_ ?]]; lia. }
  assert (R2 : ready_ckpt fs b k2).
  { apply (ready_step 26 30 k k2); [done|apply W12|lia|lia|]. intros i Hi. specialize (Hmarks2 i Hi). lia. }
  destruct (wal_same_mode _ _ (sp_wal _ _ _ _ (wk_step _ _ _ _ W12))) as [_ Eh]. rewrite <- Eh.
  eapply wp_seq.
  { eapply returns_okp; [apply (locked_backfill_ok rem1 s xb p k2); try done; [|lia]|intros a k3 H3; exact H3].
    apply (sp_index _ _ _ _ (wk_step _ _ _ _ W2) _ I1). }
  cbn beta. intros rc3 k3 (H3 & M3 & P3). wp_go. cbn [okp].
  destruct P3 as [[P3 G3]|I3].
  - split; [rewrite H3; apply W12|]. split; [by right|]. exists s. split; [lia|]. split; [eapply progress_after; [by apply walked_reached|done]|]. intros i Hi. rewrite M3 by done. by apply Hmarks2.
  - apply (advanced_none k k3 R). eapply walked_trans; [exact W12|]. by apply idle_walked.
Qed.

(** *** Restarting the log *)

(** The locks the connection knows of. *)
Definition locks_of (p : Wal) : bool * Z := (writeLock p, ckptLock p).
(** The connection after words of the header of the index were written. *)
Definition rewritten (c c' : conn) : Prop :=
  wi_wf (c_wi c') /\ apWiData (c_wal c') = apWiData (c_wal c) /\ exclusiveMode (c_wal c') = exclusiveMode (c_wal c) /\
  r_held (c_rs c') = r_held (c_rs c) /\ locks_of (c_wal c') = locks_of (c_wal c).
Lemma rewritten_trans c1 c2 c3 : rewritten c1 c2 -> rewritten c2 c3 -> rewritten c1 c3.
Proof. intros (A & B & C & D & E) (A' & B' & C' & D' & E'). split; [done|]. repeat split; congruence. Qed.

Lemma write_word_rewritten off x c c1 :
  rewritten c c1 -> apWiData (c_wal c) !! 0%nat = Some (Shared 0) -> 0 <= off < 34 ->
  wp (write_word off x) (returns (fun _ => rewritten c)) c1.
Proof.
  intros R P Ho. pose proof R as (W1 & P1 & _). unfold write_word, on_index. apply wp_on_rs, wp_on_wi.
  eapply wp_mono; [apply write_word_ok; [exact W1|by etransitivity; [exact (f_equal (.!! 0%nat) P1)|]|done]|].
  intros [[]| |] s; cbn [returns okp]; [|done..]. intros [Q _]. eapply rewritten_trans; [exact R|]. split; [apply Q|].
  assert (E : wal s = c_wal c1) by apply Q. unfold c_wal in *. cbn. by rewrite E.
Qed.
Lemma unmark_loop_ok n i c c1 :
  rewritten c c1 -> apWiData (c_wal c) !! 0%nat = Some (Shared 0) -> 1 <= i -> i + Z.of_nat n <= WAL_NREADER ->
  wp (unmark_loop n i) (returns (fun _ => rewritten c)) c1.
Proof.
  unfold WAL_NREADER. revert i c1. induction n as [|n IH]; intros i c1 R P Hi Hn; cbn [unmark_loop]; [by wp_go|].
  eapply wp_seq; [apply (write_word_rewritten _ _ c); [done|done|unfold aReadMark_at; lia]|]. cbn beta. intros _ c2 R2.
  apply IH; [done|done|lia|lia].
Qed.

Lemma walRestartHdr_ok salt1 c :
  wi_wf (c_wi c) -> apWiData (c_wal c) !! 0%nat = Some (Shared 0) -> salted (hdr (c_wal c)) -> blen salt1 = 4 -> bytes_ok salt1 ->
  wp (walRestartHdr SQLITE_BIGENDIAN salt1) (returns (fun _ => rewritten c)) c.
Proof.
  intros W P [Ls Os] L1 O1. unfold walRestartHdr. wp_step. apply wp_set_conn_wal. unfold after at 1.
  wp_step. apply wp_set_conn_wal. unfold after at 1. do 2 wp_step. unfold after at 1.
  set (c1 := with_wal _ (with_wal _ c)). change (aSalt (hdr (c_wal c1))) with (aSalt (hdr (c_wal c))).
  rewrite Get4byte_in by (done || lia). do 2 wp_step. unfold after at 1.
  destruct (Put4byte_in (aSalt (hdr (c_wal c))) 0 (u32 (1 + at4 (aSalt (hdr (c_wal c))) 0))) as [salt2 E2]; [lia..|].
  rewrite E2. do 2 wp_step. unfold after at 1. pose proof (Put4byte_len _ _ _ _ E2) as L2. pose proof (Put4byte_ok _ _ _ _ Os E2) as O2.
  destruct (blit_in salt2 4 salt1) as [salt3 E3]; [lia..|]. rewrite E3. do 2 wp_step. unfold after at 1.
  pose proof (blit_len _ _ _ _ E3) as L3. pose proof (blit_ok _ _ _ _ O2 O1 E3) as O3.
  wp_step. apply wp_set_conn_wal. unfold after at 1. set (c2 := with_wal _ c1).
  assert (R2 : rewritten c c2) by (split; [exact (wf_set_wal (c_wi c) (c_wal c2) W eq_refl)|done]).
  assert (R3 : wp (on_index (walIndexWriteHdr SQLITE_BIGENDIAN)) (returns (fun _ => rewritten c)) c2).
  { unfold on_index. apply wp_on_rs, wp_on_wi. eapply wp_mono.
    { apply (walIndexWriteHdr_ok SQLITE_BIGENDIAN); [apply R2|exact P|split; [change (blen salt3 = 8); lia|exact O3]]. }
    intros [[]| |] s; cbn [returns okp]; [|done..]. intros [Q _]. eapply rewritten_trans; [exact R2|]. split; [apply Q|].
    assert (E : wal s = set_hdr (sealed SQLITE_BIGENDIAN (hdr (c_wal c2))) (c_wal c2)) by apply Q. unfold c_wal in *. cbn. by rewrite E. }
  eapply wp_seq; [exact R3|]. cbn beta. intros _ c3 Q3.
  do 3 (eapply wp_seq; [apply (write_word_rewritten _ _ c); [eassumption|done|unfold nBackfill_at, nBackfillAttempted_at, aReadMark_at; lia]|];
    cbn beta; intros _ ? ?).
  by apply unmark_loop_ok.
Qed.

(** What of the connection its requests keep. *)
Definition conn_kept (k k' : ckpt) : Prop :=
  mapped_ok k' /\ exclusiveMode (k_wal k') = exclusiveMode (k_wal k) /\ locks_of (k_wal k') = locks_of (k_wal k).
Lemma conn_kept_trans k1 k2 k3 : conn_kept k1 k2 -> conn_kept k2 k3 -> conn_kept k1 k3.
Proof. intros (A & B & C) (A' & B' & C'). split; [done|]. split; congruence. Qed.
Lemma idle_kept k k' : mapped_ok k -> idle k k' -> conn_kept k k'.
Proof. intros Mp I. split; [by apply (idle_mapped k)|]. unfold k_wal, c_wal. by rewrite (proj1 I). Qed.

(** Waiting for the readers of the log, and emptying it, leaves the database
    file alone; the log goes only when all of it is in the database. *)
Definition restarted (eMode : Z) (k : ckpt) (rc : Z) (k' : ckpt) : Prop :=
  held k' = held k /\ conn_kept k k' /\ same_db k k' /\ (idle k k' \/ eMode = SQLITE_CHECKPOINT_TRUNCATE /\ M <= word_at k nBackfill_at /\ granted (WAL_READ_LOCK 1) (WAL_NREADER - 1)) /\
  (rc = SQLITE_OK -> M <= word_at k nBackfill_at /\ (eMode = SQLITE_CHECKPOINT_TRUNCATE -> c_file (k_conn k') = [])).

Lemma truncate_log_ok salt1 k :
  mapped_ok k -> salted (hdr (k_wal k)) -> blen salt1 = 4 /\ bytes_ok salt1 ->
  wp (on_conn (walRestartHdr SQLITE_BIGENDIAN salt1) ;;* on_conn (sqlite3OsTruncate ioRc 0))
    (returns (fun rc k' => conn_kept k k' /\ held k' = held k /\ same_db k k' /\ (rc = SQLITE_OK -> c_file (k_conn k') = []))) k.
Proof.
  intros Mp Hs [L1 O1]. eapply (wp_seq _ _ _ (fun _ k' => rewritten (k_conn k) (k_conn k') /\ same_db k k')).
  { apply wp_on_conn. eapply wp_mono; [by apply (walRestartHdr_ok salt1); try apply Mp|]. by intros [[]| |] c H. }
  cbn beta. intros _ k3 [(W3 & P3 & X3 & H3 & L3) D3]. unfold wp, on_conn, sqlite3OsTruncate. cbn [fst snd returns okp].
  assert (K3 : conn_kept k k3).
  { split; [|by split]. split; [exact W3|]. etransitivity; [exact (f_equal (.!! 0%nat) P3)|apply Mp]. }
  destruct (Z.eqb_spec (ioRc (r_ios (c_rs (k_conn k3)))) SQLITE_OK) as [Hok|Hno]; (split; [split; [split; [exact (mo_wf _ (proj1 K3))|exact (mo_ptr _ (proj1 K3))]|exact (proj2 K3)]|]; split; [exact H3|]; split; [exact D3|]).
  - intros _. cbn. by destruct (r_file _ ++ _).
  - by intros Hok.
Qed.

Lemma ckpt_restart_ok xBusy eMode k :
  mapped_ok k -> exclusiveMode (k_wal k) = 0 -> salted (hdr (k_wal k)) -> mxFrame (hdr (k_wal k)) = M ->
  wp (ckpt_restart SQLITE_BIGENDIAN ioRc lockRc randomness busy busyMax xBusy eMode) (returns (restarted eMode k)) k.
Proof.
  intros Mp Hx Hs Hm. pose proof (conj Mp (conj eq_refl eq_refl) : conn_kept k k) as K.
  unfold ckpt_restart. wp_step. apply k_word_ok; [done|done|]. unfold after at 1.
  do 2 wp_step. unfold after at 1. rewrite Hm. destruct (Z.ltb_spec (word_at k nBackfill_at) M) as [Hlt|Hge].
  { wp_go. cbn [returns okp]. split; [done|]. split; [done|]. split; [done|]. split; [by left|done]. }
  destruct (Z.leb_spec SQLITE_CHECKPOINT_RESTART eMode) as [He|He].
  2:{ wp_go. cbn [returns okp]. split; [done|]. split; [done|]. split; [done|]. split; [by left|]. intros _. split; [done|]. intros ->. by vm_compute in He. }
  wp_step. apply wp_on_conn. unfold wp at 1, sqlite3_randomness. cbn [fst snd]. unfold after at 1.
  set (k1 := set_conn (set_rs (count_io (c_rs (k_conn k))) (k_conn k)) k). set (salt1 := take _ _).
  assert (L1 : blen salt1 = 4 /\ bytes_ok salt1).
  { unfold salt1. split; [|apply Forall_take, Forall_app_2; [apply Hrand|apply Forall_replicate; lia]].
    unfold blen, zeros. rewrite length_take, length_app, length_replicate. lia. }
  eapply wp_seq; [apply (walBusyLock_ok lockRc busy busyMax Hbusy xBusy _ _ k1 Hx)|]. cbn beta. intros rc k2 (I2 & H2 & G2).
  assert (I : idle k k2) by exact I2. pose proof (idle_kept k k2 Mp I) as K2.
  destruct (Z.eqb_spec rc SQLITE_OK) as [->|Hrc].
  2:{ wp_go. cbn [returns okp]. split; [done|]. split; [done|]. split; [apply I|]. split; [by left|done]. }
  eapply (wp_seq _ _ _ (fun rc3 k3 => conn_kept k k3 /\ held k3 = held k2 /\ same_db k k3 /\
    (idle k k3 /\ eMode <> SQLITE_CHECKPOINT_TRUNCATE \/
     eMode = SQLITE_CHECKPOINT_TRUNCATE /\ (rc3 = SQLITE_OK -> c_file (k_conn k3) = [])))).
  { destruct (Z.eqb_spec eMode SQLITE_CHECKPOINT_TRUNCATE) as [E|E].
    - eapply okp_mono; [apply (truncate_log_ok salt1); [apply K2| |done]|].
      { unfold k_wal, c_wal. by rewrite (proj1 I). }
      cbn beta. intros rc3 k3 (K3 & H3 & D3 & E3). split; [by eapply conn_kept_trans|]. split; [done|]. split; [|by right].
      destruct I as (_ & _ & _ & A & B & C), D3 as (A' & B' & C'). repeat split; congruence.
    - wp_go. cbn [returns okp]. split; [done|]. split; [done|]. split; [apply I|by left]. }
  cbn beta. intros rc3 k3 (K3 & H3 & D3 & E3).
  eapply wp_seq; [apply (k_unlock_ok (WAL_READ_LOCK 1) (WAL_NREADER - 1) (held k)); [by rewrite (proj1 (proj2 K3))|by rewrite H3, H2]|].
  cbn beta. intros _ k4 [I4 H4]. wp_go. cbn [returns okp]. split; [done|].
  split; [eapply conn_kept_trans; [exact K3|]; apply idle_kept; [apply K3|done]|].
  split. { destruct D3 as (A & B & C), I4 as (_ & _ & _ & A' & B' & C'). repeat split; congruence. }
  destruct E3 as [[I3 Hne]|[-> Ht]].
  - split; [left; by eapply idle_trans|]. intros _. by split.
  - split; [right; split; [done|]; split; [done|by apply G2]|]. intros Hok. split; [done|]. intros _. rewrite (proj1 (proj2 I4)). by apply Ht.
Qed.

(** *** The whole checkpoint *)

Record checkpointed (eMode : Z) (k : ckpt) (done_ok : bool) (k' : ckpt) : Prop := {
  cp_held : held k' = held k;
  cp_conn : conn_kept k k';
  cp_db : db_guarded k k';
  cp_ex : exists s k1, 0 <= s <= M /\ progress fs b s sync_flags k k1 /\
    (forall i, 1 <= i < WAL_NREADER -> s <= word_at k1 (aReadMark_at i)) /\ same_db k1 k' /\
    (idle k1 k' \/ eMode = SQLITE_CHECKPOINT_TRUNCATE /\ M <= word_at k1 nBackfill_at /\ granted (WAL_READ_LOCK 1) (WAL_NREADER - 1)) /\
    (done_ok -> M <= word_at k1 nBackfill_at /\ (eMode = SQLITE_CHECKPOINT_TRUNCATE -> c_file (k_conn k') = []));
}.
Definition is_done (eMode rc : Z) : bool := (rc =? SQLITE_OK) && negb (eMode =? SQLITE_CHECKPOINT_PASSIVE).

Lemma progress_kept s k k' : ready_ckpt fs b k -> progress fs b s sync_flags k k' -> conn_kept k k'.
Proof.
  intros R P. destruct (ck_index _ _ _ _ _ R) as [rem I]. pose proof (pr_step _ _ _ _ _ _ _ _ P) as S1. split.
  - apply (mapped_step 24 34 k k' _ I); [split; [apply I|apply R]|exact S1].
  - by rewrite (sp_wal _ _ _ _ S1).
Qed.
Lemma advanced_checkpointed eMode k k' : ready_ckpt fs b k -> advanced k k' -> checkpointed eMode k false k'.
Proof.
  intros R (H & D & s & Hs & P & Hm). split; [done|by eapply progress_kept|done|]. exists s, k'. split; [done|]. split; [done|]. split; [done|]. split; [done|].
  split; [by left|done].
Qed.

Lemma walPagesize_ok k : ready_ckpt fs b k -> fs <> [] -> walPagesize (k_wal k) = sz.
Proof.
  intros R Hne. unfold walPagesize. rewrite (ck_size _ _ _ _ _ R Hne). by apply (szPage_roundtrip sz Hsz Hpow).
Qed.

Lemma walCheckpoint_ok eMode xBusy k :
  ready_ckpt fs b k ->
  wp (walCheckpoint SQLITE_BIGENDIAN mallocOk shmRc ioRc lockRc partial randomness busy busyMax isInterrupted mallocFailed hint eMode xBusy sync_flags)
    (okp (checkpointed eMode k false) (fun rc => checkpointed eMode k (is_done eMode rc))) k.
Proof.
  intros R. destruct (ck_index _ _ _ _ _ R) as [rem I]. destruct (ck_backfill _ _ _ _ _ R) as [Eb Hb0].
  assert (Mp : mapped_ok k) by (split; [apply I|apply R]).
  unfold walCheckpoint. do 2 wp_step. unfold after at 1. wp_step. apply k_word_ok; [done|done|]. unfold after at 1.
  rewrite Eb, (ck_mx _ _ _ _ _ R).
  eapply (wp_seq_weak (advanced k) (checkpointed eMode k false) _ _ (fun _ => advanced k)); [|intros k'; by apply advanced_checkpointed|].
  { destruct (Z.ltb_spec b M) as [Hlt|Hge].
    - assert (Hne : fs <> []) by (intros ->; change (flen []) with 0 in *; lia).
      rewrite (walPagesize_ok k R Hne). by apply ckpt_copy_ok.
    - wp_go. cbn [okp]. apply (advanced_none k k R), walked_refl. }
  intros [rc xb] k1 A. destruct ((rc =? SQLITE_OK) && negb (eMode =? SQLITE_CHECKPOINT_PASSIVE)) eqn:Hg.
  2:{ wp_go. cbn [okp]. unfold is_done. rewrite Hg. by apply advanced_checkpointed. }
  destruct A as (H1 & Hd & s & Hs & P & Hm). pose proof (pr_step _ _ _ _ _ _ _ _ P) as S1.
  pose proof (mapped_step _ _ _ _ _ I Mp S1) as Mp1. destruct (wal_same_mode _ _ (sp_wal _ _ _ _ S1)) as [Ex Eh].
  eapply returns_okp; [apply ckpt_restart_ok; rewrite ?Ex, ?Eh; (apply R || done)|].
  cbn beta. intros rc2 k2 (H2 & K2 & D2 & E2 & O2).
  split; [by rewrite H2|eapply conn_kept_trans; [by eapply progress_kept|exact K2]|unfold db_guarded; by rewrite (proj1 D2)|]. exists s, k1. split; [done|]. split; [done|]. split; [done|].
  split; [done|]. split; [done|]. unfold is_done. intros [->%Z.eqb_eq _]%Is_true_true%andb_true_iff. by apply O2.
Qed.

(** *** What readers see *)

Lemma frames_more more lo hi : hi <= M -> frames (fs ++ more) lo hi = frames fs lo hi.
Proof. intros Hh. unfold frames. rewrite take_app_le by (unfold flen in *; lia). done. Qed.
Lemma elem_of_more more lo hi f e : 0 <= lo -> lo < f <= hi -> f <= M -> fs !! Z.to_nat (f - 1) = Some e -> e ∈ frames (fs ++ more) lo hi.
Proof. intros Hlo Hf HfM He. apply frames_elem; [done|]. exists f. split; [done|]. by apply lookup_app_l_Some. Qed.

Lemma seen_kept s k k' more lo hi pg :
  progress fs b s sync_flags k k' -> 0 <= lo <= b -> s <= hi -> s <= M -> 1 <= pg ->
  pg <= hdr_nPage (hdr (k_wal k)) \/ s < M ->
  seen sz (fs ++ more) lo hi (k_db k') pg = seen sz (fs ++ more) lo hi (k_db k) pg.
Proof.
  intros P Hlo Hhi HsM Hp Hn. unfold seen. change (drop (Z.to_nat lo) (take (Z.to_nat hi) (fs ++ more))) with (frames (fs ++ more) lo hi).
  destruct (newest _ pg) as [d|] eqn:En; [done|]. destruct (pr_pages _ _ _ _ _ _ _ _ P pg Hp Hn) as [E|(f & e & Hf & He & Hfp)]; [done|].
  destruct (newest_some (frames (fs ++ more) lo hi) e pg); [|done|done]. apply (elem_of_more more lo hi f e); (done || lia).
Qed.

Lemma seen_advanced s k k' more hi pg :
  progress fs b s sync_flags k k' -> 0 <= b -> 0 <= s <= M -> M <= hi -> 1 <= pg <= hdr_nPage (hdr (k_wal k)) ->
  seen sz (fs ++ more) (word_at k' nBackfill_at) hi (k_db k') pg = seen sz (fs ++ more) b hi (k_db k) pg.
Proof.
  intros P Hb Hs Hhi Hp. destruct (pr_backfill _ _ _ _ _ _ _ _ P) as [->|(Hbs & -> & Hbf)].
  { apply (seen_kept s); try done; try lia; left; lia. }
  unfold seen. change (drop (Z.to_nat s) (take (Z.to_nat hi) (fs ++ more))) with (frames (fs ++ more) s hi).
  change (drop (Z.to_nat b) (take (Z.to_nat hi) (fs ++ more))) with (frames (fs ++ more) b hi).
  rewrite (frames_split _ b s hi) by lia. rewrite newest_app, (frames_more more b s) by lia.
  destruct (newest (frames (fs ++ more) s hi) pg) as [d|] eqn:En; [done|]. apply Hbf; [done|].
  intros (f & e & Hf & He & Hfp). destruct (newest_some (frames (fs ++ more) s hi) e pg); [|done|done].
  apply (elem_of_more more s hi f e); (done || lia).
Qed.
Lemma seen_nothing sz' fs' lo hi db pg : hi <= lo -> seen sz' fs' lo hi db pg = db_page sz' db pg.
Proof. intros H. unfold seen. rewrite drop_ge; [done|]. rewrite length_take. lia. Qed.

Abbreviation walCheckpoint := (walCheckpoint SQLITE_BIGENDIAN mallocOk shmRc ioRc lockRc partial randomness busy busyMax isInterrupted mallocFailed hint).
Abbreviation nPage k := (hdr_nPage (hdr (k_wal k))).

Lemma checkpoint_outcome eMode xBusy k o k' :
  ready_ckpt fs b k -> walCheckpoint eMode xBusy sync_flags k = (o, k') ->
  o <> Undef /\ checkpointed eMode k (match o with Ret rc => is_done eMode rc | _ => false end) k'.
Proof.
  intros R E. pose proof (wp_run _ _ _ _ _ (walCheckpoint_ok eMode xBusy k R) E) as H. by destruct o.
Qed.
(** The log was not restarted. *)
Lemma checkpointed_log eMode k d k' :
  checkpointed eMode k d k' -> eMode <> SQLITE_CHECKPOINT_TRUNCATE ->
  exists s k1, 0 <= s <= M /\ progress fs b s sync_flags k k1 /\ (forall i, 1 <= i < WAL_NREADER -> s <= word_at k1 (aReadMark_at i)) /\ idle k1 k'.
Proof. intros [_ _ _ (s & k1 & Hs & P & Hm & _ & [I|[? _]] & _)] Hne; [|done]. by exists s, k1. Qed.

(** The read lock of slot [i] is taken: every request for an exclusive lock on a
    range of slots with [i] in it is refused. *)
Definition in_use (i : Z) : Prop := forall m a n, a <= WAL_READ_LOCK i < a + n -> lockRc m a n <> SQLITE_OK.
Lemma in_use_granted i a n : in_use i -> granted a n -> ~ a <= WAL_READ_LOCK i < a + n.
Proof. intros U [m Hm] H. by apply (U m a n). Qed.

(** Such a slot keeps its mark, and the log is not restarted. *)
Lemma mark_kept s k k1 i :
  progress fs b s sync_flags k k1 -> in_use i -> 1 <= i < WAL_NREADER ->
  word_at k1 (aReadMark_at i) = word_at k (aReadMark_at i) /\ ~ granted (WAL_READ_LOCK 1) (WAL_NREADER - 1).
Proof.
  intros P U Hi. split; [|intros G; apply (in_use_granted i _ _ U G); unfold WAL_READ_LOCK in *; lia].
  destruct (pr_marks _ _ _ _ _ _ _ _ P i Hi) as [E|[G _]]; [done|]. destruct (in_use_granted i _ _ U G). lia.
Qed.

(** C8: a checkpoint, in any mode, however it ends and whatever request or lock
    failed, disturbs no reader.  It has no undefined behaviour, gives back the
    locks it took, and writes the database only while it holds the first read
    lock and (if asked to sync) after the log was synced.  There is a frame [s]
    such that whoever reads the database and the frames from any that was in the
    database to [s] or a later one sees every page as before; and [s] is not
    above the mark, when the call began, of any slot another connection holds.
    Such a mark is not changed, and while there is one the log is not touched,
    not even by a call that is to empty it; while another connection holds the
    first slot, for readers of the database alone, the database is not written.
    Any other mark changes only with the lock of its slot, and only to one past
    the log, unless the log is to be emptied; only then is the log touched. *)
Theorem walCheckpoint_keeps_snapshots eMode xBusy k o k' :
  ready_ckpt fs b k -> walCheckpoint eMode xBusy sync_flags k = (o, k') ->
  o <> Undef /\ held k' = held k /\
  (exists l, k_writes k' = l ++ k_writes k /\ Forall (guarded sync_flags (c_file (k_conn k))) l) /\
  (in_use 0 -> k_db k' = k_db k) /\
  (eMode <> SQLITE_CHECKPOINT_TRUNCATE -> c_file (k_conn k') = c_file (k_conn k)) /\
  exists s, 0 <= s <= M /\
    (forall i, 1 <= i < WAL_NREADER -> in_use i ->
       s <= word_at k (aReadMark_at i) /\ word_at k' (aReadMark_at i) = word_at k (aReadMark_at i) /\
       c_file (k_conn k') = c_file (k_conn k)) /\
    (eMode <> SQLITE_CHECKPOINT_TRUNCATE -> marks_moved M k k' /\ forall i, 1 <= i < WAL_NREADER -> s <= word_at k' (aReadMark_at i)) /\
    forall more lo hi pg, 0 <= lo <= b -> s <= hi -> 1 <= pg -> pg <= nPage k \/ s < M ->
      seen sz (fs ++ more) lo hi (k_db k') pg = seen sz (fs ++ more) lo hi (k_db k) pg.
Proof.
  intros R E. destruct (checkpoint_outcome eMode xBusy k o k' R E) as [Ho C]. split; [done|]. split; [apply C|].
  destruct C as [_ _ Hg (s & k1 & Hs & P & Hm & (D1 & _ & D3) & Hi & _)].
  pose proof (sp_file _ _ _ _ (pr_step _ _ _ _ _ _ _ _ P)) as Fi.
  split; [rewrite D3; apply P|]. split.
  { intros U. destruct Hg as [|G]; [done|]. destruct (in_use_granted 0 _ _ U G). lia. }
  split. { intros Hne. destruct Hi as [I|[? _]]; [|done]. by rewrite (proj1 (proj2 I)). }
  exists s. split; [done|]. split; [|split].
  - intros i Hr U. destruct (mark_kept s k k1 i P U Hr) as [Em Ei]. rewrite <- Em at 1. split; [by apply Hm|].
    assert (idle k1 k') as I by (destruct Hi as [|(_ & _ & G)]; [done|by destruct Ei]).
    by rewrite (idle_word _ _ _ I), (proj1 (proj2 I)).
  - intros Hne. destruct Hi as [I|[? _]]; [|done]. split; intros i H; rewrite (idle_word _ _ _ I); [by apply P|by apply Hm].
  - intros more lo hi pg H1 H2 H3 H4. rewrite D1. apply (seen_kept s); (done || lia).
Qed.

(** C9: what a checkpoint reports is true: the count of frames in the database
    never shrinks, and a reader that starts behind it sees what it would have
    seen behind the old one; a checkpoint other than a passive one that succeeds,
    and one that empties the log, leaves all contents of the log in the database
    file; and the log is empty after it succeeded in truncating it. *)
Theorem walCheckpoint_completes eMode xBusy k o k' :
  ready_ckpt fs b k -> walCheckpoint eMode xBusy sync_flags k = (o, k') ->
  let complete := forall pg, 1 <= pg <= nPage k -> db_page sz (k_db k') pg = seen sz fs b M (k_db k) pg in
  (o = Ret SQLITE_OK -> eMode <> SQLITE_CHECKPOINT_PASSIVE ->
     complete /\ (eMode = SQLITE_CHECKPOINT_TRUNCATE -> c_file (k_conn k') = [])) /\
  (c_file (k_conn k') <> c_file (k_conn k) -> complete) /\
  (eMode <> SQLITE_CHECKPOINT_TRUNCATE ->
     let b' := word_at k' nBackfill_at in
     b <= b' /\ forall more hi pg, M <= hi -> 1 <= pg <= nPage k ->
       seen sz (fs ++ more) b' hi (k_db k') pg = seen sz (fs ++ more) b hi (k_db k) pg).
Proof.
  intros R E. destruct (checkpoint_outcome eMode xBusy k o k' R E) as [Ho C]. cbv zeta. destruct (ck_backfill _ _ _ _ _ R) as [_ Hb0].
  destruct (cp_ex _ _ _ _ C) as (s & k1 & Hs & P & _ & (D1 & _ & _) & Hi & Hok).
  assert (Hc : M <= word_at k1 nBackfill_at -> forall pg, 1 <= pg <= nPage k -> db_page sz (k_db k') pg = seen sz fs b M (k_db k) pg).
  { intros Hw pg Hp. rewrite D1. pose proof (seen_advanced s k k1 [] M pg P Hb0 Hs ltac:(lia) Hp) as H.
    rewrite app_nil_r, seen_nothing in H by done. exact H. }
  split; [|split].
  - intros -> Hne. assert (Hd : is_done eMode SQLITE_OK) by (unfold is_done; by destruct (Z.eqb_spec eMode SQLITE_CHECKPOINT_PASSIVE)).
    destruct (Hok Hd) as [Hw Ht]. split; [by apply Hc|done].
  - intros Hne. apply Hc. destruct Hi as [I|(_ & Hw & _)]; [|done]. destruct Hne. rewrite (proj1 (proj2 I)).
    apply (sp_file _ _ _ _ (pr_step _ _ _ _ _ _ _ _ P)).
  - intros Hne. destruct Hi as [I|[? _]]; [|done]. rewrite (idle_word _ _ _ I). split.
    + destruct (pr_backfill _ _ _ _ _ _ _ _ P) as [->|(H1 & -> & _)]; lia.
    + intros more hi pg Hhi Hp. rewrite D1. apply (seen_advanced s); (done || lia).
Qed.

(** *** From a commit to a checkpoint *)

Lemma public_mxFrame h k : public SQLITE_BIGENDIAN h (c_wi (k_conn k)) -> salted h -> word_at k 4 = mxFrame h.
Proof.
  intros (ws & g & E & Hg & H) [Ls Os]. unfold word_at. rewrite Hg. change (bat (words g) 4 = mxFrame h). destruct (H 4 ltac:(lia)) as [-> _].
  unfold hdr_words in E. destruct (load32 SQLITE_BIGENDIAN (aSalt h) 0); [|done]. destruct (load32 SQLITE_BIGENDIAN (aSalt h) 4); [|done].
  by injection E as <-.
Qed.
(** A connection that committed can checkpoint. *)
Lemma writer_ready_ckpt h k :
  writer SQLITE_BIGENDIAN sz M fs h (k_conn k) -> hdr (k_wal k) = h -> exclusiveMode (k_wal k) = 0 ->
  Forall (fun e => 0 < fe_page e < NO_PAGE) fs -> word_at k nBackfill_at = b -> 0 <= b ->
  (forall i, 1 <= i < WAL_NREADER -> 0 <= word_at k (aReadMark_at i)) -> ready_ckpt fs b k.
Proof.
  intros W Eh Hx Hp Hb Hb0 Hm. split; try done; try apply W.
  - intros Hne. eexists. apply (wr_file _ _ _ _ _ _ W Hne).
  - intros _. rewrite (public_mxFrame h k); [|apply W|apply W]. rewrite (proj1 (wr_m0 _ _ _ _ _ _ W)). done.
Qed.
End Phases.
End Work.


(** ** Examples *)

(** The log of [demo_c1] and an empty database file. *)
Definition demo_k : ckpt := mkCkpt demo_c1 [] [] 0 [].
Definition demo_ckpt (ioRc : nat -> Z) (eMode : Z) : out Z * ckpt :=
  walCheckpoint false all_mem all_ok ioRc all_free (fun _ => 100) demo_bytes (fun _ => 0) 0 (fun _ => false) false (fun _ => 0)
    eMode false 0x22 demo_k.

Lemma demo_facts : exclusiveMode (k_wal demo_k) = 0 /\ word_at demo_k nBackfill_at = 0 /\ hdr_nPage (hdr (k_wal demo_k)) = 2.
Proof. by vm_compute. Qed.
Lemma demo_marks i : 1 <= i < WAL_NREADER -> word_at demo_k (aReadMark_at i) = 0.
Proof.
  unfold WAL_NREADER. intros Hi. assert (Hc : i = 1 \/ i = 2 \/ i = 3 \/ i = 4) by lia.
  destruct Hc as [->|[->|[->| ->]]]; by vm_compute.
Qed.
Lemma demo_entries i : 1 <= i <= 2 -> fe_page (entry 512 (c_file (k_conn demo_k)) i) = i.
Proof. intros Hi. assert (Hc : i = 1 \/ i = 2) by lia. destruct Hc as [->| ->]; by vm_compute. Qed.

Lemma demo_committed : exists fs, writer false 512 (flen fs) fs (hdr (c_wal demo_c1)) demo_c1 /\ ready_ckpt false 512 fs 0 demo_k /\
  flen fs = 2 /\ forall pg, newest fs pg = newest_after (map page_of demo_pages) None pg.
Proof.
  destruct (commit_next false all_mem all_ok all_ok all_free (fun _ => 100) 512 demo_bytes 512 demo_size eq_refl demo_rand 0 []
    zero_hdr 2 0x22 demo_empty demo_c1 [] (demo_request true) demo_run1) as (fs & (_ & _ & Hk & _ & W & _) & Hf & _ & _).
  rewrite demo_mx1 in Hf. destruct demo_facts as (F1 & F2 & _).
  exists fs. split; [exact W|]. split; [|split; [done|exact (fun pg => Hk 0%nat pg (Nat.le_0_l _))]].
  assert (Hfile : exists good, file_ok 512 (c_file (k_conn demo_k)) fs good).
  { eexists. apply (wr_file _ _ _ _ _ _ W). intros ->. change (flen []) with 0 in Hf. lia. }
  destruct Hfile as [good HF].
  assert (Hp : Forall (fun e => 0 < fe_page e < NO_PAGE) fs).
  { apply Forall_lookup. intros i e Hi. pose proof (lookup_lt_Some _ _ _ Hi) as Hl.
    assert (Hlt : (i < 2)%nat) by (unfold flen in Hf; lia).
    pose proof (fk_entry _ _ _ _ HF (Z.of_nat i + 1) ltac:(lia)) as E. replace (Z.to_nat (Z.of_nat i + 1 - 1)) with i in E by lia.
    assert (E' : Some e = Some (entry 512 (c_file (k_conn demo_k)) (Z.of_nat i + 1))) by (etransitivity; [symmetry; exact Hi|exact E]).
    apply Some_inj in E'. rewrite E', demo_entries by lia. unfold NO_PAGE. lia. }
  revert W F1 F2 Hp. pose proof demo_marks as Hm. revert Hm. unfold demo_k. generalize demo_c1 as c. intros c Hm W F1 F2 Hp.
  apply (writer_ready_ckpt false 512 fs 0 (hdr (c_wal c)) (mkCkpt c [] [] 0 []) W eq_refl F1 Hp F2 ltac:(lia)).
  intros i Hi. rewrite Hm by exact Hi. lia.
Qed.

Lemma demo_ready : exists fs, ready_ckpt false 512 fs 0 demo_k /\ flen fs = 2 /\ forall pg, newest fs pg = newest_after (map page_of demo_pages) None pg.
Proof. destruct demo_committed as (fs & _ & H). by exists fs. Qed.
Lemma demo_both ioRc eMode :
  walCheckpoint false all_mem all_ok ioRc all_free (fun _ => 100) demo_bytes (fun _ => 0) 0 (fun _ => false) false (fun _ => 0)
    eMode false 0x22 demo_k = (fst (demo_ckpt ioRc eMode), snd (demo_ckpt ioRc eMode)).
Proof. unfold demo_ckpt. apply surjective_pairing. Qed.
Lemma demo_zero n : (0 <= n)%nat -> (fun _ : nat => 0) n = 0.
Proof. done. Qed.

(** Another connection has the slot [i], and [demo_k] wants to empty the log. *)
Definition reader_in (i : Z) (_ : nat) (a n : Z) : Z :=
  if (a <=? WAL_READ_LOCK i) && (WAL_READ_LOCK i <? a + n) then SQLITE_BUSY else SQLITE_OK.
Lemma reader_in_use i : in_use (reader_in i) i.
Proof.
  intros m a n [H1 H2]. unfold reader_in. by rewrite (proj2 (Z.leb_le _ _) H1), (proj2 (Z.ltb_lt _ _) H2).
Qed.
Definition demo_shared (i : Z) : out Z * ckpt :=
  walCheckpoint false all_mem all_ok all_ok (reader_in i) (fun _ => 100) demo_bytes (fun _ => 0) 0 (fun _ => false) false (fun _ => 0)
    3 false 0x22 demo_k.
Lemma demo_shared_eq i :
  walCheckpoint false all_mem all_ok all_ok (reader_in i) (fun _ => 100) demo_bytes (fun _ => 0) 0 (fun _ => false) false (fun _ => 0)
    3 false 0x22 demo_k = (fst (demo_shared i), snd (demo_shared i)).
Proof. unfold demo_shared. apply surjective_pairing. Qed.

(** A write to the database fails in the middle of a page; and a reader is in
    slot 1, or in slot 0. *)
Lemma walCheckpoint_keeps_snapshots_witness :
  fst (demo_ckpt (demo_fail 21) 2) = Ret 10 /\ length (k_db (snd (demo_ckpt (demo_fail 21) 2))) = 612%nat /\
  (exists fs, newest fs 2 = Some (replicate 512 9) /\
    seen 512 (fs ++ []) 0 2 (k_db (snd (demo_ckpt (demo_fail 21) 2))) 2 = seen 512 (fs ++ []) 0 2 [] 2) /\
  fst (demo_shared 1) = Ret SQLITE_BUSY /\ c_file (k_conn (snd (demo_shared 1))) = c_file (k_conn demo_k) /\
  fst (demo_shared 0) = Ret SQLITE_BUSY /\ k_db (snd (demo_shared 0)) = k_db demo_k.
Proof.
  assert (E : fst (demo_ckpt (demo_fail 21) 2) = Ret 10 /\ length (k_db (snd (demo_ckpt (demo_fail 21) 2))) = 612%nat) by (by vm_compute).
  assert (F : fst (demo_shared 1) = Ret SQLITE_BUSY /\ fst (demo_shared 0) = Ret SQLITE_BUSY) by (by vm_compute).
  destruct E as [E1 E2], F as [F1 F2]. destruct demo_ready as (fs & R & Hf & Hk). split; [exact E1|]. split; [exact E2|]. split; [|split; [exact F1|split; [|split; [exact F2|]]]].
  - exists fs. split; [rewrite Hk; by vm_compute|].
    destruct (walCheckpoint_keeps_snapshots false all_mem all_ok (demo_fail 21) all_free (fun _ => 100) demo_bytes (fun _ => 0) 0 (fun _ => false) false
      (fun _ => 0) demo_zero 512 demo_size eq_refl fs 0 0x22 demo_rand 2 false demo_k _ _ R (demo_both (demo_fail 21) 2)) as (_ & _ & _ & _ & _ & s & Hs & _ & _ & H).
    apply (H [] 0 2 2); [lia|lia|lia|]. left. destruct demo_facts as (_ & _ & Hn). lia.
  - destruct (walCheckpoint_keeps_snapshots false all_mem all_ok all_ok (reader_in 1) (fun _ => 100) demo_bytes (fun _ => 0) 0 (fun _ => false) false
      (fun _ => 0) demo_zero 512 demo_size eq_refl fs 0 0x22 demo_rand 3 false demo_k _ _ R (demo_shared_eq 1)) as (_ & _ & _ & _ & _ & s & _ & H & _).
    destruct (H 1 ltac:(unfold WAL_NREADER; lia) (reader_in_use 1)) as (_ & _ & Hc). exact Hc.
  - destruct (walCheckpoint_keeps_snapshots false all_mem all_ok all_ok (reader_in 0) (fun _ => 100) demo_bytes (fun _ => 0) 0 (fun _ => false) false
      (fun _ => 0) demo_zero 512 demo_size eq_refl fs 0 0x22 demo_rand 3 false demo_k _ _ R (demo_shared_eq 0)) as (_ & _ & _ & H & _).
    exact (H (reader_in_use 0)).
Defined.

Lemma walCheckpoint_completes_witness :
  fst (demo_ckpt all_ok 3) = Ret 0 /\ c_file (k_conn (snd (demo_ckpt all_ok 3))) = [] /\
  db_page 512 (k_db (snd (demo_ckpt all_ok 3))) 2 = replicate 512 9.
Proof.
  assert (E : fst (demo_ckpt all_ok 3) = Ret 0) by (by vm_compute). split; [exact E|].
  destruct demo_ready as (fs & R & Hf & Hk).
  destruct (walCheckpoint_completes false all_mem all_ok all_ok all_free (fun _ => 100) demo_bytes (fun _ => 0) 0 (fun _ => false) false
    (fun _ => 0) demo_zero 512 demo_size eq_refl fs 0 0x22 demo_rand 3 false demo_k _ _ R (demo_both all_ok 3)) as (H & _).
  destruct (H E ltac:(discriminate)) as [Hc Ht]. split; [by apply Ht|]. rewrite Hc.
  - unfold seen. change (Z.to_nat 0) with 0%nat. rewrite drop_0, take_ge by (unfold flen; lia). rewrite Hk. by vm_compute.
  - destruct demo_facts as (_ & _ & Hn). lia.
Defined.
