(* ===== verification/WalCkptApi.v ===== *)
(** * The interface of the checkpoint ([sqlite3WalCheckpoint])

    The locks around [walCheckpoint], the reading of the header of the wal-index
    before it, and the result codes. *)
From S2P Require Import Prelude Bits Bytes Varint Wal WalIndex WalProps WalIter WalRecover WalRecovery WalHdr WalWrite WalFile WalTx WalLoops WalSeal WalFinish WalStart WalCommit WalTrans WalCkpt WalSteps WalBackfill WalCheckpoint.

(** ** Errors are not [SQLITE_OK] *)

Definition fails_well {S A} (m : M S A) : Prop := forall s, fst (m s) <> Fail SQLITE_OK.

Lemma fw_ret {S A} (a : A) : fails_well (ret (S := S) a).
Proof. done. Qed.
Lemma fw_undef {S A} : fails_well (undef (S := S) (A := A)).
Proof. done. Qed.
Lemma fw_gets {S A} (f : S -> A) : fails_well (gets f).
Proof. done. Qed.
Lemma fw_modify {S} (f : S -> S) : fails_well (modify f).
Proof. done. Qed.
Lemma fw_lift {S A} (o : option A) : fails_well (lift (S := S) o).
Proof. by destruct o. Qed.
Lemma fw_fail {S A} rc : rc <> SQLITE_OK -> fails_well (fail (S := S) (A := A) rc).
Proof. by intros H s [= E]. Qed.
Lemma fw_bind {S A B} (m : M S A) (f : A -> M S B) : fails_well m -> (forall a, fails_well (f a)) -> fails_well (bind m f).
Proof. intros H1 H2 s. unfold bind. specialize (H1 s). revert H1. destruct (m s) as [[a|e|] s']; cbn; [intros _; apply H2|intros H [= ->]; by apply H|done]. Qed.
Lemma fw_on_conn {A} (m : M conn A) : fails_well m -> fails_well (on_conn m).
Proof. intros H k. unfold on_conn. specialize (H (k_conn k)). revert H. by destruct (m (k_conn k)). Qed.
Lemma fw_on_rs {A} (m : M rs A) : fails_well m -> fails_well (on_rs m).
Proof. intros H k. unfold on_rs. specialize (H (c_rs k)). revert H. by destruct (m (c_rs k)). Qed.
Lemma fw_on_wi {A} (m : M wi A) : fails_well m -> fails_well (on_wi m).
Proof. intros H k. unfold on_wi. specialize (H (r_wi k)). revert H. by destruct (m (r_wi k)). Qed.
(** Requests give their code as a value. *)
Lemma fw_request {S A} (f : S -> A) (g : S -> S) : fails_well (fun s => (Ret (f s), g s)).
Proof. done. Qed.

Create HintDb fails.
#[export] Hint Resolve fw_ret fw_undef fw_gets fw_modify fw_lift fw_fail fw_on_conn fw_on_rs fw_on_wi fw_request : fails.
(** Goes through a body: sequences, branches, and the operations that are known. *)
Ltac fails :=
  repeat match goal with
  | |- fails_well (bind _ _) => apply fw_bind; [|intros]
  | |- fails_well (if ?b then _ else _) => destruct b eqn:?
  | |- fails_well (match ?x with _ => _ end) => destruct x
  | |- fails_well (let '(_, _) := ?x in _) => destruct x
  end; eauto 6 with fails.

Section Code.
Context (SQLITE_BIGENDIAN : bool) (mallocOk : nat -> bool) (shmRc ioRc : nat -> Z) (lockRc : nat -> Z -> Z -> Z)
  (partial : nat -> Z) (randomness : nat -> bytes)
  (busy : nat -> Z) (busyMax : nat) (isInterrupted : nat -> bool) (mallocFailed : bool) (hint : nat -> Z).

Lemma fw_lock a n : fails_well (walLockExclusive lockRc a n).
Proof. unfold walLockExclusive, get_wal. fails. Qed.
Lemma fw_unlock a n : fails_well (walUnlockExclusive a n).
Proof. unfold walUnlockExclusive, get_wal. fails. Qed.
Lemma fw_read off n : fails_well (read_words off n).
Proof. unfold read_words. fails. Qed.
Lemma fw_write off ws : fails_well (write_words off ws).
Proof. unfold write_words. fails. Qed.
Lemma fw_word off : fails_well (read_word off).
Proof. unfold read_word, on_index. pose proof (fw_read off 1). fails. Qed.
Lemma fw_set_word off x : fails_well (write_word off x).
Proof. unfold write_word, on_index. pose proof (fw_write off [x]). fails. Qed.
Hint Resolve fw_lock fw_unlock fw_word fw_set_word fw_read fw_write : fails.
Lemma fw_busy_lock xBusy a n : fails_well (walBusyLock lockRc busy busyMax xBusy a n).
Proof. unfold walBusyLock. generalize (S busyMax) as fuel. induction fuel as [|fuel IH]; cbn [busy_loop]; fails. Qed.
Hint Resolve fw_busy_lock : fails.
Lemma fw_readers n i rc s xBusy : fails_well (readers_loop lockRc busy busyMax n i rc s xBusy).
Proof.
  revert i rc s xBusy. induction n as [|n IH]; intros; cbn [readers_loop]; unfold k_word, set_word, k_unlock; fails.
  apply fw_fail. by apply Z.eqb_neq.
Qed.
Lemma fw_copy_loop fuel p sz b s mx : fails_well (copy_loop ioRc partial isInterrupted mallocFailed fuel p sz b s mx).
Proof.
  revert p. induction fuel as [|fuel IH]; intros; cbn [copy_loop]; unfold sqlite3OsRead, db_write_request; fails.
Qed.
Lemma fw_sync flags : fails_well (sqlite3OsSync ioRc flags).
Proof. unfold sqlite3OsSync. fails. Qed.
Lemma fw_db_sync flags : fails_well (db_sync ioRc flags).
Proof. unfold db_sync. fails. Qed.
Hint Resolve fw_copy_loop fw_sync fw_db_sync : fails.
Lemma fw_backfill p s mx sz flags :
  fails_well (backfill SQLITE_BIGENDIAN ioRc partial isInterrupted mallocFailed hint p s mx sz flags).
Proof.
  unfold backfill, k_word, set_word, same_salt, on_index, announce_size, db_size, db_size_hint, db_truncate. fails.
Qed.
Hint Resolve fw_backfill fw_readers : fails.
Lemma fw_ckpt_copy xBusy sz flags :
  fails_well (ckpt_copy SQLITE_BIGENDIAN mallocOk shmRc ioRc lockRc partial busy busyMax isInterrupted mallocFailed hint xBusy sz flags).
Proof.
  unfold ckpt_copy, k_word, k_unlock. fails.
  intros k. destruct (on_conn _ k) as [[p|e|] k']; done.
Qed.
Lemma fw_set_wal f : fails_well (set_conn_wal f).
Proof. unfold set_conn_wal, mod_wal. fails. Qed.
Lemma fw_write_hdr : fails_well (walIndexWriteHdr SQLITE_BIGENDIAN).
Proof. unfold walIndexWriteHdr. fails. Qed.
Lemma fw_unmark n i : fails_well (unmark_loop n i).
Proof. revert i. induction n as [|n IH]; intros; cbn [unmark_loop]; fails. Qed.
Hint Resolve fw_set_wal fw_write_hdr fw_unmark : fails.
Lemma fw_restart_hdr salt1 : fails_well (walRestartHdr SQLITE_BIGENDIAN salt1).
Proof. unfold walRestartHdr, on_index. fails. Qed.
Hint Resolve fw_restart_hdr fw_ckpt_copy : fails.
Lemma fw_restart xBusy eMode : fails_well (ckpt_restart SQLITE_BIGENDIAN ioRc lockRc randomness busy busyMax xBusy eMode).
Proof.
  unfold ckpt_restart, k_word, k_unlock. fails; apply fw_on_conn; unfold sqlite3_randomness, sqlite3OsTruncate; apply fw_request.
Qed.
Lemma walCheckpoint_fails_well eMode xBusy flags :
  fails_well (walCheckpoint SQLITE_BIGENDIAN mallocOk shmRc ioRc lockRc partial randomness busy busyMax isInterrupted mallocFailed hint eMode xBusy flags).
Proof. pose proof fw_restart. unfold walCheckpoint, k_word. fails. Qed.
End Code.

(** ** Changes of the connection alone *)

Definition relabelled (k k' : ckpt) : Prop :=
  (exists p, c_wi (k_conn k') = set_wal p (c_wi (k_conn k)) /\ apWiData p = apWiData (k_wal k) /\ exclusiveMode p = exclusiveMode (k_wal k)) /\
  c_file (k_conn k') = c_file (k_conn k) /\ synced (k_conn k') = synced (k_conn k) /\ same_db k k'.
Lemma relabelled_refl k : relabelled k k.
Proof. split; [|done]. exists (k_wal k). unfold k_wal, c_wal. by destruct (c_wi (k_conn k)). Qed.
Lemma relabelled_trans k1 k2 k3 : relabelled k1 k2 -> relabelled k2 k3 -> relabelled k1 k3.
Proof.
  intros ((p & A & A1 & A2) & B & C & D & E & F) ((p' & A' & A1' & A2') & B' & C' & D' & E' & F').
  split; [|repeat split; congruence]. exists p'. unfold k_wal, c_wal in *. rewrite A in A', A1', A2'.
  split; [done|]. split; [by etransitivity; [exact A1'|]|by etransitivity; [exact A2'|]].
Qed.
Lemma relabelled_sym k k' : relabelled k k' -> relabelled k' k.
Proof.
  intros ((p & A & A1 & A2) & B & C & D & E & F). split; [|done]. exists (k_wal k). unfold k_wal, c_wal in *. rewrite A.
  by destruct (c_wi (k_conn k)).
Qed.
Lemma idle_relabelled k k' : idle k k' -> relabelled k k'.
Proof.
  intros (A & B & C & D). split; [|done]. exists (k_wal k). rewrite A. unfold k_wal, c_wal. by destruct (c_wi (k_conn k)).
Qed.
Lemma set_wal_relabelled (f : Wal -> Wal) k k' :
  (forall p, apWiData (f p) = apWiData p /\ exclusiveMode (f p) = exclusiveMode p) ->
  k' = set_conn (with_wal (f (k_wal k)) (k_conn k)) k -> relabelled k k'.
Proof. intros Hf ->. split; [|done]. exists (f (k_wal k)). split; [done|]. apply Hf. Qed.

Lemma relabelled_view k k' h : relabelled k k' -> view (c_wi (k_conn k')) h = view (c_wi (k_conn k)) h.
Proof. intros ((p & -> & A1 & A2) & _). by apply view_set_wal. Qed.
Lemma relabelled_word k k' i : relabelled k k' -> word_at k' i = word_at k i.
Proof. intros R. unfold word_at. by rewrite (relabelled_view k k'). Qed.
Lemma relabelled_mapped k k' : relabelled k k' -> mapped_ok k -> mapped_ok k'.
Proof.
  intros ((p & A & A1 & A2) & _) [W P]. unfold k_wal, c_wal in *. split; unfold k_wal, c_wal; rewrite A; [by apply wf_set_wal|].
  change (apWiData p !! 0%nat = Some (Shared 0)). by rewrite A1.
Qed.

(** ** The interface *)

Section Interface.
Context (SQLITE_BIGENDIAN : bool) (mallocOk : nat -> bool) (shmRc ioRc : nat -> Z) (lockRc : nat -> Z -> Z -> Z)
  (partial : nat -> Z) (randomness : nat -> bytes) (junk : wipage)
  (busy : nat -> Z) (busyMax : nat) (isInterrupted : nat -> bool) (mallocFailed : bool) (hint : nat -> Z).
Hypothesis (Hbusy : forall n, (busyMax <= n)%nat -> busy n = 0).
Hypothesis (Hrand : forall n, bytes_ok (randomness n)).
Context (sz : Z).
Hypothesis (Hsz : 512 <= sz <= SQLITE_MAX_PAGE_SIZE) (Hpow : Z.land sz (sz - 1) = 0).
Abbreviation ready_ckpt := (ready_ckpt SQLITE_BIGENDIAN sz).
Context (fs : list fent) (b sync_flags : Z).
Abbreviation M := (flen fs).

Lemma ready_relabelled k k' : ready_ckpt fs b k -> relabelled k k' -> hdr (k_wal k') = hdr (k_wal k) -> ready_ckpt fs b k'.
Proof.
  intros R L Eh. pose proof (ck_live _ _ _ _ _ R) as Hlive. destruct (ck_index _ _ _ _ _ R) as [rem I].
  pose proof (fun i => relabelled_word k k' i L) as Hw. destruct L as ((p & A & A1 & A2) & B & _ & _). destruct R.
  split; rewrite ?Eh, ?B, ?Hw; try done.
  - exists rem. rewrite A. by apply index_set_wal.
  - unfold k_wal, c_wal in *. rewrite A. change (apWiData p !! 0%nat = Some (Shared 0)). by rewrite A1.
  - unfold k_wal, c_wal in *. rewrite A. change (exclusiveMode p = 0). by rewrite A2.
  - intros i Hi. rewrite Hw. by apply ck_marks.
  - unfold live_salt in *. rewrite Eh, !Hw. exact Hlive.
Qed.

(** *** Reading the header *)

Definition with_header (h : WalIndexHdr) (k : ckpt) : ckpt := set_conn (with_wal (with_hdr h (k_wal k)) (k_conn k)) k.
Lemma with_header_relabelled h k : relabelled k (with_header h k).
Proof. by apply (set_wal_relabelled (with_hdr h)). Qed.

Lemma walIndexPage_mapped s : apWiData (wal s) !! 0%nat = Some (Shared 0) -> walIndexPage mallocOk shmRc 0 s = (Ret (SQLITE_OK, Shared 0), s).
Proof. intros E. unfold walIndexPage. rewrite bind_gets, E. done. Qed.

(** The published header is read, whatever header the connection has. *)
Lemma walIndexReadHdr_ok h k :
  mapped_ok k -> hdr_ok h -> public SQLITE_BIGENDIAN (sealed SQLITE_BIGENDIAN h) (c_wi (k_conn k)) -> hdr_ok (hdr (k_wal k)) ->
  bShmUnreliable (k_wal k) = false ->
  wp (on_conn (walIndexReadHdr SQLITE_BIGENDIAN mallocOk shmRc ioRc lockRc junk)) (returns (fun '(rc, _) k' =>
    rc = SQLITE_OK /\ relabelled k k' /\ hdr (k_wal k') = sealed SQLITE_BIGENDIAN h /\ held k' = held k /\ locks_of (k_wal k') = locks_of (k_wal k))) k.
Proof.
  intros Mp Ho (ws & g & E & Hg & H) Hs Hb. destruct Mp as [W P]. destruct (view_sized _ _ _ W Hg) as [Hl _].
  apply wp_on_conn. unfold walIndexReadHdr, on_index. do 2 wp_step. unfold after at 1.
  change (c_wal (k_conn k)) with (k_wal k). rewrite Hb. wp_step. apply wp_on_rs, wp_on_wi.
  unfold wp at 1. change (r_wi (c_rs (k_conn k))) with (c_wi (k_conn k)). rewrite (walIndexPage_mapped _ P). cbn [fst snd]. unfold after at 1.
  change (SQLITE_OK =? SQLITE_OK) with true. cbn [negb]. wp_step. apply wp_on_rs, wp_on_wi. unfold wp at 1.
  change (r_wi (c_rs _)) with (c_wi (k_conn k)). rewrite (walIndexTryHdr_copies SQLITE_BIGENDIAN h ws g) by done.
  unfold accepted. destruct (decide (hdr (wal (c_wi (k_conn k))) = sealed SQLITE_BIGENDIAN h)) as [Eh|Eh]; cbn [fst snd]; unfold after at 1; cbn [Z.eqb negb].
  - do 4 wp_step. unfold after at 1. wp_go. cbn [returns okp]. 
    assert (R : idle k (set_conn (set_rs (set_wi (c_wi (k_conn k)) (c_rs (set_rs (set_wi (c_wi (k_conn k)) (c_rs (k_conn k))) (k_conn k))))
       (set_rs (set_wi (c_wi (k_conn k)) (c_rs (k_conn k))) (k_conn k))) k)) by done.
    split; [|split; [by apply idle_relabelled|split; [exact Eh|done]]].
    change (c_wal _) with (wal (c_wi (k_conn k))). rewrite Eh. done.
  - do 4 wp_step. unfold after at 1. wp_go. cbn [returns okp]. split; [done|]. split; [|done].
    apply (with_header_relabelled (sealed SQLITE_BIGENDIAN h)).
Qed.

(** *** Locks *)

Lemma k_set_wal_ok f k :
  (forall p, apWiData (f p) = apWiData p /\ exclusiveMode (f p) = exclusiveMode p) ->
  wp (k_set_wal f) (returns (fun _ k' => relabelled k k' /\ held k' = held k /\ k_wal k' = f (k_wal k))) k.
Proof.
  intros Hf. unfold wp. cbn [returns okp]. split; [by apply (set_wal_relabelled f)|done].
Qed.

(** The locks [l] of a connection that believes it has [w] and [c]. *)
Definition lock_list (wc : bool * Z) : list (Z * Z) :=
  (if fst wc then [(WAL_WRITE_LOCK, 1)] else []) ++ (if snd wc =? 0 then [] else [(WAL_CKPT_LOCK, 1)]).
Definition locked_from (k k' : ckpt) : Prop :=
  relabelled k k' /\ (hdr (k_wal k') = hdr (k_wal k) /\ bShmUnreliable (k_wal k') = bShmUnreliable (k_wal k)) /\ held k' = lock_list (locks_of (k_wal k')) ++ held k.

Lemma ckpt_locks_ok eMode xBusy k :
  exclusiveMode (k_wal k) = 0 -> locks_of (k_wal k) = (false, 0) ->
  wp (ckpt_locks lockRc busy busyMax eMode xBusy) (returns (fun '(rc, eMode2, _) k' =>
    locked_from k k' /\ (eMode2 = eMode \/ eMode2 = SQLITE_CHECKPOINT_PASSIVE))) k.
Proof.
  intros Hx Hl. assert (K : locked_from k k) by (split; [apply relabelled_refl|split; [done|by rewrite Hl]]).
  unfold ckpt_locks. destruct (eMode =? SQLITE_CHECKPOINT_NOOP); [wp_go; cbn [returns okp]; split; [done|by left]|].
  eapply (wp_seq _ _ _ (fun rc k1 => idle k k1 /\ held k1 = if rc =? SQLITE_OK then (WAL_CKPT_LOCK, 1) :: held k else held k)).
  { apply wp_on_conn, wp_on_rs. eapply wp_mono; [apply lock_ok|]. intros [rc| |] r; cbn [returns okp]; [|done..].
    intros ([Hw Hfi] & Hh & _). split; [split; [exact Hw|split; [exact Hfi|done]]|]. unfold locked in Hh.
    change (wal (r_wi (c_rs (k_conn k)))) with (k_wal k) in Hh. rewrite Hx in Hh. exact Hh. }
  intros rc k1 [I1 H1]. assert (E1 : k_wal k1 = k_wal k) by (unfold k_wal, c_wal; by rewrite (proj1 I1)).
  destruct (rc =? SQLITE_OK); cbn [negb].
  2:{ wp_go. cbn [returns okp]. split; [|by left]. split; [by apply idle_relabelled|]. rewrite E1, Hl. done. }
  eapply wp_seq; [by apply k_set_wal_ok|]. cbn beta. intros _ k2 (R2 & H2 & E2).
  assert (R : relabelled k k2) by (eapply relabelled_trans; [by apply idle_relabelled|done]).
  assert (K2 : locked_from k k2).
  { split; [done|]. rewrite E2, E1. split; [done|]. unfold locks_of in *. injection Hl as Hw Hc. cbn. rewrite Hw, H2, H1. done. }
  destruct (eMode =? SQLITE_CHECKPOINT_PASSIVE); [wp_go; cbn [returns okp]; split; [done|by left]|].
  eapply wp_seq; [apply (walBusyLock_ok lockRc busy busyMax Hbusy); by rewrite E2, E1|]. cbn beta. intros rc3 k3 (I3 & H3 & _).
  assert (E3 : k_wal k3 = k_wal k2) by (unfold k_wal, c_wal; by rewrite (proj1 I3)).
  assert (R3 : relabelled k k3) by (eapply relabelled_trans; [done|by apply idle_relabelled]).
  destruct (rc3 =? SQLITE_OK).
  { eapply wp_seq; [by apply k_set_wal_ok|]. cbn beta. intros _ k4 (R4 & H4 & E4). wp_go. cbn [returns okp]. split; [|by left].
    split; [by eapply relabelled_trans|]. rewrite E4, E3, E2, E1. split; [done|]. by rewrite H4, H3, H2, H1. }
  assert (K3 : locked_from k k3) by (split; [done|]; rewrite E3, H3; apply K2).
  destruct (rc3 =? SQLITE_BUSY); wp_go; cbn [returns okp]; (split; [done|auto]).
Qed.

(** *** The work between the locks *)

Lemma code_of_ok (m : Prelude.M ckpt Z) G P Q k :
  wp m (okp G P) k -> fails_well m -> (forall rc k', P rc k' -> Q rc k') -> (forall e k', e <> SQLITE_OK -> G k' -> Q e k') ->
  wp (code_of m) (returns Q) k.
Proof.
  unfold wp, code_of. intros H1 H2 H3 H4. specialize (H2 k). destruct (m k) as [[rc|e|] k']; cbn [fst snd okp returns] in *; [auto| |done].
  apply H4; [|done]. by intros ->.
Qed.


Abbreviation checkpointed := (checkpointed lockRc sz fs b sync_flags).
Abbreviation nPage k := (hdr_nPage (hdr (k_wal k))).
Definition active (eMode : Z) (rc : Z) : bool := is_done eMode rc && negb (eMode =? SQLITE_CHECKPOINT_NOOP).
Record ran (eMode : Z) (k : ckpt) (rc : Z) (counts : option (Z * Z)) (k' : ckpt) : Prop := {
  rn_ckpt : checkpointed eMode k (active eMode rc) k';
  rn_counts : match counts with
    | Some (nLog, nCkpt) => (rc = SQLITE_OK \/ rc = SQLITE_BUSY) /\
        (eMode <> SQLITE_CHECKPOINT_TRUNCATE -> nLog = i32 M /\ nCkpt = i32 (word_at k' nBackfill_at))
    | None => rc <> SQLITE_OK
    end;
}.

Lemma checkpointed_refl eMode k : ready_ckpt fs b k -> checkpointed eMode k false k.
Proof. intros R. eapply advanced_checkpointed; [exact R|]. eapply advanced_none; [exact R|apply walked_refl]. Qed.
Lemma checkpointed_hdr eMode k d k' :
  checkpointed eMode k d k' -> eMode <> SQLITE_CHECKPOINT_TRUNCATE -> hdr (k_wal k') = hdr (k_wal k).
Proof.
  intros C Hne. destruct (checkpointed_log _ _ _ _ _ _ _ _ _ C Hne) as (s & k1 & _ & P & _ & I).
  transitivity (hdr (k_wal k1)); [unfold k_wal, c_wal; by rewrite (proj1 I)|].
  apply (wal_same_mode _ _ (sp_wal _ _ _ _ (pr_step _ _ _ _ _ _ _ _ P))).
Qed.

Lemma ckpt_run_ok eMode xBusy nBuf k :
  ready_ckpt fs b k -> nBuf = sz ->
  wp (ckpt_run SQLITE_BIGENDIAN mallocOk shmRc ioRc lockRc partial randomness busy busyMax isInterrupted mallocFailed hint eMode xBusy sync_flags nBuf)
    (returns (fun '(rc, counts) => ran eMode k rc counts)) k.
Proof.
  intros R ->. unfold ckpt_run. do 2 wp_step. unfold after at 1.
  assert (Hc : negb (mxFrame (hdr (k_wal k)) =? 0) && negb (walPagesize (k_wal k) =? sz) = false).
  { rewrite (ck_mx _ _ _ _ _ R). destruct (Z.eqb_spec M 0) as [E|E]; [done|].
    rewrite (walPagesize_ok SQLITE_BIGENDIAN sz Hsz Hpow fs b k R) by (intros ->; by apply E). by rewrite Z.eqb_refl. }
  rewrite Hc. eapply (wp_seq _ _ _ (fun rc k1 => checkpointed eMode k (active eMode rc) k1)).
  { unfold active. destruct (eMode =? SQLITE_CHECKPOINT_NOOP).
    - wp_go. cbn [returns okp]. rewrite andb_false_r. by apply checkpointed_refl.
    - eapply code_of_ok; [by apply (walCheckpoint_ok SQLITE_BIGENDIAN mallocOk shmRc ioRc lockRc partial randomness busy busyMax isInterrupted mallocFailed hint Hbusy sz Hsz Hpow fs b sync_flags Hrand)|apply walCheckpoint_fails_well| |].
      + intros rc k1. by rewrite andb_true_r.
      + intros e k1 He. unfold is_done. by rewrite (proj2 (Z.eqb_neq e SQLITE_OK) He). }
  cbn beta. intros rc k1 C. destruct ((rc =? SQLITE_OK) || (rc =? SQLITE_BUSY)) eqn:Hrc.
  - do 2 wp_step. unfold after at 1. wp_step. apply k_word_ok; [apply C|done|]. unfold after at 1. wp_go. cbn [returns okp].
    split; [done|]. split; [by apply orb_true_iff in Hrc as [?%Z.eqb_eq|?%Z.eqb_eq]; auto|].
    intros Hne. rewrite (checkpointed_hdr _ _ _ _ C Hne), (ck_mx _ _ _ _ _ R). done.
  - wp_go. cbn [returns okp]. split; [done|]. apply orb_false_iff in Hrc as [?%Z.eqb_neq _]. done.
Qed.

(** *** Giving the locks back *)

(** A pair whose second part is kept over the next computation. *)
Lemma wp_seq_pair {S A B C D} (m : Prelude.M S (A * B)) (n : A -> B -> Prelude.M S C) (g : B -> C -> Prelude.M S D) P G Q s :
  wp (let* r := m in let '(a, b) := r in let* c := n a b in ret (c, b)) (returns P) s ->
  (forall c b s', P (c, b) s' -> wp (g b c) (okp G Q) s') ->
  wp (let* r := m in let '(a, b) := r in let* c := n a b in g b c) (okp G Q) s.
Proof.
  unfold wp, bind. destruct (m s) as [[[a b']|e|] s1]; [|done..]. destruct (n a b' s1) as [[c|e|] s2]; [|done..].
  cbn [fst snd returns okp ret]. intros H1 H2. by apply H2.
Qed.

Lemma wp_assoc_r {S A B C} (m : Prelude.M S A) (f : A -> Prelude.M S B) (g : B -> Prelude.M S C) Q s :
  wp (bind m (fun a => bind (f a) g)) Q s -> wp (bind (bind m f) g) Q s.
Proof. unfold wp, bind. by destruct (m s) as [[a|rc|] s']. Qed.


Lemma end_write_ok l k :
  exclusiveMode (k_wal k) = 0 -> held k = lock_list (locks_of (k_wal k)) ++ l ->
  wp (on_conn sqlite3WalEndWriteTransaction) (returns (fun _ k' => relabelled k k' /\
    held k' = lock_list (false, ckptLock (k_wal k)) ++ l /\ locks_of (k_wal k') = (false, ckptLock (k_wal k)))) k.
Proof.
  intros Hx Hh. apply wp_on_conn. unfold sqlite3WalEndWriteTransaction. do 2 wp_step. unfold after at 1.
  change (c_wal (k_conn k)) with (k_wal k). unfold locks_of in *. destruct (writeLock (k_wal k)) eqn:Hw.
  2:{ do 2 wp_step. unfold after at 1. wp_go. cbn [returns okp]. split; [|split; [exact Hh|]].
      - apply idle_relabelled. by destruct k.
      - change (k_wal (set_conn (k_conn k) k)) with (k_wal k). by rewrite Hw. }
  assert (Hh' : r_held (c_rs (k_conn k)) = locked (wal (r_wi (c_rs (k_conn k)))) (WAL_WRITE_LOCK, 1) (lock_list (false, ckptLock (k_wal k)) ++ l)).
  { unfold locked. change (wal (r_wi (c_rs (k_conn k)))) with (k_wal k). rewrite Hx. exact Hh. }
  wp_step. wp_step. apply wp_on_rs. eapply wp_mono; [by apply (unlock_ok WAL_WRITE_LOCK 1 _ _ Hh')|].
  intros [[]| |] r; cbn [returns okp]; [|done..]. intros [[Ew Ef] Hr]. unfold after at 1. wp_step. apply wp_set_conn_wal. unfold after at 1.
  wp_step. apply wp_set_conn_wal. unfold after at 1. wp_step. unfold after at 1. wp_go. cbn [returns okp].
  split; [|split; [exact Hr|]].
  - split; [|split; [exact Ef|done]]. exists (set_iReCksum 0 (set_writeLock false (k_wal k))). split; [|done].
    change (set_wal (set_iReCksum 0 (set_writeLock false (wal (r_wi r)))) (set_wal (set_writeLock false (wal (r_wi r))) (r_wi r)) =
      set_wal (set_iReCksum 0 (set_writeLock false (k_wal k))) (c_wi (k_conn k))). rewrite Ew. done.
  - change ((writeLock (set_iReCksum 0 (set_writeLock false (wal (r_wi r)))), ckptLock (set_iReCksum 0 (set_writeLock false (wal (r_wi r))))) =
      (false, ckptLock (k_wal k))). rewrite Ew. done.
Qed.

Lemma end_ckpt_ok {A} (x : A) l k :
  exclusiveMode (k_wal k) = 0 -> held k = lock_list (locks_of (k_wal k)) ++ l ->
  wp (let* _ := on_conn sqlite3WalEndWriteTransaction in
      let* p := gets k_wal in
      (if negb (ckptLock p =? 0) then k_unlock WAL_CKPT_LOCK 1 ;;* k_set_wal (set_ckptLock 0) else ret tt) ;;*
      ret x)
    (returns (fun y k' => y = x /\ relabelled k k' /\ held k' = l /\ locks_of (k_wal k') = (false, 0))) k.
Proof.
  intros Hx Hh. eapply wp_seq; [by apply (end_write_ok l)|]. cbn beta. intros _ k1 (R1 & H1 & L1). do 2 wp_step. unfold after at 1.
  unfold locks_of in L1. injection L1 as Lw Lc. rewrite Lc. unfold lock_list in H1. cbn [fst snd] in H1.
  destruct (ckptLock (k_wal k) =? 0) eqn:Ec; cbn [negb].
  - do 2 wp_step. unfold after at 1. wp_go. cbn [returns okp]. split; [done|]. split; [done|]. split; [exact H1|].
    unfold locks_of. rewrite Lw, Lc. by apply Z.eqb_eq in Ec as ->.
  - apply wp_assoc_r. eapply wp_seq; [apply (k_unlock_ok WAL_CKPT_LOCK 1 l); [|exact H1]|].
    { destruct R1 as ((p & Ep & _ & A2) & _). unfold k_wal, c_wal in *. rewrite Ep. change (exclusiveMode p = 0). by rewrite A2. }
    cbn beta. intros _ k2 [I2 H2]. eapply wp_seq; [by apply k_set_wal_ok|]. cbn beta. intros _ k3 (R3 & H3 & E3).
    wp_go. cbn [returns okp]. split; [done|].
    split; [eapply relabelled_trans; [exact R1|]; eapply relabelled_trans; [by apply idle_relabelled|exact R3]|].
    split; [by rewrite H3|]. unfold locks_of. rewrite E3. unfold k_wal at 1 2, c_wal. rewrite (proj1 I2).
    change (wal (c_wi (k_conn k1))) with (k_wal k1). cbn. by rewrite Lw.
Qed.

(** *** The call *)

(** A connection without a transaction, whatever header it has read before: the
    published header describes the log. *)
Record callable (h : WalIndexHdr) (k : ckpt) : Prop := {
  ca_ready : ready_ckpt fs b (with_header (sealed SQLITE_BIGENDIAN h) k);
  ca_public : public SQLITE_BIGENDIAN (sealed SQLITE_BIGENDIAN h) (c_wi (k_conn k));
  ca_hdr : hdr_ok h;
  ca_own : hdr_ok (hdr (k_wal k));
  ca_rw : readOnly (k_wal k) = 0;
  ca_shm : bShmUnreliable (k_wal k) = false;
  ca_locks : locks_of (k_wal k) = (false, 0);
}.
Abbreviation sqlite3WalCheckpoint := (sqlite3WalCheckpoint SQLITE_BIGENDIAN mallocOk shmRc ioRc lockRc partial randomness junk busy busyMax
  isInterrupted mallocFailed hint).

(** What was done between the locks, for the mode that was tried. *)
Definition worked (h : WalIndexHdr) (eMode : Z) (k : ckpt) (r : Z * option (Z * Z)) (k' : ckpt) : Prop :=
  exists k1 k2, relabelled k k1 /\ hdr (k_wal k1) = sealed SQLITE_BIGENDIAN h /\ ran eMode k1 (fst r) (snd r) k2 /\ relabelled k2 k'.
Definition called (h : WalIndexHdr) (eMode : Z) (k : ckpt) (r : Z * option (Z * Z)) (k' : ckpt) : Prop :=
  held k' = held k /\ locks_of (k_wal k') = (false, 0) /\
  exists eMode2 rc, (eMode2 = eMode \/ eMode2 = SQLITE_CHECKPOINT_PASSIVE) /\
    fst r = (if (rc =? SQLITE_OK) && negb (eMode =? eMode2) then SQLITE_BUSY else rc) /\ worked h eMode2 k (rc, snd r) k'.

(** The header is read, and the checkpoint run. *)
Lemma read_and_run_ok h eMode xBusy nBuf rc0 k :
  ready_ckpt fs b (with_header (sealed SQLITE_BIGENDIAN h) k) -> mapped_ok k -> hdr_ok h ->
  public SQLITE_BIGENDIAN (sealed SQLITE_BIGENDIAN h) (c_wi (k_conn k)) -> hdr_ok (hdr (k_wal k)) -> bShmUnreliable (k_wal k) = false -> nBuf = sz ->
  wp (let* r := (if rc0 =? SQLITE_OK then on_conn (walIndexReadHdr SQLITE_BIGENDIAN mallocOk shmRc ioRc lockRc junk) else ret (rc0, false)) in
      let '(rc, isChanged) := r in
      let* r := (if rc =? SQLITE_OK then
                   ckpt_run SQLITE_BIGENDIAN mallocOk shmRc ioRc lockRc partial randomness busy busyMax isInterrupted mallocFailed hint
                     eMode xBusy sync_flags nBuf
                 else ret (rc, None)) in
      ret (r, isChanged))
    (returns (fun '(r, _) k' => worked h eMode k r k' /\ held k' = held k /\ locks_of (k_wal k') = locks_of (k_wal k) /\ exclusiveMode (k_wal k') = 0)) k.
Proof.
  intros R Mp Ho Hp Hs Hb Hn. pose proof (ck_mode _ _ _ _ _ R : exclusiveMode (k_wal k) = 0) as Hx.
  pose proof (with_header_relabelled (sealed SQLITE_BIGENDIAN h) k) as RH.
  destruct (Z.eqb_spec rc0 SQLITE_OK) as [->|Hne].
  - eapply wp_seq; [apply (walIndexReadHdr_ok h); done|]. cbn beta. intros [rc ch] k1 (-> & R1 & E1 & H1 & L1).
    assert (Rk : ready_ckpt fs b k1).
    { eapply ready_relabelled; [exact R| |by rewrite E1]. eapply relabelled_trans; [by apply relabelled_sym|exact R1]. }
    rewrite Z.eqb_refl. eapply wp_seq; [by apply ckpt_run_ok|]. cbn beta. intros [rc counts] k2 Rn. wp_go. cbn [returns okp].
    destruct (cp_conn _ _ _ _ _ _ _ _ _ (rn_ckpt _ _ _ _ _ Rn)) as (_ & X2 & L2).
    split; [exists k1, k2; split; [done|split; [done|split; [done|apply relabelled_refl]]]|].
    split; [rewrite (cp_held _ _ _ _ _ _ _ _ _ (rn_ckpt _ _ _ _ _ Rn)); done|]. split; [by rewrite L2|]. rewrite X2. apply Rk.
  - do 2 wp_step. unfold after at 1. rewrite (proj2 (Z.eqb_neq _ _) Hne). do 2 wp_step. unfold after at 1. wp_go. cbn [returns okp].
    split; [|done]. exists (with_header (sealed SQLITE_BIGENDIAN h) k), (with_header (sealed SQLITE_BIGENDIAN h) k).
    split; [done|]. split; [done|]. split; [|by apply relabelled_sym]. split; [|done]. unfold active, is_done. cbn [fst].
    rewrite (proj2 (Z.eqb_neq _ _) Hne). by apply checkpointed_refl.
Qed.

Lemma sqlite3WalCheckpoint_ok h eMode xBusy nBuf k :
  callable h k -> nBuf = sz -> wp (sqlite3WalCheckpoint eMode xBusy sync_flags nBuf) (returns (called h eMode k)) k.
Proof.
  intros C Hn. destruct (ck_index _ _ _ _ _ (ca_ready _ _ C)) as [rem I].
  pose proof (ck_mode _ _ _ _ _ (ca_ready _ _ C) : exclusiveMode (k_wal k) = 0) as Hx.
  set (hs := sealed SQLITE_BIGENDIAN h). pose proof (with_header_relabelled hs k) as RH.
  assert (Mp : mapped_ok k) by (eapply relabelled_mapped; [by apply relabelled_sym|]; split; [apply I|apply C]).
  unfold sqlite3WalCheckpoint. do 2 wp_step. unfold after at 1. rewrite (ca_rw _ _ C). cbn [Z.eqb negb].
  eapply wp_seq; [by apply ckpt_locks_ok; [|apply C]|]. cbn beta. intros [[rc1 eMode2] xBusy2] k1 [(R1 & (E1 & B1) & H1) Hm].
  assert (Rk : ready_ckpt fs b (with_header hs k1)).
  { eapply ready_relabelled; [apply (ca_ready _ _ C)| |done]. eapply relabelled_trans; [by apply relabelled_sym|].
    eapply relabelled_trans; [exact R1|]. apply with_header_relabelled. }
  assert (P1 : public SQLITE_BIGENDIAN hs (c_wi (k_conn k1))).
  { destruct (ca_public _ _ C) as (ws & g & E & Hg & H). exists ws, g. split; [done|]. split; [|done]. by rewrite (relabelled_view k k1). }
  assert (Hs : hdr_ok (hdr (k_wal k1))) by (rewrite E1; apply C).
  pose proof (read_and_run_ok h eMode2 xBusy2 nBuf rc1 k1 Rk (relabelled_mapped _ _ R1 Mp) (ca_hdr _ _ C) P1 Hs
    ltac:(rewrite B1; apply C) Hn) as W.
  eapply (wp_seq_pair _ _ _ _ _ _ _ W). cbn beta. intros [rc counts] ch k2 (Wk & H2 & L2 & X2).
  eapply (wp_seq _ _ _ (fun _ k3 => relabelled k2 k3 /\ held k3 = held k2 /\ locks_of (k_wal k3) = locks_of (k_wal k2) /\ exclusiveMode (k_wal k3) = 0)).
  { destruct ch; [|wp_go; cbn [returns okp]; split; [apply relabelled_refl|done]].
    eapply okp_mono; [by apply k_set_wal_ok|]. cbn beta. intros _ k3 (R3 & H3 & E3). split; [done|]. split; [done|]. by rewrite E3. }
  cbn beta. intros _ k3 (R3 & H3 & L3 & X3).
  eapply okp_mono; [apply (end_ckpt_ok _ (held k)); [done|by rewrite H3, H2, H1, L3, L2]|].
  cbn beta. intros y k4 (-> & R4 & H4 & L4). split; [done|]. split; [done|]. exists eMode2, rc. split; [done|]. split; [done|].
  destruct Wk as (ka & kb & Ra & Ea & Rn & Rb). exists ka, kb. split; [by eapply relabelled_trans|]. split; [done|]. split; [done|].
  eapply relabelled_trans; [exact Rb|]. by eapply relabelled_trans.
Qed.

(** C10: a call for a checkpoint gives a result code, never undefined behaviour,
    and has given back every lock it took, whatever failed.  Current readers see
    what they saw.  A call for more than a passive checkpoint that reports
    success has put all contents of the log in the database file; if the lock of
    the writers could not be had it reports [SQLITE_BUSY].  The log is emptied
    only by a call for that, with its contents in the database.  The counts of
    frames are those of the log and of the index, and are given except on an
    error.

    The call is one of a connection that finds a published header which says
    what is in the log ([callable]): the branch of [walIndexReadHdr] that recovers
    a damaged wal-index does not run (it is [walIndexRecover_correct]'s matter).
    What the counts are is not said for a call that is to empty the log, which
    resets both. *)
Theorem sqlite3WalCheckpoint_correct h eMode xBusy nBuf k o k' :
  callable h k -> nBuf = sz -> sqlite3WalCheckpoint eMode xBusy sync_flags nBuf k = (o, k') ->
  let complete := forall pg, 1 <= pg <= hdr_nPage h -> db_page sz (k_db k') pg = seen sz fs b M (k_db k) pg in
  exists rc counts, o = Ret (rc, counts) /\
    held k' = held k /\ locks_of (k_wal k') = (false, 0) /\
    (exists l, k_writes k' = l ++ k_writes k /\ Forall (guarded sync_flags (c_file (k_conn k))) l) /\
    (forall more hi pg, M <= hi -> 1 <= pg <= hdr_nPage h ->
       seen sz (fs ++ more) b hi (k_db k') pg = seen sz (fs ++ more) b hi (k_db k) pg) /\
    (rc = SQLITE_OK -> SQLITE_CHECKPOINT_PASSIVE < eMode -> complete) /\
    (c_file (k_conn k') <> c_file (k_conn k) -> eMode = SQLITE_CHECKPOINT_TRUNCATE /\ complete) /\
    match counts with
    | Some (nLog, nCkpt) => (rc = SQLITE_OK \/ rc = SQLITE_BUSY) /\
        (eMode <> SQLITE_CHECKPOINT_TRUNCATE -> nLog = i32 M /\ nCkpt = i32 (word_at k' nBackfill_at))
    | None => rc <> SQLITE_OK
    end.
Proof.
  intros C Hn E. cbv zeta. pose proof (sqlite3WalCheckpoint_ok h eMode xBusy nBuf k C Hn) as W.
  apply returns_run in W as ([rc counts] & kx & Ex & H1 & L1 & eMode2 & rc2 & Hm & Er & k1 & k2 & R1 & E1 & Rn & R2).
  rewrite E in Ex. injection Ex as -> <-. exists rc, counts. split; [done|]. split; [done|]. split; [done|].
  cbn [fst snd] in Er, Rn. destruct (ck_backfill _ _ _ _ _ (ca_ready _ _ C)) as [_ Hb0]. destruct Rn as [[_ _ _ Hex] Hcounts].
  destruct Hex as (s & k3 & Hs & P & _ & (D3 & _ & F3) & Hi & Hok).
  destruct (id R1) as (_ & B1 & _ & D1 & _ & F1), (id R2) as (_ & B2 & _ & D2 & _ & F2).
  assert (En : hdr_nPage (hdr (k_wal k1)) = hdr_nPage h) by (by rewrite E1).
  assert (Hc : M <= word_at k3 nBackfill_at -> forall pg, 1 <= pg <= hdr_nPage h -> db_page sz (k_db k') pg = seen sz fs b M (k_db k) pg).
  { intros Hw pg Hp. rewrite <- En in Hp. pose proof (seen_advanced lockRc sz fs b sync_flags s k1 k3 [] M pg P Hb0 Hs ltac:(lia) Hp) as H.
    rewrite app_nil_r, seen_nothing in H by done. rewrite D2, D3, H, D1. done. }
  assert (Ht : eMode2 = SQLITE_CHECKPOINT_TRUNCATE -> eMode = SQLITE_CHECKPOINT_TRUNCATE) by (destruct Hm as [->| ->]; done).
  split; [|split; [|split; [|split]]].
  - destruct (pr_writes _ _ _ _ _ _ _ _ P) as (l & El & Fl). exists l. rewrite F2, F3, El, F1, <- B1. done.
  - intros more hi pg Hhi Hp. rewrite D2, D3, (seen_kept lockRc sz fs b sync_flags s k1 k3 more b hi pg P) by (done || lia). by rewrite D1.
  - intros Hrc Hact. apply Hc, Hok. unfold active, is_done. destruct (Z.eqb_spec rc2 SQLITE_OK) as [->|Hne]; [|by rewrite Hrc in Er].
    destruct (Z.eqb_spec eMode eMode2) as [->|Hne]; [|by rewrite Hrc in Er].
    unfold SQLITE_CHECKPOINT_PASSIVE, SQLITE_CHECKPOINT_NOOP in *.
    by rewrite (proj2 (Z.eqb_neq eMode2 0)), (proj2 (Z.eqb_neq eMode2 (-1))) by lia.
  - intros Hne. destruct Hi as [I|(Et & Hw & _)]; [|by split; [apply Ht|apply Hc]]. destruct Hne.
    rewrite B2, (proj1 (proj2 I)), (sp_file _ _ _ _ (pr_step _ _ _ _ _ _ _ _ P)). done.
  - destruct counts as [[nLog nCkpt]|].
    + destruct Hcounts as [Hr Hv]. split.
      * rewrite Er. destruct Hr as [->| ->]; [|by right]. destruct (negb _); [by right|by left].
      * intros Hne. rewrite (relabelled_word k2 k') by done. apply Hv. by intros ?%Ht.
    + rewrite Er. rewrite (proj2 (Z.eqb_neq _ _) Hcounts). done.
Qed.
End Interface.

(** ** Examples *)

(** A connection that has not read the header yet, after the commit of
    [demo_c1]. *)
Definition demo_other (c : conn) : ckpt := mkCkpt (with_wal (set_hdr zero_hdr (set_writeLock false (c_wal c))) c) [] [] 0 [].
Definition demo_call (lockRc : nat -> Z -> Z -> Z) (eMode : Z) : out (Z * option (Z * Z)) * ckpt :=
  sqlite3WalCheckpoint false all_mem all_ok all_ok lockRc (fun _ => 100) demo_bytes zero_page (fun _ => 0) 0 (fun _ => false) false (fun _ => 0)
    eMode false 0x22 512 (demo_other demo_c1).

Lemma other_callable c fs :
  ready_ckpt false 512 fs 0 (mkCkpt c [] [] 0 []) -> sealed false (hdr (c_wal c)) = hdr (c_wal c) -> hdr_ok (hdr (c_wal c)) ->
  public false (hdr (c_wal c)) (c_wi c) -> readOnly (c_wal c) = 0 -> bShmUnreliable (c_wal c) = false -> ckptLock (c_wal c) = 0 ->
  callable false 512 fs 0 (hdr (c_wal c)) (demo_other c).
Proof.
  intros R Es Ho Hp Hr Hb Hc.
  assert (RL : relabelled (mkCkpt c [] [] 0 []) (with_header (hdr (c_wal c)) (demo_other c))).
  { split; [|done]. exists (with_hdr (hdr (c_wal c)) (set_hdr zero_hdr (set_writeLock false (c_wal c)))). done. }
  split; rewrite ?Es; try done.
  - eapply ready_relabelled; [exact R|exact RL|done].
  - split; [|done]. split; [done|repeat constructor; lia].
  - unfold locks_of. change (ckptLock (k_wal (demo_other c))) with (ckptLock (c_wal c)). by rewrite Hc.
Qed.
Lemma demo_sealed : sealed false (hdr (c_wal demo_c1)) = hdr (c_wal demo_c1) /\ readOnly (c_wal demo_c1) = 0 /\
  bShmUnreliable (c_wal demo_c1) = false /\ ckptLock (c_wal demo_c1) = 0 /\
  hdr_nPage (hdr (c_wal demo_c1)) = 2.
Proof. by vm_compute. Qed.
Lemma demo_callable : exists fs, callable false 512 fs 0 (hdr (c_wal demo_c1)) (demo_other demo_c1) /\ flen fs = 2 /\
  forall pg, newest fs pg = newest_after (map page_of demo_pages) None pg.
Proof.
  destruct demo_committed as (fs & W & R & Hf & Hk). exists fs. split; [|by split].
  destruct demo_sealed as (F1 & F2 & F3 & F4 & _). apply other_callable; [exact R|exact F1|apply W|apply W|exact F2|exact F3|exact F4].
Qed.

Lemma demo_call_eq lockRc eMode :
  sqlite3WalCheckpoint false all_mem all_ok all_ok lockRc (fun _ => 100) demo_bytes zero_page (fun _ => 0) 0 (fun _ => false) false (fun _ => 0)
    eMode false 0x22 512 (demo_other demo_c1) = (fst (demo_call lockRc eMode), snd (demo_call lockRc eMode)).
Proof. unfold demo_call. apply surjective_pairing. Qed.

Lemma sqlite3WalCheckpoint_correct_witness :
  fst (demo_call all_free 1) = Ret (0, Some (2, 2)) /\ db_page 512 (k_db (snd (demo_call all_free 1))) 2 = replicate 512 9 /\
  locks_of (k_wal (snd (demo_call all_free 1))) = (false, 0).
Proof.
  assert (E : fst (demo_call all_free 1) = Ret (0, Some (2, 2))) by (by vm_compute). split; [exact E|].
  destruct demo_callable as (fs & C & Hf & Hk). destruct demo_sealed as (_ & _ & _ & _ & Hn).
  destruct (sqlite3WalCheckpoint_correct false all_mem all_ok all_ok all_free (fun _ => 100) demo_bytes zero_page (fun _ => 0) 0 (fun _ => false) false
    (fun _ => 0) demo_zero demo_rand 512 demo_size eq_refl fs 0 0x22 _ 1 false 512 (demo_other demo_c1) _ _ C eq_refl (demo_call_eq all_free 1))
    as (rc & counts & Eo & _ & L & _ & _ & Hc & _).
  rewrite E in Eo. injection Eo as <- <-. split; [|exact L]. rewrite Hc.
  - unfold seen. change (Z.to_nat 0) with 0%nat. rewrite drop_0, take_ge by (unfold flen in Hf |- *; lia). rewrite Hk. by vm_compute.
  - reflexivity.
  - reflexivity.
  - rewrite Hn. lia.
Defined.
