(* ===== verification/Util.v ===== *)
(** * Strings and 64-bit integers ([src/src/util.c])

    Comparison of strings, parsing of 32-bit integers, and arithmetic on 64-bit
    integers with overflow reported.  A string is read at an index of the
    memory it lies in: a read outside that memory gives [None].  The signed
    arithmetic is that of the portable code, where an overflow is undefined
    behaviour, [None] too. *)
From S2P Require Import Prelude Bits Bytes.

(** ** Definitions *)

(** *** Characters *)

Definition sqlite3UpperToLower : list Z :=
  [0; 1; 2; 3; 4; 5; 6; 7; 8; 9; 10; 11; 12; 13; 14; 15; 16; 17;
     18; 19; 20; 21; 22; 23; 24; 25; 26; 27; 28; 29; 30; 31; 32; 33; 34; 35;
     36; 37; 38; 39; 40; 41; 42; 43; 44; 45; 46; 47; 48; 49; 50; 51; 52; 53;
     54; 55; 56; 57; 58; 59; 60; 61; 62; 63; 64; 97; 98; 99; 100; 101; 102; 103;
     104; 105; 106; 107; 108; 109; 110; 111; 112; 113; 114; 115; 116; 117; 118; 119; 120; 121;
     122; 91; 92; 93; 94; 95; 96; 97; 98; 99; 100; 101; 102; 103; 104; 105; 106; 107;
     108; 109; 110; 111; 112; 113; 114; 115; 116; 117; 118; 119; 120; 121; 122; 123; 124; 125;
     126; 127; 128; 129; 130; 131; 132; 133; 134; 135; 136; 137; 138; 139; 140; 141; 142; 143;
     144; 145; 146; 147; 148; 149; 150; 151; 152; 153; 154; 155; 156; 157; 158; 159; 160; 161;
     162; 163; 164; 165; 166; 167; 168; 169; 170; 171; 172; 173; 174; 175; 176; 177; 178; 179;
     180; 181; 182; 183; 184; 185; 186; 187; 188; 189; 190; 191; 192; 193; 194; 195; 196; 197;
     198; 199; 200; 201; 202; 203; 204; 205; 206; 207; 208; 209; 210; 211; 212; 213; 214; 215;
     216; 217; 218; 219; 220; 221; 222; 223; 224; 225; 226; 227; 228; 229; 230; 231; 232; 233;
     234; 235; 236; 237; 238; 239; 240; 241; 242; 243; 244; 245; 246; 247; 248; 249; 250; 251;
     252; 253; 254; 255].
Definition UpperToLower (c : Z) : Z := bat sqlite3UpperToLower c.

(** [isdigit] and [isxdigit] of the standard library, on a byte. *)
Definition sqlite3Isdigit (c : Z) : bool := (48 <=? c) && (c <=? 57).
Definition sqlite3Isxdigit (c : Z) : bool :=
  sqlite3Isdigit c || ((65 <=? c) && (c <=? 70)) || ((97 <=? c) && (c <=? 102)).
Definition sqlite3HexToInt (h : Z) : Z :=
  if (48 <=? h) && (h <=? 57) then u32 (h - 48)
  else if (97 <=? h) && (h <=? 102) then u32 (h - 97 + 10)
  else u32 (h - 65 + 10).

(** *** Comparison *)

Fixpoint stricmp_loop (fuel : nat) (a b : bytes) (i : Z) : option Z :=
  match fuel with
  | O => None
  | S fuel =>
      c ← bget a i;
      x ← bget b i;
      if c =? x then if c =? 0 then Some c else stricmp_loop fuel a b (i + 1)
      else
        let c := UpperToLower c - UpperToLower x in
        if negb (c =? 0) then Some c else stricmp_loop fuel a b (i + 1)
  end.
(** Enough turns: one per byte of the first string. *)
Definition sqlite3StrICmp (zLeft zRight : bytes) : option Z :=
  stricmp_loop (S (length zLeft)) zLeft zRight 0.

(** A null pointer is [None]. *)
Definition sqlite3_stricmp (zLeft zRight : option bytes) : option Z :=
  match zLeft, zRight with
  | None, None => Some 0
  | None, Some _ => Some (-1)
  | Some _, None => Some 1
  | Some a, Some b => sqlite3StrICmp a b
  end.

(** [while( N-- > 0 && ... )]: [N] and the index when it ends. *)
Fixpoint strnicmp_loop (fuel : nat) (a b : bytes) (i N : Z) : option (Z * Z) :=
  match fuel with
  | O => None
  | S fuel =>
      if 0 <? N then
        c ← bget a i;
        if c =? 0 then Some (i, N - 1)
        else
          x ← bget b i;
          if UpperToLower c =? UpperToLower x then strnicmp_loop fuel a b (i + 1) (N - 1)
          else Some (i, N - 1)
      else Some (i, N - 1)
  end.
Definition sqlite3_strnicmp (zLeft zRight : option bytes) (N : Z) : option Z :=
  match zLeft, zRight with
  | None, None => Some 0
  | None, Some _ => Some (-1)
  | Some _, None => Some 1
  | Some a, Some b =>
      r ← strnicmp_loop (S (length a)) a b 0 N;
      let '(i, N) := r in
      if N <? 0 then Some 0
      else c ← bget a i; x ← bget b i; Some (UpperToLower c - UpperToLower x)
  end.

(** [strlen] of the standard library: the index of the first zero. *)
Fixpoint strlen (z : bytes) : option Z :=
  match z with
  | [] => None
  | b :: z => if b =? 0 then Some 0 else n ← strlen z; Some (n + 1)
  end.
Definition sqlite3Strlen30 (z : option bytes) : option Z :=
  match z with
  | None => Some 0
  | Some z => n ← strlen z; Some (Z.land 0x3fffffff (i32 n))
  end.

(** *** Parsing *)

(** [while( zNum[0]=='0' ) zNum++]. *)
Fixpoint skip_zeros (fuel : nat) (z : bytes) (i : Z) : option Z :=
  match fuel with
  | O => None
  | S fuel => c ← bget z i; if c =? 48 then skip_zeros fuel z (i + 1) else Some i
  end.
(** At most [n] hexadecimal digits from [i]: value and number of digits. *)
Fixpoint hex_loop (n : nat) (z : bytes) (zNum i u : Z) : option (Z * Z) :=
  match n with
  | O => Some (u, i)
  | S n =>
      c ← bget z (zNum + i);
      if sqlite3Isxdigit c then hex_loop n z zNum (i + 1) (u32 (u * 16 + sqlite3HexToInt c))
      else Some (u, i)
  end.
Fixpoint dec_loop (n : nat) (z : bytes) (zNum i v : Z) : option (Z * Z) :=
  match n with
  | O => Some (v, i)
  | S n =>
      b ← bget z (zNum + i);
      let c := b - 48 in
      if (0 <=? c) && (c <=? 9) then dec_loop n z zNum (i + 1) (v * 10 + c)
      else Some (v, i)
  end.

Definition get_hex (z : bytes) (zNum : Z) : option (option Z) :=
  zNum ← skip_zeros (S (length z)) z zNum;
  r ← hex_loop 8 z zNum 0 0;
  let '(u, i) := r in
  c ← bget z (zNum + i);
  Some (if (Z.land u 0x80000000 =? 0) && negb (sqlite3Isxdigit c) then Some u else None).
Definition get_dec (z : bytes) (zNum : Z) (neg : bool) : option (option Z) :=
  c ← bget z zNum;
  if negb (sqlite3Isdigit c) then Some None
  else
    zNum ← skip_zeros (S (length z)) z zNum;
    r ← dec_loop 11 z zNum 0 0;
    let '(v, i) := r in
    Some (if 10 <? i then None
          else if 2147483647 <? v - (if neg then 1 else 0) then None
          else Some (i32 (if neg then - v else v))).

(** The value, when the function returns 1. *)
Definition sqlite3GetInt32 (z : bytes) : option (option Z) :=
  c0 ← bget z 0;
  if c0 =? 45 then get_dec z 1 true
  else if c0 =? 43 then get_dec z 1 false
  else
    hex ← (if c0 =? 48 then
             c1 ← bget z 1;
             if (c1 =? 120) || (c1 =? 88) then c2 ← bget z 2; Some (sqlite3Isxdigit c2)
             else Some false
           else Some false);
    if (hex : bool) then get_hex z 2 else get_dec z 0 false.

(** *** Arithmetic *)

Definition LARGEST_INT64 : Z := 0x7fffffffffffffff.
Definition SMALLEST_INT64 : Z := -1 - LARGEST_INT64.
Definition in_i64 (x : Z) : bool := (SMALLEST_INT64 <=? x) && (x <=? LARGEST_INT64).
(** A signed result: undefined when it does not fit. *)
Definition s64 (x : Z) : option Z := if in_i64 x then Some x else None.

(** [*pA] and the result, 1 for an overflow. *)
Definition sqlite3AddInt64 (iA iB : Z) : option (Z * Z) :=
  over ← (if 0 <=? iB then
            if 0 <? iA then d ← s64 (LARGEST_INT64 - iA); Some (d <? iB) else Some false
          else
            if iA <? 0 then
              s ← s64 (iA + LARGEST_INT64);
              m ← s64 (- s);
              k ← s64 (iB + 1);
              Some (k <? m)
            else Some false);
  if (over : bool) then Some (iA, 1) else r ← s64 (iA + iB); Some (r, 0).
Definition sqlite3SubInt64 (iA iB : Z) : option (Z * Z) :=
  if iB =? SMALLEST_INT64 then
    if 0 <=? iA then Some (iA, 1) else r ← s64 (iA - iB); Some (r, 0)
  else m ← s64 (- iB); sqlite3AddInt64 iA m.
(** Division of the language rounds towards zero; the one overflow of a
    quotient is excluded by [s64]. *)
Definition div64 (a b : Z) : option Z := if b =? 0 then None else s64 (Z.quot a b).
Definition sqlite3MulInt64 (iA iB : Z) : option (Z * Z) :=
  over ← (if 0 <? iB then
            q ← div64 LARGEST_INT64 iB;
            if q <? iA then Some true
            else q ← div64 SMALLEST_INT64 iB; Some (iA <? q)
          else if iB <? 0 then
            if 0 <? iA then q ← div64 SMALLEST_INT64 iA; Some (iB <? q)
            else if iA <? 0 then
              if iB =? SMALLEST_INT64 then Some true
              else if iA =? SMALLEST_INT64 then Some true
              else a ← s64 (- iA); b ← s64 (- iB); q ← div64 LARGEST_INT64 b; Some (q <? a)
            else Some false
          else Some false);
  if (over : bool) then Some (iA, 1) else r ← s64 (iA * iB); Some (r, 0).

Definition sqlite3AbsInt32 (x : Z) : Z :=
  if 0 <=? x then x else if x =? i32 0x80000000 then 0x7fffffff else i32 (- x).

(** ** Comparison *)

(** ASCII lower case. *)
Definition lower (c : Z) : Z := if (65 <=? c) && (c <=? 90) then c + 32 else c.

(** The difference of the first characters that differ, when case is folded;
    the end of a string comes before any character. *)
Fixpoint cmp_fold (s t : bytes) : Z :=
  match s, t with
  | [], [] => 0
  | [], y :: _ => - lower y
  | x :: _, [] => lower x
  | x :: s, y :: t => if lower x =? lower y then cmp_fold s t else lower x - lower y
  end.

(** A string of characters other than zero, with its end, at the start of
    some memory. *)
Definition chars (s : bytes) : Prop := Forall (fun b => 0 < b < 256) s.
Definition cstr (z s : bytes) : Prop := chars s /\ exists r, z = s ++ 0 :: r.

Lemma UpperToLower_lower c : 0 <= c < 256 -> UpperToLower c = lower c.
Proof.
  intros Hc. assert (H : forallb (fun c => UpperToLower c =? lower c) (seqZ 0 256) = true) by (by vm_compute).
  rewrite forallb_forall in H. apply Z.eqb_eq, H, list_elem_of_In, elem_of_seqZ. lia.
Qed.
Lemma lower_pos c : 0 < c < 256 -> 0 < lower c < 256.
Proof. unfold lower. intros. destruct (Z.leb_spec 65 c), (Z.leb_spec c 90); cbn [andb]; lia. Qed.

Lemma bget_mid (p : bytes) x l i : i = blen p -> bget (p ++ x :: l) i = Some x.
Proof.
  intros ->. unfold bget, bat, blen. rewrite length_app. cbn [length].
  destruct (Z.leb_spec 0 (Z.of_nat (length p))), (Z.ltb_spec (Z.of_nat (length p)) (Z.of_nat (length p + S (length l)))); try lia.
  cbn [andb]. rewrite Nat2Z.id, list_lookup_middle by done. done.
Qed.

Lemma stricmp_loop_ok p q s t r1 r2 fuel :
  chars s -> chars t -> blen p = blen q -> (length s < fuel)%nat ->
  stricmp_loop fuel (p ++ s ++ 0 :: r1) (q ++ t ++ 0 :: r2) (blen p) = Some (cmp_fold s t).
Proof.
  revert p q t fuel. induction s as [|x s IH]; intros p q t fuel Hs Ht Hpq Hf;
    (destruct fuel as [|fuel]; [cbn in Hf; lia|]); cbn [stricmp_loop app].
  - rewrite bget_mid by done. cbn [mbind option_bind]. destruct t as [|y t]; cbn [app cmp_fold].
    + by rewrite bget_mid by done.
    + rewrite bget_mid by done. cbn [mbind option_bind]. inversion_clear Ht as [|? ? Hy _].
      destruct (Z.eqb_spec 0 y); [lia|]. rewrite !UpperToLower_lower by lia.
      pose proof (lower_pos y Hy). change (lower 0) with 0.
      destruct (Z.eqb_spec (0 - lower y) 0); [lia|done].
  - rewrite bget_mid by done. cbn [mbind option_bind]. inversion_clear Hs as [|? ? Hx Hs'].
    pose proof (lower_pos x Hx). destruct t as [|y t]; cbn [app cmp_fold].
    + rewrite bget_mid by done. cbn [mbind option_bind]. destruct (Z.eqb_spec x 0); [lia|].
      rewrite !UpperToLower_lower by lia. change (lower 0) with 0. rewrite Z.sub_0_r.
      destruct (Z.eqb_spec (lower x) 0); [lia|done].
    + rewrite bget_mid by done. cbn [mbind option_bind]. inversion_clear Ht as [|? ? Hy Ht'].
      assert (Hrec : stricmp_loop fuel (p ++ x :: s ++ 0 :: r1) (q ++ y :: t ++ 0 :: r2) (blen p + 1)
        = Some (cmp_fold s t)).
      { replace (p ++ x :: s ++ 0 :: r1) with ((p ++ [x]) ++ s ++ 0 :: r1) by (by rewrite <- app_assoc).
        replace (q ++ y :: t ++ 0 :: r2) with ((q ++ [y]) ++ t ++ 0 :: r2) by (by rewrite <- app_assoc).
        replace (blen p + 1) with (blen (p ++ [x])) by (by rewrite blen_snoc).
        apply IH; [done|done|by rewrite !blen_snoc, Hpq|cbn in Hf; lia]. }
      destruct (Z.eqb_spec x y) as [->|Hne].
      * destruct (Z.eqb_spec y 0); [lia|]. by rewrite Z.eqb_refl.
      * rewrite !UpperToLower_lower by lia.
        destruct (Z.eqb_spec (lower x) (lower y)), (Z.eqb_spec (lower x - lower y) 0); try lia; done.
Qed.

Lemma StrICmp_ok z1 z2 s t : cstr z1 s -> cstr z2 t -> sqlite3StrICmp z1 z2 = Some (cmp_fold s t).
Proof.
  intros [Hs [r1 ->]] [Ht [r2 ->]]. unfold sqlite3StrICmp.
  apply (stricmp_loop_ok [] [] s t r1 r2); try done. rewrite length_app. lia.
Qed.

Lemma cmp_fold_zero s t : chars s -> chars t -> cmp_fold s t = 0 <-> map lower s = map lower t.
Proof.
  intros Hs. revert t. induction Hs as [|x s Hx _ IH]; intros t Ht; destruct Ht as [|y t Hy Ht]; cbn [cmp_fold map].
  - done.
  - pose proof (lower_pos y Hy). split; [lia|done].
  - pose proof (lower_pos x Hx). split; [lia|done].
  - destruct (Z.eqb_spec (lower x) (lower y)) as [E|E].
    + rewrite (IH t Ht), E. split; [congruence|]. by intros [= ?].
    + split; [lia|]. intros [= ? _]. done.
Qed.
Lemma cmp_fold_anti s t : cmp_fold t s = - cmp_fold s t.
Proof.
  revert t. induction s as [|x s IH]; intros [|y t]; cbn [cmp_fold]; [lia..|].
  destruct (Z.eqb_spec (lower x) (lower y)), (Z.eqb_spec (lower y) (lower x)); (apply IH || lia).
Qed.
Lemma cmp_fold_trans s t u :
  chars s -> chars t -> chars u -> cmp_fold s t <= 0 -> cmp_fold t u <= 0 -> cmp_fold s u <= 0.
Proof.
  intros Hs. revert t u. induction Hs as [|x s Hx _ IH]; intros t u Ht Hu; destruct Ht as [|y t Hy Ht];
    destruct Hu as [|z u Hz Hu]; cbn [cmp_fold]; try lia;
    try apply lower_pos in Hx; try apply lower_pos in Hy; try apply lower_pos in Hz; try lia.
  destruct (Z.eqb_spec (lower x) (lower y)), (Z.eqb_spec (lower y) (lower z)), (Z.eqb_spec (lower x) (lower z));
    try lia. by apply IH.
Qed.

Lemma strnicmp_loop_ok p q s t r1 r2 fuel N :
  chars s -> chars t -> blen p = blen q -> (length s < fuel)%nat ->
  (r ← strnicmp_loop fuel (p ++ s ++ 0 :: r1) (q ++ t ++ 0 :: r2) (blen p) N;
   let '(i, N) := r in
   if N <? 0 then Some 0
   else c ← bget (p ++ s ++ 0 :: r1) i; x ← bget (q ++ t ++ 0 :: r2) i; Some (UpperToLower c - UpperToLower x))
  = Some (cmp_fold (take (Z.to_nat N) s) (take (Z.to_nat N) t)).
Proof.
  revert p q t fuel N. induction s as [|x s IH]; intros p q t fuel N Hs Ht Hpq Hf;
    (destruct fuel as [|fuel]; [cbn in Hf; lia|]); cbn [strnicmp_loop app];
    (destruct (Z.ltb_spec 0 N) as [HN|HN];
      [|cbn [mbind option_bind]; destruct (Z.ltb_spec (N - 1) 0); [|lia];
        by replace (Z.to_nat N) with 0%nat by lia]);
    rewrite bget_mid by done; cbn [mbind option_bind];
    (destruct (Z.to_nat N) as [|n] eqn:En; [lia|]).
  - cbn [Z.eqb mbind option_bind]. destruct (Z.ltb_spec (N - 1) 0); [lia|]. rewrite bget_mid by done.
    destruct Ht as [|y t Hy Ht]; cbn [app]; rewrite bget_mid by done; cbn [mbind option_bind take cmp_fold].
    + done.
    + rewrite !UpperToLower_lower by lia. done.
  - inversion_clear Hs as [|? ? Hx Hs']. destruct (Z.eqb_spec x 0); [lia|]. pose proof (lower_pos x Hx).
    assert (Hsz : forall y, Some (if (N - 1 <? 0) then (0 : Z) else y) = Some y).
    { intros y. destruct (Z.ltb_spec (N - 1) 0); [lia|done]. }
    destruct Ht as [|y t Hy Ht]; cbn [app]; rewrite bget_mid by done; cbn [mbind option_bind take cmp_fold];
      rewrite !UpperToLower_lower by lia.
    + change (lower 0) with 0. destruct (Z.eqb_spec (lower x) 0); [lia|]. cbn [mbind option_bind].
      destruct (Z.ltb_spec (N - 1) 0); [lia|]. rewrite !bget_mid by done. cbn [mbind option_bind].
      rewrite !UpperToLower_lower by lia. change (lower 0) with 0. by rewrite Z.sub_0_r.
    + destruct (Z.eqb_spec (lower x) (lower y)) as [E|E].
      * replace (p ++ x :: s ++ 0 :: r1) with ((p ++ [x]) ++ s ++ 0 :: r1) by (by rewrite <- app_assoc).
        replace (q ++ y :: t ++ 0 :: r2) with ((q ++ [y]) ++ t ++ 0 :: r2) by (by rewrite <- app_assoc).
        replace (blen p + 1) with (blen (p ++ [x])) by (by rewrite blen_snoc).
        replace n with (Z.to_nat (N - 1)) by lia.
        apply IH; [done|done|by rewrite !blen_snoc, Hpq|cbn in Hf; lia].
      * cbn [mbind option_bind]. destruct (Z.ltb_spec (N - 1) 0); [lia|].
        rewrite !bget_mid by done. cbn [mbind option_bind]. by rewrite !UpperToLower_lower by lia.
Qed.

Lemma strnicmp_ok z1 z2 s t N :
  cstr z1 s -> cstr z2 t ->
  sqlite3_strnicmp (Some z1) (Some z2) N = Some (cmp_fold (take (Z.to_nat N) s) (take (Z.to_nat N) t)).
Proof.
  intros [Hs [r1 ->]] [Ht [r2 ->]]. unfold sqlite3_strnicmp.
  apply (strnicmp_loop_ok [] [] s t r1 r2); try done. rewrite length_app. lia.
Qed.

Lemma strlen_ok s r : chars s -> strlen (s ++ 0 :: r) = Some (blen s).
Proof.
  induction 1 as [|x s Hx _ IH]; [done|]. cbn [app strlen]. destruct (Z.eqb_spec x 0); [lia|].
  rewrite IH. cbn. f_equal. unfold blen. cbn [length]. lia.
Qed.

(** ** Arithmetic *)

Lemma s64_in x : SMALLEST_INT64 <= x <= LARGEST_INT64 -> s64 x = Some x.
Proof. intros H. unfold s64, in_i64. destruct (Z.leb_spec SMALLEST_INT64 x), (Z.leb_spec x LARGEST_INT64); (done || lia). Qed.

Ltac i64 :=
  change SMALLEST_INT64 with (-9223372036854775808) in *;
  change LARGEST_INT64 with 9223372036854775807 in *; lia.

(** What an operation gives when its exact result is [r]. *)
Definition checked (iA r : Z) : option (Z * Z) := Some (if in_i64 r then (r, 0) else (iA, 1)).

Lemma in_i64_spec x : in_i64 x = true <-> SMALLEST_INT64 <= x <= LARGEST_INT64.
Proof. unfold in_i64. rewrite andb_true_iff, !Z.leb_le. done. Qed.

Lemma AddInt64_ok iA iB : in_i64 iA = true -> in_i64 iB = true -> sqlite3AddInt64 iA iB = checked iA (iA + iB).
Proof.
  rewrite !in_i64_spec. intros HA HB. unfold sqlite3AddInt64, checked.
  change SMALLEST_INT64 with (-9223372036854775808) in *. change LARGEST_INT64 with 9223372036854775807 in *.
  assert (Hs : forall x, -9223372036854775808 <= x <= 9223372036854775807 -> s64 x = Some x) by (apply s64_in).
  assert (Hyes : -9223372036854775808 <= iA + iB <= 9223372036854775807 ->
    (r ← s64 (iA + iB); Some (r, 0)) = Some (if in_i64 (iA + iB) then (iA + iB, 0) else (iA, 1))).
  { intros H. rewrite Hs by done. cbn. by rewrite (proj2 (in_i64_spec _)). }
  assert (Hno : ~ (-9223372036854775808 <= iA + iB <= 9223372036854775807) ->
    Some (iA, 1) = Some (if in_i64 (iA + iB) then (iA + iB, 0) else (iA, 1))).
  { intros H. destruct (in_i64 (iA + iB)) eqn:E; [|done]. by apply in_i64_spec in E. }
  destruct (Z.leb_spec 0 iB) as [Hb|Hb].
  - destruct (Z.ltb_spec 0 iA) as [Ha|Ha]; [|apply Hyes; lia].
    rewrite (Hs (9223372036854775807 - iA)) by lia. cbn [mbind option_bind].
    destruct (Z.ltb_spec (9223372036854775807 - iA) iB); [apply Hno|apply Hyes]; lia.
  - destruct (Z.ltb_spec iA 0) as [Ha|Ha]; [|apply Hyes; lia].
    rewrite (Hs (iA + 9223372036854775807)) by lia. cbn [mbind option_bind].
    rewrite (Hs (- (iA + 9223372036854775807))) by lia. cbn [mbind option_bind].
    rewrite (Hs (iB + 1)) by lia. cbn [mbind option_bind].
    destruct (Z.ltb_spec (iB + 1) (- (iA + 9223372036854775807))); [apply Hno|apply Hyes]; lia.
Qed.

Lemma SubInt64_ok iA iB : in_i64 iA = true -> in_i64 iB = true -> sqlite3SubInt64 iA iB = checked iA (iA - iB).
Proof.
  intros HA HB. pose proof (proj1 (in_i64_spec _) HA) as RA. pose proof (proj1 (in_i64_spec _) HB) as RB.
  unfold sqlite3SubInt64. change SMALLEST_INT64 with (-9223372036854775808) in *.
  change LARGEST_INT64 with 9223372036854775807 in *.
  destruct (Z.eqb_spec iB (-9223372036854775808)) as [->|Hne].
  - unfold checked. destruct (Z.leb_spec 0 iA).
    + destruct (in_i64 (iA - -9223372036854775808)) eqn:E; [|done]. apply in_i64_spec in E. i64.
    + rewrite s64_in by i64.
      cbn [mbind option_bind]. rewrite (proj2 (in_i64_spec _)); [done|].
      i64.
  - rewrite s64_in by i64.
    cbn [mbind option_bind]. rewrite AddInt64_ok; [by rewrite Z.add_opp_r|done|].
    apply in_i64_spec. i64.
Qed.

Lemma MulInt64_ok iA iB : in_i64 iA = true -> in_i64 iB = true -> sqlite3MulInt64 iA iB = checked iA (iA * iB).
Proof.
  intros HA HB. pose proof (proj1 (in_i64_spec _) HA) as RA. pose proof (proj1 (in_i64_spec _) HB) as RB.
  assert (Hyes : SMALLEST_INT64 <= iA * iB <= LARGEST_INT64 ->
    (r ← s64 (iA * iB); Some (r, 0)) = checked iA (iA * iB)).
  { intros H. rewrite s64_in by done. unfold checked. by rewrite (proj2 (in_i64_spec _)). }
  assert (Hno : ~ (SMALLEST_INT64 <= iA * iB <= LARGEST_INT64) -> Some (iA, 1) = checked iA (iA * iB)).
  { intros H. unfold checked. destruct (in_i64 (iA * iB)) eqn:E; [|done]. by apply in_i64_spec in E. }
  set (P := checked iA (iA * iB)) in *. clearbody P.
  unfold sqlite3MulInt64, div64. change SMALLEST_INT64 with (-9223372036854775808) in *.
  change LARGEST_INT64 with 9223372036854775807 in *.
  assert (Hs : forall x, -9223372036854775808 <= x <= 9223372036854775807 -> s64 x = Some x) by (apply s64_in).
  destruct (Z.ltb_spec 0 iB) as [Hb|Hb].
  - destruct (Z.eqb_spec iB 0); [lia|].
    pose proof (Z.quot_rem' 9223372036854775807 iB) as Q1.
    pose proof (Z.rem_bound_pos 9223372036854775807 iB ltac:(lia) Hb) as R1.
    pose proof (Z.quot_rem' (-9223372036854775808) iB) as Q2.
    pose proof (Z.rem_bound_pos_neg (-9223372036854775808) iB Hb ltac:(lia)) as R2.
    set (q1 := Z.quot 9223372036854775807 iB) in *. set (q2 := Z.quot (-9223372036854775808) iB) in *.
    rewrite (Hs q1) by nia. cbn [mbind option_bind].
    destruct (Z.ltb_spec q1 iA); cbn [mbind option_bind]; [apply Hno; nia|].
    rewrite (Hs q2) by nia. cbn [mbind option_bind].
    destruct (Z.ltb_spec iA q2); [apply Hno; nia|apply Hyes; nia].
  - destruct (Z.ltb_spec iB 0) as [Hb'|]; [|apply Hyes; nia].
    destruct (Z.ltb_spec 0 iA) as [Ha|Ha].
    + destruct (Z.eqb_spec iA 0); [lia|].
      pose proof (Z.quot_rem' (-9223372036854775808) iA) as Q2.
      pose proof (Z.rem_bound_pos_neg (-9223372036854775808) iA Ha ltac:(lia)) as R2.
      set (q2 := Z.quot (-9223372036854775808) iA) in *.
      rewrite (Hs q2) by nia. cbn [mbind option_bind].
      destruct (Z.ltb_spec iB q2); [apply Hno; nia|apply Hyes; nia].
    + destruct (Z.ltb_spec iA 0) as [Ha'|]; [|cbn; apply Hyes; nia].
      destruct (Z.eqb_spec iB (-9223372036854775808)) as [->|]; [apply Hno; nia|].
      destruct (Z.eqb_spec iA (-9223372036854775808)) as [->|]; [apply Hno; nia|].
      rewrite (Hs (- iA)), (Hs (- iB)) by lia. cbn [mbind option_bind].
      destruct (Z.eqb_spec (- iB) 0); [lia|].
      pose proof (Z.quot_rem' 9223372036854775807 (- iB)) as Q1.
      pose proof (Z.rem_bound_pos 9223372036854775807 (- iB) ltac:(lia) ltac:(lia)) as R1.
      set (q1 := Z.quot 9223372036854775807 (- iB)) in *.
      rewrite (Hs q1) by nia. cbn [mbind option_bind].
      destruct (Z.ltb_spec q1 (- iA)); [apply Hno; nia|apply Hyes; nia].
Qed.

(** ** Parsing *)

Definition digits (l : bytes) : Prop := Forall (fun c => 48 <= c <= 57) l.
Definition dec_val (v : Z) (l : bytes) : Z := fold_left (fun v c => v * 10 + (c - 48)) l v.
(** The text after the digits. *)
Definition stops (r : bytes) : Prop := exists c r', r = c :: r' /\ ~ (48 <= c <= 57).

Lemma dec_val_range l v :
  digits l -> 0 <= v -> v * 10 ^ blen l <= dec_val v l < (v + 1) * 10 ^ blen l.
Proof.
  intros H. revert v. induction H as [|c l Hc _ IH]; intros v Hv; cbn [dec_val fold_left].
  - change (blen []) with 0. lia.
  - replace (blen (c :: l)) with (blen l + 1) by (unfold blen; cbn [length]; lia).
    pose proof (blen_nonneg l). rewrite Z.pow_add_r by lia. change (10 ^ 1) with 10.
    specialize (IH (v * 10 + (c - 48)) ltac:(lia)). unfold dec_val in IH.
    assert (0 < 10 ^ blen l) by (by apply Z.pow_pos_nonneg). nia.
Qed.

Lemma skip_zeros_ok p k r fuel c :
  (k < fuel)%nat -> c <> 48 -> skip_zeros fuel (p ++ replicate k 48 ++ c :: r) (blen p) = Some (blen p + Z.of_nat k).
Proof.
  revert p fuel. induction k as [|k IH]; intros p [|fuel] Hf Hc; try lia; cbn [skip_zeros replicate app];
    rewrite bget_mid by done; cbn [mbind option_bind].
  - destruct (Z.eqb_spec c 48); [done|]. f_equal. lia.
  - rewrite Z.eqb_refl.
    replace (p ++ 48 :: replicate k 48 ++ c :: r) with ((p ++ [48]) ++ replicate k 48 ++ c :: r) by (by rewrite <- app_assoc).
    replace (blen p + 1) with (blen (p ++ [48])) by (by rewrite blen_snoc).
    rewrite IH by (done || lia). rewrite blen_snoc. f_equal. lia.
Qed.

Lemma dec_loop_ok n p ds r zNum i v :
  digits ds -> stops r -> blen p = zNum + i ->
  dec_loop n (p ++ ds ++ r) zNum i v = Some (dec_val v (take n ds), i + Z.of_nat (Nat.min n (length ds))).
Proof.
  intros Hd (c & r' & -> & Hc). revert p i v Hd. induction n as [|n IH] in ds |- *; intros p i v Hd Hp; cbn [dec_loop].
  { cbn. by rewrite Z.add_0_r. }
  destruct Hd as [|x ds Hx Hd]; cbn [app].
  - rewrite bget_mid by lia. cbn [mbind option_bind].
    destruct (Z.leb_spec 0 (c - 48)), (Z.leb_spec (c - 48) 9); try lia; cbn; by rewrite Z.add_0_r.
  - rewrite bget_mid by lia. cbn [mbind option_bind].
    destruct (Z.leb_spec 0 (x - 48)), (Z.leb_spec (x - 48) 9); try lia. cbn [andb].
    replace (p ++ x :: ds ++ c :: r') with ((p ++ [x]) ++ ds ++ c :: r') by (by rewrite <- app_assoc).
    rewrite IH by (done || rewrite blen_snoc; lia). cbn [take dec_val fold_left length Nat.min].
    do 2 f_equal. lia.
Qed.

(** Zeros, digits that do not start with a zero, and something else. *)
Definition number (k : nat) (ds r : bytes) : bytes := replicate k 48 ++ ds ++ r.
Definition no_lead (ds : bytes) : Prop := match ds with c :: _ => c <> 48 | [] => True end.
Definition in_i32 (x : Z) : bool := (-(2 ^ 31) <=? x) && (x <? 2 ^ 31).

Lemma get_dec_ok p k ds r neg :
  digits ds -> no_lead ds -> stops r -> (k <> 0%nat \/ ds <> []) ->
  get_dec (p ++ number k ds r) (blen p) neg =
  let v := if neg then - dec_val 0 ds else dec_val 0 ds in Some (if in_i32 v then Some v else None).
Proof.
  intros Hd Hn Hr Hne. unfold get_dec, number. pose proof Hr as (c & r' & -> & Hc).
  assert (exists x l, ds ++ c :: r' = x :: l /\ x <> 48) as (x & l & El & Hx).
  { destruct ds as [|y ds]; cbn; eexists _, _; split; try reflexivity; [lia|exact Hn]. }
  assert (Hfirst : exists y, bget (p ++ replicate k 48 ++ ds ++ c :: r') (blen p) = Some y /\ 48 <= y <= 57).
  { destruct k as [|k]; cbn [replicate app].
    - destruct ds as [|y ds]; [by destruct Hne|]. exists y. inversion_clear Hd. cbn [app]. by rewrite bget_mid.
    - exists 48. rewrite bget_mid by done. split; [done|lia]. }
  destruct Hfirst as (y & -> & Hy). cbn [mbind option_bind]. unfold sqlite3Isdigit.
  destruct (Z.leb_spec 48 y), (Z.leb_spec y 57); try lia. cbn [andb negb].
  assert (Hskip : skip_zeros (S (length (p ++ replicate k 48 ++ ds ++ c :: r'))) (p ++ replicate k 48 ++ ds ++ c :: r')
      (blen p) = Some (blen p + Z.of_nat k)).
  { rewrite El. apply skip_zeros_ok; [rewrite !length_app, length_replicate; lia|done]. }
  rewrite Hskip. cbn [mbind option_bind].
  assert (Hp : blen (p ++ replicate k 48) = blen p + Z.of_nat k + 0).
  { unfold blen. rewrite length_app, length_replicate. lia. }
  rewrite app_assoc. rewrite (dec_loop_ok 11 _ ds (c :: r') _ _ _ Hd Hr Hp). cbn [mbind option_bind].
  pose proof (dec_val_range ds 0 Hd ltac:(lia)) as Hv.
  assert (Hlen : blen ds = Z.of_nat (length ds)) by done.
  destruct (Nat.le_gt_cases (length ds) 10) as [Hl|Hl].
  - rewrite take_ge by lia. rewrite Nat.min_r by lia.
    destruct (Z.ltb_spec 10 (0 + Z.of_nat (length ds))); [lia|].
    assert (10 ^ blen ds <= 10 ^ 10) by (apply Z.pow_le_mono_r; lia).
    set (v := dec_val 0 ds) in *. f_equal. unfold in_i32, i32, sext.
    destruct neg.
    + destruct (Z.ltb_spec 2147483647 (v - 1)), (Z.leb_spec (-(2 ^ 31)) (- v)), (Z.ltb_spec (- v) (2 ^ 31)); try lia; cbn [andb]; try done.
      f_equal. rewrite Z.mod_small; lia.
    + destruct (Z.ltb_spec 2147483647 (v - 0)), (Z.leb_spec (-(2 ^ 31)) v), (Z.ltb_spec v (2 ^ 31)); try lia; cbn [andb]; try done.
      f_equal. rewrite Z.mod_small; lia.
  - destruct (Z.ltb_spec 10 (0 + Z.of_nat (Nat.min 11 (length ds)))); [|lia]. f_equal.
    assert (2 ^ 31 < dec_val 0 ds).
    { destruct ds as [|z ds]; [cbn in Hl; lia|]. inversion_clear Hd as [|? ? Hz Hd']. cbn in Hn.
      change (dec_val 0 (z :: ds)) with (dec_val (0 * 10 + (z - 48)) ds).
      pose proof (dec_val_range ds (0 * 10 + (z - 48)) Hd' ltac:(lia)) as Hv'.
      assert (10 ^ 10 <= 10 ^ blen ds) by (apply Z.pow_le_mono_r; unfold blen; cbn [length] in *; lia).
      nia. }
    unfold in_i32. destruct neg.
    + destruct (Z.leb_spec (-(2 ^ 31)) (- dec_val 0 ds)); [lia|done].
    + destruct (Z.ltb_spec (dec_val 0 ds) (2 ^ 31)); [lia|]. by rewrite andb_false_r.
Qed.

(** *** Signs and hexadecimal numbers *)

(** The sign characters of a number. *)
Definition sign_text (sg : option bool) : bytes :=
  match sg with None => [] | Some true => [45] | Some false => [43] end.
Definition is_neg (sg : option bool) : bool := match sg with Some true => true | _ => false end.

(** The text after the digits does not make a hexadecimal number. *)
Definition not_hex (r : bytes) : Prop := match r with c :: _ => c <> 120 /\ c <> 88 | [] => True end.

Lemma GetInt32_dec sg k ds r :
  digits ds -> no_lead ds -> stops r -> (k <> 0%nat \/ ds <> []) -> not_hex r ->
  sqlite3GetInt32 (sign_text sg ++ number k ds r) =
  let v := if is_neg sg then - dec_val 0 ds else dec_val 0 ds in Some (if in_i32 v then Some v else None).
Proof.
  intros Hd Hn Hr Hne Hx.
  pose proof (get_dec_ok [] k ds r false Hd Hn Hr Hne) as G0.
  unfold sqlite3GetInt32. destruct sg as [[]|]; cbn [sign_text app is_neg].
  - change (bget (45 :: number k ds r) 0) with (bget ([] ++ 45 :: number k ds r) 0).
    rewrite bget_mid by done. cbn [mbind option_bind Z.eqb]. apply (get_dec_ok [45] k ds r true); done.
  - change (bget (43 :: number k ds r) 0) with (bget ([] ++ 43 :: number k ds r) 0).
    rewrite bget_mid by done. cbn [mbind option_bind Z.eqb]. apply (get_dec_ok [43] k ds r false); done.
  - cbn [app] in G0. change (blen []) with 0 in G0.
    destruct Hr as (c & r' & -> & Hc). unfold number in *.
    assert (Hdig : forall y l, bget (y :: l) 0 = Some y) by (intros y l; by apply (bget_mid [])).
    assert (Hdig1 : forall x y l, bget (x :: y :: l) 1 = Some y) by (intros x y l; by apply (bget_mid [x])).
    destruct k as [|[|k]]; cbn [replicate app] in *.
    + destruct ds as [|y ds]; [by destruct Hne|]. cbn [app] in *. rewrite Hdig. cbn [mbind option_bind].
      inversion_clear Hd as [|? ? Hy _]. cbn in Hn.
      destruct (Z.eqb_spec y 45), (Z.eqb_spec y 43), (Z.eqb_spec y 48); try lia. cbn [mbind option_bind]. exact G0.
    + rewrite Hdig. cbn [mbind option_bind Z.eqb Pos.eqb]. destruct ds as [|y ds]; cbn [app] in *; rewrite Hdig1.
      * cbn [mbind option_bind]. destruct Hx as [Hx1 Hx2].
        by destruct (Z.eqb_spec c 120), (Z.eqb_spec c 88).
      * cbn [mbind option_bind]. inversion_clear Hd as [|? ? Hy _].
        destruct (Z.eqb_spec y 120), (Z.eqb_spec y 88); try lia. cbn [orb mbind option_bind]. exact G0.
    + rewrite Hdig. cbn [mbind option_bind Z.eqb Pos.eqb]. rewrite Hdig1.
      cbn [mbind option_bind Z.eqb Pos.eqb orb]. exact G0.
Qed.

(** ** Properties *)

(** comparing two strings stops at their ends or before, and is a total
    preorder in which two strings are equivalent when they are equal but for
    the case of ASCII letters; the bounded comparison is that of the
    prefixes. *)
Theorem sqlite3StrICmp_correct zs zt zu s t u :
  cstr zs s -> cstr zt t -> cstr zu u ->
  exists rst rts rtu rsu, sqlite3StrICmp zs zt = Some rst /\ sqlite3StrICmp zt zs = Some rts /\
    sqlite3StrICmp zt zu = Some rtu /\ sqlite3StrICmp zs zu = Some rsu /\
    (rst = 0 <-> map lower s = map lower t) /\ rts = - rst /\
    (rst <= 0 -> rtu <= 0 -> rsu <= 0) /\
    (forall N, sqlite3_strnicmp (Some zs) (Some zt) N
       = Some (cmp_fold (take (Z.to_nat N) s) (take (Z.to_nat N) t))) /\
    (forall N, Z.of_nat (length s) <= N -> Z.of_nat (length t) <= N ->
       sqlite3_strnicmp (Some zs) (Some zt) N = Some rst).
Proof.
  intros Hs Ht Hu. exists (cmp_fold s t), (cmp_fold t s), (cmp_fold t u), (cmp_fold s u).
  rewrite !(StrICmp_ok _ _ _ _ Hs), !(StrICmp_ok _ _ _ _ Ht) by done.
  destruct Hs as [Cs Rs], Ht as [Ct Rt], Hu as [Cu Ru].
  split_and!; try done; [by apply cmp_fold_zero|apply cmp_fold_anti|by apply cmp_fold_trans|..]; intros N.
  - by apply strnicmp_ok.
  - intros H1 H2. rewrite (strnicmp_ok zs zt s t N) by done. by rewrite !take_ge by lia.
Qed.

(** "Wal" and "wAL" against "was". *)
Lemma sqlite3StrICmp_correct_witness :
  exists r, sqlite3StrICmp [87; 97; 108; 0] [119; 65; 76; 0; 5] = Some r /\ r = 0.
Proof.
  assert (C : forall a b c r, 0 < a < 256 -> 0 < b < 256 -> 0 < c < 256 -> cstr (a :: b :: c :: 0 :: r) [a; b; c]).
  { intros a b c r Ha Hb Hc. split; [do 3 (apply Forall_cons_2; [lia|]); apply Forall_nil_2|by exists r]. }
  destruct (sqlite3StrICmp_correct [87; 97; 108; 0] [119; 65; 76; 0; 5] [119; 97; 115; 0] [87; 97; 108] [119; 65; 76] [119; 97; 115])
    as (r & _ & _ & _ & E & _ & _ & _ & H & _); [apply C; lia..|].
  exists r. split; [exact E|]. by apply H.
Defined.

(** C40: the checked operations on 64-bit integers perform no undefined
    operation, give the exact result with 0 when it fits in 64 bits, and
    leave the operand with 1 exactly when it does not. *)
Theorem int64_arithmetic_correct iA iB :
  in_i64 iA = true -> in_i64 iB = true ->
  sqlite3AddInt64 iA iB = checked iA (iA + iB) /\
  sqlite3SubInt64 iA iB = checked iA (iA - iB) /\
  sqlite3MulInt64 iA iB = checked iA (iA * iB).
Proof. intros HA HB. split_and!; [by apply AddInt64_ok|by apply SubInt64_ok|by apply MulInt64_ok]. Qed.

Lemma int64_arithmetic_correct_witness :
  sqlite3AddInt64 SMALLEST_INT64 (-1) = Some (SMALLEST_INT64, 1) /\
  sqlite3SubInt64 (-1) SMALLEST_INT64 = Some (LARGEST_INT64, 0).
Proof.
  destruct (int64_arithmetic_correct SMALLEST_INT64 (-1)) as (H1 & _); [done..|].
  destruct (int64_arithmetic_correct (-1) SMALLEST_INT64) as (_ & H2 & _); [done..|].
  rewrite H1, H2. split; reflexivity.
Defined.

(** Parsing a decimal number, with any sign and leading zeros and whatever
    follows its digits, gives its value when that fits in 32 bits and reports
    failure when it does not, however many digits there are. *)
Theorem sqlite3GetInt32_correct sg k ds r :
  digits ds -> no_lead ds -> stops r -> not_hex r -> (k <> 0%nat \/ ds <> []) ->
  exists v, v = (if is_neg sg then - dec_val 0 ds else dec_val 0 ds) /\
    sqlite3GetInt32 (sign_text sg ++ number k ds r)
    = Some (if decide (- 2 ^ 31 <= v < 2 ^ 31) then Some v else None).
Proof.
  intros Hd Hn Hr Hx Hne. eexists. split; [reflexivity|]. rewrite GetInt32_dec by done. cbv zeta.
  set (v := if is_neg sg then - dec_val 0 ds else dec_val 0 ds). f_equal. unfold in_i32.
  destruct (Z.leb_spec (-(2 ^ 31)) v), (Z.ltb_spec v (2 ^ 31)); cbn [andb]; case_decide; (done || lia).
Qed.

(** "-002147483648kB" *)
Lemma sqlite3GetInt32_correct_witness :
  sqlite3GetInt32 [45; 48; 48; 50; 49; 52; 55; 52; 56; 51; 54; 52; 56; 107; 66; 0] = Some (Some (-2147483648)).
Proof.
  destruct (sqlite3GetInt32_correct (Some true) 2 [50; 49; 52; 55; 52; 56; 51; 54; 52; 56] [107; 66; 0])
    as (v & Ev & E).
  - repeat constructor; lia.
  - done.
  - exists 107, [66; 0]. split; [done|lia].
  - done.
  - by left.
  - vm_compute in Ev. rewrite Ev in E. exact E.
Defined.
