(* ===== verification/Busy.v ===== *)
(** * Busy handlers ([src/src/btreelite_compat.c])

    A connection that finds a lock taken asks its busy handler whether to try
    again; the default handler sleeps, a little longer each time, until a
    timeout.  The sleeps are recorded, in microseconds; the [int] arithmetic of
    the handler is that of the source, where an overflow is undefined. *)
From S2P Require Import Prelude Bits Bytes.

(** ** Definitions *)

Inductive busy_callback : Type := default_busy | user_busy.

Record BusyHandler : Type := mkBusy { xBusyHandler : option busy_callback; nBusy : Z }.
Record busydb : Type := mkDb { busyHandler : BusyHandler; busyTimeout : Z; slept : list Z }.

Definition set_nBusy (n : Z) (db : busydb) : busydb :=
  mkDb (mkBusy (xBusyHandler (busyHandler db)) n) (busyTimeout db) (slept db).
Definition sqlite3OsSleep (us : Z) : M busydb unit :=
  modify (fun db => mkDb (busyHandler db) (busyTimeout db) (us :: slept db)).

(** An [int] result. *)
Definition s32 (x : Z) : option Z := if (-(2 ^ 31) <=? x) && (x <? 2 ^ 31) then Some x else None.

Definition delays : list Z := [1; 2; 5; 10; 15; 20; 25; 25; 25; 50; 50; 100].
Definition totals : list Z := [0; 1; 3; 8; 18; 33; 53; 78; 103; 128; 178; 228].
Definition NDELAY : Z := 12.

Definition sqliteDefaultBusyCallback (count : Z) : M busydb Z :=
  let* tmout := gets busyTimeout in
  let* dp := lift (if count <? NDELAY then
                     d ← bget delays count; p ← bget totals count; Some (d, p)
                   else
                     d ← bget delays (NDELAY - 1);
                     t ← bget totals (NDELAY - 1);
                     m ← s32 (d * (count - (NDELAY - 1)));
                     p ← s32 (t + m);
                     Some (d, p)) in
  let '(delay, prior) := dp in
  let* s := lift (s32 (prior + delay)) in
  if tmout <? s then
    let* delay := lift (s32 (tmout - prior)) in
    if delay <=? 0 then ret 0
    else
      let* us := lift (s32 (delay * 1000)) in
      sqlite3OsSleep us ;;* ret 1
  else
    let* us := lift (s32 (delay * 1000)) in
    sqlite3OsSleep us ;;* ret 1.

Section Code.
(** The callback of an application. *)
Variable user : Z -> Z.

Definition sqlite3InvokeBusyHandler : M busydb Z :=
  let* p := gets busyHandler in
  match xBusyHandler p with
  | None => ret 0
  | Some f =>
      if nBusy p <? 0 then ret 0
      else
        let* rc := (match f with
                    | default_busy => sqliteDefaultBusyCallback (nBusy p)
                    | user_busy => ret (user (nBusy p))
                    end) in
        if rc =? 0 then modify (set_nBusy (-1)) ;;* ret rc
        else let* n := lift (s32 (nBusy p + 1)) in modify (set_nBusy n) ;;* ret rc
  end.

Definition sqlite3_busy_handler (xBusy : option busy_callback) : M busydb Z :=
  modify (fun db => mkDb (mkBusy xBusy 0) 0 (slept db)) ;;* ret 0.
Definition sqlite3_busy_timeout (ms : Z) : M busydb Z :=
  (if 0 <? ms then
     let* _ := sqlite3_busy_handler (Some default_busy) in
     modify (fun db => mkDb (busyHandler db) ms (slept db))
   else let* _ := sqlite3_busy_handler None in ret tt) ;;*
  ret 0.

(** A caller that asks again until it is refused: how often it was not. *)
Fixpoint wait (fuel : nat) : M busydb Z :=
  match fuel with
  | O => undef
  | S fuel =>
      let* rc := sqlite3InvokeBusyHandler in
      if rc =? 0 then ret 0 else let* k := wait fuel in ret (k + 1)
  end.
End Code.

(** ** The default handler *)

(** Milliseconds slept before the call for [count], and at it. *)
Definition prior (count : Z) : Z :=
  if count <? NDELAY then bat totals count else 228 + 100 * (count - 11).
Definition delay (count : Z) : Z := if count <? NDELAY then bat delays count else 100.

Lemma delay_range count : 0 <= count -> 1 <= delay count <= 100 /\ prior (count + 1) = prior count + delay count.
Proof.
  intros Hc. unfold delay, prior, NDELAY. destruct (Z.ltb_spec count 12) as [H|H].
  - assert (Hall : forallb (fun c => (1 <=? bat delays c) && (bat delays c <=? 100)
      && ((if c + 1 <? 12 then bat totals (c + 1) else 228 + 100 * (c + 1 - 11)) =? bat totals c + bat delays c))
      (seqZ 0 12) = true) by (by vm_compute).
    rewrite forallb_forall in Hall. specialize (Hall count).
    rewrite <- list_elem_of_In, elem_of_seqZ in Hall. specialize (Hall ltac:(lia)).
    rewrite !andb_true_iff, !Z.leb_le, Z.eqb_eq in Hall. lia.
  - destruct (Z.ltb_spec (count + 1) 12); lia.
Qed.
Lemma prior_range count : 0 <= count -> count <= prior count.
Proof.
  intros Hc. replace count with (Z.of_nat (Z.to_nat count)) by lia. generalize (Z.to_nat count). clear.
  induction n as [|n IH]; [done|]. pose proof (delay_range (Z.of_nat n) ltac:(lia)).
  replace (Z.of_nat (S n)) with (Z.of_nat n + 1) by lia. lia.
Qed.

(** The largest timeout for which the sums of the handler fit. *)
Definition MAX_TIMEOUT : Z := 2 ^ 31 - 201.

Lemma s32_in x : - 2 ^ 31 <= x < 2 ^ 31 -> s32 x = Some x.
Proof. unfold s32. intros H. destruct (Z.leb_spec (-(2 ^ 31)) x), (Z.ltb_spec x (2 ^ 31)); (done || lia). Qed.

Definition total (l : list Z) : Z := fold_right Z.add 0 l.
Lemma slept_cons x l : total (x :: l) = x + total l.
Proof. done. Qed.

Lemma default_ok count db :
  0 <= count -> 0 < busyTimeout db <= MAX_TIMEOUT -> prior count <= busyTimeout db + 100 ->
  wp (sqliteDefaultBusyCallback count) (returns (fun rc db' =>
    busyHandler db' = busyHandler db /\ busyTimeout db' = busyTimeout db /\
    (if prior count <? busyTimeout db
     then rc = 1 /\ total (slept db') = total (slept db) + 1000 * Z.min (delay count) (busyTimeout db - prior count)
     else rc = 0 /\ slept db' = slept db))) db.
Proof.
  intros Hc Ht Hp. unfold MAX_TIMEOUT in Ht. pose proof (delay_range count Hc) as [Hd _].
  pose proof (prior_range count Hc) as Hpr.
  unfold sqliteDefaultBusyCallback. do 2 wp_step. unfold after at 1.
  assert (E : (if count <? NDELAY then
                     d ← bget delays count; p ← bget totals count; Some (d, p)
                   else
                     d ← bget delays (NDELAY - 1);
                     t ← bget totals (NDELAY - 1);
                     m ← s32 (d * (count - (NDELAY - 1)));
                     p ← s32 (t + m);
                     Some (d, p)) = Some (delay count, prior count)).
  { revert Hp Hpr. unfold delay, prior. destruct (Z.ltb_spec count NDELAY) as [H|H]; intros Hp Hpr; unfold NDELAY in *.
    - rewrite !bget_in by (unfold blen; cbn [length delays totals]; lia). done.
    - change (bget delays (12 - 1)) with (Some 100). change (bget totals (12 - 1)) with (Some 228).
      cbn [mbind option_bind]. change (12 - 1) with 11. rewrite s32_in by lia. cbn [mbind option_bind].
      rewrite s32_in by lia. done. }
  rewrite E. clear E. do 2 wp_step. unfold after at 1. rewrite (s32_in (prior count + delay count)) by lia.
  do 2 wp_step. unfold after at 1. unfold sqlite3OsSleep.
  destruct (Z.ltb_spec (busyTimeout db) (prior count + delay count)).
  - rewrite (s32_in (busyTimeout db - prior count)) by lia. do 2 wp_step. unfold after at 1.
    destruct (Z.ltb_spec (prior count) (busyTimeout db)), (Z.leb_spec (busyTimeout db - prior count) 0); try lia.
    + rewrite s32_in by lia. wp_go. split_and!; try done. cbn [slept]. rewrite slept_cons. lia.
    + wp_go. cbn. done.
  - destruct (Z.ltb_spec (prior count) (busyTimeout db)); [|lia].
    rewrite s32_in by lia. wp_go. split_and!; try done. cbn [slept]. rewrite slept_cons. lia.
Qed.

(** The state after some calls: [count] of them have slept. *)
Definition waiting (db : busydb) : Prop :=
  xBusyHandler (busyHandler db) = Some default_busy /\ 0 < busyTimeout db <= MAX_TIMEOUT /\
  0 <= nBusy (busyHandler db) /\ prior (nBusy (busyHandler db)) <= busyTimeout db + 100.

Lemma invoke_ok user db :
  waiting db ->
  wp (sqlite3InvokeBusyHandler user) (returns (fun rc db' =>
    let p := prior (nBusy (busyHandler db)) in
    busyTimeout db' = busyTimeout db /\
    (if p <? busyTimeout db
     then rc = 1 /\ waiting db' /\ nBusy (busyHandler db') = nBusy (busyHandler db) + 1 /\
          total (slept db') = total (slept db) + 1000 * Z.min (delay (nBusy (busyHandler db))) (busyTimeout db - p)
     else rc = 0 /\ nBusy (busyHandler db') = -1 /\ slept db' = slept db))) db.
Proof.
  intros (Hx & Ht & Hn & Hp). unfold sqlite3InvokeBusyHandler. do 2 wp_step. unfold after at 1. rewrite Hx.
  destruct (Z.ltb_spec (nBusy (busyHandler db)) 0); [lia|].
  eapply wp_seq; [apply default_ok; assumption|]. intros rc db' (Hh & Hb & Hrc).
  pose proof (delay_range _ Hn) as [Hd Hnext]. pose proof (prior_range _ Hn).
  destruct (Z.ltb_spec (prior (nBusy (busyHandler db))) (busyTimeout db)) as [Hlt|Hge]; destruct Hrc as [-> Hs]; cbn [Z.eqb].
  - unfold MAX_TIMEOUT in Ht. rewrite s32_in by lia. wp_go. unfold waiting, set_nBusy, MAX_TIMEOUT. cbn [busyHandler busyTimeout slept xBusyHandler nBusy].
    rewrite Hh, Hb. split_and!; try done; cbn [busyHandler busyTimeout slept xBusyHandler nBusy]; lia.
  - wp_go. done.
Qed.

Lemma wait_ok user fuel db :
  waiting db -> Z.max 0 (busyTimeout db - prior (nBusy (busyHandler db))) < Z.of_nat fuel ->
  wp (wait user fuel) (returns (fun k db' =>
    0 <= k < Z.of_nat fuel /\ nBusy (busyHandler db') = -1 /\
    total (slept db') = total (slept db) +
      1000 * Z.max 0 (busyTimeout db - prior (nBusy (busyHandler db))))) db.
Proof.
  revert db. induction fuel as [|fuel IH]; intros db Hw Hf; [lia|]. cbn [wait].
  pose proof Hw as (_ & _ & Hn & _). pose proof (delay_range _ Hn) as [Hd Hnext].
  eapply wp_seq; [by apply invoke_ok|]. cbn beta zeta. intros rc db' [Hb Hrc].
  destruct (Z.ltb_spec (prior (nBusy (busyHandler db))) (busyTimeout db)).
  - destruct Hrc as (-> & Hw' & Hn' & Hs). cbn [Z.eqb].
    eapply wp_seq; [apply (IH db' Hw'); rewrite Hb, Hn', Hnext; lia|].
    cbn beta. rewrite Hb, Hn', Hnext. intros k db2 (Hk & Hm & Ht). rewrite Hs in Ht. wp_go. split_and!; (done || lia).
  - destruct Hrc as (-> & Hm & Hs). cbn [Z.eqb]. wp_go. cbn [fst snd okp returns ret]. rewrite Hs. split_and!; (done || lia).
Qed.

Lemma timeout_ok ms db0 :
  0 < ms <= MAX_TIMEOUT ->
  wp (sqlite3_busy_timeout ms) (returns (fun _ db =>
    waiting db /\ nBusy (busyHandler db) = 0 /\ busyTimeout db = ms /\ slept db = slept db0)) db0.
Proof.
  intros Hms. unfold sqlite3_busy_timeout. rewrite (proj2 (Z.ltb_lt 0 ms)) by lia.
  unfold sqlite3_busy_handler, waiting. wp_go. cbn [okp returns busyHandler busyTimeout nBusy slept xBusyHandler].
  change (prior 0) with 0. split_and!; (done || lia).
Qed.

(** Once refused, a connection is refused at once. *)
Lemma refused_ok user db :
  nBusy (busyHandler db) = -1 ->
  wp (sqlite3InvokeBusyHandler user) (returns (fun rc db' => rc = 0 /\ db' = db)) db.
Proof.
  intros Hn. unfold sqlite3InvokeBusyHandler. do 2 wp_step. unfold after. rewrite Hn.
  destruct (xBusyHandler (busyHandler db)); by wp_go.
Qed.

(** Beyond [MAX_TIMEOUT] the sum of the handler leaves the range of [int]
    before the timeout is reached: the behaviour is undefined. *)
Lemma busy_timeout_overflow :
  sqliteDefaultBusyCallback 21474845 (mkDb (mkBusy (Some default_busy) 21474845) (2 ^ 31 - 1) []) =
  (Undef, mkDb (mkBusy (Some default_busy) 21474845) (2 ^ 31 - 1) []).
Proof. by vm_compute. Qed.

(** C39: a connection with a timeout of [ms] milliseconds that finds a lock
    taken waits for it and gives up: for any timeout for which the arithmetic
    of the handler does not overflow, its requests are refused after at most
    [ms] retries, having slept for exactly [ms] milliseconds in all, and from
    then on at once and without sleeping, until the handler is installed again. *)
Theorem busy_timeout_gives_up (user : Z -> Z) (db0 : busydb) (ms : Z) (Hms : 0 < ms <= MAX_TIMEOUT) :
  wp (let* _ := sqlite3_busy_timeout ms in
      let* k := wait user (S (Z.to_nat ms)) in
      let* s := gets slept in
      let* rc := sqlite3InvokeBusyHandler user in
      ret (k, s, rc))
     (returns (fun '(k, s, rc) db =>
        0 <= k <= ms /\ total s = total (slept db0) + 1000 * ms /\ rc = 0 /\ slept db = s /\
        nBusy (busyHandler db) = -1)) db0.
Proof.
  eapply wp_seq; [by apply timeout_ok|]. intros _ db (Hw & Hn & Hb & Hs).
  eapply wp_seq; [apply wait_ok; [done|]; rewrite Hn, Hb; change (prior 0) with 0; lia|].
  cbn beta. rewrite Hn, Hb, Hs. change (prior 0) with 0. intros k db1 (Hk & Hn1 & Hs1).
  do 2 wp_step. unfold after. eapply wp_seq; [by apply refused_ok|]. intros rc db2 [-> ->].
  wp_go. cbn [fst snd okp returns ret]. split_and!; (done || lia).
Qed.

Lemma busy_timeout_gives_up_witness :
  wp (let* _ := sqlite3_busy_timeout 30 in
      let* k := wait (fun _ => 0) (S (Z.to_nat 30)) in
      let* s := gets slept in
      let* rc := sqlite3InvokeBusyHandler (fun _ => 0) in
      ret (k, s, rc))
     (returns (fun '(k, s, rc) db =>
        0 <= k <= 30 /\ total s = total [] + 1000 * 30 /\ rc = 0 /\ slept db = s /\
        nBusy (busyHandler db) = -1)) (mkDb (mkBusy None 0) 0 []).
Proof. apply (busy_timeout_gives_up (fun _ => 0) (mkDb (mkBusy None 0) 0 []) 30). unfold MAX_TIMEOUT; lia. Defined.
