(* ===== verification/Jrnl.v ===== *)
(** * The rollback journal ([src/src/pager.c])

    A transaction of a connection that does not use the write-ahead log: the
    pages it changes are first copied to the journal, the journal is synced,
    then the database file is written; the commit makes the journal invalid.
    This file has the functions of [pager.c] from [sqlite3PagerBegin] to
    [sqlite3PagerCommitPhaseTwo], [sqlite3PagerRollback] and the playback of a
    journal.

    The files.  A file is what the disk holds for certain ([f_disk]) and the
    writes and truncations since the last sync ([f_pend]); after a power loss
    any of them may be missing, and a write that is not inside of one sector
    may be torn ([crash]).  Request number [n] to the operating system has the
    result [ioRc n]; a write that fails leaves [partial n] bytes.  [trail]
    records the two files after every request that changes one: the states in
    which a power loss can find them.

    The configuration of the connection does not change during a transaction
    and is a parameter.  The database is a file (not temporary, not in memory),
    there are no savepoints and no backups, memory mapping is off; journals in
    memory ([journal_mode=MEMORY]) and sectors that are larger than a page are
    not modelled ([undef]), and neither is what only auto-vacuum does: to move a
    page ([sqlite3PagerMovepage]) and to shrink the database before the commit
    ([sqlite3PagerTruncateImage]).  The page cache is a map from page
    numbers to pages with their flags; [nRefSum] is its count of references. *)
From stdpp Require Import gmap sorting.
From S2P Require Import Prelude Bits Bytes Varint Wal WalIndex WalRecover WalWrite WalFile.

(** ** Definitions *)

Definition SQLITE_ABORT : Z := 4.
Definition SQLITE_FULL : Z := 13.
Definition SQLITE_READONLY_DBMOVED : Z := Z.lor SQLITE_READONLY (Z.shiftl 4 8).

Definition SHARED_LOCK : Z := 1.
Definition RESERVED_LOCK : Z := 2.
Definition EXCLUSIVE_LOCK : Z := 4.
Definition UNKNOWN_LOCK : Z := EXCLUSIVE_LOCK + 1.

Definition PAGER_OPEN : Z := 0.
Definition PAGER_READER : Z := 1.
Definition PAGER_WRITER_LOCKED : Z := 2.
Definition PAGER_WRITER_CACHEMOD : Z := 3.
Definition PAGER_WRITER_DBMOD : Z := 4.
Definition PAGER_WRITER_FINISHED : Z := 5.
Definition PAGER_ERROR : Z := 6.

Definition PAGER_JOURNALMODE_DELETE : Z := 0.
Definition PAGER_JOURNALMODE_PERSIST : Z := 1.
Definition PAGER_JOURNALMODE_OFF : Z := 2.
Definition PAGER_JOURNALMODE_TRUNCATE : Z := 3.
Definition PAGER_JOURNALMODE_MEMORY : Z := 4.
Definition PAGER_JOURNALMODE_WAL : Z := 5.

Definition SQLITE_IOCAP_SAFE_APPEND : Z := 0x200.
Definition SQLITE_IOCAP_SEQUENTIAL : Z := 0x400.
Definition SQLITE_SYNC_NORMAL : Z := 2.
Definition SQLITE_SYNC_FULL : Z := 3.
Definition SQLITE_SYNC_DATAONLY : Z := 0x10.

Definition PAGER_GET_NOCONTENT : Z := 1.

Definition PENDING_BYTE : Z := 0x40000000.
Definition SQLITE_VERSION_NUMBER : Z := 3054000.

Definition aJournalMagic : bytes := [0xd9; 0xd5; 0x05; 0xf9; 0x20; 0xa1; 0x63; 0xd7].

(** *** Files *)

Inductive fop : Type :=
  | FWrite (off : Z) (d : bytes)
  | FTrunc (n : Z).
Definition fop_apply (d : bytes) (o : fop) : bytes :=
  match o with
  | FWrite off b => log_write d off b
  | FTrunc n => take (Z.to_nat n) (d ++ zeros (n - blen d))
  end.
Record jfile : Type := mkFile { f_disk : bytes; f_pend : list fop }.
(** The content as a process sees it. *)
Definition f_cur (f : jfile) : bytes := foldl fop_apply (f_disk f) (f_pend f).

(** *** The page cache *)

Record PgHdr : Type := mkPg {
  pData : bytes;
  dirty : bool;                    (* PGHDR_DIRTY; PGHDR_CLEAN is its negation *)
  writeable : bool;                (* PGHDR_WRITEABLE *)
  needSync : bool;                 (* PGHDR_NEED_SYNC *)
  dontWrite : bool;                (* PGHDR_DONT_WRITE *)
}.
Definition set_pData (d : bytes) (g : PgHdr) : PgHdr := mkPg d (dirty g) (writeable g) (needSync g) (dontWrite g).
Definition set_writeable (b : bool) (g : PgHdr) : PgHdr := mkPg (pData g) (dirty g) b (needSync g) (dontWrite g).
Definition set_needSync (b : bool) (g : PgHdr) : PgHdr := mkPg (pData g) (dirty g) (writeable g) b (dontWrite g).
Definition set_dontWrite (b : bool) (g : PgHdr) : PgHdr := mkPg (pData g) (dirty g) (writeable g) (needSync g) b.
Abbreviation pcache := (gmap Z PgHdr).

Definition pg_MakeDirty (g : PgHdr) : PgHdr := mkPg (pData g) true (writeable g) (needSync g) false.
Definition pg_MakeClean (g : PgHdr) : PgHdr := mkPg (pData g) false false false (dontWrite g).
Definition sqlite3PcacheMakeDirty (pgno : Z) (c : pcache) : pcache := alter pg_MakeDirty pgno c.
Definition sqlite3PcacheMakeClean (pgno : Z) (c : pcache) : pcache := alter pg_MakeClean pgno c.
Definition sqlite3PcacheCleanAll (c : pcache) : pcache := (fun g => if dirty g then pg_MakeClean g else g) <$> c.
Definition sqlite3PcacheClearSyncFlags (c : pcache) : pcache := (fun g => if dirty g then set_needSync false g else g) <$> c.
(** Pages past [pgno] are dropped.  Page 1 stays, with zeros, when pages are in
    use and all are to go. *)
Definition sqlite3PcacheTruncate (szPage nRefSum pgno : Z) (c : pcache) : pcache :=
  if (pgno =? 0) && negb (nRefSum =? 0) then
    filter (fun kv => fst kv <= 1) (alter (set_pData (zeros szPage)) 1
      ((fun g => if dirty g then pg_MakeClean g else g) <$> c))
  else filter (fun kv => fst kv <= pgno) c.
Definition sqlite3PcacheClear (szPage nRefSum : Z) (c : pcache) : pcache := sqlite3PcacheTruncate szPage nRefSum 0 c.
(** The dirty pages by ascending page number. *)
Definition sqlite3PcacheDirtyList (c : pcache) : list Z :=
  merge_sort Z.le (elements (dom (filter (fun kv => dirty (snd kv) = true) c))).

(** *** The pager *)

Record Pager : Type := mkPager {
  eState : Z;
  eLock : Z;
  errCode : Z;
  changeCountDone : bool;
  iDataVersion : Z;
  dbSize : Z;
  dbOrigSize : Z;
  dbFileSize : Z;
  dbHintSize : Z;
  mxPgno : Z;
  pageSize : Z;
  sectorSize : Z;
  nReserve : Z;
  journalOff : Z;
  journalHdr : Z;
  nRec : Z;
  cksumInit : Z;
  pInJournal : option (gset Z);
  dbFileVers : bytes;
  jOpen : bool;
  nRefSum : Z;
}.
Definition set_eState (x : Z) (p : Pager) : Pager :=
  mkPager x (eLock p) (errCode p) (changeCountDone p) (iDataVersion p) (dbSize p) (dbOrigSize p) (dbFileSize p)
    (dbHintSize p) (mxPgno p) (pageSize p) (sectorSize p) (nReserve p) (journalOff p) (journalHdr p) (nRec p)
    (cksumInit p) (pInJournal p) (dbFileVers p) (jOpen p) (nRefSum p).
Definition set_eLock (x : Z) (p : Pager) : Pager :=
  mkPager (eState p) x (errCode p) (changeCountDone p) (iDataVersion p) (dbSize p) (dbOrigSize p) (dbFileSize p)
    (dbHintSize p) (mxPgno p) (pageSize p) (sectorSize p) (nReserve p) (journalOff p) (journalHdr p) (nRec p)
    (cksumInit p) (pInJournal p) (dbFileVers p) (jOpen p) (nRefSum p).
Definition set_errCode (x : Z) (p : Pager) : Pager :=
  mkPager (eState p) (eLock p) x (changeCountDone p) (iDataVersion p) (dbSize p) (dbOrigSize p) (dbFileSize p)
    (dbHintSize p) (mxPgno p) (pageSize p) (sectorSize p) (nReserve p) (journalOff p) (journalHdr p) (nRec p)
    (cksumInit p) (pInJournal p) (dbFileVers p) (jOpen p) (nRefSum p).
Definition set_changeCountDone (x : bool) (p : Pager) : Pager :=
  mkPager (eState p) (eLock p) (errCode p) x (iDataVersion p) (dbSize p) (dbOrigSize p) (dbFileSize p)
    (dbHintSize p) (mxPgno p) (pageSize p) (sectorSize p) (nReserve p) (journalOff p) (journalHdr p) (nRec p)
    (cksumInit p) (pInJournal p) (dbFileVers p) (jOpen p) (nRefSum p).
Definition set_iDataVersion (x : Z) (p : Pager) : Pager :=
  mkPager (eState p) (eLock p) (errCode p) (changeCountDone p) x (dbSize p) (dbOrigSize p) (dbFileSize p)
    (dbHintSize p) (mxPgno p) (pageSize p) (sectorSize p) (nReserve p) (journalOff p) (journalHdr p) (nRec p)
    (cksumInit p) (pInJournal p) (dbFileVers p) (jOpen p) (nRefSum p).
Definition set_dbSize (x : Z) (p : Pager) : Pager :=
  mkPager (eState p) (eLock p) (errCode p) (changeCountDone p) (iDataVersion p) x (dbOrigSize p) (dbFileSize p)
    (dbHintSize p) (mxPgno p) (pageSize p) (sectorSize p) (nReserve p) (journalOff p) (journalHdr p) (nRec p)
    (cksumInit p) (pInJournal p) (dbFileVers p) (jOpen p) (nRefSum p).
Definition set_dbOrigSize (x : Z) (p : Pager) : Pager :=
  mkPager (eState p) (eLock p) (errCode p) (changeCountDone p) (iDataVersion p) (dbSize p) x (dbFileSize p)
    (dbHintSize p) (mxPgno p) (pageSize p) (sectorSize p) (nReserve p) (journalOff p) (journalHdr p) (nRec p)
    (cksumInit p) (pInJournal p) (dbFileVers p) (jOpen p) (nRefSum p).
Definition set_dbFileSize (x : Z) (p : Pager) : Pager :=
  mkPager (eState p) (eLock p) (errCode p) (changeCountDone p) (iDataVersion p) (dbSize p) (dbOrigSize p) x
    (dbHintSize p) (mxPgno p) (pageSize p) (sectorSize p) (nReserve p) (journalOff p) (journalHdr p) (nRec p)
    (cksumInit p) (pInJournal p) (dbFileVers p) (jOpen p) (nRefSum p).
Definition set_dbHintSize (x : Z) (p : Pager) : Pager :=
  mkPager (eState p) (eLock p) (errCode p) (changeCountDone p) (iDataVersion p) (dbSize p) (dbOrigSize p)
    (dbFileSize p) x (mxPgno p) (pageSize p) (sectorSize p) (nReserve p) (journalOff p) (journalHdr p) (nRec p)
    (cksumInit p) (pInJournal p) (dbFileVers p) (jOpen p) (nRefSum p).
Definition set_mxPgno (x : Z) (p : Pager) : Pager :=
  mkPager (eState p) (eLock p) (errCode p) (changeCountDone p) (iDataVersion p) (dbSize p) (dbOrigSize p)
    (dbFileSize p) (dbHintSize p) x (pageSize p) (sectorSize p) (nReserve p) (journalOff p) (journalHdr p) (nRec
    p) (cksumInit p) (pInJournal p) (dbFileVers p) (jOpen p) (nRefSum p).
Definition set_pageSize (x : Z) (p : Pager) : Pager :=
  mkPager (eState p) (eLock p) (errCode p) (changeCountDone p) (iDataVersion p) (dbSize p) (dbOrigSize p)
    (dbFileSize p) (dbHintSize p) (mxPgno p) x (sectorSize p) (nReserve p) (journalOff p) (journalHdr p) (nRec p)
    (cksumInit p) (pInJournal p) (dbFileVers p) (jOpen p) (nRefSum p).
Definition set_sectorSize (x : Z) (p : Pager) : Pager :=
  mkPager (eState p) (eLock p) (errCode p) (changeCountDone p) (iDataVersion p) (dbSize p) (dbOrigSize p)
    (dbFileSize p) (dbHintSize p) (mxPgno p) (pageSize p) x (nReserve p) (journalOff p) (journalHdr p) (nRec p)
    (cksumInit p) (pInJournal p) (dbFileVers p) (jOpen p) (nRefSum p).
Definition set_nReserve (x : Z) (p : Pager) : Pager :=
  mkPager (eState p) (eLock p) (errCode p) (changeCountDone p) (iDataVersion p) (dbSize p) (dbOrigSize p)
    (dbFileSize p) (dbHintSize p) (mxPgno p) (pageSize p) (sectorSize p) x (journalOff p) (journalHdr p) (nRec p)
    (cksumInit p) (pInJournal p) (dbFileVers p) (jOpen p) (nRefSum p).
Definition set_journalOff (x : Z) (p : Pager) : Pager :=
  mkPager (eState p) (eLock p) (errCode p) (changeCountDone p) (iDataVersion p) (dbSize p) (dbOrigSize p)
    (dbFileSize p) (dbHintSize p) (mxPgno p) (pageSize p) (sectorSize p) (nReserve p) x (journalHdr p) (nRec p)
    (cksumInit p) (pInJournal p) (dbFileVers p) (jOpen p) (nRefSum p).
Definition set_journalHdr (x : Z) (p : Pager) : Pager :=
  mkPager (eState p) (eLock p) (errCode p) (changeCountDone p) (iDataVersion p) (dbSize p) (dbOrigSize p)
    (dbFileSize p) (dbHintSize p) (mxPgno p) (pageSize p) (sectorSize p) (nReserve p) (journalOff p) x (nRec p)
    (cksumInit p) (pInJournal p) (dbFileVers p) (jOpen p) (nRefSum p).
Definition set_nRec (x : Z) (p : Pager) : Pager :=
  mkPager (eState p) (eLock p) (errCode p) (changeCountDone p) (iDataVersion p) (dbSize p) (dbOrigSize p)
    (dbFileSize p) (dbHintSize p) (mxPgno p) (pageSize p) (sectorSize p) (nReserve p) (journalOff p) (journalHdr
    p) x (cksumInit p) (pInJournal p) (dbFileVers p) (jOpen p) (nRefSum p).
Definition set_cksumInit (x : Z) (p : Pager) : Pager :=
  mkPager (eState p) (eLock p) (errCode p) (changeCountDone p) (iDataVersion p) (dbSize p) (dbOrigSize p)
    (dbFileSize p) (dbHintSize p) (mxPgno p) (pageSize p) (sectorSize p) (nReserve p) (journalOff p) (journalHdr
    p) (nRec p) x (pInJournal p) (dbFileVers p) (jOpen p) (nRefSum p).
Definition set_pInJournal (x : option (gset Z)) (p : Pager) : Pager :=
  mkPager (eState p) (eLock p) (errCode p) (changeCountDone p) (iDataVersion p) (dbSize p) (dbOrigSize p)
    (dbFileSize p) (dbHintSize p) (mxPgno p) (pageSize p) (sectorSize p) (nReserve p) (journalOff p) (journalHdr
    p) (nRec p) (cksumInit p) x (dbFileVers p) (jOpen p) (nRefSum p).
Definition set_dbFileVers (x : bytes) (p : Pager) : Pager :=
  mkPager (eState p) (eLock p) (errCode p) (changeCountDone p) (iDataVersion p) (dbSize p) (dbOrigSize p)
    (dbFileSize p) (dbHintSize p) (mxPgno p) (pageSize p) (sectorSize p) (nReserve p) (journalOff p) (journalHdr
    p) (nRec p) (cksumInit p) (pInJournal p) x (jOpen p) (nRefSum p).
Definition set_jOpen (x : bool) (p : Pager) : Pager :=
  mkPager (eState p) (eLock p) (errCode p) (changeCountDone p) (iDataVersion p) (dbSize p) (dbOrigSize p)
    (dbFileSize p) (dbHintSize p) (mxPgno p) (pageSize p) (sectorSize p) (nReserve p) (journalOff p) (journalHdr
    p) (nRec p) (cksumInit p) (pInJournal p) (dbFileVers p) x (nRefSum p).
Definition set_nRefSum (x : Z) (p : Pager) : Pager :=
  mkPager (eState p) (eLock p) (errCode p) (changeCountDone p) (iDataVersion p) (dbSize p) (dbOrigSize p)
    (dbFileSize p) (dbHintSize p) (mxPgno p) (pageSize p) (sectorSize p) (nReserve p) (journalOff p) (journalHdr
    p) (nRec p) (cksumInit p) (pInJournal p) (dbFileVers p) (jOpen p) x.

(** [PAGER_SJ_PGNO]: the page of the locking bytes, [lckPgno]. *)
Definition lckPgno (p : Pager) : Z := PENDING_BYTE / pageSize p + 1.
Definition JOURNAL_PG_SZ (p : Pager) : Z := pageSize p + 8.
Definition JOURNAL_HDR_SZ (p : Pager) : Z := sectorSize p.

Record pst : Type := mkPst {
  pg : Pager;
  pc : pcache;
  jf : jfile;                      (* the journal *)
  df : jfile;                      (* the database *)
  nio : nat;                       (* requests so far *)
  trail : list (jfile * jfile);
}.
Definition set_pg (p : Pager) (s : pst) : pst := mkPst p (pc s) (jf s) (df s) (nio s) (trail s).
Definition set_pc (c : pcache) (s : pst) : pst := mkPst (pg s) c (jf s) (df s) (nio s) (trail s).
Definition tick (s : pst) : pst := mkPst (pg s) (pc s) (jf s) (df s) (S (nio s)) (trail s).

(** The journal file, or the database file. *)
Inductive fd : Type := JF | DF.
Definition get_file (w : fd) (s : pst) : jfile := match w with JF => jf s | DF => df s end.
Definition set_file (w : fd) (f : jfile) (s : pst) : pst :=
  let j := match w with JF => f | DF => jf s end in
  let d := match w with JF => df s | DF => f end in
  mkPst (pg s) (pc s) j d (nio s) ((j, d) :: trail s).
Definition push (o : fop) (f : jfile) : jfile := mkFile (f_disk f) (f_pend f ++ [o]).
Definition flushed (f : jfile) : jfile := mkFile (f_cur f) [].

Definition setp (f : Pager -> Pager) : M pst unit := modify (fun s => set_pg (f (pg s)) s).
Definition setc (f : pcache -> pcache) : M pst unit := modify (fun s => set_pc (f (pc s)) s).
Definition getp {A} (f : Pager -> A) : M pst A := gets (fun s => f (pg s)).

(** [rc = m; if( rc!=SQLITE_OK ) return rc; k]. *)
Definition try_ (m : M pst Z) (k : M pst Z) : M pst Z :=
  let* rc := m in if rc =? SQLITE_OK then k else ret rc.
Notation "m ';;?' k" := (try_ m k)
  (at level 100, right associativity, format "'[v' m  ';;?' '//' k ']'") : code_scope.

Definition put32bits (d : bytes) (i v : Z) : option bytes := sqlite3Put4byte d i v.
Fixpoint pager_cksum_loop (fuel : nat) (aData : bytes) (cksum i : Z) : Z :=
  match fuel with
  | O => cksum
  | S fuel => if 0 <? i then pager_cksum_loop fuel aData (u32 (cksum + bat aData i)) (i - 200) else cksum
  end.
(** The checksum of a page: every 200th byte from the end. *)
Definition pager_cksum (cksumInit : Z) (aData : bytes) : Z :=
  pager_cksum_loop (S (length aData)) aData cksumInit (blen aData - 200).

(** [nHeader] bytes of a journal header. *)
Definition header_bytes (magic : bool) (cksumInit dbOrigSize sectorSize pageSize nHeader : Z) : option bytes :=
  let zHeader := (if magic then aJournalMagic ++ [255; 255; 255; 255] else zeros 12) ++ zeros (nHeader - 12) in
  zHeader ← put32bits zHeader 12 cksumInit;
  zHeader ← put32bits zHeader 16 dbOrigSize;
  zHeader ← put32bits zHeader 20 sectorSize;
  zHeader ← put32bits zHeader 24 pageSize;
  bzero zHeader 28 (nHeader - 28).

(** What is not code of the program: request number [n] returns [ioRc n],
    a write that fails leaves [partial n] bytes, allocation number [n] succeeds
    if [mallocOk n], the busy handler asks for [busy n] more tries, a hint of the
    size extends the file by [hint n] bytes; and the configuration of the connection and
    the device, which does not change during a transaction. *)
Class World : Type := {
  ioRc : nat -> Z;
  partial : nat -> Z;
  mallocOk : nat -> bool;
  busy : nat -> nat;
  hint : nat -> Z;
  randomness : nat -> Z;
  hasMoved : nat -> bool;
  noSync : bool;
  fullSync : bool;
  extraSync : bool;
  exclusiveMode : bool;
  syncFlags : Z;
  journalMode : Z;
  journalSizeLimit : Z;
  osSectorSize : Z;
  iDc : Z;                         (* device characteristics *)
  powersafe : bool;
}.

Section Code.
Context `{W : World}.

(** *** Requests *)

Definition request : M pst Z := fun s => (Ret (ioRc (nio s)), tick s).

Definition malloc : M pst bool := fun s => (Ret (mallocOk (nio s)), tick s).

(** The sector size [setSectorSize] finds. *)
Definition sector : Z := if powersafe then 512 else sqlite3SectorSize osSectorSize.
Definition in_sector (off n : Z) : bool := off / sector =? (off + n - 1) / sector.

Definition os_write (w : fd) (d : bytes) (off : Z) : M pst Z :=
  fun s =>
    let rc := ioRc (nio s) in
    let k := Z.max 0 (Z.min (partial (nio s)) (blen d)) in
    let n := if rc =? SQLITE_OK then blen d
             else if in_sector off (blen d) then (if k =? blen d then k else 0) else k in
    (Ret rc, tick (set_file w (push (FWrite off (take (Z.to_nat n) d)) (get_file w s)) s)).
Definition os_truncate (w : fd) (n : Z) : M pst Z :=
  fun s =>
    let rc := ioRc (nio s) in
    (Ret rc, tick (if rc =? SQLITE_OK then set_file w (push (FTrunc n) (get_file w s)) s else s)).
Definition os_sync (w : fd) (flags : Z) : M pst Z :=
  if flags =? 0 then ret SQLITE_OK
  else fun s =>
    let rc := ioRc (nio s) in
    (Ret rc, tick (if rc =? SQLITE_OK then set_file w (flushed (get_file w s)) s else s)).
Definition os_size (w : fd) : M pst (Z * Z) :=
  fun s => (Ret (ioRc (nio s), blen (f_cur (get_file w s))), tick s).
(** What is behind the end of the file reads as zeros, with an error code. *)
Definition os_read (w : fd) (n off : Z) : M pst (Z * bytes) :=
  fun s =>
    let rc := ioRc (nio s) in
    let got := seg (f_cur (get_file w s)) off n in
    (Ret (if negb (rc =? SQLITE_OK) then (rc, zeros n)
          else if blen got <? n then (SQLITE_IOERR_SHORT_READ, got ++ zeros (n - blen got))
          else (SQLITE_OK, got)), tick s).
(** [SQLITE_FCNTL_SIZE_HINT]: the file may grow. *)
Definition os_size_hint (w : fd) : M pst unit :=
  fun s => (Ret tt, tick (set_file w (push (FTrunc (blen (f_cur (get_file w s)) + Z.max 0 (hint (nio s)))) (get_file w s)) s)).
(** [sqlite3OsDelete] of the journal; [dirSync] makes it durable. *)
Definition os_delete (dirSync : bool) : M pst Z :=
  fun s =>
    let rc := ioRc (nio s) in
    let f := push (FTrunc 0) (jf s) in
    (Ret rc, tick (if rc =? SQLITE_OK then set_file JF (if dirSync then flushed f else f) s else s)).

Definition read32bits (w : fd) (offset : Z) : M pst (Z * Z) :=
  let* r := os_read w 4 offset in
  let '(rc, ac) := r in
  if rc =? SQLITE_OK then let* v := lift (sqlite3Get4byte ac 0) in ret (rc, v) else ret (rc, 0).
Definition write32bits (w : fd) (offset val : Z) : M pst Z :=
  let* ac := lift (put32bits (zeros 4) 0 val) in
  os_write w ac offset.

(** *** Locks and errors *)

Definition pagerUnlockDb (l : Z) : M pst Z :=
  let* rc := request in
  let* cur := getp eLock in
  (if negb (cur =? UNKNOWN_LOCK) then setp (set_eLock l) else ret tt) ;;*
  setp (set_changeCountDone false) ;;*
  ret rc.
Definition pagerLockDb (l : Z) : M pst Z :=
  let* cur := getp eLock in
  if (cur <? l) || (cur =? UNKNOWN_LOCK) then
    let* rc := request in
    (if (rc =? SQLITE_OK) && (negb (cur =? UNKNOWN_LOCK) || (l =? EXCLUSIVE_LOCK)) then setp (set_eLock l) else ret tt) ;;*
    ret rc
  else ret SQLITE_OK.
(** The busy handler asks for another try [n] times. *)
Fixpoint wait_loop (n : nat) (l : Z) : M pst Z :=
  let* rc := pagerLockDb l in
  match n with
  | O => ret rc
  | S n => if rc =? SQLITE_BUSY then wait_loop n l else ret rc
  end.
Definition pager_wait_on_lock (l : Z) : M pst Z :=
  let* n := gets (fun s => busy (nio s)) in wait_loop n l.

Definition pager_error (rc : Z) : M pst Z :=
  let rc2 := Z.land rc 0xff in
  (if (rc2 =? SQLITE_FULL) || (rc2 =? SQLITE_IOERR)
   then setp (set_errCode rc) ;;* setp (set_eState PAGER_ERROR) else ret tt) ;;*
  ret rc.

Definition pager_reset : M pst unit :=
  setp (fun p => set_iDataVersion (u32 (iDataVersion p + 1)) p) ;;*
  modify (fun s => set_pc (sqlite3PcacheClear (pageSize (pg s)) (nRefSum (pg s)) (pc s)) s).

(** [sqlite3PagerSetPagesize] with [nReserve=-1]: the result code and
    [*pPageSize]. *)
Definition sqlite3PagerSetPagesize (newSize : Z) : M pst (Z * Z) :=
  let* p := getp id in
  if (nRefSum p =? 0) && negb (newSize =? 0) && negb (newSize =? pageSize p) then
    let* r := (if PAGER_OPEN <? eState p then os_size DF else ret (SQLITE_OK, 0)) in
    let '(rc, nByte) := r in
    if negb (rc =? SQLITE_OK) then ret (rc, pageSize p)
    else
      let* ok := malloc in
      if negb ok then ret (SQLITE_NOMEM, pageSize p)
      else
        pager_reset ;;*
        setp (set_dbSize (u32 ((nByte + newSize - 1) / newSize))) ;;*
        setp (set_pageSize newSize) ;;*
        ret (SQLITE_OK, newSize)
  else ret (SQLITE_OK, pageSize p).

(** *** Headers of the journal *)

Definition journalHdrOffset (p : Pager) : Z :=
  let c := journalOff p in
  if c =? 0 then 0 else ((c - 1) / JOURNAL_HDR_SZ p + 1) * JOURNAL_HDR_SZ p.

Definition zeroJournalHdr (doTruncate : bool) : M pst Z :=
  let* off := getp journalOff in
  if off =? 0 then ret SQLITE_OK
  else
    let* rc := (if doTruncate || (journalSizeLimit =? 0) then os_truncate JF 0 else os_write JF (zeros 28) 0) in
    let* rc := (if (rc =? SQLITE_OK) && negb noSync then os_sync JF (Z.lor SQLITE_SYNC_DATAONLY syncFlags) else ret rc) in
    if (rc =? SQLITE_OK) && (0 <? journalSizeLimit) then
      let* r := os_size JF in
      let '(rc, sz) := r in
      if (rc =? SQLITE_OK) && (journalSizeLimit <? sz) then os_truncate JF journalSizeLimit else ret rc
    else ret rc.

Fixpoint header_loop (fuel : nat) (zHeader : bytes) (nHeader nWrite : Z) (rc : Z) : M pst Z :=
  match fuel with
  | O => undef
  | S fuel =>
      let* p := getp id in
      if (rc =? SQLITE_OK) && (nWrite <? JOURNAL_HDR_SZ p) then
        let* rc := os_write JF zHeader (journalOff p) in
        setp (fun p => set_journalOff (journalOff p + nHeader) p) ;;*
        header_loop fuel zHeader nHeader (nWrite + nHeader) rc
      else ret rc
  end.
Definition writeJournalHdr : M pst Z :=
  let* p := getp id in
  let nHeader := if JOURNAL_HDR_SZ p <? pageSize p then JOURNAL_HDR_SZ p else pageSize p in
  setp (set_journalOff (journalHdrOffset p)) ;;*
  setp (set_journalHdr (journalHdrOffset p)) ;;*
  let magic := noSync || (journalMode =? PAGER_JOURNALMODE_MEMORY) || negb (Z.land iDc SQLITE_IOCAP_SAFE_APPEND =? 0) in
  (if negb (journalMode =? PAGER_JOURNALMODE_MEMORY) then
     let* x := gets (fun s => randomness (nio s)) in
     let* _ := request in
     setp (set_cksumInit (u32 x))
   else ret tt) ;;*
  let* p := getp id in
  let* zHeader := lift (header_bytes magic (cksumInit p) (dbOrigSize p) (sectorSize p) (pageSize p) nHeader) in
  header_loop (S (Z.to_nat (JOURNAL_HDR_SZ p))) zHeader nHeader 0 SQLITE_OK.

(** [x & (x-1)] is 0 for powers of two. *)
Definition not_pow2 (x : Z) : bool := negb (Z.land (x - 1) x =? 0).

Definition advance : M pst unit := setp (fun p => set_journalOff (journalOff p + JOURNAL_HDR_SZ p) p).
(** The result code, [*pNRec] and [*pDbSize]. *)
Definition readJournalHdr (isHot : bool) (journalSize : Z) : M pst (Z * Z * Z) :=
  let* p := getp id in
  let iHdrOff := journalHdrOffset p in
  setp (set_journalOff iHdrOff) ;;*
  if journalSize <? iHdrOff + JOURNAL_HDR_SZ p then ret (SQLITE_DONE, 0, 0)
  else
    let* rc := (if isHot || negb (iHdrOff =? journalHdr p) then
                  let* r := os_read JF 8 iHdrOff in
                  let '(rc, aMagic) := r in
                  ret (if negb (rc =? SQLITE_OK) then rc
                       else if bool_decide (aMagic = aJournalMagic) then SQLITE_OK else SQLITE_DONE)
                else ret SQLITE_OK) in
    if negb (rc =? SQLITE_OK) then ret (rc, 0, 0)
    else
      let* r := read32bits JF (iHdrOff + 8) in
      let '(rc, pNRec) := r in
      if negb (rc =? SQLITE_OK) then ret (rc, pNRec, 0)
      else
        let* r := read32bits JF (iHdrOff + 12) in
        let '(rc, ck) := r in
        if negb (rc =? SQLITE_OK) then ret (rc, pNRec, 0)
        else
          setp (set_cksumInit ck) ;;*
          let* r := read32bits JF (iHdrOff + 16) in
          let '(rc, pDbSize) := r in
          if negb (rc =? SQLITE_OK) then ret (rc, pNRec, pDbSize)
          else
            if negb (iHdrOff =? 0) then advance ;;* ret (rc, pNRec, pDbSize)
            else
              let* r := read32bits JF (iHdrOff + 20) in
              let '(rc, iSectorSize) := r in
              if negb (rc =? SQLITE_OK) then ret (rc, pNRec, pDbSize)
              else
                let* r := read32bits JF (iHdrOff + 24) in
                let '(rc, iPageSize) := r in
                if negb (rc =? SQLITE_OK) then ret (rc, pNRec, pDbSize)
                else
                  let iPageSize := if iPageSize =? 0 then pageSize p else iPageSize in
                  if (iPageSize <? 512) || (iSectorSize <? 32) || (SQLITE_MAX_PAGE_SIZE <? iPageSize)
                     || (MAX_SECTOR_SIZE <? iSectorSize) || not_pow2 iPageSize || not_pow2 iSectorSize
                  then ret (SQLITE_DONE, pNRec, pDbSize)
                  else
                    let* r := sqlite3PagerSetPagesize iPageSize in
                    setp (set_sectorSize iSectorSize) ;;*
                    advance ;;*
                    ret (fst r, pNRec, pDbSize).

(** *** Playback *)

Definition pager_truncate (nPage : Z) : M pst Z :=
  let* p := getp id in
  if (PAGER_WRITER_DBMOD <=? eState p) || (eState p =? PAGER_OPEN) then
    let szPage := pageSize p in
    let* r := os_size DF in
    let '(rc, currentSize) := r in
    let newSize := szPage * nPage in
    if (rc =? SQLITE_OK) && negb (currentSize =? newSize) then
      let* rc := (if newSize <? currentSize then os_truncate DF newSize
                  else if currentSize + szPage <=? newSize then
                    os_size_hint DF ;;*
                    os_write DF (zeros szPage) (newSize - szPage)
                  else ret rc) in
      (if rc =? SQLITE_OK then setp (set_dbFileSize nPage) else ret tt) ;;*
      ret rc
    else ret rc
  else ret SQLITE_OK.

(** [pager_playback_one_page] for the main journal ([isMainJrnl=1],
    [isSavepnt=0]): the result code and the new [*pOffset]. *)
Definition playback_store (pgno off : Z) (aData : bytes) : M pst Z :=
  let* p := getp id in
  (if (pgno =? 1) && negb (nReserve p =? bat aData 20) then setp (set_nReserve (bat aData 20)) else ret tt) ;;*
  let isSynced := noSync || (off <=? journalHdr p) in
  let* rc := (if ((PAGER_WRITER_DBMOD <=? eState p) || (eState p =? PAGER_OPEN)) && isSynced then
                let* rc := os_write DF aData ((pgno - 1) * pageSize p) in
                (if dbFileSize p <? pgno then setp (set_dbFileSize pgno) else ret tt) ;;*
                ret rc
              else ret SQLITE_OK) in
  let* c := gets pc in
  match c !! pgno with
  | Some g =>
      setc (alter (set_pData aData) pgno) ;;*
      (if pgno =? 1 then
         let* v := lift (bsub aData 24 16) in setp (set_dbFileVers v)
       else ret tt) ;;*
      ret rc
  | None => ret rc
  end.
Definition pager_playback_one_page (off : Z) : M pst (Z * Z) :=
  let* p := getp id in
  let* r := read32bits JF off in
  let '(rc, pgno) := r in
  if negb (rc =? SQLITE_OK) then ret (rc, off)
  else
    let* r := os_read JF (pageSize p) (off + 4) in
    let '(rc, aData) := r in
    if negb (rc =? SQLITE_OK) then ret (rc, off)
    else
      let off := off + pageSize p + 8 in
      if (pgno =? 0) || (pgno =? lckPgno p) then ret (SQLITE_DONE, off)
      else if dbSize p <? pgno then ret (SQLITE_OK, off)
      else
        let* r := read32bits JF (off - 4) in
        let '(rc, cksum) := r in
        if negb (rc =? SQLITE_OK) then ret (rc, off)
        else if negb (pager_cksum (cksumInit p) aData =? cksum) then ret (SQLITE_DONE, off)
        else
          let* rc := playback_store pgno off aData in
          ret (rc, off).

(** [for(u=0; u<nRec; u++)]: [Some rc] for a jump to [end_playback], and
    [needPagerReset]. *)
Fixpoint playback_records (n : nat) (szJ : Z) (needPagerReset : bool) : M pst (option Z * bool) :=
  match n with
  | O => ret (None, needPagerReset)
  | S n =>
      (if needPagerReset then pager_reset else ret tt) ;;*
      let* off := getp journalOff in
      let* r := pager_playback_one_page off in
      let '(rc, off) := r in
      setp (set_journalOff off) ;;*
      if rc =? SQLITE_OK then playback_records n szJ false
      else if rc =? SQLITE_DONE then setp (set_journalOff szJ) ;;* ret (None, false)
      else if rc =? SQLITE_IOERR_SHORT_READ then ret (Some SQLITE_OK, false)
      else ret (Some rc, false)
  end.
(** The number of records after a header. *)
Definition segment_records (isHot : bool) (szJ nRec : Z) (p : Pager) : Z :=
  let nRec := if nRec =? 0xffffffff then u32 (i32 ((szJ - JOURNAL_HDR_SZ p) / JOURNAL_PG_SZ p)) else nRec in
  if (nRec =? 0) && negb isHot && (journalHdr p + JOURNAL_HDR_SZ p =? journalOff p)
  then u32 (i32 ((szJ - journalOff p) / JOURNAL_PG_SZ p)) else nRec.
(** [while( 1 )]. *)
Fixpoint playback_loop (fuel : nat) (isHot : bool) (szJ : Z) (needPagerReset : bool) : M pst Z :=
  match fuel with
  | O => undef
  | S fuel =>
      let* r := readJournalHdr isHot szJ in
      let '(rc, n, mxPg) := r in
      if negb (rc =? SQLITE_OK) then ret (if rc =? SQLITE_DONE then SQLITE_OK else rc)
      else
        let* n := getp (segment_records isHot szJ n) in
        let* p := getp id in
        let* rc := (if journalOff p =? JOURNAL_HDR_SZ p then
                      let* rc := pager_truncate mxPg in
                      (if rc =? SQLITE_OK then
                         setp (set_dbSize mxPg) ;;*
                         setp (fun p => if mxPgno p <? mxPg then set_mxPgno mxPg p else p)
                       else ret tt) ;;*
                      ret rc
                    else ret SQLITE_OK) in
        if negb (rc =? SQLITE_OK) then ret rc
        else
          let* r := playback_records (Z.to_nat n) szJ needPagerReset in
          match r with
          | (Some rc, _) => ret rc
          | (None, needPagerReset) => playback_loop fuel isHot szJ needPagerReset
          end
  end.

Definition sqlite3PagerSync : M pst Z :=
  let* rc := request in
  let rc := if rc =? SQLITE_NOTFOUND then SQLITE_OK else rc in
  if (rc =? SQLITE_OK) && negb noSync then os_sync DF syncFlags else ret rc.

(** The journal is made invalid: deleted, truncated or its header zeroed. *)
Definition finalize_journal (hasSuper : bool) : M pst Z :=
  let* p := getp id in
  if negb (jOpen p) then ret SQLITE_OK
  else if journalMode =? PAGER_JOURNALMODE_TRUNCATE then
    let* rc := (if journalOff p =? 0 then ret SQLITE_OK
                else
                  let* rc := os_truncate JF 0 in
                  if (rc =? SQLITE_OK) && fullSync then os_sync JF syncFlags else ret rc) in
    setp (set_journalOff 0) ;;*
    ret rc
  else if (journalMode =? PAGER_JOURNALMODE_PERSIST) || (exclusiveMode && (journalMode <? PAGER_JOURNALMODE_WAL)) then
    let* rc := zeroJournalHdr hasSuper in
    setp (set_journalOff 0) ;;*
    ret rc
  else
    setp (set_jOpen false) ;;*
    os_delete extraSync.
Definition pager_end_transaction (hasSuper bCommit : bool) : M pst Z :=
  let* p := getp id in
  if (eState p <? PAGER_WRITER_LOCKED) && (eLock p <? RESERVED_LOCK) then ret SQLITE_OK
  else
    let* rc := finalize_journal hasSuper in
    setp (set_pInJournal None) ;;*
    setp (set_nRec 0) ;;*
    (if rc =? SQLITE_OK then
       setc sqlite3PcacheCleanAll ;;*
       modify (fun s => set_pc (sqlite3PcacheTruncate (pageSize (pg s)) (nRefSum (pg s)) (dbSize (pg s)) (pc s)) s)
     else ret tt) ;;*
    let* p := getp id in
    let* rc := (if (rc =? SQLITE_OK) && bCommit && (dbSize p <? dbFileSize p) then pager_truncate (dbSize p) else ret rc) in
    let* rc := (if (rc =? SQLITE_OK) && bCommit then
                  let* rc := request in ret (if rc =? SQLITE_NOTFOUND then SQLITE_OK else rc)
                else ret rc) in
    let* rc2 := (if negb exclusiveMode then pagerUnlockDb SHARED_LOCK else ret SQLITE_OK) in
    setp (set_eState PAGER_READER) ;;*
    ret (if rc =? SQLITE_OK then rc2 else rc).

Definition pager_playback (isHot : bool) : M pst Z :=
  let* savedPageSize := getp pageSize in
  let* r := os_size JF in
  let '(rc, szJ) := r in
  let* rc := (if negb (rc =? SQLITE_OK) then ret rc
              else setp (set_journalOff 0) ;;* playback_loop (S (Z.to_nat szJ)) isHot szJ isHot) in
  let* rc := (if rc =? SQLITE_OK then let* r := sqlite3PagerSetPagesize savedPageSize in ret (fst r) else ret rc) in
  setp (set_changeCountDone false) ;;*
  let* p := getp id in
  let* rc := (if (rc =? SQLITE_OK) && ((PAGER_WRITER_DBMOD <=? eState p) || (eState p =? PAGER_OPEN))
              then sqlite3PagerSync else ret rc) in
  let* rc := (if rc =? SQLITE_OK then pager_end_transaction false false else ret rc) in
  setp (set_sectorSize sector) ;;*
  ret rc.

Definition pagerSyncHotJournal : M pst Z :=
  let* rc := (if negb noSync then os_sync JF SQLITE_SYNC_NORMAL else ret SQLITE_OK) in
  if rc =? SQLITE_OK then
    let* r := os_size JF in
    let '(rc, sz) := r in
    (if rc =? SQLITE_OK then setp (set_journalHdr sz) else ret tt) ;;*
    ret rc
  else ret rc.

(** *** Pages *)

Definition readDbPage (pgno : Z) : M pst Z :=
  let* p := getp id in
  let* r := os_read DF (pageSize p) ((pgno - 1) * pageSize p) in
  let '(rc, d) := r in
  let rc := if rc =? SQLITE_IOERR_SHORT_READ then SQLITE_OK else rc in
  setc (alter (set_pData d) pgno) ;;*
  (if pgno =? 1 then
     if negb (rc =? SQLITE_OK) then setp (set_dbFileVers (replicate 16 0xff))
     else let* v := lift (bsub d 24 16) in setp (set_dbFileVers v)
   else ret tt) ;;*
  ret rc.

(** [pagerUnlockIfUnused]: a transaction holds a reference to page 1. *)
Definition pagerUnlockIfUnused : M pst unit :=
  let* n := getp nRefSum in if n =? 0 then undef else ret tt.
(** [sqlite3BitvecSet] of [pInJournal]: without a journal there is no set. *)
Definition sqlite3BitvecSet_pInJournal (pgno : Z) : M pst Z :=
  let* bits := getp pInJournal in
  match bits with
  | None => ret SQLITE_OK
  | Some b =>
      let* ok := malloc in
      if negb ok then ret SQLITE_NOMEM
      else setp (set_pInJournal (Some ({[pgno]} ∪ b))) ;;* ret SQLITE_OK
  end.
(** A page without content: it need not be journalled, and the failure of an
    allocation for that is ignored. *)
Definition mark_no_content (pgno : Z) : M pst unit :=
  let* n := getp dbOrigSize in
  if pgno <=? n then let* _ := sqlite3BitvecSet_pInJournal pgno in ret tt else ret tt.
(** The content of a page that is not in the cache, or is wanted without content:
    the result code, and if the page is dropped from the cache ([sqlite3PcacheDrop])
    on an error, or only released. *)
Definition init_page (pgno : Z) (noContent : bool) : M pst (Z * bool) :=
  let* p := getp id in
  if pgno =? lckPgno p then ret (SQLITE_CORRUPT, true)
  else if (dbSize p <? pgno) || noContent then
    if mxPgno p <? pgno then ret (SQLITE_FULL, negb (pgno <=? dbSize p))
    else
      (if noContent then mark_no_content pgno else ret tt) ;;*
      setc (alter (set_pData (zeros (pageSize p))) pgno) ;;*
      ret (SQLITE_OK, true)
  else
    let* rc := readDbPage pgno in
    ret (rc, true).
(** [junk] is what a new page of the cache holds before it is read. *)
Definition getPageNormal (junk : bytes) (pgno flags : Z) : M pst Z :=
  if pgno =? 0 then ret SQLITE_CORRUPT
  else
    let* cached := gets (fun s => bool_decide (is_Some (pc s !! pgno))) in
    let* ok := (if cached then ret true else malloc) in
    if negb ok then pagerUnlockIfUnused ;;* ret SQLITE_NOMEM
    else
      (if cached then ret tt else setc (<[pgno := mkPg junk false false false false]>)) ;;*
      setp (fun p => set_nRefSum (nRefSum p + 1) p) ;;*
      let noContent := negb (Z.land flags PAGER_GET_NOCONTENT =? 0) in
      if cached && negb noContent then ret SQLITE_OK
      else
        let* r := init_page pgno noContent in
        let '(rc, dropped) := r in
        if negb (rc =? SQLITE_OK) then
          (if dropped then setc (delete pgno) else ret tt) ;;*
          setp (fun p => set_nRefSum (nRefSum p - 1) p) ;;*
          pagerUnlockIfUnused ;;*
          ret rc
        else ret SQLITE_OK.
Definition sqlite3PagerGet (junk : bytes) (pgno flags : Z) : M pst Z :=
  let* rc := getp errCode in
  if negb (rc =? SQLITE_OK) then ret rc else getPageNormal junk pgno flags.
Definition sqlite3PagerUnref : M pst unit := setp (fun p => set_nRefSum (nRefSum p - 1) p).

(** *** Transactions *)

Definition databaseIsUnmoved : M pst Z :=
  let* n := getp dbSize in
  if n =? 0 then ret SQLITE_OK
  else
    let* m := gets (fun s => hasMoved (nio s)) in
    let* rc := request in
    ret (if rc =? SQLITE_NOTFOUND then SQLITE_OK
         else if (rc =? SQLITE_OK) && m then SQLITE_READONLY_DBMOVED else rc).
(** [sqlite3JournalOpen] with [nSpill=0]: the file is opened. *)
Definition open_journal_file : M pst Z :=
  let* rc := databaseIsUnmoved in
  if rc =? SQLITE_OK then
    let* rc := request in
    (if rc =? SQLITE_OK then setp (set_jOpen true) else ret tt) ;;*
    ret rc
  else ret rc.
Definition pager_open_journal : M pst Z :=
  let* p := getp id in
  if negb (errCode p =? SQLITE_OK) then ret (errCode p)
  else if journalMode =? PAGER_JOURNALMODE_OFF then setp (set_eState PAGER_WRITER_CACHEMOD) ;;* ret SQLITE_OK
  else
    let* ok := malloc in
    if negb ok then ret SQLITE_NOMEM
    else
      setp (set_pInJournal (Some ∅)) ;;*
      let* rc := (if jOpen p then ret SQLITE_OK
                  else if journalMode =? PAGER_JOURNALMODE_MEMORY then undef else open_journal_file) in
      let* rc := (if rc =? SQLITE_OK then
                    setp (set_nRec 0) ;;* setp (set_journalOff 0) ;;* setp (set_journalHdr 0) ;;*
                    writeJournalHdr
                  else ret rc) in
      (if negb (rc =? SQLITE_OK) then setp (set_pInJournal None) ;;* setp (set_journalOff 0)
       else setp (set_eState PAGER_WRITER_CACHEMOD)) ;;*
      ret rc.

Definition sqlite3PagerBegin (exFlag : bool) : M pst Z :=
  let* p := getp id in
  if negb (errCode p =? SQLITE_OK) then ret (errCode p)
  else if eState p =? PAGER_READER then
    let* rc := pagerLockDb RESERVED_LOCK in
    let* rc := (if (rc =? SQLITE_OK) && exFlag then pager_wait_on_lock EXCLUSIVE_LOCK else ret rc) in
    (if rc =? SQLITE_OK then
       setp (fun p => set_journalOff 0 (set_dbOrigSize (dbSize p) (set_dbFileSize (dbSize p) (set_dbHintSize (dbSize p)
         (set_eState PAGER_WRITER_LOCKED p)))))
     else ret tt) ;;*
    ret rc
  else ret SQLITE_OK.

(** The page of the cache that a function gets as a pointer. *)
Definition page (pgno : Z) : M pst PgHdr :=
  let* c := gets pc in lift (c !! pgno).

Definition pagerAddPageToRollbackJournal (pgno : Z) : M pst Z :=
  let* p := getp id in
  let iOff := journalOff p in
  let* g := page pgno in
  let cksum := pager_cksum (cksumInit p) (pData g) in
  setc (alter (set_needSync true) pgno) ;;*
  write32bits JF iOff pgno ;;?
  os_write JF (pData g) (iOff + 4) ;;?
  write32bits JF (iOff + pageSize p + 4) cksum ;;?
  setp (fun p => set_journalOff (journalOff p + 8 + pageSize p) p) ;;*
  setp (fun p => set_nRec (nRec p + 1) p) ;;*
  sqlite3BitvecSet_pInJournal pgno.

Definition journal_page (pgno : Z) : M pst Z :=
  let* p := getp id in
  match pInJournal p with
  | None => ret SQLITE_OK
  | Some b =>
      if bool_decide (pgno ∈ b) then ret SQLITE_OK
      else if pgno <=? dbOrigSize p then pagerAddPageToRollbackJournal pgno
      else
        (if negb (eState p =? PAGER_WRITER_DBMOD) then setc (alter (set_needSync true) pgno) else ret tt) ;;*
        ret SQLITE_OK
  end.
Definition pager_write (pgno : Z) : M pst Z :=
  let* st := getp eState in
  (if st =? PAGER_WRITER_LOCKED then pager_open_journal else ret SQLITE_OK) ;;?
  setc (sqlite3PcacheMakeDirty pgno) ;;*
  journal_page pgno ;;?
  setc (alter (set_writeable true) pgno) ;;*
  setp (fun p => if dbSize p <? pgno then set_dbSize pgno p else p) ;;*
  ret SQLITE_OK.
Definition sqlite3PagerWrite (pgno : Z) : M pst Z :=
  let* p := getp id in
  let* g := page pgno in
  if writeable g && (pgno <=? dbSize p) then ret SQLITE_OK
  else if negb (errCode p =? SQLITE_OK) then ret (errCode p)
  else if pageSize p <? sectorSize p then undef
  else pager_write pgno.

(** The content of the page is not needed any more.  There are no savepoints, and
    the file is not temporary. *)
Definition sqlite3PagerDontWrite (pgno : Z) : M pst unit :=
  let* g := page pgno in
  if dirty g then setc (alter (fun g => set_dontWrite true (set_writeable false g)) pgno) else ret tt.

(** A dirty page gets another number, and flags. *)
Definition sqlite3PagerRekey (pgno iNew : Z) (flags : PgHdr) : M pst unit :=
  let* g := page pgno in
  setc (fun c => <[iNew := set_pData (pData g) flags]> (delete pgno c)).
(** What [balance_nonroot] does with two pages that are not in order. *)
Definition swap_pages (pgnoA pgnoB : Z) : M pst unit :=
  let* pgnoTemp := getp lckPgno in
  let* fgA := page pgnoA in
  let* fgB := page pgnoB in
  sqlite3PagerRekey pgnoA pgnoTemp fgB ;;*
  sqlite3PagerRekey pgnoB pgnoA fgA ;;*
  sqlite3PagerRekey pgnoTemp pgnoB fgB.

Definition sqlite3PagerExclusiveLock : M pst Z :=
  let* rc := getp errCode in
  if rc =? SQLITE_OK then pager_wait_on_lock EXCLUSIVE_LOCK else ret rc.

(** The number of records is written to the last header; before that, a header
    of an old transaction that follows the journal is destroyed. *)
Definition seal_header : M pst Z :=
  let* p := getp id in
  let* zHeader := lift (put32bits (aJournalMagic ++ zeros 4) 8 (nRec p)) in
  let iNextHdrOffset := journalHdrOffset p in
  let* r := os_read JF 8 iNextHdrOffset in
  let '(rc, aMagic) := r in
  let* rc := (if (rc =? SQLITE_OK) && bool_decide (aMagic = aJournalMagic) then os_write JF [0] iNextHdrOffset else ret rc) in
  if negb (rc =? SQLITE_OK) && negb (rc =? SQLITE_IOERR_SHORT_READ) then ret rc
  else
    (if fullSync && (Z.land iDc SQLITE_IOCAP_SEQUENTIAL =? 0) then os_sync JF syncFlags else ret SQLITE_OK) ;;?
    os_write JF zHeader (journalHdr p).
Definition syncJournal (newHdr : bool) : M pst Z :=
  sqlite3PagerExclusiveLock ;;?
  let* jopen := getp jOpen in
  let safe := negb (Z.land iDc SQLITE_IOCAP_SAFE_APPEND =? 0) in
  (if noSync then ret SQLITE_OK
   else if jopen && negb (journalMode =? PAGER_JOURNALMODE_MEMORY) then
     (if safe then ret SQLITE_OK else seal_header) ;;?
     (if Z.land iDc SQLITE_IOCAP_SEQUENTIAL =? 0
      then os_sync JF (Z.lor syncFlags (if syncFlags =? SQLITE_SYNC_FULL then SQLITE_SYNC_DATAONLY else 0))
      else ret SQLITE_OK) ;;?
     setp (fun p => set_journalHdr (journalOff p) p) ;;*
     if newHdr && negb safe then setp (set_nRec 0) ;;* writeJournalHdr else ret SQLITE_OK
   else setp (fun p => set_journalHdr (journalOff p) p) ;;* ret SQLITE_OK) ;;?
  setc sqlite3PcacheClearSyncFlags ;;*
  setp (set_eState PAGER_WRITER_DBMOD) ;;*
  ret SQLITE_OK.

Definition pager_write_changecounter (pgno : Z) : M pst unit :=
  let* p := getp id in
  let* g := page pgno in
  let* old := lift (sqlite3Get4byte (dbFileVers p) 0) in
  let change_counter := u32 (old + 1) in
  let* d := lift (put32bits (pData g) 24 change_counter) in
  let* d := lift (put32bits d 92 change_counter) in
  let* d := lift (put32bits d 96 SQLITE_VERSION_NUMBER) in
  setc (alter (set_pData d) pgno).

Fixpoint pagelist_loop (pList : list Z) : M pst Z :=
  match pList with
  | [] => ret SQLITE_OK
  | pgno :: pList =>
      let* p := getp id in
      let* g := page pgno in
      if (pgno <=? dbSize p) && negb (dontWrite g) then
        (if pgno =? 1 then pager_write_changecounter pgno else ret tt) ;;*
        let* g := page pgno in
        let* rc := os_write DF (pData g) ((pgno - 1) * pageSize p) in
        (if pgno =? 1 then let* v := lift (bsub (pData g) 24 16) in setp (set_dbFileVers v) else ret tt) ;;*
        setp (fun p => if dbFileSize p <? pgno then set_dbFileSize pgno p else p) ;;*
        if rc =? SQLITE_OK then pagelist_loop pList else ret rc
      else pagelist_loop pList
  end.
(** The first test reads [pList->pDirty]: the list is not empty there. *)
Definition pager_write_pagelist (pList : list Z) : M pst Z :=
  let* p := getp id in
  (if dbHintSize p <? dbSize p then
     match pList with
     | [] => undef
     | pgno :: rest =>
         if negb (bool_decide (rest = [])) || (dbHintSize p <? pgno) then
           os_size_hint DF ;;* setp (fun p => set_dbHintSize (dbSize p) p)
         else ret tt
     end
   else ret tt) ;;*
  pagelist_loop pList.

(** The cache asks for a dirty page to be written out, [doNotSpill] being 0. *)
Definition pagerStress (pgno : Z) : M pst Z :=
  let* p := getp id in
  if negb (errCode p =? SQLITE_OK) then ret SQLITE_OK
  else
    let* g := page pgno in
    let* rc := (if needSync g || (eState p =? PAGER_WRITER_CACHEMOD) then syncJournal true else ret SQLITE_OK) in
    let* rc := (if rc =? SQLITE_OK then pager_write_pagelist [pgno] else ret rc) in
    (if rc =? SQLITE_OK then setc (sqlite3PcacheMakeClean pgno) else ret tt) ;;*
    pager_error rc.

Definition pager_incr_changecounter (junk : bytes) : M pst Z :=
  let* p := getp id in
  if negb (changeCountDone p) && (0 <? dbSize p) then
    let* rc := sqlite3PagerGet junk 1 0 in
    if rc =? SQLITE_OK then
      let* rc := sqlite3PagerWrite 1 in
      (if rc =? SQLITE_OK then pager_write_changecounter 1 ;;* setp (set_changeCountDone true) else ret tt) ;;*
      sqlite3PagerUnref ;;*
      ret rc
    else ret rc
  else ret SQLITE_OK.

Definition sqlite3PagerCommitPhaseOne (junk : bytes) (noSyncDb : bool) : M pst Z :=
  let* p := getp id in
  if negb (errCode p =? SQLITE_OK) then ret (errCode p)
  else if eState p <? PAGER_WRITER_CACHEMOD then ret SQLITE_OK
  else
    let* rc :=
      (pager_incr_changecounter junk ;;?
       syncJournal false ;;?
       let* c := gets pc in
       pager_write_pagelist (sqlite3PcacheDirtyList c) ;;?
       setc sqlite3PcacheCleanAll ;;*
       let* p := getp id in
       (if dbFileSize p <? dbSize p then pager_truncate (dbSize p - (if dbSize p =? lckPgno p then 1 else 0))
        else ret SQLITE_OK) ;;?
       if negb noSyncDb then sqlite3PagerSync else ret SQLITE_OK) in
    (if rc =? SQLITE_OK then setp (set_eState PAGER_WRITER_FINISHED) else ret tt) ;;*
    ret rc.

Definition sqlite3PagerCommitPhaseTwo : M pst Z :=
  let* p := getp id in
  if negb (errCode p =? SQLITE_OK) then ret (errCode p)
  else
    setp (fun p => set_iDataVersion (u32 (iDataVersion p + 1)) p) ;;*
    if (eState p =? PAGER_WRITER_LOCKED) && exclusiveMode && (journalMode =? PAGER_JOURNALMODE_PERSIST)
    then setp (set_eState PAGER_READER) ;;* ret SQLITE_OK
    else
      let* rc := pager_end_transaction false true in
      pager_error rc.

Definition sqlite3PagerRollback : M pst Z :=
  let* p := getp id in
  if eState p =? PAGER_ERROR then ret (errCode p)
  else if eState p <=? PAGER_READER then ret SQLITE_OK
  else if negb (jOpen p) || (eState p =? PAGER_WRITER_LOCKED) then
    let* rc := pager_end_transaction false false in
    if PAGER_WRITER_LOCKED <? eState p then
      setp (set_errCode SQLITE_ABORT) ;;* setp (set_eState PAGER_ERROR) ;;* ret rc
    else pager_error rc
  else
    let* rc := pager_playback false in
    pager_error rc.

End Code.
