(* ===== verification/JrnlFile.v ===== *)
(** * Power losses, and the format of the rollback journal

    What a power loss may leave of a file ([crash]), which writes keep the
    synced part of a journal intact ([jop]), and a journal as a list of
    segments: a header with a count, and that many records ([chain]). *)
From stdpp Require Import gmap.
From S2P Require Import Prelude Bits Bytes Varint Wal WalIndex WalRecover WalRecovery WalWrite WalFile WalSteps Jrnl.

(** ** Power losses *)

(** The bytes at [h] are the first of a valid header. *)
Definition magic_at (d : bytes) (h : Z) : Prop := forall i, 0 <= i < 8 -> bat d (h + i) = bat aJournalMagic i.

Section Crash.
Context (S : Z).

(** A torn write leaves arbitrary bytes in its range, but never the eight bytes
    of [aJournalMagic] at the start of a sector where there were others. *)
Definition torn (d d' : bytes) (off : Z) (b : bytes) : Prop :=
  bytes_ok d' /\ blen d <= blen d' <= Z.max (blen d) (off + blen b) /\
  (forall j, 0 <= j -> ~ off <= j < off + blen b -> bat d' j = bat d j) /\
  (forall h, 0 <= h -> h mod S = 0 -> magic_at d' h -> magic_at d h \/ magic_at (log_write d off b) h).

(** A write or truncation that was not synced is lost, done, or torn if it is not
    inside of one sector. *)
Inductive crash1 : fop -> bytes -> bytes -> Prop :=
  | crash_lost o d : crash1 o d d
  | crash_done o d : crash1 o d (fop_apply d o)
  | crash_torn off b d d' :
      off / S <> (off + blen b - 1) / S -> torn d d' off b -> crash1 (FWrite off b) d d'.
Inductive crashes : list fop -> bytes -> bytes -> Prop :=
  | crashes_nil d : crashes [] d d
  | crashes_snoc os o d d1 d2 : crashes os d d1 -> crash1 o d1 d2 -> crashes (os ++ [o]) d d2.
(** The contents a power loss may leave. *)
Definition crash (f : jfile) (d : bytes) : Prop := crashes (f_pend f) (f_disk f) d.
(** A property of all of them. *)
Definition always (P : bytes -> Prop) (f : jfile) : Prop := forall d, crash f d -> P d.

Lemma crash_cur f : crash f (f_cur f).
Proof.
  destruct f as [d os]. unfold crash, f_cur. cbn. induction os as [|o os IH] using rev_ind; [constructor|].
  rewrite foldl_app. cbn. econstructor; [exact IH|constructor].
Qed.
Lemma always_cur P f : always P f -> P (f_cur f).
Proof. intros H. apply H, crash_cur. Qed.
Lemma crashes_nil_inv d d' : crashes [] d d' -> d' = d.
Proof. intros H. remember [] as os eqn:E. destruct H; [done|]. by destruct os. Qed.
Lemma always_flushed (P : bytes -> Prop) f : P (f_cur f) -> always P (flushed f).
Proof. intros H d Hd. unfold crash, flushed in Hd. cbn in Hd. by apply crashes_nil_inv in Hd as ->. Qed.
Lemma crash_push o f d : crash (push o f) d -> exists d1, crash f d1 /\ crash1 o d1 d.
Proof.
  unfold crash, push. cbn. intros H. remember (f_pend f ++ [o]) as os eqn:E. destruct H as [|os1 o1 d0 d1 d2 H1 H2].
  - by destruct (f_pend f).
  - apply app_inj_tail in E as [-> ->]. eauto.
Qed.
Lemma always_push (P Q : bytes -> Prop) o f :
  always P f -> (forall d d', P d -> crash1 o d d' -> Q d') -> always Q (push o f).
Proof. intros H1 H2 d (d1 & Hd1 & Hd)%crash_push. eauto. Qed.
Lemma cur_push o f : f_cur (push o f) = fop_apply (f_cur f) o.
Proof. unfold f_cur, push. cbn. by rewrite foldl_app. Qed.
Lemma cur_flushed f : f_cur (flushed f) = f_cur f.
Proof. done. Qed.
Lemma always_mono (P Q : bytes -> Prop) f : (forall d, P d -> Q d) -> always P f -> always Q f.
Proof. unfold always. eauto. Qed.
Lemma always_and (P Q : bytes -> Prop) f : always P f -> always Q f -> always (fun d => P d /\ Q d) f.
Proof. unfold always. eauto. Qed.

(** A write outside of [lo..hi-1], done in part or not, leaves those bytes. *)
Lemma write_keeps off b d d' lo hi :
  crash1 (FWrite off b) d d' -> bytes_ok d -> bytes_ok b -> 0 <= off -> off + blen b <= lo \/ hi <= off ->
  bytes_ok d' /\ blen d <= blen d' /\ forall j, 0 <= j -> lo <= j < hi -> bat d' j = bat d j.
Proof.
  intros Hc Hd Hb Ho Hr. inversion Hc as [| |? ? ? ? _ (A & B & C & _)]; subst.
  - split_and!; [done|lia|done].
  - cbn [fop_apply]. split_and!; [by apply log_write_ok|rewrite log_write_len by done; case_match; lia|].
    intros j Hj1 Hj2. rewrite log_write_at by done. pose proof (blen_nonneg b).
    destruct (Z.leb_spec off j), (Z.ltb_spec j (off + blen b)); cbn [andb]; (done || lia).
  - split_and!; [done|lia|]. intros j Hj1 Hj2. apply C; lia.
Qed.

(** Writes behind [H], or of a first byte 0 at [H]. *)
Definition jop (H : Z) (o : fop) : Prop :=
  match o with
  | FWrite off b => bytes_ok b /\ (H + 8 <= off \/ off = H /\ (b = [] \/ bat b 0 = 0))
  | FTrunc _ => False
  end.
Lemma jop_applied H off b d :
  jop H (FWrite off b) -> 0 <= H -> ~ magic_at d H -> ~ magic_at (log_write d off b) H.
Proof.
  intros [Hb Hj] HH Hn Hm. destruct Hj as [Hj|[-> [->|Hj]]].
  - apply Hn. intros i Hi. rewrite <- (Hm i Hi). rewrite log_write_at by lia.
    destruct (Z.leb_spec off (H + i)); [lia|]. done.
  - done.
  - destruct b as [|x b]; [done|]. specialize (Hm 0 ltac:(lia)). rewrite log_write_at in Hm by lia.
    rewrite Z.add_0_r, Z.leb_refl, Z.sub_diag, Hj in Hm.
    destruct (Z.ltb_spec H (H + blen (x :: b))) as [Hlt|Hlt]; cbn [andb] in Hm; [by vm_compute in Hm|].
    revert Hlt. unfold blen. cbn. lia.
Qed.
Lemma jop_keeps H o d d' :
  jop H o -> 0 <= H -> H mod S = 0 -> crash1 o d d' -> bytes_ok d -> ~ magic_at d H ->
  bytes_ok d' /\ ~ magic_at d' H /\ blen d <= blen d' /\ forall j, 0 <= j < H -> bat d' j = bat d j.
Proof.
  intros Hj H0 Ha Hc Hd Hn. destruct o as [off b|]; [|done]. pose proof Hj as [Hb Ho].
  destruct (write_keeps off b d d' 0 H Hc Hd Hb) as (A & B & C); [lia|lia|].
  split_and!; [done| |done|intros j Hr; apply C; lia].
  inversion Hc as [| |? ? ? ? _ (_ & _ & _ & D)]; subst; [done|by eapply jop_applied|].
  intros Hm. apply D in Hm as [Hm|Hm]; [done| |lia|done]. by eapply jop_applied.
Qed.
End Crash.

(** ** The format *)

(** A record: page number and content. *)
Abbreviation jrec := (Z * bytes)%type.
Definition rlen (rs : list jrec) : Z := Z.of_nat (length rs).
#[export] Hint Unfold rlen : lengths.
Definition pgs (rs : list jrec) : gset Z := list_to_set (map fst rs).

(** The next multiple of the sector size. *)
Definition sector_up (S x : Z) : Z := if x =? 0 then 0 else ((x - 1) / S + 1) * S.
Lemma sector_up_spec S x : 0 < S -> 0 <= x -> x <= sector_up S x < x + S /\ sector_up S x mod S = 0.
Proof.
  intros HS Hx. unfold sector_up. destruct (Z.eqb_spec x 0) as [->|Hne].
  - rewrite Z.mod_0_l by lia. lia.
  - rewrite Z.mod_mul by lia. pose proof (Z.div_mod (x - 1) S ltac:(lia)). pose proof (Z.mod_pos_bound (x - 1) S HS). nia.
Qed.
Lemma sector_up_aligned S x : 0 < S -> 0 <= x -> x mod S = 0 -> sector_up S x = x.
Proof.
  intros HS Hx Ha. destruct (sector_up_spec S x HS Hx) as [B C].
  apply Z.div_exact in Ha; [|lia]. apply Z.div_exact in C; [|lia].
  set (a := x / S) in *. set (b := sector_up S x / S) in *. assert (b - a < 1) by nia. assert (b - a > -1) by nia.
  replace b with a in C by lia. lia.
Qed.

Section Format.
Context (S ps n : Z).

Definition fields_at (d : bytes) (h ck : Z) : Prop :=
  at4 d (h + 12) = ck /\ at4 d (h + 16) = n /\ at4 d (h + 20) = S /\ at4 d (h + 24) = ps /\ h + S <= blen d.
Definition rec_at (d : bytes) (off ck : Z) (r : jrec) : Prop :=
  at4 d off = fst r /\ seg d (off + 4) ps = snd r /\ at4 d (off + 4 + ps) = pager_cksum ck (snd r) /\
  off + (ps + 8) <= blen d.
Fixpoint recs_at (d : bytes) (off ck : Z) (rs : list jrec) : Prop :=
  match rs with
  | [] => True
  | r :: rs => rec_at d off ck r /\ recs_at d (off + (ps + 8)) ck rs
  end.
(** Complete segments from the header at [h] on; the next header would be at [e]. *)
Inductive chain (d : bytes) : Z -> list jrec -> Z -> Prop :=
  | chain_nil h : chain d h [] h
  | chain_seg h ck rs rs' e :
      magic_at d h -> at4 d (h + 8) = rlen rs -> fields_at d h ck -> recs_at d (h + S) ck rs ->
      chain d (sector_up S (h + S + rlen rs * (ps + 8))) rs' e ->
      chain d h (rs ++ rs') e.

Hypothesis (HS : 32 <= S) (Hps : 0 < ps).

Lemma recs_app d off ck rs1 rs2 :
  recs_at d off ck (rs1 ++ rs2) <-> recs_at d off ck rs1 /\ recs_at d (off + rlen rs1 * (ps + 8)) ck rs2.
Proof.
  revert off. induction rs1 as [|r rs1 IH]; intros off; cbn [app recs_at].
  - unfold rlen. cbn. rewrite Z.add_0_r. clear. split; [intros A; by split|by intros [_ A]].
  - rewrite IH. replace (off + rlen (r :: rs1) * (ps + 8)) with (off + (ps + 8) + rlen rs1 * (ps + 8)); [clear; split; [intros (A & B & C); by split_and!|intros ((A & B) & C); by split_and!]|].
    unfold rlen. cbn [length]. lia.
Qed.
Lemma recs_len d off ck rs : recs_at d off ck rs -> off <= blen d -> off + rlen rs * (ps + 8) <= blen d.
Proof.
  revert off. induction rs as [|r rs IH]; intros off; cbn [recs_at]; [unfold rlen; cbn; lia|].
  intros [(_ & _ & _ & H) Hr] _. specialize (IH _ Hr H). unfold rlen in *. cbn [length]. lia.
Qed.
Lemma rec_ext d d' off ck r :
  rec_at d off ck r -> 0 <= off -> (forall j, off <= j < off + (ps + 8) -> bat d' j = bat d j) ->
  off + (ps + 8) <= blen d' -> rec_at d' off ck r.
Proof.
  intros (A & B & C & D) Ho He Hl. split_and!; [| | |done].
  - rewrite <- A. apply at4_eq. intros j Hj. apply He. lia.
  - rewrite <- B. apply seg_ext; try lia. intros j Hj. apply He. lia.
  - rewrite <- C. apply at4_eq. intros j Hj. apply He. lia.
Qed.
Lemma recs_ext d d' off ck rs :
  recs_at d off ck rs -> 0 <= off -> (forall j, off <= j < off + rlen rs * (ps + 8) -> bat d' j = bat d j) ->
  off + rlen rs * (ps + 8) <= blen d' -> recs_at d' off ck rs.
Proof.
  revert off. induction rs as [|r rs IH]; intros off; cbn [recs_at]; [done|].
  intros [Hr Hrs] Ho He Hl. unfold rlen in *. cbn [length] in *. split.
  - eapply rec_ext; [done|done| |lia]. intros j Hj. apply He. lia.
  - apply IH; [done|lia| |lia]. intros j Hj. apply He. lia.
Qed.
Lemma fields_ext d d' h ck :
  fields_at d h ck -> (forall j, h + 12 <= j < h + 28 -> bat d' j = bat d j) -> h + S <= blen d' -> fields_at d' h ck.
Proof.
  intros (A & B & C & D & _) He Hl. unfold fields_at.
  rewrite !(at4_eq d d') by (intros j Hj; apply He; lia). done.
Qed.
Lemma chain_ge d h rs e : chain d h rs e -> 0 <= h -> h <= e.
Proof.
  induction 1 as [|h ck rs rs' e A B C D E IH]; intros Hh; [lia|].
  pose proof (sector_up_spec S (h + S + rlen rs * (ps + 8)) ltac:(lia) ltac:(unfold rlen; lia)). unfold rlen in *. lia.
Qed.
Lemma chain_ext d d' h rs e :
  chain d h rs e -> 0 <= h -> (forall j, h <= j < e -> bat d' j = bat d j) -> blen d <= blen d' -> chain d' h rs e.
Proof.
  induction 1 as [|h ck rs rs' e A B C D E IH]; intros Hh He Hl; [constructor|].
  pose proof (sector_up_spec S (h + S + rlen rs * (ps + 8)) ltac:(lia) ltac:(unfold rlen; lia)) as [Hu _].
  pose proof (chain_ge _ _ _ _ E ltac:(unfold rlen in *; lia)) as Hge.
  assert (Hc : h + S <= blen d) by apply C. pose proof (recs_len _ _ _ _ D Hc). unfold rlen in *.
  econstructor.
  - intros i Hi. rewrite He by lia. by apply A.
  - etrans; [|exact B]. apply at4_eq. intros j Hj. apply He. lia.
  - eapply fields_ext; [done| |lia]. intros j Hj. apply He. lia.
  - eapply recs_ext; [done|lia| |unfold rlen; lia]. intros j Hj. apply He. unfold rlen in *. lia.
  - apply IH; [lia| |done]. intros j Hj. apply He. lia.
Qed.
Lemma chain_join d h rs1 m rs2 e : chain d h rs1 m -> chain d m rs2 e -> chain d h (rs1 ++ rs2) e.
Proof.
  induction 1 as [|h ck rs rs' m A B C D E IH]; intros H2; [done|]. rewrite <- app_assoc. econstructor; eauto.
Qed.
End Format.

(** ** Writing into a file *)

Lemma bat_write_in f off b i : 0 <= off -> 0 <= i < blen b -> bat (log_write f off b) (off + i) = bat b i.
Proof.
  intros Ho Hi. rewrite log_write_at by lia.
  destruct (Z.leb_spec off (off + i)), (Z.ltb_spec (off + i) (off + blen b)); cbn [andb]; try lia. f_equal. lia.
Qed.
Lemma bat_write_out f off b i : 0 <= off -> 0 <= i -> i < off \/ off + blen b <= i -> bat (log_write f off b) i = bat f i.
Proof.
  intros Ho Hi Hr. rewrite log_write_at by lia.
  destruct (Z.leb_spec off i), (Z.ltb_spec i (off + blen b)); cbn [andb]; (done || lia).
Qed.
Lemma at4_write_in f off b i : 0 <= off -> 0 <= i -> i + 4 <= blen b -> at4 (log_write f off b) (off + i) = at4 b i.
Proof.
  intros Ho Hi Hl. unfold at4. rewrite <- !Z.add_assoc. rewrite !bat_write_in by lia. done.
Qed.
Lemma at4_write_out f off b i :
  0 <= off -> 0 <= i -> i + 4 <= off \/ off + blen b <= i -> at4 (log_write f off b) i = at4 f i.
Proof. intros Ho Hi Hr. apply at4_eq. intros j Hj. apply bat_write_out; lia. Qed.
Lemma write_len_ge f off b : 0 <= off -> blen f <= blen (log_write f off b).
Proof. intros Ho. rewrite log_write_len by done. case_match; lia. Qed.
Lemma write_len_in f off b : 0 <= off -> 0 < blen b -> off + blen b <= blen (log_write f off b).
Proof. intros Ho Hb. rewrite log_write_len by done. destruct (Z.eqb_spec (blen b) 0); lia. Qed.

(** A big-endian word. *)
Lemma put4_spec v ac :
  0 <= v < 2 ^ 32 -> put32bits (zeros 4) 0 v = Some ac -> bytes_ok ac /\ blen ac = 4 /\ at4 ac 0 = v.
Proof.
  intros Hv E. unfold put32bits in E. split_and!.
  - eapply Put4byte_ok; [apply zeros_ok|done].
  - rewrite (Put4byte_len _ _ _ _ E). done.
  - by eapply Put4byte_at4.
Qed.
Lemma put4_ok v : exists ac, put32bits (zeros 4) 0 v = Some ac.
Proof. apply Put4byte_in; [lia|rewrite zeros_len; lia]. Qed.

Lemma header_bytes_total magic ck n S ps len :
  28 <= len -> exists hb, header_bytes magic ck n S ps len = Some hb.
Proof.
  intros Hl. unfold header_bytes, put32bits. set (z0 := (if magic then _ else _) ++ _).
  assert (H0 : blen z0 = len). { unfold z0. destruct magic; unfold blen, zeros, aJournalMagic; rewrite !length_app, ?length_replicate; cbn [length]; lia. }
  destruct (Put4byte_in z0 12 ck) as [z1 E1]; [lia|lia|]. rewrite E1. cbn. apply Put4byte_len in E1.
  destruct (Put4byte_in z1 16 n) as [z2 E2]; [lia|lia|]. rewrite E2. cbn. apply Put4byte_len in E2.
  destruct (Put4byte_in z2 20 S) as [z3 E3]; [lia|lia|]. rewrite E3. cbn. apply Put4byte_len in E3.
  destruct (Put4byte_in z3 24 ps) as [z4 E4]; [lia|lia|]. rewrite E4. cbn. apply Put4byte_len in E4.
  unfold bzero. destruct (Z.leb_spec 0 (len - 28)); [|lia]. apply blit_in; [lia|].
  rewrite zeros_len by lia. lia.
Qed.
Lemma header_bytes_spec ck n S ps len hb :
  header_bytes false ck n S ps len = Some hb -> 28 <= len ->
  0 <= ck < 2 ^ 32 -> 0 <= n < 2 ^ 32 -> 0 <= S < 2 ^ 32 -> 0 <= ps < 2 ^ 32 ->
  bytes_ok hb /\ blen hb = len /\ bat hb 0 = 0 /\ (forall i, 0 <= i < 12 -> bat hb i = 0) /\
  at4 hb 12 = ck /\ at4 hb 16 = n /\ at4 hb 20 = S /\ at4 hb 24 = ps.
Proof.
  intros E Hl Hck Hn HS Hps. unfold header_bytes, put32bits in E. set (z0 := zeros 12 ++ zeros (len - 12)) in E.
  assert (H0 : blen z0 = len). { unfold z0, blen, zeros. rewrite length_app, !length_replicate. lia. }
  assert (K0 : bytes_ok z0) by (apply Forall_app; split; apply zeros_ok).
  destruct (sqlite3Put4byte z0 12 ck) as [z1|] eqn:E1; [|done]. cbn in E.
  destruct (sqlite3Put4byte z1 16 n) as [z2|] eqn:E2; [|done]. cbn in E.
  destruct (sqlite3Put4byte z2 20 S) as [z3|] eqn:E3; [|done]. cbn in E.
  destruct (sqlite3Put4byte z3 24 ps) as [z4|] eqn:E4; [|done]. cbn in E.
  unfold bzero in E. destruct (Z.leb_spec 0 (len - 28)); [|lia].
  pose proof (Put4byte_len _ _ _ _ E1). pose proof (Put4byte_len _ _ _ _ E2).
  pose proof (Put4byte_len _ _ _ _ E3). pose proof (Put4byte_len _ _ _ _ E4).
  assert (Hb : forall i, i < 28 -> bat hb i = bat z4 i).
  { intros i Hi. rewrite (blit_at _ _ _ _ i E). destruct (Z.leb_spec 28 i); [lia|done]. }
  assert (Hf : forall i, i <= 24 -> at4 hb i = at4 z4 i) by (intros i Hi; apply at4_eq; intros j Hj; apply Hb; lia).
  assert (Hz : forall i, 0 <= i < 12 -> bat hb i = 0).
  { intros i Hi. rewrite Hb by lia. rewrite (Put4byte_at _ _ _ _ i E4), (Put4byte_at _ _ _ _ i E3),
      (Put4byte_at _ _ _ _ i E2), (Put4byte_at _ _ _ _ i E1) by lia. unfold z0. rewrite bat_pad. apply zeros_at. }
  split_and!.
  - eapply blit_ok; [|apply zeros_ok|exact E]. eauto 6 using Put4byte_ok.
  - rewrite (blit_len _ _ _ _ E). lia.
  - apply Hz. lia.
  - done.
  - rewrite Hf by lia. rewrite (Put4byte_at4_other _ _ _ _ 12 E4), (Put4byte_at4_other _ _ _ _ 12 E3),
      (Put4byte_at4_other _ _ _ _ 12 E2) by lia. by eapply Put4byte_at4.
  - rewrite Hf by lia. rewrite (Put4byte_at4_other _ _ _ _ 16 E4), (Put4byte_at4_other _ _ _ _ 16 E3) by lia.
    by eapply Put4byte_at4.
  - rewrite Hf by lia. rewrite (Put4byte_at4_other _ _ _ _ 20 E4) by lia. by eapply Put4byte_at4.
  - rewrite Hf by lia. by eapply Put4byte_at4.
Qed.

(** ** Images of the journal and of the database *)

(** The database before a transaction, and its pages whose content nobody needs:
    the leaves of the list of free pages.  A page that is fetched with
    [PAGER_GET_NOCONTENT] is one of them, or new, and is not journalled. *)
Record old_db : Type := mkOld { old_data :> bytes; unused : gset Z }.

Section Images.
Context (S ps n lck : Z) (orig : old_db).
Hypothesis (HS : 32 <= S) (Hps : 0 < ps) (Hn : 0 <= n).

Definition db_pg (d : bytes) (p : Z) : bytes := seg d ((p - 1) * ps) ps.
(** Records with the original content of their pages. *)
Definition good_rec (r : jrec) : Prop :=
  1 <= fst r <= n /\ fst r <> lck /\ (fst r ∉ unused orig -> snd r = db_pg orig (fst r)).
Definition good_recs (rs : list jrec) : Prop := Forall good_rec rs /\ rlen rs < 0xffffffff.

(** The journal has the records [rs] before [H], and no header at [H]. *)
Definition jimg (rs : list jrec) (H : Z) (j : bytes) : Prop :=
  bytes_ok j /\ chain S ps n j 0 rs H /\ ~ magic_at j H.
(** The pages that can be overwritten: their content is in [rs], or not needed. *)
Definition known (rs : list jrec) : gset Z := pgs rs ∪ unused orig.
(** The database differs from the original only in such pages. *)
Definition dimg (rs : list jrec) (d : bytes) : Prop :=
  bytes_ok d /\ n * ps <= blen d /\
  forall p, 1 <= p <= n -> p ∉ known rs -> db_pg d p = db_pg orig p.
(** What playing back the journal [j] makes of [d] is the original database,
    but for the pages nobody needs. *)
Definition safe (j d : bytes) : Prop :=
  exists rs H, jimg rs H j /\ good_recs rs /\ dimg rs d.

Lemma db_pg_at d p i : 1 <= p -> 0 <= i < ps -> bat (db_pg d p) i = bat d ((p - 1) * ps + i).
Proof. intros Hp Hi. unfold db_pg. rewrite seg_at by nia. done. Qed.
Lemma db_pg_ext d d' p :
  1 <= p -> p * ps <= blen d -> p * ps <= blen d' ->
  (forall j, (p - 1) * ps <= j < p * ps -> bat d' j = bat d j) -> db_pg d' p = db_pg d p.
Proof. intros Hp H1 H2 He. unfold db_pg. apply seg_ext; try nia. intros j Hj. apply He. nia. Qed.
Lemma pgs_app rs1 rs2 : pgs (rs1 ++ rs2) = pgs rs1 ∪ pgs rs2.
Proof. unfold pgs. by rewrite map_app, list_to_set_app_L. Qed.
Lemma known_app rs1 rs2 : known rs1 ⊆ known (rs1 ++ rs2).
Proof. intros p. unfold known. rewrite pgs_app, !elem_of_union. tauto. Qed.
Lemma elem_known p rs : p ∈ known rs <-> p ∈ pgs rs \/ p ∈ unused orig.
Proof. apply elem_of_union. Qed.
Lemma dimg_more rs rs' d : dimg rs d -> known rs ⊆ known rs' -> dimg rs' d.
Proof. intros (A & B & C) Hs. split_and!; [done|done|]. intros p Hp Hn'. apply C; [done|]. intros Hx. by apply Hn', Hs. Qed.
Lemma jimg_safe rs H j d : jimg rs H j -> good_recs rs -> dimg rs d -> safe j d.
Proof. intros A G D. by exists rs, H. Qed.

Lemma jimg_push rs H o f :
  jop H o -> 0 <= H -> H mod S = 0 -> always S (jimg rs H) f -> always S (jimg rs H) (push o f).
Proof.
  intros Hj H0 Ha Hf. eapply always_push; [exact Hf|]. intros d d' (A & B & C) Hc.
  destruct (jop_keeps S H o d d' Hj H0 Ha Hc A C) as (D & E & F & G). split_and!; [done| |done].
  eapply chain_ext; [done|done|exact B|lia| |done]. intros j Hr. apply G. lia.
Qed.

(** Writes and truncations of the database that leave the other pages alone. *)
Definition dop (rs : list jrec) (o : fop) : Prop :=
  match o with
  | FWrite off b => bytes_ok b /\ 0 <= off /\
      forall p, 1 <= p <= n -> p ∉ known rs -> off + blen b <= (p - 1) * ps \/ p * ps <= off
  | FTrunc m => n * ps <= m
  end.
Lemma bat_trunc d m j : 0 <= j < m -> bat (fop_apply d (FTrunc m)) j = bat d j.
Proof. intros Hj. cbn [fop_apply]. rewrite bat_take by lia. apply bat_pad. Qed.
Lemma trunc_len d m : 0 <= m -> blen (fop_apply d (FTrunc m)) = m.
Proof. intros Hm. cbn [fop_apply]. unfold blen, zeros. rewrite length_take, length_app, length_replicate. lia. Qed.
Lemma trunc_ok d m : bytes_ok d -> bytes_ok (fop_apply d (FTrunc m)).
Proof. intros Hd. cbn [fop_apply]. apply Forall_take, Forall_app. split; [done|apply zeros_ok]. Qed.
Lemma dimg_step rs o d d' : dop rs o -> dimg rs d -> crash1 S o d d' -> dimg rs d'.
Proof.
  intros Ho (A & B & C) Hc. destruct o as [off b|m].
  - destruct Ho as (Hb & H0 & Hr).
    destruct (write_keeps S off b d d' 0 0 Hc A Hb H0) as (A' & L & _).
    { pose proof (blen_nonneg b). lia. }
    split_and!; [done|lia|]. intros p Hp Hn'. rewrite <- (C p Hp Hn'). apply db_pg_ext; [lia|nia|nia|].
    intros j Hj. destruct (write_keeps S off b d d' ((p - 1) * ps) (p * ps) Hc A Hb H0) as (_ & _ & E); [exact (Hr p Hp Hn')|].
    apply E; nia.
  - cbn in Ho. inversion Hc; subst; [done|]. split_and!; [by apply trunc_ok|rewrite trunc_len by nia; lia|].
    intros p Hp Hn'. rewrite <- (C p Hp Hn'). apply db_pg_ext; [lia|nia|rewrite trunc_len by nia; nia|].
    intros j Hj. apply bat_trunc. nia.
Qed.
Lemma dimg_push rs o f : dop rs o -> always S (dimg rs) f -> always S (dimg rs) (push o f).
Proof. intros Ho Hf. eapply always_push; [exact Hf|]. eauto using dimg_step. Qed.

(** *** The open segment *)

(** The header at [h], without magic and count, and records behind it. *)
Definition body (j : bytes) (h ck : Z) (rs : list jrec) : Prop :=
  fields_at S ps n j h ck /\ recs_at ps j (h + S) ck rs.

Lemma body_len j h ck rs : body j h ck rs -> h + S + rlen rs * (ps + 8) <= blen j.
Proof. intros [A B]. eapply recs_len; [exact B|apply A]. Qed.
Lemma body_write j h ck rs off b :
  body j h ck rs -> 0 <= h -> h + S + rlen rs * (ps + 8) <= off -> body (log_write j off b) h ck rs.
Proof.
  intros Hb Hh Ho. pose proof (body_len _ _ _ _ Hb). destruct Hb as [A B].
  assert (0 <= rlen rs * (ps + 8)) by (unfold rlen; nia). pose proof (write_len_ge j off b ltac:(lia)).
  split.
  - eapply fields_ext; [exact A| |lia]. intros i Hi. apply bat_write_out; lia.
  - eapply recs_ext; [done|exact B|lia| |lia]. intros i Hi. apply bat_write_out; lia.
Qed.
Lemma body_header j h ck hb :
  header_bytes false ck n S ps S = Some hb -> 0 <= h -> 0 <= ck < 2 ^ 32 -> n < 2 ^ 32 -> S < 2 ^ 32 -> ps < 2 ^ 32 ->
  body (log_write j h hb) h ck [].
Proof.
  intros E Hh Hck Hn' HS' Hps'. destruct (header_bytes_spec _ _ _ _ _ _ E) as (A & B & _ & _ & C1 & C2 & C3 & C4); try lia.
  split; [|done]. unfold fields_at. rewrite !at4_write_in by lia. split_and!; try done.
  rewrite <- B at 1. apply write_len_in; lia.
Qed.
(** The three writes of a record. *)
Lemma body_record j h ck rs p d c1 c2 :
  body j h ck rs -> 0 <= h -> blen d = ps -> bytes_ok d -> bytes_ok c1 -> bytes_ok c2 -> blen c1 = 4 -> blen c2 = 4 ->
  at4 c1 0 = p -> at4 c2 0 = pager_cksum ck d ->
  let off := h + S + rlen rs * (ps + 8) in
  body (log_write (log_write (log_write j off c1) (off + 4) d) (off + ps + 4) c2) h ck (rs ++ [(p, d)]).
Proof.
  intros Hb Hh Hd Kd K1 K2 L1 L2 E1 E2 off. assert (0 <= rlen rs * (ps + 8)) by (unfold rlen; nia).
  pose proof (body_len _ _ _ _ Hb).
  set (j1 := log_write j off c1). set (j2 := log_write j1 (off + 4) d).
  assert (B : body (log_write j2 (off + ps + 4) c2) h ck rs).
  { unfold j2, j1. do 3 (apply body_write; [|done|lia]). done. }
  destruct B as [B1 B2]. split; [done|]. apply recs_app. split; [done|]. split; [|done].
  fold off. unfold rec_at. cbn [fst snd]. split_and!.
  - rewrite at4_write_out by lia. unfold j2. rewrite at4_write_out by lia.
    pose proof (at4_write_in j off c1 0 ltac:(lia) ltac:(lia) ltac:(lia)) as X. rewrite Z.add_0_r in X. unfold j1. by rewrite X.
  - pose proof (seg_write j1 (off + 4) d ltac:(lia)) as X. rewrite Hd in X. etrans; [|exact X]. fold j2.
    assert (off + 4 + ps <= blen j2) by (rewrite <- Hd; apply write_len_in; lia).
    apply seg_ext; [lia|lia|lia| |].
    + pose proof (write_len_ge j2 (off + ps + 4) c2 ltac:(lia)). lia.
    + intros i Hi. apply bat_write_out; lia.
  - pose proof (at4_write_in j2 (off + ps + 4) c2 0 ltac:(lia) ltac:(lia) ltac:(lia)) as X. rewrite Z.add_0_r in X.
    replace (off + 4 + ps) with (off + ps + 4) by lia. by rewrite X.
  - pose proof (write_len_in j2 (off + ps + 4) c2 ltac:(lia) ltac:(lia)). lia.
Qed.

(** *** Sealing a segment *)

Definition sealed (j : bytes) (rs0 : list jrec) (h ck : Z) (rs1 : list jrec) : Prop :=
  jimg rs0 h j /\ body j h ck rs1 /\ ~ magic_at j (sector_up S (h + S + rlen rs1 * (ps + 8))).
Lemma seal_bytes cnt :
  0 <= cnt < 2 ^ 32 -> exists zh, put32bits (aJournalMagic ++ zeros 4) 8 cnt = Some zh /\
    bytes_ok zh /\ blen zh = 12 /\ at4 zh 8 = cnt /\ forall i, 0 <= i < 8 -> bat zh i = bat aJournalMagic i.
Proof.
  intros Hc. assert (L : blen (aJournalMagic ++ zeros 4) = 12) by done.
  destruct (Put4byte_in (aJournalMagic ++ zeros 4) 8 cnt) as [zh E]; [lia|lia|]. exists zh. split_and!; [done| | | |].
  - eapply Put4byte_ok; [|exact E]. apply Forall_app. split; [|apply zeros_ok].
    unfold aJournalMagic. repeat (constructor; [lia|]). constructor.
  - rewrite (Put4byte_len _ _ _ _ E). done.
  - by eapply Put4byte_at4.
  - intros i Hi. rewrite (Put4byte_at _ _ _ _ i E) by lia. apply bat_app_l. change (blen aJournalMagic) with 8. lia.
Qed.
Lemma seal_applied j rs0 h ck rs1 zh :
  sealed j rs0 h ck rs1 -> 0 <= h -> bytes_ok zh -> blen zh = 12 -> at4 zh 8 = rlen rs1 ->
  (forall i, 0 <= i < 8 -> bat zh i = bat aJournalMagic i) ->
  jimg (rs0 ++ rs1) (sector_up S (h + S + rlen rs1 * (ps + 8))) (log_write j h zh).
Proof.
  intros ((A & B & C) & D & Hq) Hh Kz Lz E4 Em. pose proof (body_len _ _ _ _ D) as Hl. destruct D as [D1 D2].
  assert (0 <= rlen rs1 * (ps + 8)) by (unfold rlen; nia).
  destruct (sector_up_spec S (h + S + rlen rs1 * (ps + 8)) ltac:(lia) ltac:(lia)) as [Hu _].
  pose proof (write_len_ge j h zh Hh). split_and!; [by apply log_write_ok| |].
  - eapply chain_join.
    + eapply chain_ext; [done|done|exact B|lia| |done]. intros i Hi. apply bat_write_out; lia.
    + pose proof (app_nil_r rs1) as X. rewrite <- X at 1. eapply (chain_seg _ _ _ _ _ ck); [| | | |constructor].
      * intros i Hi. rewrite bat_write_in by lia. by apply Em.
      * rewrite at4_write_in by lia. done.
      * eapply fields_ext; [exact D1| |]; [intros i Hi; apply bat_write_out; lia|]. destruct D1 as (_ & _ & _ & _ & D1'). lia.
      * eapply recs_ext; [done|exact D2|lia| |lia]. intros i Hi. apply bat_write_out; lia.
  - intros Hm. apply Hq. intros i Hi. rewrite <- (Hm i Hi). symmetry. apply bat_write_out; lia.
Qed.
(** After the write of the count, before the sync: sealed or not. *)
Lemma seal_push f rs0 h ck rs1 zh :
  always S (fun j => sealed j rs0 h ck rs1) f -> 0 <= h -> h mod S = 0 -> bytes_ok zh -> blen zh = 12 -> at4 zh 8 = rlen rs1 ->
  (forall i, 0 <= i < 8 -> bat zh i = bat aJournalMagic i) ->
  always S (fun j => jimg rs0 h j \/ jimg (rs0 ++ rs1) (sector_up S (h + S + rlen rs1 * (ps + 8))) j) (push (FWrite h zh) f).
Proof.
  intros Hf Hh Ha Kz Lz E4 Em. eapply always_push; [exact Hf|]. intros d d' Hd Hc.
  inversion Hc as [| |? ? ? ? Hne _]; subst.
  - left. apply Hd.
  - right. cbn [fop_apply]. eapply seal_applied; [exact Hd|exact Hh|exact Kz|exact Lz|exact E4|exact Em].
  - exfalso. apply Hne. rewrite Lz. apply Z.div_exact in Ha; [|lia]. set (q := h / S) in *.
    replace (h + 12 - 1) with (11 + q * S) by lia. rewrite Z.div_add, Z.div_small by lia. lia.
Qed.
End Images.
