(* ===== verification/JrnlSteps.v ===== *)
(** * The journal: requests, and the invariant of the two files

    [file_inv]: the journal holds the synced records [rs0] up to the open header
    at [H], the database differs from the original only in their pages, and
    every state of the two files so far could be recovered from.  This file has
    the rules for the requests to the files and for the functions of the pager
    that do nothing else. *)
From stdpp Require Import gmap.
From S2P Require Import Prelude Bits Bytes Varint Wal WalIndex WalRecover WalRecovery WalWrite WalFile WalTx WalSteps Jrnl JrnlFile.

(** Rules of [M pst]. *)
Lemma wp_setp f Q (s : pst) : Q (Ret tt) (set_pg (f (pg s)) s) -> wp (setp f) Q s.
Proof. done. Qed.
Lemma wp_setc f Q (s : pst) : Q (Ret tt) (set_pc (f (pc s)) s) -> wp (setc f) Q s.
Proof. done. Qed.
Lemma wp_getp {A} (f : Pager -> A) Q (s : pst) : Q (Ret (f (pg s))) s -> wp (getp f) Q s.
Proof. done. Qed.

Lemma wp_after {A B} (m : M pst A) (f : A -> M pst B) (P : A -> pst -> Prop) Q s :
  wp m (returns P) s -> (forall a s', P a s' -> wp (f a) (returns Q) s') -> wp m (after f (returns Q)) s.
Proof. intros H1 H2. eapply wp_mono; [exact H1|]. intros [a|rc|] s'; cbn [returns okp after]; [apply H2|done|done]. Qed.

Section Steps.
Context `{W : World} (ps n : Z) (orig : old_db).
Abbreviation Sz := sector.
Definition lck : Z := PENDING_BYTE / ps + 1.
Hypothesis (HS : 32 <= Sz) (Hps : 0 < ps) (Hn : 0 <= n).

Lemma wp_request Q s : (forall rc, Q (Ret rc) (tick s)) -> wp request Q s.
Proof. intros H. apply H. Qed.
Lemma wp_alloc Q s : (forall b, Q (Ret b) (tick s)) -> wp malloc Q s.
Proof. intros H. apply H. Qed.

(** The database can be recovered from every crash image of the two files. *)
Definition safe_pair (f : jfile * jfile) : Prop :=
  forall j d, crash Sz (fst f) j -> crash Sz (snd f) d -> safe Sz ps n lck orig j d.
Definition trail_safe (s : pst) : Prop := Forall safe_pair (trail s).

(** [P] when the result code is 0. *)
Definition ends (P : pst -> Prop) : out Z -> pst -> Prop :=
  returns (fun rc s => trail_safe s /\ (rc = SQLITE_OK -> P s)).
Lemma wp_try m k (P Q : pst -> Prop) s :
  wp m (ends P) s -> (forall s', P s' -> wp k (ends Q) s') -> wp (try_ m k) (ends Q) s.
Proof.
  intros H1 H2. unfold try_. eapply wp_seq; [exact H1|]. intros rc s' [A B].
  destruct (Z.eqb_spec rc SQLITE_OK) as [E|E]; [auto|]. apply wp_ret. split; [done|]. by intros.
Qed.
Lemma ends_mono m (P Q : pst -> Prop) s : wp m (ends P) s -> (forall s', P s' -> Q s') -> wp m (ends Q) s.
Proof. intros H1 H2. eapply okp_mono; [exact H1|]. intros rc s' [A B]. split; auto. Qed.
Lemma ends_ret (P : pst -> Prop) rc s : trail_safe s -> (rc = SQLITE_OK -> P s) -> wp (ret rc) (ends P) s.
Proof. intros A B. apply wp_ret. by split. Qed.

(** ** The files *)

Record file_inv (rs0 : list jrec) (H : Z) (s : pst) : Prop := {
  fi_j : always Sz (jimg Sz ps n rs0 H) (jf s);
  fi_d : always Sz (dimg ps n orig rs0) (df s);
  fi_good : good_recs ps n lck orig rs0;
  fi_pos : 0 <= H /\ H mod Sz = 0;
  fi_trail : trail_safe s;
}.
(** Only files, requests and the trail differ. *)
Definition same_mem (s s' : pst) : Prop := pg s' = pg s /\ pc s' = pc s.

Lemma file_inv_eq rs0 H s s' :
  file_inv rs0 H s -> jf s' = jf s -> df s' = df s -> trail s' = trail s -> file_inv rs0 H s'.
Proof. intros [A B C D E] E1 E2 E3. split; rewrite ?E1, ?E2; try done. unfold trail_safe. by rewrite E3. Qed.
Lemma file_inv_safe rs0 H j d :
  always Sz (jimg Sz ps n rs0 H) j -> always Sz (dimg ps n orig rs0) d -> good_recs ps n lck orig rs0 -> safe_pair (j, d).
Proof. intros A B C j' d' Hj Hd. eapply jimg_safe; [by apply A|done|by apply B]. Qed.

Lemma jop_take H off d k : jop H (FWrite off d) -> jop H (FWrite off (take k d)).
Proof.
  intros [A B]. split; [by apply Forall_take|]. destruct B as [B|[-> B]]; [by left|]. right. split; [done|].
  destruct B as [->|B]; [left; by rewrite take_nil|]. destruct d as [|x d], k; cbn; auto.
Qed.
Lemma dop_take rs off d k : dop ps n orig rs (FWrite off d) -> dop ps n orig rs (FWrite off (take k d)).
Proof.
  intros (A & B & C). split_and!; [by apply Forall_take|done|]. intros p Hp Hn'. pose proof (blen_take_le k d).
  destruct (C p Hp Hn'); lia.
Qed.

Lemma wp_write_j rs0 H d off s :
  file_inv rs0 H s -> jop H (FWrite off d) ->
  wp (os_write JF d off) (ends (fun s' => file_inv rs0 H s' /\ same_mem s s' /\ df s' = df s /\
    f_cur (jf s') = log_write (f_cur (jf s)) off d)) s.
Proof.
  intros [A B C D E] Hj. unfold os_write, wp. cbv zeta. cbn [fst snd get_file].
  set (k := Z.to_nat _). destruct D as [D1 D2].
  pose proof (jimg_push Sz ps n HS Hps rs0 H _ _ (jop_take _ _ _ k Hj) D1 D2 A) as A'.
  assert (T : trail_safe (tick (set_file JF (push (FWrite off (take k d)) (jf s)) s))).
  { constructor; [|done]. by eapply file_inv_safe. }
  split; [done|]. intros Hrc. split_and!; [by split|done|done|].
  etrans; [apply cur_push|]. cbn [fop_apply]. f_equal. subst k. rewrite Hrc. cbn. unfold blen. rewrite Nat2Z.id. apply firstn_all.
Qed.
Lemma wp_write_d rs0 H d off s :
  file_inv rs0 H s -> dop ps n orig rs0 (FWrite off d) ->
  wp (os_write DF d off) (ends (fun s' => file_inv rs0 H s' /\ same_mem s s' /\ jf s' = jf s /\
    f_cur (df s') = log_write (f_cur (df s)) off d)) s.
Proof.
  intros [A B C D E] Ho. unfold os_write, wp. cbv zeta. cbn [fst snd get_file]. set (k := Z.to_nat _).
  pose proof (dimg_push Sz ps n orig HS Hps Hn rs0 _ _ (dop_take _ _ _ k Ho) B) as B'.
  assert (T : trail_safe (tick (set_file DF (push (FWrite off (take k d)) (df s)) s))).
  { constructor; [|done]. by eapply file_inv_safe. }
  split; [done|]. intros Hrc. split_and!; [by split|done|done|].
  etrans; [apply cur_push|]. cbn [fop_apply]. f_equal. subst k. rewrite Hrc. cbn. unfold blen. rewrite Nat2Z.id. apply firstn_all.
Qed.
Lemma wp_trunc_d rs0 H m s :
  file_inv rs0 H s -> n * ps <= m ->
  wp (os_truncate DF m) (ends (fun s' => file_inv rs0 H s' /\ same_mem s s' /\ jf s' = jf s /\
    f_cur (df s') = fop_apply (f_cur (df s)) (FTrunc m))) s.
Proof.
  intros I Hm. pose proof I as [A B C D E]. unfold os_truncate, wp. cbv zeta. cbn [fst snd].
  destruct (Z.eqb_spec (ioRc (nio s)) SQLITE_OK) as [Hrc|Hrc].
  - pose proof (dimg_push Sz ps n orig HS Hps Hn rs0 (FTrunc m) _ Hm B) as B'.
    assert (T : trail_safe (tick (set_file DF (push (FTrunc m) (df s)) s))).
    { constructor; [|done]. by eapply file_inv_safe. }
    split; [done|]. intros _. split_and!; [by split|done|done|]. apply cur_push.
  - split; [done|]. by intros.
Qed.
Lemma wp_hint_d rs0 H s :
  file_inv rs0 H s ->
  wp (os_size_hint DF) (returns (fun _ s' => file_inv rs0 H s' /\ same_mem s s' /\ jf s' = jf s /\
    exists m, blen (f_cur (df s)) <= m /\ f_cur (df s') = fop_apply (f_cur (df s)) (FTrunc m))) s.
Proof.
  intros [A B C D E]. unfold os_size_hint, wp. cbn [fst snd get_file]. set (m := blen _ + _).
  assert (Hm : n * ps <= m). { pose proof (always_cur _ _ _ B) as (_ & L & _). unfold m. lia. }
  pose proof (dimg_push Sz ps n orig HS Hps Hn rs0 (FTrunc m) _ Hm B) as B'.
  assert (T : trail_safe (tick (set_file DF (push (FTrunc m) (df s)) s))).
  { constructor; [|done]. by eapply file_inv_safe. }
  split_and!; [by split|done|done|]. exists m. split; [unfold m; lia|]. apply cur_push.
Qed.
(** A sync of either file, with a new list of synced records. *)
Lemma wp_sync_d rs0 H flags s :
  file_inv rs0 H s -> flags <> 0 ->
  wp (os_sync DF flags) (ends (fun s' => file_inv rs0 H s' /\ same_mem s s' /\ jf s' = jf s /\ df s' = flushed (df s))) s.
Proof.
  intros I Hf. pose proof I as [A B C D E]. unfold os_sync. destruct (Z.eqb_spec flags 0); [done|].
  unfold wp. cbv zeta. cbn [fst snd]. destruct (Z.eqb_spec (ioRc (nio s)) SQLITE_OK) as [Hrc|Hrc].
  - assert (B' : always Sz (dimg ps n orig rs0) (flushed (df s))) by (apply always_flushed; by eapply always_cur).
    assert (T : trail_safe (tick (set_file DF (flushed (df s)) s))) by (constructor; [by eapply file_inv_safe|done]).
    split; [done|]. intros _. split_and!; [by split|done..].
  - split; [done|]. by intros.
Qed.
Lemma wp_sync_j rs0 H flags s :
  file_inv rs0 H s -> flags <> 0 ->
  wp (os_sync JF flags) (ends (fun s' => file_inv rs0 H s' /\ same_mem s s' /\ df s' = df s /\ jf s' = flushed (jf s))) s.
Proof.
  intros I Hf. pose proof I as [A B C D E]. unfold os_sync. destruct (Z.eqb_spec flags 0); [done|].
  unfold wp. cbv zeta. cbn [fst snd]. destruct (Z.eqb_spec (ioRc (nio s)) SQLITE_OK) as [Hrc|Hrc].
  - assert (A' : always Sz (jimg Sz ps n rs0 H) (flushed (jf s))) by (apply always_flushed; by eapply always_cur).
    assert (T : trail_safe (tick (set_file JF (flushed (jf s)) s))) by (constructor; [by eapply file_inv_safe|done]).
    split; [done|]. intros _. split_and!; [by split|done..].
  - split; [done|]. by intros.
Qed.
Lemma write_code w d off s : exists s', os_write w d off s = (Ret (ioRc (nio s)), s').
Proof. unfold os_write. eauto. Qed.
Lemma wp_os_size w s Q : (forall rc, Q (Ret (rc, blen (f_cur (get_file w s)))) (tick s)) -> wp (os_size w) Q s.
Proof. intros H. apply H. Qed.
Lemma wp_os_read w m off s Q :
  (forall k, ioRc k <> SQLITE_OK -> Q (Ret (ioRc k, zeros m)) (tick s)) ->
  (blen (seg (f_cur (get_file w s)) off m) < m ->
     Q (Ret (SQLITE_IOERR_SHORT_READ, seg (f_cur (get_file w s)) off m ++ zeros (m - blen (seg (f_cur (get_file w s)) off m)))) (tick s)) ->
  (m <= blen (seg (f_cur (get_file w s)) off m) -> Q (Ret (SQLITE_OK, seg (f_cur (get_file w s)) off m)) (tick s)) ->
  wp (os_read w m off) Q s.
Proof.
  intros H1 H2 H3. unfold os_read, wp. cbv zeta. cbn [fst snd].
  destruct (Z.eqb_spec (ioRc (nio s)) SQLITE_OK) as [Hrc|Hrc]; cbn [negb]; [|by apply H1].
  destruct (Z.ltb_spec (blen (seg (f_cur (get_file w s)) off m)) m); [by apply H2|by apply H3].
Qed.
End Steps.
