(* ===== verification/JrnlSync.v ===== *)
(** * Syncing the journal

    What [writeJournalHdr], [syncJournal] and [pagerAddPageToRollbackJournal] do
    to the journal: the records behind the open header become synced records,
    and at every moment the journal ends with what was synced. *)
From stdpp Require Import gmap.
From S2P Require Import Prelude Bits Bytes Varint Wal WalIndex WalRecover WalRecovery WalWrite WalFile WalTx WalSteps Jrnl JrnlFile JrnlSteps.

(** What makes a transaction safe: syncs are not switched off, and no shortcut
    for special devices is taken. *)
Record durable `{W : World} : Prop := {
  du_sync : noSync = false;
  du_full : fullSync = true;
  du_flags : syncFlags = SQLITE_SYNC_NORMAL \/ syncFlags = SQLITE_SYNC_FULL;
  du_append : Z.land iDc SQLITE_IOCAP_SAFE_APPEND = 0;
  du_seq : Z.land iDc SQLITE_IOCAP_SEQUENTIAL = 0;
  du_mode : journalMode = PAGER_JOURNALMODE_DELETE \/ journalMode = PAGER_JOURNALMODE_PERSIST \/
            journalMode = PAGER_JOURNALMODE_TRUNCATE;
  (* [xRead] reports a short read only when the file is too short *)
  du_short k : ioRc k <> SQLITE_IOERR_SHORT_READ;
}.

(** The sizes of sectors and pages, and the number of pages before the
    transaction. *)
Record setting `{W : World} (ps n : Z) : Prop := {
  se_sector : 32 <= sector <= ps;
  se_page : 512 <= ps <= SQLITE_MAX_PAGE_SIZE;
  se_orig : 0 <= n < 0xffffffff;
  se_durable : durable;
}.

(** Only the lock of the pager differs. *)
Definition lock_step (s s' : pst) : Prop :=
  (exists l, pg s' = set_eLock l (pg s)) /\ pc s' = pc s /\ jf s' = jf s /\ df s' = df s /\ trail s' = trail s.
Lemma lock_refl s : lock_step s s.
Proof. split; [|done]. exists (eLock (pg s)). by destruct (pg s). Qed.
Lemma lock_trans s1 s2 s3 : lock_step s1 s2 -> lock_step s2 s3 -> lock_step s1 s3.
Proof.
  intros ([l A] & B & C & D & E) ([l' A'] & B' & C' & D' & E'). split; [|by rewrite B', C', D', E'].
  exists l'. by rewrite A', A.
Qed.
Lemma lock_tick s s' : lock_step s s' -> lock_step s (tick s').
Proof. done. Qed.
Lemma wp_lock `{W : World} l s : wp (pagerLockDb l) (returns (fun _ s' => lock_step s s')) s.
Proof.
  unfold pagerLockDb, getp. wp_go. case_if; wp_go; [|apply lock_refl]. apply wp_request. intros rc. wp_go.
  case_if; wp_go; [|apply lock_tick, lock_refl]. split; [|done]. by exists l.
Qed.
Lemma wp_wait `{W : World} l s : wp (pager_wait_on_lock l) (returns (fun _ s' => lock_step s s')) s.
Proof.
  unfold pager_wait_on_lock. wp_go. generalize (busy (nio s)) as k. intros k. revert s. induction k as [|k IH]; intros s; cbn [wait_loop].
  - eapply wp_seq; [apply wp_lock|]. intros rc s' A. by wp_go.
  - eapply wp_seq; [apply wp_lock|]. intros rc s' A. case_if; [|by wp_go].
    eapply okp_mono; [apply IH|]. intros rc' s'' B. cbn in *. by eapply lock_trans.
Qed.

Section Tx.
Context `{W : World} (ps n : Z) (orig : old_db).
Abbreviation Sz := sector.
Abbreviation PG := (ps + 8).
Hypothesis (Hset : setting ps n).
Let HS : 32 <= Sz := proj1 (se_sector _ _ Hset).
Let HSps : Sz <= ps := proj2 (se_sector _ _ Hset).
Let Hps : 512 <= ps <= SQLITE_MAX_PAGE_SIZE := se_page _ _ Hset.
Let Hn : 0 <= n < 0xffffffff := se_orig _ _ Hset.
Let Hdu : durable := se_durable _ _ Hset.
Abbreviation file_inv := (file_inv ps n orig).
Abbreviation ends := (ends ps n orig).
Abbreviation trail_safe := (trail_safe ps n orig).

Record geom (p : Pager) : Prop := {
  g_ps : pageSize p = ps;
  g_sec : sectorSize p = Sz;
  g_orig : dbOrigSize p = n;
  g_err : errCode p = SQLITE_OK;
  g_size : n <= dbSize p < 2 ^ 32;
  g_fsize : n <= dbFileSize p;
  g_ref : 0 < nRefSum p;
  g_vers : bytes_ok (dbFileVers p) /\ blen (dbFileVers p) = 16;
  g_mx : mxPgno p < 2 ^ 32;
}.
(** The journal is open: [rs0] synced before the header at [H], [rs1] behind it. *)
Record jstate (H ck : Z) (rs0 rs1 : list jrec) (p : Pager) (j : jfile) : Prop := {
  js_hdr : journalHdr p = H;
  js_off : journalOff p = H + Sz + rlen rs1 * PG;
  js_nrec : nRec p = rlen rs1;
  js_ck : cksumInit p = ck /\ 0 <= ck < 2 ^ 32;
  js_in : exists L, L ⊆ unused orig /\ pInJournal p = Some (pgs (rs0 ++ rs1) ∪ L);
  js_open : jOpen p = true;
  js_body : body Sz ps n (f_cur j) H ck rs1;
  js_good : good_recs ps n (lck ps) orig (rs0 ++ rs1);
  js_nodup : NoDup (map fst (rs0 ++ rs1));
}.

(** *** Headers *)

Lemma hdr_offset p : sectorSize p = Sz -> journalHdrOffset p = sector_up Sz (journalOff p).
Proof. intros E. unfold journalHdrOffset, JOURNAL_HDR_SZ, sector_up. by rewrite E. Qed.

Lemma wp_writeJournalHdr rs0 H s :
  file_inv rs0 H s -> geom (pg s) -> journalHdrOffset (pg s) = H ->
  wp writeJournalHdr (ends (fun s' => file_inv rs0 H s' /\ pc s' = pc s /\ df s' = df s /\
    exists ck, 0 <= ck < 2 ^ 32 /\ body Sz ps n (f_cur (jf s')) H ck [] /\
      pg s' = set_journalOff (H + Sz) (set_cksumInit ck (set_journalHdr H (set_journalOff H (pg s)))))) s.
Proof.
  intros I G EH. destruct G as [G1 G2 G3 G4 G5 G5' G6 G7 G8]. destruct Hdu as [D1 D2 D3 D4 D5 D6 D7].
  pose proof (fi_pos _ _ _ _ _ _ I) as [H0 Ha].
  unfold writeJournalHdr, getp, setp. wp_go. rewrite D1, D4. unfold id. cbn [orb negb].
  assert (Em : (journalMode =? PAGER_JOURNALMODE_MEMORY) = false) by (destruct D6 as [E6|[E6|E6]]; by rewrite E6).
  rewrite Em. change (0 =? 0) with true. cbn [negb orb]. wp_go. apply wp_request. intros rc0. wp_go.
  cbn [pg tick set_pg set_cksumInit set_journalHdr set_journalOff cksumInit dbOrigSize sectorSize pageSize].
  assert (En : (if Sz <? ps then Sz else ps) = Sz) by (destruct (Z.ltb_spec Sz ps); lia).
  unfold JOURNAL_HDR_SZ. rewrite G1, G2, G3, !En.
  match goal with |- context [header_bytes false ?c] => set (ck := c) end.
  assert (Hck : 0 <= ck < 2 ^ 32) by apply u32_range.
  destruct (header_bytes_total false ck n Sz ps Sz) as [hb Ehb]; [lia|]. rewrite Ehb. wp_go.
  cbn [pg set_pg tick sectorSize set_cksumInit set_journalHdr set_journalOff]. rewrite G2.
  destruct (header_bytes_spec _ _ _ _ _ _ Ehb) as (K1 & K2 & K3 & _);
    try (unfold SQLITE_MAX_PAGE_SIZE in *; lia); [].
  destruct (Z.to_nat Sz) as [|k] eqn:Ek; [lia|]. cbn [header_loop]. unfold getp, setp, JOURNAL_HDR_SZ. wp_go.
  unfold id. cbn [pg set_pg tick sectorSize journalOff set_cksumInit set_journalHdr set_journalOff]. rewrite G2, EH.
  change (SQLITE_OK =? SQLITE_OK) with true. destruct (Z.ltb_spec 0 Sz); [|lia]. cbn [andb]. wp_go.
  match goal with |- wp (os_write JF hb H) _ ?st => set (s1 := st) end.
  assert (I1 : file_inv rs0 H s1) by (by eapply file_inv_eq).
  eapply wp_mono; [apply (wp_write_j ps n orig HS ltac:(lia) rs0 H hb H s1 I1)|].
  { split; [done|]. right. split; [done|]. by right. }
  intros [rc|rc|] s2; cbn [okp returns after JrnlSteps.ends]; [|done|done]. intros [T P]. wp_go. unfold id.
  cbn [pg set_pg sectorSize set_journalOff].
  destruct (Z.eqb_spec rc SQLITE_OK) as [Erc|Erc]; cbn [andb]; [|wp_go; split; [done|by intros]].
  destruct (P Erc) as (I2 & [M1 M2] & Ed & Ej).
  replace (sectorSize (pg s2)) with Sz by (rewrite M1; done). destruct (Z.ltb_spec (0 + Sz) Sz); [lia|]. wp_go. split; [done|]. intros _.
  split_and!; [by eapply file_inv_eq|done|done|]. exists ck. split_and!; [lia|lia| |].
  - cbn. rewrite Ej. apply body_header; try (unfold SQLITE_MAX_PAGE_SIZE in *; lia); done.
  - cbn. rewrite M1. by cbn.
Qed.


(** *** Syncing the journal *)

Lemma magic_seg d h : 0 <= h -> h + 8 <= blen d -> seg d h 8 = aJournalMagic <-> magic_at d h.
Proof.
  intros Hh Hl. assert (L : blen (seg d h 8) = 8) by (unfold blen at 1; rewrite seg_len by lia; done). split.
  - intros E i Hi. rewrite <- E. rewrite seg_at by lia. done.
  - intros Hm. apply bytes_ext; [done|]. intros i Hi. rewrite L in Hi. rewrite seg_at by lia. by apply Hm.
Qed.
Lemma seg_short d h m : 0 <= h -> 0 <= m -> blen (seg d h m) < m -> blen d < h + m.
Proof.
  intros Hh Hm Hl. destruct (Z.lt_ge_cases (blen d) (h + m)) as [|Hge]; [done|].
  unfold blen at 1 in Hl. rewrite seg_len in Hl by lia. lia.
Qed.
Lemma seg_full d h m : 0 <= h -> 0 < m -> m <= blen (seg d h m) -> h + m <= blen d.
Proof.
  intros Hh Hm Hl. unfold blen, seg in *. rewrite length_take, length_drop in Hl. lia.
Qed.
Lemma short_not_magic d h : 0 <= h -> blen d < h + 8 -> ~ magic_at d h.
Proof. intros Hh Hl Hm. specialize (Hm 7 ltac:(lia)). rewrite bat_outside in Hm by lia. by vm_compute in Hm. Qed.

(** After the write of the header: sealed or not. *)
Definition halfway (rs0 rs1 : list jrec) (H : Z) (s s' : pst) : Prop :=
  let N := sector_up Sz (H + Sz + rlen rs1 * PG) in
  trail_safe s' /\ same_mem s s' /\ df s' = df s /\ jimg Sz ps n (rs0 ++ rs1) N (f_cur (jf s')) /\
  always Sz (fun j => jimg Sz ps n rs0 H j \/ jimg Sz ps n (rs0 ++ rs1) N j) (jf s').

Lemma rlen_small rs0 rs1 : good_recs ps n (lck ps) orig (rs0 ++ rs1) -> 0 <= rlen rs1 < 0xffffffff /\ 0 <= rlen rs1 * PG.
Proof.
  intros [_ H]. unfold rlen in *. rewrite length_app in H. split; [lia|]. apply Z.mul_nonneg_nonneg; lia.
Qed.
Lemma next_header rs0 rs1 H :
  good_recs ps n (lck ps) orig (rs0 ++ rs1) -> 0 <= H ->
  let N := sector_up Sz (H + Sz + rlen rs1 * PG) in H + Sz + rlen rs1 * PG <= N /\ N mod Sz = 0.
Proof.
  intros G HH N. destruct (rlen_small _ _ G). destruct (sector_up_spec Sz (H + Sz + rlen rs1 * PG)) as [A B]; [lia|lia|].
  split; [apply A|done].
Qed.

(** A written prefix of a request is all of it when the request succeeds. *)
Lemma cur_written f off d k :
  k = Z.to_nat (blen d) -> f_cur (push (FWrite off (take k d)) f) = log_write (f_cur f) off d.
Proof. intros ->. etrans; [apply cur_push|]. cbn [fop_apply]. f_equal. unfold blen. rewrite Nat2Z.id. apply firstn_all. Qed.
Lemma header_in_sector H m : H mod Sz = 0 -> 0 < m <= 32 -> in_sector H m = true.
Proof.
  intros Ha Hm. unfold in_sector. apply Z.eqb_eq. apply Z.div_exact in Ha; [|lia]. set (q := H / Sz) in *.
  replace (H + m - 1) with ((m - 1) + q * Sz) by lia. rewrite Z.div_add, Z.div_small by lia. lia.
Qed.
(** The count is written to a journal that is synced but for it. *)
Lemma wp_seal_write H ck rs0 rs1 zh s :
  file_inv rs0 H s -> good_recs ps n (lck ps) orig (rs0 ++ rs1) ->
  always Sz (fun j => sealed Sz ps n j rs0 H ck rs1) (jf s) ->
  bytes_ok zh -> blen zh = 12 -> at4 zh 8 = rlen rs1 -> (forall i, 0 <= i < 8 -> bat zh i = bat aJournalMagic i) ->
  wp (os_write JF zh H) (ends (halfway rs0 rs1 H s)) s.
Proof.
  intros I J8 K2 Kz Lz E4 Em. destruct I as [X1 X2 X3 [H0 Ha] X5].
  pose proof (seal_push Sz ps n HS ltac:(lia) _ _ _ _ _ zh K2 H0 Ha Kz Lz E4 Em) as P3.
  unfold os_write, wp. cbv zeta. cbn [fst snd get_file]. rewrite Lz, (header_in_sector H 12 Ha) by lia.
  set (k := Z.to_nat _). assert (Hk : take k zh = zh \/ take k zh = []).
  { subst k. assert (Lz' : length zh = 12%nat) by (unfold blen in Lz; lia).
    destruct (ioRc (nio s) =? SQLITE_OK); [left; apply take_ge; lia|]. case_if; [left; apply take_ge; lia|right; by rewrite take_0]. }
  assert (P4 : always Sz (fun j => jimg Sz ps n rs0 H j \/ jimg Sz ps n (rs0 ++ rs1) (sector_up Sz (H + Sz + rlen rs1 * PG)) j)
    (push (FWrite H (take k zh)) (jf s))).
  { destruct Hk as [->| ->]; [done|]. eapply always_mono; [|eapply (jimg_push Sz ps n HS ltac:(lia) rs0 H); [|done|done|exact X1]].
    - intros d Hd. by left.
    - split; [constructor|]. right. split; [done|]. by left. }
  assert (T : trail_safe (tick (set_file JF (push (FWrite H (take k zh)) (jf s)) s))).
  { constructor; [|done]. intros j d Hj Hd. cbn [fst snd] in Hj, Hd. apply P4 in Hj as [Hj|Hj].
    - eapply jimg_safe; [exact Hj|done|by apply X2].
    - eapply jimg_safe; [exact Hj|done|]. eapply dimg_more; [by apply X2|]. apply known_app. }
  split; [done|]. intros Hrc. split_and!; [done|done|done| |exact P4].
  replace (f_cur _) with (log_write (f_cur (jf s)) H zh).
  - eapply seal_applied; [done|lia|by eapply always_cur|done..].
  - symmetry. apply cur_written. subst k. by rewrite Hrc, Lz.
Qed.

Lemma wp_seal H ck rs0 rs1 s :
  file_inv rs0 H s -> geom (pg s) -> jstate H ck rs0 rs1 (pg s) (jf s) ->
  wp seal_header (ends (halfway rs0 rs1 H s)) s.
Proof.
  intros I G J. destruct J as [J1 J2 J3 J4 J5 J6 J7 J8 J9]. pose proof (g_sec _ G) as G2. destruct Hdu as [D1 D2 D3 D4 D5 D6 D7].
  pose proof (fi_pos _ _ _ _ _ _ I) as [H0 Ha]. pose proof (fi_trail _ _ _ _ _ _ I) as T0.
  destruct (rlen_small _ _ J8) as [Hr1 Hr2]. destruct (next_header _ _ _ J8 H0) as [Hu Hua].
  set (N := sector_up Sz (H + Sz + rlen rs1 * PG)) in *.
  assert (EN : journalHdrOffset (pg s) = N) by (rewrite hdr_offset by done; by rewrite J2).
  unfold seal_header, getp. wp_go. unfold id. rewrite J3. destruct (seal_bytes (rlen rs1)) as (zh & Ez & Kz & Lz & E4 & Em); [lia|].
  rewrite Ez, EN. wp_go.
  (* the state after the next header was looked at, and destroyed if it is one *)
  set (Q1 := fun s' => file_inv rs0 H s' /\ same_mem s s' /\ df s' = df s /\ body Sz ps n (f_cur (jf s')) H ck rs1 /\ ~ magic_at (f_cur (jf s')) N).
  assert (Hrest : forall s', Q1 s' ->
    wp ((if fullSync && (Z.land iDc SQLITE_IOCAP_SEQUENTIAL =? 0) then os_sync JF syncFlags else ret SQLITE_OK) ;;? os_write JF zh (journalHdr (pg s)))
      (ends (halfway rs0 rs1 H s)) s').
  { intros s' (I' & M' & Ed' & B' & Nm'). rewrite D2, D5. cbn [andb]. change (0 =? 0) with true. cbv iota.
    eapply wp_try; [apply (wp_sync_j ps n orig _ _ _ _ I'); destruct D3 as [E|E]; by rewrite E|].
    intros s2 (I2 & M2 & Ed2 & Ej2). rewrite J1.
    assert (K : sealed Sz ps n (f_cur (jf s')) rs0 H ck rs1).
    { split_and!; [|done|done]. eapply always_cur, (fi_j _ _ _ _ _ _ I'). }
    eapply ends_mono; [eapply (wp_seal_write H ck rs0 rs1); try done; rewrite Ej2; by apply always_flushed|].
    intros s3 (T3 & [M3 M3'] & Ed3 & R). destruct M' as [M1' M2'], M2 as [M1 M2]. split_and!; [done|split| |apply R..]; congruence. }
  apply wp_os_read; cbn [get_file tick jf].
  - intros k Hrc. pose proof (D7 k) as Hk. revert Hrc Hk. generalize (ioRc k) as rc. intros rc Hrc Hk. wp_go. destruct (Z.eqb_spec rc SQLITE_OK) as [|_]; [done|]. cbn [andb]. wp_go.
    destruct (Z.eqb_spec rc SQLITE_OK) as [|_]; [done|]. cbn [negb andb].
    destruct (Z.eqb_spec rc SQLITE_IOERR_SHORT_READ) as [E|E]; cbn [negb]; [done|]. wp_go. by split.
  - intros Hl. apply seg_short in Hl; [|lia|lia]. wp_go. apply (Hrest (tick s)).
    split_and!; [by eapply file_inv_eq|done|done|done|]. apply short_not_magic; [lia|done].
  - intros Hl. apply seg_full in Hl; [|lia|lia]. wp_go. cbn [andb]. change (SQLITE_OK =? SQLITE_OK) with true. cbn [andb].
    case_bool_decide as Em'; cbn [andb].
    + assert (I1 : file_inv rs0 H (tick s)) by (by eapply file_inv_eq).
      wp_go. assert (Hop : jop H (FWrite N [0])) by (split; [by repeat constructor|left; lia]).
      pose proof (wp_write_j ps n orig HS ltac:(lia) rs0 H [0] N _ I1 Hop) as Hw. destruct (write_code JF [0] N (tick s)) as [s2 Ew].
      unfold wp in Hw. unfold wp. rewrite Ew in *. cbn [fst snd] in *. pose proof (D7 (nio (tick s))) as Hk.
      revert Hw Hk. generalize (ioRc (nio (tick s))) as rc. intros rc [T P] Hk. cbn [after].
      destruct (Z.eqb_spec rc SQLITE_OK) as [Erc|Erc]; cbn [negb andb].
      * destruct (P Erc) as (I2 & M2 & Ed & Ej). apply Hrest. split_and!; [done|done|done| |].
        -- rewrite Ej. cbn [jf tick]. apply body_write; [done|lia|done|done|lia].
        -- rewrite Ej. cbn [jf tick]. intros Hm. specialize (Hm 0 ltac:(lia)). rewrite bat_write_in in Hm by (unfold blen; cbn; lia).
           by vm_compute in Hm.
      * destruct (Z.eqb_spec rc SQLITE_IOERR_SHORT_READ) as [E|E]; cbn [negb]; [done|]. wp_go. by split.
    + wp_go. change (SQLITE_OK =? SQLITE_OK) with true. cbn [negb andb]. apply (Hrest (tick s)).
      split_and!; [by eapply file_inv_eq|done|done|done|]. cbn [jf tick]. intros Hm. apply Em'. apply magic_seg; [lia|lia|done].
Qed.


Lemma wp_seal_sync rs0 rs1 H flags s0 s :
  halfway rs0 rs1 H s0 s -> good_recs ps n (lck ps) orig (rs0 ++ rs1) -> file_inv rs0 H s0 -> flags <> 0 ->
  wp (os_sync JF flags) (ends (fun s' =>
    file_inv (rs0 ++ rs1) (sector_up Sz (H + Sz + rlen rs1 * PG)) s' /\ same_mem s0 s' /\ df s' = df s0)) s.
Proof.
  intros (T & M & Ed & Hc & Ha) G [_ I2 _ [I0 _] _] Hf. destruct (next_header _ _ _ G I0) as [Hu Hua]. destruct (rlen_small _ _ G) as [_ Hr].
  set (N := sector_up Sz _) in *. unfold os_sync. destruct (Z.eqb_spec flags 0); [done|].
  unfold wp. cbv zeta. cbn [fst snd]. destruct (Z.eqb_spec (ioRc (nio s)) SQLITE_OK) as [Hrc|Hrc]; [|split; [done|by intros]].
  assert (A' : always Sz (jimg Sz ps n (rs0 ++ rs1) N) (flushed (jf s))) by by apply always_flushed.
  assert (B' : always Sz (dimg ps n orig (rs0 ++ rs1)) (df s)).
  { rewrite Ed. eapply always_mono; [|exact I2]. intros d Hd. eapply dimg_more; [exact Hd|]. apply known_app. }
  assert (T' : trail_safe (tick (set_file JF (flushed (jf s)) s))) by (constructor; [by eapply file_inv_safe|done]).
  split; [done|]. intros _. split_and!; [|done|done]. split; try done. cbn. lia.
Qed.

(** What [syncJournal] leaves: [p'] is the pager but for its lock and the
    places in the journal. *)
Definition synced_tx (newHdr : bool) (rs0 rs1 : list jrec) (H : Z) (s s' : pst) : Prop :=
  let N := sector_up Sz (H + Sz + rlen rs1 * PG) in
  file_inv (rs0 ++ rs1) N s' /\ geom (pg s') /\ eState (pg s') = PAGER_WRITER_DBMOD /\
  pc s' = sqlite3PcacheClearSyncFlags (pc s) /\ df s' = df s /\
  dbSize (pg s') = dbSize (pg s) /\ dbHintSize (pg s') = dbHintSize (pg s) /\ dbFileSize (pg s') = dbFileSize (pg s) /\
  dbFileVers (pg s') = dbFileVers (pg s) /\ changeCountDone (pg s') = changeCountDone (pg s) /\
  (newHdr = true -> exists ck, jstate N ck (rs0 ++ rs1) [] (pg s') (jf s')) /\
  jOpen (pg s') = true /\ 0 < journalOff (pg s').

Lemma good_hdr H ck rs0 rs1 p j : jstate H ck rs0 rs1 p j -> 0 <= H -> sectorSize p = Sz ->
  journalHdrOffset p = sector_up Sz (H + Sz + rlen rs1 * PG).
Proof. intros J HH E. rewrite hdr_offset by done. by rewrite (js_off _ _ _ _ _ _ J). Qed.

Lemma wp_syncJournal newHdr H ck rs0 rs1 s :
  file_inv rs0 H s -> geom (pg s) -> jstate H ck rs0 rs1 (pg s) (jf s) ->
  wp (syncJournal newHdr) (ends (synced_tx newHdr rs0 rs1 H s)) s.
Proof.
  intros I G J. pose proof Hdu as [D1 D2 D3 D4 D5 D6 D7]. unfold syncJournal.
  eapply (wp_try _ _ _ _ _ (lock_step s)).
  { unfold sqlite3PagerExclusiveLock, getp. wp_go. rewrite (g_err _ G). change (SQLITE_OK =? SQLITE_OK) with true. cbv iota.
    eapply okp_mono; [apply wp_wait|]. intros rc s' A. cbn in A. split; [|done]. destruct A as (_ & _ & _ & _ & E).
    unfold JrnlSteps.trail_safe. rewrite E. apply (fi_trail _ _ _ _ _ _ I). }
  intros s1 ([l E1] & E2 & E3 & E4 & E5). unfold getp, setp, setc. wp_go. rewrite D1, D4, D5, E1.
  cbn [jOpen set_eLock]. rewrite (js_open _ _ _ _ _ _ J).
  assert (Em : (journalMode =? PAGER_JOURNALMODE_MEMORY) = false) by (destruct D6 as [E6|[E6|E6]]; by rewrite E6).
  rewrite Em. change (0 =? 0) with true. cbn [negb andb].
  assert (I1 : file_inv rs0 H s1) by (by eapply file_inv_eq).
  assert (G1 : geom (pg s1)) by (rewrite E1; by destruct G).
  assert (J1 : jstate H ck rs0 rs1 (pg s1) (jf s1)) by (rewrite E1, E3; by destruct J).
  assert (Hp : 0 <= H) by apply (fi_pos _ _ _ _ _ _ I).
  assert (EN : journalHdrOffset (pg s1) = sector_up Sz (H + Sz + rlen rs1 * PG)) by (eapply good_hdr; [exact J1|done|apply G1]).
  set (N := sector_up Sz (H + Sz + rlen rs1 * PG)) in *.
  set (Q := fun s' => file_inv (rs0 ++ rs1) N s' /\ pc s' = pc s /\ df s' = df s /\ geom (pg s') /\
    dbSize (pg s') = dbSize (pg s) /\ dbHintSize (pg s') = dbHintSize (pg s) /\ dbFileSize (pg s') = dbFileSize (pg s) /\
    dbFileVers (pg s') = dbFileVers (pg s) /\ changeCountDone (pg s') = changeCountDone (pg s) /\
    (newHdr = true -> exists ck, jstate N ck (rs0 ++ rs1) [] (pg s') (jf s')) /\
    jOpen (pg s') = true /\ 0 < journalOff (pg s')).
  destruct (next_header _ _ _ (js_good _ _ _ _ _ _ J) Hp) as [HN _]. fold N in HN. destruct (rlen_small _ _ (js_good _ _ _ _ _ _ J)) as [_ Hr].
  assert (Hopen : jOpen (pg s1) = true /\ 0 < journalOff (pg s1)) by (rewrite (js_open _ _ _ _ _ _ J1), (js_off _ _ _ _ _ _ J1); split; [done|lia]).
  eapply (wp_try _ _ _ _ _ Q).
  - eapply wp_try; [apply (wp_seal H ck rs0 rs1 s1 I1 G1 J1)|]. intros s2 P2.
    eapply wp_try; [apply (wp_seal_sync rs0 rs1 H _ s1 s2 P2 (js_good _ _ _ _ _ _ J) I1)|].
    { destruct D3 as [E|E]; by rewrite E. }
    intros s3 (I3 & [M1 M2] & Ed3). fold N in I3. wp_go. destruct newHdr; cbn [andb].
    + wp_go. match goal with |- wp writeJournalHdr _ ?st => set (s4 := st) end.
      assert (I4 : file_inv (rs0 ++ rs1) N s4) by (by eapply file_inv_eq).
      assert (G4 : geom (pg s4)) by (cbn; rewrite M1; by destruct G1).
      eapply ends_mono; [apply (wp_writeJournalHdr _ _ _ I4 G4)|].
      { rewrite <- EN. cbn. rewrite M1. done. }
      intros s5 (I5 & Ep & Ed & ck' & Hck & B5 & E5'). subst s4. cbn in Ep, Ed, E5'. rewrite M1 in E5'.
      assert (X : pg s5 = set_journalOff (N + Sz) (set_cksumInit ck' (set_journalHdr N (set_journalOff N (set_nRec 0 (set_journalHdr (journalOff (pg s1)) (pg s1))))))) by done.
      split_and!; [done|congruence|congruence|rewrite X; by destruct G1|rewrite X, E1; done..| |rewrite X; apply Hopen|rewrite X; cbn; lia].
      intros _. exists ck'. rewrite X. split; rewrite ?app_nil_r; cbn; try done; try (by destruct J1).
      unfold rlen. cbn. lia.
    + wp_go. split; [apply I3|]. intros _.
      assert (I4 : file_inv (rs0 ++ rs1) N (set_pg (set_journalHdr (journalOff (pg s3)) (pg s3)) s3)) by (by eapply file_inv_eq).
      split_and!; [done|cbn; congruence|cbn; congruence| |cbn; rewrite M1, E1; done..|done|cbn; rewrite M1; apply Hopen|cbn; rewrite M1; apply Hopen].
      cbn. rewrite M1. by destruct G1.
  - intros s2 (I2 & Ep & Ed & G2 & R). wp_go. split; [apply I2|]. intros _.
    split_and!; [by eapply file_inv_eq| |done|cbn; by rewrite Ep|done|apply R|apply R|apply R|apply R|apply R| |apply R|apply R]; cbn.
    + by destruct G2.
    + intros Hh. destruct R as (_ & _ & _ & _ & _ & R & _). destruct (R Hh) as [ck' J']. exists ck'. by destruct J'.
Qed.


(** *** Adding a page *)

Lemma nodup_count (l : list Z) m : NoDup l -> Forall (fun x => 1 <= x <= m) l -> 0 <= m -> Z.of_nat (length l) <= m.
Proof.
  intros Hd Hf Hm. assert (Hi : incl l (seqZ 1 m)).
  { intros x Hx. apply list_elem_of_In, elem_of_seqZ. rewrite List.Forall_forall in Hf. specialize (Hf x Hx). lia. }
  apply NoDup_ListNoDup in Hd. pose proof (NoDup_incl_length Hd Hi) as L. rewrite length_seqZ in L. lia.
Qed.
Lemma elem_pgs p rs : p ∈ pgs rs <-> p ∈ map fst rs.
Proof. unfold pgs. apply elem_of_list_to_set. Qed.
Lemma pgs_snoc rs p d : pgs (rs ++ [(p, d)]) = {[p]} ∪ pgs rs.
Proof. rewrite pgs_app, (union_comm_L (pgs rs)). f_equal. unfold pgs. cbn. apply union_empty_r_L. Qed.
Lemma good_snoc rs p d :
  good_recs ps n (lck ps) orig rs -> NoDup (map fst rs) -> 1 <= p <= n -> p <> lck ps -> (p ∉ unused orig -> d = db_pg ps orig p) -> p ∉ pgs rs ->
  good_recs ps n (lck ps) orig (rs ++ [(p, d)]) /\ NoDup (map fst (rs ++ [(p, d)])).
Proof.
  intros [F _] Hd Hp Hl Ed Hni. assert (D : NoDup (map fst (rs ++ [(p, d)]))).
  { rewrite map_app. apply list.NoDup_app. split_and!; [done| |apply NoDup_singleton].
    intros x Hx Hx'. cbn in Hx'. apply list_elem_of_singleton in Hx' as ->. by apply Hni, elem_pgs. }
  assert (F' : Forall (good_rec ps n (lck ps) orig) (rs ++ [(p, d)])).
  { apply Forall_app. split; [done|]. constructor; [|done]. unfold good_rec. cbn. split_and!; [lia|lia|done|done]. }
  split; [|done]. split; [done|]. pose proof (nodup_count _ n D) as L. unfold rlen. rewrite length_map in L.
  enough (Z.of_nat (length (rs ++ [(p, d)])) <= n) by lia. apply L; [|lia]. apply Forall_map.
  eapply list.Forall_impl; [exact F'|]. by intros r [A _].
Qed.
Lemma page_cksum_range ck d : 0 <= ck < 2 ^ 32 -> 0 <= pager_cksum ck d < 2 ^ 32.
Proof.
  intros Hck. unfold pager_cksum. generalize (S (length d)) as k. generalize (blen d - 200) as i. intros i k. revert ck i Hck.
  induction k as [|k IH]; intros ck i Hck; cbn [pager_cksum_loop]; [done|]. case_if; [|done]. apply IH, u32_range.
Qed.

(** Of the pager only the end of the journal and the set of its pages differ. *)
Definition grown (p p' : Pager) : Prop :=
  exists off k b, p' = set_pInJournal b (set_nRec k (set_journalOff off p)).

Lemma wp_write32 rs0 H off v s :
  file_inv rs0 H s -> 0 <= H -> H + 8 <= off -> 0 <= v < 2 ^ 32 ->
  wp (write32bits JF off v) (ends (fun s' => file_inv rs0 H s' /\ same_mem s s' /\ df s' = df s /\
    exists ac, bytes_ok ac /\ blen ac = 4 /\ at4 ac 0 = v /\ f_cur (jf s') = log_write (f_cur (jf s)) off ac)) s.
Proof.
  intros I H0 Ho Hv. unfold write32bits. destruct (put4_ok v) as [ac E]. rewrite E. wp_go.
  destruct (put4_spec v ac Hv E) as (A & B & C). cbn [after].
  eapply ends_mono; [apply (wp_write_j ps n orig HS ltac:(lia) rs0 H ac off s I)|].
  - split; [done|]. by left.
  - intros s' (I' & M & Ed & Ej). split_and!; [done|apply M..|done|]. by exists ac.
Qed.
Lemma wp_add_page H ck rs0 rs1 p g s :
  file_inv rs0 H s -> geom (pg s) -> jstate H ck rs0 rs1 (pg s) (jf s) ->
  pc s !! p = Some g -> 1 <= p <= n -> p <> lck ps -> p ∉ pgs (rs0 ++ rs1) ->
  bytes_ok (pData g) -> blen (pData g) = ps -> (p ∉ unused orig -> pData g = db_pg ps orig p) ->
  wp (pagerAddPageToRollbackJournal p) (ends (fun s' =>
    file_inv rs0 H s' /\ jstate H ck rs0 (rs1 ++ [(p, pData g)]) (pg s') (jf s') /\
    pc s' = alter (set_needSync true) p (pc s) /\ df s' = df s /\ grown (pg s) (pg s'))) s.
Proof.
  intros I G J Hg Hp Hlck Hni Kd Ld Ed. pose proof J as [J1 J2 J3 [J4 J4'] J5 J6 J7 J8 J9].
  destruct (rlen_small _ _ J8) as [Hr1 Hr2]. pose proof (fi_pos _ _ _ _ _ _ I) as [H0 Ha].
  unfold pagerAddPageToRollbackJournal, getp, setp, setc, page. wp_go. rewrite Hg. wp_go. unfold id.
  set (off := journalOff (pg s)). assert (Eoff : off = H + Sz + rlen rs1 * PG) by done. rewrite J4, (g_ps _ G).
  match goal with |- wp _ _ ?st => set (s1 := st) end. assert (I1 : file_inv rs0 H s1) by (by eapply file_inv_eq).
  eapply wp_try; [apply (wp_write32 rs0 H off p s1 I1 H0); lia|].
  intros s2 (I2 & M2 & Ed2 & c1 & K1 & L1 & A1 & E2).
  eapply wp_try; [apply (wp_write_j ps n orig HS ltac:(lia) rs0 H (pData g) (off + 4) s2 I2)|].
  { split; [done|]. left. lia. }
  intros s3 (I3 & M3 & Ed3 & E3).
  eapply wp_try; [apply (wp_write32 rs0 H (off + ps + 4) (pager_cksum ck (pData g)) s3 I3 H0); [lia|by apply page_cksum_range]|].
  intros s4 (I4 & M4 & Ed4 & c2 & K2 & L2 & A2 & E4). wp_go. 
  assert (Ep : pg s4 = pg s) by (destruct M2 as [Z _], M3 as [X _], M4 as [Y _]; unfold s1 in Z; cbn in Z; congruence).
  destruct J5 as (L & HL & J5).
  unfold sqlite3BitvecSet_pInJournal, getp. wp_go. cbn [pg set_pg pInJournal set_nRec set_journalOff]. rewrite (f_equal pInJournal Ep), J5. wp_go. apply wp_alloc. intros ok.
  cbn [after]. assert (T4 : trail_safe s4) by apply I4. destruct ok; cbn [negb]; unfold setp; wp_go; [|by split].
  split; [done|]. intros _.
  assert (Ec : pc s4 = alter (set_needSync true) p (pc s)) by (destruct M2 as [_ Z], M3 as [_ X], M4 as [_ Y]; unfold s1 in Z; cbn in Z; congruence).
  destruct (good_snoc (rs0 ++ rs1) p (pData g) J8 J9 Hp Hlck Ed Hni) as [G' D']. rewrite <- app_assoc in G', D'.
  split_and!; [by eapply file_inv_eq| |done|unfold s1 in Ed2; cbn in *; congruence|].
  - split; cbn; rewrite ?Ep; try done.
    + rewrite J2. unfold rlen. rewrite length_app. cbn [length]. rewrite (g_ps _ G). lia.
    + rewrite J3. unfold rlen. rewrite length_app. cbn [length]. lia.
    + exists L. split; [done|]. by rewrite app_assoc, pgs_snoc, union_assoc_L.
    + rewrite E4, E3, E2. unfold s1. cbn [jf set_pc tick]. rewrite Eoff. apply (body_record Sz ps n HS ltac:(lia)); done.
  - cbn. rewrite Ep. do 3 eexists. reflexivity.
Qed.
End Tx.
