(* ===== verification/JrnlWrite.v ===== *)
(** * The journal during a transaction

    The invariant of a connection that writes pages ([wr_inv]), and that the
    functions of the pager keep it: which pages are in the journal, which of
    their records are synced, and that a page of the cache that may be written
    to the database has a synced record, is new, or was free. *)
From stdpp Require Import gmap.
From S2P Require Import Prelude Bits Bytes Varint Wal WalIndex WalRecover WalRecovery WalWrite WalFile WalTx WalSteps Jrnl JrnlFile JrnlSteps JrnlSync.

Section Write.
Context `{W : World} (ps n : Z) (orig : old_db).
Abbreviation Sz := sector.
Abbreviation PG := (ps + 8).
Hypothesis (Hset : setting ps n).
Let HS : 32 <= Sz := proj1 (se_sector _ _ Hset).
Let HSps : Sz <= ps := proj2 (se_sector _ _ Hset).
Let Hps : 512 <= ps <= SQLITE_MAX_PAGE_SIZE := se_page _ _ Hset.
Let Hn : 0 <= n < 0xffffffff := se_orig _ _ Hset.
Let Hdu : durable := se_durable _ _ Hset.
Abbreviation file_inv := (file_inv ps n orig).
Abbreviation ends := (ends ps n orig).
Abbreviation trail_safe := (trail_safe ps n orig).
Abbreviation geom := (geom ps n).
Abbreviation jstate := (jstate ps n orig).
Abbreviation known := (known orig).

(** *** The cache *)

(** A page of the cache, where [J] are the pages that need not be journalled any
    more and [Sy] those that can be overwritten. *)
Record page_ok (J Sy : gset Z) (p : Z) (g : PgHdr) : Prop := {
  po_pgno : 1 <= p < 2 ^ 32 /\ p <> lck ps;
  po_data : bytes_ok (pData g) /\ blen (pData g) = ps;
  po_orig : p <= n -> p ∉ J -> pData g = db_pg ps orig p;
  po_write : writeable g = true -> p <= n -> p ∈ J;
  po_dirty : dirty g = true -> p <= n -> p ∈ J;
  po_clean : dirty g = true -> needSync g = false -> p <= n -> p ∈ Sy;
  po_sync : needSync g = true -> dirty g = true;
  po_dont : dontWrite g = true -> writeable g = false;
  po_wd : writeable g = true -> dirty g = true;
}.
Definition cache_ok (J Sy : gset Z) (c : pcache) : Prop := map_Forall (page_ok J Sy) c.
(** A page whose record is not synced is in the cache and not written yet. *)
Definition unsynced (rs1 : list jrec) (c : pcache) : Prop :=
  forall p, p ∈ pgs rs1 -> exists g, c !! p = Some g /\ needSync g = true.
(** The size that was announced misses only pages that are to be written. *)
Definition hint_ok (p : Pager) (c : pcache) : Prop :=
  dbHintSize p < dbSize p -> exists g, c !! dbSize p = Some g /\ dirty g = true.

Lemma page_ok_mono J Sy J' Sy' p g : page_ok J Sy p g -> J ⊆ J' -> Sy ⊆ Sy' -> page_ok J' Sy' p g.
Proof. intros [A B C D E F G H I] H1 H2. split; try done; auto. Qed.
Lemma cache_alter J J' Sy Sy' (c : pcache) p g f :
  cache_ok J Sy c -> J ⊆ J' -> Sy ⊆ Sy' -> c !! p = Some g -> page_ok J' Sy' p (f g) -> cache_ok J' Sy' (alter f p c).
Proof.
  intros Hc H1 H2 Hg Hf q gq Hq. destruct (decide (q = p)) as [->|Hne].
  - rewrite lookup_alter_eq, Hg in Hq. by injection Hq as <-.
  - rewrite lookup_alter_ne in Hq by done. eapply page_ok_mono; [by apply Hc|done|done].
Qed.
(** Flags that only go up at [p]. *)
Lemma unsynced_alter rs1 (c : pcache) p f :
  unsynced rs1 c -> (forall g, needSync g = true -> needSync (f g) = true) -> unsynced rs1 (alter f p c).
Proof.
  intros Hu Hf q Hq. destruct (Hu q Hq) as (g & Hg & Hs). destruct (decide (q = p)) as [->|Hne].
  - exists (f g). by rewrite lookup_alter_eq, Hg, Hf.
  - exists g. by rewrite lookup_alter_ne by done.
Qed.
Lemma dirty_alter (c : pcache) p q f g :
  c !! q = Some g -> dirty g = true -> (forall g, dirty g = true -> dirty (f g) = true) ->
  exists g', alter f p c !! q = Some g' /\ dirty g' = true.
Proof.
  intros Hg Hd Hf. destruct (decide (q = p)) as [->|Hne].
  - exists (f g). by rewrite lookup_alter_eq, Hg, Hf.
  - exists g. by rewrite lookup_alter_ne by done.
Qed.

Record parts (H : Z) (rs0 rs1 : list jrec) (s : pst) : Prop := {
  pt_file : file_inv rs0 H s;
  pt_geom : geom (pg s);
  pt_cache : cache_ok (known (rs0 ++ rs1)) (known rs0) (pc s);
  pt_unsynced : unsynced rs1 (pc s);
  pt_hint : hint_ok (pg s) (pc s);
  pt_fsize : dbFileSize (pg s) * ps <= blen (f_cur (df s));
}.
Definition writing (s : pst) : Prop :=
  exists H ck rs0 rs1, parts H rs0 rs1 s /\ jstate H ck rs0 rs1 (pg s) (jf s) /\
    (eState (pg s) = PAGER_WRITER_CACHEMOD \/ eState (pg s) = PAGER_WRITER_DBMOD).
Definition locked (s : pst) : Prop :=
  eState (pg s) = PAGER_WRITER_LOCKED /\ parts 0 [] [] s /\ map_Forall (fun _ g => dirty g = false) (pc s).
Definition wr_inv (s : pst) : Prop := locked s \/ writing s.

Lemma wr_trail s : wr_inv s -> trail_safe s.
Proof. by intros [(_ & [[] _ _ _ _ _] & _)|(? & ? & ? & ? & [[] _ _ _ _ _] & _)]. Qed.

(** *** Opening the journal *)

(** Nothing but the number of requests differs. *)
Definition idle (s s' : pst) : Prop :=
  pg s' = pg s /\ pc s' = pc s /\ jf s' = jf s /\ df s' = df s /\ trail s' = trail s.
Lemma idle_trail s s' : idle s s' -> trail_safe s -> trail_safe s'.
Proof. intros (_ & _ & _ & _ & E) T. unfold JrnlSteps.trail_safe. by rewrite E. Qed.
Lemma wp_unmoved s : wp databaseIsUnmoved (returns (fun _ => idle s)) s.
Proof.
  unfold databaseIsUnmoved, getp. wp_go. case_if; wp_go; [done|]. apply wp_request. intros rc. by wp_go.
Qed.
Lemma wp_open_file s :
  trail_safe s ->
  wp open_journal_file (ends (fun s' => pc s' = pc s /\ jf s' = jf s /\ df s' = df s /\ trail s' = trail s /\
    (exists l, pg s' = set_jOpen l (pg s)) /\ jOpen (pg s') = true)) s.
Proof.
  intros T. unfold open_journal_file, setp. eapply wp_seq; [apply wp_unmoved|].
  intros rc s1 Hi. pose proof (idle_trail _ _ Hi T) as T1. destruct Hi as (E1 & E2 & E3 & E4 & E5).
  destruct (Z.eqb_spec rc SQLITE_OK); [|wp_go; by split]. wp_go. apply wp_request. intros rc'. wp_go.
  destruct (Z.eqb_spec rc' SQLITE_OK); wp_go; (split; [done|]); [|done]. intros _. cbn. rewrite E1. split_and!; try done. by eexists.
Qed.

Lemma wp_open_journal s :
  file_inv [] 0 s -> geom (pg s) ->
  wp pager_open_journal (ends (fun s' => file_inv [] 0 s' /\ geom (pg s') /\ pc s' = pc s /\ df s' = df s /\
    dbSize (pg s') = dbSize (pg s) /\ dbHintSize (pg s') = dbHintSize (pg s) /\ dbFileSize (pg s') = dbFileSize (pg s) /\
    changeCountDone (pg s') = changeCountDone (pg s) /\ nRefSum (pg s') = nRefSum (pg s) /\
    dbFileVers (pg s') = dbFileVers (pg s) /\
    eState (pg s') = PAGER_WRITER_CACHEMOD /\ exists ck, jstate 0 ck [] [] (pg s') (jf s'))) s.
Proof.
  intros I G. pose proof (fi_trail _ _ _ _ _ _ I) as T. pose proof Hdu as [D1 D2 D3 D4 D5 D6 D7].
  unfold pager_open_journal, getp, setp. wp_go. unfold id. rewrite (g_err _ _ _ G). change (SQLITE_OK =? SQLITE_OK) with true. cbn [negb].
  assert (E1 : (journalMode =? PAGER_JOURNALMODE_OFF) = false) by (destruct D6 as [E|[E|E]]; by rewrite E).
  assert (E2 : (journalMode =? PAGER_JOURNALMODE_MEMORY) = false) by (destruct D6 as [E|[E|E]]; by rewrite E).
  rewrite E1, E2. wp_go. apply wp_alloc. intros ok. wp_go. destruct ok; cbn [negb]; [|wp_go; by split]. wp_go.
  match goal with |- wp _ _ ?st => set (s1 := st) end.
  eapply wp_mono with (P := ends (fun s' => pc s' = pc s /\ jf s' = jf s /\ df s' = df s /\ trail s' = trail s /\
    (exists l, pg s' = set_jOpen l (set_pInJournal (Some ∅) (pg s))) /\ jOpen (pg s') = true)).
  { destruct (jOpen (pg s)) eqn:Ej; cbn [okp]; [|apply (wp_open_file s1 T)]. wp_go. split; [done|]. intros _.
    split_and!; try done. exists true. cbn. unfold set_jOpen, set_pInJournal. cbn. by rewrite Ej. }
  intros [rc|rc|] s2; cbn [okp returns after JrnlSteps.ends]; [|done|done]. intros [T2 P].
  destruct (Z.eqb_spec rc SQLITE_OK) as [->|Hrc].
  - destruct (P eq_refl) as (F1 & F2 & F3 & F4 & [l F5] & F6). wp_go.
    match goal with |- wp writeJournalHdr _ ?st => set (s3 := st) end.
    assert (I3 : file_inv [] 0 s3) by (by eapply file_inv_eq).
    assert (G3 : geom (pg s3)) by (cbn; rewrite F5; by destruct G).
    eapply wp_mono; [apply (wp_writeJournalHdr ps n orig Hset _ _ _ I3 G3); done|].
    intros [rc|rc|] s4; cbn [okp returns after JrnlSteps.ends]; [|done|done]. intros [T4 P4].
    destruct (Z.eqb_spec rc SQLITE_OK) as [->|Hrc]; cbn [negb]; [|wp_go; by split].
    destruct (P4 eq_refl) as (I5 & Ep & Ed & ck & Hck & B5 & E5'). wp_go. split; [done|]. intros _.
    unfold s3 in E5', Ep, Ed. cbn in E5', Ep, Ed. cbn [pg pc df jf set_pg]. rewrite E5', F5.
    rewrite F5 in F6. cbn in F6. subst l.
    split_and!; try done; [by eapply file_inv_eq|by destruct G|congruence|congruence|]. exists ck. split; try done.
    + cbn. rewrite Z.add_0_l. unfold rlen. cbn. lia.
    + exists ∅. split; [apply empty_subseteq|]. by f_equal.
    + constructor.
  - wp_go. destruct (Z.eqb_spec rc SQLITE_OK) as [|_]; [done|]. cbn [negb]. wp_go. split; [done|]. by intros.
Qed.


(** *** Writing a page *)

(** The page [p] has been marked dirty and journalled. *)
Definition journalled (p : Z) (s0 s' : pst) : Prop :=
  exists H ck rs0 rs1, file_inv rs0 H s' /\ geom (pg s') /\ jstate H ck rs0 rs1 (pg s') (jf s') /\
    cache_ok (known (rs0 ++ rs1)) (known rs0) (pc s') /\ unsynced rs1 (pc s') /\
    (exists b, pc s' = alter (fun g => if b : bool then set_needSync true (pg_MakeDirty g) else pg_MakeDirty g) p (pc s0)) /\
    (p <= n -> p ∈ known (rs0 ++ rs1)) /\ grown (pg s0) (pg s') /\ df s' = df s0.
Lemma alter_twice (c : pcache) p f h : alter f p (alter h p c) = alter (fun g => f (h g)) p c.
Proof.
  apply map_eq. intros q. destruct (decide (q = p)) as [->|Hne].
  - rewrite !lookup_alter_eq. by destruct (c !! p).
  - by rewrite !lookup_alter_ne.
Qed.
Lemma grown_refl p : grown p p.
Proof. exists (journalOff p), (nRec p), (pInJournal p). by destruct p. Qed.
Lemma grown_geom p p' : grown p p' -> geom p -> geom p'.
Proof. intros (a & b & c & ->) G. by destruct G. Qed.

Lemma wp_journal_page H ck rs0 rs1 p g s :
  parts H rs0 rs1 s -> jstate H ck rs0 rs1 (pg s) (jf s) ->
  eState (pg s) = PAGER_WRITER_CACHEMOD \/ eState (pg s) = PAGER_WRITER_DBMOD -> pc s !! p = Some g ->
  wp (journal_page p) (ends (journalled p s)) (set_pc (sqlite3PcacheMakeDirty p (pc s)) s).
Proof.
  intros [P1 P2 P3 P4 P5 _] J Hst Hg. pose proof (P3 _ _ Hg) as K. destruct K as [K1 K2 K3 K4 K5 K6 K7 K8 K9].
  destruct (js_in _ _ _ _ _ _ _ _ _ J) as (L & HL & EL).
  unfold journal_page, getp, setc. wp_go. unfold id. cbn [pg set_pc]. rewrite EL.
  set (s1 := set_pc _ s). assert (I1 : file_inv rs0 H s1) by (by eapply file_inv_eq).
  case_bool_decide as Hin; [|rewrite (g_orig _ _ _ P2); destruct (Z.leb_spec p n) as [Hp|Hp]].
  - assert (Hin' : p ∈ known (rs0 ++ rs1)) by (apply elem_known; apply elem_of_union in Hin as [Hin|Hin]; [by left|right; by apply HL]).
    wp_go. split; [apply P1|]. intros _. exists H, ck, rs0, rs1. split_and!; try done.
    + eapply cache_alter; [exact P3|done|done|exact Hg|]. split; cbn; try done.
      intros _ Hs Hp. apply elem_known in Hin' as [Hp'|Hp']; apply elem_known; [left|by right].
      rewrite pgs_app in Hp'. apply elem_of_union in Hp' as [Hp'|Hp']; [done|].
      destruct (P4 p Hp') as (g' & Hg' & Hs'). congruence.
    + by apply unsynced_alter.
    + by exists false.
    + apply grown_refl.
  - assert (Hg1 : pc s1 !! p = Some (pg_MakeDirty g)) by (cbn; unfold sqlite3PcacheMakeDirty; by rewrite lookup_alter_eq, Hg).
    eapply ends_mono; [eapply (wp_add_page ps n orig Hset H ck rs0 rs1 p _ s1 I1 P2 J Hg1); [lia|apply K1| |apply K2|apply K2|]|].
    { intros Hni. by apply Hin, elem_of_union_l. }
    { intros Hu. apply K3; [done|]. intros [Hk|Hk]%elem_known; [by apply Hin, elem_of_union_l|done]. }
    intros s2 (I2 & J2 & Ec & Ed & Gr). cbn [pData pg_MakeDirty] in J2.
    assert (Es : known (rs0 ++ rs1 ++ [(p, pData g)]) = {[p]} ∪ known (rs0 ++ rs1)) by (unfold JrnlFile.known; by rewrite app_assoc, pgs_snoc, union_assoc_L).
    assert (Ec' : pc s2 = alter (fun g => set_needSync true (pg_MakeDirty g)) p (pc s)).
    { rewrite Ec. apply alter_twice. }
    exists H, ck, rs0, (rs1 ++ [(p, pData g)]). rewrite Es. split_and!; try done.
    + by eapply grown_geom.
    + rewrite Ec'. eapply cache_alter; [exact P3|apply union_subseteq_r|done|exact Hg|].
      split; cbn; try done; intros; try (apply elem_of_union_l, elem_of_singleton_2; done).
      exfalso. apply H1, elem_of_union_l. by apply elem_of_singleton_2.
    + rewrite Ec'. intros q Hq. rewrite pgs_snoc in Hq. apply elem_of_union in Hq as [Hq|Hq].
      * apply elem_of_singleton in Hq as ->. rewrite lookup_alter_eq, Hg. by eexists.
      * by refine (unsynced_alter rs1 _ _ _ P4 _ q Hq).
    + by exists true.
    + intros _. apply elem_of_union_l. by apply elem_of_singleton_2.
  - set (b := negb (eState (pg s) =? PAGER_WRITER_DBMOD)).
    apply wp_bind. eapply wp_mono with (P := fun o s' => o = Ret tt /\ s' = set_pc (alter (fun g => if b then set_needSync true (pg_MakeDirty g) else pg_MakeDirty g) p (pc s)) s).
    { destruct b; wp_go; (split; [done|]); [|done].
      change (set_pc (alter (set_needSync true) p (alter pg_MakeDirty p (pc s))) s = set_pc (alter (fun g => set_needSync true (pg_MakeDirty g)) p (pc s)) s).
      by rewrite alter_twice. }
    intros o s2 [-> ->]. cbn [after]. wp_go. split; [apply P1|]. intros _. exists H, ck, rs0, rs1. split_and!; try done.
    + by eapply file_inv_eq.
    + eapply cache_alter; [exact P3|done|done|exact Hg|]. destruct b; split; cbn; try done; intros; lia.
    + apply unsynced_alter; [done|]. intros g' Hs. by destruct b.
    + by exists b.
    + lia.
    + apply grown_refl.
Qed.

(** The page can be changed now; nothing else is different for the caller. *)
Definition written (p : Z) (s s' : pst) : Prop :=
  writing s' /\ (exists g g', pc s !! p = Some g /\ pc s' !! p = Some g' /\ pData g' = pData g /\ writeable g' = true /\ dirty g' = true /\ dontWrite g' = false) /\
  (forall q, q <> p -> pc s' !! q = pc s !! q) /\ df s' = df s /\ dbSize (pg s') = Z.max (dbSize (pg s)) p /\
  dbFileSize (pg s') = dbFileSize (pg s) /\ changeCountDone (pg s') = changeCountDone (pg s) /\ nRefSum (pg s') = nRefSum (pg s) /\
  dbFileVers (pg s') = dbFileVers (pg s).

Lemma wp_pager_write p s g :
  wr_inv s -> pc s !! p = Some g -> wp (pager_write p) (ends (written p s)) s.
Proof.
  intros Hw Hg. unfold pager_write, getp, setp, setc. wp_go.
  set (Q := fun s' => writing s' /\ pc s' = pc s /\ df s' = df s /\ dbSize (pg s') = dbSize (pg s) /\
    dbFileSize (pg s') = dbFileSize (pg s) /\ changeCountDone (pg s') = changeCountDone (pg s) /\ nRefSum (pg s') = nRefSum (pg s) /\
    dbFileVers (pg s') = dbFileVers (pg s)).
  eapply (wp_try _ _ _ _ _ Q).
  { destruct Hw as [(El & P & _)|Hw].
    - rewrite El. change (PAGER_WRITER_LOCKED =? PAGER_WRITER_LOCKED) with true. cbv iota. destruct P as [P1 P2 P3 P4 P5 P6].
      eapply ends_mono; [apply (wp_open_journal s P1 P2)|]. intros s' (I & G & Ec & Ed & E1 & E2 & E3 & E4 & E5 & E6 & Es & ck & J).
      split_and!; try done. exists 0, ck, [], []. split; [|split; [done|by left]]. split; rewrite ?Ec; try done.
      + unfold hint_ok. by rewrite E1, E2.
      + by rewrite E3, Ed.
    - destruct Hw as (H & ck & rs0 & rs1 & P & J & Hst). assert (Es : (eState (pg s) =? PAGER_WRITER_LOCKED) = false).
      { destruct Hst as [E|E]; by rewrite E. }
      rewrite Es. wp_go. split; [apply P|]. intros _. split_and!; try done. by exists H, ck, rs0, rs1. }
  intros s1 ((H & ck & rs0 & rs1 & P & J & Hst) & Ec & Ed & E1 & E2 & E3 & E4 & E5). wp_go.
  assert (Hg1 : pc s1 !! p = Some g) by (by rewrite Ec). pose proof (pt_cache _ _ _ _ P _ _ Hg1) as K.
  pose proof (pt_geom _ _ _ _ P) as G1. pose proof (pt_hint _ _ _ _ P) as Hh. pose proof (pt_fsize _ _ _ _ P) as Hf.
  eapply wp_try; [apply (wp_journal_page H ck rs0 rs1 p g s1 P J Hst Hg1)|].
  intros s2 (H' & ck' & rs0' & rs1' & I2 & G2 & J2 & C2 & U2 & [b Ec2] & Hin & Gr & Ed2). wp_go.
  assert (Hg2 : pc s2 !! p = Some (if b then set_needSync true (pg_MakeDirty g) else pg_MakeDirty g)) by (by rewrite Ec2, lookup_alter_eq, Hg1).
  split; [apply I2|]. intros _. cbn [pg set_pg set_pc pc df jf].
  set (p2 := if dbSize (pg s2) <? p then set_dbSize p (pg s2) else pg s2).
  assert (Es2 : dbSize (pg s2) = dbSize (pg s) /\ dbHintSize (pg s2) = dbHintSize (pg s1)).
  { destruct Gr as (x & y & z & ->). cbn. by rewrite E1. }
  assert (Ep2 : dbSize p2 = Z.max (dbSize (pg s)) p).
  { unfold p2. destruct Es2 as [Es2 _]. destruct (Z.ltb_spec (dbSize (pg s2)) p); cbn; lia. }
  destruct (po_pgno _ _ _ _ K) as [Hpr _].
  split_and!.
  - exists H', ck', rs0', rs1'. split; [|split].
    + split; cbn [pg set_pg set_pc pc df jf].
      * by eapply file_inv_eq.
      * unfold p2. destruct G2, (Z.ltb_spec (dbSize (pg s2)) p); split; cbn; try done; lia.
      * eapply cache_alter; [exact C2|done|done|exact Hg2|]. pose proof (C2 _ _ Hg2) as [L1 L2 L3 L4 L5 L6 L7 L8 L9]. split; cbn; try done; try by auto; by destruct b.
      * by apply unsynced_alter.
      * intros Hlt. rewrite Ep2 in *. assert (Eh : dbHintSize p2 = dbHintSize (pg s1)).
        { destruct Es2 as [_ <-]. unfold p2. by destruct (dbSize (pg s2) <? p). }
        destruct (Z.le_gt_cases p (dbSize (pg s))) as [Hle|Hgt].
        -- rewrite Z.max_l in * by lia. rewrite <- E1 in *. destruct Hh as (gd & Hgd & Hd); [lia|].
           rewrite Ec2. rewrite alter_twice. apply dirty_alter with gd; [done|done|]. intros g' Hd'. by destruct b.
        -- rewrite Z.max_r by lia. rewrite lookup_alter_eq, Hg2. eexists. split; [done|]. by destruct b.
      * replace (dbFileSize p2) with (dbFileSize (pg s1)); [by rewrite Ed2|].
        transitivity (dbFileSize (pg s2)); [by destruct Gr as (x & y & z & ->)|unfold p2; by destruct (dbSize (pg s2) <? p)].
    + unfold p2. destruct J2, (dbSize (pg s2) <? p); split; done.
    + unfold p2. assert (Ee : eState (pg s2) = eState (pg s1)) by (by destruct Gr as (x & y & z & ->)).
      rewrite <- Ee in Hst. by destruct (dbSize (pg s2) <? p).
  - exists g. eexists. split; [done|]. cbn [pc set_pg set_pc]. rewrite lookup_alter_eq, Hg2. split_and!; [done|by destruct b..].
  - intros q Hq. cbn [pc set_pg set_pc]. rewrite lookup_alter_ne, Ec2, lookup_alter_ne, Ec by done. done.
  - cbn [df set_pg set_pc]. congruence.
  - exact Ep2.
  - transitivity (dbFileSize (pg s2)); [unfold p2; by destruct (dbSize (pg s2) <? p)|].
    destruct Gr as (x & y & z & ->). cbn. done.
  - transitivity (changeCountDone (pg s2)); [unfold p2; by destruct (dbSize (pg s2) <? p)|].
    destruct Gr as (x & y & z & ->). cbn. done.
  - transitivity (nRefSum (pg s2)); [unfold p2; by destruct (dbSize (pg s2) <? p)|].
    destruct Gr as (x & y & z & ->). cbn. done.
  - transitivity (dbFileVers (pg s2)); [unfold p2; by destruct (dbSize (pg s2) <? p)|].
    destruct Gr as (x & y & z & ->). cbn. done.
Qed.


Lemma wp_PagerWrite p s g :
  wr_inv s -> pc s !! p = Some g -> wp (sqlite3PagerWrite p) (ends (written p s)) s.
Proof.
  intros Hw Hg. unfold sqlite3PagerWrite, getp, page. wp_go. rewrite Hg. wp_go. unfold id.
  assert (K : exists J Sy, page_ok J Sy p g).
  { destruct Hw as [(_ & P & _)|(H & ck & rs0 & rs1 & P & _)]; do 2 eexists; by apply (pt_cache _ _ _ _ P). }
  destruct K as (J & Sy & K). assert (G : geom (pg s)).
  { destruct Hw as [(_ & P & _)|(H & ck & rs0 & rs1 & P & _)]; apply P. }
  destruct (writeable g && (p <=? dbSize (pg s))) eqn:Ew.
  - apply andb_prop in Ew as [Ew1 Ew2]. apply Z.leb_le in Ew2. wp_go. split; [by apply wr_trail|]. intros _. pose proof (po_wd _ _ _ _ K Ew1) as Hd.
    assert (Hdw : dontWrite g = false).
    { destruct (dontWrite g) eqn:E; [|done]. pose proof (po_dont _ _ _ _ K E). congruence. }
    split_and!; try done; [|by exists g, g|lia]. destruct Hw as [(_ & _ & Hcl)|Hw]; [|done]. specialize (Hcl _ _ Hg). cbn in Hcl. congruence.
  - rewrite (g_err _ _ _ G), (g_ps _ _ _ G), (g_sec _ _ _ G). change (SQLITE_OK =? SQLITE_OK) with true. cbn [negb].
    destruct (Z.ltb_spec ps Sz); [lia|]. by apply (wp_pager_write p s g).
Qed.

(** *** Writing pages to the database *)

(** Page 1 with a new change counter and version. *)
Definition counted (d d' : bytes) : Prop :=
  bytes_ok d' /\ blen d' = blen d /\ forall i, ~ 24 <= i < 28 -> ~ 92 <= i < 100 -> bat d' i = bat d i.
Lemma wp_counter s g :
  pc s !! 1 = Some g -> bytes_ok (pData g) -> 100 <= blen (pData g) -> bytes_ok (dbFileVers (pg s)) -> blen (dbFileVers (pg s)) = 16 ->
  wp (pager_write_changecounter 1) (returns (fun _ s' => exists d', counted (pData g) d' /\
    s' = set_pc (alter (set_pData d') 1 (pc s)) s)) s.
Proof.
  intros Hg Kd Ld Kv Lv. unfold pager_write_changecounter, getp, page, setc. wp_go. rewrite Hg. wp_go. unfold id.
  rewrite Get4byte_in by (done || lia). wp_go.
  match goal with |- context [u32 ?x] => generalize (u32 x) as v end. intros v.
  destruct (Put4byte_in (pData g) 24 v) as [d1 E1]; [lia|lia|]. unfold put32bits. rewrite E1. wp_go.
  pose proof (Put4byte_len _ _ _ _ E1) as L1.
  destruct (Put4byte_in d1 92 v) as [d2 E2]; [lia|lia|]. rewrite E2. wp_go. pose proof (Put4byte_len _ _ _ _ E2) as L2.
  destruct (Put4byte_in d2 96 SQLITE_VERSION_NUMBER) as [d3 E3]; [lia|lia|]. rewrite E3. wp_go. pose proof (Put4byte_len _ _ _ _ E3) as L3.
  exists d3. split; [|done]. split_and!; [eauto using Put4byte_ok|lia|]. intros i H1 H2.
  rewrite (Put4byte_at _ _ _ _ i E3), (Put4byte_at _ _ _ _ i E2), (Put4byte_at _ _ _ _ i E1) by lia. done.
Qed.

(** The pages [l] were written, but for those the caller does not need: what is
    in the file and in the cache. *)
Record listed (l : list Z) (s s' : pst) : Prop := {
  li_jf : jf s' = jf s;
  li_pg : exists v z, pg s' = set_dbFileSize z (set_dbFileVers v (pg s)) /\ bytes_ok v /\ blen v = 16 /\
    dbFileSize (pg s) <= z /\
    (dbFileSize (pg s) * ps <= blen (f_cur (df s)) -> z * ps <= blen (f_cur (df s')));
  li_pc : pc s' = pc s \/ 1 ∈ l /\ exists g d, pc s !! 1 = Some g /\ counted (pData g) d /\ pc s' = alter (set_pData d) 1 (pc s);
  li_len : blen (f_cur (df s)) <= blen (f_cur (df s'));
  li_other q : 1 <= q -> q ∉ l -> db_page ps (f_cur (df s')) q = db_page ps (f_cur (df s)) q;
  li_page q g0 : q ∈ l -> q <= dbSize (pg s) -> pc s !! q = Some g0 -> dontWrite g0 = false ->
    exists g, pc s' !! q = Some g /\ db_page ps (f_cur (df s')) q = pData g;
}.
Lemma listed_geom l s s' : listed l s s' -> geom (pg s) -> geom (pg s').
Proof. intros [_ (v & z & -> & K & L & Hz & _) _ _ _ _] G. destruct G; split; cbn; try done; lia. Qed.

Lemma db_page_other f p q d : 1 <= p -> 1 <= q -> p <> q -> blen d = ps -> db_page ps (log_write f ((p - 1) * ps) d) q = db_page ps f q.
Proof. intros Hp Hq Hne Ld. apply db_page_ext. intros j Hj. apply bat_write_out; nia. Qed.
Lemma page_dop J rs0 p g :
  page_ok J (known rs0) p g -> dirty g = true -> needSync g = false -> dop ps n orig rs0 (FWrite ((p - 1) * ps) (pData g)).
Proof.
  intros [[K1 _] [K2 K2'] _ _ _ K6 _ _] Hd Hs. split_and!; [done|nia|]. intros q Hq Hni. rewrite K2'.
  destruct (Z.lt_trichotomy p q) as [|[->|]]; [left; nia|exfalso; apply Hni, K6; [done|done|lia]|right; nia].
Qed.
Lemma counted_ok J Sy g d : page_ok J Sy 1 g -> dirty g = true -> counted (pData g) d -> page_ok J Sy 1 (set_pData d g).
Proof.
  intros [A B C D E F G H I] Hd (K1 & K2 & K3). split; cbn; try done; auto.
  - split; [done|lia].
  - intros Hn1 Hni. exfalso. by apply Hni, E.
Qed.


(** One page. *)
Definition store_page (pgno : Z) : M pst Z :=
  let* p := getp id in
  (if pgno =? 1 then pager_write_changecounter pgno else ret tt) ;;*
  let* g := page pgno in
  let* rc := os_write DF (pData g) ((pgno - 1) * pageSize p) in
  (if pgno =? 1 then let* v := lift (bsub (pData g) 24 16) in setp (set_dbFileVers v) else ret tt) ;;*
  setp (fun p => if dbFileSize p <? pgno then set_dbFileSize pgno p else p) ;;*
  ret rc.

Lemma wp_store_page J rs0 H p s :
  file_inv rs0 H s -> geom (pg s) -> cache_ok J (known rs0) (pc s) ->
  (exists g, pc s !! p = Some g /\ dirty g = true /\ needSync g = false) -> p <= dbSize (pg s) ->
  wp (store_page p) (ends (fun s' => file_inv rs0 H s' /\ cache_ok J (known rs0) (pc s') /\ listed [p] s s')) s.
Proof.
  intros I G C (g & Hg & Hd & Hs) Hle. pose proof (C _ _ Hg) as K. unfold store_page, getp. wp_step. wp_step. unfold after, id.
  set (Q := fun (_ : unit) s1 => file_inv rs0 H s1 /\ cache_ok J (known rs0) (pc s1) /\ pg s1 = pg s /\ jf s1 = jf s /\ df s1 = df s /\
    exists g1, pc s1 !! p = Some g1 /\ dirty g1 = true /\ needSync g1 = false /\
      (pc s1 = pc s \/ p = 1 /\ exists d, counted (pData g) d /\ pc s1 = alter (set_pData d) 1 (pc s))).
  eapply (wp_seq (fun _ => False) _ _ Q).
  { destruct (Z.eqb_spec p 1) as [->|Hne].
    - pose proof (po_data _ _ _ _ K) as [K1 K2]. destruct (g_vers _ _ _ G) as [V1 V2].
      eapply okp_mono; [apply (wp_counter s g Hg K1); [lia|done|done]|]. intros [] s1 (d' & Hc & ->). split_and!; try done.
      + by eapply file_inv_eq.
      + eapply cache_alter; [exact C|done|done|exact Hg|]. by eapply counted_ok.
      + exists (set_pData d' g). cbn. rewrite lookup_alter_eq, Hg. split_and!; try done. right. split; [done|]. by exists d'.
    - apply wp_ret. split_and!; try done. exists g. split_and!; try done. by left. }
  intros [] s1 (I1 & C1 & Ep & Ej & Ed & g1 & Hg1 & Hd1 & Hs1 & Hpc). unfold page, setp. wp_go. rewrite Hg1. wp_go.
  rewrite (g_ps _ _ _ G). pose proof (C1 _ _ Hg1) as K1. destruct (po_pgno _ _ _ _ K1) as [[P1 P2] _]. destruct (po_data _ _ _ _ K1) as [D1 D2].
  eapply wp_mono; [apply (wp_write_d ps n orig HS ltac:(lia) ltac:(lia) rs0 H _ _ s1 I1); by eapply page_dop|].
  intros [rc|rc|] s2; cbn [okp returns after JrnlSteps.ends]; [|done|done]. intros [T2 P].
  set (R := fun v s' => s' = set_pg (set_dbFileVers v (pg s2)) s2 /\ (rc = SQLITE_OK -> bytes_ok v /\ blen v = 16)).
  eapply (wp_seq (fun _ => False) _ _ (fun _ s' => exists v, R v s')).
  { destruct (Z.eqb_spec p 1) as [->|Hne].
    - destruct (bsub_in (pData g1) 24 16) as [v Ev]; [lia|lia|lia|]. rewrite Ev. wp_go. exists v.
      split; [done|]. intros _. split; [by eapply bsub_ok|by apply bsub_len in Ev].
    - apply wp_ret. exists (dbFileVers (pg s2)). split; [destruct s2 as [[] ? ? ? ? ?]; done|]. intros Hrc.
      destruct (P Hrc) as (_ & [M1 _] & _). rewrite M1, Ep. apply G. }
  intros [] s3 (v & -> & V). wp_go. split; [done|]. intros ->. destruct (V eq_refl) as [V1 V2]. destruct (P eq_refl) as (I2 & [M1 M2] & Ej2 & Ed2).
  assert (W1 : db_page ps (f_cur (df s2)) p = pData g1) by (rewrite Ed2; apply db_page_written; lia).
  split_and!; [by eapply file_inv_eq|cbn; by rewrite M2|]. split; cbn [jf df pc pg set_pg].
  - congruence.
  - exists v, (Z.max (dbFileSize (pg s)) p). split_and!; try done; [| |].
    + rewrite M1, Ep. cbn [dbFileSize set_dbFileVers]. destruct (Z.ltb_spec (dbFileSize (pg s)) p).
      * by rewrite Z.max_r by lia.
      * rewrite Z.max_l by lia. by destruct (pg s).
    + lia.
    + intros Hl. rewrite Ed2. pose proof (write_len_ge (f_cur (df s1)) ((p - 1) * ps) (pData g1) ltac:(nia)).
      pose proof (write_len_in (f_cur (df s1)) ((p - 1) * ps) (pData g1) ltac:(nia) ltac:(lia)). rewrite Ed in *.
      destruct (Z.max_spec (dbFileSize (pg s)) p) as [[? ->]|[? ->]]; nia.
  - rewrite M2. destruct Hpc as [->|[-> (d & Hc & ->)]]; [by left|]. right. split; [apply list_elem_of_singleton; done|]. by exists g, d.
  - rewrite Ed2, Ed. apply write_len_ge. nia.
  - intros q Hq Hni. rewrite Ed2, Ed. apply db_page_other; [lia|done| |done]. intros ->. apply Hni. by apply list_elem_of_singleton.
  - intros q g0 Hq _ _ _. apply list_elem_of_singleton in Hq as ->. exists g1. by rewrite M2.
Qed.


Lemma bind_assoc {A B C} (m : M pst A) (f : A -> M pst B) (k : B -> M pst C) s :
  bind (bind m f) k s = bind m (fun a => bind (f a) k) s.
Proof. unfold bind. by destruct (m s) as [[]]. Qed.
Lemma bind_ext {A B} (m : M pst A) (f h : A -> M pst B) s : (forall a s, f a s = h a s) -> bind m f s = bind m h s.
Proof. intros E. unfold bind. by destruct (m s) as [[] s1]. Qed.
Lemma pagelist_step p l s g :
  pc s !! p = Some g -> p <= dbSize (pg s) -> dontWrite g = false ->
  pagelist_loop (p :: l) s = try_ (store_page p) (pagelist_loop l) s.
Proof.
  intros Hg Hle Hd. cbn [pagelist_loop].
  transitivity ((let* p0 := getp id in let* g := page p in
    if (p <=? dbSize (pg s)) && negb (dontWrite g) then try_ (store_page p) (pagelist_loop l) else pagelist_loop l) s).
  - unfold getp, page, gets, lift. unfold bind at 1 2 3. unfold bind at 8 9 10. unfold id. rewrite Hg. cbn [ret].
    rewrite Hd, (proj2 (Z.leb_le _ _) Hle). cbn [andb negb]. unfold try_, store_page.
    rewrite bind_assoc. match goal with |- _ = bind (getp id) ?f s => change (bind (getp id) f s) with (f (pg s) s) end. cbv beta.
    etrans; [|symmetry; apply bind_assoc]. apply bind_ext. intros [] s1.
    etrans; [|symmetry; apply bind_assoc]. apply (bind_ext (page p)). intros g1 s2.
    etrans; [|symmetry; apply bind_assoc]. apply bind_ext. intros rc s3.
    etrans; [|symmetry; apply bind_assoc]. apply bind_ext. intros [] s4.
    etrans; [|symmetry; apply bind_assoc]. by apply bind_ext.
  - unfold getp, page, gets, lift, bind at 1 2 3. rewrite Hg. cbn [ret]. by rewrite Hd, (proj2 (Z.leb_le _ _) Hle).
Qed.


Lemma bat_grow d m j : blen d <= m -> 0 <= j -> bat (fop_apply d (FTrunc m)) j = bat d j.
Proof.
  intros Hm Hj. destruct (Z.lt_ge_cases j m) as [Hlt|Hge]; [apply bat_trunc; lia|].
  pose proof (blen_nonneg d). rewrite (bat_outside d j) by lia. apply bat_outside. rewrite trunc_len by lia. lia.
Qed.
Lemma listed_none l s :
  geom (pg s) -> (forall q, q ∈ l -> dbSize (pg s) < q \/ exists g, pc s !! q = Some g /\ dontWrite g = true) -> listed l s s.
Proof.
  intros G Hq. split; try done.
  - exists (dbFileVers (pg s)), (dbFileSize (pg s)). destruct (g_vers _ _ _ G). split_and!; try done. by destruct (pg s).
  - by left.
  - intros q g0 Hq' Hle Hg Hd. destruct (Hq q Hq') as [|(g & Hg' & Hd')]; [lia|congruence].
Qed.
Lemma listed_cons p l s s1 s2 : listed [p] s s1 -> listed l s1 s2 -> p ∉ l -> 1 <= p -> listed (p :: l) s s2.
Proof.
  intros [A1 (v & z & A2 & A3 & A4 & A5 & A7) A8 A9 A10 A11] [B1 (v' & z' & B2 & B3 & B4 & B5 & B7) B8 B9 B10 B11] Hni Hp.
  rewrite A2 in *. cbn [dbSize dbFileSize set_dbFileSize set_dbFileVers] in *. split.
  - congruence.
  - exists v', z'. split_and!; [by rewrite B2|done|done|lia|].
    intros Hl. by apply B7, A7.
  - destruct B8 as [->|(H1 & g & d & Hg & Hc & ->)].
    + destruct A8 as [->|(H1%list_elem_of_singleton & g & d & Hg & Hc & ->)]; [by left|]. right. subst p. split; [constructor|]. exists g, d. by split_and!.
    + destruct A8 as [E|(H2%list_elem_of_singleton & _)]; [|congruence]. right. split; [by constructor|]. exists g, d. rewrite E in *. by split_and!.
  - lia.
  - intros q Hq Hni'. apply not_elem_of_cons in Hni' as [H1 H2]. rewrite B10, A10; try done. by intros Hx%list_elem_of_singleton.
  - intros q g0 Hq Hle Hg0 Hd0. apply elem_of_cons in Hq as [->|Hq].
    2:{ apply (B11 q g0); try done. destruct A8 as [->|(H1%list_elem_of_singleton & g & d & _ & _ & ->)]; [done|].
        rewrite lookup_alter_ne; [done|]. intros <-. by rewrite H1 in Hq. }
    destruct (A11 p g0) as (g & Hg & Eg); [by apply list_elem_of_singleton|done..|]. exists g. rewrite B10 by done. split; [|done].
    destruct B8 as [->|(H1 & g' & d & Hg' & Hc & ->)]; [done|]. rewrite lookup_alter_ne; [done|]. by intros <-.
Qed.

Lemma wp_pagelist_loop J rs0 H l s :
  file_inv rs0 H s -> geom (pg s) -> cache_ok J (known rs0) (pc s) -> NoDup l ->
  (forall p, p ∈ l -> exists g, pc s !! p = Some g /\ dirty g = true /\ needSync g = false) ->
  wp (pagelist_loop l) (ends (fun s' => file_inv rs0 H s' /\ cache_ok J (known rs0) (pc s') /\ listed l s s')) s.
Proof.
  revert s. induction l as [|p l IH]; intros s I G C Hnd Hl.
  { apply ends_ret; [apply I|]. intros _. split_and!; [done|done|]. apply listed_none; [done|]. intros q Hq. by apply elem_of_nil in Hq. }
  apply list.NoDup_cons in Hnd as [Hni Hnd]. destruct (Hl p) as (g & Hg & Hd & Hs); [constructor|].
  pose proof (C _ _ Hg) as K. destruct (po_pgno _ _ _ _ K) as [[P1 P2] _].
  assert (Hrest : forall s1, file_inv rs0 H s1 -> cache_ok J (known rs0) (pc s1) -> listed [p] s s1 ->
    wp (pagelist_loop l) (ends (fun s' => file_inv rs0 H s' /\ cache_ok J (known rs0) (pc s') /\ listed (p :: l) s s')) s1).
  { intros s1 I1 C1 L1. eapply ends_mono.
    - apply (IH s1 I1); [by eapply listed_geom|done|done|]. intros q Hq. destruct (Hl q) as (gq & Hgq & Hdq & Hsq); [by constructor|].
      destruct (li_pc _ _ _ L1) as [->|(H1%list_elem_of_singleton & g' & d & Hg' & Hc & ->)]; [by exists gq|].
      subst p. exists gq. rewrite lookup_alter_ne; [done|congruence].
    - intros s2 (I2 & C2 & L2). split_and!; [done|done|]. by eapply listed_cons. }
  destruct (decide (p <= dbSize (pg s) /\ dontWrite g = false)) as [[Hle Hdw]|Hskip].
  - unfold wp. rewrite (pagelist_step p l s g Hg Hle Hdw). fold (wp (try_ (store_page p) (pagelist_loop l)) (ends (fun s' => file_inv rs0 H s' /\ cache_ok J (known rs0) (pc s') /\ listed (p :: l) s s')) s).
    eapply wp_try; [apply (wp_store_page J rs0 H p s I G C); [by exists g|done]|]. intros s1 (I1 & C1 & L1). by apply Hrest.
  - cbn [pagelist_loop]. unfold getp, page. wp_go. rewrite Hg. wp_go. unfold id.
    assert (E : (p <=? dbSize (pg s)) && negb (dontWrite g) = false).
    { destruct (Z.leb_spec p (dbSize (pg s))); [|done]. destruct (dontWrite g) eqn:Ed; [done|]. by destruct Hskip. }
    rewrite E. apply Hrest; [done|done|]. apply listed_none; [done|].
    intros q ->%list_elem_of_singleton. destruct (Z.le_gt_cases p (dbSize (pg s))); [right|by left]. exists g. split; [done|].
    destruct (dontWrite g) eqn:Ed; [done|]. by destruct Hskip.
Qed.

Lemma wp_pagelist J rs0 H l s :
  file_inv rs0 H s -> geom (pg s) -> cache_ok J (known rs0) (pc s) -> NoDup l ->
  (forall p, p ∈ l -> exists g, pc s !! p = Some g /\ dirty g = true /\ needSync g = false) ->
  (dbHintSize (pg s) < dbSize (pg s) -> l <> []) ->
  wp (pager_write_pagelist l) (ends (fun s' => file_inv rs0 H s' /\ cache_ok J (known rs0) (pc s') /\
    exists h s1, listed l s1 s' /\ pg s1 = set_dbHintSize h (pg s) /\ pc s1 = pc s /\ jf s1 = jf s /\
      blen (f_cur (df s)) <= blen (f_cur (df s1)) /\
      (forall q, 1 <= q -> db_page ps (f_cur (df s1)) q = db_page ps (f_cur (df s)) q) /\
      (h = dbSize (pg s) \/ h = dbHintSize (pg s) /\ (h < dbSize (pg s) -> exists p, l = [p] /\ p <= h)))) s.
Proof.
  intros I G C Hnd Hl Hne. unfold pager_write_pagelist, getp, setp. wp_go. unfold id.
  set (Q := fun (_ : unit) s1 => file_inv rs0 H s1 /\ exists h, pg s1 = set_dbHintSize h (pg s) /\ pc s1 = pc s /\ jf s1 = jf s /\
      blen (f_cur (df s)) <= blen (f_cur (df s1)) /\
      (forall q, 1 <= q -> db_page ps (f_cur (df s1)) q = db_page ps (f_cur (df s)) q) /\
      (h = dbSize (pg s) \/ h = dbHintSize (pg s) /\ (h < dbSize (pg s) -> exists p, l = [p] /\ p <= h))).
  assert (Hsame : forall P : Prop, (dbHintSize (pg s) < dbSize (pg s) -> exists p, l = [p] /\ p <= dbHintSize (pg s)) -> Q tt s).
  { intros _ Hp. split; [done|]. exists (dbHintSize (pg s)). split_and!; try done; [by destruct (pg s)|by right]. }
  eapply (wp_mono _ (returns Q)).
  { destruct (Z.ltb_spec (dbHintSize (pg s)) (dbSize (pg s))) as [Hlt|Hge]; [|apply wp_ret, (Hsame True); lia].
    destruct l as [|p rest]; [by exfalso; apply Hne|].
    destruct (negb (bool_decide (rest = [])) || (dbHintSize (pg s) <? p)) eqn:E.
    - eapply wp_seq; [apply (wp_hint_d ps n orig HS ltac:(lia) ltac:(lia) rs0 H s I)|].
      intros [] s1 (I1 & [M1 M2] & Ej & m & Hm & Ed). wp_go. split; [by eapply file_inv_eq|]. exists (dbSize (pg s)).
      cbn [pg pc jf df set_pg]. split_and!; [by rewrite M1|done|done| | |by left].
      + rewrite Ed, trunc_len by (pose proof (blen_nonneg (f_cur (df s))); lia). done.
      + intros q Hq. rewrite Ed. apply db_page_ext. intros j Hj. apply bat_grow; [done|nia].
    - apply wp_ret. apply orb_false_elim in E as [E1 E2]. apply negb_false_iff, bool_decide_eq_true in E1 as ->. apply Z.ltb_ge in E2.
      apply (Hsame True). intros _. by exists p. }
  intros [[]|rc|] s1; cbn [returns okp after]; [|done|done]. intros (I1 & h & E1 & E2 & E3 & E4 & E5 & E6).
  eapply ends_mono; [apply (wp_pagelist_loop J rs0 H l s1 I1); rewrite ?E1, ?E2; try done; by destruct G|].
  intros s2 (I2 & C2 & L2). split_and!; [done|done|]. exists h, s1. done.
Qed.
End Write.
