(* ===== verification/JrnlCache.v ===== *)
(** * Pages of a transaction

    Changes of the page cache alone, and [sqlite3PagerGet], keep the invariant of
    a transaction ([wr_inv]); and what content a page has for the transaction,
    wherever it is ([holds]): in the cache, or in the database file. *)
From stdpp Require Import gmap.
From S2P Require Import Prelude Bits Bytes Varint Wal WalIndex WalRecover WalRecovery WalWrite WalFile WalTx WalSteps Jrnl JrnlFile JrnlSteps JrnlSync JrnlWrite.

Section Cache.
Context `{W : World} (ps n : Z) (orig : old_db).
Abbreviation Sz := sector.
Abbreviation PG := (ps + 8).
Hypothesis (Hset : setting ps n).
Let HS : 32 <= Sz := proj1 (se_sector _ _ Hset).
Let HSps : Sz <= ps := proj2 (se_sector _ _ Hset).
Let Hps : 512 <= ps <= SQLITE_MAX_PAGE_SIZE := se_page _ _ Hset.
Let Hn : 0 <= n < 0xffffffff := se_orig _ _ Hset.
Let Hdu : durable := se_durable _ _ Hset.
Abbreviation file_inv := (file_inv ps n orig).
Abbreviation ends := (ends ps n orig).
Abbreviation trail_safe := (trail_safe ps n orig).
Abbreviation geom := (geom ps n).
Abbreviation jstate := (jstate ps n orig).
Abbreviation known := (known orig).
Abbreviation cache_ok := (cache_ok ps n orig).
Abbreviation parts := (parts ps n orig).
Abbreviation wr_inv := (wr_inv ps n orig).
Abbreviation writing := (writing ps n orig).
Abbreviation locked := (locked ps n orig).

Lemma wr_geom s : wr_inv s -> geom (pg s).
Proof. intros [(_ & P & _)|(? & ? & ? & ? & P & _)]; apply P. Qed.
Lemma wr_len s : wr_inv s -> n * ps <= blen (f_cur (df s)) /\ bytes_ok (f_cur (df s)).
Proof.
  intros Hw. assert (I : exists rs0 H, file_inv rs0 H s) by (destruct Hw as [(_ & P & _)|(H & ? & rs0 & ? & P & _)]; do 2 eexists; apply P).
  destruct I as (rs0 & H & I). destruct (always_cur _ _ _ (fi_d _ _ _ _ _ _ I)) as (A & B & _). done.
Qed.
Lemma wr_cache s : wr_inv s -> exists J Sy, cache_ok J Sy (pc s).
Proof. intros [(_ & P & _)|(H & ck & rs0 & rs1 & P & _)]; do 2 eexists; apply P. Qed.

(** ** Changes of the cache *)

Definition same_files (s s' : pst) : Prop := jf s' = jf s /\ df s' = df s /\ trail s' = trail s.
(** A page that nobody needs is marked as journalled, or nothing is. *)
Definition marked (b0 b : option (gset Z)) : Prop :=
  b = b0 \/ exists x l, x ∈ unused orig /\ b0 = Some l /\ b = Some ({[x]} ∪ l).
(** What a pager without requests to the files changes of its own state. *)
Record touched (s s' : pst) : Prop := {
  to_files : same_files s s';
  to_pg : exists k v b, 0 < k /\ bytes_ok v /\ blen v = 16 /\ marked (pInJournal (pg s)) b /\
    pg s' = set_pInJournal b (set_nRefSum k (set_dbFileVers v (pg s)));
}.
Lemma touched_same s s' : geom (pg s) -> same_files s s' -> pg s' = pg s -> touched s s'.
Proof.
  intros G F E. split; [done|]. exists (nRefSum (pg s)), (dbFileVers (pg s)), (pInJournal (pg s)). destruct (g_vers _ _ _ G).
  split_and!; try done; [apply G|by left|]. rewrite E. by destruct (pg s).
Qed.
(** A cache with the same dirty pages. *)
Record recached (c c' : pcache) : Prop := {
  rc_kept q g : c !! q = Some g -> dirty g = true -> exists g', c' !! q = Some g' /\ dirty g' = true /\ needSync g' = needSync g;
  rc_new q g' : c' !! q = Some g' -> dirty g' = true -> exists g, c !! q = Some g /\ dirty g = true;
}.
Lemma recached_refl c : recached c c.
Proof. split; [intros q g Hg Hd; by exists g|intros q g Hg Hd; by exists g]. Qed.

Lemma wr_change s s' :
  touched s s' -> recached (pc s) (pc s') ->
  (forall rs0 rs1, dimg ps n orig rs0 (f_cur (df s)) -> cache_ok (known (rs0 ++ rs1)) (known rs0) (pc s) ->
     cache_ok (known (rs0 ++ rs1)) (known rs0) (pc s')) ->
  (writing s -> writing s') /\ (locked s -> locked s').
Proof.
  intros [(Ej & Ed & Et) (k & v & b & Hk & V1 & V2 & Hb & Ep)] [R1 R2] Hc.
  assert (Hparts : forall H rs0 rs1, parts H rs0 rs1 s -> parts H rs0 rs1 s').
  { intros H rs0 rs1 [I G C U Hh Hf]. pose proof (Hc rs0 rs1 (always_cur _ _ _ (fi_d _ _ _ _ _ _ I)) C) as C'. split; try done.
    - by eapply file_inv_eq.
    - rewrite Ep. by destruct G.
    - intros q Hq. destruct (U q Hq) as (g & Hg & Hs).
      destruct (R1 q g Hg (po_sync _ _ _ _ _ _ _ (C _ _ Hg) Hs)) as (g' & Hg' & _ & Hs'). exists g'. split; congruence.
    - unfold hint_ok. rewrite Ep. cbn. intros Hlt. destruct (Hh Hlt) as (g & Hg & Hd).
      destruct (R1 _ g Hg Hd) as (g' & Hg' & Hd' & _). by exists g'.
    - by rewrite Ep, Ed. }
  split.
  - intros (H & ck & rs0 & rs1 & P & J & E). exists H, ck, rs0, rs1. split_and!; [by apply Hparts| |by rewrite Ep].
    rewrite Ep, Ej. destruct J as [J1 J2 J3 J4 (L & HL & EL) J6 J7 J8 J9]. split; try done. cbn.
    destruct Hb as [->|(x & l & Hx & El & ->)]; [by exists L|]. exists ({[x]} ∪ L). rewrite EL in El. injection El as <-.
    split; [apply union_subseteq; split; [by apply singleton_subseteq_l|done]|]. f_equal. by rewrite !union_assoc_L, (union_comm_L {[x]}).
  - intros (E & P & Hcl). split_and!; [by rewrite Ep|by apply Hparts|]. intros q g' Hg'. destruct (dirty g') eqn:Hd; [|done].
    destruct (R2 q g' Hg' Hd) as (g & Hg & Hd'). specialize (Hcl _ _ Hg). cbn in Hcl. congruence.
Qed.
Lemma wr_inv_change s s' :
  wr_inv s -> touched s s' -> recached (pc s) (pc s') ->
  (forall rs0 rs1, dimg ps n orig rs0 (f_cur (df s)) -> cache_ok (known (rs0 ++ rs1)) (known rs0) (pc s) ->
     cache_ok (known (rs0 ++ rs1)) (known rs0) (pc s')) -> wr_inv s'.
Proof. intros Hw T R C. destruct (wr_change s s' T R C) as [A B]. destruct Hw; [left|right]; auto. Qed.

(** A page of the cache changes, but for its flags for the journal. *)
Lemma recached_alter (c : pcache) p f :
  (forall g, dirty (f g) = dirty g /\ needSync (f g) = needSync g) -> recached c (alter f p c).
Proof.
  intros Hf. split.
  - intros q g Hg Hd. destruct (decide (q = p)) as [->|Hne].
    + exists (f g). rewrite lookup_alter_eq, Hg. destruct (Hf g). split_and!; [done|congruence|done].
    + exists g. by rewrite lookup_alter_ne.
  - intros q g' Hg Hd. destruct (decide (q = p)) as [->|Hne].
    + rewrite lookup_alter_eq in Hg. apply fmap_Some in Hg as (g & Hg & ->). exists g. destruct (Hf g). split; congruence.
    + rewrite lookup_alter_ne in Hg by done. by exists g'.
Qed.
Lemma recached_insert (c : pcache) p g : c !! p = None -> dirty g = false -> recached c (<[p := g]> c).
Proof.
  intros Hp Hd. split.
  - intros q gq Hg Hdq. exists gq. rewrite lookup_insert_ne; [done|]. intros ->. congruence.
  - intros q gq Hg Hdq. apply lookup_insert_Some in Hg as [[<- <-]|[_ Hg]]; [congruence|by exists gq].
Qed.
Lemma recached_delete (c : pcache) p g : c !! p = Some g -> dirty g = false -> recached c (delete p c).
Proof.
  intros Hp Hd. split.
  - intros q gq Hg Hdq. exists gq. rewrite lookup_delete_ne; [done|]. intros ->. congruence.
  - intros q gq Hg Hdq. apply lookup_delete_Some in Hg as [_ Hg]. by exists gq.
Qed.
Lemma wr_alter s p g f :
  pc s !! p = Some g -> geom (pg s) -> (forall g, dirty (f g) = dirty g /\ needSync (f g) = needSync g) ->
  (forall rs0 rs1, page_ok ps n orig (known (rs0 ++ rs1)) (known rs0) p g -> page_ok ps n orig (known (rs0 ++ rs1)) (known rs0) p (f g)) ->
  let s' := set_pc (alter f p (pc s)) s in (writing s -> writing s') /\ (wr_inv s -> wr_inv s').
Proof.
  intros Hg G Hf Hok s'. assert (T : touched s s') by (by apply touched_same).
  assert (C : forall rs0 rs1, dimg ps n orig rs0 (f_cur (df s)) -> cache_ok (known (rs0 ++ rs1)) (known rs0) (pc s) ->
    cache_ok (known (rs0 ++ rs1)) (known rs0) (pc s')).
  { intros rs0 rs1 _ C. eapply cache_alter; [exact C|done|done|exact Hg|]. by apply Hok, C. }
  pose proof (recached_alter (pc s) p f Hf) as R. split; [by apply wr_change|]. intros Hw. by apply (wr_inv_change s).
Qed.

(** *** The content of pages *)

(** Page 1 is the same up to the change counter and version in its header. *)
Definition agrees (q : Z) (d x : bytes) : Prop := if q =? 1 then counted d x else x = d.
Lemma counted_refl d : bytes_ok d -> counted d d.
Proof. by intros. Qed.
Lemma counted_trans d1 d2 d3 : counted d1 d2 -> counted d2 d3 -> counted d1 d3.
Proof. intros (A & B & C) (A' & B' & C'). split_and!; [done|lia|]. intros i H1 H2. by rewrite C', C. Qed.
Lemma agrees_refl q d : bytes_ok d -> agrees q d d.
Proof. intros H. unfold agrees. case_match; [by apply counted_refl|done]. Qed.
Lemma agrees_trans q d1 d2 d3 : agrees q d1 d2 -> agrees q d2 d3 -> agrees q d1 d3.
Proof. unfold agrees. case_match; [apply counted_trans|congruence]. Qed.

Definition in_file (s : pst) (q : Z) (d : bytes) : Prop := agrees q d (db_page ps (f_cur (df s)) q).
(** The content of page [q] is [d], for who reads it and at the next commit. *)
Record holds (s : pst) (q : Z) (d : bytes) : Prop := {
  hl_range : 1 <= q <= dbSize (pg s) /\ q <> lck ps;
  hl_cached g : pc s !! q = Some g -> agrees q d (pData g) /\ (if dirty g then dontWrite g = false else in_file s q d);
  hl_file : pc s !! q = None -> in_file s q d;
}.
Definition kept (s s' : pst) : Prop := forall q d, holds s q d -> holds s' q d.
Lemma kept_compose s1 s2 s3 : kept s1 s2 -> kept s2 s3 -> kept s1 s3.
Proof. unfold kept. eauto. Qed.

(** Where the file and the cache are the same. *)
Lemma holds_stays s s' q d :
  holds s q d -> dbSize (pg s) <= dbSize (pg s') -> pc s' !! q = pc s !! q ->
  db_page ps (f_cur (df s')) q = db_page ps (f_cur (df s)) q -> holds s' q d.
Proof.
  intros [[A A'] B C] Hs Ec Ed. unfold in_file in *. split; unfold in_file; rewrite ?Ec, ?Ed; try done. split; [lia|done].
Qed.
(** In both places. *)
Lemma holds_both s q d :
  1 <= q <= dbSize (pg s) -> q <> lck ps -> in_file s q d ->
  (forall g, pc s !! q = Some g -> agrees q d (pData g) /\ (dirty g = true -> dontWrite g = false)) -> holds s q d.
Proof.
  intros Hq Hl Hf Hc. split; [done| |done]. intros g Hg. destruct (Hc g Hg) as [A B]. split; [done|]. destruct (dirty g); auto.
Qed.
Lemma holds_dirty s q d g :
  1 <= q <= dbSize (pg s) -> q <> lck ps -> pc s !! q = Some g -> dirty g = true -> dontWrite g = false -> agrees q d (pData g) ->
  holds s q d.
Proof.
  intros Hq Hl Hg Hd Hw Ha. split; [done| |congruence]. intros g' Hg'. assert (g' = g) as -> by congruence. by rewrite Hd.
Qed.
(** A change of one page of the cache. *)
Lemma holds_alter s p f q d : q <> p -> holds s q d -> holds (set_pc (alter f p (pc s)) s) q d.
Proof. intros Hne H. apply (holds_stays s); [done|done| |done]. cbn. by rewrite lookup_alter_ne. Qed.
Lemma holds_written p s s' q d : written ps n orig p s s' -> holds s q d -> holds s' q d.
Proof.
  intros (Hw & (g & g' & Hg & Hg' & Ed & _ & Hd & Hdw) & Ho & Edf & Esz & _) H. destruct (decide (q = p)) as [->|Hne].
  - destruct (hl_range _ _ _ H) as [H1 H2]. eapply holds_dirty; [rewrite Esz; lia|done|exact Hg'|done|done|].
    rewrite Ed. by apply (hl_cached _ _ _ H).
  - apply (holds_stays s); [done|rewrite Esz; lia|by apply Ho|by rewrite Edf].
Qed.
Lemma written_holds p s s' g : written ps n orig p s s' -> pc s !! p = Some g -> holds s' p (pData g).
Proof.
  intros (Hw & (g1 & g' & Hg & Hg' & Ed & _ & Hd & Hdw) & Ho & Edf & Esz & _) Hg0.
  assert (g1 = g) as -> by congruence. destruct (wr_cache s' (or_intror Hw)) as (J & Sy & C).
  pose proof (C _ _ Hg') as K. destruct (po_pgno _ _ _ _ _ _ _ K) as [[P1 P2] P3].
  eapply holds_dirty; [rewrite Esz; lia|done|exact Hg'|done|done|]. rewrite Ed. apply agrees_refl. rewrite <- Ed. apply K.
Qed.

(** *** What the caller does with pages *)

(** The caller changes a page that is writeable. *)
Lemma edit_ok s p g d :
  geom (pg s) -> pc s !! p = Some g -> writeable g = true -> bytes_ok d -> blen d = ps ->
  let s' := set_pc (alter (set_pData d) p (pc s)) s in (writing s -> writing s') /\ (wr_inv s -> wr_inv s').
Proof.
  intros G Hg Hwr Kd Ld. apply (wr_alter s p g); [done|done|done|]. intros rs0 rs1 [A1 A2 A3 A4 A5 A6 A7 A8 A9].
  split; cbn; try done. intros Hp Hni. exfalso. by apply Hni, A4.
Qed.
Lemma edit_holds s p g d J Sy :
  cache_ok J Sy (pc s) -> pc s !! p = Some g -> writeable g = true -> p <= dbSize (pg s) -> bytes_ok d ->
  holds (set_pc (alter (set_pData d) p (pc s)) s) p d.
Proof.
  intros C Hg Hwr Hle Kd. pose proof (C _ _ Hg) as [[[P1 P2] P3] _ _ _ _ _ _ K8 K9].
  apply (holds_dirty _ p d (set_pData d g)); cbn [pg pc set_pc]; try done.
  - by rewrite lookup_alter_eq, Hg.
  - by apply K9.
  - cbn. destruct (dontWrite g) eqn:E; [|done]. specialize (K8 eq_refl). congruence.
  - by apply agrees_refl.
Qed.

Lemma wp_DontWrite p g s :
  wr_inv s -> pc s !! p = Some g ->
  wp (sqlite3PagerDontWrite p) (returns (fun _ s' => wr_inv s' /\ forall q d, q <> p -> holds s q d -> holds s' q d)) s.
Proof.
  intros Hw Hg. unfold sqlite3PagerDontWrite, page, setc. wp_go. rewrite Hg. wp_go. destruct (dirty g) eqn:Hd; wp_go; [|done].
  split; [|intros q d Hne H; by apply (holds_alter s p)].
  apply (wr_alter s p g); [done|by apply wr_geom|done| |done]. intros rs0 rs1 [A1 A2 A3 A4 A5 A6 A7 A8 A9]. by split.
Qed.
Lemma evict_ok s p g :
  wr_inv s -> pc s !! p = Some g -> dirty g = false ->
  let s' := set_pc (delete p (pc s)) s in wr_inv s' /\ kept s s'.
Proof.
  intros Hw Hg Hd s'. split.
  - apply (wr_inv_change s); [done|by apply touched_same; [apply wr_geom|..]|by eapply recached_delete|]. intros rs0 rs1 _ C. by apply map_Forall_delete.
  - intros q d H. destruct (decide (q = p)) as [->|Hne].
    + destruct (hl_cached _ _ _ H g Hg) as [_ Hf]. rewrite Hd in Hf. split; [apply H| |done]. cbn. intros g' Hg'. by rewrite lookup_delete_eq in Hg'.
    + apply (holds_stays s); [done|done| |done]. cbn. by rewrite lookup_delete_ne.
Qed.

(** Two pages change places: each gets the content of the other. *)
Lemma wp_Rekey p i fl g s :
  pc s !! p = Some g ->
  wp (sqlite3PagerRekey p i fl) (returns (fun _ s' => s' = set_pc (<[i := set_pData (pData g) fl]> (delete p (pc s))) s)) s.
Proof. intros Hg. unfold sqlite3PagerRekey, page, setc. wp_go. rewrite Hg. by wp_go. Qed.
Lemma wp_swap a b ga gb s :
  let t := lckPgno (pg s) in a <> b -> a <> t -> b <> t -> pc s !! t = None -> pc s !! a = Some ga -> pc s !! b = Some gb ->
  wp (swap_pages a b) (returns (fun _ s' =>
    s' = set_pc (alter (set_pData (pData gb)) a (alter (set_pData (pData ga)) b (pc s))) s)) s.
Proof.
  intros t Hne Ha Hb Ht Hga Hgb. unfold swap_pages, getp, page. wp_go. fold t. rewrite Hga. wp_go. rewrite Hgb. wp_go.
  eapply wp_after; [by apply (wp_Rekey a t gb ga)|]. cbn beta. intros [] s1 E1.
  assert (E1' : pc s1 = <[t := set_pData (pData ga) gb]> (delete a (pc s))) by (by rewrite E1).
  eapply wp_seq; [apply (wp_Rekey b a ga gb); by rewrite E1', lookup_insert_ne, lookup_delete_ne|]. cbn beta. intros [] s2 E2.
  assert (E2' : pc s2 = <[a := set_pData (pData gb) ga]> (delete b (pc s1))) by (by rewrite E2).
  eapply okp_mono; [apply (wp_Rekey t b gb (set_pData (pData ga) gb)); by rewrite E2', lookup_insert_ne, lookup_delete_ne, E1', lookup_insert_eq|].
  cbn beta. intros [] s3 ->. rewrite E2', E1', E2, E1. unfold set_pc. cbn. f_equal. apply map_eq. intros q.
  destruct (decide (q = b)) as [->|Hqb].
  { by rewrite lookup_insert_eq, lookup_alter_ne, lookup_alter_eq, Hgb. }
  rewrite lookup_insert_ne by done. destruct (decide (q = t)) as [->|Hql].
  { by rewrite lookup_delete_eq, !lookup_alter_ne. }
  rewrite lookup_delete_ne by done. destruct (decide (q = a)) as [->|Hqa].
  { by rewrite lookup_insert_eq, lookup_alter_eq, lookup_alter_ne, Hga. }
  by rewrite lookup_insert_ne, lookup_delete_ne, lookup_insert_ne, lookup_delete_ne, !lookup_alter_ne.
Qed.

(** *** Reading pages *)

Definition no_content (flags : Z) : bool := negb (Z.land flags PAGER_GET_NOCONTENT =? 0).
(** Only such pages are fetched without their content. *)
Definition droppable (p : Z) : Prop := p ∈ unused orig \/ n < p.
(** A page was found in the cache, or added to it. *)
Record fetched (p flags : Z) (s s' : pst) : Prop := {
  fe_inv : wr_inv s';
  fe_writing : writing s -> writing s';
  fe_page : is_Some (pc s' !! p);
  fe_touched : touched s s';
  fe_refs : nRefSum (pg s') = nRefSum (pg s) + 1;
  fe_holds q d : no_content flags = false \/ q <> p -> holds s q d -> holds s' q d;
}.
(** The content [d] that a page of the cache may get. *)
Definition addable (noContent : bool) (s : pst) (p : Z) (d : bytes) : Prop :=
  1 <= p < 2 ^ 32 /\ p <> lck ps /\ bytes_ok d /\ blen d = ps /\
  (p <= n -> p ∉ unused orig -> d = db_pg ps (f_cur (df s)) p) /\
  (if noContent then d = zeros ps else p <= dbSize (pg s) -> d = db_page ps (f_cur (df s)) p).

Lemma seg_ok d i m : bytes_ok d -> bytes_ok (seg d i m).
Proof. intros Hd. unfold seg. by apply Forall_take, Forall_drop. Qed.
Lemma seg_le d i m : 0 <= m -> blen (seg d i m) <= m.
Proof. intros Hm. unfold blen, seg. rewrite length_take. lia. Qed.

Lemma read_page d p :
  1 <= p -> seg d ((p - 1) * ps) ps ++ zeros (ps - blen (seg d ((p - 1) * ps) ps)) = db_page ps d p.
Proof.
  intros Hp. assert (Ho : 0 <= (p - 1) * ps) by nia. set (off := (p - 1) * ps) in *.
  pose proof (seg_le d off ps ltac:(lia)) as Hle. pose proof (blen_nonneg (seg d off ps)).
  assert (L : blen (db_page ps d p) = ps) by (unfold db_page, blen; rewrite length_map, length_seqZ; lia).
  apply bytes_ext; [rewrite L, blen_app, zeros_len by lia; lia|]. intros j Hj. rewrite blen_app, zeros_len in Hj by lia.
  rewrite bat_pad. assert (E : bat (db_page ps d p) j = bat d (off + j)).
  { unfold bat at 1, db_page. destruct (Z.leb_spec 0 j); [|lia]. rewrite list_lookup_fmap, lookup_seqZ_lt by lia. cbn. unfold off. do 2 f_equal. lia. }
  rewrite E. unfold seg, bat. destruct (Z.leb_spec 0 j), (Z.leb_spec 0 (off + j)); try lia.
  rewrite lookup_take_lt, lookup_drop by lia. do 2 f_equal. lia.
Qed.

(** The page read goes to the cache, and for page 1 its version to the pager. *)
Lemma wp_install p rc d s :
  bytes_ok (dbFileVers (pg s)) /\ blen (dbFileVers (pg s)) = 16 -> (rc = SQLITE_OK -> bytes_ok d /\ blen d = ps) ->
  wp (setc (alter (set_pData d) p) ;;*
      (if p =? 1 then
         if negb (rc =? SQLITE_OK) then setp (set_dbFileVers (replicate 16 0xff))
         else let* v := lift (bsub d 24 16) in setp (set_dbFileVers v)
       else ret tt) ;;*
      ret rc)
     (returns (fun rc' s' => rc' = rc /\ jf s' = jf s /\ df s' = df s /\ trail s' = trail s /\
        pc s' = alter (set_pData d) p (pc s) /\
        exists v, pg s' = set_dbFileVers v (pg s) /\ (rc = SQLITE_OK -> bytes_ok v /\ blen v = 16))) s.
Proof.
  intros G Hd. unfold setc, setp. wp_go. destruct (Z.eqb_spec p 1) as [->|Hne].
  - destruct (Z.eqb_spec rc SQLITE_OK) as [->|Hrc]; cbn [negb].
    + destruct (Hd eq_refl) as [K L]. destruct (bsub_in d 24 16) as [v Ev]; [lia|lia|lia|]. rewrite Ev. wp_go.
      split_and!; try done. exists v. split; [done|]. intros _. split; [by eapply bsub_ok|by apply bsub_len in Ev].
    + wp_go. split_and!; try done. by eexists.
  - wp_go. split_and!; try done. exists (dbFileVers (pg s)). split; [by destruct s as [[] ? ? ? ? ?]|]. intros _. apply G.
Qed.
Lemma wp_readDbPage p s s1 :
  wr_inv s -> pageSize (pg s1) = ps -> bytes_ok (dbFileVers (pg s1)) /\ blen (dbFileVers (pg s1)) = 16 -> df s1 = df s ->
  1 <= p < 2 ^ 32 -> p <> lck ps ->
  wp (readDbPage p) (returns (fun rc s' => same_files s1 s' /\ exists d v,
    pc s' = alter (set_pData d) p (pc s1) /\ pg s' = set_dbFileVers v (pg s1) /\
    (rc = SQLITE_OK -> addable false s p d /\ bytes_ok v /\ blen v = 16))) s1.
Proof.
  intros Hw Eps Hv Ed Hp Hl. destruct (wr_len s Hw) as [Hlen Hok]. unfold readDbPage, getp. wp_go. unfold id. rewrite Eps.
  assert (Hoff : 0 <= (p - 1) * ps) by nia. set (c1 := f_cur (df s)) in *.
  assert (Hrest : forall rc d, (rc = SQLITE_OK -> addable false s p d) ->
    wp (setc (alter (set_pData d) p) ;;*
      (if p =? 1 then
         if negb (rc =? SQLITE_OK) then setp (set_dbFileVers (replicate 16 0xff))
         else let* v := lift (bsub d 24 16) in setp (set_dbFileVers v)
       else ret tt) ;;*
      ret rc) (returns (fun rc s' => same_files s1 s' /\ exists d v,
      pc s' = alter (set_pData d) p (pc s1) /\ pg s' = set_dbFileVers v (pg s1) /\
      (rc = SQLITE_OK -> addable false s p d /\ bytes_ok v /\ blen v = 16))) (tick s1)).
  { intros rc d Hd. eapply okp_mono; [apply (wp_install p rc d (tick s1) Hv)|].
    - intros E. destruct (Hd E) as (_ & _ & A & B & _). done.
    - intros rc' s' (-> & E1 & E2 & E3 & E4 & v & E5 & Hv'). split; [done|]. exists d, v. split_and!; try done. intros E. split; [by apply Hd|by apply Hv']. }
  assert (Ec1 : f_cur (df s1) = c1) by (by rewrite Ed). pose proof (read_page c1 p ltac:(lia)) as Hr.
  apply (wp_os_read DF ps ((p - 1) * ps)); cbn [get_file]; rewrite ?Ec1.
  - intros k Hk. pose proof (du_short Hdu k) as Hs. revert Hk Hs. generalize (ioRc k). intros rc Hk Hs.
    cbn [after]. destruct (Z.eqb_spec rc SQLITE_IOERR_SHORT_READ); [done|]. by apply Hrest.
  - intros Hls. pose proof (seg_short c1 ((p - 1) * ps) ps Hoff ltac:(lia) Hls) as Hs. cbn [after]. change (SQLITE_IOERR_SHORT_READ =? SQLITE_IOERR_SHORT_READ) with true.
    cbv iota. apply Hrest. intros _. split_and!; try done; try lia.
    + apply Forall_app. split; [by apply seg_ok|apply zeros_ok].
    + rewrite blen_app, zeros_len by lia. lia.
    + intros Hpn. exfalso. nia.
  - intros Hl2. pose proof (seg_le c1 ((p - 1) * ps) ps ltac:(lia)) as Hl3. cbn [after]. change (SQLITE_OK =? SQLITE_IOERR_SHORT_READ) with false. cbv iota. apply Hrest. intros _. split_and!; try done; try lia.
    + by apply seg_ok.
    + intros _. fold c1. rewrite <- Hr. replace (ps - blen (seg c1 ((p - 1) * ps) ps)) with 0 by lia. by rewrite app_nil_r.
Qed.

Lemma wp_mark p s :
  wp (mark_no_content p) (returns (fun _ s' => same_files s s' /\ pc s' = pc s /\ exists b, pg s' = set_pInJournal b (pg s) /\
    (b = pInJournal (pg s) \/ p <= dbOrigSize (pg s) /\ exists l, pInJournal (pg s) = Some l /\ b = Some ({[p]} ∪ l)))) s.
Proof.
  assert (Hsame : forall s', same_files s s' -> pc s' = pc s -> pg s' = pg s -> same_files s s' /\ pc s' = pc s /\ exists b, pg s' = set_pInJournal b (pg s) /\
    (b = pInJournal (pg s) \/ p <= dbOrigSize (pg s) /\ exists l, pInJournal (pg s) = Some l /\ b = Some ({[p]} ∪ l))).
  { intros s' F C E. split; [done|]. split; [done|]. exists (pInJournal (pg s)). split; [|by left]. rewrite E. by destruct (pg s). }
  unfold mark_no_content, sqlite3BitvecSet_pInJournal, getp. wp_go.
  destruct (Z.leb_spec p (dbOrigSize (pg s))) as [Hle|Hgt]; [|wp_go; by apply Hsame]. wp_go.
  destruct (pInJournal (pg s)) as [l|] eqn:El; [|wp_go; by apply Hsame]. wp_go. apply wp_alloc. intros ok. cbn [after].
  destruct ok; cbn [negb]; unfold setp; wp_go; [|by apply Hsame].
  split; [done|]. split; [done|]. exists (Some ({[p]} ∪ l)). split; [done|]. right. split; [done|]. by exists l.
Qed.

(** The content of a page: read, or zeros. *)
Lemma wp_init_page p noContent s s1 :
  wr_inv s -> same_files s s1 -> pg s1 = set_nRefSum (nRefSum (pg s) + 1) (pg s) -> 1 <= p < 2 ^ 32 ->
  (noContent = true -> droppable p) ->
  wp (init_page p noContent) (returns (fun r s2 => same_files s s2 /\ exists v b,
    pg s2 = set_pInJournal b (set_nRefSum (nRefSum (pg s) + 1) (set_dbFileVers v (pg s))) /\
    (fst r = SQLITE_OK -> exists d, pc s2 = alter (set_pData d) p (pc s1) /\ addable noContent s p d /\
       bytes_ok v /\ blen v = 16 /\ marked (pInJournal (pg s)) b))) s1.
Proof.
  intros Hw (Fj & Fd & Ft) Ep Hp Hdrop. pose proof (wr_geom _ Hw) as G. destruct (g_vers _ _ _ G) as [V1 V2]. pose proof (g_size _ _ _ G) as Hsz.
  assert (Hsame : pg s1 = set_pInJournal (pInJournal (pg s)) (set_nRefSum (nRefSum (pg s) + 1) (set_dbFileVers (dbFileVers (pg s)) (pg s)))) by (rewrite Ep; by destruct (pg s)).
  unfold init_page, getp. wp_go. unfold id. unfold lckPgno. rewrite Ep. cbn [pageSize dbSize mxPgno set_nRefSum]. rewrite (g_ps _ _ _ G). fold (lck ps).
  destruct (Z.eqb_spec p (lck ps)) as [Hl|Hl]; [wp_go; split; [by split_and!|by do 2 eexists]|].
  destruct ((dbSize (pg s) <? p) || noContent) eqn:Ez.
  - destruct (Z.ltb_spec (mxPgno (pg s)) p) as [Hmx|Hmx]; [wp_go; split; [by split_and!|by do 2 eexists]|].
    assert (Ha : addable noContent s p (zeros ps)).
    { split_and!; try lia; [apply zeros_ok|by rewrite zeros_len by lia| |].
      - intros Hpn Hu. exfalso. apply orb_true_iff in Ez as [Ez%Z.ltb_lt| ->]; [lia|]. destruct (Hdrop eq_refl); [done|lia].
      - destruct noContent; [done|]. intros Hle. rewrite orb_false_r in Ez. apply Z.ltb_lt in Ez. lia. }
    apply wp_bind. eapply wp_mono with (P := returns (fun _ s' => same_files s1 s' /\ pc s' = pc s1 /\ exists b, pg s' = set_pInJournal b (pg s1) /\
      marked (pInJournal (pg s)) b)).
    { destruct noContent.
      - eapply okp_mono; [apply wp_mark|]. intros _ s' (F & C & b & Eb & Hb). rewrite Ep in Eb, Hb. cbn in Hb. split; [done|]. split; [done|]. exists b. split; [by rewrite Ep|].
        destruct Hb as [->|(Hle & l & El & ->)]; [by left|]. right. exists p, l. rewrite (g_orig _ _ _ G) in Hle.
        destruct (Hdrop eq_refl); [done|lia].
      - wp_go. split; [done|]. split; [done|]. exists (pInJournal (pg s)). split; [|by left]. rewrite Ep. by destruct (pg s). }
    intros [[]|rc|] s2; cbn [returns okp after]; [|done|done]. intros ((A & B & C) & D & b & Eb & Hb). unfold setc. wp_go.
    split; [split_and!; cbn; congruence|]. exists (dbFileVers (pg s)), b. cbn [pg pc set_pc]. split; [rewrite Eb, Ep; by destruct (pg s)|].
    intros _. exists (zeros ps). rewrite D. by split_and!.
  - apply orb_false_elim in Ez as [Ez ->]. apply Z.ltb_ge in Ez.
    eapply wp_seq; [apply (wp_readDbPage p s s1); try done; rewrite ?Ep; try done; by apply G|].
    cbn beta. intros rc s2 ((A & B & C) & d & v & Ec & Epg & Hd). wp_go. split; [split_and!; congruence|].
    exists v, (pInJournal (pg s)). split; [rewrite Epg, Ep; by destruct (pg s)|]. cbn [fst]. intros Hrc. exists d.
    destruct (Hd Hrc) as (D1 & D2 & D3). split_and!; try done. by left.
Qed.

Definition fresh_page (d : bytes) : PgHdr := mkPg d false false false false.
(** The page is in the cache now. *)
Lemma fetch_new p flags d s s' :
  wr_inv s -> touched s s' -> nRefSum (pg s') = nRefSum (pg s) + 1 -> pc s !! p = None -> addable (no_content flags) s p d ->
  pc s' = <[p := fresh_page d]> (pc s) -> fetched p flags s s'.
Proof.
  intros Hw T Er Hnone (A1 & A2 & A3 & A4 & A5 & A6) Ec.
  assert (C : forall rs0 rs1, dimg ps n orig rs0 (f_cur (df s)) -> cache_ok (known (rs0 ++ rs1)) (known rs0) (pc s) ->
    cache_ok (known (rs0 ++ rs1)) (known rs0) (pc s')).
  { intros rs0 rs1 (_ & _ & D) C. rewrite Ec. apply map_Forall_insert_2; [|done]. split; cbn; try done. intros Hp Hni.
    rewrite A5; [|done|intros Hu; apply Hni, elem_known; by right]. apply D; [lia|]. intros Hk. apply Hni. by apply known_app. }
  assert (R : recached (pc s) (pc s')) by (rewrite Ec; by apply recached_insert).
  split; [by eapply wr_inv_change|by apply wr_change| |done|done|].
  - rewrite Ec, lookup_insert_eq. by eexists.
  - intros q d' Hor H. destruct (to_files _ _ T) as (_ & Fd & _). destruct (to_pg _ _ T) as (k & v & b & _ & _ & _ & _ & Ep).
    assert (Es : dbSize (pg s') = dbSize (pg s)) by (by rewrite Ep).
    destruct (decide (q = p)) as [->|Hne].
    + destruct Hor as [Hno|]; [|done]. rewrite Hno in A6. destruct (hl_range _ _ _ H) as [H1 H2]. pose proof (hl_file _ _ _ H Hnone) as Hf.
      assert (Hf' : in_file s' p d') by (unfold in_file; by rewrite Fd). apply holds_both; [by rewrite Es|done|done|].
      intros g Hg. rewrite Ec, lookup_insert_eq in Hg. injection Hg as <-. split; [|done]. cbn. rewrite A6 by (done || lia). exact Hf.
    + apply (holds_stays s); [done|lia|by rewrite Ec, lookup_insert_ne|by rewrite Fd].
Qed.
Lemma fetch_zero p flags g s s' :
  wr_inv s -> touched s s' -> nRefSum (pg s') = nRefSum (pg s) + 1 -> pc s !! p = Some g -> droppable p -> no_content flags = true ->
  pc s' = alter (set_pData (zeros ps)) p (pc s) -> fetched p flags s s'.
Proof.
  intros Hw T Er Hg Hdrop Hno Ec.
  assert (C : forall rs0 rs1, dimg ps n orig rs0 (f_cur (df s)) -> cache_ok (known (rs0 ++ rs1)) (known rs0) (pc s) ->
    cache_ok (known (rs0 ++ rs1)) (known rs0) (pc s')).
  { intros rs0 rs1 _ C. rewrite Ec. eapply cache_alter; [exact C|done|done|exact Hg|]. pose proof (C _ _ Hg) as [A1 A2 A3 A4 A5 A6 A7 A8 A9].
    split; cbn; try done; [split; [apply zeros_ok|by rewrite zeros_len by lia]|]. intros Hp Hni. exfalso. apply Hni, elem_known. destruct Hdrop; [by right|lia]. }
  assert (R : recached (pc s) (pc s')) by (rewrite Ec; by apply recached_alter).
  split; [by eapply wr_inv_change|by apply wr_change| |done|done|].
  - rewrite Ec, lookup_alter_eq, Hg. by eexists.
  - intros q d' [Hcon|Hne] HH; [congruence|]. destruct (to_files _ _ T) as (_ & Fd & _). destruct (to_pg _ _ T) as (k & v & b & _ & _ & _ & _ & Ep).
    apply (holds_stays s); [done|by rewrite Ep|by rewrite Ec, lookup_alter_ne|by rewrite Fd].
Qed.
Lemma fetch_hit p flags g s s' :
  wr_inv s -> touched s s' -> nRefSum (pg s') = nRefSum (pg s) + 1 -> pc s !! p = Some g -> pc s' = pc s -> fetched p flags s s'.
Proof.
  intros Hw T Er Hg Ec. assert (C : forall rs0 rs1, dimg ps n orig rs0 (f_cur (df s)) -> cache_ok (known (rs0 ++ rs1)) (known rs0) (pc s) ->
    cache_ok (known (rs0 ++ rs1)) (known rs0) (pc s')) by (intros rs0 rs1 _ C; by rewrite Ec).
  assert (R : recached (pc s) (pc s')) by (rewrite Ec; apply recached_refl).
  split; [by eapply wr_inv_change|by apply wr_change|by rewrite Ec, Hg|done|done|].
  intros q d' _ H. destruct (to_files _ _ T) as (_ & Fd & _). destruct (to_pg _ _ T) as (k & v & b & _ & _ & _ & _ & Ep).
  apply (holds_stays s); [done|by rewrite Ep|by rewrite Ec|by rewrite Fd].
Qed.
Lemma get_fails rc (b : bool) (P : pst -> Prop) p s k :
  trail_safe s -> nRefSum (pg s) = k + 1 -> 0 < k -> rc <> SQLITE_OK ->
  wp ((if b then setc (delete p) else ret tt) ;;* setp (fun p => set_nRefSum (nRefSum p - 1) p) ;;* pagerUnlockIfUnused ;;* ret rc) (ends P) s.
Proof.
  intros T E Hk Hrc. unfold setc, setp, pagerUnlockIfUnused, getp.
  destruct b; wp_go; cbn [pg set_pg set_pc nRefSum set_nRefSum]; rewrite E; (destruct (Z.eqb_spec (k + 1 - 1) 0); [lia|]); wp_go; (split; [done|by intros]).
Qed.

Lemma wp_getPageNormal junk p flags s :
  wr_inv s -> 0 <= p < 2 ^ 32 -> (no_content flags = true -> droppable p) ->
  wp (getPageNormal junk p flags) (ends (fetched p flags s)) s.
Proof.
  intros Hw Hp Hdrop. pose proof (wr_geom _ Hw) as G. pose proof (wr_trail _ _ _ _ Hw) as T. pose proof (g_ref _ _ _ G) as Hr.
  unfold getPageNormal, getp, setp, setc. destruct (Z.eqb_spec p 0) as [->|Hp0]; [wp_go; by split|]. wp_go.
  fold (no_content flags).
  assert (Hrest : forall c1 s1, same_files s s1 -> pg s1 = set_nRefSum (nRefSum (pg s) + 1) (pg s) -> pc s1 = c1 ->
    (forall d s2, touched s s2 -> nRefSum (pg s2) = nRefSum (pg s) + 1 -> pc s2 = alter (set_pData d) p c1 ->
       addable (no_content flags) s p d -> fetched p flags s s2) ->
    wp (let* r := init_page p (no_content flags) in
        let '(rc, dropped) := r in
        if negb (rc =? SQLITE_OK) then
          (if dropped : bool then setc (delete p) else ret tt) ;;*
          setp (fun p => set_nRefSum (nRefSum p - 1) p) ;;*
          pagerUnlockIfUnused ;;*
          ret rc
        else ret SQLITE_OK) (ends (fetched p flags s)) s1).
  { intros c1 s1 F1 E1 Ec1 Hf. eapply wp_seq; [apply (wp_init_page p (no_content flags) s s1 Hw F1 E1); [lia|done]|].
    intros [rc dropped] s2 (F2 & v & b & E2 & Hok). cbn [fst] in Hok. assert (T2 : trail_safe s2) by (unfold JrnlSteps.trail_safe; destruct F2 as (_ & _ & ->); done).
    destruct (Z.eqb_spec rc SQLITE_OK) as [->|Hrc]; cbn [negb].
    - wp_go. split; [done|]. intros _. destruct (Hok eq_refl) as (d & Ec2 & Ha & V1 & V2 & Hb).
      apply (Hf d s2); [|by rewrite E2|by rewrite Ec2, Ec1|done]. split; [done|]. exists (nRefSum (pg s) + 1), v, b. split_and!; try done. lia.
    - eapply (get_fails rc dropped _ p s2 (nRefSum (pg s))); [done|by rewrite E2|done|done]. }
  destruct (pc s !! p) as [g|] eqn:Hg.
  - rewrite bool_decide_true by by eexists. wp_go. cbn [negb andb]. wp_go. destruct (g_vers _ _ _ G) as [V1 V2].
    assert (Et : forall s2, same_files s s2 -> pg s2 = set_nRefSum (nRefSum (pg s) + 1) (pg s) -> touched s s2).
    { intros s2 F E. split; [done|]. exists (nRefSum (pg s) + 1), (dbFileVers (pg s)), (pInJournal (pg s)). split_and!; try done; [lia|by left]. }
    destruct (no_content flags) eqn:Hno; cbn [negb].
    + eapply Hrest; [done|done|done|]. intros d s2 T2 Er Ec Ha. destruct Ha as (_ & _ & _ & _ & _ & ->). by eapply fetch_zero; [| | | |apply Hdrop| |].
    + wp_go. split; [done|]. intros _. by eapply fetch_hit; [|apply Et| | |].
  - rewrite bool_decide_false by (intros [g Hg']; congruence). wp_go. apply wp_alloc. intros ok. cbn [after]. destruct ok; cbn [negb].
    2:{ unfold pagerUnlockIfUnused, getp. wp_go. cbn [pg tick]. destruct (Z.eqb_spec (nRefSum (pg s)) 0); [lia|].
        wp_go. by split. }
    wp_go. cbn [andb]. eapply Hrest; [done|done|done|]. intros d s2 T2 Er Ec Ha. eapply fetch_new; [done|done|done|done|exact Ha|].
    rewrite Ec. cbn. by rewrite alter_insert_eq.
Qed.
Lemma wp_PagerGet junk p flags s :
  wr_inv s -> 0 <= p < 2 ^ 32 -> (no_content flags = true -> droppable p) ->
  wp (sqlite3PagerGet junk p flags) (ends (fetched p flags s)) s.
Proof.
  intros Hw Hp Hd. unfold sqlite3PagerGet, getp. wp_go. rewrite (g_err _ _ _ (wr_geom _ Hw)).
  change (SQLITE_OK =? SQLITE_OK) with true. cbn [negb]. by apply wp_getPageNormal.
Qed.
End Cache.
