(* ===== verification/JrnlCommit.v ===== *)
(** * Spilling pages, and the first phase of a commit

    [pagerStress] and [sqlite3PagerCommitPhaseOne] keep the invariant of a
    transaction; after the first phase of a commit the synced database has the
    content of every page ([finished]), dirty, spilled or clean. *)
From stdpp Require Import gmap sorting.
From S2P Require Import Prelude Bits Bytes Varint Wal WalIndex WalRecover WalRecovery WalWrite WalFile WalTx WalSteps Jrnl JrnlFile JrnlSteps JrnlSync JrnlWrite JrnlCache.

Section Spill.
Context `{W : World} (ps n : Z) (orig : old_db).
Abbreviation Sz := sector.
Abbreviation PG := (ps + 8).
Hypothesis (Hset : setting ps n).
Let HS : 32 <= Sz := proj1 (se_sector _ _ Hset).
Let HSps : Sz <= ps := proj2 (se_sector _ _ Hset).
Let Hps : 512 <= ps <= SQLITE_MAX_PAGE_SIZE := se_page _ _ Hset.
Let Hn : 0 <= n < 0xffffffff := se_orig _ _ Hset.
Let Hdu : durable := se_durable _ _ Hset.
Abbreviation file_inv := (file_inv ps n orig).
Abbreviation ends := (ends ps n orig).
Abbreviation trail_safe := (trail_safe ps n orig).
Abbreviation geom := (geom ps n).
Abbreviation jstate := (jstate ps n orig).
Abbreviation cache_ok := (cache_ok ps n orig).
Abbreviation parts := (parts ps n orig).
Abbreviation wr_inv := (wr_inv ps n orig).
Abbreviation writing := (writing ps n orig).
Abbreviation listed := (listed ps).
Abbreviation known := (known orig).
Abbreviation holds := (holds ps).
Abbreviation kept := (kept ps).
Abbreviation in_file := (in_file ps).

(** *** Cleared flags *)

Definition clear_sync (g : PgHdr) : PgHdr := if dirty g then set_needSync false g else g.
Lemma lookup_cleared (c : pcache) p : sqlite3PcacheClearSyncFlags c !! p = clear_sync <$> c !! p.
Proof. apply lookup_fmap. Qed.
Lemma cleared_ok J Sy p g : page_ok ps n orig J Sy p g -> page_ok ps n orig J J p (clear_sync g) /\ needSync (clear_sync g) = false.
Proof.
  intros [A B C D E F G H I]. unfold clear_sync. destruct (dirty g) eqn:Ed; cbn.
  - split; [|done]. split; cbn; try done; auto.
  - assert (Es : needSync g = false). { destruct (needSync g); [|done]. by specialize (G eq_refl). }
    split; [|done].
    split; try done; intros; try congruence. by rewrite Ed, I.
Qed.
Lemma cleared_cache J Sy c : cache_ok J Sy c -> cache_ok J J (sqlite3PcacheClearSyncFlags c).
Proof.
  intros Hc p g Hg. rewrite lookup_cleared in Hg. apply fmap_Some in Hg as (g0 & Hg0 & ->). eapply cleared_ok. by apply Hc.
Qed.
Lemma cleared_dirty g : dirty (clear_sync g) = dirty g /\ pData (clear_sync g) = pData g.
Proof. unfold clear_sync. by destruct (dirty g) eqn:E. Qed.
Lemma cleared_hint p c : hint_ok p c -> hint_ok p (sqlite3PcacheClearSyncFlags c).
Proof.
  intros Hh Hlt. destruct (Hh Hlt) as (g & Hg & Hd). exists (clear_sync g). rewrite lookup_cleared, Hg. split; [done|].
  by rewrite (proj1 (cleared_dirty g)).
Qed.

Lemma kept_cleared s s' :
  pc s' = sqlite3PcacheClearSyncFlags (pc s) -> df s' = df s -> dbSize (pg s') = dbSize (pg s) -> kept s s'.
Proof.
  intros Ec Ed Es q d [A B C]. unfold JrnlCache.in_file in *.
  split; unfold JrnlCache.in_file; rewrite ?Es, ?Ed, ?Ec, ?lookup_cleared; [done| |].
  - intros g (g0 & Hg0 & ->)%fmap_Some. destruct (B g0 Hg0) as [B1 B2]. destruct (cleared_dirty g0) as [-> ->]. split; [done|].
    unfold clear_sync. destruct (dirty g0); done.
  - intros Hno. apply C. by destruct (pc s !! q).
Qed.

(** [pagerStress] brings the page to this state, syncing the journal if need be. *)
Definition spillable (p : Z) (s0 s : pst) : Prop :=
  kept s0 s /\
  exists H ck rs0 rs1, parts H rs0 rs1 s /\ jstate H ck rs0 rs1 (pg s) (jf s) /\ eState (pg s) = PAGER_WRITER_DBMOD /\
    exists g, pc s !! p = Some g /\ dirty g = true /\ needSync g = false.

Lemma synced_parts H ck0 rs0 rs1 s s' :
  parts H rs0 rs1 s -> jstate H ck0 rs0 rs1 (pg s) (jf s) -> synced_tx ps n orig true rs0 rs1 H s s' ->
  exists N ck, parts N (rs0 ++ rs1) [] s' /\ jstate N ck (rs0 ++ rs1) [] (pg s') (jf s') /\ eState (pg s') = PAGER_WRITER_DBMOD.
Proof.
  intros [P1 P2 P3 P4 P5 P6] J (I & G & Es & Ec & Ed & E1 & E2 & E3 & E4 & E5 & Hj & _). destruct (Hj eq_refl) as [ck Jc].
  do 2 eexists. split; [|by split]. split; [exact I|done| | | |by rewrite E3, Ed].
  - rewrite app_nil_r, Ec. by eapply cleared_cache.
  - intros p Hp. by apply elem_of_empty in Hp.
  - rewrite Ec. unfold hint_ok. rewrite E1, E2. by apply cleared_hint.
Qed.

Lemma wp_make_spillable p g s :
  writing s -> pc s !! p = Some g -> dirty g = true ->
  wp (if needSync g || (eState (pg s) =? PAGER_WRITER_CACHEMOD) then syncJournal true else ret SQLITE_OK) (ends (spillable p s)) s.
Proof.
  intros (H & ck & rs0 & rs1 & P & J & Hst) Hg Hd. destruct (needSync g || _) eqn:E.
  - eapply ends_mono; [apply (wp_syncJournal ps n orig Hset true H ck rs0 rs1 s (pt_file _ _ _ _ _ _ _ P) (pt_geom _ _ _ _ _ _ _ P) J)|].
    intros s' Hs. destruct (synced_parts _ _ _ _ _ _ P J Hs) as (N & ck' & P' & J' & Es). destruct Hs as (_ & _ & _ & Ec & Ed & Ez & _).
    split; [by apply kept_cleared|]. exists N, ck', (rs0 ++ rs1), []. split_and!; try done. exists (clear_sync g). rewrite Ec, lookup_cleared, Hg.
    split_and!; [done|by rewrite (proj1 (cleared_dirty g))|]. unfold clear_sync. by rewrite Hd.
  - apply orb_false_elim in E as [E1 E2]. apply Z.eqb_neq in E2. apply ends_ret; [apply P|]. intros _. split; [by intros q d|]. exists H, ck, rs0, rs1.
    destruct Hst as [|Hst]; [done|]. split_and!; try done. by exists g.
Qed.

Lemma listed_jstate H ck rs0 rs1 l s s1 s' h :
  jstate H ck rs0 rs1 (pg s) (jf s) -> pg s1 = set_dbHintSize h (pg s) -> jf s1 = jf s -> listed l s1 s' ->
  jstate H ck rs0 rs1 (pg s') (jf s').
Proof.
  intros J E1 E2 [L1 (v & z & L2 & _) _ _ _ _]. rewrite L1, E2, L2, E1. by destruct J.
Qed.
(** Other pages, and flags, are as before. *)
Lemma listed_lookup l s s' q g :
  listed l s s' -> pc s !! q = Some g -> exists g', pc s' !! q = Some g' /\ dirty g' = dirty g /\ needSync g' = needSync g /\
    (q <> 1 -> g' = g).
Proof.
  intros [_ _ [->|(_ & g1 & d & Hg1 & _ & ->)] _ _ _] Hg; [by exists g|]. destruct (decide (q = 1)) as [->|Hne].
  - exists (set_pData d g). rewrite lookup_alter_eq, Hg. split_and!; done.
  - exists g. by rewrite lookup_alter_ne by congruence.
Qed.

(** What is written is in the file. *)
Lemma listed_holds l s s1 s' h J Sy q d :
  listed l s1 s' -> pg s1 = set_dbHintSize h (pg s) -> pc s1 = pc s ->
  (forall q, 1 <= q -> db_page ps (f_cur (df s1)) q = db_page ps (f_cur (df s)) q) -> cache_ok J Sy (pc s) ->
  (forall p, p ∈ l -> exists g, pc s !! p = Some g /\ dirty g = true) ->
  holds s q d -> holds s' q d /\ (q ∈ l -> in_file s' q d).
Proof.
  intros L E1 E2 E3 C Hl H. destruct (hl_range _ _ _ _ H) as [H1 H2]. destruct (li_pg _ _ _ _ L) as (v & z & Ep & _).
  assert (Es : dbSize (pg s') = dbSize (pg s)) by (by rewrite Ep, E1).
  assert (Hc : forall g', pc s' !! q = Some g' -> exists g, pc s !! q = Some g /\ dirty g' = dirty g /\ dontWrite g' = dontWrite g /\ agrees q (pData g) (pData g')).
  { intros g' Hg'. destruct (li_pc _ _ _ _ L) as [E|(_ & g1 & d1 & Hg1 & Hc1 & E)]; rewrite E, E2 in Hg'.
    - exists g'. split_and!; try done. apply agrees_refl, (po_data _ _ _ _ _ _ _ (C _ _ Hg')).
    - destruct (decide (q = 1)) as [->|Hne].
      + rewrite E2 in Hg1. rewrite lookup_alter_eq, Hg1 in Hg'. injection Hg' as <-. by exists g1.
      + rewrite lookup_alter_ne in Hg' by done. exists g'. split_and!; try done. apply agrees_refl, (po_data _ _ _ _ _ _ _ (C _ _ Hg')). }
  destruct (decide (q ∈ l)) as [Hin|Hni].
  - destruct (Hl q Hin) as (g0 & Hg0 & Hd0). destruct (hl_cached _ _ _ _ H g0 Hg0) as [A0 W0]. rewrite Hd0 in W0.
    destruct (li_page _ _ _ _ L q g0 Hin) as (g1 & Hg1 & Eg1); [rewrite E1; cbn; lia|by rewrite E2|done|].
    destruct (Hc g1 Hg1) as (g & Hg & D1 & D2 & Hag). assert (g = g0) as -> by congruence.
    assert (Ha : agrees q d (pData g1)) by by eapply agrees_trans. assert (Hf : in_file s' q d) by (unfold JrnlCache.in_file; by rewrite Eg1).
    split; [|done]. apply holds_both; [lia|done|done|]. intros g' Hg'. assert (g' = g1) as -> by congruence. split; [done|congruence].
  - split; [|done]. assert (Ef : db_page ps (f_cur (df s')) q = db_page ps (f_cur (df s)) q) by (rewrite (li_other _ _ _ _ L), E3 by (done || lia); done).
    split; [lia| |].
    + intros g' Hg'. destruct (Hc g' Hg') as (g & Hg & D1 & D2 & Hag). destruct (hl_cached _ _ _ _ H g Hg) as [A B].
      split; [by eapply agrees_trans|]. rewrite D1, D2. unfold JrnlCache.in_file in *. by rewrite Ef.
    + intros Hno. unfold JrnlCache.in_file. rewrite Ef. apply (hl_file _ _ _ _ H).
      destruct (pc s !! q) as [g|] eqn:Hg; [|done]. rewrite <- E2 in Hg. destruct (listed_lookup _ _ _ _ _ L Hg) as (g' & Hg' & _). congruence.
Qed.

Lemma error_ok s : wp (pager_error SQLITE_OK) (returns (fun rc s' => rc = SQLITE_OK /\ s' = s)) s.
Proof. done. Qed.
Lemma wp_error (P : pst -> Prop) rc s : trail_safe s -> (rc = SQLITE_OK -> P s) -> wp (pager_error rc) (ends P) s.
Proof.
  intros T Hp. unfold pager_error, setp. case_if; wp_go.
  - split; [done|]. intros ->. done.
  - split; [done|]. intros ->. by apply Hp.
Qed.

Lemma wp_pagerStress p g s :
  writing s -> pc s !! p = Some g -> dirty g = true -> wp (pagerStress p) (ends (fun s' => writing s' /\ kept s s')) s.
Proof.
  intros Hw Hg Hd. assert (G : geom (pg s)) by (destruct Hw as (? & ? & ? & ? & P & _); apply P).
  unfold pagerStress, getp, page. wp_go. unfold id. rewrite (g_err _ _ _ G). change (SQLITE_OK =? SQLITE_OK) with true. cbn [negb].
  wp_go. rewrite Hg. wp_go.
  eapply wp_mono; [by eapply wp_make_spillable|]. intros [rc|rc|] s1; cbn [okp returns after JrnlSteps.ends]; [|done|done].
  intros [T1 P1]. destruct (Z.eqb_spec rc SQLITE_OK) as [->|Hrc].
  2:{ wp_go. destruct (Z.eqb_spec rc SQLITE_OK) as [|_]; [done|]. wp_go. by apply wp_error. }
  destruct (P1 eq_refl) as (Hk1 & H & ck & rs0 & rs1 & [I1 G1 C1 U1 H1 F1] & J1 & Es & g1 & Hg1 & Hd1 & Hs1).
  wp_go. eapply wp_mono; [apply (wp_pagelist ps n orig Hset _ _ _ [p] s1 I1 G1 C1)|].
  { apply NoDup_singleton. }
  { intros q ->%list_elem_of_singleton. by exists g1. }
  { done. }
  intros [rc|rc|] s2; cbn [okp returns after JrnlSteps.ends]; [|done|done]. intros [T2 P2].
  destruct (Z.eqb_spec rc SQLITE_OK) as [->|Hrc].
  2:{ wp_go. by apply wp_error. }
  unfold setc. wp_go. destruct (P2 eq_refl) as (I2 & C2 & h & s1' & L & E1 & E2 & E3 & E4 & E5 & E6).
  apply wp_error; [done|]. intros _. split.
  2:{ intros q d Hq%Hk1. destruct (listed_holds _ _ _ _ _ _ _ q d L E1 E2 E5 C1) as [A B]; [|done|].
      { intros q' ->%list_elem_of_singleton. by exists g1. }
      destruct (decide (q = p)) as [->|Hne].
      - destruct (hl_range _ _ _ _ A) as [A1 A2]. apply holds_both; cbn [pg pc df set_pc]; [done|done|apply B; by apply list_elem_of_singleton|].
        intros g' Hg'. unfold sqlite3PcacheMakeClean in Hg'. rewrite lookup_alter_eq in Hg'. apply fmap_Some in Hg' as (g2 & Hg2 & ->).
        split; [|done]. apply (hl_cached _ _ _ _ A _ Hg2).
      - by apply (holds_alter ps s2 p). }
  exists H, ck, rs0, rs1. split_and!.
  - split; cbn [pg pc jf df set_pc].
    + by eapply file_inv_eq.
    + eapply listed_geom; [exact L|]. rewrite E1. by destruct G1.
    + rewrite <- E2 in Hg1. destruct (listed_lookup _ _ _ _ _ L Hg1) as (g2 & Hg2 & Ed2 & Es2 & _).
      eapply cache_alter; [exact C2|done|done|exact Hg2|]. destruct (C2 _ _ Hg2) as [A B C D E F K M N]. by split.
    + intros q Hq. destruct (U1 q Hq) as (gq & Hgq & Hsq). rewrite <- E2 in Hgq.
      destruct (listed_lookup _ _ _ _ _ L Hgq) as (g2 & Hg2 & Ed2 & Es2 & _). exists g2.
      unfold sqlite3PcacheMakeClean. rewrite lookup_alter_ne; [split; congruence|]. intros ->. rewrite E2 in Hgq. congruence.
    + destruct (li_pg _ _ _ _ L) as (v & z & Ep & _). unfold hint_ok. rewrite Ep, E1. cbn. intros Hlt.
      destruct E6 as [->|[-> E6]]; [lia|]. destruct (E6 Hlt) as (p' & [= <-] & Hle).
      destruct (H1 Hlt) as (gd & Hgd & Hdd). rewrite <- E2 in Hgd. destruct (listed_lookup _ _ _ _ _ L Hgd) as (g2 & Hg2 & Ed2 & _).
      exists g2. unfold sqlite3PcacheMakeClean. rewrite lookup_alter_ne; [split; congruence|]. lia.
    + destruct (li_pg _ _ _ _ L) as (v & z & Ep & _ & _ & _ & Hz). rewrite Ep. apply Hz. rewrite E1. cbn. lia.
  - exact (listed_jstate _ _ _ _ _ _ _ _ _ J1 E1 E3 L).
  - right. destruct (li_pg _ _ _ _ L) as (v & z & Ep & _). cbn. by rewrite Ep, E1.
Qed.


(** *** The change counter *)

(** The change counter was updated, or had been. *)
Record counter_done (s s' : pst) : Prop := {
  cd_writing : writing s';
  cd_jf : df s' = df s;
  cd_size : dbSize (pg s') = dbSize (pg s);
  cd_kept : kept s s';
}.
Lemma wp_incr_counter junk s :
  writing s -> wp (pager_incr_changecounter junk) (ends (counter_done s)) s.
Proof.
  intros Hw. assert (G : geom (pg s)) by (eapply wr_geom; by right). assert (T : trail_safe s) by (by apply (wr_trail ps n orig); right).
  unfold pager_incr_changecounter, getp, setp. wp_go. unfold id.
  pose proof (g_ref _ _ _ G) as Hrefs.
  destruct (negb (changeCountDone (pg s)) && (0 <? dbSize (pg s))) eqn:E.
  2:{ wp_go. split; [done|]. intros _. split; try done. by intros q d. }
  apply andb_prop in E as [E1 E2]. apply Z.ltb_lt in E2. wp_go.
  eapply wp_mono; [apply (wp_PagerGet ps n orig Hset junk 1 0 s); [by right|lia|done]|].
  intros [rc|rc|] s1; cbn [okp returns after JrnlSteps.ends]; [|done|done]. intros [T1 P1].
  destruct (Z.eqb_spec rc SQLITE_OK) as [->|Hrc]; [|wp_go; by split].
  destruct (P1 eq_refl) as [Hw1 _ [g1 Hg1] [(_ & Ed1 & _) (k1 & v1 & b1 & _ & _ & _ & _ & Ep1)] Er1 H1]. wp_go.
  eapply wp_mono; [by apply (wp_PagerWrite ps n orig Hset 1 s1 g1)|].
  intros [rc|rc|] s2; cbn [okp returns after JrnlSteps.ends]; [|done|done]. intros [T2 P2].
  destruct (Z.eqb_spec rc SQLITE_OK) as [->|Hrc]; [|unfold sqlite3PagerUnref, setp; wp_go; by split].
  pose proof (P2 eq_refl) as W2. destruct W2 as (Hw2 & (g1' & g2 & Hg1' & Hg2 & Ed2 & Hwr & Hd2 & Hdw2) & Hother & Edf & Esz & Efs & Ecc & Enr & Ever). wp_go.
  destruct (wr_cache ps n orig s2 (or_intror Hw2)) as (J & Sy & C2).
  assert (G2 : geom (pg s2)) by (eapply wr_geom; by right).
  destruct (po_data _ _ _ _ _ _ _ (C2 _ _ Hg2)) as [K2 L2].
  eapply wp_mono; [apply (wp_counter s2 g2 Hg2 K2); [lia|by apply G2..]|].
  intros [[]|rc|] s3; cbn [okp returns after]; [|done|done]. intros (d & Hc & ->). pose proof Hc as (Kd & Ld & _).
  unfold sqlite3PagerUnref, setp. wp_go. split; [done|]. intros _.
  assert (Hw3 : writing (set_pc (alter (set_pData d) 1 (pc s2)) s2)).
  { apply (edit_ok ps n orig s2 1 g2 d G2 Hg2 Hwr Kd); [lia|done]. }
  assert (Es2 : dbSize (pg s2) = dbSize (pg s)) by (rewrite Esz, Ep1; cbn; lia).
  split; cbn [pg pc jf df set_pc set_pg dbSize dbFileSize set_nRefSum set_changeCountDone changeCountDone].
  - destruct Hw3 as (H & ck & rs0 & rs1 & [I3 G3 C3 U3 H3 F3] & J3 & E3). exists H, ck, rs0, rs1. split_and!; [|by destruct J3|done].
    split; try done; [by eapply file_inv_eq|]. destruct G3. split; cbn in *; try done. rewrite Enr, Er1. lia.
  - congruence.
  - done.
  - intros q d' Hq. pose proof (holds_written ps n orig 1 s1 s2 q d' (P2 eq_refl) (H1 q d' (or_introl eq_refl) Hq)) as H2.
    destruct (decide (q = 1)) as [->|Hne].
    + destruct (hl_range _ _ _ _ H2) as [R1 R2]. eapply (holds_dirty ps _ 1 d' (set_pData d g2)); cbn [pg pc set_pc set_pg]; [exact R1|done| |done|done|].
      * by rewrite lookup_alter_eq, Hg2.
      * eapply agrees_trans; [apply (hl_cached _ _ _ _ H2 _ Hg2)|]. exact Hc.
    + apply (holds_stays ps s2); cbn [pg pc df set_pc set_pg]; [done|done|by rewrite lookup_alter_ne|done].
Qed.

(** *** The list of dirty pages *)

Lemma elem_dirty_list (c : pcache) p : p ∈ sqlite3PcacheDirtyList c <-> exists g, c !! p = Some g /\ dirty g = true.
Proof.
  unfold sqlite3PcacheDirtyList. rewrite merge_sort_Permutation, elem_of_elements, elem_of_dom. split.
  - intros [g Hg]. apply map_lookup_filter_Some in Hg as [Hg Hd]. by exists g.
  - intros (g & Hg & Hd). exists g. by apply map_lookup_filter_Some.
Qed.
Lemma nodup_dirty_list (c : pcache) : NoDup (sqlite3PcacheDirtyList c).
Proof. unfold sqlite3PcacheDirtyList. rewrite merge_sort_Permutation. apply NoDup_elements. Qed.


(** *** The first phase of a commit *)

(** The file is extended to the size of the database; no page changes. *)
Lemma wp_grow rs0 H m s :
  file_inv rs0 H s -> pageSize (pg s) = ps -> n <= m < 2 ^ 32 -> eState (pg s) = PAGER_WRITER_DBMOD ->
  wp (pager_truncate m) (ends (fun s' => file_inv rs0 H s' /\ pc s' = pc s /\ jf s' = jf s /\
    (pg s' = pg s /\ df s' = df s \/ pg s' = set_dbFileSize m (pg s)) /\
    forall q, 1 <= q <= m -> db_page ps (f_cur (df s')) q = db_page ps (f_cur (df s)) q)) s.
Proof.
  intros I Ep Hm Es. pose proof (fi_trail _ _ _ _ _ _ I) as T. unfold pager_truncate, getp, setp. wp_go. unfold id.
  rewrite Es. change (PAGER_WRITER_DBMOD <=? PAGER_WRITER_DBMOD) with true. cbn [orb]. rewrite Ep.
  apply wp_bind, wp_os_size. intros rc. cbn [after get_file]. set (cur := blen (f_cur (df s))).
  assert (I1 : file_inv rs0 H (tick s)) by (by eapply file_inv_eq).
  destruct ((rc =? SQLITE_OK) && negb (cur =? ps * m)) eqn:E.
  2:{ wp_go. split; [done|]. intros _. split_and!; try done. by left. }
  apply andb_prop in E as [E1 E2]. apply Z.eqb_eq in E1 as ->. apply negb_true_iff, Z.eqb_neq in E2.
  set (Q := fun s' => file_inv rs0 H s' /\ pc s' = pc s /\ jf s' = jf s /\ pg s' = pg s /\
    forall q, 1 <= q <= m -> db_page ps (f_cur (df s')) q = db_page ps (f_cur (df s)) q).
  assert (Hlen : n * ps <= cur) by apply (always_cur _ _ _ (fi_d _ _ _ _ _ _ I)).
  wp_go. eapply (wp_mono _ (ends Q)).
  - destruct (Z.ltb_spec (ps * m) cur) as [Hlt|Hge]; [|destruct (Z.leb_spec (cur + ps) (ps * m)) as [Hle|Hgt]].
    + eapply ends_mono; [apply (wp_trunc_d ps n orig HS ltac:(lia) ltac:(lia) rs0 H (ps * m) _ I1); nia|].
      intros s2 (I2 & [M1 M2] & Ej & Ed). split_and!; try done. intros q Hq. rewrite Ed. apply db_page_ext. intros j Hj. apply bat_trunc. nia.
    + eapply wp_seq; [apply (wp_hint_d ps n orig HS ltac:(lia) ltac:(lia) rs0 H _ I1)|].
      intros [] s2 (I2 & [M1 M2] & Ej & k & Hk & Ed). cbn [pg pc jf df tick] in M1, M2, Ej, Hk, Ed. fold cur in Hk.
      eapply ends_mono; [apply (wp_write_d ps n orig HS ltac:(lia) ltac:(lia) rs0 H (zeros ps) (ps * m - ps) s2 I2)|].
      { split_and!; [apply zeros_ok|nia|]. intros q Hq _. right. nia. }
      intros s3 (I3 & [M3 M4] & Ej3 & Ed3). split_and!; [done|congruence|congruence|congruence|]. intros q Hq. rewrite Ed3, Ed.
      apply db_page_ext. intros j Hj. rewrite log_write_at by nia. case_if.
      * rewrite zeros_at. symmetry. apply bat_outside. fold cur. lia.
      * apply bat_grow; [done|nia].
    + apply wp_ret. split; [done|]. intros _. by split_and!.
  - intros [rc|rc|] s2; cbn [okp returns after JrnlSteps.ends]; [|done|done]. intros [T2 P].
    destruct (Z.eqb_spec rc SQLITE_OK) as [->|Hrc]; wp_go; (split; [done|]); [|by intros]. intros _.
    destruct (P eq_refl) as (I2 & A & B & C & D). cbn [pg pc jf df set_pg]. split_and!; try done; [by eapply file_inv_eq|right; by rewrite C].
Qed.

(** The database on the disk has every page of the transaction, page 1 with a
    new change counter. *)
Record committed_db (s s' : pst) : Prop := {
  cm_synced : f_pend (df s') = [];
  cm_page q d : holds s q d -> agrees q d (db_page ps (f_disk (df s')) q);
  cm_size : dbSize (pg s') = dbSize (pg s);
  cm_fsize : dbSize (pg s') < dbFileSize (pg s') -> dbFileSize (pg s') * ps <= blen (f_disk (df s'));
  cm_open : jOpen (pg s') = true /\ 0 < journalOff (pg s');
}.
Definition finished (s s' : pst) : Prop :=
  eState (pg s') = PAGER_WRITER_FINISHED /\ geom (pg s') /\ (exists rs N, file_inv rs N s') /\ committed_db s s'.

Lemma wp_PagerSync rs0 H s :
  file_inv rs0 H s -> wp sqlite3PagerSync (ends (fun s' => file_inv rs0 H s' /\ pg s' = pg s /\ pc s' = pc s /\ jf s' = jf s /\ df s' = flushed (df s))) s.
Proof.
  intros I. unfold sqlite3PagerSync. apply wp_bind, wp_request. intros rc. cbn [after]. rewrite (du_sync Hdu). cbn [negb].
  assert (I1 : file_inv rs0 H (tick s)) by (by eapply file_inv_eq).
  destruct (_ && true) eqn:E.
  - eapply ends_mono; [apply (wp_sync_d ps n orig rs0 H _ _ I1)|].
    + destruct (du_flags Hdu) as [->| ->]; done.
    + intros s' (I' & [M1 M2] & Ej & Ed). by split_and!.
  - wp_go. split; [apply I|]. intros Hrc. rewrite andb_true_r in E. apply Z.eqb_neq in E. congruence.
Qed.

Lemma wp_phase_one_body junk s :
  writing s ->
  wp (pager_incr_changecounter junk ;;?
       syncJournal false ;;?
       let* c := gets pc in
       pager_write_pagelist (sqlite3PcacheDirtyList c) ;;?
       setc sqlite3PcacheCleanAll ;;*
       let* p := getp id in
       (if dbFileSize p <? dbSize p then pager_truncate (dbSize p - (if dbSize p =? lckPgno p then 1 else 0))
        else ret SQLITE_OK) ;;?
       if negb false then sqlite3PagerSync else ret SQLITE_OK)
     (ends (fun s' => geom (pg s') /\ (exists rs N, file_inv rs N s') /\ committed_db s s')) s.
Proof.
  intros Hw. eapply wp_try; [by apply wp_incr_counter|]. intros s1 [Hw1 Ed1 Esz1 Hk1].
  destruct Hw1 as (H & ck & rs0 & rs1 & [I1 G1 C1 U1 H1 Z1] & J1 & Es1).
  eapply wp_try; [by apply (wp_syncJournal ps n orig Hset false H ck rs0 rs1 s1 I1 G1 J1)|].
  intros s2 (I2 & G2 & Es2 & Ec2 & Ed2 & E1 & E2 & E3 & E4 & E5 & _ & O1 & O2). wp_go.
  assert (C2 : cache_ok (known (rs0 ++ rs1)) (known (rs0 ++ rs1)) (pc s2)) by (rewrite Ec2; by eapply cleared_cache).
  assert (Hk2 : kept s s2) by (eapply kept_compose; [exact Hk1|by apply kept_cleared]).
  assert (Hdl : forall p, p ∈ sqlite3PcacheDirtyList (pc s2) -> exists g, pc s2 !! p = Some g /\ dirty g = true) by (by intros p ?%elem_dirty_list).
  assert (Hin : forall p, p ∈ sqlite3PcacheDirtyList (pc s2) -> exists g, pc s2 !! p = Some g /\ dirty g = true /\ needSync g = false).
  { intros p (g & Hg & Hd)%elem_dirty_list. exists g. split_and!; [done|done|]. rewrite Ec2, lookup_cleared in Hg.
    apply fmap_Some in Hg as (g0 & Hg0 & ->). by eapply cleared_ok, C1. }
  eapply wp_try; [apply (wp_pagelist ps n orig Hset _ _ _ _ s2 I2 G2 C2 (nodup_dirty_list _) Hin)|].
  { intros Hlt. assert (Hh : hint_ok (pg s2) (pc s2)) by (rewrite Ec2; unfold hint_ok; rewrite E1, E2; by apply cleared_hint).
    destruct (Hh Hlt) as (g & Hg & Hd). intros En. apply (not_elem_of_nil (dbSize (pg s2))). rewrite <- En. apply elem_dirty_list. by exists g. }
  intros s3 (I3 & C3 & h & s2' & L & F1 & F2 & F3 & F4 & F5 & F6). unfold setc, getp. wp_go. unfold id.
  cbn [pg set_pc]. assert (G3 : geom (pg s3)) by (eapply listed_geom; [exact L|]; rewrite F1; by destruct G2).
  destruct (li_pg _ _ _ _ L) as (v & z & Ep3 & _ & _ & Hz1 & Hz3).
  assert (Esz3 : dbSize (pg s3) = dbSize (pg s1)) by (rewrite Ep3, F1; cbn; congruence).
  (* every page is in the file *)
  assert (V3 : forall q d, holds s q d -> in_file s3 q d /\ 1 <= q <= dbSize (pg s1) /\ q <> lck ps).
  { intros q d Hq. destruct (hl_range _ _ _ _ Hq) as [Q1 Q2]. split; [|split; [lia|done]].
    apply Hk2 in Hq. destruct (listed_holds _ _ _ _ _ _ _ q d L F1 F2 F5 C2 Hdl Hq) as [A B].
    destruct (decide (q ∈ sqlite3PcacheDirtyList (pc s2))) as [Hl|Hl]; [by apply B|].
    destruct (pc s2 !! q) as [g|] eqn:Hg.
    - rewrite <- F2 in Hg. destruct (listed_lookup _ _ _ _ _ L Hg) as (g' & Hg' & Dg & _). destruct (hl_cached _ _ _ _ A g' Hg') as [_ W'].
      destruct (dirty g') eqn:Dg'; [|done]. exfalso. apply Hl, elem_dirty_list. exists g. rewrite F2 in Hg. by split.
    - pose proof (hl_file _ _ _ _ Hq Hg) as Hf. unfold JrnlCache.in_file in *. rewrite (li_other _ _ _ _ L), F5 by (done || lia). done. }
  match goal with |- wp _ _ ?st => set (s4 := st) end. assert (I4 : file_inv (rs0 ++ rs1) (sector_up Sz (H + Sz + rlen rs1 * PG)) s4) by (by eapply file_inv_eq).
  assert (Es4 : eState (pg s4) = PAGER_WRITER_DBMOD) by (cbn; by rewrite Ep3, F1).
  change (lckPgno (pg s3)) with (PENDING_BYTE / pageSize (pg s3) + 1). rewrite (g_ps _ _ _ G3). fold (lck ps).
  set (m := dbSize (pg s3) - _).
  set (Q := fun s' => geom (pg s') /\ file_inv (rs0 ++ rs1) (sector_up Sz (H + Sz + rlen rs1 * PG)) s' /\
    (forall q, 1 <= q <= dbSize (pg s1) -> q <> lck ps -> db_page ps (f_cur (df s')) q = db_page ps (f_cur (df s3)) q) /\
    dbSize (pg s') = dbSize (pg s1) /\ (dbSize (pg s') < dbFileSize (pg s') -> dbFileSize (pg s') * ps <= blen (f_cur (df s'))) /\
    jOpen (pg s') = true /\ 0 < journalOff (pg s')).
  assert (F7 : dbFileSize (pg s3) * ps <= blen (f_cur (df s3))) by (rewrite Ep3; cbn; apply Hz3; rewrite F1; cbn; rewrite E3; rewrite Ed2 in F4; lia).
  assert (O3 : jOpen (pg s3) = true /\ 0 < journalOff (pg s3)) by (rewrite Ep3, F1; by split).
  eapply (wp_try _ _ _ _ _ Q).
  - destruct (Z.ltb_spec (dbFileSize (pg s3)) (dbSize (pg s3))) as [Hlt|Hge].
    + pose proof (g_fsize _ _ _ G3) as Hf. pose proof (g_size _ _ _ G3) as Hz.
      eapply ends_mono; [apply (wp_grow _ _ m s4 I4); [by apply G3| |done]|].
      { subst m. case_match; lia. }
      intros s5 (I5 & Ec5 & Ej5 & Ep5 & Hd5). split_and!; [|done| | | | |].
      * destruct Ep5 as [[-> _]| ->]; [done|]. destruct G3. split; cbn; try done. subst m. case_match; lia.
      * intros q Hq Hl. apply Hd5. subst m. destruct (Z.eqb_spec (dbSize (pg s3)) (lck ps)); lia.
      * by destruct Ep5 as [[-> _]| ->].
      * destruct Ep5 as [[-> ->]| ->]; [done|]. cbn. subst m. case_match; lia.
      * destruct Ep5 as [[-> _]| ->]; apply O3.
      * destruct Ep5 as [[-> _]| ->]; apply O3.
    + wp_go. split; [apply I4|]. by intros _.
  - intros s5 (G5 & I5 & Hd5 & Sz5 & F8 & O5). cbn [negb].
    eapply ends_mono; [exact (wp_PagerSync _ _ s5 I5)|]. intros s6 (I6 & Ep6 & Ec6 & Ej6 & Ed6).
    split_and!; [by rewrite Ep6|by do 2 eexists|]. split; rewrite ?Ed6, ?Ep6; try done; cbn [f_disk flushed]; [|congruence].
    intros q d Hq. destruct (V3 q d Hq) as (Hf & Q1 & Q2). rewrite Hd5 by done. exact Hf.
Qed.

(** The first phase of a commit succeeds only when the database on the disk is
    what the transaction made of it. *)
Lemma wp_CommitPhaseOne junk s :
  wr_inv s ->
  wp (sqlite3PagerCommitPhaseOne junk false) (ends (fun s' => locked ps n orig s /\ s' = s \/ writing s /\ finished s s')) s.
Proof.
  intros Hw. assert (G : geom (pg s)) by by eapply wr_geom. unfold sqlite3PagerCommitPhaseOne, getp, setp. wp_go. unfold id.
  rewrite (g_err _ _ _ G). change (SQLITE_OK =? SQLITE_OK) with true. cbn [negb].
  destruct Hw as [Hl|Hw].
  - rewrite (proj1 Hl). change (PAGER_WRITER_LOCKED <? PAGER_WRITER_CACHEMOD) with true. cbv iota. wp_go.
    split; [apply (wr_trail ps n orig); by left|]. intros _. by left.
  - assert (Es : (eState (pg s) <? PAGER_WRITER_CACHEMOD) = false).
    { destruct Hw as (? & ? & ? & ? & _ & _ & [E|E]); by rewrite E. }
    rewrite Es. apply wp_bind. eapply wp_mono; [by apply wp_phase_one_body|].
    intros [rc|rc|] s2; cbn [okp returns after JrnlSteps.ends]; [|done|done]. intros [T2 P2].
    destruct (Z.eqb_spec rc SQLITE_OK) as [->|Hrc]; wp_go; (split; [done|]); [|done]. intros _. right. split; [done|].
    destruct (P2 eq_refl) as (G2 & (rs & N & I2) & [C1 C2 C4 C5 C6]). split_and!; [done|by destruct G2| |by split].
    exists rs, N. by eapply file_inv_eq.
Qed.
End Spill.
