(* ===== verification/JrnlEnd.v ===== *)
(** * The end of a transaction

    [sqlite3PagerCommitPhaseTwo] makes the journal invalid: up to that moment
    recovery gives the old database, from then on the new one. *)
From stdpp Require Import gmap relations.
From S2P Require Import Prelude Bits Bytes Varint Wal WalIndex WalRecover WalRecovery WalWrite WalFile WalTx WalSteps Jrnl JrnlFile JrnlSteps JrnlSync JrnlWrite JrnlCommit.

(** No valid header at the start: such a journal is not played back. *)
Definition cold (j : bytes) : Prop := bytes_ok j /\ ~ magic_at j 0.

Lemma cold_trunc d m : 0 <= m -> cold d -> cold (fop_apply d (FTrunc m)).
Proof.
  intros Hm [Hok Hc]. split; [by apply trunc_ok|]. intros Hh. apply Hc. intros i Hi. rewrite <- (Hh i Hi). symmetry.
  destruct (Z.lt_ge_cases i m) as [Hlt|Hge]; [apply bat_trunc; lia|]. exfalso.
  specialize (Hh i Hi). rewrite Z.add_0_l, bat_outside in Hh by (rewrite trunc_len by lia; lia).
  assert (Hz : i = 0 \/ i = 1 \/ i = 2 \/ i = 3 \/ i = 4 \/ i = 5 \/ i = 6 \/ i = 7) by lia.
  destruct Hz as [->|[->|[->|[->|[->|[->|[->| ->]]]]]]]; done.
Qed.
Lemma cold_short d : bytes_ok d -> blen d < 8 -> cold d.
Proof. intros Hok Hl. split; [done|]. apply short_not_magic; lia. Qed.
Lemma cold_emptied d : bytes_ok d -> cold (fop_apply d (FTrunc 0)).
Proof. intros Hok. apply cold_short; [by apply trunc_ok|rewrite trunc_len; lia]. Qed.
Lemma cold_zeroed d k : bytes_ok d -> 0 < k -> cold (log_write d 0 (zeros k)).
Proof.
  intros Hok Hk. split; [apply log_write_ok; [done|apply zeros_ok]|]. intros Hm. specialize (Hm 0 ltac:(lia)). rewrite bat_write_in in Hm by (rewrite ?zeros_len; lia).
  rewrite zeros_at in Hm. by vm_compute in Hm.
Qed.
Lemma torn_nothing S d d' off : 0 <= off -> off <= blen d -> torn S d d' off [] -> d' = d.
Proof.
  intros Ho Hl (A & B & C & _). change (blen []) with 0 in *. apply bytes_ext; [lia|]. intros i Hi. apply C; lia.
Qed.

Section End.
Context `{W : World} (ps n : Z) (orig : old_db).
Abbreviation Sz := sector.
Hypothesis (Hset : setting ps n).
Let HS : 32 <= Sz := proj1 (se_sector _ _ Hset).
Let Hps : 512 <= ps <= SQLITE_MAX_PAGE_SIZE := se_page _ _ Hset.
Let Hn : 0 <= n < 0xffffffff := se_orig _ _ Hset.
Let Hdu : durable := se_durable _ _ Hset.
Abbreviation file_inv := (file_inv ps n orig).
Abbreviation trail_safe := (trail_safe ps n orig).
Abbreviation geom := (geom ps n).

(** *** The journal is made invalid *)

(** What is said of the new database. *)
Context (new_db : bytes -> Prop).
(** Recovery gives the old database, or there is nothing to recover and it is
    the new one. *)
Definition either_pair (f : jfile * jfile) : Prop :=
  forall j d, crash Sz (fst f) j -> crash Sz (snd f) d -> safe Sz ps n (lck ps) orig j d \/ cold j /\ new_db d.
Definition settled (P : pst -> Prop) : out Z -> pst -> Prop :=
  returns (fun rc s => Forall either_pair (trail s) /\ (rc = SQLITE_OK -> P s)).

Record end_inv (rs : list jrec) (N : Z) (s : pst) : Prop := {
  ei_j : always Sz (fun j => jimg Sz ps n rs N j \/ cold j) (jf s);
  ei_d : always Sz (dimg ps n orig rs) (df s);
  ei_new : always Sz new_db (df s);
  ei_good : good_recs ps n (lck ps) orig rs;
  ei_trail : Forall either_pair (trail s);
}.
Lemma end_pair rs N j d :
  always Sz (fun j => jimg Sz ps n rs N j \/ cold j) j -> always Sz (dimg ps n orig rs) d -> always Sz new_db d ->
  good_recs ps n (lck ps) orig rs -> either_pair (j, d).
Proof.
  intros A B C D j' d' Hj Hd. destruct (A _ Hj) as [E|E]; [left|right]; [|split; [done|by apply C]].
  eapply jimg_safe; [exact E|done|by apply B].
Qed.
Lemma end_eq rs N s s' : end_inv rs N s -> jf s' = jf s -> df s' = df s -> trail s' = trail s -> end_inv rs N s'.
Proof. intros [A B C D E] E1 E2 E3. split; rewrite ?E1, ?E2, ?E3; done. Qed.
Lemma either_ok rs N j : jimg Sz ps n rs N j \/ cold j -> bytes_ok j.
Proof. intros [(A & _)|[A _]]; done. Qed.
(** A change of the journal. *)
Lemma end_file rs N f s :
  end_inv rs N s -> always Sz (fun j => jimg Sz ps n rs N j \/ cold j) f -> end_inv rs N (set_file JF f s).
Proof. intros [A B C D E] F. split; try done. constructor; [|done]. by eapply end_pair. Qed.

Lemma wp_end_trunc rs N k s :
  end_inv rs N s -> 0 <= k -> k = 0 \/ always Sz cold (jf s) ->
  wp (os_truncate JF k) (settled (fun s' => end_inv rs N s' /\ same_mem s s' /\ df s' = df s /\ cold (f_cur (jf s')))) s.
Proof.
  intros I Hk Hc. unfold os_truncate, wp. cbv zeta. cbn [fst snd]. destruct (Z.eqb_spec (ioRc (nio s)) SQLITE_OK) as [E|E].
  2:{ split; [apply (ei_trail _ _ _ I)|done]. }
  assert (I' : end_inv rs N (tick (set_file JF (push (FTrunc k) (jf s)) s))).
  { apply (end_eq _ _ (set_file JF (push (FTrunc k) (jf s)) s)); try done. apply end_file; [done|].
    eapply (always_push _ (fun j => (jimg Sz ps n rs N j \/ cold j) /\ (k = 0 \/ cold j))).
    - intros d Hd. split; [by apply (ei_j _ _ _ I)|]. destruct Hc as [->|Hc]; [by left|]. right. by apply Hc.
    - intros d d' [Hd Hd'] Hcr. inversion Hcr; subst; [done|]. right. destruct Hd' as [->|Hd']; [|by apply cold_trunc].
      apply cold_emptied. eapply either_ok, Hd. }
  split; [apply I'|]. intros _. split_and!; try done. cbn [jf tick set_file]. rewrite cur_push.
  destruct Hc as [->|Hc]; [eapply cold_emptied, either_ok, always_cur, I|]. apply cold_trunc; [done|]. by eapply always_cur.
Qed.
Lemma wp_end_sync rs N flags s :
  end_inv rs N s -> flags <> 0 -> cold (f_cur (jf s)) ->
  wp (os_sync JF flags) (settled (fun s' => end_inv rs N s' /\ same_mem s s' /\ df s' = df s /\ always Sz cold (jf s'))) s.
Proof.
  intros I Hf Hc. unfold os_sync. destruct (Z.eqb_spec flags 0); [done|]. unfold wp. cbv zeta. cbn [fst snd].
  destruct (Z.eqb_spec (ioRc (nio s)) SQLITE_OK) as [E|E]; [|split; [apply (ei_trail _ _ _ I)|done]].
  assert (I' : end_inv rs N (tick (set_file JF (flushed (jf s)) s))).
  { apply (end_eq _ _ (set_file JF (flushed (jf s)) s)); try done. apply end_file; [done|]. apply always_flushed. by right. }
  split; [apply I'|]. intros _. split_and!; try done. by apply always_flushed.
Qed.
Lemma wp_end_zero rs N s :
  end_inv rs N s ->
  wp (os_write JF (zeros 28) 0) (settled (fun s' => end_inv rs N s' /\ same_mem s s' /\ df s' = df s /\ cold (f_cur (jf s')))) s.
Proof.
  intros I. unfold os_write, wp. cbv zeta. cbn [fst snd get_file]. change (blen (zeros 28)) with 28.
  rewrite (header_in_sector ps n Hset 0 28) by (rewrite ?Z.mod_0_l; lia). set (k := Z.to_nat _).
  assert (Hk : take k (zeros 28) = zeros 28 \/ take k (zeros 28) = []).
  { subst k. destruct (ioRc (nio s) =? SQLITE_OK); [by left|]. destruct (Z.eqb_spec (Z.max 0 (Z.min (partial (nio s)) 28)) 28) as [E|E]; [rewrite E; by left|by right]. }
  assert (I' : end_inv rs N (tick (set_file JF (push (FWrite 0 (take k (zeros 28))) (jf s)) s))).
  { apply (end_eq _ _ (set_file JF (push (FWrite 0 (take k (zeros 28))) (jf s)) s)); try done. apply end_file; [done|].
    eapply always_push; [exact (ei_j _ _ _ I)|]. intros d d' Hd Hcr.
    destruct Hk as [Hk|Hk]; rewrite Hk in Hcr; inversion Hcr as [| |? ? ? ? Hne Ht]; subst; try done.
    - right. apply cold_zeroed; [eapply either_ok, Hd|lia].
    - exfalso. apply Hne. change (blen (zeros 28)) with 28. rewrite !Z.div_small by lia. done.
    - replace d' with d; [done|]. symmetry. eapply (torn_nothing Sz _ _ 0); [lia|apply blen_nonneg|done]. }
  split; [apply I'|]. intros Hrc. split_and!; try done. cbn [jf tick set_file]. rewrite cur_push. cbn [fop_apply].
  assert (Ek : take k (zeros 28) = zeros 28) by (subst k; by rewrite Hrc). rewrite Ek. apply cold_zeroed; [eapply either_ok, always_cur, I|lia].
Qed.

Lemma settled_try A (P Q : pst -> Prop) k s :
  wp A (settled P) s -> (forall s', P s' -> wp k (settled Q) s') ->
  wp (let* rc := A in if rc =? SQLITE_OK then k else ret rc) (settled Q) s.
Proof.
  intros H1 H2. eapply wp_seq; [exact H1|]. intros rc s' [T P']. destruct (Z.eqb_spec rc SQLITE_OK) as [->|Hrc]; [by apply H2, P'|].
  apply wp_ret. split; [done|]. by intros.
Qed.
Lemma settled_mono A (P Q : pst -> Prop) s : wp A (settled P) s -> (forall s', P s' -> Q s') -> wp A (settled Q) s.
Proof. intros H1 H2. eapply okp_mono; [exact H1|]. intros rc s' [T P']. split; [done|]. auto. Qed.
Lemma wp_and_then (b : bool) A (P Q : pst -> Prop) rc s :
  Forall either_pair (trail s) -> (rc = SQLITE_OK -> P s) -> (P s -> b = true -> wp A (settled Q) s) -> (P s -> b = false -> Q s) ->
  wp (if (rc =? SQLITE_OK) && b then A else ret rc) (settled Q) s.
Proof.
  intros T H1 H2 H3. destruct (Z.eqb_spec rc SQLITE_OK) as [E|E]; cbn [andb].
  - destruct b; [auto|]. apply wp_ret. split; [done|]. intros _. auto.
  - apply wp_ret. split; [done|]. by intros.
Qed.

(** The journal is not used again; the database is as before. *)
Definition made_cold (rs : list jrec) (N : Z) (s s' : pst) : Prop :=
  end_inv rs N s' /\ same_mem s s' /\ df s' = df s /\ cold (f_cur (jf s')).
Lemma wp_zero rs N s :
  end_inv rs N s -> (journalOff (pg s) = 0 -> always Sz cold (jf s)) -> wp (zeroJournalHdr false) (settled (made_cold rs N s)) s.
Proof.
  intros I Ho. unfold zeroJournalHdr, getp. wp_go. destruct (Z.eqb_spec (journalOff (pg s)) 0) as [E0|_].
  { wp_go. split; [apply I|]. intros _. split_and!; try done. eapply always_cur, Ho, E0. }
  rewrite (du_sync Hdu). cbn [orb negb].
  eapply (wp_seq (fun _ => False) _ _ (fun rc s' => Forall either_pair (trail s') /\ (rc = SQLITE_OK -> made_cold rs N s s'))).
  { eapply settled_mono with (P := fun s' => made_cold rs N s s').
    - destruct (journalSizeLimit =? 0); [apply wp_end_trunc; [done|lia|by left]|by apply wp_end_zero].
    - done. }
  intros rc1 s1 [T1 P1].
  eapply (wp_seq (fun _ => False) _ _ (fun rc s' => Forall either_pair (trail s') /\
    (rc = SQLITE_OK -> made_cold rs N s s' /\ always Sz cold (jf s')))).
  { eapply (wp_and_then true _ (made_cold rs N s)); [done|done| |done]. intros (I1 & [M1 M2] & Ed1 & C1) _.
    eapply settled_mono; [apply (wp_end_sync rs N _ s1 I1); [|done]|].
    - destruct (du_flags Hdu) as [->| ->]; done.
    - intros s2 (I2 & [M3 M4] & Ed2 & C2). split_and!; [|done]. split_and!; [done|split; congruence|congruence|by eapply always_cur]. }
  intros rc2 s2 [T2 P2].
  eapply (wp_and_then (0 <? journalSizeLimit) _ (fun s' => made_cold rs N s s' /\ always Sz cold (jf s'))); [done|done| |by intros [] _].
  intros [(I2 & M2 & Ed2 & C2) A2] Hlim. apply Z.ltb_lt in Hlim. apply wp_bind, wp_os_size. intros rc3. cbn [after get_file].
  eapply (wp_and_then _ _ (fun s' => s' = tick s2)); [done|done| |].
  - intros _ _. eapply settled_mono; [apply (wp_end_trunc rs N journalSizeLimit (tick s2)); [by eapply end_eq|lia|by right]|].
    intros s3 (I3 & [M3 M4] & Ed3 & C3). destruct M2 as [M1 M2]. cbn in M3, M4, Ed3. split_and!; [done|split; congruence|congruence|done].
  - intros _ _. destruct M2 as [M1 M2]. split_and!; [by eapply end_eq|by split|done|done].
Qed.

(** Only the two fields about the journal change. *)
Definition closed (p p' : Pager) : Prop := exists a b, p' = set_journalOff a (set_jOpen b p).
Lemma wp_finalize rs N s :
  end_inv rs N s -> jOpen (pg s) = true -> (journalOff (pg s) = 0 -> always Sz cold (jf s)) ->
  wp (finalize_journal false) (settled (fun s' => end_inv rs N s' /\ closed (pg s) (pg s') /\ df s' = df s /\ cold (f_cur (jf s')))) s.
Proof.
  intros I Hop Ho. unfold finalize_journal, getp. wp_go. unfold id. rewrite Hop. cbn [negb].
  assert (Hset_off : forall rc s1, Forall either_pair (trail s1) -> (rc = SQLITE_OK -> made_cold rs N s s1) ->
    wp (setp (set_journalOff 0) ;;* ret rc)
      (settled (fun s' => end_inv rs N s' /\ closed (pg s) (pg s') /\ df s' = df s /\ cold (f_cur (jf s')))) s1).
  { intros rc s1 T1 P1. unfold setp. wp_go. split; [done|]. intros E. destruct (P1 E) as (I1 & [M1 M2] & Ed & C).
    split_and!; [by eapply end_eq| |done|done]. exists 0, true. cbn. rewrite M1. destruct (pg s). cbn in *. by subst. }
  case_match; [|case_match].
  - apply wp_bind. eapply wp_mono with (P := settled (made_cold rs N s)).
    { destruct (Z.eqb_spec (journalOff (pg s)) 0) as [E0|_].
      { wp_go. split; [apply I|]. intros _. split_and!; try done. eapply always_cur, Ho, E0. }
      eapply (wp_seq (fun _ => False) _ _ (fun rc s' => Forall either_pair (trail s') /\ (rc = SQLITE_OK -> made_cold rs N s s'))).
      { apply wp_end_trunc; [done|lia|by left]. }
      intros rc1 s1 [T1 P1]. rewrite (du_full Hdu).
      eapply (wp_and_then true _ (made_cold rs N s)); [done|done| |done]. intros (I1 & [M1 M2] & Ed1 & C1) _.
      eapply settled_mono; [apply (wp_end_sync rs N _ s1 I1); [|done]|].
      - destruct (du_flags Hdu) as [->| ->]; done.
      - intros s2 (I2 & [M3 M4] & Ed2 & C2). split_and!; [done|split; congruence|congruence|by eapply always_cur]. }
    intros [rc|rc|] s1; cbn [okp returns after settled]; [|done|done]. intros [T1 P1]. by apply Hset_off.
  - apply wp_bind. eapply wp_mono; [by apply wp_zero|].
    intros [rc|rc|] s1; cbn [okp returns after settled]; [|done|done]. intros [T1 P1]. by apply Hset_off.
  - unfold setp. wp_go. unfold os_delete, wp. cbv zeta. cbn [fst snd].
    match goal with |- context [ioRc ?k] => destruct (Z.eqb_spec (ioRc k) SQLITE_OK) as [E|E] end.
    2:{ split; [apply (ei_trail _ _ _ I)|done]. }
    assert (Hcl : always Sz (fun j => jimg Sz ps n rs N j \/ cold j) (if extraSync then flushed (push (FTrunc 0) (jf s)) else push (FTrunc 0) (jf s)) /\
      cold (f_cur (if extraSync then flushed (push (FTrunc 0) (jf s)) else push (FTrunc 0) (jf s)))).
    { assert (C : cold (f_cur (push (FTrunc 0) (jf s)))) by (rewrite cur_push; eapply cold_emptied, either_ok, always_cur, I).
      destruct extraSync; split; try done; [apply always_flushed; by right|]. eapply always_push; [exact (ei_j _ _ _ I)|].
      intros d d' Hd Hcr. inversion Hcr; subst; [done|]. right. apply cold_emptied. eapply either_ok, Hd. }
    destruct Hcl as [H1 H2]. pose proof (end_file _ _ _ _ I H1) as I1. split; [apply I1|]. intros _.
    split_and!; [by eapply end_eq| |done|done]. exists (journalOff (pg s)), false. cbn. by destruct (pg s).
Qed.

(** The file is longer than the database: the rest is cut off. *)
Lemma wp_shrink rs N s :
  end_inv rs N s -> (forall d, new_db d -> new_db (fop_apply d (FTrunc (ps * dbSize (pg s))))) -> geom (pg s) -> eState (pg s) = PAGER_WRITER_FINISHED ->
  dbFileSize (pg s) * ps <= blen (f_cur (df s)) -> dbSize (pg s) < dbFileSize (pg s) ->
  wp (pager_truncate (dbSize (pg s))) (settled (fun s' => end_inv rs N s' /\ jf s' = jf s /\ new_db (f_cur (df s')))) s.
Proof.
  intros I Hcut G Es Hf Hlt. unfold pager_truncate, getp, setp. wp_go. unfold id. rewrite Es.
  change (PAGER_WRITER_DBMOD <=? PAGER_WRITER_FINISHED) with true. cbn [orb]. rewrite (g_ps _ _ _ G).
  apply wp_bind, wp_os_size. intros rc. cbn [after get_file]. pose proof (g_size _ _ _ G) as Hsz.
  eapply (wp_and_then _ _ (fun s' => s' = tick s)); [apply I|done| |].
  2:{ intros _ _. split_and!; [by eapply end_eq|done|]. cbn [df tick]. by eapply always_cur, I. }
  intros _ _. destruct (Z.ltb_spec (ps * dbSize (pg s)) (blen (f_cur (df s)))) as [Hl|Hl]; [|nia].
  eapply (wp_seq (fun _ => False) _ _ (fun rc s' => Forall either_pair (trail s') /\ (rc = SQLITE_OK -> end_inv rs N s' /\ jf s' = jf s))).
  - unfold os_truncate, wp. cbv zeta. cbn [fst snd nio tick].
    match goal with |- context [ioRc ?k] => destruct (Z.eqb_spec (ioRc k) SQLITE_OK) as [E|E] end; [|split; [apply I|done]].
    set (f := push (FTrunc (ps * dbSize (pg s))) (df s)).
    assert (B : always Sz (dimg ps n orig rs) f) by (apply (dimg_push Sz ps n orig HS ltac:(lia) ltac:(lia)); [cbn; nia|apply I]).
    assert (C : always Sz new_db f).
    { eapply always_push; [exact (ei_new _ _ _ I)|]. intros d d' Hd Hcr. inversion Hcr; subst; [done|]. by apply Hcut. }
    assert (T : Forall either_pair ((jf s, f) :: trail s)) by (constructor; [eapply end_pair; [apply I|exact B|exact C|apply I]|apply I]).
    split; [exact T|]. intros _. split; [|done]. destruct I. by split.
  - intros rc1 s1 [T1 P1]. destruct (Z.eqb_spec rc1 SQLITE_OK) as [->|E]; wp_go; (split; [done|]); [|done]. intros _.
    destruct (P1 eq_refl) as [I1 Ej]. split_and!; [by eapply end_eq|done|]. cbn [df set_pg]. by eapply always_cur, I1.
Qed.

(** The transaction is over, and the files say so. *)
Definition ended (s' : pst) : Prop :=
  cold (f_cur (jf s')) /\ new_db (f_cur (df s')) /\ eState (pg s') = PAGER_READER.
(** Only the memory of the connection differs. *)
Definition files_kept (s s' : pst) : Prop := jf s' = jf s /\ df s' = df s /\ trail s' = trail s.
Lemma wp_unlock_db l s : wp (pagerUnlockDb l) (returns (fun _ s' => files_kept s s')) s.
Proof.
  unfold pagerUnlockDb, getp, setp. wp_go. apply wp_request. intros rc. wp_go. case_match; by wp_go.
Qed.
(** What a commit needs to cut off the end of the file. *)
Record can_shrink (s : pst) : Prop := {
  cs_cut d : new_db d -> new_db (fop_apply d (FTrunc (ps * dbSize (pg s))));
  cs_geom : geom (pg s);
  cs_state : eState (pg s) = PAGER_WRITER_FINISHED;
  cs_fsize : dbSize (pg s) < dbFileSize (pg s) -> dbFileSize (pg s) * ps <= blen (f_cur (df s));
}.
Lemma wp_end_transaction bCommit rs N s :
  end_inv rs N s -> (eState (pg s) <? PAGER_WRITER_LOCKED) && (eLock (pg s) <? RESERVED_LOCK) = false ->
  jOpen (pg s) = true -> (journalOff (pg s) = 0 -> always Sz cold (jf s)) -> (bCommit = true -> can_shrink s) ->
  wp (pager_end_transaction false bCommit) (settled ended) s.
Proof.
  intros I Hst Hop Hoff Hcs. unfold pager_end_transaction, getp, setp, setc. wp_go. unfold id. rewrite Hst.
  eapply (wp_seq (fun _ => False) _ _ (fun rc s' => Forall either_pair (trail s') /\
    (rc = SQLITE_OK -> end_inv rs N s' /\ closed (pg s) (pg s') /\ df s' = df s /\ cold (f_cur (jf s'))))); [by apply wp_finalize|].
  intros rc s1 [T1 P1]. wp_go.
  set (K := fun s' => end_inv rs N s' /\ cold (f_cur (jf s')) /\ new_db (f_cur (df s'))).
  eapply (wp_mono _ (returns (fun (_ : unit) s' => Forall either_pair (trail s') /\ (rc = SQLITE_OK -> K s' /\
    (bCommit = true -> can_shrink s'))))).
  { destruct (Z.eqb_spec rc SQLITE_OK) as [->|E]; wp_go; (split; [done|]); [|done]. intros _.
    destruct (P1 eq_refl) as (I1 & (a & b & Ep) & Ed & C1). split.
    - split_and!; [by eapply end_eq|done|]. cbn [df set_pg set_pc]. rewrite Ed. by eapply always_cur, I.
    - intros Hb. destruct (Hcs Hb) as [H1 H2 H3 H4]. split; cbn [pg pc jf df set_pg set_pc]; rewrite Ep; [done|by destruct H2|done|by rewrite Ed]. }
  intros [[]|rc'|] s2; cbn [okp returns after]; [|done|done]. intros [T2 P2]. wp_go. unfold id. rewrite <- ?andb_assoc.
  eapply (wp_mono _ (returns (fun rc s' => Forall either_pair (trail s') /\ (rc = SQLITE_OK -> K s')))).
  { eapply (wp_and_then _ _ (fun s' => s' = s2 /\ K s' /\ (bCommit = true -> can_shrink s'))); [done| | |by intros (_ & HK & _) _].
    - intros E. split; [done|]. apply (P2 E).
    - intros (_ & (I2 & C2 & N2) & Hc2) [Hb Hlt]%andb_prop. apply Z.ltb_lt in Hlt. destruct (Hc2 Hb) as [H1 H2 H3 H4].
      eapply settled_mono; [apply (wp_shrink rs N); auto|]. intros s3 (I3 & Ej3 & N3). split_and!; [done|by rewrite Ej3|done]. }
  intros [rc3|rc3|] s3; cbn [okp returns after]; [|done|done]. intros [T3 P3]. wp_go.
  eapply (wp_mono _ (returns (fun rc s' => Forall either_pair (trail s') /\ (rc = SQLITE_OK -> K s')))).
  { destruct (Z.eqb_spec rc3 SQLITE_OK) as [->|E]; cbn [andb]; [|by apply wp_ret]. destruct bCommit; [|by apply wp_ret].
    wp_go. apply wp_request. intros rc4. wp_go. split; [done|]. intros _. destruct (P3 eq_refl) as (I3 & C3 & N3).
    split_and!; [by eapply end_eq|done|done]. }
  intros [rc5|rc5|] s5; cbn [okp returns after]; [|done|done]. intros [T5 P5].
  eapply (wp_seq (fun _ => False) _ _ (fun _ s' => files_kept s5 s')).
  { destruct exclusiveMode; cbn [negb]; [by apply wp_ret|apply wp_unlock_db]. }
  intros rc6 s6 (E1 & E2 & E3). wp_go. split; [cbn; by rewrite E3|]. intros Hrc.
  assert (E5 : rc5 = SQLITE_OK) by (destruct (Z.eqb_spec rc5 SQLITE_OK); [done|congruence]).
  destruct (P5 E5) as (I5 & C5 & N5). unfold ended. cbn. by rewrite E1, E2.
Qed.
Lemma wp_CommitPhaseTwo rs N s :
  end_inv rs N s -> can_shrink s -> jOpen (pg s) = true -> 0 < journalOff (pg s) ->
  wp sqlite3PagerCommitPhaseTwo (settled ended) s.
Proof.
  intros I [H1 H2 H3 H4] Hop Hoff. unfold sqlite3PagerCommitPhaseTwo, getp, setp. wp_go. unfold id.
  rewrite (g_err _ _ _ H2). change (SQLITE_OK =? SQLITE_OK) with true. cbn [negb]. wp_go. rewrite H3.
  change (PAGER_WRITER_FINISHED =? PAGER_WRITER_LOCKED) with false. cbn [andb].
  eapply (wp_seq (fun _ => False) _ _ (fun rc s' => Forall either_pair (trail s') /\ (rc = SQLITE_OK -> ended s'))).
  { apply (wp_end_transaction true rs N); try done; [by eapply end_eq|cbn [pg set_pg set_iDataVersion eState eLock]; by rewrite H3|cbn; lia|].
    intros _. split; [done|by destruct H2|done|done]. }
  intros rc s1 [T1 P1]. unfold pager_error, setp. case_match eqn:E; wp_go; (split; [done|]); [|done].
  intros ->. by vm_compute in E.
Qed.
End End.
