(* ===== verification/JrnlTx.v ===== *)
(** * Transactions of the rollback journal

    [sqlite3PagerBegin] starts a transaction.  Between it and the commit the
    program gets, changes and releases pages, and the cache writes pages out
    ([tx_step]).  Whatever the last request returns, the two files can be
    recovered from at every moment; a commit takes place at one moment. *)
From stdpp Require Import gmap relations functions.
From S2P Require Import Prelude Bits Bytes Varint Wal WalIndex WalRecover WalRecovery WalWrite WalFile WalTx WalSteps Jrnl JrnlFile JrnlSteps JrnlSync JrnlWrite JrnlCache JrnlCommit JrnlEnd.

Section Run.
Context `{W : World} (ps n : Z) (orig : old_db).
Abbreviation Sz := sector.
Hypothesis (Hset : setting ps n).
Let HS : 32 <= Sz := proj1 (se_sector _ _ Hset).
Let Hps : 512 <= ps <= SQLITE_MAX_PAGE_SIZE := se_page _ _ Hset.
Let Hn : 0 <= n < 0xffffffff := se_orig _ _ Hset.
Abbreviation wr_inv := (wr_inv ps n orig).
Abbreviation trail_safe := (trail_safe ps n orig).
Abbreviation ends := (ends ps n orig).

(** A connection that has read: the cache has clean pages of the database, and
    there is no journal that could be played back.  Of the pages nobody needs
    nothing is said. *)
Record reader (s : pst) : Prop := {
  rd_state : eState (pg s) = PAGER_READER;
  rd_sizes : pageSize (pg s) = ps /\ sectorSize (pg s) = Sz /\ dbSize (pg s) = n;
  rd_err : errCode (pg s) = SQLITE_OK;
  rd_ref : 0 < nRefSum (pg s);
  rd_vers : bytes_ok (dbFileVers (pg s)) /\ blen (dbFileVers (pg s)) = 16;
  rd_mx : mxPgno (pg s) < 2 ^ 32;
  rd_cache : cache_ok ps n orig (unused orig) (unused orig) (pc s);
  rd_clean : map_Forall (fun _ g => dirty g = false) (pc s);
  rd_j d : crash Sz (jf s) d -> cold d;
  rd_d d : crash Sz (df s) d -> bytes_ok d /\ n * ps <= blen d /\ forall p, 1 <= p <= n -> p ∉ unused orig -> db_pg ps d p = db_pg ps orig p;
  rd_trail : trail s = [];
}.
Lemma reader_files s : reader s -> file_inv ps n orig [] 0 s.
Proof.
  intros R. split.
  - intros d Hd. destruct (rd_j _ R d Hd) as [A B]. split_and!; [done|constructor|done].
  - intros d Hd. destruct (rd_d _ R d Hd) as (A & B & C). split_and!; [done|done|]. intros p Hp Hni. apply C; [done|]. intros Hu. apply Hni, elem_known. by right.
  - split; [constructor|done].
  - rewrite Z.mod_0_l; lia.
  - unfold JrnlSteps.trail_safe. rewrite (rd_trail _ R). constructor.
Qed.
Lemma wp_PagerBegin exFlag s : reader s -> wp (sqlite3PagerBegin exFlag) (ends (locked ps n orig)) s.
Proof.
  intros R. pose proof (reader_files _ R) as I. unfold sqlite3PagerBegin, getp, setp. wp_go. unfold id.
  rewrite (rd_err _ R), (rd_state _ R). change (SQLITE_OK =? SQLITE_OK) with true. change (PAGER_READER =? PAGER_READER) with true. cbn [negb].
  eapply (wp_seq (fun _ => False)); [apply wp_lock|]. intros rc s1 L1.
  eapply (wp_seq (fun _ => False) _ _ (fun _ s' => lock_step s s')).
  { destruct ((rc =? SQLITE_OK) && exFlag); [|by apply wp_ret]. eapply okp_mono; [apply wp_wait|]. intros rc2 s2 L2. cbn in L1, L2. by eapply lock_trans. }
  intros rc2 s2 ([l El] & Ec & Ej & Ed & Et). assert (I2 : file_inv ps n orig [] 0 s2) by (by eapply file_inv_eq).
  destruct (Z.eqb_spec rc2 SQLITE_OK) as [->|E]; wp_go; (split; [apply I2|]); [|done]. intros _.
  destruct (rd_sizes _ R) as (E1 & E2 & E3).
  split_and!; [done| |cbn; rewrite Ec; apply R]. split; cbn [pg pc jf df set_pg].
  - by eapply file_inv_eq.
  - rewrite El. destruct R. split; cbn; try done; lia.
  - rewrite Ec. replace (known orig ([] ++ [])) with (unused orig) by (symmetry; apply (union_empty_l_L (unused orig))).
    replace (known orig []) with (unused orig) by (symmetry; apply (union_empty_l_L (unused orig))). apply R.
  - intros q Hq. by apply elem_of_empty in Hq.
  - intros Hlt. cbn in Hlt. lia.
  - cbn. rewrite El, Ed. cbn. rewrite E3. destruct (rd_d _ R _ (crash_cur _ _)) as (_ & B & _). done.
Qed.

(** The pages of the new database. *)
Definition pages_are (V : Z -> bytes) (m : Z) (d : bytes) : Prop := forall q, 1 <= q <= m -> q <> lck ps -> db_page ps d q = V q.

(** *** The steps of a transaction *)

(** What the transaction has made of the pages: the content of a page, unless
    nobody needs it. *)
Abbreviation contents := (Z -> option bytes).
Definition old_contents : contents := fun q =>
  if bool_decide (1 <= q <= n /\ q <> lck ps /\ q ∉ unused orig) then Some (db_pg ps orig q) else None.
(** The caller may change the page, without another [sqlite3PagerWrite]. *)
Definition may_change (s : pst) (p : Z) (g : PgHdr) : Prop :=
  pc s !! p = Some g /\ writeable g = true /\ p <= dbSize (pg s).

(** What happens between the begin and the commit, without an error.  A page is
    fetched without its content only if nobody needs that. *)
Inductive tx_step : pst * contents -> pst * contents -> Prop :=
  | tx_get junk p flags s C s' :
      0 <= p < 2 ^ 32 -> (no_content flags = true -> droppable n orig p) ->
      sqlite3PagerGet junk p flags s = (Ret SQLITE_OK, s') ->
      tx_step (s, C) (s', if no_content flags then <[p := None]> C else C)
  | tx_unref s C s' :
      1 < nRefSum (pg s) -> sqlite3PagerUnref s = (Ret tt, s') -> tx_step (s, C) (s', C)
  | tx_write p g s C s' :
      pc s !! p = Some g -> sqlite3PagerWrite p s = (Ret SQLITE_OK, s') ->
      tx_step (s, C) (s', match C p with Some _ => C | None => <[p := Some (pData g)]> C end)
  (* the caller changes a page *)
  | tx_edit p g d s C :
      may_change s p g -> bytes_ok d -> blen d = ps ->
      tx_step (s, C) (set_pc (alter (set_pData d) p (pc s)) s, <[p := Some d]> C)
  (* two pages change places *)
  | tx_swap a b ga gb s C s' :
      a <> b -> may_change s a ga -> may_change s b gb -> swap_pages a b s = (Ret tt, s') ->
      tx_step (s, C) (s', <[a := Some (pData gb)]> (<[b := Some (pData ga)]> C))
  (* the page becomes a leaf of the list of free pages *)
  | tx_dont_write p g s C s' :
      pc s !! p = Some g -> sqlite3PagerDontWrite p s = (Ret tt, s') -> tx_step (s, C) (s', <[p := None]> C)
  | tx_spill p g s C s' :
      pc s !! p = Some g -> dirty g = true -> pagerStress p s = (Ret SQLITE_OK, s') -> tx_step (s, C) (s', C)
  (* the cache gives up a clean page *)
  | tx_evict p g s C :
      pc s !! p = Some g -> dirty g = false -> tx_step (s, C) (set_pc (delete p (pc s)) s, C).

(** The invariant of a transaction, and its contents. *)
Definition run_inv (x : pst * contents) : Prop := wr_inv (fst x) /\ forall q d, snd x q = Some d -> holds ps (fst x) q d.

Lemma wr_dirty p g s : wr_inv s -> pc s !! p = Some g -> dirty g = true -> writing ps n orig s.
Proof. intros [(_ & _ & Hc)|Hw] Hg Hd; [|done]. specialize (Hc _ _ Hg). cbn in Hc. congruence. Qed.
Lemma contents_set (C : contents) p x q d : (<[p := x]> C) q = Some d -> q = p /\ x = Some d \/ q <> p /\ C q = Some d.
Proof.
  intros E. destruct (decide (q = p)) as [->|Hne]; [left|right].
  - by rewrite fn_lookup_insert in E.
  - by rewrite fn_lookup_insert_ne in E.
Qed.
Lemma edit_kept p g d s C :
  run_inv (s, C) -> may_change s p g -> bytes_ok d -> blen d = ps ->
  run_inv (set_pc (alter (set_pData d) p (pc s)) s, <[p := Some d]> C).
Proof.
  intros [Hw Hc] (Hg & Hwr & Hle) Kd Ld. destruct (wr_cache _ _ _ _ Hw) as (J & Sy & Ca). split; cbn [fst snd] in *.
  - by apply (edit_ok ps n orig s p g d (wr_geom _ _ _ _ Hw)).
  - intros q x [[-> [= <-]]|[Hne Hx]]%contents_set; [by eapply edit_holds|]. apply holds_alter; [done|]. by apply Hc.
Qed.
Lemma swap_kept a b ga gb s C s' :
  run_inv (s, C) -> a <> b -> may_change s a ga -> may_change s b gb -> swap_pages a b s = (Ret tt, s') ->
  run_inv (s', <[a := Some (pData gb)]> (<[b := Some (pData ga)]> C)).
Proof.
  intros R Hne Ma Mb E. pose proof (proj1 R : wr_inv s) as Hw. destruct (wr_cache _ _ _ _ Hw) as (J & Sy & Ca).
  assert (El : lckPgno (pg s) = lck ps) by (unfold lckPgno; by rewrite (g_ps _ _ _ (wr_geom _ _ _ _ Hw))).
  destruct Ma as (Hga & Wa & La), Mb as (Hgb & Wb & Lb).
  pose proof (Ca _ _ Hga) as [[_ P1] [D1 D1'] _ _ _ _ _ _ _]. pose proof (Ca _ _ Hgb) as [[_ P2] [D2 D2'] _ _ _ _ _ _ _].
  assert (Hn0 : pc s !! lckPgno (pg s) = None).
  { rewrite El. destruct (pc s !! lck ps) as [g|] eqn:Hg; [|done]. by destruct (po_pgno _ _ _ _ _ _ _ (Ca _ _ Hg)) as [_ ?]. }
  rewrite <- El in P1, P2. pose proof (wp_swap a b ga gb s Hne P1 P2 Hn0 Hga Hgb) as X.
  pose proof (wp_run _ _ _ _ _ X E) as Es. cbn [returns okp] in Es. subst s'.
  pose proof (edit_kept b gb (pData ga) s C R (conj Hgb (conj Wb Lb)) D1 D1') as R1.
  refine (edit_kept a ga (pData gb) _ _ R1 _ D2 D2'). split; [|by split]. cbn. by rewrite lookup_alter_ne.
Qed.
Lemma wr_step x x' : run_inv x -> tx_step x x' -> run_inv x'.
Proof.
  intros R Hs. destruct Hs as [junk p flags s C s' Hp Hd E|s C s' Hr E|p g s C s' Hg E|p g d s C Hm Kd Ld|a b ga gb s C s' Hne Ma Mb E|
    p g s C s' Hg E|p g s C s' Hg Hd E|p g s C Hg Hd].
  - destruct R as [Hw Hc]. cbn [fst snd] in *. pose proof (wp_run _ _ _ _ _ (wp_PagerGet ps n orig Hset junk p flags s Hw Hp Hd) E) as [_ F].
    destruct (F eq_refl) as [Hw' _ _ _ _ Hh]. split; [done|]. cbn [fst snd]. intros q d Hq. destruct (no_content flags).
    + apply contents_set in Hq as [[_ [=]]|[Hne Hq]]. apply Hh; [by right|by apply Hc].
    + apply Hh; [by left|by apply Hc].
  - destruct R as [Hw Hc]. cbn [fst snd] in *. injection E as <-. destruct (g_vers _ _ _ (wr_geom _ _ _ _ Hw)) as [V1 V2]. split; cbn [fst snd].
    + eapply wr_inv_change; [done| |apply recached_refl|done]. split; [done|].
      exists (nRefSum (pg s) - 1), (dbFileVers (pg s)), (pInJournal (pg s)). split_and!; try done; [lia|by left].
    + intros q d Hq. apply (holds_stays ps s); [by apply Hc|done..].
  - destruct R as [Hw Hc]. cbn [fst snd] in *. pose proof (wp_run _ _ _ _ _ (wp_PagerWrite ps n orig Hset p s g Hw Hg) E) as [_ F].
    specialize (F eq_refl). split; [right; apply F|]. cbn [fst snd]. intros q d Hq.
    assert (Hold : C q = Some d -> holds ps s' q d) by (intros Hq'; by eapply holds_written, Hc).
    destruct (C p) eqn:Ep; [by apply Hold|]. apply contents_set in Hq as [[-> [= <-]]|[_ Hq]]; [|by apply Hold].
    by eapply written_holds.
  - by eapply edit_kept.
  - by eapply swap_kept.
  - destruct R as [Hw Hc]. cbn [fst snd] in *. pose proof (wp_run _ _ _ _ _ (wp_DontWrite ps n orig p g s Hw Hg) E) as [Hw' Hh].
    split; [done|]. cbn [fst snd]. intros q d [[_ [=]]|[Hne Hq]]%contents_set. apply Hh; [done|by apply Hc].
  - destruct R as [Hw Hc]. cbn [fst snd] in *.
    pose proof (wp_run _ _ _ _ _ (wp_pagerStress ps n orig Hset p g s (wr_dirty _ _ _ Hw Hg Hd) Hg Hd) E) as [_ F].
    destruct (F eq_refl) as [Hw' Hk]. split; [by right|]. cbn [fst snd]. intros q d Hq. by apply Hk, Hc.
  - destruct R as [Hw Hc]. cbn [fst snd] in *. destruct (evict_ok ps n orig s p g Hw Hg Hd) as [Hw' Hk]. split; [done|].
    cbn [fst snd]. intros q d Hq. by apply Hk, Hc.
Qed.

Lemma page_there d q : 1 <= q -> q * ps <= blen d -> db_page ps d q = db_pg ps d q.
Proof.
  intros Hq Hl. rewrite <- (read_page ps n Hset d q Hq). unfold db_pg.
  assert (L : blen (seg d ((q - 1) * ps) ps) = ps) by (unfold blen at 1; rewrite seg_len by nia; lia).
  rewrite L, Z.sub_diag. apply app_nil_r.
Qed.
(** The transaction starts with the old contents. *)
Lemma begin_contents exFlag s s1 :
  reader s -> sqlite3PagerBegin exFlag s = (Ret SQLITE_OK, s1) -> run_inv (s1, old_contents).
Proof.
  intros R E. pose proof (wp_run _ _ _ _ _ (wp_PagerBegin exFlag s R) E) as [_ X]. specialize (X eq_refl). split; [by left|].
  cbn [fst snd]. destruct X as (_ & P & Hcl). pose proof (pt_geom _ _ _ _ _ _ _ P) as G.
  destruct (always_cur _ _ _ (fi_d _ _ _ _ _ _ (pt_file _ _ _ _ _ _ _ P))) as (Hok & Hlen & Hd).
  intros q d Hq. unfold old_contents in Hq. case_bool_decide as Hin; [|done]. injection Hq as <-. destruct Hin as (H1 & H2 & H3).
  assert (Hni : q ∉ known orig []) by (intros [Hx|Hx]%elem_known; [by apply elem_of_empty in Hx|done]).
  assert (Ef : db_page ps (f_cur (df s1)) q = db_pg ps orig q) by (rewrite page_there by nia; by apply Hd).
  assert (Ko : bytes_ok (db_pg ps orig q)) by (rewrite <- (Hd q H1 Hni); by apply seg_ok).
  assert (Hf : in_file ps s1 q (db_pg ps orig q)) by (unfold in_file; rewrite Ef; by apply agrees_refl).
  apply holds_both; [pose proof (g_size _ _ _ G); lia|done|done|]. intros g Hg. split.
  - rewrite (po_orig _ _ _ _ _ _ _ (pt_cache _ _ _ _ _ _ _ P _ _ Hg)); [by apply agrees_refl|lia|done].
  - specialize (Hcl _ _ Hg). cbn in Hcl. congruence.
Qed.
Lemma wr_run exFlag s0 s1 s2 C :
  reader s0 -> sqlite3PagerBegin exFlag s0 = (Ret SQLITE_OK, s1) -> rtc tx_step (s1, old_contents) (s2, C) -> run_inv (s2, C).
Proof.
  intros R E Hrun. pose proof (begin_contents exFlag s0 s1 R E) as H1. clear E.
  induction Hrun as [x|x x' x'' Hs _ IH]; [done|]. apply IH. by eapply wr_step.
Qed.

(** The last request, with any result. *)
Inductive tx_last : pst -> out Z -> pst -> Prop :=
  | last_get junk p flags s o s' :
      0 <= p < 2 ^ 32 -> (no_content flags = true -> droppable n orig p) -> sqlite3PagerGet junk p flags s = (o, s') -> tx_last s o s'
  | last_write p g s o s' : pc s !! p = Some g -> sqlite3PagerWrite p s = (o, s') -> tx_last s o s'
  | last_spill p g s o s' : pc s !! p = Some g -> dirty g = true -> pagerStress p s = (o, s') -> tx_last s o s'
  | last_commit junk s o s' : sqlite3PagerCommitPhaseOne junk false s = (o, s') -> tx_last s o s'.
Lemma ends_inv (P : pst -> Prop) A s o s' : wp A (ends P) s -> A s = (o, s') -> (exists rc, o = Ret rc) /\ trail_safe s'.
Proof. unfold wp. intros H E. rewrite E in H. destruct o as [rc|rc|]; [|done|done]. split; [by exists rc|apply H]. Qed.

(** C1: A transaction can be rolled back until it commits.  From a connection
    that has read the database with the pages [orig], [sqlite3PagerBegin] starts
    a transaction, then the pager runs any sequence of successful requests, the
    cache writing out dirty pages whenever it likes, and a last request that may
    fail for any reason: then at every moment, whatever a power loss makes of
    the writes that were not synced, the journal and the database are such that
    the journal has, under valid headers and checksums, the original content of
    each page of the database that differs from the original, but for the pages
    [unused orig] that were free before the transaction.  Those can be fetched
    without their content, and are then not journalled; the transaction may also
    say that a page need not be written.  There are no savepoints. *)
Theorem transaction_is_atomic exFlag s0 s1 s2 C o s3 :
  reader s0 -> sqlite3PagerBegin exFlag s0 = (Ret SQLITE_OK, s1) -> rtc tx_step (s1, old_contents) (s2, C) -> tx_last s2 o s3 ->
  (exists rc, o = Ret rc) /\ Forall (safe_pair ps n orig) (trail s3).
Proof.
  intros R E Hrun Hl. pose proof (proj1 (wr_run _ _ _ _ _ R E Hrun) : wr_inv s2) as Hw.
  destruct Hl as [junk p flags s o s' Hp Hd El|p g s o s' Hg El|p g s o s' Hg Hd El|junk s o s' El].
  - eapply ends_inv; [by apply (wp_PagerGet ps n orig Hset)|done].
  - eapply ends_inv; [by eapply (wp_PagerWrite ps n orig Hset)|done].
  - eapply ends_inv; [eapply (wp_pagerStress ps n orig Hset); [by eapply wr_dirty|done|done]|done].
  - eapply ends_inv; [by apply (wp_CommitPhaseOne ps n orig Hset)|done].
Qed.

(** C3: A commit takes place at one moment.  When the first phase of the commit
    of a transaction that wrote pages has succeeded, the synced database is the
    new one: every page has the content [C] the transaction gave it (page 1 up to
    the change counter and version in its header), which for a page it did not
    change is the old content; spilled and clean pages are included, and only the
    pages that nobody needs are not.  At every moment of the second phase, a
    power loss leaves either what [transaction_is_atomic] says, or no valid
    journal and the new database; and when the second phase returns [SQLITE_OK],
    the files are the new database and no valid journal. *)
Theorem commit_is_atomic exFlag s0 s1 s2 C junk s3 o s4 :
  reader s0 -> sqlite3PagerBegin exFlag s0 = (Ret SQLITE_OK, s1) -> rtc tx_step (s1, old_contents) (s2, C) ->
  eState (pg s2) <> PAGER_WRITER_LOCKED ->
  sqlite3PagerCommitPhaseOne junk false s2 = (Ret SQLITE_OK, s3) -> sqlite3PagerCommitPhaseTwo s3 = (o, s4) ->
  exists V,
    (forall q d, C q = Some d -> 1 <= q <= dbSize (pg s2) /\ q <> lck ps /\ agrees q d (V q)) /\
    (f_pend (df s3) = [] /\ pages_are V (dbSize (pg s2)) (f_disk (df s3))) /\
    Forall (either_pair ps n orig (pages_are V (dbSize (pg s2)))) (trail s4) /\
    exists rc, o = Ret rc /\ (rc = SQLITE_OK ->
      cold (f_cur (jf s4)) /\ pages_are V (dbSize (pg s2)) (f_cur (df s4)) /\ eState (pg s4) = PAGER_READER).
Proof.
  intros R E Hrun Hne E1 E2. destruct (wr_run _ _ _ _ _ R E Hrun) as [Hw Hc]. cbn [fst snd] in Hw, Hc.
  pose proof (wp_run _ _ _ _ _ (wp_CommitPhaseOne ps n orig Hset junk s2 Hw) E1) as [T X].
  destruct (X eq_refl) as [[[El _] _]|(Hwr & Es & G & (rs & N & I) & [C1 C2 Em C5 C6])]; [done|].
  assert (Hdisk : f_cur (df s3) = f_disk (df s3)) by (unfold f_cur; by rewrite C1).
  set (V := fun q => db_page ps (f_disk (df s3)) q). exists V.
  assert (Hnew : always Sz (pages_are V (dbSize (pg s2))) (df s3)).
  { intros d Hd. unfold crash in Hd. rewrite C1 in Hd. apply crashes_nil_inv in Hd as ->. by intros q Hq _. }
  assert (EI : end_inv ps n orig (pages_are V (dbSize (pg s2))) rs N s3).
  { destruct I as [A B F D T']. split; [|done|done|done|].
    - eapply always_mono; [|exact A]. intros d Hd. by left.
    - eapply list.Forall_impl; [exact T'|]. intros f Hf j d Hj Hd. left. by apply Hf. }
  assert (Hcs : can_shrink ps n (pages_are V (dbSize (pg s2))) s3).
  { split; [|done|done|by rewrite Hdisk]. intros d Hd q Hq Hql. rewrite <- (Hd q Hq Hql). apply db_page_ext.
    intros j Hj. apply bat_trunc. nia. }
  pose proof (wp_run _ _ _ _ _ (wp_CommitPhaseTwo ps n orig Hset (pages_are V (dbSize (pg s2))) rs N s3 EI Hcs ltac:(apply C6) ltac:(apply C6)) E2) as Y.
  split_and!; [|done|by intros q Hq _| |].
  - intros q d Hq. pose proof (Hc q d Hq) as H. split_and!; [apply H..|]. by apply C2.
  - destruct o as [rc|rc|]; [apply Y|done|done].
  - destruct o as [rc|rc|]; [|done|done]. exists rc. split; [done|]. apply Y.
Qed.
End Run.

(** ** A small transaction *)

Module Demo.
#[local] Instance demo : World := {|
  ioRc := fun _ => 0; partial := fun _ => 0; mallocOk := fun _ => true; busy := fun _ => O; hint := fun _ => 0;
  randomness := fun _ => 7; hasMoved := fun _ => false; noSync := false; fullSync := true; extraSync := true;
  exclusiveMode := false; syncFlags := SQLITE_SYNC_NORMAL; journalMode := PAGER_JOURNALMODE_DELETE;
  journalSizeLimit := -1; osSectorSize := 512; iDc := 0; powersafe := true |}.
(** Two pages; the second is free, and the transaction uses it. *)
Definition db0 : old_db := mkOld (replicate 1024 1) {[2]}.
Definition pager0 : Pager :=
  mkPager PAGER_READER SHARED_LOCK SQLITE_OK false 0 2 0 2 0 1000 512 512 0 0 0 0 0 None (zeros 16) false 1.
Definition s0 : pst := mkPst pager0 {[1 := mkPg (replicate 512 1) false false false false]} (mkFile [] []) (mkFile (old_data db0) []) 0 [].
Definition s1 : pst := snd (sqlite3PagerBegin true s0).
Definition s2 : pst := snd (sqlite3PagerWrite 1 s1).
Definition page1 : bytes := replicate 512 2.
Definition s3 : pst := set_pc (alter (set_pData page1) 1 (pc s2)) s2.
Definition s4 : pst := snd (sqlite3PagerGet [] 2 PAGER_GET_NOCONTENT s3).
Definition s5 : pst := snd (sqlite3PagerWrite 2 s4).
Definition page2 : bytes := replicate 512 3.
Definition s6 : pst := set_pc (alter (set_pData page2) 2 (pc s5)) s5.
Definition s7 : pst := snd (sqlite3PagerCommitPhaseOne [] false s6).
Definition old0 : Z -> option bytes := old_contents 512 2 db0.

Lemma demo_setting : setting 512 2.
Proof.
  split; [vm_compute; split; congruence|vm_compute; split; congruence|lia|].
  split; try done; [by left|by left].
Qed.
Lemma crash_synced d0 d : crash sector (mkFile d0 []) d -> d = d0.
Proof. apply crashes_nil_inv. Qed.
Lemma demo_reader : reader 512 2 db0 s0.
Proof.
  split; try done.
  - split; [apply zeros_ok|done].
  - apply map_Forall_singleton. split; try done.
    split; [apply Forall_replicate; lia|done].
  - by apply map_Forall_singleton.
  - intros d ->%crash_synced. apply cold_short; [constructor|done].
  - intros d ->%crash_synced. split_and!; [apply Forall_replicate; lia|done|done].
Qed.
(** Page 2 is not journalled: nothing of it has to be synced. *)
Lemma demo_steps : exists C, rtc (tx_step 512 2 db0) (s1, old0) (s6, C) /\ C 1 = Some page1 /\ C 2 = Some page2.
Proof.
  eexists. split.
  - eapply rtc_l; [eapply (tx_write _ _ _ 1 (mkPg (replicate 512 1) false false false false) _ _ s2); [by vm_compute|by vm_compute]|].
    eapply rtc_l; [eapply (tx_edit _ _ _ 1 (mkPg (replicate 512 1) true true true false) page1);
      [split; [by vm_compute|by vm_compute]|apply Forall_replicate; lia|done]|].
    eapply rtc_l; [eapply (tx_get _ _ _ [] 2 PAGER_GET_NOCONTENT _ _ s4); [lia|left; set_solver|by vm_compute]|].
    eapply rtc_l; [eapply (tx_write _ _ _ 2 (mkPg (zeros 512) false false false false) _ _ s5); [by vm_compute|by vm_compute]|].
    eapply rtc_l; [eapply (tx_edit _ _ _ 2 (mkPg (zeros 512) true true false false) page2);
      [split; [by vm_compute|by vm_compute]|apply Forall_replicate; lia|done]|].
    apply rtc_refl.
  - change (no_content PAGER_GET_NOCONTENT) with true. cbv iota. rewrite fn_lookup_insert. split.
    + by rewrite fn_lookup_insert_ne, fn_lookup_insert_ne, fn_lookup_insert_ne, fn_lookup_insert by done.
    + by rewrite fn_lookup_insert.
Qed.
Lemma demo_begin : sqlite3PagerBegin true s0 = (Ret SQLITE_OK, s1).
Proof. by vm_compute. Qed.
Lemma demo_state : eState (pg s6) = PAGER_WRITER_CACHEMOD.
Proof. by vm_compute. Qed.
Lemma demo_phase_one : sqlite3PagerCommitPhaseOne [] false s6 = (Ret SQLITE_OK, s7).
Proof. by vm_compute. Qed.

Lemma transaction_is_atomic_witness :
  (exists rc, Ret SQLITE_OK = Ret rc) /\ Forall (safe_pair 512 2 db0) (trail s7).
Proof.
  destruct demo_steps as (C & Hs & _).
  apply (transaction_is_atomic 512 2 db0 demo_setting true s0 s1 s6 C _ s7 demo_reader demo_begin Hs).
  eapply (last_commit _ _ []). exact demo_phase_one.
Defined.
Lemma commit_is_atomic_witness :
  exists V, counted page1 (V 1) /\ V 2 = page2 /\ f_pend (df s7) = [] /\ pages_are 512 V 2 (f_disk (df s7)) /\
    Forall (either_pair 512 2 db0 (pages_are 512 V 2)) (trail (snd (sqlite3PagerCommitPhaseTwo s7))) /\
    cold (f_cur (jf (snd (sqlite3PagerCommitPhaseTwo s7)))).
Proof.
  destruct demo_steps as (C & Hs & C1 & C2).
  assert (En : dbSize (pg s6) = 2) by (by vm_compute).
  destruct (commit_is_atomic 512 2 db0 demo_setting true s0 s1 s6 C [] s7 _ _ demo_reader demo_begin Hs
    ltac:(by rewrite demo_state) demo_phase_one (surjective_pairing _)) as (V & HV & [H1 H2] & T & rc & Hrc & H).
  rewrite En in H2, T. assert (E : fst (sqlite3PagerCommitPhaseTwo s7) = Ret SQLITE_OK) by (by vm_compute).
  assert (Er : rc = SQLITE_OK) by congruence. exists V.
  exact (conj (proj2 (proj2 (HV 1 page1 C1))) (conj (proj2 (proj2 (HV 2 page2 C2))) (conj H1 (conj H2 (conj T (proj1 (H Er))))))).
Defined.
End Demo.
