(* ===== verification/JrnlPlay.v ===== *)
(** * Recovery: the playback of a journal

    After a power loss the next connection finds the journal and plays it back
    ([pager_playback] with [isHot]).  When the journal has the original content
    of the pages that differ, this gives the original database, and a power loss
    during the recovery leaves files that can be recovered from again. *)
From stdpp Require Import gmap.
From S2P Require Import Prelude Bits Bytes Varint Wal WalIndex WalRecover WalRecovery WalWrite WalFile WalSeal WalTx WalSteps Jrnl JrnlFile JrnlSteps JrnlSync JrnlWrite JrnlCache JrnlCommit JrnlEnd.

(** Some request or allocation of the world fails. *)
Definition faulty `{W : World} : Prop := exists k, ioRc k <> SQLITE_OK \/ mallocOk k = false.
(** The code of such a failure. *)
Definition bad `{W : World} (rc : Z) : Prop :=
  rc <> SQLITE_OK /\ rc <> SQLITE_DONE /\ rc <> SQLITE_IOERR_SHORT_READ /\ faulty.

Section Play.
Context `{W : World} (ps n : Z) (orig : old_db) (j : bytes) (rs : list jrec) (N : Z).
Abbreviation Sz := sector.
Abbreviation PG := (ps + 8).
Hypothesis (Hset : setting ps n) (Hdone : forall k, ioRc k <> SQLITE_DONE).
Hypothesis (Hpow : not_pow2 ps = false /\ not_pow2 Sz = false).
Hypothesis (Hj : jimg Sz ps n rs N j) (Hgood : good_recs ps n (lck ps) orig rs).
Let HS : 32 <= Sz := proj1 (se_sector _ _ Hset).
Let HSps : Sz <= ps := proj2 (se_sector _ _ Hset).
Let Hps : 512 <= ps <= SQLITE_MAX_PAGE_SIZE := se_page _ _ Hset.
Let Hn : 0 <= n < 0xffffffff := se_orig _ _ Hset.
Let Hdu : durable := se_durable _ _ Hset.
Abbreviation trail_safe := (trail_safe ps n orig).

(** *** Reading the journal *)

Lemma bad_io k : ioRc k <> SQLITE_OK -> bad (ioRc k).
Proof. intros H. split_and!; [done|apply Hdone|apply (du_short Hdu)|exists k; by left]. Qed.
Lemma bad_neq rc : bad rc -> (rc =? SQLITE_OK) = false /\ (rc =? SQLITE_DONE) = false /\ (rc =? SQLITE_IOERR_SHORT_READ) = false.
Proof. intros (A & B & C & _). by rewrite !Z.eqb_neq. Qed.

Lemma wp_read_j m off s :
  jf s = mkFile j [] -> 0 <= off -> 0 < m -> off + m <= blen j ->
  wp (os_read JF m off) (returns (fun r s' => idle s s' /\ (bad (fst r) \/ r = (SQLITE_OK, seg j off m)))) s.
Proof.
  intros Ej Ho Hm Hl. apply (wp_os_read JF m off); cbn [get_file]; rewrite ?Ej; try change (f_cur (mkFile j [])) with j.
  - intros k Hk. split; [done|]. left. by apply bad_io.
  - intros Hs. apply seg_short in Hs; lia.
  - intros _. split; [done|]. by right.
Qed.
Lemma wp_read32_j off s :
  jf s = mkFile j [] -> 0 <= off -> off + 4 <= blen j ->
  wp (read32bits JF off) (returns (fun r s' => idle s s' /\ (bad (fst r) \/ r = (SQLITE_OK, at4 j off)))) s.
Proof.
  intros Ej Ho Hl. unfold read32bits. eapply wp_seq; [by apply (wp_read_j 4 off)|]. intros [rc d] s1 [Hi [Hb|[= -> ->]]].
  - cbn [fst] in Hb. destruct (bad_neq _ Hb) as (-> & _). apply wp_ret. split; [done|by left].
  - change (SQLITE_OK =? SQLITE_OK) with true. cbv iota.
    assert (L : blen (seg j off 4) = 4) by (unfold blen at 1; rewrite seg_len by lia; done).
    rewrite Get4byte_in by (done || lia || (apply seg_ok, Hj)). rewrite at4_of_seg by lia. rewrite Z.add_0_r. wp_go. split; [done|by right].
Qed.

(** *** The state during the playback *)

Definition hot_pg (p : Pager) : Prop :=
  sectorSize p = Sz /\ nRefSum p = 0 /\ eState p = PAGER_OPEN /\ eLock p = EXCLUSIVE_LOCK /\ jOpen p = true /\ blen j <= journalHdr p.
Record hot (s : pst) : Prop := {
  ho_pg : hot_pg (pg s);
  ho_pc : pc s = ∅;
  ho_jf : jf s = mkFile j [];
  ho_d : always Sz (dimg ps n orig rs) (df s);
  ho_trail : trail_safe s;
}.
(** Only the pager and the count of requests differ. *)
Definition pg_step (f : Pager -> Pager) (s s' : pst) : Prop :=
  pg s' = f (pg s) /\ pc s' = pc s /\ jf s' = jf s /\ df s' = df s /\ trail s' = trail s.
Lemma hot_step f s s' : hot s -> pg_step f s s' -> hot_pg (f (pg s)) -> hot s'.
Proof.
  intros [A B C D E] (E1 & E2 & E3 & E4 & E5) H. split; rewrite ?E1, ?E2, ?E3, ?E4; try done.
  unfold JrnlSteps.trail_safe. by rewrite E5.
Qed.
Lemma hot_idle s s' : hot s -> idle s s' -> hot s'.
Proof. intros H Hi. apply (hot_step id s s'); [done|exact Hi|apply H]. Qed.

Lemma wp_hot_reset s :
  hot s -> wp pager_reset (returns (fun _ s' => exists v, pg_step (set_iDataVersion v) s s')) s.
Proof.
  intros [(A1 & A2 & A) B C D E]. unfold pager_reset, setp. wp_go. eexists. split; [done|]. split_and!; try done.
  cbn [pg pc set_pg set_pc nRefSum set_iDataVersion pageSize]. rewrite A2, B. unfold sqlite3PcacheClear, sqlite3PcacheTruncate. cbn.
  by rewrite map_filter_empty.
Qed.

(** Where the playback is, and how much it has done. *)
Definition place (p p' : Pager) : Prop := journalOff p' = journalOff p /\ cksumInit p' = cksumInit p.
Lemma wp_hot_SetPagesize x s :
  hot s -> 0 < x -> wp (sqlite3PagerSetPagesize x) (returns (fun r s' => hot s' /\ df s' = df s /\ place (pg s) (pg s') /\
    (bad (fst r) \/ fst r = SQLITE_OK /\ pageSize (pg s') = x))) s.
Proof.
  intros Hh Hx. pose proof (ho_pg _ Hh) as (A1 & A2 & A3 & A4 & A5 & A6). unfold sqlite3PagerSetPagesize, getp, setp.
  wp_go. unfold id. rewrite A2, A3. change (0 =? 0) with true. cbn [andb]. destruct (Z.eqb_spec x 0); [lia|]. cbn [negb andb].
  destruct (Z.eqb_spec x (pageSize (pg s))) as [->|Hne]; cbn [negb].
  { wp_go. split_and!; try done. right. done. }
  change (PAGER_OPEN <? PAGER_OPEN) with false. cbv iota. wp_go. change (SQLITE_OK =? SQLITE_OK) with true. cbn [negb]. wp_go.
  unfold malloc, wp. cbn [fst snd after]. destruct (mallocOk (nio s)) eqn:Em; cbn [negb].
  2:{ wp_go. split_and!; try done; [by eapply hot_idle|]. left. split_and!; try done. exists (nio s). by right. }
  assert (H1 : hot (tick s)) by by eapply hot_idle.
  eapply wp_seq; [by apply wp_hot_reset|]. intros [] s1 (v & Hs). pose proof (hot_step _ _ _ H1 Hs) as H2.
  destruct Hs as (E1 & E2 & E3 & E4 & E5). specialize (H2 ltac:(done)). wp_go.
  split; [|split; [exact E4|split; [|by right]]].
  - eapply (hot_step (fun p => set_pageSize x (set_dbSize (u32 ((0 + x - 1) / x)) p)) s1); [done|done|]. by rewrite E1.
  - unfold place. cbn [pg set_pg]. by rewrite E1.
Qed.

(** *** Headers *)

Lemma wp_hdr_magic h s :
  hot s -> 0 <= h -> h + Sz <= blen j ->
  wp (let* r := os_read JF 8 h in let '(rc, aMagic) := r in
      ret (if negb (rc =? SQLITE_OK) then rc else if bool_decide (aMagic = aJournalMagic) then SQLITE_OK else SQLITE_DONE))
     (returns (fun rc s' => idle s s' /\ (bad rc \/ rc = SQLITE_OK /\ magic_at j h \/ rc = SQLITE_DONE /\ ~ magic_at j h))) s.
Proof.
  intros Hh H0 Hl. eapply wp_seq; [apply (wp_read_j 8 h); [apply Hh|lia..]|]. intros [rc d] s1 [Hi [Hb|[= -> ->]]]; wp_go.
  - cbn [fst] in Hb. destruct (bad_neq _ Hb) as (-> & _). cbn [negb]. split; [done|by left].
  - change (SQLITE_OK =? SQLITE_OK) with true. cbn [negb]. split; [done|]. right. case_bool_decide as E.
    + left. split; [done|]. apply magic_seg; [lia|lia|done].
    + right. split; [done|]. intros Hm. apply E. apply magic_seg; [lia|lia|done].
Qed.
Lemma wp_hdr_none h s :
  hot s -> journalHdrOffset (pg s) = h -> 0 <= h -> ~ magic_at j h ->
  wp (readJournalHdr true (blen j)) (returns (fun r s' => hot s' /\ df s' = df s /\
    dbSize (pg s') = dbSize (pg s) /\ pageSize (pg s') = pageSize (pg s) /\ journalOff (pg s') = h /\
    (bad (fst (fst r)) \/ fst (fst r) = SQLITE_DONE))) s.
Proof.
  intros Hh Eh H0 Hnm. pose proof (ho_pg _ Hh) as (A1 & A). unfold readJournalHdr, getp, setp. wp_go. unfold id. rewrite Eh.
  match goal with |- wp _ _ ?st => set (s1 := st) end.
  assert (H1 : hot s1) by (apply (hot_step (set_journalOff h) s); [done|done|by split]). unfold JOURNAL_HDR_SZ. rewrite A1.
  destruct (Z.ltb_spec (blen j) (h + Sz)) as [Hs|Hl].
  { wp_go. split_and!; try done. by right. }
  cbn [orb]. eapply wp_seq; [by apply (wp_hdr_magic h s1)|]. intros rc s2 [Hi Hrc].
  assert (H2 : hot s2) by by eapply hot_idle. destruct Hi as (E1 & E2 & E3 & E4 & E5).
  assert (Hne : (rc =? SQLITE_OK) = false).
  { destruct Hrc as [Hb|[[_ Hm]|[-> _]]]; [by apply bad_neq|done|done]. }
  rewrite Hne. cbn [negb]. wp_go. split; [done|]. rewrite E1, E4. split_and!; try done. cbn [fst].
  destruct Hrc as [Hb|[[_ Hm]|[-> _]]]; [by left|done|by right].
Qed.

(** A sequence of reads of words: one read. *)
Lemma wp_hot_word {B} off (f : Z * Z -> M pst B) (Q : B -> pst -> Prop) s :
  hot s -> 0 <= off -> off + 4 <= blen j ->
  (forall rc v s', idle s s' -> bad rc -> wp (f (rc, v)) (returns Q) s') ->
  (forall s', idle s s' -> wp (f (SQLITE_OK, at4 j off)) (returns Q) s') ->
  wp (read32bits JF off) (after f (returns Q)) s.
Proof.
  intros Hh H0 Hl H1 H2. eapply wp_after; [apply (wp_read32_j off s); [apply Hh|done|done]|].
  intros [rc v] s' [Hi [Hb|[= -> ->]]]; auto.
Qed.

Definition at_segment (h ck : Z) (p p' : Pager) : Prop :=
  journalOff p' = h + Sz /\ cksumInit p' = ck /\ (h = 0 -> pageSize p' = ps) /\
  (h <> 0 -> pageSize p' = pageSize p /\ dbSize p' = dbSize p).
Lemma wp_hdr_seg h ck k s :
  hot s -> journalHdrOffset (pg s) = h -> 0 <= h -> magic_at j h -> at4 j (h + 8) = k -> fields_at Sz ps n j h ck ->
  wp (readJournalHdr true (blen j)) (returns (fun r s' => hot s' /\ df s' = df s /\
    (bad (fst (fst r)) \/ r = (SQLITE_OK, k, n) /\ at_segment h ck (pg s) (pg s')))) s.
Proof.
  intros Hh Eh H0 Hm Ek (F1 & F2 & F3 & F4 & F5). pose proof (ho_pg _ Hh) as (A1 & A). unfold readJournalHdr, getp, setp. wp_go. unfold id. rewrite Eh.
  match goal with |- wp _ _ ?st => set (s1 := st) end.
  assert (H1 : hot s1) by (apply (hot_step (set_journalOff h) s); [done|done|by split]). unfold JOURNAL_HDR_SZ. rewrite A1.
  destruct (Z.ltb_spec (blen j) (h + Sz)) as [Hs|Hl]; [lia|].
  cbn [orb]. eapply wp_seq; [by apply (wp_hdr_magic h s1)|]. intros rc s2 [Hi Hrc].
  assert (H2 : hot s2) by by eapply hot_idle.
  destruct Hrc as [Hb|[[-> _]|[_ Hm']]]; [|clear Hm|done].
  { destruct (bad_neq _ Hb) as (-> & _). cbn [negb]. wp_go. split_and!; [done|apply Hi|by left]. }
  change (SQLITE_OK =? SQLITE_OK) with true. cbn [negb].
  assert (Hd2 : df s2 = df s) by apply Hi.
  assert (Hfail : forall rc v w s', idle s2 s' -> bad rc ->
    hot s' /\ df s' = df s /\ (bad (fst (fst (rc, v, w))) \/ (rc, v, w) = (SQLITE_OK, k, n) /\ at_segment h ck (pg s) (pg s'))).
  { intros rc v w s' Hi' Hb. split_and!; [by eapply hot_idle| |by left]. destruct Hi' as (_ & _ & _ & -> & _). done. }
  apply wp_bind, wp_hot_word; [done|lia|lia| |].
  { intros rc v s3 Hi3 Hb. destruct (bad_neq _ Hb) as (-> & _). cbn [negb]. wp_go. by apply Hfail. }
  intros s3 Hi3. change (SQLITE_OK =? SQLITE_OK) with true. cbn [negb]. rewrite Ek.
  set (K := fun s' => hot s' /\ df s' = df s /\ pageSize (pg s') = pageSize (pg s) /\ dbSize (pg s') = dbSize (pg s) /\
    journalOff (pg s') = h /\ cksumInit (pg s') = ck).
  assert (Kidle : forall s s', K s -> idle s s' -> K s').
  { intros x y (K1 & K2 & K3) Hxy. split; [by eapply hot_idle|]. destruct Hxy as (E1 & _ & _ & E4 & _). by rewrite E1, E4. }
  assert (Kfail : forall rc v w s', K s' -> bad rc ->
    hot s' /\ df s' = df s /\ (bad (fst (fst (rc, v, w))) \/ (rc, v, w) = (SQLITE_OK, k, n) /\ at_segment h ck (pg s) (pg s'))).
  { intros rc v w s' (K1 & K2 & _) Hb. split_and!; [done|done|by left]. }
  apply wp_bind, wp_hot_word; [by eapply hot_idle|lia|lia| |].
  { intros rc v s4 Hi4 Hb. destruct (bad_neq _ Hb) as (-> & _). cbn [negb]. wp_go. apply Hfail; [|done].
    destruct Hi3 as (? & ? & ? & ? & ?), Hi4 as (? & ? & ? & ? & ?). split_and!; congruence. }
  intros s4 Hi4. change (SQLITE_OK =? SQLITE_OK) with true. cbn [negb]. rewrite F1. wp_go.
  match goal with |- wp _ _ ?st => set (s5 := st) end. assert (K5 : K s5).
  { destruct Hi as (I1 & I2 & I3 & I4 & I5), Hi3 as (? & ? & ? & ? & ?), Hi4 as (? & ? & ? & ? & ?).
    assert (Ep : pg s4 = set_journalOff h (pg s)) by (transitivity (pg s1); [congruence|done]). unfold K. cbn [pg df s5 set_pg]. rewrite Ep. split_and!; try done; [|congruence].
    apply (hot_step (set_cksumInit ck) s4); [|done|rewrite Ep; by split]. eapply hot_idle; [|by split]. eapply hot_idle; [exact H2|]. split_and!; congruence. }
  apply wp_hot_word; [apply K5|lia|lia| |].
  { intros rc v s6 Hi6 Hb. destruct (bad_neq _ Hb) as (-> & _). cbn [negb]. wp_go. apply Kfail; [by eapply Kidle|done]. }
  intros s6 Hi6. change (SQLITE_OK =? SQLITE_OK) with true. cbn [negb]. rewrite F2. pose proof (Kidle _ _ K5 Hi6) as K6.
  destruct (Z.eqb_spec h 0) as [->|Hne]; cbn [negb].
  2:{ unfold advance, setp. wp_go. destruct K6 as (L1 & L2 & L3 & L4 & L5 & L6). split; [|split; [done|right; split; [done|]]].
      - eapply (hot_step (fun p => set_journalOff (journalOff p + JOURNAL_HDR_SZ p) p) s6); [done|done|]. by destruct L1 as [].
      - unfold at_segment, JOURNAL_HDR_SZ. cbn. rewrite L5, (proj1 (ho_pg _ L1)). by split_and!. }
  apply wp_bind, wp_hot_word; [apply K6|lia|lia| |].
  { intros rc v s7 Hi7 Hb. destruct (bad_neq _ Hb) as (-> & _). cbn [negb]. wp_go. apply Kfail; [by eapply Kidle|done]. }
  intros s7 Hi7. change (SQLITE_OK =? SQLITE_OK) with true. cbn [negb]. rewrite F3. pose proof (Kidle _ _ K6 Hi7) as K7.
  apply wp_bind, wp_hot_word; [apply K7|lia|lia| |].
  { intros rc v s8 Hi8 Hb. destruct (bad_neq _ Hb) as (-> & _). cbn [negb]. wp_go. apply Kfail; [by eapply Kidle|done]. }
  intros s8 Hi8. change (SQLITE_OK =? SQLITE_OK) with true. cbn [negb]. rewrite F4. pose proof (Kidle _ _ K7 Hi8) as K8.
  destruct (Z.eqb_spec ps 0); [lia|]. destruct Hpow as [-> ->].
  destruct (Z.ltb_spec ps 512), (Z.ltb_spec Sz 32), (Z.ltb_spec SQLITE_MAX_PAGE_SIZE ps), (Z.ltb_spec MAX_SECTOR_SIZE Sz);
    try (unfold MAX_SECTOR_SIZE, SQLITE_MAX_PAGE_SIZE in *; lia). cbn [orb].
  destruct K8 as (L1 & L2 & L3 & L4 & L5 & L6).
  eapply wp_seq; [apply (wp_hot_SetPagesize ps s8); [done|lia]|]. intros r s9 (M1 & M2 & [M3 M4] & M5). unfold advance, setp. wp_go.
  split; [|split; [cbn; congruence|]].
  - eapply (hot_step (fun p => set_journalOff (journalOff p + JOURNAL_HDR_SZ (set_sectorSize Sz p)) (set_sectorSize Sz p)) s9); [done|done|].
    by destruct M1 as [(? & ?)].
  - destruct M5 as [Hb|[E M5]]; [left; done|right]. cbn [fst snd]. rewrite E. split; [done|]. unfold at_segment, JOURNAL_HDR_SZ. cbn.
    rewrite M3, L5, M4, L6. by split_and!.
Qed.

(** *** Records *)

Lemma chain_aligned d h rs' e : chain Sz ps n d h rs' e -> 0 <= h -> h mod Sz = 0 -> 0 <= e /\ e mod Sz = 0.
Proof.
  assert (S0 : 0 < Sz) by lia.
  induction 1 as [|h ck rs1 rs2 e A B C D E IH]; intros Hh Ha; [done|].
  assert (0 <= rlen rs1 * PG) by (apply Z.mul_nonneg_nonneg; [unfold rlen|]; lia).
  destruct (sector_up_spec Sz (h + Sz + rlen rs1 * PG) S0) as [U1 U2]; [clear -S0 Hh H; lia|].
  apply IH; [clear -U1 S0 Hh H; lia|done].
Qed.
Lemma hot_files s : hot s -> file_inv ps n orig rs N s.
Proof.
  intros [A B C D E]. split; [|done|done| |done].
  - intros d Hd. rewrite C in Hd. apply crashes_nil_inv in Hd as ->. exact Hj.
  - destruct Hj as (_ & Hc & _). apply (chain_aligned _ _ _ _ Hc); [lia|]. apply Z.mod_0_l. lia.
Qed.
Lemma files_hot s s' : hot s -> file_inv ps n orig rs N s' -> pc s' = pc s -> jf s' = jf s -> hot_pg (pg s') -> hot s'.
Proof. intros [A B C D E] I E1 E2 H. split; [done|congruence|congruence|apply I|apply I]. Qed.

(** The result is [P], or an error of the world. *)
Definition or_bad (P : pst -> Prop) : out Z -> pst -> Prop :=
  returns (fun rc s => trail_safe s /\ (rc = SQLITE_OK /\ P s \/ bad rc)).
Lemma code_or_bad (A : M pst Z) P s :
  wp A (ends ps n orig P) s -> (exists s', A s = (Ret (ioRc (nio s)), s')) -> wp A (or_bad P) s.
Proof.
  intros H [s' E]. unfold wp in *. rewrite E in *. cbn [fst snd] in *. destruct H as [T H]. split; [done|].
  destruct (Z.eqb_spec (ioRc (nio s)) SQLITE_OK) as [Eq|Hne]; [left; by split; [|apply H]|right; by apply bad_io].
Qed.

(** What has been done: the database has its size back, and the pages of [rs1]. *)
Record played (rs1 : list jrec) (s : pst) : Prop := {
  pl_hot : hot s;
  pl_ps : pageSize (pg s) = ps;
  pl_size : dbSize (pg s) = n;
  pl_len : blen (f_cur (df s)) = n * ps;
  pl_done p : 1 <= p <= n -> p ∈ pgs rs1 -> p ∉ unused orig -> db_pg ps (f_cur (df s)) p = db_pg ps orig p;
}.
Lemma played_step f rs1 s s' :
  played rs1 s -> pg_step f s s' -> hot_pg (f (pg s)) -> pageSize (f (pg s)) = ps -> dbSize (f (pg s)) = n -> played rs1 s'.
Proof.
  intros [A B C D E] Hs H1 H2 H3. pose proof (hot_step _ _ _ A Hs H1) as A'. destruct Hs as (E1 & _ & _ & E4 & _).
  split; rewrite ?E1, ?E4; done.
Qed.
Lemma played_idle rs1 s s' : played rs1 s -> idle s s' -> played rs1 s'.
Proof. intros P Hi. pose proof (ho_pg _ (pl_hot _ _ P)). by apply (played_step id rs1 s s' P Hi); [..|apply (pl_ps _ _ P)|apply (pl_size _ _ P)]. Qed.

(** A record of the journal. *)
Definition rec_of (r : jrec) : Prop := good_rec ps n (lck ps) orig r /\ fst r ∈ pgs rs.

Lemma db_pg_write d r p :
  rec_of r -> blen (snd r) = ps -> blen d = n * ps -> 1 <= p <= n ->
  blen (log_write d ((fst r - 1) * ps) (snd r)) = n * ps /\
  db_pg ps (log_write d ((fst r - 1) * ps) (snd r)) p = if p =? fst r then snd r else db_pg ps d p.
Proof.
  intros [(Hr & _ & _) _] Hl Hd Hp. assert (L : blen (log_write d ((fst r - 1) * ps) (snd r)) = n * ps).
  { rewrite log_write_len by nia. case_match; nia. }
  split; [done|]. destruct (Z.eqb_spec p (fst r)) as [->|Hne].
  - pose proof (seg_write d ((fst r - 1) * ps) (snd r)) as X. rewrite Hl in X. apply X. nia.
  - apply (db_pg_ext ps); [lia|lia|nia|nia|]. intros i Hi. apply bat_write_out; nia.
Qed.
Lemma wp_store_rec rs1 off r s :
  played rs1 s -> rec_of r -> bytes_ok (snd r) -> blen (snd r) = ps -> off <= blen j ->
  wp (playback_store (fst r) off (snd r)) (or_bad (fun s' => played (rs1 ++ [r]) s' /\ place (pg s) (pg s'))) s.
Proof.
  intros P Hr Kr Lr Ho. pose proof (pl_hot _ _ P) as Hh. pose proof (ho_pg _ Hh) as (A1 & A2 & A3 & A4 & A5 & A6).
  pose proof Hr as [(Hr1 & Hr2 & Hr3) Hr4]. unfold playback_store, getp, setp. wp_go. unfold id.
  eapply (wp_after _ _ (fun _ s1 => played rs1 s1 /\ place (pg s) (pg s1))).
  { case_match; wp_go; (split; [|done]); [|done]. eapply (played_step (set_nReserve (bat (snd r) 20))); [done|done|done|apply P|apply P]. }
  intros [] s1 [P1 [Q1 Q2]]. rewrite A3, (du_sync Hdu), (proj2 (Z.leb_le _ _) (Z.le_trans _ _ _ Ho A6)), (pl_ps _ _ P).
  change (PAGER_OPEN =? PAGER_OPEN) with true. rewrite orb_true_r. cbn [orb andb]. wp_go.
  eapply wp_after.
  { eapply (wp_and _ _ (fun _ s' => pc s' = pc s1)); [|done]. apply code_or_bad; [|apply write_code].
    apply (wp_write_d ps n orig HS ltac:(lia) ltac:(lia) rs N _ _ s1); [apply hot_files, P1|].
    split_and!; [done|nia|]. intros p Hp Hni. rewrite Lr. assert (p <> fst r) by (intros ->; apply Hni, elem_known; by left). nia. }
  intros rc s2 [[T2 H2] Ec2]. cbn beta in H2, Ec2.
  set (R := fun s' => rc = SQLITE_OK /\ played (rs1 ++ [r]) s' /\ place (pg s) (pg s') \/ bad rc).
  wp_go. eapply (wp_after _ _ (fun _ s3 => pc s3 = pc s2 /\ trail s3 = trail s2 /\ R s3)).
  - assert (HR : forall f s3, (f = id \/ f = set_dbFileSize (fst r)) -> pg_step f s2 s3 -> R s3).
    { intros f s3 Hf Hs. destruct H2 as [[-> (I2 & [M1 M2] & Ej & Ed)]|Hb]; [|by right]. left. split; [done|].
      assert (Ef : journalOff (f (pg s2)) = journalOff (pg s2) /\ cksumInit (f (pg s2)) = cksumInit (pg s2) /\
        pageSize (f (pg s2)) = pageSize (pg s2) /\ dbSize (f (pg s2)) = dbSize (pg s2) /\ (hot_pg (pg s2) -> hot_pg (f (pg s2))))
        by (by destruct Hf as [->| ->]).
      destruct Ef as (F1 & F2 & F3 & F4 & F5).
      assert (Hh2 : hot s2) by (eapply files_hot; [apply P1|done|done|done|]; rewrite M1; apply P1).
      pose proof (hot_step f _ _ Hh2 Hs (F5 (ho_pg _ Hh2))) as Hh3. destruct Hs as (E1 & E2 & E3 & E4 & E5).
      split; [|split; rewrite E1; congruence]. split; rewrite ?E1, ?E4; [done|rewrite F3, M1; apply P1|rewrite F4, M1; apply P1| |].
      - rewrite Ed. apply (db_pg_write _ r 1); try done; [apply P1|lia].
      - intros p Hpn Hp Hu. rewrite pgs_app in Hp.
        destruct (db_pg_write (f_cur (df s1)) r p Hr Lr (pl_len _ _ P1) Hpn) as [_ E]. rewrite Ed, E.
        destruct (Z.eqb_spec p (fst r)) as [->|Hne]; [by apply Hr3|]. apply (pl_done _ _ P1); [done| |done]. apply elem_of_union in Hp as [|Hp]; [done|].
        apply elem_pgs in Hp. cbn in Hp. apply list_elem_of_singleton in Hp. done. }
    case_match; wp_go; (split_and!; [done|done|]).
    + apply (HR (set_dbFileSize (fst r))); [by right|done].
    + apply (HR id); [by left|done].
  - intros [] s3 (E1 & E2 & HR). wp_go. cbn [returns okp]. wp_go. assert (Ec : pc s3 = ∅) by (rewrite E1, Ec2; apply P1).
    rewrite Ec, lookup_empty. wp_go. split; [unfold JrnlSteps.trail_safe; by rewrite E2|].
    destruct HR as [(-> & HR)|Hb]; [by left|by right].
Qed.

Lemma wp_one_page rs1 off ck r s :
  played rs1 s -> rec_at ps j off ck r -> rec_of r -> 0 <= off -> cksumInit (pg s) = ck ->
  wp (pager_playback_one_page off) (returns (fun x s' => trail_safe s' /\
    (x = (SQLITE_OK, off + PG) /\ played (rs1 ++ [r]) s' /\ place (pg s) (pg s') \/ bad (fst x)))) s.
Proof.
  intros P (R1 & R2 & R3 & R4) Hr H0 Eck. pose proof (pl_hot _ _ P) as Hh. pose proof Hr as [(Hr1 & Hr2 & Hr3) Hr4].
  assert (Hlen : blen (snd r) = ps) by (rewrite <- R2; unfold blen at 1; rewrite seg_len by lia; lia).
  assert (Hok : bytes_ok (snd r)) by (rewrite <- R2; apply seg_ok, Hj).
  unfold pager_playback_one_page, getp. wp_go. unfold id. rewrite (pl_ps _ _ P), (pl_size _ _ P).
  assert (Hbad : forall rc o s', played rs1 s' -> bad rc -> trail_safe s' /\
    ((rc, o) = (SQLITE_OK, off + PG) /\ played (rs1 ++ [r]) s' /\ place (pg s) (pg s') \/ bad (fst (rc, o)))).
  { intros rc o s' P' Hb. split; [apply P'|by right]. }
  apply wp_hot_word; [done|lia|lia| |].
  { intros rc v s1 Hi Hb. destruct (bad_neq _ Hb) as (-> & _). cbn [negb]. wp_go. apply Hbad; [by eapply played_idle|done]. }
  intros s1 Hi1. pose proof (played_idle _ _ _ P Hi1) as P1. change (SQLITE_OK =? SQLITE_OK) with true. cbn [negb].
  eapply wp_seq; [apply wp_read_j; [apply P1|lia|lia|lia]|]. intros [rc d] s2 [Hi2 [Hb|[= -> ->]]].
  { cbn [fst] in Hb. destruct (bad_neq _ Hb) as (-> & _). cbn [negb]. wp_go. apply Hbad; [by eapply played_idle|done]. }
  pose proof (played_idle _ _ _ P1 Hi2) as P2. change (SQLITE_OK =? SQLITE_OK) with true. cbn [negb]. rewrite R1, R2.
  unfold lckPgno. rewrite (pl_ps _ _ P). fold (lck ps). destruct (Z.eqb_spec (fst r) 0); [lia|]. destruct (Z.eqb_spec (fst r) (lck ps)); [done|].
  cbn [orb]. destruct (Z.ltb_spec n (fst r)); [lia|]. replace (off + ps + 8 - 4) with (off + 4 + ps) by lia.
  apply wp_bind, wp_hot_word; [apply P2|lia|lia| |].
  { intros rc v s3 Hi Hb. destruct (bad_neq _ Hb) as (-> & _). cbn [negb]. wp_go. apply Hbad; [by eapply played_idle|done]. }
  intros s3 Hi3. pose proof (played_idle _ _ _ P2 Hi3) as P3. change (SQLITE_OK =? SQLITE_OK) with true. cbn [negb].
  rewrite R3, Eck, Z.eqb_refl. cbn [negb].
  eapply wp_seq; [apply (wp_store_rec rs1); [done|done|done|done|lia]|]. intros rc s4 [T4 H4]. wp_go. split; [done|].
  destruct H4 as [(-> & P4 & Q1 & Q2)|Hb]; [left|by right]. destruct Hi1 as (E1 & _), Hi2 as (E2 & _), Hi3 as (E3 & _).
  split; [f_equal; lia|]. split; [done|]. split; congruence.
Qed.

Lemma wp_records ck rs2 : forall rs1 off szJ npr s,
  played rs1 s -> recs_at ps j off ck rs2 -> Forall rec_of rs2 -> 0 <= off -> journalOff (pg s) = off -> cksumInit (pg s) = ck ->
  wp (playback_records (length rs2) szJ npr) (returns (fun x s' => trail_safe s' /\
    (fst x = None /\ played (rs1 ++ rs2) s' /\ journalOff (pg s') = off + rlen rs2 * PG \/
     exists rc, fst x = Some rc /\ bad rc))) s.
Proof.
  induction rs2 as [|r rs2 IH]; intros rs1 off szJ npr s P Hr Hf H0 Eo Ek; cbn [playback_records length].
  { wp_go. split; [apply P|]. left. rewrite app_nil_r. split_and!; [done|done|]. unfold rlen. cbn. lia. }
  destruct Hr as [Hr Hrs]. pose proof (Forall_inv Hf) as Hf1. pose proof (Forall_inv_tail Hf) as Hf2. unfold getp, setp.
  eapply (wp_seq (fun _ => False) _ _ (fun _ s1 => played rs1 s1 /\ place (pg s) (pg s1))).
  { destruct npr; [|by apply wp_ret]. eapply okp_mono; [apply wp_hot_reset, P|]. intros [] s1 (v & Hs). pose proof (ho_pg _ (pl_hot _ _ P)).
    split; [eapply (played_step (set_iDataVersion v)); [done|done|done|apply P|apply P]|]. destruct Hs as (E & _). unfold place. by rewrite E. }
  intros [] s1 [P1 [Q1 Q2]]. wp_go. rewrite Q1, Eo.
  eapply wp_after; [by apply (wp_one_page rs1 off ck r s1 P1 Hr Hf1); [|congruence]|]. intros [rc o] s2 [T2 H2]. wp_go.
  destruct H2 as [([= -> ->] & P2 & Q3 & Q4)|Hb].
  - change (SQLITE_OK =? SQLITE_OK) with true. cbv iota. rewrite (app_assoc rs1 [r] rs2 : rs1 ++ r :: rs2 = _).
    pose proof (ho_pg _ (pl_hot _ _ P2)).
    eapply okp_mono; [eapply (IH (rs1 ++ [r]) (off + PG))|]; try done; try lia.
    + eapply (played_step (set_journalOff (off + PG))); [done|done|done|apply P2|apply P2].
    + cbn. congruence.
    + intros x s3 [T3 H3]. split; [done|]. destruct H3 as [(E & P3 & E3)|H3]; [left|by right]. split_and!; [done|done|].
      rewrite E3. unfold rlen. cbn [length]. lia.
  - cbn [fst] in Hb. destruct (bad_neq _ Hb) as (-> & -> & ->). wp_go. split; [done|]. right. by exists rc.
Qed.

(** *** Segments *)

Lemma trunc_code w k s : exists s', os_truncate w k s = (Ret (ioRc (nio s)), s').
Proof. unfold os_truncate. eauto. Qed.
(** The database file gets the size it had. *)
Lemma wp_cut s :
  hot s -> pageSize (pg s) = ps ->
  wp (pager_truncate n) (or_bad (fun s' => hot s' /\ pageSize (pg s') = ps /\ place (pg s) (pg s') /\ blen (f_cur (df s')) = n * ps)) s.
Proof.
  intros Hh Ep. pose proof (ho_pg _ Hh) as (A1 & A2 & A3 & A). pose proof (always_cur _ _ _ (ho_d _ Hh)) as (_ & Hl & _).
  unfold pager_truncate, getp, setp. wp_go. unfold id. rewrite A3, Ep. change (PAGER_OPEN =? PAGER_OPEN) with true. rewrite orb_true_r.
  apply wp_bind. unfold os_size, wp. cbn [fst snd after get_file]. assert (H1 : hot (tick s)) by by eapply hot_idle.
  destruct (Z.eqb_spec (ioRc (nio s)) SQLITE_OK) as [->|Hrc]; cbn [andb].
  2:{ wp_go. split; [apply Hh|]. right. by apply bad_io. }
  destruct (Z.eqb_spec (blen (f_cur (df s))) (ps * n)) as [E|E]; cbn [negb].
  { wp_go. split; [apply Hh|]. left. split; [done|]. split_and!; try done. cbn [df tick]. lia. }
  destruct (Z.ltb_spec (ps * n) (blen (f_cur (df s)))); [|lia].
  eapply wp_seq.
  { apply code_or_bad; [|apply trunc_code]. apply (wp_trunc_d ps n orig HS ltac:(lia) ltac:(lia) rs N (ps * n) (tick s) (hot_files _ H1)). lia. }
  intros rc s2 [T2 H2]. destruct H2 as [[-> (I2 & [M1 M2] & Ej & Ed)]|Hb].
  - change (SQLITE_OK =? SQLITE_OK) with true. cbv iota. wp_go. split; [done|]. left. split; [done|].
    assert (H2 : hot s2) by (eapply (files_hot (tick s)); try done; by rewrite M1).
    split; [eapply (hot_step (set_dbFileSize n) s2); [done|done|]; by destruct H2 as [(? & ?)]|].
    cbn [pg df set_pg]. rewrite M1, Ed. split; [done|]. split; [done|]. rewrite trunc_len; lia.
  - destruct (bad_neq _ Hb) as (-> & _). wp_go. split; [done|]. by right.
Qed.

Lemma or_bad_fail A (P : pst -> Prop) s : trail_safe s -> bad A -> wp (ret A) (or_bad P) s.
Proof. intros T B. apply wp_ret. split; [done|]. by right. Qed.
Lemma wp_segment h ck rs2 rs1 fuel npr Q s :
  0 <= h -> journalHdrOffset (pg s) = h -> (h = 0 /\ rs1 = [] /\ hot s \/ h <> 0 /\ played rs1 s) ->
  magic_at j h -> at4 j (h + 8) = rlen rs2 -> fields_at Sz ps n j h ck -> recs_at ps j (h + Sz) ck rs2 -> Forall rec_of rs2 ->
  rlen rs2 < 0xffffffff ->
  (forall npr s', played (rs1 ++ rs2) s' -> journalHdrOffset (pg s') = sector_up Sz (h + Sz + rlen rs2 * PG) ->
     wp (playback_loop fuel true (blen j) npr) (or_bad Q) s') ->
  wp (playback_loop (S fuel) true (blen j) npr) (or_bad Q) s.
Proof.
  intros H0 Eh Hs Hm Ec Hf Hr Hrec Hsmall Hk. assert (Hh : hot s) by (destruct Hs as [(_ & _ & H)|[_ H]]; [done|apply H]).
  cbn [playback_loop]. unfold getp, setp. eapply wp_seq; [by apply (wp_hdr_seg h ck (rlen rs2) s Hh Eh H0 Hm Ec)|].
  intros [[rc k] mx] s1 (H1 & Ed1 & Hrc). destruct Hrc as [Hb|([= -> -> ->] & Q1 & Q2 & Q3 & Q4)].
  { cbn [fst] in Hb. destruct (bad_neq _ Hb) as (-> & -> & _). cbn [negb]. apply or_bad_fail; [apply H1|done]. }
  change (SQLITE_OK =? SQLITE_OK) with true. cbn [negb]. wp_go. unfold id, segment_records.
  destruct (Z.eqb_spec (rlen rs2) 0xffffffff); [lia|]. rewrite andb_false_r. cbn [andb]. unfold JOURNAL_HDR_SZ.
  rewrite Q1, (proj1 (ho_pg _ H1)).
  eapply (wp_after _ _ (fun rc s2 => trail_safe s2 /\ (rc = SQLITE_OK /\ played rs1 s2 /\ place (pg s1) (pg s2) \/ bad rc))).
  { destruct Hs as [(-> & -> & _)|[Hne P]].
    - rewrite Z.add_0_l, Z.eqb_refl. eapply wp_seq; [apply (wp_cut s1 H1); by apply Q3|]. intros rc s2 [T2 H2].
      destruct H2 as [[-> (H2 & E2 & [R1 R2] & L2)]|Hb].
      + change (SQLITE_OK =? SQLITE_OK) with true. cbv iota. wp_go. split; [done|]. left. split; [done|].
        split; [|cbn; case_match; done]. split; cbn [pg df set_pg]; try (by case_match); try done.
        eapply (hot_step (fun p => if mxPgno (set_dbSize n p) <? n then set_mxPgno n (set_dbSize n p) else set_dbSize n p) s2); [done|done|].
        case_match; by destruct H2 as [(? & ?)].
      + destruct (bad_neq _ Hb) as (-> & _). wp_go. split; [done|]. by right.
    - destruct (Z.eqb_spec (h + Sz) Sz); [lia|]. wp_go. split; [apply H1|]. left. split; [done|]. split; [|done].
      destruct (Q4 Hne) as [R1 R2]. split; [done|by rewrite R1; apply P|by rewrite R2; apply P|rewrite Ed1; apply P|rewrite Ed1; apply P]. }
  intros rc s2 [T2 H2]. destruct H2 as [(-> & P2 & R1 & R2)|Hb].
  2:{ destruct (bad_neq _ Hb) as (-> & _). cbn [negb]. by apply or_bad_fail. }
  change (SQLITE_OK =? SQLITE_OK) with true. cbn [negb]. unfold rlen at 1. rewrite Nat2Z.id.
  eapply wp_seq; [apply (wp_records ck rs2 rs1 (h + Sz)); try done; [lia|congruence|congruence]|].
  intros [x npr'] s3 [T3 H3]. cbn [fst] in H3. destruct H3 as [(-> & P3 & E3)|(rc & -> & Hb)].
  - apply Hk; [done|]. rewrite (hdr_offset (pg s3)) by apply (pl_hot _ _ P3). by rewrite E3.
  - by apply or_bad_fail.
Qed.

Lemma wp_segments h rs2 e : chain Sz ps n j h rs2 e -> forall rs1 fuel npr s,
  e = N -> 0 < h -> played rs1 s -> journalHdrOffset (pg s) = h -> Forall rec_of rs2 -> rlen rs2 < 0xffffffff ->
  0 < Z.of_nat fuel -> blen j - h < Z.of_nat fuel ->
  wp (playback_loop fuel true (blen j) npr) (or_bad (fun s' => played (rs1 ++ rs2) s' /\ journalOff (pg s') <> 0)) s.
Proof.
  induction 1 as [h|h ck rs2 rs' e A B C D E IH]; intros rs1 fuel npr s -> H0 P Eh Hf Hs Hfuel Hl; (destruct fuel as [|fuel]; [lia|]).
  - rewrite app_nil_r. cbn [playback_loop]. eapply wp_seq; [apply (wp_hdr_none N); [apply P|done|lia|apply Hj]|].
    intros [[rc k] mx] s1 (H1 & Ed & E1 & E2 & E3 & Hrc). cbn [fst] in Hrc.
    assert (Hne : (rc =? SQLITE_OK) = false) by (destruct Hrc as [Hb| ->]; [by apply bad_neq|done]). rewrite Hne. cbn [negb].
    apply wp_ret. split; [apply H1|]. destruct Hrc as [Hb| ->]; [right; by destruct (bad_neq _ Hb) as (_ & -> & _)|left].
    split; [done|]. split; [|lia]. split; rewrite ?Ed; [done|rewrite E2; apply P|rewrite E1; apply P|apply P|apply P].
  - apply Forall_app in Hf as [Hf1 Hf2]. assert (Hs' : rlen rs2 + rlen rs' < 0xffffffff) by (unfold rlen in *; rewrite length_app in Hs; lia).
    assert (0 <= rlen rs2 /\ 0 <= rlen rs') by (unfold rlen; lia). assert (0 <= rlen rs2 * PG) by (apply Z.mul_nonneg_nonneg; lia).
    assert (S0 : 0 < Sz) by lia. destruct (sector_up_spec Sz (h + Sz + rlen rs2 * PG) S0) as [U1 _]; [lia|]. pose proof C as (_ & _ & _ & _ & C').
    eapply (wp_segment h ck rs2 rs1); try done; [lia|right; split; [lia|done]|lia|].
    intros npr' s1 P1 E1. rewrite app_assoc. apply IH; try done; lia.
Qed.

(** The database is the original one, but for the pages nobody needs, and so is
    its size if the journal was played back. *)
Definition restored (d : bytes) : Prop := dimg ps n orig [] d /\ (magic_at j 0 -> blen d = n * ps).
Definition found (s : pst) : Prop :=
  hot s /\ restored (f_cur (df s)) /\ (journalOff (pg s) = 0 -> cold j).

Lemma recs_known : Forall rec_of rs.
Proof.
  apply List.Forall_forall. intros r Hr. split; [|apply elem_pgs, list_elem_of_In, in_map; done].
  destruct Hgood as [Hg _]. rewrite List.Forall_forall in Hg. by apply Hg.
Qed.
Lemma played_found s : played rs s -> journalOff (pg s) <> 0 -> found s.
Proof.
  intros P Hne. split_and!; [apply P| |done]. split; [|intros _; apply P].
  destruct (always_cur _ _ _ (ho_d _ (pl_hot _ _ P))) as (D1 & D2 & D3). split_and!; [done|done|]. intros p Hp Hni.
  assert (Hu : p ∉ unused orig) by (intros Hu; apply Hni, elem_known; by right).
  destruct (decide (p ∈ pgs rs)) as [Hin|Hnr]; [by apply (pl_done _ _ P)|]. apply D3; [done|]. by intros [?|?]%elem_known.
Qed.
Lemma wp_whole_journal npr s :
  hot s -> journalOff (pg s) = 0 -> wp (playback_loop (S (Z.to_nat (blen j))) true (blen j) npr) (or_bad found) s.
Proof.
  intros Hh E0. pose proof (blen_nonneg j) as Hl. assert (Eh : journalHdrOffset (pg s) = 0) by (unfold journalHdrOffset; by rewrite E0).
  pose proof recs_known as Hk. pose proof played_found as Hfound. destruct Hj as (J1 & J2 & J3). destruct Hgood as [_ Hsm].
  remember 0 as h eqn:E in J2. remember rs as rsj eqn:Ers in J2. remember N as eN eqn:EN in J2.
  destruct J2 as [h|h ck rs2 rs' e A B C D F]; subst h.
  - rewrite <- EN in J3. cbn [playback_loop]. eapply wp_seq; [by apply (wp_hdr_none 0)|].
    intros [[rc k] mx] s1 (H1 & Ed & E1 & E2 & E3 & Hrc). cbn [fst] in Hrc.
    assert (Hne : (rc =? SQLITE_OK) = false) by (destruct Hrc as [Hb| ->]; [by apply bad_neq|done]). rewrite Hne. cbn [negb].
    apply wp_ret. split; [apply H1|]. destruct Hrc as [Hb| ->]; [right; by destruct (bad_neq _ Hb) as (_ & -> & _)|left].
    split; [done|]. split; [done|]. split; [|by intros]. split; [|done].
    rewrite Ers. eapply always_cur, H1.
  - rewrite <- Ers in Hk, Hsm, Hfound. apply Forall_app in Hk as [Hk1 Hk2].
    assert (Hs' : rlen rs2 + rlen rs' < 0xffffffff) by (unfold rlen in *; rewrite length_app in Hsm; lia).
    assert (0 <= rlen rs2 /\ 0 <= rlen rs') by (unfold rlen; lia). assert (0 <= rlen rs2 * PG) by (apply Z.mul_nonneg_nonneg; lia).
    assert (S0 : 0 < Sz) by lia. destruct (sector_up_spec Sz (0 + Sz + rlen rs2 * PG) S0) as [U1 _]; [lia|]. pose proof C as (_ & _ & _ & _ & C').
    eapply (wp_segment 0 ck rs2 []); try done; [by left|lia|].
    intros npr' s1 P1 E1. eapply okp_mono; [eapply (wp_segments _ rs' e F rs2)|]; try done; try lia.
    intros rc s2 [T2 H2]. split; [done|]. destruct H2 as [(-> & P2 & H2)|Hb]; [left|by right]. split; [done|]. by apply Hfound.
Qed.
End Play.
