(* ===== verification/JrnlHot.v ===== *)
(** * Recovery after a power loss

    The end of the playback of a journal: the database is synced, then the
    journal is made invalid.  With the playback of [JrnlPlay.v] this is the
    recovery of a database after a power loss ([play_hot_journal]). *)
From stdpp Require Import gmap.
From S2P Require Import Prelude Bits Bytes Varint Wal WalIndex WalRecover WalRecovery WalWrite WalFile WalTx WalSteps Jrnl JrnlFile JrnlSteps JrnlSync JrnlWrite JrnlCache JrnlCommit JrnlEnd JrnlTx JrnlPlay.

Section Hot.
Context `{W : World} (ps n : Z) (orig : old_db) (j : bytes) (rs : list jrec) (N : Z).
Hypothesis (Hset : setting ps n) (Hdone : forall k, ioRc k <> SQLITE_DONE).
Hypothesis (Hpow : not_pow2 ps = false /\ not_pow2 sector = false).
Hypothesis (Hj : jimg sector ps n rs N j) (Hgood : good_recs ps n (lck ps) orig rs).
Let Hps : 512 <= ps <= SQLITE_MAX_PAGE_SIZE := se_page _ _ Hset.
Let Hdu : durable := se_durable _ _ Hset.
Abbreviation Sz := sector.
Abbreviation trail_safe := (trail_safe ps n orig).
Abbreviation hot := (hot ps n orig j rs).
Abbreviation hot_pg := (hot_pg j).
Abbreviation found := (found ps n orig j rs).
Abbreviation restored := (restored ps n orig j).
Abbreviation or_bad := (or_bad ps n orig).

(** *** The end of the playback *)

(** Without failures of the world there is no error. *)
Definition fine (rc : Z) : Prop := rc = SQLITE_OK \/ faulty.
Definition works (A : M pst Z) : Prop := forall s, wp A (returns (fun rc _ => fine rc)) s.
Lemma fine_io k : fine (ioRc k).
Proof. destruct (Z.eqb_spec (ioRc k) SQLITE_OK); [by left|right]. exists k. by left. Qed.
Lemma works_code A : (forall s, exists s', A s = (Ret (ioRc (nio s)), s')) -> works A.
Proof. intros H s. unfold wp. destruct (H s) as [s' ->]. apply fine_io. Qed.
Lemma works_ret rc : fine rc -> works (ret rc).
Proof. by intros H s. Qed.
Lemma works_seq A (k : Z -> M pst Z) : works A -> (forall rc, fine rc -> works (k rc)) -> works (let* rc := A in k rc).
Proof. intros H1 H2 s. eapply wp_seq; [apply H1|]. intros rc s' H. by apply H2. Qed.
Lemma works_then {A} (m : M pst A) k : (forall s, wp m (returns (fun _ _ => True)) s) -> works k -> works (m ;;* k).
Proof. intros H1 H2 s. eapply wp_seq; [apply H1|]. intros a s' _. apply H2. Qed.
Lemma works_get {A} (f : pst -> A) k : (forall a, works (k a)) -> works (let* a := gets f in k a).
Proof. intros H s. wp_go. apply H. Qed.
Lemma works_size w k : (forall rc z, fine rc -> works (k (rc, z))) -> works (let* r := os_size w in k r).
Proof. intros H s. apply wp_bind. unfold os_size, wp. cbn [fst snd after]. apply H, fine_io. Qed.
Lemma works_truncate w k : works (os_truncate w k).
Proof. apply works_code. intros s. apply trunc_code. Qed.
Lemma works_write w d off : works (os_write w d off).
Proof. apply works_code. intros s. apply write_code. Qed.
Lemma works_sync w flags : works (os_sync w flags).
Proof. unfold os_sync. case_match; [apply works_ret; by left|]. apply works_code. eauto. Qed.
Lemma works_request : works request.
Proof. apply works_code. unfold request. eauto. Qed.

Lemma works_zero : works (zeroJournalHdr false).
Proof.
  apply works_get. intros off. case_match; [apply works_ret; by left|].
  apply works_seq; [case_match; [apply works_truncate|apply works_write]|]. intros rc Hrc.
  apply works_seq; [case_match; [apply works_sync|by apply works_ret]|]. intros rc2 Hrc2.
  case_match; [|by apply works_ret]. apply works_size. intros rc3 z Hrc3. case_match; [apply works_truncate|by apply works_ret].
Qed.
Lemma works_finalize : works (finalize_journal false).
Proof.
  assert (Hset_off : forall f rc, fine rc -> works (setp f ;;* ret rc)) by (intros f rc Hrc; by apply works_then; [|apply works_ret]).
  apply works_get. intros p. case_match; [apply works_ret; by left|]. case_match; [|case_match].
  - apply works_seq; [|auto]. case_match; [apply works_ret; by left|].
    apply works_seq; [apply works_truncate|]. intros rc Hrc. case_match; [apply works_sync|by apply works_ret].
  - apply works_seq; [apply works_zero|auto].
  - apply works_then; [done|]. apply works_code. unfold os_delete. eauto.
Qed.
Lemma works_end : works (pager_end_transaction false false).
Proof.
  apply works_get. intros p. case_match; [apply works_ret; by left|].
  apply works_seq; [apply works_finalize|]. intros rc Hrc. do 2 (apply works_then; [done|]).
  apply works_then; [intros s; by case_match|]. apply works_get. intros p2. rewrite !andb_false_r. cbn [andb].
  apply works_seq; [by apply works_ret|]. intros rc2 Hrc2. rewrite andb_false_r.
  apply works_seq; [by apply works_ret|]. intros rc3 Hrc3.
  apply works_seq; [|intros rc4 Hrc4; apply works_then; [done|]; apply works_ret; by case_match].
  case_match; [|apply works_ret; by left]. apply works_seq; [apply works_request|]. intros rc5 Hrc5. apply works_get. intros l.
  apply works_then; [intros s; by case_match|]. apply works_then; [done|]. by apply works_ret.
Qed.

Lemma found_end s : found s -> f_pend (df s) = [] -> end_inv ps n orig restored rs N s.
Proof.
  intros (H & R & C) E. assert (Ed : f_disk (df s) = f_cur (df s)) by (unfold f_cur; by rewrite E).
  split; [| | |done|].
  - intros d Hd. left. by apply (fi_j _ _ _ _ _ _ (hot_files ps n orig j rs N Hset Hj Hgood _ H)).
  - apply H.
  - intros d Hd. unfold crash in Hd. rewrite E in Hd. apply crashes_nil_inv in Hd as ->. by rewrite Ed.
  - eapply list.Forall_impl; [apply H|]. intros f Hf a b Ha Hb. left. by apply Hf.
Qed.
Lemma found_step f s s' : found s -> pg_step f s s' -> hot_pg (f (pg s)) -> journalOff (f (pg s)) = journalOff (pg s) -> found s'.
Proof.
  intros (H & R & C) Hs Hp Ho. split; [by eapply hot_step|]. destruct Hs as (E1 & _ & _ & E4 & _). by rewrite E1, E4, Ho.
Qed.
(** The database is synced. *)
Lemma wp_found_sync s : found s -> wp sqlite3PagerSync (or_bad (fun s' => found s' /\ f_pend (df s') = [])) s.
Proof.
  intros F. pose proof F as (H & R & C). unfold sqlite3PagerSync. apply wp_bind. unfold request, wp. cbn [fst snd after].
  assert (F1 : found (tick s)) by (apply (found_step id s); [done|done|apply H|done]). rewrite (du_sync Hdu), andb_true_r.
  destruct (_ =? SQLITE_OK) eqn:E.
  - eapply wp_mono; [apply (code_or_bad ps n orig Hset Hdone (os_sync DF syncFlags) _ (tick s) (wp_sync_d ps n orig rs N syncFlags _ (hot_files ps n orig j rs N Hset Hj Hgood _ (proj1 F1)) ltac:(destruct (du_flags Hdu) as [->| ->]; done)))|].
    + unfold os_sync. destruct (Z.eqb_spec syncFlags 0) as [E0|_]; [destruct (du_flags Hdu) as [X|X]; rewrite X in E0; done|]. eauto.
    + intros [rc|rc|] s' P; [|done|done]. destruct P as [T P]. split; [done|]. destruct P as [(-> & I & [M1 M2] & Ej & Ed)|Hb]; [left|by right].
      split; [done|]. split; [|by rewrite Ed]. split; [|by rewrite Ed, M1].
      apply (files_hot ps n orig j rs N (tick s)); [apply F1|done|done|done|]. rewrite M1. apply H.
  - apply or_bad_fail; [apply H|]. destruct (Z.eqb_spec (ioRc (nio s)) SQLITE_NOTFOUND); [done|]. apply (bad_io ps n Hset Hdone). by apply Z.eqb_neq.
Qed.

(** What recovery ends with. *)
Definition recovered : out Z -> pst -> Prop :=
  returns (fun rc s => trail_safe s /\ fine rc /\ (rc = SQLITE_OK -> cold (f_cur (jf s)) /\ restored (f_cur (df s)))).
Lemma cold_safe j' d : cold j' -> dimg ps n orig [] d -> safe Sz ps n (lck ps) orig j' d.
Proof.
  intros [A B] D. exists [], 0. split; [split_and!; [done|constructor|done]|]. split; [|done]. split; [constructor|done].
Qed.
Lemma either_safe s : Forall (either_pair ps n orig restored) (trail s) -> trail_safe s.
Proof.
  intros H. eapply list.Forall_impl; [exact H|]. intros f Hf a b Ha Hb. destruct (Hf a b Ha Hb) as [|[C [D _]]]; [done|].
  by apply cold_safe.
Qed.
Lemma wp_found_end s :
  found s -> f_pend (df s) = [] -> wp (pager_end_transaction false false) recovered s.
Proof.
  intros F E. pose proof F as (H & R & C). destruct (ho_pg _ _ _ _ _ _ H) as (A1 & A2 & A3 & A4 & A5 & A6).
  pose proof (found_end _ F E) as I.
  eapply wp_mono; [apply (wp_and _ _ _ _ (wp_end_transaction ps n orig Hset restored false rs N s I ltac:(by rewrite A3, A4) A5 ltac:(intros E0; rewrite (ho_jf _ _ _ _ _ _ H); apply (always_flushed _ _ (mkFile j [])); by apply C) ltac:(done)) (works_end s))|].
  intros [rc|rc|] s'; [|done|done]. intros [[T P] Hf]. split; [by apply either_safe|]. split; [done|]. intros Hrc. by destruct (P Hrc) as (? & ? & _).
Qed.

Lemma bad_fine rc : bad rc -> fine rc.
Proof. intros (_ & _ & _ & H). by right. Qed.
Lemma wp_pager_playback s :
  hot s -> 0 < pageSize (pg s) -> wp (pager_playback true) recovered s.
Proof.
  intros H Hp. unfold pager_playback, getp, setp. wp_go.
  assert (Hout : forall rc s', trail_safe s' -> bad rc -> wp
    (modify (fun s => set_pg (set_changeCountDone false (pg s)) s) ;;*
     let* p := gets (fun s => id (pg s)) in
     let* rc := (if (rc =? SQLITE_OK) && ((PAGER_WRITER_DBMOD <=? eState p) || (eState p =? PAGER_OPEN)) then sqlite3PagerSync else ret rc) in
     let* rc := (if rc =? SQLITE_OK then pager_end_transaction false false else ret rc) in
     modify (fun s => set_pg (set_sectorSize sector (pg s)) s) ;;* ret rc) recovered s').
  { intros rc s' T Hb. wp_go. destruct (bad_neq _ Hb) as (-> & _). cbn [andb]. wp_go. destruct (bad_neq _ Hb) as (-> & _). wp_go.
    split; [done|]. split; [by apply bad_fine|]. intros ->. by destruct Hb. }
  unfold os_size, wp. cbn [fst snd after get_file]. rewrite (ho_jf _ _ _ _ _ _ H). change (f_cur (mkFile j [])) with j.
  assert (H1 : hot (tick s)) by by eapply hot_idle.
  destruct (Z.eqb_spec (ioRc (nio s)) SQLITE_OK) as [->|Hrc].
  2:{ cbn [negb]. wp_go. rewrite (proj2 (Z.eqb_neq _ _) Hrc). apply wp_ret. cbn [after]. apply Hout; [apply H|by apply (bad_io ps n Hset Hdone)]. }
  change (SQLITE_OK =? SQLITE_OK) with true. cbn [negb]. wp_go.
  eapply wp_after; [apply (wp_whole_journal ps n orig j rs N Hset Hdone Hpow Hj Hgood); [|done]; apply (hot_step ps n orig j rs (set_journalOff 0) (tick s)); [done|done|apply H]|].
  intros rc s1 [T1 P1]. destruct P1 as [(-> & F1)|Hb].
  2:{ destruct (bad_neq _ Hb) as (E & _). rewrite E. apply wp_bind, wp_ret. cbn [after]. by apply Hout. }
  change (SQLITE_OK =? SQLITE_OK) with true. cbv iota. wp_go.
  eapply wp_after; [apply (wp_hot_SetPagesize ps n orig j rs (pageSize (pg s)) s1); [apply F1|done]|].
  intros r s2 (H2 & Ed2 & [Q1 Q2] & Hr). apply wp_ret. cbn [after]. destruct Hr as [Hb|[-> _]]; [apply Hout; [apply H2|done]|].
  cbn [returns okp]. wp_go. unfold id. cbn [pg set_pg eState set_changeCountDone].
  assert (F2 : found s2) by (destruct F1 as (_ & R & C); split; [done|]; by rewrite Ed2, Q1).
  rewrite (proj1 (proj2 (proj2 (ho_pg _ _ _ _ _ _ H2)))). change (PAGER_OPEN =? PAGER_OPEN) with true. rewrite orb_true_r.
  change (SQLITE_OK =? SQLITE_OK) with true. cbn [andb].
  eapply wp_after; [apply wp_found_sync, (found_step (set_changeCountDone false) s2); [done|done|apply H2|done]|].
  intros rc s3 [T3 P3]. destruct P3 as [(-> & F3 & E3)|Hb].
  2:{ destruct (bad_neq _ Hb) as (E & _). rewrite E. wp_go. split; [done|]. split; [by apply bad_fine|]. intros ->. by destruct Hb. }
  change (SQLITE_OK =? SQLITE_OK) with true. cbv iota.
  eapply wp_seq; [by apply wp_found_end|]. intros rc s4 P4. wp_go. exact P4.
Qed.
End Hot.

(** ** Recovery after a power loss *)

(** The playback of a hot journal, as [sqlite3PagerSharedLock] calls it. *)
Definition play_hot_journal `{W : World} : M pst Z :=
  pagerSyncHotJournal ;;?
  let* rc := pager_playback true in
  setp (set_eState PAGER_OPEN) ;;*
  ret rc.

(** A new connection, with the exclusive lock and the journal open, finds the
    files [j] and [d]. *)
Record after_crash `{W : World} (j d : bytes) (s : pst) : Prop := {
  ac_pg : sectorSize (pg s) = sector /\ nRefSum (pg s) = 0 /\ eState (pg s) = PAGER_OPEN /\
    eLock (pg s) = EXCLUSIVE_LOCK /\ jOpen (pg s) = true /\ 0 < pageSize (pg s);
  ac_pc : pc s = ∅;
  ac_files : jf s = mkFile j [] /\ df s = mkFile d [] /\ trail s = [];
}.

Lemma wp_SyncHotJournal `{W : World} ps n orig j rs N d s :
  setting ps n -> (forall k, ioRc k <> SQLITE_DONE) -> jimg sector ps n rs N j -> good_recs ps n (lck ps) orig rs -> dimg ps n orig rs d ->
  after_crash j d s ->
  wp pagerSyncHotJournal (returns (fun rc s' => trail_safe ps n orig s' /\ fine rc /\ (rc = SQLITE_OK -> hot ps n orig j rs s' /\ pageSize (pg s') = pageSize (pg s)))) s.
Proof.
  intros Hset Hdone Hj Hg Hd [(A1 & A2 & A3 & A4 & A5 & A6) B (C1 & C2 & C3)].
  unfold pagerSyncHotJournal, setp. rewrite (du_sync (se_durable _ _ Hset)). cbn [negb]. apply wp_bind.
  unfold os_sync. change (SQLITE_SYNC_NORMAL =? 0) with false. cbv iota. unfold wp. cbn [fst snd].
  assert (T0 : trail_safe ps n orig s) by (unfold JrnlSteps.trail_safe; rewrite C3; constructor).
  destruct (Z.eqb_spec (ioRc (nio s)) SQLITE_OK) as [->|Hrc].
  2:{ cbn [after]. rewrite (proj2 (Z.eqb_neq _ _) Hrc). wp_go. split; [done|]. split; [apply fine_io|done]. }
  assert (Ej : flushed (jf s) = mkFile j []) by (rewrite C1; done). cbn [after get_file]. rewrite Ej. change (SQLITE_OK =? SQLITE_OK) with true. cbv iota.
  assert (Hdd : always sector (dimg ps n orig rs) (mkFile d [])) by (intros x Hx; by apply crashes_nil_inv in Hx as ->).
  set (s1 := tick _). assert (T1 : trail_safe ps n orig s1).
  { constructor; [|done]. rewrite C2. intros x y Hx Hy. apply crashes_nil_inv in Hx as ->. apply crashes_nil_inv in Hy as ->. by eapply jimg_safe. }
  apply wp_bind. unfold os_size, wp. cbn [fst snd after].
  destruct (Z.eqb_spec (ioRc (nio s1)) SQLITE_OK) as [->|Hrc]; wp_go; (split; [done|]); (split; [first [by left|apply fine_io]|]); [|done].
  intros _. split; [|done]. split; [|done|done|by rewrite <- C2 in Hdd|done]. unfold hot_pg. cbn. split_and!; done || lia.
Qed.

(** C2: Recovery works.  Let [j] and [d] be what a power loss left of a journal
    and a database, so that the journal has the original content of each page
    that differs (as [transaction_is_atomic] says of every moment).  Then the
    playback of the journal by the next connection, whose page size may be
    another, returns; at every moment of it a power loss leaves files of the
    same kind, also when it fails; if it returns [SQLITE_OK], the database has
    all its original pages (but for those that were free, [unused orig]), and its
    original size if the journal had a valid header, and the journal is no longer
    valid; and it does so if no request to the system and no allocation fails. *)
Theorem hot_journal_restores `{W : World} ps n orig j d s :
  setting ps n -> (forall k, ioRc k <> SQLITE_DONE) -> not_pow2 ps = false /\ not_pow2 sector = false ->
  safe sector ps n (lck ps) orig j d -> after_crash j d s ->
  exists rc s', play_hot_journal s = (Ret rc, s') /\ Forall (safe_pair ps n orig) (trail s') /\
    (rc = SQLITE_OK ->
       (forall p, 1 <= p <= n -> p ∉ unused orig -> db_pg ps (f_cur (df s')) p = db_pg ps orig p) /\
       (magic_at j 0 -> blen (f_cur (df s')) = n * ps) /\ cold (f_cur (jf s'))) /\
    ((forall k, ioRc k = SQLITE_OK /\ mallocOk k = true) -> rc = SQLITE_OK).
Proof.
  intros Hset Hdone Hpow (rs & N & Hj & Hg & Hd) Ha.
  assert (X : wp play_hot_journal (returns (fun rc s' => trail_safe ps n orig s' /\ fine rc /\
    (rc = SQLITE_OK -> cold (f_cur (jf s')) /\ restored ps n orig j (f_cur (df s'))))) s).
  { unfold play_hot_journal, try_, setp. eapply wp_seq; [by eapply wp_SyncHotJournal|]. intros rc s1 (T1 & Hf & P1).
    destruct (Z.eqb_spec rc SQLITE_OK) as [->|Hrc]; [|wp_go; by split_and!]. destruct (P1 eq_refl) as [H1 E1].
    eapply wp_seq; [by eapply (wp_pager_playback ps n orig j rs N); try done; rewrite E1; apply Ha|]. intros rc2 s2 P2. wp_go. exact P2. }
  unfold wp in X. destruct (play_hot_journal s) as [[rc|rc|] s'] eqn:E; [|done|done]. cbn [fst snd] in X. destruct X as (T & F & R).
  exists rc, s'. split_and!; [done|done| |].
  - intros Hrc. destruct (R Hrc) as [C [(D1 & D2 & D3) L]]. split_and!; try apply C; [|done]. intros p Hp Hu. apply D3; [done|].
    by intros [?%not_elem_of_empty|?]%elem_known.
  - intros Hok. destruct F as [F|[k F]]; [done|]. destruct (Hok k) as [K1 K2]. destruct F; congruence.
Qed.

(** ** A small recovery *)

Module HotDemo.
#[local] Existing Instance Demo.demo.
(** The power fails after the first phase of the commit. *)
Definition j : bytes := f_cur (jf Demo.s7).
Definition d : bytes := f_cur (df Demo.s7).
Definition pager1 : Pager :=
  mkPager PAGER_OPEN EXCLUSIVE_LOCK SQLITE_OK false 0 0 0 0 0 0 1024 512 0 0 0 0 0 None (zeros 16) true 0.
Definition s : pst := mkPst pager1 ∅ (mkFile j []) (mkFile d []) 0 [].
Lemma demo_safe : safe sector 512 2 (lck 512) Demo.db0 j d.
Proof.
  destruct Demo.demo_steps as (C & Hs & _).
  pose proof (wp_CommitPhaseOne 512 2 Demo.db0 Demo.demo_setting [] Demo.s6
    (proj1 (wr_run 512 2 Demo.db0 Demo.demo_setting _ _ _ _ _ Demo.demo_reader Demo.demo_begin Hs))) as X.
  destruct (wp_run _ _ _ _ _ X Demo.demo_phase_one) as [_ Y].
  destruct (Y eq_refl) as [[[E _] _]|(_ & _ & _ & (rs & N & I) & _)]; [discriminate (eq_trans (eq_sym Demo.demo_state) E)|].
  destruct I as [I1 I2 I3 _ _]. exact (jimg_safe _ _ _ _ _ _ _ _ _ (always_cur _ _ _ I1) I3 (always_cur _ _ _ I2)).
Qed.
Lemma demo_after : after_crash j d s.
Proof. split; [by split_and!|done|done]. Qed.

Lemma demo_used : 1 ∉ unused Demo.db0.
Proof. cbn. set_solver. Qed.
Lemma demo_range : 1 <= 1 <= 2.
Proof. lia. Qed.

Lemma hot_journal_restores_witness :
  db_pg 512 d 1 <> replicate 512 1 /\ exists s', play_hot_journal s = (Ret SQLITE_OK, s') /\ db_pg 512 (f_cur (df s')) 1 = replicate 512 1.
Proof.
  split; [intros E; by vm_compute in E|].
  destruct (hot_journal_restores 512 2 Demo.db0 j d s Demo.demo_setting ltac:(done) ltac:(by vm_compute) demo_safe demo_after)
    as (rc & s' & E & _ & R & F).
  pose proof (F (fun k => conj eq_refl eq_refl)) as Hrc. rewrite Hrc in E. exists s'. split; [exact E|].
  destruct (R Hrc) as [R1 _]. rewrite (R1 1 demo_range demo_used). vm_compute. reflexivity.
Defined.
End HotDemo.
